(* ===== verification/_CoqProject ===== *)
-Q . S2P
Prelude.v
Config.v
Address.v
PhysMem.v
FrameAllocator.v
PageTable.v
PageTableSpec.v
UserMem.v
MemorySet.v
AddressSpace.v
MemorySetSpec.v
UserMaps.v
Fork.v
Pipe.v
BlockCache.v
SdCard.v
SdCardSpec.v
Fat.v
PageCache.v
FdTable.v
Sched.v
Sync.v
Futex.v
Timer.v
Ids.v
Signals.v
Utf.v
Process.v
Exec.v
ProcessTree.v
ProcessSpec.v
ExecSpec.v
Layout.v
Inode.v
InodeSpec.v
Dir.v
DirSpec.v
OSInode.v
OSInodeSpec.v
Tree.v
RamFs.v
TreeSpec.v
TreeView.v
TreePaths.v
