(* ===== verification/Prelude.v ===== *)
(** * Verification of the Main.os(2)(1)(1) kernel

    The program is a Unix-like kernel for RISC-V (Sv39) written in Rust, under
    [src/kernel/src].  This library translates its memory management, its
    caches, FAT32 file system and directory tree, its pipes and descriptor
    tables, its scheduler, locks, timers, signals and processes, and its SD card
    driver into executable definitions, and proves what these parts promise to each other and to user programs.

    ** How the code is modelled

    Machine words are integers [Z]; arithmetic that can leave its width is
    wrapped explicitly ([wrap64], [wrap32], ...), as in a release build, where
    overflow does not panic.  [assert!], [unwrap], slice and index errors are
    [Panic].  Code that changes state is a function of the monad [ST], which
    threads the state and may panic; [wp m Q s] says that [m] run in [s]
    returns (it neither panics nor runs out of fuel) and [Q] holds then.
    Dropping an [Arc<FrameTracker>] frees a frame, so drops are calls of the
    model.  Code that waits (pipes, locks, futexes, signals) is a state
    advanced round by round, where a round is what runs without another task
    in between, and an execution is any interleaving of rounds.  The board is
    qemu; the K210 changes constants and the block device, and lets [execve]
    skip two more programs.

    ** Files

    - [Prelude.v]: the monad, [wp] and its rules, tactics, machine integers,
      lists.
    - [Config.v]: [config.rs], [mm/config.rs], [boards/qemu.rs].
    - [Address.v], [PhysMem.v]: [mm/address.rs], with physical memory as
      a function from addresses to bytes.
    - [FrameAllocator.v]: [mm/frame_allocator.rs].  The trait is a class, its
      contract the class [FrameAllocatorSpec]; everything above is proved
      against the contract.  [frames_never_shared].
    - [PageTable.v], [PageTableSpec.v]: the [PageTable] of
      [mm/page_table.rs], three levels of tables in physical memory.
      [page_table_refines_map]: any sequence of calls behaves as on a finite
      map, and panics when the map operation is undefined.
    - [UserMem.v]: [translated_byte_buffer], [translated_str] and [UserBuffer]
      of [mm/page_table.rs].  Theorems: the slices are the bytes of the user
      range, in order; iteration and writing visit exactly these.
    - [MemorySet.v]: [mm/memory_set.rs], areas, heap, [mmap], copies.
      [AddressSpace.v] has the invariant (every frame of an address space is
      owned once and is not free) and the rules of single pages;
      [MemorySetSpec.v] the whole operations and what dropping returns;
      [UserMaps.v] heap, [mmap], [munmap] and [mprotect]; [Fork.v]
      [from_existed_user], with [fork_copies_address_space].
    - [Pipe.v]: [fs/dev/pipe.rs].  [pipe_is_fifo]: in any interleaving of
      readers and writers the bytes read followed by those in the ring are
      the bytes written.  [pipe_user_roundtrip] goes through user memory.
    - [BlockCache.v], [PageCache.v]: [fs/cache.rs] and the block device of
      [drivers/block/virtio_blk.rs].  Transparency: what a reader sees through
      the cache, eviction included, is what an uncached disk would hold.
    - [SdCard.v], [SdCardSpec.v]: [drivers/block/sdcard.rs], the block device of
      the K210 board.  [sd_card_refines_disk]: on a card that follows the
      serial protocol and fails at most four times in a row, it is the block device
      that the caches are proved for, for reads and for writes of single sectors
      (writes of several sectors do not follow the protocol and are not covered).
    - [Fat.v]: [fs/fat32/bitmap.rs] and the geometry of [fs/fat32/efs.rs].
      Allocation returns free clusters and claims them, if there are enough behind
      the hint; freeing makes a cluster available again.
    - [Utf.v], [Layout.v]: [fs/fat32/layout.rs], [EasyFileSystem::open], and
      the generation of names of [fs/fat32/vfs.rs].  Directory entries are
      their bytes; strings are lists of Unicode scalar values with the
      encodings of the standard library.  [gen_dir_ent_names]: the entries of
      a name give it back, with a short name that is new.
    - [Inode.v], [InodeSpec.v]: the content of files of [fs/fat32/vfs.rs]: an
      inode with its page cache over its chain of clusters.
      [inode_refines_bytes]: reads, writes that leave no gap and changes of the size
      act as on a list of bytes; [inode_others_kept]: and leave other files alone;
      [inode_reopen]: what has been written back is there when the file is
      opened again.
    - [Dir.v], [DirSpec.v]: [fs/fat32/dir_iter.rs] and the directories of
      [fs/fat32/vfs.rs], on top of the inodes.  A directory is a list of
      files and holes ([dir_rep]); listing, search, creation and deletion act
      on that list ([directory_lookup], [create_find_delete],
      [delete_dir_ent_correct]).
    - [OSInode.v], [OSInodeSpec.v]: [fs/fat32/inode.rs] and the structures of
      [fs/layout.rs], the open files.  [open_file_refines]: bytes with an
      offset; [read_user_correct], [write_user_correct]: through user memory.
    - [Tree.v]: [fs/directory_tree.rs], [fs/filesystem.rs] and the calls of
      [FileDescriptor] in [fs/mod.rs] that take a path.  Nodes are numbered, an
      [Arc] is the number of a node and a [Weak] a number that may have none;
      dropping the last [Arc] of a node is [release].  The trait [File] is the
      class [FileTrait]; [RamFs.v] is an instance for examples.
      [TreeSpec.v]: the nodes stay a tree through every call, with rules for
      calls that return ([wlp], since the files may panic).  [TreeView.v]:
      [directory_tree_invariant], and what making, removing and renaming do
      to the paths ([mkdir_makes_path], [delete_removes_path],
      [rename_moves_path]); the renames are those of paths whose normal form does
      not begin with "..".  [TreePaths.v]: paths as strings
      ([parse_dir_path_correct], [get_cwd_roundtrip]), the errors of the calls
      ([tree_call_errors]), and runs that end differently than meant.
    - [FdTable.v]: [FdTable] of [fs/mod.rs] and the calls [dup], [dup3],
      [close], [pipe], [fcntl] and [prlimit].  [fd_table_refines]: while the
      limit is at most 256, the table is a finite map, [insert] never
      replaces an open descriptor.
    - [Sched.v]: [task/manager.rs], [task/processor.rs], and the ways to give
      up the processor of [task/mod.rs].  No task is lost, and with orderly
      wake-ups a task is in one place only ([scheduler_invariant]); a ready task is
      dispatched after the ones before it ([ready_task_runs]).
    - [Sync.v]: [sync/mutex.rs], [sync/semaphore.rs], [sync/condvar.rs].  The
      blocking mutex and the semaphore are two instances of one class of
      locks with a wait queue; mutual exclusion and the counting bound follow
      from its laws in any interleaving in which nobody else wakes a task that
      waits for the lock (the end of a child can: [mutex_broken_by_unblock]).
    - [Futex.v]: [sync/futex.rs], [sys_futex], and the wake-up by [exit].
    - [Timer.v]: [timer.rs].  Times are numbers of nano- or microseconds, and
      [check_timer] wakes exactly the tasks that are due.
    - [Ids.v]: [task/id.rs].  Kernel stacks of live threads never overlap.
    - [Signals.v]: [task/signal.rs], [task/action.rs], delivery in
      [task/mod.rs], [syscall/signal.rs] and the system-call arm of
      [trap/mod.rs].
    - [Process.v]: the control blocks of [task/process.rs] and [task/task.rs],
      the end of threads and processes of [task/mod.rs], and the calls
      [clone], [exit], [wait4], [brk] and those on threads of
      [syscall/process.rs] and [syscall/thread.rs], on the machine, the
      allocators, the scheduler and the timers of the files above.  A reference
      to a block is its address, and a block is dropped when no other refers to
      it.  [Exec.v]: [from_elf] of [mm/memory_set.rs], [exec], [execve], and the
      calls on mappings and clocks.
    - [ProcessTree.v] has the table of processes that user programs see, with its
      steps; [ProcessSpec.v] that the kernel is one ([process_table_refines]):
      calls that leave the tree of processes alone are collected in a hint
      database; [wait4_reaps_child] is what a successful wait does.
      [ExecSpec.v]: the state in which a program starts
      ([exec_starts_program]).  These theorems are about calls that return
      ([wlp]), since a file system that panics or a full memory ends the kernel.

    ** Fuel and bounds

    Loops whose number of rounds is evident in the code are structural, and
    page-table walks have three levels.  Fuel occurs where the code has [loop]
    or [while]: page by page over a user range ([translated_byte_buffer],
    [translated_str], [copy_data], [map_heap], [mmap]; one unit of fuel per
    page or byte), along a cluster chain ([get_all_clus_num]; its length), over
    the pages of a file ([read_loop], [write_loop], [clear_loop]) and the
    entries of a directory ([entries_fuel], their number), up and down the
    directory tree ([get_cwd], [release]; the number of nodes), the retries of
    [alloc_buffer_cache], [check_timer] (the number of timers), the answers of
    the SD card ([get_dataresponse]), the drop of a process and its children
    ([release_process]; the number of processes), and the arguments of [execve]
    (their number and lengths).  A lock
    that is taken twice by one call also is [OutOfFuel].
    The theorems name the fuel that is enough and state that the call returns.

    ** Parameters

    The free frames are the ones a [FrameAllocator] owns.  Files of
    a descriptor table are a type parameter.  The files below the directory
    tree are the class [FileTrait], whose operations may do anything to the
    file systems and may panic.  The disk of the
    [virtio_drivers] crate is a map of sectors whose reads and writes fail
    outside of it.  The serial bus and the card behind it are the class of
    [SdCard.v].  What processes use of files is the classes [ProcFiles] and
    [ExecFiles]; the ELF parser of the [xmas_elf] crate is the argument [elf_new].
    The [time] register is an argument of each reading.

    ** Not modelled

    - [fs/swap.rs], which no other code uses, and the devices of [fs/dev] other
      than pipes, which return constants or talk to the console.
    - The system calls that read and write files ([syscall/fs.rs] mostly,
      [syscall/ppoll.rs]), and those that report on the system.
    - Of processes, the usage counters ([task/rusage.rs]) and
      [load_initialproc], which copies programs out of the kernel image.
    - Assembly ([trap.S], [switch.S], [entry.asm]), boot, console and SBI
      calls, and the pins and clocks that [io_init] sets for the SD card; the
      heap allocator, which is the [buddy_system_allocator] crate. *)

From Stdlib Require Export ZArith Lia Zbitwise.
From stdpp Require Export sorting numbers strings.
From stdpp Require Export base list_basics list_relations list_monad list_misc list_tactics list list_numbers gmap.

#[global] Open Scope Z_scope.

(** ** Outcomes and the state monad

    A Rust function that may panic returns an [outcome]; [OutOfFuel] is the
    extra value of a loop whose termination is a theorem and not a property
    of its definition.  Functions that mutate shared state are state
    transformers [ST]. *)

Inductive outcome (A : Type) : Type :=
  | Ok (a : A)
  | Panic
  | OutOfFuel.
Arguments Ok {A} a.
Arguments Panic {A}.
Arguments OutOfFuel {A}.

#[global] Instance outcome_ret : MRet outcome := fun A a => Ok a.
#[global] Instance outcome_bind : MBind outcome := fun A B f m =>
  match m with
  | Ok a => f a
  | Panic => Panic
  | OutOfFuel => OutOfFuel
  end.

Definition ST (S A : Type) : Type := S → outcome (A * S).

#[global] Instance st_ret {S} : MRet (ST S) := fun A a s => Ok (a, s).
#[global] Instance st_bind {S} : MBind (ST S) := fun A B f m s =>
  match m s with
  | Ok (a, s') => f a s'
  | Panic => Panic
  | OutOfFuel => OutOfFuel
  end.

Definition panic {S A} : ST S A := fun _ => Panic.

Definition out_of_fuel {S A} : ST S A := fun _ => OutOfFuel.

Definition unwrap {S A} (o : option A) : ST S A :=
  match o with Some a => mret a | None => panic end.

Definition rust_assert {S} (b : bool) : ST S unit := if b then mret tt else panic.

Definition get_st {S} : ST S S := fun s => Ok (s, s).

Definition put_st {S} (s : S) : ST S unit := fun _ => Ok (tt, s).

Definition gets {S A} (f : S → A) : ST S A := fun s => Ok (f s, s).

Definition modify {S} (f : S → S) : ST S unit := fun s => Ok (tt, f s).

Definition lift {S A} (o : outcome A) : ST S A :=
  fun s => match o with Ok a => Ok (a, s) | Panic => Panic | OutOfFuel => OutOfFuel end.

(** A [for] loop over the elements of an iterator, carrying the local
    variables [a] that the body updates. *)
Fixpoint st_fold {S A X} (f : A → X → ST S A) (a : A) (l : list X) : ST S A :=
  match l with
  | [] => mret a
  | x :: l' => a' ← f a x; st_fold f a' l'
  end.

(** A [for] loop that a [return] in its body leaves early. *)
Fixpoint st_for_ret {S X B} (f : X → ST S (option B)) (l : list X) : ST S (option B) :=
  match l with
  | [] => mret None
  | x :: l' => r ← f x; match r with Some b => mret (Some b) | None => st_for_ret f l' end
  end.

(** Rust's [Result<A, isize>]: the error is an errno. *)
Inductive Result (A : Type) : Type :=
  | ROk (a : A)
  | RErr (errno : Z).
Arguments ROk {A} a.
Arguments RErr {A} errno.

(** ** Weakest preconditions: total correctness of a state transformer *)

Definition wp {S A} (m : ST S A) (Q : A → S → Prop) (s : S) : Prop :=
  match m s with Ok (a, s') => Q a s' | _ => False end.

(** ** Machine integers

    [usize]/[u64] values are integers in [[0, 2^64)].  The kernel is built in
    release mode, where arithmetic wraps. *)

Declare Scope usize_scope.
Delimit Scope usize_scope with usize.

Definition wrap64 (z : Z) : Z := z mod 2 ^ 64.
Definition wrap32 (z : Z) : Z := z mod 2 ^ 32.
Definition wrap16 (z : Z) : Z := z mod 2 ^ 16.
Definition wrap8 (z : Z) : Z := z mod 2 ^ 8.

Notation "a ⊞ b" := (wrap64 (a + b)) (at level 50, left associativity) : usize_scope.
Notation "a ⊟ b" := (wrap64 (a - b)) (at level 50, left associativity) : usize_scope.
Notation "a ⊠ b" := (wrap64 (a * b)) (at level 40, left associativity) : usize_scope.
#[global] Open Scope usize_scope.

Definition usize_MAX : Z := 2 ^ 64 - 1.

(** Rust's [!x] on [usize]. *)
Definition not64 (x : Z) : Z := Z.lxor x (Z.ones 64).

(** [x as isize]. *)
Definition as_isize (x : Z) : Z := if x <? 2 ^ 63 then x else x - 2 ^ 64.

(** [x << n] on [usize], for [n < 64]. *)
Definition shl64 (x n : Z) : Z := wrap64 (Z.shiftl x n).

(** [contains] of the [bitflags] crate. *)
Definition flags_contains (bits f : Z) : bool := Z.land bits f =? f.

(** [from_bits] of the [bitflags] crate: [None] when a bit has no name. *)
Definition flags_from_bits (all bits : Z) : option Z :=
  if Z.ldiff bits all =? 0 then Some bits else None.

Definition is_usize (x : Z) : Prop := 0 ≤ x < 2 ^ 64.
Definition is_u32 (x : Z) : Prop := 0 ≤ x < 2 ^ 32.
Definition is_u8 (x : Z) : Prop := 0 ≤ x < 2 ^ 8.

(** ** [Vec] used as a stack: [push] and [pop] work at the end *)

Definition vec_push {A} (v : list A) (x : A) : list A := v ++ [x].

Definition vec_pop {A} (v : list A) : option (A * list A) :=
  match last v with
  | Some x => Some (x, removelast v)
  | None => None
  end.

(** [l[a..b]]: panics when the bounds are not ordered or out of range. *)
Definition slice {S A} (l : list A) (a b : Z) : ST S (list A) :=
  rust_assert ((a <=? b) && (b <=? Z.of_nat (length l)));;
  mret (take (Z.to_nat (b - a)) (drop (Z.to_nat a) l)).

(** ** Ordered iteration of a [BTreeMap]

    A [BTreeMap] is a [gmap]; iterating it visits the keys in increasing
    order. *)

Definition key_le {V} (p q : Z * V) : Prop := p.1 ≤ q.1.

#[global] Instance key_le_dec {V} (p q : Z * V) : Decision (key_le p q).
Proof. unfold key_le. apply _. Defined.

Definition btree_iter {V} (m : gmap Z V) : list (Z * V) :=
  merge_sort key_le (map_to_list m).

(** ** Hint databases and tactics *)

Create HintDb usize.
Create HintDb wp.

Section wp_rules.
Context {S A B : Type}.
Implicit Types (s : S) (Q : A → S → Prop).

Lemma wp_ret a Q s : Q a s → wp (mret a) Q s.
Proof. done. Qed.

Lemma wp_bind (m : ST S A) (f : A → ST S B) (Q : B → S → Prop) s :
  wp m (fun a s' => wp (f a) Q s') s → wp (m ≫= f) Q s.
Proof. unfold wp, mbind, st_bind. by destruct (m s) as [[a s']| |]. Qed.

Lemma wp_mono (m : ST S A) Q1 Q2 s :
  wp m Q1 s → (∀ a s', Q1 a s' → Q2 a s') → wp m Q2 s.
Proof. unfold wp. destruct (m s) as [[a s']| |]; naive_solver. Qed.

Lemma wp_unwrap (o : option A) Q s a : o = Some a → Q a s → wp (unwrap o) Q s.
Proof. by intros ->. Qed.

Lemma wp_assert (b : bool) (Q : unit → S → Prop) s :
  b = true → Q tt s → wp (rust_assert b) Q s.
Proof. by intros ->. Qed.

Lemma wp_gets (f : S → A) Q s : Q (f s) s → wp (gets f) Q s.
Proof. done. Qed.

Lemma wp_modify (f : S → S) (Q : unit → S → Prop) s : Q tt (f s) → wp (modify f) Q s.
Proof. done. Qed.

Lemma wp_get (Q : S → S → Prop) s : Q s s → wp get_st Q s.
Proof. done. Qed.

Lemma wp_put s0 (Q : unit → S → Prop) s : Q tt s0 → wp (put_st s0) Q s.
Proof. done. Qed.

Lemma wp_lift (o : outcome A) Q s a : o = Ok a → Q a s → wp (lift o) Q s.
Proof. by intros ->. Qed.

Lemma wp_elim (m : ST S A) Q s : wp m Q s → ∃ a s', m s = Ok (a, s') ∧ Q a s'.
Proof. unfold wp. destruct (m s) as [[a s']| |]; naive_solver. Qed.

Lemma wp_intro (m : ST S A) Q s a s' : m s = Ok (a, s') → Q a s' → wp m Q s.
Proof. unfold wp. by intros ->. Qed.
End wp_rules.

(** The rule for [for] loops: [I] relates the elements already visited, the
    local variables and the state. *)
Lemma wp_st_fold {S A X} (f : A → X → ST S A) (I : list X → A → S → Prop) l a s :
  I [] a s →
  (∀ done x rest a s, l = done ++ x :: rest → I done a s →
     wp (f a x) (I (done ++ [x])) s) →
  wp (st_fold f a l) (I l) s.
Proof.
  intros H0 Hstep.
  enough (∀ rest done a s, l = done ++ rest → I done a s →
            wp (st_fold f a rest) (I l) s) as H by by eapply (H l []).
  induction rest as [|x rest IH]; intros dn a' s' Hl HI; simpl.
  - rewrite app_nil_r in Hl. subst. by apply wp_ret.
  - apply wp_bind. eapply wp_mono; [by eapply Hstep|].
    intros a'' s'' HI'. eapply (IH (dn ++ [x])); [|done].
    by rewrite <-app_assoc.
Qed.


(** [wp_step] peels one operation off a monadic program. *)
Ltac wp_step :=
  lazymatch goal with
  | |- wp (mbind _ _) _ _ => apply wp_bind
  | |- wp (mret _) _ _ => apply wp_ret
  | |- wp (gets _) _ _ => apply wp_gets
  | |- wp (modify _) _ _ => apply wp_modify
  | |- wp get_st _ _ => apply wp_get
  | |- wp (put_st _) _ _ => apply wp_put
  | |- wp (unwrap _) _ _ => eapply wp_unwrap
  | |- wp (rust_assert _) _ _ => eapply wp_assert
  end.

(** [wlp m Q s]: if [m] returns, [Q] holds then. *)

Definition wlp {S A} (m : ST S A) (Q : A → S → Prop) (s : S) : Prop := ∀ a s', m s = Ok (a, s') → Q a s'.

Section Wlp.
Context {S : Type}.
Implicit Types s : S.

Lemma wlp_ret {A} (a : A) Q s : Q a s → wlp (mret a) Q s.
Proof. by intros H a' s' [= <- <-]. Qed.

Lemma wlp_bind {A B} (m : ST S A) (f : A → ST S B) Q s : wlp m (fun a => wlp (f a) Q) s → wlp (m ≫= f) Q s.
Proof. intros H b s' Hb. unfold mbind, st_bind in Hb. destruct (m s) as [[a s1]| |] eqn:E; [|done..]. exact (H a s1 E b s' Hb). Qed.

Lemma wlp_mono {A} (m : ST S A) (P Q : A → S → Prop) s : wlp m P s → (∀ a s', P a s' → Q a s') → wlp m Q s.
Proof. intros H HP a s' E. by apply HP, H. Qed.

Lemma wlp_and {A} (m : ST S A) (P Q : A → S → Prop) s : wlp m P s → wlp m Q s → wlp m (fun a s' => P a s' ∧ Q a s') s.
Proof. intros HP HQ a s' E. split; [by apply HP|by apply HQ]. Qed.

Lemma wlp_gets {A} (f : S → A) Q s : Q (f s) s → wlp (gets f) Q s.
Proof. by intros H a s' [= <- <-]. Qed.

Lemma wlp_modify (f : S → S) (Q : unit → S → Prop) s : Q tt (f s) → wlp (modify f) Q s.
Proof. by intros H a s' [= <- <-]. Qed.

Lemma wlp_get (Q : S → S → Prop) s : Q s s → wlp get_st Q s.
Proof. by intros H a s' [= <- <-]. Qed.

Lemma wlp_unwrap {A} (o : option A) Q s : (∀ a, o = Some a → Q a s) → wlp (unwrap o) Q s.
Proof. intros H a s' E. destruct o; [|done]. injection E as <- <-. by apply H. Qed.

Lemma wlp_assert b (Q : unit → S → Prop) s : (b = true → Q tt s) → wlp (rust_assert b) Q s.
Proof. intros H a s' E. destruct b; [|done]. injection E as <- <-. by apply H. Qed.

Lemma wlp_lift {A} (o : outcome A) Q s : (∀ a, o = Ok a → Q a s) → wlp (lift o) Q s.
Proof. intros H a s' E. destruct o; [|done..]. injection E as <- <-. by apply H. Qed.

Lemma wlp_out_of_fuel {A} (Q : A → S → Prop) s : wlp (@out_of_fuel S A) Q s.
Proof. by intros a s' E. Qed.

Lemma wlp_panic {A} (Q : A → S → Prop) s : wlp (@panic S A) Q s.
Proof. by intros a s' E. Qed.

Lemma wlp_st_fold {A X} (f : A → X → ST S A) (I : list X → A → S → Prop) l a s :
  I l a s → (∀ x l a s, I (x :: l) a s → wlp (f a x) (fun a' s' => I l a' s') s) → wlp (st_fold f a l) (fun a' s' => I [] a' s') s.
Proof.
  intros H0 Hstep. revert a s H0. induction l as [|x l IH]; intros a s H0; cbn [st_fold]; [by apply wlp_ret|].
  apply wlp_bind. eapply wlp_mono; [by apply Hstep|]. intros a' s' H1. by apply IH.
Qed.
End Wlp.

Ltac wlp_step :=
  lazymatch goal with
  | |- wlp (mbind _ _) _ _ => apply wlp_bind
  | |- wlp (mret _) _ _ => apply wlp_ret
  | |- wlp (gets _) _ _ => apply wlp_gets
  | |- wlp (modify _) _ _ => apply wlp_modify
  | |- wlp get_st _ _ => apply wlp_get
  | |- wlp (unwrap _) _ _ => apply wlp_unwrap; intros ? ?
  | |- wlp (rust_assert _) _ _ => apply wlp_assert; intros ?
  | |- wlp (lift _) _ _ => apply wlp_lift; intros ? ?
  | |- wlp out_of_fuel _ _ => apply wlp_out_of_fuel
  | |- wlp panic _ _ => apply wlp_panic
  end.

(** ** Arithmetic lemmas *)

Lemma wrap64_small z : is_usize z → wrap64 z = z.
Proof. unfold wrap64, is_usize. apply Z.mod_small. Qed.

Lemma as_isize_wrap64 z : - 2 ^ 63 ≤ z < 2 ^ 63 → as_isize (wrap64 z) = z.
Proof.
  intros Hz. unfold as_isize, wrap64. destruct (decide (0 ≤ z)).
  - rewrite Z.mod_small by lia. by rewrite (proj2 (Z.ltb_lt z _)) by lia.
  - rewrite <-(Z_mod_plus_full z 1), Z.mod_small by lia.
    rewrite (proj2 (Z.ltb_ge _ _)); lia.
Qed.

Lemma wrap64_range z : is_usize (wrap64 z).
Proof. unfold wrap64, is_usize. apply Z.mod_pos_bound. lia. Qed.

Lemma wrap32_small z : is_u32 z → wrap32 z = z.
Proof. unfold wrap32, is_u32. apply Z.mod_small. Qed.

Lemma wrap8_range z : is_u8 (wrap8 z).
Proof. unfold wrap8, is_u8. apply Z.mod_pos_bound. lia. Qed.

#[export] Hint Resolve wrap64_range wrap8_range : usize.

Lemma land_ones_small a n : 0 ≤ n → 0 ≤ a < 2 ^ n → Z.land a (Z.ones n) = a.
Proof. intros Hn Ha. rewrite Z.land_ones by done. by apply Z.mod_small. Qed.

Lemma land_ones_bound a n : 0 ≤ n → 0 ≤ Z.land a (Z.ones n) < 2 ^ n.
Proof. intros Hn. rewrite Z.land_ones by done. apply Z.mod_pos_bound. lia. Qed.

(** A value shifted over a smaller one: the two do not overlap. *)
Lemma land_shiftl_low hi lo n :
  0 ≤ n → 0 ≤ lo < 2 ^ n → Z.land (Z.shiftl hi n) lo = 0.
Proof.
  intros Hn Hlo. apply Z.bits_inj'. intros i Hi.
  rewrite Z.land_spec, Z.bits_0.
  destruct (decide (i < n)).
  - by rewrite Z.shiftl_spec_low.
  - rewrite <-(Z.mod_small lo (2 ^ n)), Z.mod_pow2_bits_high by lia.
    apply andb_false_r.
Qed.

Lemma lor_shiftl_add hi lo n :
  0 ≤ n → 0 ≤ lo < 2 ^ n → Z.lor (Z.shiftl hi n) lo = hi * 2 ^ n + lo.
Proof.
  intros Hn Hlo. rewrite <-Z.shiftl_mul_pow2 by done.
  rewrite <-Z.add_lor_land, land_shiftl_low by done. lia.
Qed.

Lemma lor_bound a b n : 0 ≤ n → 0 ≤ a < 2 ^ n → 0 ≤ b < 2 ^ n → 0 ≤ Z.lor a b < 2 ^ n.
Proof.
  intros Hn Ha Hb. split; [apply Z.lor_nonneg; lia|].
  apply Z.lt_nge. intros Hge.
  assert (Z.shiftr (Z.lor a b) n = 0) as H0.
  { rewrite Z.shiftr_lor, !Z.shiftr_div_pow2, !Z.div_small by lia. done. }
  rewrite Z.shiftr_div_pow2 in H0 by lia.
  pose proof (Z.div_le_lower_bound (Z.lor a b) (2 ^ n) 1). lia.
Qed.

(** [x & !(2^n - 1)] rounds down to a multiple of [2^n]. *)
Lemma land_not_mask x n :
  0 ≤ n ≤ 64 → is_usize x → Z.land x (not64 (2 ^ n - 1)) = x - x mod 2 ^ n.
Proof.
  intros Hn Hx.
  assert (Z.land x (not64 (2 ^ n - 1)) = Z.ldiff x (Z.ones n)) as ->.
  { unfold not64. replace (2 ^ n - 1) with (Z.ones n) by (rewrite Z.ones_equiv; lia).
    apply Z.bits_inj'. intros i Hi.
    rewrite Z.land_spec, Z.ldiff_spec, Z.lxor_spec.
    destruct (decide (i < 64)).
    - by rewrite (Z.ones_spec_low 64) by lia; destruct (Z.testbit (Z.ones n) i).
    - rewrite <-(Z.mod_small x (2 ^ 64)), Z.mod_pow2_bits_high by (unfold is_usize in *; lia).
      done. }
  pose proof (Z.ldiff_ones_r x n ltac:(lia)) as ->.
  rewrite Z.shiftl_mul_pow2, Z.shiftr_div_pow2 by lia.
  pose proof (Z.div_mod x (2 ^ n)). lia.
Qed.

Lemma mod_sub_bound x n : 0 < n → x - n < x - x mod n ≤ x.
Proof. intros. pose proof (Z.mod_pos_bound x n). lia. Qed.

(** ** Stacks *)

Lemma vec_pop_Some {A} (v : list A) x v' : vec_pop v = Some (x, v') → v = vec_push v' x.
Proof.
  unfold vec_pop. destruct (last v) as [y|] eqn:E; [|done]. intros [= -> <-].
  apply last_Some in E as [l ->]. unfold vec_push. by rewrite removelast_last.
Qed.

Lemma vec_pop_None {A} (v : list A) : vec_pop v = None ↔ v = [].
Proof.
  unfold vec_pop. destruct (last v) as [y|] eqn:E; split; try done.
  - by intros ->.
  - by rewrite last_None in E.
Qed.

Lemma vec_pop_push {A} (v : list A) x : vec_pop (vec_push v x) = Some (x, v).
Proof. unfold vec_pop, vec_push. by rewrite last_snoc, removelast_last. Qed.

(** ** [BTreeMap] iteration *)

#[global] Instance key_le_total {V} : Total (@key_le V).
Proof. intros p q. unfold key_le. lia. Qed.

Lemma elem_of_btree_iter {V} (m : gmap Z V) k v :
  (k, v) ∈ btree_iter m ↔ m !! k = Some v.
Proof.
  unfold btree_iter. rewrite merge_sort_Permutation. apply elem_of_map_to_list.
Qed.

Lemma NoDup_btree_iter_keys {V} (m : gmap Z V) : NoDup (btree_iter m).*1.
Proof.
  unfold btree_iter. rewrite merge_sort_Permutation. apply NoDup_fst_map_to_list.
Qed.

Lemma btree_iter_sorted {V} (m : gmap Z V) : Sorted key_le (btree_iter m).
Proof. apply Sorted_merge_sort, _. Qed.

Lemma dom_btree_iter {V} (m : gmap Z V) : list_to_set (btree_iter m).*1 = dom m.
Proof.
  apply set_eq. intros k. rewrite elem_of_list_to_set, elem_of_dom, list_elem_of_fmap. split.
  - intros ([k' v] & -> & Hin%elem_of_btree_iter). by exists v.
  - intros [v Hv%elem_of_btree_iter]. by exists (k, v).
Qed.
