(* ===== verification/Config.v ===== *)
(** * Kernel configuration: the constants of [kernel/src/config.rs],
    [kernel/src/mm/config.rs] and [kernel/src/boards/qemu.rs] *)

From S2P Require Import Prelude.

Definition PAGE_SIZE : Z := 0x1000.
Definition PAGE_SIZE_BITS : Z := 0xc.
Definition USER_STACK_SIZE : Z := 4096 * 20.
Definition KERNEL_STACK_SIZE : Z := 4096 * 2.
(** [board_qemu] value. *)
Definition MEMORY_END : Z := 0x88000000.

Definition TRAMPOLINE : Z := usize_MAX ⊟ PAGE_SIZE ⊞ 1.
Definition SIGNAL_TRAMPOLINE : Z := TRAMPOLINE ⊟ PAGE_SIZE.
Definition TRAP_CONTEXT_BASE : Z := SIGNAL_TRAMPOLINE ⊟ PAGE_SIZE.

Definition STACK_TOP : Z := 0x100000000.
Definition MMAP_BASE : Z := 0x20000000.
Definition SECOND_MMAP_BASE : Z := 0x40000000.
Definition DYN_BASE : Z := 0x60000000.

(** [board_qemu] values. *)
Definition CLOCK_FREQ : Z := 12500000.
Definition MMIO : list (Z * Z) := [(0x00100000, 0x002000); (0x10001000, 0x001000)].

(** ** Auxiliary vector tags *)
Definition AT_NULL : Z := 0.
Definition AT_PHDR : Z := 3.
Definition AT_PHENT : Z := 4.
Definition AT_PHNUM : Z := 5.
Definition AT_PAGESIZE : Z := 6.
Definition AT_BASE : Z := 7.
Definition AT_FLAGS : Z := 8.
Definition AT_ENTRY : Z := 9.
Definition AT_NOELF : Z := 10.
Definition AT_UID : Z := 11.
Definition AT_EUID : Z := 12.
Definition AT_GID : Z := 13.
Definition AT_EGID : Z := 14.
Definition AT_PLATFORM : Z := 15.
Definition AT_HWCAP : Z := 16.
Definition AT_CLKTCK : Z := 17.
Definition AT_SECURE : Z := 23.
Definition AT_RANDOM : Z := 25.
Definition AT_EXECFN : Z := 31.

(** ** Error numbers of [kernel/src/syscall/errno.rs] *)
Definition SUCCESS : Z := 0.
Definition EPERM : Z := -1.
Definition ENOENT : Z := -2.
Definition EAGAIN : Z := -11.
Definition EACCES : Z := -13.
Definition EBUSY : Z := -16.
Definition EEXIST : Z := -17.
Definition EXDEV : Z := -18.
Definition ENOTDIR : Z := -20.
Definition EISDIR : Z := -21.
Definition EINVAL : Z := -22.
Definition ENOTTY : Z := -25.
Definition ETXTBSY : Z := -26.
Definition ESPIPE : Z := -29.
Definition ENOTEMPTY : Z := -39.
