(* ===== verification/Address.v ===== *)
(** * Addresses and page numbers: [kernel/src/mm/address.rs]

    The four newtypes [PhysAddr], [VirtAddr], [PhysPageNum] and [VirtPageNum]
    all wrap a [usize]; their payload is modelled by [Z] and every [From]
    implementation, with its masking, is a function of its own. *)

From S2P Require Import Prelude Config.

Abbreviation PhysAddr := Z (only parsing).
Abbreviation VirtAddr := Z (only parsing).
Abbreviation PhysPageNum := Z (only parsing).
Abbreviation VirtPageNum := Z (only parsing).

Definition PA_WIDTH_SV39 : Z := 56.
Definition VA_WIDTH_SV39 : Z := 39.
Definition PPN_WIDTH_SV39 : Z := PA_WIDTH_SV39 - PAGE_SIZE_BITS.
Definition VPN_WIDTH_SV39 : Z := VA_WIDTH_SV39 - PAGE_SIZE_BITS.

(** ** Conversions *)

Definition PhysAddr_from_usize (v : Z) : PhysAddr :=
  Z.land v (Z.shiftl 1 PA_WIDTH_SV39 - 1).
Definition PhysPageNum_from_usize (v : Z) : PhysPageNum :=
  Z.land v (Z.shiftl 1 PPN_WIDTH_SV39 - 1).
Definition VirtAddr_from_usize (v : Z) : VirtAddr :=
  Z.land v (Z.shiftl 1 VA_WIDTH_SV39 - 1).
Definition VirtPageNum_from_usize (v : Z) : VirtPageNum :=
  Z.land v (Z.shiftl 1 VPN_WIDTH_SV39 - 1).

(** A [VirtAddr] is sign extended when it becomes a [usize] again. *)
Definition usize_from_VirtAddr (v : VirtAddr) : Z :=
  if Z.shiftl 1 (VA_WIDTH_SV39 - 1) <=? v
  then Z.lor v (not64 (Z.shiftl 1 VA_WIDTH_SV39 - 1))
  else v.

Definition floor (a : Z) : Z := a / PAGE_SIZE.
Definition ceil (a : Z) : Z := (a ⊟ 1 ⊞ PAGE_SIZE) / PAGE_SIZE.
Definition page_offset (a : Z) : Z := Z.land a (PAGE_SIZE - 1).
Definition aligned (a : Z) : bool := page_offset a =? 0.

(** [From<VirtAddr> for VirtPageNum] and [From<PhysAddr> for PhysPageNum]
    assert that the address is aligned. *)
Definition VirtPageNum_from_VirtAddr {S} (v : VirtAddr) : ST S VirtPageNum :=
  rust_assert (page_offset v =? 0);; mret (floor v).
Definition VirtAddr_from_VirtPageNum (v : VirtPageNum) : VirtAddr := shl64 v PAGE_SIZE_BITS.
Definition PhysPageNum_from_PhysAddr {S} (v : PhysAddr) : ST S PhysPageNum :=
  rust_assert (page_offset v =? 0);; mret (floor v).
Definition PhysAddr_from_PhysPageNum (v : PhysPageNum) : PhysAddr := shl64 v PAGE_SIZE_BITS.

(** The three table indexes of a virtual page number, filled from the last. *)
Definition indexes (vpn : VirtPageNum) : list Z :=
  (foldl (fun '(idx, vpn) i => (<[i := Z.land vpn 511]> idx, Z.shiftr vpn 9))
     (replicate 3 0, vpn) (rev (seq 0 3))).1.

(** ** Ranges of page numbers *)

Definition step (n : Z) : Z := n ⊞ 1.

Record SimpleRange : Type := mkSimpleRange { get_start : Z; get_end : Z }.

Definition SimpleRange_new {S} (l r : Z) : ST S SimpleRange :=
  rust_assert (l <=? r);; mret (mkSimpleRange l r).

Record SimpleRangeIterator : Type := mkSimpleRangeIterator { sri_current : Z; sri_end : Z }.

Definition into_iter (r : SimpleRange) : SimpleRangeIterator :=
  mkSimpleRangeIterator (get_start r) (get_end r).

Definition sri_next (it : SimpleRangeIterator) : option (Z * SimpleRangeIterator) :=
  if sri_current it =? sri_end it then None
  else Some (sri_current it, mkSimpleRangeIterator (step (sri_current it)) (sri_end it)).

(** All the elements a [for] loop over the iterator visits. *)
Fixpoint sri_collect (fuel : nat) (it : SimpleRangeIterator) : outcome (list Z) :=
  match sri_next it with
  | None => Ok []
  | Some (t, it') =>
      match fuel with
      | O => OutOfFuel
      | S n => rest ← sri_collect n it'; Ok (t :: rest)
      end
  end.

(** A [for vpn in range] loop; as many steps as the range has elements. *)
Definition for_range {St A} (r : SimpleRange) (f : A → Z → ST St A) (a : A) : ST St A :=
  fun s =>
    match sri_collect (Z.to_nat (get_end r - get_start r)) (into_iter r) with
    | Ok l => st_fold f a l s
    | Panic => Panic
    | OutOfFuel => OutOfFuel
    end.

(** A [for vpn in range] loop whose body may [return] from the function. *)
Definition for_range_ret {St B} (r : SimpleRange) (f : Z → ST St (option B)) : ST St (option B) :=
  fun s =>
    match sri_collect (Z.to_nat (get_end r - get_start r)) (into_iter r) with
    | Ok l => st_for_ret f l s
    | Panic => Panic
    | OutOfFuel => OutOfFuel
    end.

(** ** Lemmas *)

Definition canonical (v : Z) : Prop := 0 ≤ v < 2 ^ 38 ∨ 2 ^ 64 - 2 ^ 38 ≤ v < 2 ^ 64.

Lemma mask_ones n : 0 ≤ n → Z.shiftl 1 n - 1 = Z.ones n.
Proof. intros. rewrite Z.shiftl_1_l, Z.ones_equiv. lia. Qed.

Lemma VirtAddr_from_usize_mod v : VirtAddr_from_usize v = v mod 2 ^ 39.
Proof. unfold VirtAddr_from_usize. rewrite mask_ones, Z.land_ones by done. done. Qed.

Lemma VirtPageNum_from_usize_mod v : VirtPageNum_from_usize v = v mod 2 ^ 27.
Proof. unfold VirtPageNum_from_usize. rewrite mask_ones, Z.land_ones by done. done. Qed.

Lemma PhysPageNum_from_usize_mod v : PhysPageNum_from_usize v = v mod 2 ^ 44.
Proof. unfold PhysPageNum_from_usize. rewrite mask_ones, Z.land_ones by done. done. Qed.

Lemma PhysAddr_from_usize_mod v : PhysAddr_from_usize v = v mod 2 ^ 56.
Proof. unfold PhysAddr_from_usize. rewrite mask_ones, Z.land_ones by done. done. Qed.

Lemma page_offset_mod a : page_offset a = a mod 4096.
Proof. unfold page_offset. change (PAGE_SIZE - 1) with (Z.ones 12). by rewrite Z.land_ones. Qed.

Lemma floor_offset a : a = floor a * 4096 + page_offset a.
Proof. rewrite page_offset_mod. unfold floor, PAGE_SIZE. pose proof (Z.div_mod a 4096). lia. Qed.

Lemma page_offset_bound a : 0 ≤ page_offset a < 4096.
Proof. rewrite page_offset_mod. apply Z.mod_pos_bound. lia. Qed.

(** Without wrap-around [ceil] is the usual rounding up. *)
Lemma ceil_div a : 0 ≤ a < 2 ^ 63 → ceil a = (a + 4095) / 4096.
Proof.
  intros Ha. unfold ceil, PAGE_SIZE. f_equal. unfold wrap64.
  rewrite Zplus_mod_idemp_l. rewrite Z.mod_small by lia. lia.
Qed.

Lemma usize_from_VirtAddr_eq v :
  0 ≤ v < 2 ^ 39 →
  usize_from_VirtAddr v = if decide (v < 2 ^ 38) then v else v + (2 ^ 64 - 2 ^ 39).
Proof.
  intros Hv. unfold usize_from_VirtAddr, VA_WIDTH_SV39.
  change (Z.shiftl 1 (39 - 1)) with (2 ^ 38).
  case_decide; destruct (Z.leb_spec (2 ^ 38) v); try lia.
  change (not64 (Z.shiftl 1 39 - 1)) with (Z.shiftl (Z.ones 25) 39).
  rewrite Z.lor_comm, lor_shiftl_add by lia. change (Z.ones 25) with (2 ^ 25 - 1). lia.
Qed.

Lemma indexes_eq vpn :
  indexes vpn = [vpn / 2 ^ 18 mod 512; vpn / 2 ^ 9 mod 512; vpn mod 512].
Proof.
  unfold indexes. simpl. rewrite !Z.shiftr_shiftr by lia. simpl.
  change 511 with (Z.ones 9). rewrite !Z.land_ones, !Z.shiftr_div_pow2 by lia. done.
Qed.

Lemma indexes_recompose vpn i0 i1 i2 :
  0 ≤ vpn < 2 ^ 27 → indexes vpn = [i0; i1; i2] →
  vpn = i0 * 2 ^ 18 + i1 * 2 ^ 9 + i2 ∧ 0 ≤ i0 < 512 ∧ 0 ≤ i1 < 512 ∧ 0 ≤ i2 < 512.
Proof.
  rewrite indexes_eq. intros Hv [= <- <- <-].
  pose proof (Z.mod_pos_bound (vpn / 2 ^ 18) 512).
  pose proof (Z.mod_pos_bound (vpn / 2 ^ 9) 512).
  pose proof (Z.mod_pos_bound vpn 512).
  split; [|lia]. rewrite (Z.mod_small (vpn / 2 ^ 18)) by (Z.to_euclidean_division_equations; lia).
  Z.to_euclidean_division_equations; lia.
Qed.

Lemma indexes_split vpn :
  0 ≤ vpn < 2 ^ 27 →
  ∃ i0 i1 i2, indexes vpn = [i0; i1; i2] ∧ Forall (fun i => 0 ≤ i < 512) [i0; i1] ∧ 0 ≤ i2 < 512.
Proof.
  intros Hv. rewrite indexes_eq. do 3 eexists. split; [done|].
  pose proof (Z.mod_pos_bound (vpn / 2 ^ 18) 512). pose proof (Z.mod_pos_bound (vpn / 2 ^ 9) 512).
  pose proof (Z.mod_pos_bound vpn 512). rewrite !Forall_cons. split_and!; lia || done.
Qed.

Lemma indexes_inj v1 v2 :
  0 ≤ v1 < 2 ^ 27 → 0 ≤ v2 < 2 ^ 27 → indexes v1 = indexes v2 → v1 = v2.
Proof.
  intros H1 H2 Heq. destruct (indexes_split v1 H1) as (i0 & i1 & i2 & E1 & _).
  rewrite E1 in Heq. symmetry in Heq.
  apply indexes_recompose in E1 as [-> _]; [|done].
  apply indexes_recompose in Heq as [-> _]; done.
Qed.

Lemma sri_collect_seqZ l n fuel :
  0 ≤ l → 0 ≤ n → l + n < 2 ^ 64 → n ≤ Z.of_nat fuel →
  sri_collect fuel (mkSimpleRangeIterator l (l + n)) = Ok (seqZ l n).
Proof.
  revert l n. induction fuel as [|fuel IH]; intros l n Hl Hn Hu Hf; simpl; unfold sri_next; simpl.
  - assert (n = 0) as -> by lia. rewrite Z.add_0_r, Z.eqb_refl. done.
  - destruct (Z.eqb_spec l (l + n)).
    + assert (n = 0) as -> by lia. done.
    + unfold step. rewrite wrap64_small by (unfold is_usize; lia).
      replace (l + n) with ((l + 1) + (n - 1)) by lia. rewrite IH by lia.
      rewrite (seqZ_cons l n) by lia. done.
Qed.

(** A range loop visits exactly [l, l+1, ..., r-1], and terminates. *)
Lemma for_range_fold {St A} l r (f : A → Z → ST St A) a s :
  0 ≤ l ≤ r → r < 2 ^ 64 →
  for_range (mkSimpleRange l r) f a s = st_fold f a (seqZ l (r - l)) s.
Proof.
  intros Hl Hr. unfold for_range, into_iter. simpl.
  replace r with (l + (r - l)) at 2 by lia. rewrite sri_collect_seqZ by lia. done.
Qed.

Lemma for_range_ret_list {St B} l r (f : Z → ST St (option B)) s :
  0 ≤ l ≤ r → r < 2 ^ 64 →
  for_range_ret (mkSimpleRange l r) f s = st_for_ret f (seqZ l (r - l)) s.
Proof.
  intros Hl Hr. unfold for_range_ret, into_iter. simpl.
  replace r with (l + (r - l)) at 2 by lia. rewrite sri_collect_seqZ by lia. done.
Qed.
