(* ===== verification/PhysMem.v ===== *)
(** * Physical memory

    The kernel runs with all of physical memory identity mapped and reads and
    writes it through raw pointers ([get_pte_array], [get_bytes_array],
    [get_mut] of [kernel/src/mm/address.rs]).  Memory is a function from
    physical addresses to byte values. *)

From S2P Require Import Prelude Config Address.

Abbreviation PMem := (Z → Z) (only parsing).

(** Little-endian value of the [n] bytes at [a]. *)
Fixpoint load_le (n : nat) (m : PMem) (a : Z) : Z :=
  match n with
  | O => 0
  | S n => m a + 256 * load_le n m (a + 1)
  end.

Definition store_le (n : nat) (m : PMem) (a v : Z) : PMem :=
  fun b => if (a <=? b) && (b <? a + Z.of_nat n) then v / 256 ^ (b - a) mod 256 else m b.

Definition load64 : PMem → Z → Z := load_le 8.
Definition store64 : PMem → Z → Z → PMem := store_le 8.

(** [slice.fill(v)] on the [len] bytes at [a]. *)
Definition fill_bytes (m : PMem) (a len v : Z) : PMem :=
  fun b => if (a <=? b) && (b <? a + len) then v else m b.

(** [dst.copy_from_slice(data)] with [dst] at [a]. *)
Definition write_bytes (m : PMem) (a : Z) (data : list Z) : PMem :=
  fun b => if (a <=? b) && (b <? a + Z.of_nat (length data))
           then data !!! Z.to_nat (b - a) else m b.

Definition read_bytes (m : PMem) (a len : Z) : list Z := m <$> seqZ a len.

(** Address of entry [idx] of [ppn.get_pte_array()], and of
    [ppn.get_bytes_array()]. *)
Definition get_pte_array (ppn : PhysPageNum) (idx : Z) : PhysAddr :=
  PhysAddr_from_PhysPageNum ppn + 8 * idx.
Definition get_bytes_array (ppn : PhysPageNum) : PhysAddr :=
  PhysAddr_from_PhysPageNum ppn.

(** ** Lemmas *)

(** Two memories that agree outside of one page. *)
Definition same_page (ppn a : Z) : Prop := ppn * 4096 ≤ a < ppn * 4096 + 4096.

Lemma load_le_ext n m1 m2 a :
  (∀ i, 0 ≤ i < Z.of_nat n → m1 (a + i) = m2 (a + i)) → load_le n m1 a = load_le n m2 a.
Proof.
  revert a. induction n as [|n IH]; intros a Hext; simpl; [done|].
  pose proof (Hext 0 ltac:(lia)) as H0. rewrite Z.add_0_r in H0. rewrite H0.
  rewrite (IH (a + 1)); [done|].
  intros i Hi. replace (a + 1 + i) with (a + (i + 1)) by lia. apply Hext. lia.
Qed.

Lemma load_le_digits n m a v :
  0 ≤ v < 256 ^ Z.of_nat n →
  (∀ i, 0 ≤ i < Z.of_nat n → m (a + i) = v / 256 ^ i mod 256) → load_le n m a = v.
Proof.
  revert a v. induction n as [|n IH]; intros a v Hv Hd.
  - simpl in *. lia.
  - cbn [load_le]. rewrite (IH (a + 1) (v / 256)).
    + pose proof (Hd 0 ltac:(lia)) as H0. rewrite Z.add_0_r, Z.pow_0_r, Z.div_1_r in H0.
      rewrite H0. pose proof (Z.div_mod v 256). lia.
    + rewrite Nat2Z.inj_succ, Z.pow_succ_r in Hv by lia.
      split; [apply Z.div_pos; lia|]. apply Z.div_lt_upper_bound; lia.
    + intros i Hi. replace (a + 1 + i) with (a + (i + 1)) by lia. rewrite Hd by lia.
      rewrite Z.div_div by lia. f_equal. f_equal. rewrite Z.pow_add_r by lia. lia.
Qed.

Lemma load_store_eq n m a v :
  0 ≤ v < 256 ^ Z.of_nat n → load_le n (store_le n m a v) a = v.
Proof.
  intros Hv. apply load_le_digits; [done|]. intros i Hi. unfold store_le.
  destruct (Z.leb_spec a (a + i)), (Z.ltb_spec (a + i) (a + Z.of_nat n)); try lia. simpl.
  do 3 f_equal. lia.
Qed.

Lemma load_store_ne n m a b v :
  b + Z.of_nat n ≤ a ∨ a + Z.of_nat n ≤ b → load_le n (store_le n m a v) b = load_le n m b.
Proof.
  intros Hab. apply load_le_ext. intros i Hi. unfold store_le.
  destruct (Z.leb_spec a (b + i)), (Z.ltb_spec (b + i) (a + Z.of_nat n)); simpl; lia || done.
Qed.

Lemma load64_store64_eq m a v : is_usize v → load64 (store64 m a v) a = v.
Proof. intros Hv. apply load_store_eq. exact Hv. Qed.

Lemma load64_store64_ne m a b v :
  b + 8 ≤ a ∨ a + 8 ≤ b → load64 (store64 m a v) b = load64 m b.
Proof. intros. apply load_store_ne. lia. Qed.

Lemma store64_other m a v b : b < a ∨ a + 8 ≤ b → store64 m a v b = m b.
Proof.
  intros Hb. unfold store64, store_le.
  destruct (Z.leb_spec a b), (Z.ltb_spec b (a + Z.of_nat 8)); simpl; lia || done.
Qed.

Lemma load64_ext m1 m2 a :
  (∀ b, a ≤ b < a + 8 → m1 b = m2 b) → load64 m1 a = load64 m2 a.
Proof. intros H. apply load_le_ext. intros i Hi. apply H. lia. Qed.

Lemma fill_bytes_in m a len v b : a ≤ b < a + len → fill_bytes m a len v b = v.
Proof.
  intros. unfold fill_bytes.
  destruct (Z.leb_spec a b), (Z.ltb_spec b (a + len)); simpl; lia || done.
Qed.

Lemma fill_bytes_out m a len v b : b < a ∨ a + len ≤ b → fill_bytes m a len v b = m b.
Proof.
  intros. unfold fill_bytes.
  destruct (Z.leb_spec a b), (Z.ltb_spec b (a + len)); simpl; lia || done.
Qed.

Lemma load64_zero m a : (∀ b, a ≤ b < a + 8 → m b = 0) → load64 m a = 0.
Proof. intros H. apply load_le_digits; [lia|]. intros i Hi. rewrite H by lia. by rewrite Z.div_0_l by lia. Qed.

Lemma write_bytes_in m a data b :
  a ≤ b < a + Z.of_nat (length data) → write_bytes m a data b = data !!! Z.to_nat (b - a).
Proof.
  intros. unfold write_bytes.
  destruct (Z.leb_spec a b), (Z.ltb_spec b (a + Z.of_nat (length data))); simpl; lia || done.
Qed.

Lemma write_bytes_out m a data b :
  b < a ∨ a + Z.of_nat (length data) ≤ b → write_bytes m a data b = m b.
Proof.
  intros. unfold write_bytes.
  destruct (Z.leb_spec a b), (Z.ltb_spec b (a + Z.of_nat (length data))); simpl; lia || done.
Qed.

Lemma read_bytes_length m a len : length (read_bytes m a len) = Z.to_nat len.
Proof. unfold read_bytes. by rewrite length_fmap, length_seqZ. Qed.

Lemma read_bytes_lookup m a len i :
  Z.of_nat i < len → read_bytes m a len !! i = Some (m (a + Z.of_nat i)).
Proof. intros. unfold read_bytes. rewrite list_lookup_fmap, lookup_seqZ_lt by done. done. Qed.

Lemma PhysAddr_from_PhysPageNum_small ppn :
  0 ≤ ppn < 2 ^ 44 → PhysAddr_from_PhysPageNum ppn = ppn * 4096.
Proof.
  intros. unfold PhysAddr_from_PhysPageNum, shl64. rewrite Z.shiftl_mul_pow2 by done.
  change (2 ^ PAGE_SIZE_BITS) with 4096. apply wrap64_small. unfold is_usize. lia.
Qed.
