(* ===== verification/FrameAllocator.v ===== *)
(** * Physical frame allocation: [kernel/src/mm/frame_allocator.rs]

    The trait [FrameAllocator] is a class of operations.  What its clients
    (page tables, address spaces, caches) rely on is the class
    [FrameAllocatorSpec]; [StackFrameAllocator] is the instance the kernel
    uses.  [FrameTracker] is the RAII handle: dropping one that holds its
    frame gives the frame back. *)

From S2P Require Import Prelude Config Address PhysMem.

Record FrameTracker : Type := mkFrameTracker { ft_ppn : PhysPageNum; ft_hold : bool }.

(** ** The trait *)

Class FrameAllocator (A : Type) : Type := {
  fa_new : A;
  fa_alloc : A → option PhysPageNum * A;
  fa_dealloc : A → PhysPageNum → outcome A;
}.

(** [fa_inv R a]: [a] hands out the frames of [R]; [fa_free a] are the ones
    not handed out at present. *)
Class FrameAllocatorSpec (A : Type) {FA : FrameAllocator A} : Type := {
  fa_inv : gset Z → A → Prop;
  fa_free : A → gset Z;
  fa_free_sub R a : fa_inv R a → fa_free a ⊆ R;
  fa_range R a p : fa_inv R a → p ∈ R → 0 ≤ p < 2 ^ 44;
  fa_alloc_Some R a p a' :
    fa_inv R a → fa_alloc a = (Some p, a') →
    p ∈ fa_free a ∧ fa_free a' = fa_free a ∖ {[p]} ∧ fa_inv R a';
  fa_alloc_None R a a' : fa_inv R a → fa_alloc a = (None, a') → fa_free a = ∅ ∧ a' = a;
  fa_dealloc_ok R a p :
    fa_inv R a → p ∈ R → p ∉ fa_free a →
    ∃ a', fa_dealloc a p = Ok a' ∧ fa_free a' = {[p]} ∪ fa_free a ∧ fa_inv R a';
  fa_dealloc_free R a p : fa_inv R a → p ∈ fa_free a → fa_dealloc a p = Panic;
}.

(** ** The stack allocator *)

Record StackFrameAllocator : Type := mkStackFrameAllocator {
  sfa_current : Z;
  sfa_end : Z;
  sfa_recycled : list Z;
}.

Definition sfa_init (self : StackFrameAllocator) (l r : PhysPageNum) : StackFrameAllocator :=
  mkStackFrameAllocator l r (sfa_recycled self).

Definition unallocated_frames (self : StackFrameAllocator) : Z :=
  Z.of_nat (length (sfa_recycled self)) ⊞ sfa_end self ⊟ sfa_current self.

Definition sfa_new : StackFrameAllocator := mkStackFrameAllocator 0 0 [].

Definition sfa_alloc (self : StackFrameAllocator) : option PhysPageNum * StackFrameAllocator :=
  match vec_pop (sfa_recycled self) with
  | Some (ppn, recycled) =>
      (Some (PhysPageNum_from_usize ppn),
       mkStackFrameAllocator (sfa_current self) (sfa_end self) recycled)
  | None =>
      if sfa_current self =? sfa_end self then (None, self)
      else
        let current := sfa_current self ⊞ 1 in
        (Some (PhysPageNum_from_usize (current ⊟ 1)),
         mkStackFrameAllocator current (sfa_end self) (sfa_recycled self))
  end.

Definition sfa_dealloc (self : StackFrameAllocator) (ppn : PhysPageNum) :
    outcome StackFrameAllocator :=
  if (sfa_current self <=? ppn) || existsb (fun v => v =? ppn) (sfa_recycled self) then Panic
  else Ok (mkStackFrameAllocator (sfa_current self) (sfa_end self)
             (vec_push (sfa_recycled self) ppn)).

#[global] Instance StackFrameAllocator_impl : FrameAllocator StackFrameAllocator := {|
  fa_new := sfa_new;
  fa_alloc := sfa_alloc;
  fa_dealloc := sfa_dealloc;
|}.

(** [init_frame_allocator]: the frames between the end of the kernel image
    and the end of memory. *)
Definition init_frame_allocator (ekernel : Z) (self : StackFrameAllocator) :
    StackFrameAllocator :=
  sfa_init self (ceil (PhysAddr_from_usize ekernel)) (floor (PhysAddr_from_usize MEMORY_END)).

(** ** The machine: physical memory and the global [FRAME_ALLOCATOR] *)

Record Machine (A : Type) : Type := mkMachine { pmem : PMem; falloc : A }.
Arguments mkMachine {A} pmem falloc.
Arguments pmem {A} m _.
Arguments falloc {A} m.

Definition update_pmem {A} (f : PMem → PMem) : ST (Machine A) unit :=
  modify (fun s => mkMachine (f (pmem s)) (falloc s)).

(** [FrameTracker::new] clears the page. *)
Definition FrameTracker_new {A} (ppn : PhysPageNum) : ST (Machine A) FrameTracker :=
  update_pmem (fun m => fill_bytes m (get_bytes_array ppn) PAGE_SIZE 0);;
  mret (mkFrameTracker ppn true).

Definition FrameTracker_cover (ppn : PhysPageNum) : FrameTracker := mkFrameTracker ppn false.

Section operations.
Context {A : Type} {FA : FrameAllocator A}.

(** [FRAME_ALLOCATOR.exclusive_access().alloc()] *)
Definition alloc_access : ST (Machine A) (option PhysPageNum) :=
  s ← get_st;
  let (o, fa) := fa_alloc (falloc s) in
  put_st (mkMachine (pmem s) fa);;
  mret o.

(** The [board_qemu] variant. *)
Definition frame_alloc : ST (Machine A) (option FrameTracker) :=
  o ← alloc_access;
  match o with
  | Some ppn => ft ← FrameTracker_new ppn; mret (Some ft)
  | None => mret None
  end.

Definition frame_dealloc (ppn : PhysPageNum) : ST (Machine A) unit :=
  s ← get_st;
  match fa_dealloc (falloc s) ppn with
  | Ok fa => put_st (mkMachine (pmem s) fa)
  | _ => panic
  end.

(** [Drop for FrameTracker] *)
Definition FrameTracker_drop (ft : FrameTracker) : ST (Machine A) unit :=
  if ft_hold ft then frame_dealloc (ft_ppn ft) else mret tt.

(** [oom_handler] and [frame_alloc_arc]; [oom] is [fs::directory_tree::oom],
    which releases page caches and returns how many pages it released. *)
Definition oom_handler (oom : ST (Machine A) Z) (req : Z) : ST (Machine A) (option unit) :=
  released ← oom;
  mret (if req <=? 0 ⊞ released then Some tt else None).

Definition frame_alloc_arc (oom : ST (Machine A) Z) : ST (Machine A) (option FrameTracker) :=
  result ← alloc_access;
  match result with
  | Some frame => ft ← FrameTracker_new frame; mret (Some ft)
  | None =>
      r ← oom_handler oom 1;
      unwrap r;;
      o ← alloc_access;
      match o with
      | Some ppn => ft ← FrameTracker_new ppn; mret (Some ft)
      | None => mret None
      end
  end.
End operations.

Definition frame_reserve (num : Z) : ST (Machine StackFrameAllocator) unit :=
  remain ← gets (fun s => unallocated_frames (falloc s));
  if remain <? num then panic else mret tt.

(** ** Invariant of the stack allocator

    [l] is the first frame [init] was given. *)

Record sfa_wf (l : Z) (a : StackFrameAllocator) : Prop := {
  sfa_bounds : 0 ≤ l ≤ sfa_current a ∧ sfa_current a ≤ sfa_end a ∧ sfa_end a < 2 ^ 44;
  sfa_recycled_bounds : ∀ p, p ∈ sfa_recycled a → l ≤ p < sfa_current a;
  sfa_recycled_nodup : NoDup (sfa_recycled a);
}.

Definition sfa_free (a : StackFrameAllocator) : gset Z :=
  list_to_set (sfa_recycled a) ∪ list_to_set (seqZ (sfa_current a) (sfa_end a - sfa_current a)).

(** [R] is the range of frames given to [init]. *)
Definition sfa_inv (R : gset Z) (a : StackFrameAllocator) : Prop :=
  ∃ l, sfa_wf l a ∧ R = list_to_set (seqZ l (sfa_end a - l)).

(** A run of the allocator, with the set of frames its clients hold. *)
Inductive fa_step : StackFrameAllocator * gset Z → StackFrameAllocator * gset Z → Prop :=
  | fa_step_alloc a a' held p :
      sfa_alloc a = (Some p, a') → fa_step (a, held) (a', {[p]} ∪ held)
  | fa_step_dealloc a a' held p :
      p ∈ held → sfa_dealloc a p = Ok a' → fa_step (a, held) (a', held ∖ {[p]}).

(** ** Lemmas *)

Lemma elem_of_sfa_free a p :
  p ∈ sfa_free a ↔ p ∈ sfa_recycled a ∨ sfa_current a ≤ p < sfa_end a.
Proof.
  unfold sfa_free. rewrite elem_of_union, !elem_of_list_to_set, elem_of_seqZ.
  split; intros [?|?]; auto; right; lia.
Qed.

Lemma PhysPageNum_from_usize_small p : 0 ≤ p < 2 ^ 44 → PhysPageNum_from_usize p = p.
Proof. intros. rewrite PhysPageNum_from_usize_mod. by apply Z.mod_small. Qed.

Lemma existsb_eqb_elem p l : existsb (fun v => v =? p) l = true ↔ p ∈ l.
Proof.
  rewrite existsb_exists. split.
  - intros (x & Hx & Heq). apply Z.eqb_eq in Heq. subst. by apply list_elem_of_In.
  - intros Hp. exists p. split; [by apply list_elem_of_In|apply Z.eqb_refl].
Qed.

(** What [alloc] does to the allocator and its set of free frames. *)
Lemma sfa_alloc_spec l a :
  sfa_wf l a →
  match sfa_alloc a with
  | (Some p, a') =>
      p ∈ sfa_free a ∧ l ≤ p < sfa_end a ∧ sfa_wf l a' ∧
      sfa_end a' = sfa_end a ∧ sfa_free a' = sfa_free a ∖ {[p]}
  | (None, a') => a' = a ∧ sfa_free a = ∅
  end.
Proof.
  intros [Hb Hr Hd]. unfold sfa_alloc. destruct (vec_pop _) as [[p rec]|] eqn:E.
  - apply vec_pop_Some in E. unfold vec_push in E.
    assert (p ∈ sfa_recycled a) as Hp by (rewrite E; set_solver).
    pose proof (Hr p Hp). rewrite PhysPageNum_from_usize_small by lia.
    rewrite E in Hd. apply NoDup_app in Hd as (Hd1 & Hd2 & _).
    assert (p ∉ rec) by (intros Hin; eapply (Hd2 p); [done|set_solver]).
    split_and!; [apply elem_of_sfa_free; auto|lia|lia| |done|].
    + constructor; simpl; [done| |done]. intros q Hq. apply Hr. rewrite E. set_solver.
    + apply set_eq. intros q. rewrite elem_of_difference, !elem_of_sfa_free, elem_of_singleton, E.
      simpl. rewrite elem_of_app, list_elem_of_singleton. split.
      * intros [?|?]; (split; [tauto|]); [by intros ->|lia].
      * tauto.
  - apply vec_pop_None in E. destruct (Z.eqb_spec (sfa_current a) (sfa_end a)).
    + split; [done|]. apply set_eq. intros q. rewrite elem_of_sfa_free, E. set_solver by lia.
    + rewrite !wrap64_small by (unfold is_usize; rewrite ?wrap64_small; unfold is_usize; lia).
      replace (sfa_current a + 1 - 1) with (sfa_current a) by lia.
      rewrite PhysPageNum_from_usize_small by lia.
      split_and!; [apply elem_of_sfa_free; lia|lia|lia| |done|].
      * constructor; simpl; [lia| |done]. rewrite E. set_solver.
      * apply set_eq. intros q. rewrite elem_of_difference, !elem_of_sfa_free, elem_of_singleton, E.
        simpl. set_solver by lia.
Qed.

Lemma sfa_dealloc_spec l a p :
  sfa_wf l a → l ≤ p < sfa_end a → p ∉ sfa_free a →
  ∃ a', sfa_dealloc a p = Ok a' ∧ sfa_wf l a' ∧ sfa_end a' = sfa_end a ∧
        sfa_free a' = {[p]} ∪ sfa_free a.
Proof.
  intros [Hb Hr Hd] Hp Hnf. rewrite elem_of_sfa_free in Hnf. unfold sfa_dealloc.
  destruct (Z.leb_spec (sfa_current a) p); [lia|]. simpl.
  destruct (existsb _ _) eqn:E; [by apply existsb_eqb_elem in E; tauto|].
  eexists. split_and!; [done| |done|].
  - constructor; simpl; [done| |].
    + intros q [Hq|Hq]%elem_of_app; [by apply Hr|]. apply list_elem_of_singleton in Hq. lia.
    + apply NoDup_app. split_and!; [done| |apply NoDup_singleton].
      intros q Hq Hq'. apply list_elem_of_singleton in Hq'. subst. tauto.
  - apply set_eq. intros q. rewrite elem_of_union, !elem_of_sfa_free, elem_of_singleton. simpl.
    unfold vec_push. rewrite elem_of_app, list_elem_of_singleton. tauto.
Qed.

Lemma sfa_dealloc_panic a p : p ∈ sfa_free a → sfa_dealloc a p = Panic.
Proof.
  rewrite elem_of_sfa_free. unfold sfa_dealloc. intros [Hp|Hp].
  - apply existsb_eqb_elem in Hp. by rewrite Hp, orb_true_r.
  - destruct (Z.leb_spec (sfa_current a) p); [done|lia].
Qed.

(** [StackFrameAllocator] meets the specification of the trait. *)
#[global] Instance StackFrameAllocator_spec : FrameAllocatorSpec StackFrameAllocator.
Proof.
  refine {| fa_inv := sfa_inv; fa_free := sfa_free |}.
  - intros R a (l & [Hb Hr _] & ->) p. rewrite elem_of_sfa_free, elem_of_list_to_set, elem_of_seqZ.
    intros [Hp|Hp]; [apply Hr in Hp|]; lia.
  - intros R a p (l & [Hb _ _] & ->). rewrite elem_of_list_to_set, elem_of_seqZ. lia.
  - intros R a p a' (l & Hwf & ->) E. pose proof (sfa_alloc_spec l a Hwf) as H.
    simpl in E. rewrite E in H. destruct H as (? & ? & ? & He & ?).
    split_and!; try done. exists l. by rewrite He.
  - intros R a a' (l & Hwf & ->) E. pose proof (sfa_alloc_spec l a Hwf) as H.
    simpl in E. rewrite E in H. naive_solver.
  - intros R a p (l & Hwf & ->). rewrite elem_of_list_to_set, elem_of_seqZ. intros Hp Hnf.
    destruct (sfa_dealloc_spec l a p Hwf) as (a' & ? & ? & He & ?); [lia|done|].
    exists a'. split_and!; try done. exists l. by rewrite He.
  - intros R a p _. apply sfa_dealloc_panic.
Defined.

(** ** What a client of the allocator may use *)

Section client.
Context {A : Type} {FA : FrameAllocator A} {FS : FrameAllocatorSpec A}.
Implicit Types (R : gset Z) (s : Machine A).

Lemma wp_frame_alloc R s Q :
  fa_inv R (falloc s) →
  fa_free (falloc s) ≠ ∅ →
  (∀ p fa', p ∈ fa_free (falloc s) → 0 ≤ p < 2 ^ 44 → p ∈ R →
     fa_free fa' = fa_free (falloc s) ∖ {[p]} → fa_inv R fa' →
     Q (Some (mkFrameTracker p true))
       (mkMachine (fill_bytes (pmem s) (p * 4096) 4096 0) fa')) →
  wp frame_alloc Q s.
Proof.
  intros Hinv Hne HQ. unfold frame_alloc, alloc_access. do 3 wp_step.
  destruct (fa_alloc (falloc s)) as [[p|] fa'] eqn:E.
  - destruct (fa_alloc_Some R _ _ _ Hinv E) as (Hp & Hf & Hi).
    assert (p ∈ R) as HpR by (by apply (fa_free_sub R _ Hinv)).
    pose proof (fa_range R _ p Hinv HpR) as Hr.
    unfold FrameTracker_new, update_pmem. repeat wp_step. simpl.
    unfold get_bytes_array. rewrite PhysAddr_from_PhysPageNum_small by done. by apply HQ.
  - by destruct (fa_alloc_None R _ _ Hinv E).
Qed.

Lemma wp_frame_dealloc R s p (Q : unit → Machine A → Prop) :
  fa_inv R (falloc s) → p ∈ R → p ∉ fa_free (falloc s) →
  (∀ fa', fa_free fa' = {[p]} ∪ fa_free (falloc s) → fa_inv R fa' →
     Q tt (mkMachine (pmem s) fa')) →
  wp (frame_dealloc p) Q s.
Proof.
  intros Hinv Hp Hnf HQ. unfold frame_dealloc. do 2 wp_step.
  destruct (fa_dealloc_ok R _ p Hinv Hp Hnf) as (fa' & -> & Hf & Hi).
  wp_step. by apply HQ.
Qed.
End client.

(** ** Runs of the allocator *)

Lemma sfa_init_wf l r : 0 ≤ l ≤ r → r < 2 ^ 44 → sfa_wf l (sfa_init sfa_new l r).
Proof. intros. split; simpl; [lia|set_solver|apply NoDup_nil_2]. Qed.

Lemma unallocated_frames_size l a : sfa_wf l a → unallocated_frames a = Z.of_nat (size (sfa_free a)).
Proof.
  intros [Hb Hr Hd]. unfold unallocated_frames, sfa_free.
  rewrite size_union, !size_list_to_set, length_seqZ; [|apply NoDup_seqZ|done|].
  - assert (Z.of_nat (length (sfa_recycled a)) ≤ sfa_current a - l) as Hlen.
    { assert (length (sfa_recycled a) ≤ length (seqZ l (sfa_current a - l)))%nat as Hle.
      { apply submseteq_length, NoDup_submseteq; [done|]. intros p Hp%Hr. apply elem_of_seqZ. lia. }
      rewrite length_seqZ in Hle. lia. }
    rewrite (wrap64_small (Z.of_nat _ + _)) by (unfold is_usize; lia).
    rewrite wrap64_small by (unfold is_usize; lia). lia.
  - intros p Hp%elem_of_list_to_set%Hr. rewrite elem_of_list_to_set, elem_of_seqZ. lia.
Qed.

Lemma fa_run_inv l r a held :
  0 ≤ l ≤ r → r < 2 ^ 44 → rtc fa_step (sfa_init sfa_new l r, ∅) (a, held) →
  sfa_wf l a ∧ sfa_end a = r ∧ held ## sfa_free a ∧ held ∪ sfa_free a = list_to_set (seqZ l (r - l)).
Proof.
  intros Hl Hr Hrun.
  cut (let '(a, held) := (a, held) in
       sfa_wf l a ∧ sfa_end a = r ∧ held ## sfa_free a ∧ held ∪ sfa_free a = list_to_set (seqZ l (r - l))).
  { done. }
  revert Hrun. generalize (a, held). clear a held. apply rtc_ind_r.
  - split_and!; [by apply sfa_init_wf|done|set_solver|]. unfold sfa_free. simpl. set_solver.
  - intros [a1 held1] [a2 held2] _ Hstep (Hwf & He & Hdj & Hu). inversion Hstep as [? ? ? p Hal|? ? ? p Hp Hde]; subst.
    + pose proof (sfa_alloc_spec l a1 Hwf) as H. rewrite Hal in H.
      destruct H as (Hp & _ & Hwf' & He' & Hf). split_and!; [done|congruence| |].
      * rewrite Hf. set_solver.
      * rewrite Hf, <-Hu. apply set_eq. intros x. destruct (decide (x = p)); set_solver.
    + assert (l ≤ p < sfa_end a1) as Hpr.
      { assert (p ∈ held1 ∪ sfa_free a1) as Hin by set_solver.
        rewrite Hu, elem_of_list_to_set, elem_of_seqZ in Hin. lia. }
      destruct (sfa_dealloc_spec l a1 p Hwf Hpr) as (a' & Hd & Hwf' & He' & Hf); [set_solver|].
      rewrite Hde in Hd. injection Hd as <-. split_and!; [done|congruence| |].
      * rewrite Hf. set_solver.
      * rewrite Hf, <-Hu. apply set_eq. intros x. destruct (decide (x = p)); set_solver.
Qed.

(** C4: the frame allocator never gives out a frame that is in use.  From the
    initial state, after any sequence of allocations and of deallocations of
    frames in use: an allocation gives a frame of the range that nobody holds; it
    fails only when every frame of the range is held; returning a held frame
    succeeds, and returning another frame of the range panics; the number of
    unallocated frames is exact. *)
Theorem frames_never_shared l r a held :
  0 ≤ l ≤ r → r < 2 ^ 44 → rtc fa_step (sfa_init sfa_new l r, ∅) (a, held) →
  (∀ p a', sfa_alloc a = (Some p, a') → (p ∉ held) ∧ l ≤ p ∧ p < r) ∧
  (∀ a', sfa_alloc a = (None, a') → held = list_to_set (seqZ l (r - l))) ∧
  (∀ p, p ∈ held → ∃ a', sfa_dealloc a p = Ok a') ∧
  (∀ p, l ≤ p → p ∉ held → sfa_dealloc a p = Panic) ∧
  unallocated_frames a = r - l - Z.of_nat (size held).
Proof.
  intros Hl Hr Hrun. destruct (fa_run_inv l r a held Hl Hr Hrun) as (Hwf & He & Hdj & Hu).
  pose proof (sfa_alloc_spec l a Hwf) as Hal. subst r.
  assert (∀ p, l ≤ p < sfa_end a ↔ p ∈ held ∪ sfa_free a) as Hin.
  { intros p. rewrite Hu, elem_of_list_to_set, elem_of_seqZ. lia. }
  split_and!.
  - intros p a' Heq. rewrite Heq in Hal. destruct Hal as (Hp & Hpr & _). set_solver.
  - intros a' Heq. rewrite Heq in Hal. destruct Hal as [_ Hemp]. rewrite <-Hu, Hemp. set_solver.
  - intros p Hp. destruct (sfa_dealloc_spec l a p Hwf) as (a' & Hd & _);
      [apply Hin; set_solver|set_solver|eauto].
  - intros p Hlp Hp. destruct (decide (p < sfa_end a)).
    + apply sfa_dealloc_panic. assert (p ∈ held ∪ sfa_free a) by (apply Hin; lia). set_solver.
    + unfold sfa_dealloc. destruct (Z.leb_spec (sfa_current a) p); [done|].
      pose proof (sfa_bounds _ _ Hwf). lia.
  - rewrite (unallocated_frames_size l) by done.
    assert (size (held ∪ sfa_free a) = Z.to_nat (sfa_end a - l)) as Hs.
    { rewrite Hu, size_list_to_set, length_seqZ by apply NoDup_seqZ. done. }
    rewrite size_union in Hs by done. pose proof (sfa_bounds _ _ Hwf). lia.
Qed.

Lemma frames_never_shared_witness :
  ∃ a, rtc fa_step (sfa_init sfa_new 16 32, ∅) (a, {[16]} ∪ ∅) ∧
       unallocated_frames a = 32 - 16 - Z.of_nat (size ({[16]} ∪ ∅ : gset Z)).
Proof.
  assert (rtc fa_step (sfa_init sfa_new 16 32, ∅)
            (mkStackFrameAllocator 17 32 [], {[16]} ∪ ∅)) as Hrun
    by (apply rtc_once; by constructor).
  eexists. split; [exact Hrun|].
  apply (frames_never_shared 16 32 _ _ ltac:(lia) ltac:(lia) Hrun).
Defined.

(** A machine with sixteen free frames, the input of the witnesses. *)
Definition sample_machine : Machine StackFrameAllocator :=
  mkMachine (fun _ => 0) (mkStackFrameAllocator 16 32 []).
Definition sample_frames : gset Z := list_to_set (seqZ 16 16).

Lemma sample_inv : fa_inv sample_frames (falloc sample_machine).
Proof. exists 16. split; [|done]. split; simpl; [lia|set_solver|apply NoDup_nil_2]. Qed.

Lemma sample_free_size : size (fa_free (falloc sample_machine)) = 16%nat.
Proof. vm_compute. reflexivity. Qed.

Lemma sample_free_nonempty : fa_free (falloc sample_machine) ≠ ∅.
Proof. intros H. pose proof sample_free_size as Hs. rewrite H, size_empty in Hs. lia. Qed.
