(* ===== verification/PageTable.v ===== *)
(** * Sv39 page tables: [kernel/src/mm/page_table.rs]

    Page table entries are 64-bit words of physical memory; a table is the
    512 entries of one frame.  [find_pte] and [find_pte_create] return the
    address of the entry, where the code returns a mutable reference. *)

From S2P Require Import Prelude Config Address PhysMem FrameAllocator.

(** ** Entries *)

Definition PTE_V : Z := Z.shiftl 1 0.
Definition PTE_R : Z := Z.shiftl 1 1.
Definition PTE_W : Z := Z.shiftl 1 2.
Definition PTE_X : Z := Z.shiftl 1 3.
Definition PTE_U : Z := Z.shiftl 1 4.
Definition PTE_G : Z := Z.shiftl 1 5.
Definition PTE_A : Z := Z.shiftl 1 6.
Definition PTE_D : Z := Z.shiftl 1 7.

Definition PTE_new (ppn : PhysPageNum) (flags : Z) : Z := Z.lor (shl64 ppn 10) flags.
Definition PTE_empty : Z := 0.
Definition PTE_ppn (bits : Z) : PhysPageNum :=
  PhysPageNum_from_usize (Z.land (Z.shiftr bits 10) (Z.shiftl 1 44 - 1)).
(** [PTEFlags::from_bits(self.bits as u8).unwrap()]: all eight bits are flags. *)
Definition PTE_flags (bits : Z) : Z := wrap8 bits.
Definition is_valid (bits : Z) : bool := negb (Z.land (PTE_flags bits) PTE_V =? 0).
Definition is_dirty (bits : Z) : bool := negb (Z.land (PTE_flags bits) PTE_D =? 0).
Definition readable (bits : Z) : bool := negb (Z.land (PTE_flags bits) PTE_R =? 0).
Definition writable (bits : Z) : bool := negb (Z.land (PTE_flags bits) PTE_W =? 0).
Definition executable (bits : Z) : bool := negb (Z.land (PTE_flags bits) PTE_X =? 0).

(** ** Tables *)

Record PageTable : Type := mkPageTable { root_ppn : PhysPageNum; frames : list FrameTracker }.

Definition PageTable_from_token (satp : Z) : PageTable :=
  mkPageTable (PhysPageNum_from_usize (Z.land satp (Z.shiftl 1 44 - 1))) [].

Definition token (self : PageTable) : Z := Z.lor (shl64 8 60) (root_ppn self).

(** The loop of [find_pte] over the enumerated indexes. *)
Fixpoint find_pte_loop (m : PMem) (ppn : PhysPageNum) (i : nat) (idxs : list Z) :
    option PhysAddr :=
  match idxs with
  | [] => None
  | idx :: rest =>
      let pte := get_pte_array ppn idx in
      if Nat.eqb i 2 then Some pte
      else if negb (is_valid (load64 m pte)) then None
      else find_pte_loop m (PTE_ppn (load64 m pte)) (S i) rest
  end.

Definition find_pte (m : PMem) (self : PageTable) (vpn : VirtPageNum) : option PhysAddr :=
  find_pte_loop m (root_ppn self) 0 (indexes vpn).

Definition translate (m : PMem) (self : PageTable) (vpn : VirtPageNum) : option Z :=
  match find_pte m self vpn with
  | Some pte => Some (load64 m pte)
  | None => None
  end.

Definition translate_va (m : PMem) (self : PageTable) (va : VirtAddr) : option PhysAddr :=
  match find_pte m self (floor va) with
  | Some pte =>
      let aligned_pa := PhysAddr_from_PhysPageNum (PTE_ppn (load64 m pte)) in
      Some (PhysAddr_from_usize (aligned_pa ⊞ page_offset va))
  | None => None
  end.

Section operations.
Context {A : Type} {FA : FrameAllocator A}.

Definition PageTable_new : ST (Machine A) PageTable :=
  o ← frame_alloc;
  frame ← unwrap o;
  mret (mkPageTable (ft_ppn frame) [frame]).

(** The loop of [find_pte_create]; [fs] is [self.frames]. *)
Fixpoint find_pte_create_loop (fs : list FrameTracker) (ppn : PhysPageNum) (i : nat)
    (idxs : list Z) : ST (Machine A) (option PhysAddr * list FrameTracker) :=
  match idxs with
  | [] => mret (None, fs)
  | idx :: rest =>
      let pte := get_pte_array ppn idx in
      if Nat.eqb i 2 then mret (Some pte, fs)
      else
        bits ← gets (fun s => load64 (pmem s) pte);
        fs ← (if negb (is_valid bits) then
                o ← frame_alloc;
                frame ← unwrap o;
                update_pmem (fun m => store64 m pte (PTE_new (ft_ppn frame) PTE_V));;
                mret (vec_push fs frame)
              else mret fs);
        bits ← gets (fun s => load64 (pmem s) pte);
        find_pte_create_loop fs (PTE_ppn bits) (S i) rest
  end.

Definition find_pte_create (self : PageTable) (vpn : VirtPageNum) :
    ST (Machine A) (option PhysAddr * PageTable) :=
  r ← find_pte_create_loop (frames self) (root_ppn self) 0 (indexes vpn);
  mret (r.1, mkPageTable (root_ppn self) r.2).

Definition PageTable_map (self : PageTable) (vpn : VirtPageNum) (ppn : PhysPageNum)
    (flags : Z) : ST (Machine A) PageTable :=
  r ← find_pte_create self vpn;
  pte ← unwrap r.1;
  bits ← gets (fun s => load64 (pmem s) pte);
  rust_assert (negb (is_valid bits));;
  update_pmem (fun m => store64 m pte (PTE_new ppn (Z.lor flags PTE_V)));;
  mret r.2.

Definition PageTable_unmap (self : PageTable) (vpn : VirtPageNum) : ST (Machine A) unit :=
  s ← get_st;
  pte ← unwrap (find_pte (pmem s) self vpn);
  rust_assert (is_valid (load64 (pmem s) pte));;
  update_pmem (fun m => store64 m pte PTE_empty).

Definition set_pte_flags (self : PageTable) (vpn : VirtPageNum) (flags : Z) :
    ST (Machine A) bool :=
  s ← get_st;
  match find_pte (pmem s) self vpn with
  | Some pte =>
      let bits := load64 (pmem s) pte in
      if negb (is_valid bits) then mret false
      else
        update_pmem (fun m =>
          store64 m pte (Z.lor (shl64 (PTE_ppn bits) 10) (Z.lor (Z.lor flags PTE_U) PTE_V)));;
        mret true
  | None => mret false
  end.

Definition delete_pte_flags (self : PageTable) (vpn : VirtPageNum) (flags : Z) :
    ST (Machine A) bool :=
  s ← get_st;
  match find_pte (pmem s) self vpn with
  | Some pte =>
      let bits := load64 (pmem s) pte in
      if negb (is_valid bits) then mret false
      else
        update_pmem (fun m => store64 m pte (Z.land bits (not64 flags)));;
        mret true
  | None => mret false
  end.
End operations.

(** ** Views and well-formedness *)

(** The mapping a page table implements: the valid leaf entry of a page. *)
Definition pt_view (m : PMem) (root : PhysPageNum) (vpn : VirtPageNum) : option Z :=
  match find_pte_loop m root 0 (indexes vpn) with
  | Some pte => if is_valid (load64 m pte) then Some (load64 m pte) else None
  | None => None
  end.

(** The entry [i] of the table in frame [f]. *)
Definition entry (m : PMem) (f i : Z) : Z := load64 m (f * 4096 + 8 * i).

(** [P] gives every table its path from the root: the list of indexes that
    lead to it.  Valid entries of the two upper levels lead to the table of
    the extended path, and every table is reached in that way. *)
Record pt_wf (m : PMem) (root : Z) (P : gmap Z (list Z)) : Prop := {
  pt_root : P !! root = Some [];
  pt_range f p : P !! f = Some p →
    0 ≤ f < 2 ^ 44 ∧ (length p ≤ 2)%nat ∧ Forall (fun i => 0 ≤ i < 512) p;
  pt_inj f1 f2 p : P !! f1 = Some p → P !! f2 = Some p → f1 = f2;
  pt_next f p i : P !! f = Some p → (length p < 2)%nat → 0 ≤ i < 512 →
    is_valid (entry m f i) = true → P !! PTE_ppn (entry m f i) = Some (p ++ [i]);
  pt_back g p i : P !! g = Some (p ++ [i]) →
    ∃ f, P !! f = Some p ∧ is_valid (entry m f i) = true;
}.

(** The frames a page table owns, and the invariant of a page table in a
    machine whose allocator manages the frames [R]. *)
Definition pt_frames (pt : PageTable) : gset Z := list_to_set (ft_ppn <$> frames pt).

Record pt_inv (m : PMem) (pt : PageTable) : Prop := {
  pt_hold : Forall (fun ft => ft_hold ft = true) (frames pt);
  pt_nodup : NoDup (ft_ppn <$> frames pt);
  pt_tree : ∃ P, pt_wf m (root_ppn pt) P ∧ dom P = pt_frames pt;
}.

Record pt_ok {A} {FA : FrameAllocator A} {FS : FrameAllocatorSpec A}
    (R : gset Z) (s : Machine A) (pt : PageTable) : Prop := {
  pt_ok_alloc : fa_inv R (falloc s);
  pt_ok_inv : pt_inv (pmem s) pt;
  pt_ok_managed : pt_frames pt ⊆ R;
  pt_ok_disjoint : pt_frames pt ## fa_free (falloc s);
}.

(** The table reached from [f] along [idxs]. *)
Fixpoint walk (m : PMem) (f : Z) (idxs : list Z) : option Z :=
  match idxs with
  | [] => Some f
  | i :: rest => if is_valid (entry m f i) then walk m (PTE_ppn (entry m f i)) rest else None
  end.

(** ** Lemmas on entries *)

Lemma is_valid_odd b : is_valid b = Z.odd b.
Proof.
  unfold is_valid, PTE_flags, PTE_V, wrap8. change (Z.shiftl 1 0) with (Z.ones 1).
  rewrite Z.land_ones by done. rewrite Z.mod_mod_divide by by exists 128.
  rewrite Zmod_odd. by destruct (Z.odd b).
Qed.

Lemma PTE_new_eq ppn flags :
  0 ≤ ppn < 2 ^ 44 → 0 ≤ flags < 2 ^ 8 → PTE_new ppn flags = ppn * 1024 + flags.
Proof.
  intros Hp Hf. unfold PTE_new, shl64.
  rewrite wrap64_small, lor_shiftl_add by (rewrite ?Z.shiftl_mul_pow2; unfold is_usize; lia).
  lia.
Qed.

Lemma PTE_ppn_eq b : PTE_ppn b = b / 1024 mod 2 ^ 44.
Proof.
  unfold PTE_ppn. rewrite mask_ones, Z.land_ones, Z.shiftr_div_pow2 by lia.
  apply PhysPageNum_from_usize_small. apply Z.mod_pos_bound. lia.
Qed.

Lemma PTE_ppn_range b : 0 ≤ PTE_ppn b < 2 ^ 44.
Proof. rewrite PTE_ppn_eq. apply Z.mod_pos_bound. lia. Qed.

Lemma PTE_ppn_new ppn flags :
  0 ≤ ppn < 2 ^ 44 → 0 ≤ flags < 2 ^ 8 → PTE_ppn (PTE_new ppn flags) = ppn.
Proof.
  intros Hp Hf. rewrite PTE_ppn_eq, PTE_new_eq by done.
  rewrite Z.div_add_l, (Z.div_small flags) by lia. rewrite Z.mod_small; lia.
Qed.

Lemma PTE_flags_new ppn flags :
  0 ≤ ppn < 2 ^ 44 → 0 ≤ flags < 2 ^ 8 → PTE_flags (PTE_new ppn flags) = flags.
Proof.
  intros Hp Hf. rewrite PTE_new_eq by done. unfold PTE_flags, wrap8.
  replace (ppn * 1024 + flags) with (flags + ppn * 4 * 2 ^ 8) by lia.
  rewrite Z_mod_plus_full. apply Z.mod_small. lia.
Qed.

Lemma PTE_new_usize ppn flags :
  0 ≤ ppn < 2 ^ 44 → 0 ≤ flags < 2 ^ 8 → is_usize (PTE_new ppn flags).
Proof. intros. rewrite PTE_new_eq by done. unfold is_usize. lia. Qed.

Lemma PTE_new_valid ppn flags :
  0 ≤ ppn < 2 ^ 44 → 0 ≤ flags < 2 ^ 8 → is_valid (PTE_new ppn (Z.lor flags PTE_V)) = true.
Proof.
  intros Hp Hf. pose proof (lor_bound flags 1 8 ltac:(lia) ltac:(lia) ltac:(lia)) as Hl.
  rewrite is_valid_odd, PTE_new_eq by done. rewrite Z.odd_add, Z.odd_mul. simpl.
  rewrite andb_false_r, xorb_false_l. rewrite <-!Z.bit0_odd, Z.lor_spec.
  change (Z.testbit PTE_V 0) with true. apply orb_true_r.
Qed.

Lemma lor_flags_range flags f : 0 ≤ flags < 2 ^ 8 → 0 ≤ f < 2 ^ 8 → 0 ≤ Z.lor flags f < 2 ^ 8.
Proof. intros. apply lor_bound; lia. Qed.

Lemma is_valid_0 : is_valid 0 = false.
Proof. done. Qed.

#[export] Hint Resolve PTE_ppn_range PTE_new_usize PTE_new_valid lor_flags_range : usize.

(** ** Lemmas on tables in memory *)

Lemma get_pte_array_eq f i : 0 ≤ f < 2 ^ 44 → get_pte_array f i = f * 4096 + 8 * i.
Proof. intros. unfold get_pte_array. by rewrite PhysAddr_from_PhysPageNum_small. Qed.

Lemma entry_store_eq m f i v : is_usize v → entry (store64 m (f * 4096 + 8 * i) v) f i = v.
Proof. apply load64_store64_eq. Qed.

Lemma entry_store_ne m f i g j v :
  0 ≤ i < 512 → 0 ≤ j < 512 → (g, j) ≠ (f, i) →
  entry (store64 m (f * 4096 + 8 * i) v) g j = entry m g j.
Proof.
  intros Hi Hj Hne. apply load64_store64_ne.
  destruct (decide (f = g)) as [->|]; [|lia].
  assert (i ≠ j) by congruence. lia.
Qed.

Lemma entry_fill_eq m f i : 0 ≤ i < 512 → entry (fill_bytes m (f * 4096) 4096 0) f i = 0.
Proof. intros. apply load64_zero. intros b Hb. apply fill_bytes_in. lia. Qed.

Lemma entry_ext m m' f i :
  0 ≤ i < 512 → (∀ a, same_page f a → m' a = m a) → entry m' f i = entry m f i.
Proof. intros Hi Hm. apply load64_ext. intros b Hb. apply Hm. unfold same_page. lia. Qed.

Lemma entry_fill_ne m f g i :
  0 ≤ i < 512 → f ≠ g → entry (fill_bytes m (g * 4096) 4096 0) f i = entry m f i.
Proof. intros Hi Hne. apply entry_ext; [done|]. intros a Ha. apply fill_bytes_out. unfold same_page in Ha. lia. Qed.

Lemma find_pte_walk m root vpn i0 i1 i2 :
  0 ≤ root < 2 ^ 44 → indexes vpn = [i0; i1; i2] →
  find_pte_loop m root 0 (indexes vpn) =
    match walk m root [i0; i1] with
    | Some g => Some (g * 4096 + 8 * i2)
    | None => None
    end.
Proof.
  intros Hr ->. simpl. rewrite get_pte_array_eq by done. fold (entry m root i0).
  destruct (is_valid (entry m root i0)); simpl; [|done].
  pose proof (PTE_ppn_range (entry m root i0)) as Hf. rewrite get_pte_array_eq by done.
  fold (entry m (PTE_ppn (entry m root i0)) i1).
  destruct (is_valid _); simpl; [|done]. rewrite get_pte_array_eq; auto with usize.
Qed.

Lemma pt_view_walk m root vpn i0 i1 i2 :
  0 ≤ root < 2 ^ 44 → indexes vpn = [i0; i1; i2] →
  pt_view m root vpn =
    match walk m root [i0; i1] with
    | Some g => if is_valid (entry m g i2) then Some (entry m g i2) else None
    | None => None
    end.
Proof.
  intros Hr Hi. unfold pt_view. rewrite (find_pte_walk m root vpn i0 i1 i2) by done.
  by destruct (walk m root [i0; i1]).
Qed.

Lemma walk_app m f l1 l2 :
  walk m f (l1 ++ l2) = match walk m f l1 with Some h => walk m h l2 | None => None end.
Proof.
  revert f. induction l1 as [|i l1 IH]; intros f; simpl; [done|]. by destruct (is_valid _).
Qed.

Section wf.
Context (m : PMem) (root : Z) (P : gmap Z (list Z)).
Hypothesis Hwf : pt_wf m root P.

Lemma pt_root_range : 0 ≤ root < 2 ^ 44.
Proof. by destruct (pt_range _ _ _ Hwf root [] (pt_root _ _ _ Hwf)). Qed.

Lemma walk_path f p idxs g :
  P !! f = Some p → (length p + length idxs ≤ 2)%nat → Forall (fun i => 0 ≤ i < 512) idxs →
  walk m f idxs = Some g → P !! g = Some (p ++ idxs).
Proof.
  revert f p. induction idxs as [|i idxs IH]; intros f p Hf Hlen Hidx; simpl.
  - intros [= <-]. by rewrite app_nil_r.
  - apply Forall_cons in Hidx as [Hi Hidx]. destruct (is_valid _) eqn:Hv; [|done].
    simpl in Hlen. intros Hg. change (i :: idxs) with ([i] ++ idxs).
    rewrite (app_assoc p [i] idxs). eapply IH; [by eapply pt_next; eauto; lia|rewrite length_app; simpl; lia|done|done].
Qed.

(** Memories that agree on the upper tables walk in the same way. *)
Lemma walk_agree m' f p idxs :
  (∀ f p i, P !! f = Some p → (length p < 2)%nat → 0 ≤ i < 512 → entry m' f i = entry m f i) →
  P !! f = Some p → (length p + length idxs ≤ 2)%nat → Forall (fun i => 0 ≤ i < 512) idxs →
  walk m' f idxs = walk m f idxs.
Proof.
  intros Hag. revert f p. induction idxs as [|i idxs IH]; intros f p Hf Hlen Hidx; simpl; [done|].
  apply Forall_cons in Hidx as [Hi Hidx]. simpl in Hlen. erewrite Hag by (done || lia).
  destruct (is_valid _) eqn:Hv; [|done].
  eapply (IH _ (p ++ [i])); [by eapply pt_next; eauto; lia|rewrite length_app; simpl; lia|done].
Qed.

Lemma wf_agree m' :
  (∀ f p i, P !! f = Some p → (length p < 2)%nat → 0 ≤ i < 512 → entry m' f i = entry m f i) →
  pt_wf m' root P.
Proof.
  intros Hag. destruct Hwf as [Hr Hrg Hinj Hnx Hbk]. split; try done.
  - intros f p i Hf Hlen Hi. rewrite (Hag f p) by done. by apply Hnx.
  - intros g p i Hg. destruct (Hbk g p i Hg) as (f & Hf & Hv). exists f. split; [done|].
    destruct (Hrg g _ Hg) as (_ & Hlen & Hidx). rewrite length_app in Hlen. simpl in Hlen.
    apply Forall_app in Hidx as [_ [Hidx _]%Forall_cons].
    rewrite (Hag f p); [done|done|lia|exact Hidx].
Qed.

(** Writing an entry of a last-level table leaves the upper tables alone. *)
Lemma leaf_agree g i0 i1 i2 v f p i :
  P !! g = Some [i0; i1] → 0 ≤ i2 < 512 →
  P !! f = Some p → (length p < 2)%nat → 0 ≤ i < 512 →
  entry (store64 m (g * 4096 + 8 * i2) v) f i = entry m f i.
Proof.
  intros HPg Hi2 Hf Hlen Hi. apply entry_store_ne; [done|done|]. intros [= -> ->].
  rewrite HPg in Hf. injection Hf as <-. simpl in Hlen. lia.
Qed.

Lemma leaf_store_walk g vpn i0 i1 i2 v :
  0 ≤ vpn < 2 ^ 27 → indexes vpn = [i0; i1; i2] → walk m root [i0; i1] = Some g →
  P !! g = Some [i0; i1] ∧ walk (store64 m (g * 4096 + 8 * i2) v) root [i0; i1] = Some g.
Proof.
  intros Hvpn Hidx Hg. destruct (indexes_recompose vpn i0 i1 i2 Hvpn Hidx) as (_ & Hi0 & Hi1 & Hi2).
  assert (Forall (fun i => 0 ≤ i < 512) [i0; i1]) as Hall by by rewrite !Forall_cons, Forall_nil.
  assert (P !! g = Some [i0; i1]) as HPg.
  { eapply (walk_path root []); [apply Hwf|simpl; lia|done|done]. }
  split; [done|]. rewrite (walk_agree _ root []); [done| |apply Hwf|simpl; lia|done].
  intros f p i. by apply (leaf_agree g i0 i1).
Qed.

(** Writing one entry of a last-level table changes the view of one page. *)
Lemma leaf_store g vpn i0 i1 i2 v :
  0 ≤ vpn < 2 ^ 27 → indexes vpn = [i0; i1; i2] → walk m root [i0; i1] = Some g → is_usize v →
  pt_wf (store64 m (g * 4096 + 8 * i2) v) root P ∧
  ∀ vpn', 0 ≤ vpn' < 2 ^ 27 →
    pt_view (store64 m (g * 4096 + 8 * i2) v) root vpn' =
      if decide (vpn' = vpn) then (if is_valid v then Some v else None)
      else pt_view m root vpn'.
Proof.
  intros Hvpn Hidx Hg Hv. pose proof pt_root_range as Hr.
  destruct (indexes_recompose vpn i0 i1 i2 Hvpn Hidx) as (_ & Hi0 & Hi1 & Hi2).
  destruct (leaf_store_walk g vpn i0 i1 i2 v Hvpn Hidx Hg) as [HPg _].
  set (m' := store64 _ _ _).
  assert (∀ f p i, P !! f = Some p → (length p < 2)%nat → 0 ≤ i < 512 →
            entry m' f i = entry m f i) as Hag by (intros f p i; by apply (leaf_agree g i0 i1)).
  split; [by apply wf_agree|]. intros vpn' Hvpn'.
  destruct (indexes_split vpn' Hvpn') as (j0 & j1 & j2 & Ej & Hj & Hj2).
  rewrite (pt_view_walk m' root vpn' j0 j1 j2), (pt_view_walk m root vpn' j0 j1 j2) by done.
  rewrite (walk_agree m' root [] [j0; j1]) by (done || apply Hwf || simpl; lia).
  case_decide as Heq.
  - subst vpn'. rewrite Hidx in Ej. injection Ej as <- <- <-. rewrite Hg.
    by unfold m'; rewrite entry_store_eq.
  - destruct (walk m root [j0; j1]) as [h|] eqn:Eh; [|done].
    assert (entry m' h j2 = entry m h j2) as ->; [|done].
    apply entry_store_ne; [done|done|]. intros [= -> ->]. apply Heq.
    eapply (walk_path root []) in Eh; [|apply Hwf|simpl; lia|done].
    rewrite HPg in Eh. injection Eh as <- <-. apply indexes_inj; [done|done|congruence].
Qed.

(** Two memories that agree on all the tables show the same view. *)
Lemma view_agree m' vpn :
  (∀ f a, f ∈ dom P → same_page f a → m' a = m a) → 0 ≤ vpn < 2 ^ 27 →
  pt_wf m' root P ∧ pt_view m' root vpn = pt_view m root vpn.
Proof.
  intros Hag Hvpn. pose proof pt_root_range as Hr.
  assert (∀ f p i, P !! f = Some p → 0 ≤ i < 512 → entry m' f i = entry m f i) as He.
  { intros f p i Hf Hi. apply entry_ext; [done|]. intros a. apply Hag. by eapply elem_of_dom_2. }
  split; [apply wf_agree; eauto|].
  destruct (indexes_split vpn Hvpn) as (j0 & j1 & j2 & Ej & Hj & Hj2).
  rewrite (pt_view_walk m' root vpn j0 j1 j2), (pt_view_walk m root vpn j0 j1 j2) by done.
  rewrite (walk_agree m' root [] [j0; j1]) by (eauto || apply Hwf || simpl; lia).
  destruct (walk m root [j0; j1]) as [h|] eqn:Eh; [|done].
  eapply (walk_path root []) in Eh; [|apply Hwf|simpl; lia|done].
  by erewrite He.
Qed.

(** Every table is found by walking its path. *)
Lemma wf_walk f p idxs g :
  P !! f = Some p → P !! g = Some (p ++ idxs) → walk m f idxs = Some g.
Proof.
  revert g. induction idxs as [|i idxs IH] using rev_ind; intros g Hf Hg.
  - rewrite app_nil_r in Hg. simpl. f_equal. by eapply pt_inj.
  - rewrite app_assoc in Hg. destruct (pt_back _ _ _ Hwf g _ _ Hg) as (h & Hh & Hv).
    specialize (IH h Hf Hh).
    destruct (pt_range _ _ _ Hwf g _ Hg) as (_ & Hlen & [_ [Hi _]%Forall_cons]%Forall_app).
    rewrite length_app in Hlen. simpl in Hlen.
    pose proof (pt_next _ _ _ Hwf h _ i Hh ltac:(lia) Hi Hv) as Hn.
    assert (PTE_ppn (entry m h i) = g) as Heq by by eapply pt_inj.
    rewrite walk_app, IH. simpl. by rewrite Hv, Heq.
Qed.
End wf.

(** ** Growing a page table by one table *)

Section create.
Context (m : PMem) (root : Z) (P : gmap Z (list Z)) (f : Z) (p : list Z) (i g : Z).
Hypothesis Hwf : pt_wf m root P.
Hypothesis Hf : P !! f = Some p.
Hypothesis Hlen : (length p < 2)%nat.
Hypothesis Hi : 0 ≤ i < 512.
Hypothesis Hinv : is_valid (entry m f i) = false.
Hypothesis Hg : P !! g = None.
Hypothesis Hgr : 0 ≤ g < 2 ^ 44.

Let m2 : PMem :=
  store64 (fill_bytes m (g * 4096) 4096 0) (f * 4096 + 8 * i) (PTE_new g PTE_V).

Lemma create_entry_new : entry m2 f i = PTE_new g PTE_V.
Proof. apply entry_store_eq, PTE_new_usize; [done|]. by vm_compute. Qed.

Lemma create_entry_table j : 0 ≤ j < 512 → entry m2 g j = 0.
Proof.
  intros Hj. unfold m2. rewrite entry_store_ne by (try done; intros [= -> ->]; congruence).
  by apply entry_fill_eq.
Qed.

Lemma create_entry_old h q j :
  P !! h = Some q → 0 ≤ j < 512 → (h, j) ≠ (f, i) → entry m2 h j = entry m h j.
Proof.
  intros Hh Hj Hne. unfold m2. rewrite entry_store_ne by done.
  apply entry_fill_ne; [done|]. intros ->. congruence.
Qed.

Lemma create_valid : is_valid (PTE_new g PTE_V) = true.
Proof. apply (PTE_new_valid g 0); [done|lia]. Qed.

Lemma create_ppn : PTE_ppn (PTE_new g PTE_V) = g.
Proof. apply PTE_ppn_new; [done|]. by vm_compute. Qed.

Lemma create_wf : pt_wf m2 root (<[g := p ++ [i]]> P).
Proof.
  destruct Hwf as [Hr Hrg Hinj Hnx Hbk].
  assert (∀ h, P !! h = Some (p ++ [i]) → False) as Hfresh.
  { intros h Hh. destruct (Hbk h p i Hh) as (f' & Hf' & Hv).
    rewrite (Hinj f' f p Hf' Hf) in Hv. congruence. }
  split.
  - rewrite lookup_insert_ne by congruence. done.
  - intros h q. rewrite lookup_insert. case_decide as Heq; [|apply Hrg].
    subst h. intros [= <-]. destruct (Hrg f p Hf) as (_ & _ & Hall).
    split_and!; [lia|lia|rewrite length_app; simpl; lia|].
    apply Forall_app. split; [done|by apply Forall_singleton].
  - intros f1 f2 q. rewrite !lookup_insert. repeat case_decide; subst; try done.
    + intros [= <-] H2. by apply Hfresh in H2.
    + intros H1 [= <-]. by apply Hfresh in H1.
    + apply Hinj.
  - intros h q j. rewrite !lookup_insert. case_decide as Heq.
    + subst h. intros [= <-] _ Hj. by rewrite create_entry_table.
    + intros Hh Hq Hj. destruct (decide ((h, j) = (f, i))) as [[= -> ->]|Hne].
      * rewrite create_entry_new, create_ppn. rewrite decide_True by done. congruence.
      * rewrite (create_entry_old h q j Hh Hj Hne). intros Hv.
        pose proof (Hnx h q j Hh Hq Hj Hv). case_decide; congruence.
  - intros h q j. rewrite lookup_insert. case_decide as Heq.
    + subst h. intros [= Heq]. apply app_inj_2 in Heq as [<- [= <-]]; [|done]. exists f.
      rewrite lookup_insert_ne by congruence. split; [done|].
      by rewrite create_entry_new, create_valid.
    + intros Hh. destruct (Hbk h q j Hh) as (f' & Hf' & Hv). exists f'.
      rewrite lookup_insert_ne by congruence. split; [done|].
      destruct (Hrg h _ Hh) as (_ & _ & [_ [Hj _]%Forall_cons]%Forall_app).
      rewrite (create_entry_old f' q j); [done|done|done|]. intros [= -> ->]. congruence.
Qed.

Lemma create_walk h q idxs :
  P !! h = Some q → (length q + length idxs ≤ 2)%nat → Forall (fun i => 0 ≤ i < 512) idxs →
  walk m2 h idxs = walk m h idxs ∨
  walk m h idxs = None ∧ (walk m2 h idxs = None ∨ walk m2 h idxs = Some g).
Proof.
  revert h q. induction idxs as [|j idxs IH]; intros h q Hh Hl Hidx; simpl; [by left|].
  apply Forall_cons in Hidx as [Hj Hidx]. simpl in Hl.
  destruct (decide ((h, j) = (f, i))) as [[= -> ->]|Hne].
  - right. rewrite Hinv, create_entry_new, create_valid, create_ppn. split; [done|].
    destruct idxs as [|k idxs]; simpl; [by right|]. left.
    apply Forall_cons in Hidx as [Hk _]. by rewrite create_entry_table.
  - rewrite (create_entry_old h q j Hh Hj Hne). destruct (is_valid (entry m h j)) eqn:Hv; [|by left].
    eapply (IH _ (q ++ [j])); [|rewrite length_app; simpl; lia|done].
    eapply (pt_next _ _ _ Hwf); eauto; lia.
Qed.

(** The new, empty table changes no mapping. *)
Lemma create_view vpn : 0 ≤ vpn < 2 ^ 27 → pt_view m2 root vpn = pt_view m root vpn.
Proof.
  intros Hvpn. pose proof (pt_root_range _ _ _ Hwf) as Hr.
  destruct (indexes_split vpn Hvpn) as (j0 & j1 & j2 & Ej & Hj & Hj2).
  rewrite (pt_view_walk m2 root vpn j0 j1 j2), (pt_view_walk m root vpn j0 j1 j2) by done.
  destruct (create_walk root [] [j0; j1]) as [->|[-> [->| ->]]];
    [apply Hwf|simpl; lia|done| |done|].
  - destruct (walk m root [j0; j1]) as [h|] eqn:Eh; [|done].
    eapply (walk_path _ _ _ Hwf root []) in Eh; [|apply Hwf|simpl; lia|done].
    rewrite (create_entry_old h [j0; j1] j2); [done|done|done|]. intros [= -> ->].
    rewrite Hf in Eh. injection Eh as ->. simpl in Hlen. lia.
  - by rewrite create_entry_table.
Qed.
End create.

(** ** The operations, against any allocator that meets the specification *)

Section correct.
Context {A : Type} {FA : FrameAllocator A} {FS : FrameAllocatorSpec A}.
Implicit Types (R : gset Z) (s : Machine A) (pt : PageTable).

(** What an operation on [pt] may do to the rest of the machine: it takes
    frames from the allocator, which [pt] then owns, and writes nothing but
    its own tables. *)
Record pt_grow s s' pt pt' : Prop := {
  grow_root : root_ppn pt' = root_ppn pt;
  grow_sub : pt_frames pt ⊆ pt_frames pt';
  grow_free : fa_free (falloc s) = fa_free (falloc s') ∪ (pt_frames pt' ∖ pt_frames pt);
  grow_mem : ∀ a, (∀ f, f ∈ pt_frames pt' → ¬ same_page f a) → pmem s' a = pmem s a;
}.

Lemma pt_grow_refl s pt : pt_grow s s pt pt.
Proof. split; set_solver. Qed.

Lemma pt_grow_trans s1 s2 s3 p1 p2 p3 :
  pt_grow s1 s2 p1 p2 → pt_grow s2 s3 p2 p3 → pt_grow s1 s3 p1 p3.
Proof.
  intros [Hr1 Hs1 Hf1 Hm1] [Hr2 Hs2 Hf2 Hm2]. split; [congruence|set_solver| |].
  - rewrite Hf1, Hf2. apply set_eq. intros x. destruct (decide (x ∈ pt_frames p2)); set_solver.
  - intros a Ha. rewrite Hm2 by done. apply Hm1. set_solver.
Qed.

(** [pt_ok] with its tree made explicit. *)
Record pt_okP R s root (fs : list FrameTracker) (P : gmap Z (list Z)) : Prop := {
  okP_alloc : fa_inv R (falloc s);
  okP_wf : pt_wf (pmem s) root P;
  okP_dom : dom P = list_to_set (ft_ppn <$> fs);
  okP_hold : Forall (fun ft => ft_hold ft = true) fs;
  okP_nodup : NoDup (ft_ppn <$> fs);
  okP_managed : dom P ⊆ R;
  okP_disjoint : dom P ## fa_free (falloc s);
}.

Lemma pt_ok_okP R s pt : pt_ok R s pt ↔ ∃ P, pt_okP R s (root_ppn pt) (frames pt) P.
Proof.
  split.
  - intros [Ha [Hh Hn (P & Hwf & Hd)] Hm Hdj]. exists P. by split; rewrite ?Hd.
  - intros (P & [Ha Hwf Hd Hh Hn Hm Hdj]). split; [done| |by unfold pt_frames; rewrite <-Hd..].
    split; [done|done|]. eauto.
Qed.

Lemma size_difference_1 (X : gset Z) p n :
  (S n ≤ size X)%nat → (n ≤ size (X ∖ {[p]}))%nat.
Proof.
  intros Hn. destruct (decide (p ∈ X)) as [Hp|Hp].
  - rewrite size_difference, size_singleton by set_solver. lia.
  - replace (X ∖ {[p]}) with X by set_solver. lia.
Qed.

(** One new table: [g] comes from the allocator. *)
Lemma create_step R s root fs P f p i g fa' :
  pt_okP R s root fs P → P !! f = Some p → (length p < 2)%nat → 0 ≤ i < 512 →
  is_valid (entry (pmem s) f i) = false →
  g ∈ fa_free (falloc s) → 0 ≤ g < 2 ^ 44 → g ∈ R →
  fa_free fa' = fa_free (falloc s) ∖ {[g]} → fa_inv R fa' →
  let s2 := mkMachine (store64 (fill_bytes (pmem s) (g * 4096) 4096 0)
                         (f * 4096 + 8 * i) (PTE_new g PTE_V)) fa' in
  let fs2 := vec_push fs (mkFrameTracker g true) in
  pt_okP R s2 root fs2 (<[g := p ++ [i]]> P) ∧
  pt_grow s s2 (mkPageTable root fs) (mkPageTable root fs2).
Proof.
  intros [Ha Hwf Hd Hh Hn Hm Hdj] Hf Hlt Hi Hv Hgf Hgr HgR Hfr Hinv s2 fs2.
  assert (P !! g = None) as HPg by (apply not_elem_of_dom; set_solver).
  assert (g ∉ (list_to_set (ft_ppn <$> fs) : gset Z)) as Hgn
    by (rewrite <-Hd; by apply not_elem_of_dom).
  assert (ft_ppn <$> fs2 = (ft_ppn <$> fs) ++ [g]) as Hfs by (unfold fs2, vec_push; by rewrite fmap_app).
  split; split; unfold pt_frames; simpl;
    rewrite ?dom_insert_L, ?Hfs, ?Hfr, ?list_to_set_app_L; try done; simpl.
  - by apply create_wf.
  - rewrite Hd. set_solver.
  - apply Forall_app. split; [done|by apply Forall_singleton].
  - apply NoDup_app. split_and!; [done| |apply NoDup_singleton]. set_solver.
  - set_solver.
  - set_solver.
  - set_solver.
  - apply set_eq. intros x. destruct (decide (x = g)); set_solver.
  - intros a Hna. rewrite store64_other, fill_bytes_out; [done| |].
    + specialize (Hna g ltac:(set_solver)). unfold same_page in Hna. lia.
    + assert (f ∈ dom P) as Hfd by by eapply elem_of_dom_2.
      rewrite Hd in Hfd. specialize (Hna f ltac:(set_solver)). unfold same_page in Hna. lia.
Qed.

Lemma wp_find_pte_create_loop R idxs s root fs P f p Q :
  pt_okP R s root fs P → P !! f = Some p → (length p + length idxs = 3)%nat →
  Forall (fun i => 0 ≤ i < 512) idxs → (2 ≤ length p + size (fa_free (falloc s)))%nat →
  (∀ s' fs' P' pre i2 g, pt_okP R s' root fs' P' →
     pt_grow s s' (mkPageTable root fs) (mkPageTable root fs') →
     (size (fa_free (falloc s)) ≤ size (fa_free (falloc s')) + (2 - length p))%nat →
     (∀ vpn, 0 ≤ vpn < 2 ^ 27 → pt_view (pmem s') root vpn = pt_view (pmem s) root vpn) →
     idxs = pre ++ [i2] → P' !! g = Some (p ++ pre) →
     Q (Some (g * 4096 + 8 * i2), fs') s') →
  wp (find_pte_create_loop fs f (length p) idxs) Q s.
Proof.
  revert s fs P f p. induction idxs as [|i idxs IH]; intros s fs P f p Hok Hf Hlen Hidx Hsz HQ.
  { destruct (pt_range _ _ _ (okP_wf _ _ _ _ _ Hok) f p Hf) as (_ & ? & _). simpl in Hlen. lia. }
  apply Forall_cons in Hidx as [Hi Hidx]. simpl in Hlen.
  destruct (pt_range _ _ _ (okP_wf _ _ _ _ _ Hok) f p Hf) as (Hfr & Hp2 & _).
  cbn [find_pte_create_loop]. rewrite get_pte_array_eq by done.
  destruct (Nat.eqb_spec (length p) 2) as [H2|H2].
  { wp_step. destruct idxs; [|simpl in Hlen; lia].
    apply (HQ s fs P []); [done|apply pt_grow_refl|lia|done|done|by rewrite app_nil_r]. }
  assert (length p < 2)%nat as Hlt by lia.
  do 2 wp_step. fold (entry (pmem s) f i). wp_step.
  destruct (is_valid (entry (pmem s) f i)) eqn:Hv; simpl negb; cbn iota.
  - do 3 wp_step. fold (entry (pmem s) f i).
    pose proof (pt_next _ _ _ (okP_wf _ _ _ _ _ Hok) f p i Hf ltac:(lia) Hi Hv) as Hn.
    replace (S (length p)) with (length (p ++ [i])) by (rewrite length_app; simpl; lia).
    eapply IH; [done|done|rewrite length_app; simpl; lia|done|rewrite length_app; simpl; lia|].
    intros s' fs' P' pre i2 g Hok' Hgr Hcnt Hvw -> Hg. rewrite length_app in Hcnt.
    apply (HQ s' fs' P' (i :: pre)); [done|done|simpl in Hcnt; lia|done|done|].
    by rewrite <-app_assoc in Hg.
  - pose proof (okP_wf _ _ _ _ _ Hok) as Hwf. wp_step.
    apply (wp_frame_alloc R); [apply Hok| |].
    { intros Hemp. rewrite Hemp, size_empty in Hsz. lia. }
    intros g fa' Hgf Hgr HgR Hfr' Hinv'. wp_step. wp_step; [done|]. unfold update_pmem.
    do 5 wp_step. cbn [pmem falloc ft_ppn].
    assert (P !! g = None) as HPg
      by (apply not_elem_of_dom; pose proof (okP_disjoint _ _ _ _ _ Hok); set_solver).
    set (m2 := store64 _ _ _). fold (entry m2 f i).
    rewrite (create_entry_new (pmem s) f i g Hgr : entry m2 f i = _).
    rewrite create_ppn by done.
    replace (S (length p)) with (length (p ++ [i])) by (rewrite length_app; simpl; lia).
    destruct (create_step R s root fs P f p i g fa') as [Hok' Hgr1]; try done.
    eapply IH; [exact Hok'|by rewrite lookup_insert_eq|rewrite length_app; simpl; lia|done| |].
    { simpl. rewrite Hfr'. rewrite length_app. simpl.
      pose proof (size_difference_1 (fa_free (falloc s)) g (1 - length p)). lia. }
    intros s' fs' P' pre i2 h Hok2 Hgr2 Hcnt Hvw -> HPh.
    apply (HQ s' fs' P' (i :: pre)); [done| | | |done|by rewrite <-app_assoc in HPh].
    + by eapply pt_grow_trans.
    + simpl in Hcnt. rewrite Hfr', length_app in Hcnt. simpl in Hcnt.
      rewrite size_difference, size_singleton in Hcnt by set_solver. lia.
    + intros vpn Hvpn. rewrite Hvw by done. simpl. by eapply create_view.
Qed.

Lemma pt_ok_root R s pt : pt_ok R s pt → 0 ≤ root_ppn pt < 2 ^ 44.
Proof. intros (P & Hok)%pt_ok_okP. by eapply pt_root_range, okP_wf. Qed.

(** A mapped page has its entry in a last-level table. *)
Lemma view_find R s pt vpn :
  pt_ok R s pt → 0 ≤ vpn < 2 ^ 27 → is_Some (pt_view (pmem s) (root_ppn pt) vpn) →
  ∃ i0 i1 i2 g, indexes vpn = [i0; i1; i2] ∧ walk (pmem s) (root_ppn pt) [i0; i1] = Some g ∧
    find_pte (pmem s) pt vpn = Some (g * 4096 + 8 * i2) ∧
    is_valid (entry (pmem s) g i2) = true ∧
    pt_view (pmem s) (root_ppn pt) vpn = Some (entry (pmem s) g i2).
Proof.
  intros Hok Hv [b Hb]. pose proof (pt_ok_root _ _ _ Hok) as Hr.
  destruct (indexes_split vpn Hv) as (i0 & i1 & i2 & Hi & _).
  rewrite (pt_view_walk _ _ _ i0 i1 i2) in Hb |- * by done.
  destruct (walk _ _ _) as [g|] eqn:Hg; [|done].
  destruct (is_valid _) eqn:Hval; [|done].
  exists i0, i1, i2, g. unfold find_pte. rewrite (find_pte_walk _ _ _ i0 i1 i2), Hg by done. done.
Qed.

(** Writing one entry found by [find_pte] keeps the invariant. *)
Lemma pt_ok_store R s pt vpn i0 i1 i2 g v :
  pt_ok R s pt → 0 ≤ vpn < 2 ^ 27 → indexes vpn = [i0; i1; i2] →
  walk (pmem s) (root_ppn pt) [i0; i1] = Some g → is_usize v →
  let s' := mkMachine (store64 (pmem s) (g * 4096 + 8 * i2) v) (falloc s) in
  pt_ok R s' pt ∧ pt_grow s s' pt pt ∧
  (∀ vpn', 0 ≤ vpn' < 2 ^ 27 →
     pt_view (pmem s') (root_ppn pt) vpn' =
       if decide (vpn' = vpn) then (if is_valid v then Some v else None)
       else pt_view (pmem s) (root_ppn pt) vpn').
Proof.
  intros (P & Hok)%pt_ok_okP Hvpn Hi Hg Hv s'. destruct Hok as [Ha Hwf Hd Hh Hn Hm Hdj].
  destruct (leaf_store _ _ _ Hwf g vpn i0 i1 i2 v Hvpn Hi Hg Hv) as [Hwf' Hview].
  assert (P !! g = Some [i0; i1]) as HPg.
  { destruct (indexes_split vpn Hvpn) as (? & ? & ? & Hi' & Hf & _). rewrite Hi in Hi'.
    injection Hi' as <- <- <-. eapply (walk_path _ _ _ Hwf _ []); [apply Hwf|simpl; lia|done|done]. }
  split_and!; [apply pt_ok_okP; by exists P| |done].
  split; [done|done|simpl; set_solver|]. intros a Hna. simpl. apply store64_other.
  specialize (Hna g). unfold pt_frames in Hna. rewrite <-Hd in Hna.
  specialize (Hna ltac:(by eapply elem_of_dom_2)).
  destruct (indexes_recompose vpn i0 i1 i2 Hvpn Hi) as (_ & _ & _ & Hi2).
  unfold same_page in Hna. lia.
Qed.

Lemma wp_PageTable_map R s pt vpn ppn flags Q :
  pt_ok R s pt → 0 ≤ vpn < 2 ^ 27 → 0 ≤ ppn < 2 ^ 44 → 0 ≤ flags < 2 ^ 8 →
  (2 ≤ size (fa_free (falloc s)))%nat → pt_view (pmem s) (root_ppn pt) vpn = None →
  (∀ s' pt', pt_ok R s' pt' → pt_grow s s' pt pt' →
     (size (fa_free (falloc s)) ≤ size (fa_free (falloc s')) + 2)%nat →
     (∀ vpn', 0 ≤ vpn' < 2 ^ 27 →
        pt_view (pmem s') (root_ppn pt') vpn' =
          if decide (vpn' = vpn) then Some (PTE_new ppn (Z.lor flags PTE_V))
          else pt_view (pmem s) (root_ppn pt) vpn') →
     Q pt' s') →
  wp (PageTable_map pt vpn ppn flags) Q s.
Proof.
  intros (P & Hok)%pt_ok_okP Hvpn Hppn Hfl Hsz Hnone HQ.
  unfold PageTable_map, find_pte_create. do 2 wp_step.
  destruct (indexes_split vpn Hvpn) as (i0 & i1 & i2 & Hi & Hall & Hi2). rewrite Hi.
  eapply (wp_find_pte_create_loop R _ s _ _ P _ []); [done|apply Hok|done| |done|].
  { by apply (Forall_app_2 _ [i0; i1] [i2]); [|apply Forall_singleton]. }
  intros s1 fs1 P1 pre j2 g Hok1 Hgr1 Hcnt Hvw1 Heq HPg.
  change [i0; i1; i2] with ([i0; i1] ++ [i2]) in Heq.
  apply app_inj_2 in Heq as [<- [= <-]]; [|done].
  pose proof (wf_walk _ _ _ (okP_wf _ _ _ _ _ Hok1) _ [] [i0; i1] g
                (pt_root _ _ _ (okP_wf _ _ _ _ _ Hok1)) HPg) as Hwalk.
  set (pt1 := mkPageTable (root_ppn pt) fs1) in *.
  assert (pt_ok R s1 pt1) as Hpt1 by (apply pt_ok_okP; eauto).
  do 2 wp_step. wp_step; [done|]. do 3 wp_step.
  assert (is_valid (entry (pmem s1) g i2) = false) as Hinv.
  { pose proof (Hvw1 vpn Hvpn) as Hv. rewrite Hnone in Hv.
    rewrite (pt_view_walk _ _ _ i0 i1 i2), Hwalk in Hv by (done || apply (pt_ok_root R s1 pt1 Hpt1)).
    by destruct (is_valid _). }
  wp_step; [by fold (entry (pmem s1) g i2); rewrite Hinv|].
  unfold update_pmem. do 3 wp_step.
  destruct (pt_ok_store R s1 pt1 vpn i0 i1 i2 g (PTE_new ppn (Z.lor flags PTE_V)) Hpt1 Hvpn Hi Hwalk)
    as (Hok2 & Hgr2 & Hvw2); [apply PTE_new_usize; [done|by apply lor_flags_range]|].
  apply HQ; [done| |done|].
  - eapply pt_grow_trans; [|done]. by destruct pt.
  - intros vpn' Hvpn'. rewrite Hvw2, PTE_new_valid by done. case_decide; [done|]. by apply Hvw1.
Qed.

Lemma wp_PageTable_unmap R s pt vpn (Q : unit → Machine A → Prop) :
  pt_ok R s pt → 0 ≤ vpn < 2 ^ 27 → is_Some (pt_view (pmem s) (root_ppn pt) vpn) →
  (∀ s', pt_ok R s' pt → pt_grow s s' pt pt → falloc s' = falloc s →
     (∀ vpn', 0 ≤ vpn' < 2 ^ 27 →
        pt_view (pmem s') (root_ppn pt) vpn' =
          if decide (vpn' = vpn) then None else pt_view (pmem s) (root_ppn pt) vpn') →
     translate (pmem s') pt vpn = Some PTE_empty →
     Q tt s') →
  wp (PageTable_unmap pt vpn) Q s.
Proof.
  intros Hok Hvpn Hm HQ. unfold PageTable_unmap.
  destruct (view_find R s pt vpn Hok Hvpn Hm) as (i0 & i1 & i2 & g & Hi & Hw & Hf & Hval & _).
  do 3 wp_step. wp_step; [done|]. wp_step. wp_step; [done|]. unfold update_pmem. wp_step.
  destruct (pt_ok_store R s pt vpn i0 i1 i2 g PTE_empty Hok Hvpn Hi Hw) as (? & ? & ?); [done|].
  apply HQ; try done. apply pt_ok_okP in Hok as (P & Hok). pose proof (okP_wf _ _ _ _ _ Hok) as Hwf.
  destruct (leaf_store_walk _ _ _ Hwf g vpn i0 i1 i2 PTE_empty Hvpn Hi Hw) as [_ Hw'].
  unfold translate, find_pte. rewrite (find_pte_walk _ _ _ i0 i1 i2); [|by eapply pt_root_range|done].
  cbn [pmem]. rewrite Hw'. by rewrite load64_store64_eq.
Qed.

(** Entries that [find_pte] finds without a valid leaf are reported unmapped. *)
Lemma view_None_find m pt vpn :
  pt_view m (root_ppn pt) vpn = None →
  match find_pte m pt vpn with Some a => is_valid (load64 m a) = false | None => True end.
Proof. unfold pt_view, find_pte. destruct (find_pte_loop _ _ _ _); [|done]. by destruct (is_valid _). Qed.

Lemma wp_set_pte_flags R s pt vpn flags b (Q : bool → Machine A → Prop) :
  pt_ok R s pt → 0 ≤ vpn < 2 ^ 27 → 0 ≤ flags < 2 ^ 8 →
  pt_view (pmem s) (root_ppn pt) vpn = Some b →
  (∀ s', pt_ok R s' pt → pt_grow s s' pt pt → falloc s' = falloc s →
     (∀ vpn', 0 ≤ vpn' < 2 ^ 27 →
        pt_view (pmem s') (root_ppn pt) vpn' =
          if decide (vpn' = vpn)
          then Some (PTE_new (PTE_ppn b) (Z.lor (Z.lor flags PTE_U) PTE_V))
          else pt_view (pmem s) (root_ppn pt) vpn') →
     Q true s') →
  wp (set_pte_flags pt vpn flags) Q s.
Proof.
  intros Hok Hvpn Hfl Hb HQ. unfold set_pte_flags.
  destruct (view_find R s pt vpn Hok Hvpn) as (i0 & i1 & i2 & g & Hi & Hw & Hf & Hval & Hv); [eauto|].
  rewrite Hb in Hv. injection Hv as ->. do 2 wp_step. rewrite Hf.
  fold (entry (pmem s) g i2). rewrite Hval. simpl negb. cbn iota.
  unfold update_pmem. do 3 wp_step.
  set (v := Z.lor (shl64 _ _) _). change v with (PTE_new (PTE_ppn (entry (pmem s) g i2))
                                             (Z.lor (Z.lor flags PTE_U) PTE_V)).
  assert (0 ≤ Z.lor flags PTE_U < 2 ^ 8) as Hfu by (by apply lor_flags_range).
  destruct (pt_ok_store R s pt vpn i0 i1 i2 g v Hok Hvpn Hi Hw) as (? & ? & Hvw);
    [apply PTE_new_usize; [apply PTE_ppn_range|by apply lor_flags_range]|].
  apply HQ; [done|done|done|]. intros vpn' Hvpn'. rewrite Hvw by done. unfold v.
  fold (PTE_new (PTE_ppn (entry (pmem s) g i2)) (Z.lor (Z.lor flags PTE_U) PTE_V)).
  by rewrite PTE_new_valid by (done || apply PTE_ppn_range).
Qed.

Lemma set_pte_flags_unmapped s pt vpn flags :
  pt_view (pmem s) (root_ppn pt) vpn = None → set_pte_flags pt vpn flags s = Ok (false, s).
Proof.
  intros Hn%view_None_find. unfold set_pte_flags, mbind, st_bind, get_st.
  destruct (find_pte _ _ _); [by rewrite Hn|done].
Qed.

Lemma wp_PageTable_new R s Q :
  fa_inv R (falloc s) → fa_free (falloc s) ≠ ∅ →
  (∀ s' pt, pt_ok R s' pt → root_ppn pt ∈ fa_free (falloc s) →
     pt_frames pt = {[root_ppn pt]} →
     fa_free (falloc s') = fa_free (falloc s) ∖ {[root_ppn pt]} →
     (∀ a, ¬ same_page (root_ppn pt) a → pmem s' a = pmem s a) →
     (∀ vpn, 0 ≤ vpn < 2 ^ 27 → pt_view (pmem s') (root_ppn pt) vpn = None) → Q pt s') →
  wp PageTable_new Q s.
Proof.
  intros Hinv Hne HQ. unfold PageTable_new. wp_step. apply (wp_frame_alloc R); [done|done|].
  intros p fa' Hp Hr HpR Hfr Hinv'. wp_step. wp_step; [done|]. wp_step. simpl.
  set (m1 := fill_bytes _ _ _ _).
  assert (pt_wf m1 p {[p := []]}) as Hwf.
  { split.
    - apply lookup_singleton_eq.
    - intros f q [<- <-]%lookup_singleton_Some. simpl. split_and!; lia || done.
    - intros f1 f2 q [<- _]%lookup_singleton_Some [<- _]%lookup_singleton_Some. done.
    - intros f q i [<- <-]%lookup_singleton_Some _ Hi. unfold m1. by rewrite entry_fill_eq.
    - intros f q i [_ Heq]%lookup_singleton_Some. by destruct q. }
  apply HQ; simpl; try done.
  - apply pt_ok_okP. exists {[p := []]}. split; simpl; try done.
    + rewrite dom_singleton_L. set_solver.
    + by apply Forall_singleton.
    + apply NoDup_singleton.
    + rewrite dom_singleton_L. set_solver.
    + rewrite dom_singleton_L, Hfr. set_solver.
  - unfold pt_frames. simpl. set_solver.
  - intros a Ha. apply fill_bytes_out. unfold same_page in Ha. lia.
  - intros vpn Hvpn. destruct (indexes_split vpn Hvpn) as (i0 & i1 & i2 & Hi & [Hi0 _]%Forall_cons & _).
    rewrite (pt_view_walk _ _ _ i0 i1 i2) by done. simpl. unfold m1. by rewrite entry_fill_eq.
Qed.
End correct.

(** ** Translation *)

Lemma find_pte_root m pt1 pt2 vpn :
  root_ppn pt1 = root_ppn pt2 → find_pte m pt1 vpn = find_pte m pt2 vpn.
Proof. unfold find_pte. by intros ->. Qed.

Lemma root_from_token pt :
  0 ≤ root_ppn pt < 2 ^ 44 → root_ppn (PageTable_from_token (token pt)) = root_ppn pt.
Proof.
  intros Hr. simpl. unfold token. change (shl64 8 60) with (Z.shiftl 8 60).
  rewrite mask_ones, Z.land_lor_distr_l by done.
  change (Z.land (Z.shiftl 8 60) (Z.ones 44)) with 0. rewrite Z.lor_0_l.
  rewrite Z.land_ones, Z.mod_small by done. by apply PhysPageNum_from_usize_small.
Qed.

Lemma view_translate m pt vpn b :
  pt_view m (root_ppn pt) vpn = Some b → translate m pt vpn = Some b.
Proof.
  unfold pt_view, translate, find_pte. destruct (find_pte_loop _ _ _ _); [|done].
  by destruct (is_valid _).
Qed.

Lemma view_translate_va m pt va b :
  pt_view m (root_ppn pt) (floor va) = Some b →
  translate_va m pt va = Some (PTE_ppn b * 4096 + page_offset va).
Proof.
  unfold pt_view, translate_va, find_pte. destruct (find_pte_loop _ _ _ _) as [a|]; [|done].
  destruct (is_valid _); [|done]. intros [= <-].
  pose proof (PTE_ppn_range (load64 m a)). pose proof (page_offset_bound va).
  rewrite PhysAddr_from_PhysPageNum_small by done.
  rewrite wrap64_small by (unfold is_usize; lia).
  rewrite PhysAddr_from_usize_mod, Z.mod_small by lia. done.
Qed.
