(* ===== verification/PageTableSpec.v ===== *)
(** * Page tables implement finite maps

    The abstract specification of [PageTable]: a finite map from virtual page
    numbers to leaf entries.  Every sequence of [map], [unmap] and
    [set_pte_flags] calls on the tables in memory behaves as the
    corresponding sequence of map updates, and panics exactly when the
    specification has no result. *)

From S2P Require Import Prelude Config Address PhysMem FrameAllocator PageTable.

Inductive pt_cmd : Type :=
  | CMap (vpn : VirtPageNum) (ppn : PhysPageNum) (flags : Z)
  | CUnmap (vpn : VirtPageNum)
  | CProtect (vpn : VirtPageNum) (flags : Z).

Definition cmd_in_range (c : pt_cmd) : Prop :=
  match c with
  | CMap vpn ppn flags => 0 ≤ vpn < 2 ^ 27 ∧ 0 ≤ ppn < 2 ^ 44 ∧ 0 ≤ flags < 2 ^ 8
  | CUnmap vpn => 0 ≤ vpn < 2 ^ 27
  | CProtect vpn flags => 0 ≤ vpn < 2 ^ 27 ∧ 0 ≤ flags < 2 ^ 8
  end.

(** The specification; [None] stands for a panic. *)
Definition spec_cmd (M : gmap Z Z) (c : pt_cmd) : option (gmap Z Z) :=
  match c with
  | CMap vpn ppn flags =>
      match M !! vpn with
      | None => Some (<[vpn := PTE_new ppn (Z.lor flags PTE_V)]> M)
      | Some _ => None
      end
  | CUnmap vpn =>
      match M !! vpn with Some _ => Some (delete vpn M) | None => None end
  | CProtect vpn flags =>
      match M !! vpn with
      | Some b => Some (<[vpn := PTE_new (PTE_ppn b) (Z.lor (Z.lor flags PTE_U) PTE_V)]> M)
      | None => Some M
      end
  end.

Fixpoint spec_cmds (M : gmap Z Z) (cs : list pt_cmd) : option (gmap Z Z) :=
  match cs with
  | [] => Some M
  | c :: cs => match spec_cmd M c with Some M' => spec_cmds M' cs | None => None end
  end.

(** The tables under [root] in memory [m] implement the map [M]. *)
Definition represents (m : PMem) (root : Z) (M : gmap Z Z) : Prop :=
  ∀ vpn, 0 ≤ vpn < 2 ^ 27 → pt_view m root vpn = M !! vpn.

Section refinement.
Context {A : Type} {FA : FrameAllocator A}.

Definition exec_cmd (pt : PageTable) (c : pt_cmd) : ST (Machine A) PageTable :=
  match c with
  | CMap vpn ppn flags => PageTable_map pt vpn ppn flags
  | CUnmap vpn => PageTable_unmap pt vpn;; mret pt
  | CProtect vpn flags => set_pte_flags pt vpn flags;; mret pt
  end.

Context {FS : FrameAllocatorSpec A}.
Implicit Types (R : gset Z) (s : Machine A) (pt : PageTable) (M : gmap Z Z).

Lemma find_pte_create_loop_walk s fs pre i2 f g i :
  walk (pmem s) f pre = Some g → (length pre + i = 2)%nat → 0 ≤ f < 2 ^ 44 →
  find_pte_create_loop fs f i (pre ++ [i2]) s = Ok ((Some (g * 4096 + 8 * i2), fs), s).
Proof.
  revert f i. induction pre as [|j pre IH]; intros f i; simpl.
  - intros [= ->] -> Hf. rewrite get_pte_array_eq by done. done.
  - intros Hw Hlen Hf. destruct (Nat.eqb_spec i 2); [lia|].
    unfold mbind at 1, st_bind at 1, gets at 1. rewrite get_pte_array_eq by done.
    fold (entry (pmem s) f j). destruct (is_valid (entry (pmem s) f j)); [|done]. simpl negb.
    unfold mbind, st_bind, mret, st_ret, gets. fold (entry (pmem s) f j).
    apply IH; [done|lia|apply PTE_ppn_range].
Qed.

Lemma PageTable_map_mapped R s pt vpn ppn flags :
  pt_ok R s pt → 0 ≤ vpn < 2 ^ 27 → is_Some (pt_view (pmem s) (root_ppn pt) vpn) →
  PageTable_map pt vpn ppn flags s = Panic.
Proof.
  intros Hok Hvpn Hm. pose proof (pt_ok_root R s pt Hok) as Hr.
  destruct (view_find R s pt vpn Hok Hvpn Hm) as (i0 & i1 & i2 & g & Hi & Hw & _ & Hval & _).
  unfold PageTable_map, find_pte_create, mbind, st_bind. rewrite Hi.
  change [i0; i1; i2] with ([i0; i1] ++ [i2]).
  rewrite (find_pte_create_loop_walk s _ [i0; i1] i2 _ g) by done. simpl.
  unfold mret, st_ret, gets. fold (entry (pmem s) g i2). by rewrite Hval.
Qed.

Lemma PageTable_unmap_unmapped s pt vpn :
  pt_view (pmem s) (root_ppn pt) vpn = None → PageTable_unmap pt vpn s = Panic.
Proof.
  intros Hn%view_None_find. unfold PageTable_unmap, mbind, st_bind, get_st.
  destruct (find_pte _ _ _); simpl; [by rewrite Hn|done].
Qed.

(** One step: the tables follow the specification. *)
Lemma exec_cmd_refines R s pt M c :
  pt_ok R s pt → represents (pmem s) (root_ppn pt) M → cmd_in_range c →
  (2 ≤ size (fa_free (falloc s)))%nat →
  match spec_cmd M c with
  | Some M' => wp (exec_cmd pt c) (fun pt' s' =>
      pt_ok R s' pt' ∧ (size (fa_free (falloc s)) ≤ size (fa_free (falloc s')) + 2)%nat ∧
      represents (pmem s') (root_ppn pt') M') s
  | None => exec_cmd pt c s = Panic
  end.
Proof.
  intros Hok Hrep Hc Hsz. destruct c as [vpn ppn flags|vpn|vpn flags]; simpl.
  - destruct Hc as (Hv & Hp & Hf). pose proof (Hrep vpn Hv) as Hvw.
    destruct (M !! vpn) as [b|] eqn:E; [eapply PageTable_map_mapped; eauto|].
    eapply wp_PageTable_map; eauto. intros s' pt' Hok' _ Hcnt Hvw'. split_and!; [done|done|].
    intros v' Hv'. rewrite Hvw', lookup_insert by done.
    destruct (decide (v' = vpn)), (decide (vpn = v')); try congruence. by apply Hrep.
  - pose proof (Hrep vpn Hc) as Hvw. destruct (M !! vpn) as [b|] eqn:E.
    + wp_step. eapply wp_PageTable_unmap; eauto. intros s' Hok' _ Hfa Hvw' _. wp_step.
      split_and!; [done|rewrite Hfa; lia|]. intros v' Hv'. rewrite Hvw', lookup_delete by done.
      destruct (decide (v' = vpn)), (decide (vpn = v')); try congruence. by apply Hrep.
    + unfold mbind, st_bind. by rewrite PageTable_unmap_unmapped.
  - destruct Hc as [Hv Hf]. pose proof (Hrep vpn Hv) as Hvw.
    destruct (M !! vpn) as [b|] eqn:E; wp_step.
    + eapply wp_set_pte_flags; eauto. intros s' Hok' _ Hfa Hvw'. wp_step.
      split_and!; [done|rewrite Hfa; lia|]. intros v' Hv'. rewrite Hvw', lookup_insert by done.
      destruct (decide (v' = vpn)), (decide (vpn = v')); try congruence. by apply Hrep.
    + eapply wp_intro; [by apply set_pte_flags_unmapped|]. wp_step.
      split_and!; [done|lia|done].
Qed.

Lemma exec_cmds_refine R s pt M cs :
  pt_ok R s pt → represents (pmem s) (root_ppn pt) M → Forall cmd_in_range cs →
  (2 * length cs ≤ size (fa_free (falloc s)))%nat →
  match spec_cmds M cs with
  | Some M' => ∃ pt' s', st_fold exec_cmd pt cs s = Ok (pt', s') ∧
      pt_ok R s' pt' ∧ represents (pmem s') (root_ppn pt') M'
  | None => st_fold exec_cmd pt cs s = Panic
  end.
Proof.
  revert s pt M. induction cs as [|c cs IH]; intros s pt M Hok Hrep Hcs Hsz; simpl; [by eauto|].
  apply Forall_cons in Hcs as [Hc Hcs]. simpl in Hsz.
  pose proof (exec_cmd_refines R s pt M c Hok Hrep Hc ltac:(lia)) as H.
  destruct (spec_cmd M c) as [M'|]; [|unfold mbind, st_bind; by rewrite H].
  apply wp_elim in H as (pt' & s' & Heq & Hok' & Hcnt & Hrep').
  unfold mbind, st_bind. rewrite Heq. apply IH; try done. lia.
Qed.
(** C1: the three-level page table implements a finite map from page numbers to
    entries.  Every sequence of [map], [unmap] and [set_pte_flags] commands that
    the map allows runs on the page table without panic and ends in a table that
    represents the resulting map; a sequence that maps a mapped page or unmaps an
    unmapped one panics. *)
Theorem page_table_refines_map R s pt M cs :
  pt_ok R s pt → represents (pmem s) (root_ppn pt) M → Forall cmd_in_range cs →
  (2 * length cs ≤ size (fa_free (falloc s)))%nat →
  match spec_cmds M cs with
  | Some M' => ∃ pt' s', st_fold exec_cmd pt cs s = Ok (pt', s') ∧
      pt_ok R s' pt' ∧ represents (pmem s') (root_ppn pt') M'
  | None => st_fold exec_cmd pt cs s = Panic
  end.
Proof. apply exec_cmds_refine. Qed.
End refinement.

(** A fresh table over the sample machine. *)
Lemma sample_page_table :
  ∃ pt s, PageTable_new sample_machine = Ok (pt, s) ∧ pt_ok sample_frames s pt ∧
    represents (pmem s) (root_ppn pt) ∅ ∧ (15 ≤ size (fa_free (falloc s)))%nat.
Proof.
  apply wp_elim. eapply (wp_PageTable_new sample_frames);
    [apply sample_inv|apply sample_free_nonempty|].
  intros s' pt Hok Hroot _ Hfree _ Hview. split_and!; [done|done|].
  rewrite Hfree. pose proof sample_free_size. rewrite size_difference by set_solver.
  rewrite size_singleton. lia.
Qed.

(** Two user pages mapped in it. *)
Lemma sample_mapped :
  ∃ pt s, pt_ok sample_frames s pt ∧
    pt_view (pmem s) (root_ppn pt) 5 = Some (PTE_new 20 23) ∧
    pt_view (pmem s) (root_ppn pt) 6 = Some (PTE_new 25 23).
Proof.
  destruct sample_page_table as (pt & s & _ & Hok & Hrep & Hsz).
  set (cs := [CMap 5 20 22; CMap 6 25 22]).
  assert (Forall cmd_in_range cs) as Hcs.
  { unfold cs, cmd_in_range. rewrite !Forall_cons, Forall_nil. lia. }
  pose proof (exec_cmds_refine sample_frames s pt ∅ cs Hok Hrep Hcs ltac:(unfold cs; cbn [length]; lia)) as H.
  destruct (spec_cmds ∅ cs) as [M|] eqn:E; [|by vm_compute in E].
  destruct H as (pt' & s' & _ & Hok' & Hrep'). exists pt', s'. split; [done|].
  rewrite !Hrep' by lia. vm_compute in E. injection E as <-. split; vm_compute; reflexivity.
Qed.

Lemma page_table_refines_map_witness :
  let cs := [CMap 5 20 6; CProtect 5 2; CMap 7 21 2; CUnmap 5] in
  ∃ M pt s pt' s', PageTable_new sample_machine = Ok (pt, s) ∧ spec_cmds ∅ cs = Some M ∧
    st_fold exec_cmd pt cs s = Ok (pt', s') ∧ represents (pmem s') (root_ppn pt') M.
Proof.
  intros cs. destruct sample_page_table as (pt & s & Hnew & Hok & Hrep & Hsz).
  assert (Forall cmd_in_range cs) as Hcs.
  { unfold cs, cmd_in_range. rewrite !Forall_cons, Forall_nil. lia. }
  pose proof (page_table_refines_map sample_frames s pt ∅ cs Hok Hrep Hcs ltac:(unfold cs; cbn [length]; lia)) as H.
  destruct (spec_cmds ∅ cs) as [M|] eqn:E; [|by vm_compute in E].
  destruct H as (pt' & s' & Hrun & _ & Hrep'). by exists M, pt, s, pt', s'.
Defined.
