(* ===== verification/UserMem.v ===== *)
(** * Access to user memory: the second half of [kernel/src/mm/page_table.rs]

    System calls reach the memory of a process through its page table:
    [translated_byte_buffer] turns a user range into slices of physical
    memory, [translated_str] reads a C string, and [UserBuffer] is the list of
    slices files read into and write from.  A slice [&'static mut [u8]] is
    the pair of its physical address and its length; writing through it
    changes the physical memory, so aliasing is visible. *)

From S2P Require Import Prelude Config Address PhysMem FrameAllocator PageTable PageTableSpec.

Abbreviation PSlice := (Z * Z)%type (only parsing).

(** ** Translation *)

(** The [while start < end] loop of [translated_byte_buffer]. *)
Fixpoint tbb_loop (fuel : nat) (m : PMem) (page_table : PageTable) (start end_ : Z)
    (v : list PSlice) : outcome (list PSlice) :=
  if start <? end_ then
    match fuel with
    | O => OutOfFuel
    | S fuel =>
        let start_va := VirtAddr_from_usize start in
        let vpn := floor start_va in
        match translate m page_table vpn with
        | None => Panic
        | Some pte =>
            let ppn := PTE_ppn pte in
            let vpn := step vpn in
            let end_va := Z.min (VirtAddr_from_VirtPageNum vpn) (VirtAddr_from_usize end_) in
            let off := page_offset start_va in
            if page_offset end_va =? 0 then
              tbb_loop fuel m page_table (usize_from_VirtAddr end_va) end_
                (vec_push v (get_bytes_array ppn + off, PAGE_SIZE - off))
            else if off <=? page_offset end_va then
              tbb_loop fuel m page_table (usize_from_VirtAddr end_va) end_
                (vec_push v (get_bytes_array ppn + off, page_offset end_va - off))
            else Panic
        end
    end
  else Ok v.

Definition translated_byte_buffer (fuel : nat) (m : PMem) (token ptr len : Z)
    : outcome (list PSlice) :=
  tbb_loop fuel m (PageTable_from_token token) ptr (ptr ⊞ len) [].

(** [PhysAddr::get_ref] and [get_mut]: [as_ref().unwrap()] fails on null. *)
Definition get_ref (pa : PhysAddr) : outcome PhysAddr :=
  if pa =? 0 then Panic else Ok pa.

Definition translated_ref (m : PMem) (token ptr : Z) : outcome PhysAddr :=
  match translate_va m (PageTable_from_token token) (VirtAddr_from_usize ptr) with
  | None => Panic
  | Some pa => get_ref pa
  end.

Definition translated_refmut (m : PMem) (token ptr : Z) : outcome PhysAddr :=
  let va := ptr in
  match translate_va m (PageTable_from_token token) (VirtAddr_from_usize va) with
  | None => Panic
  | Some pa => get_ref pa
  end.

(** The string is the list of its code points. *)
Fixpoint translated_str_loop (fuel : nat) (m : PMem) (page_table : PageTable) (va : Z)
    (string : list Z) : outcome (list Z) :=
  match fuel with
  | O => OutOfFuel
  | S fuel =>
      match translate_va m page_table (VirtAddr_from_usize va) with
      | None => Panic
      | Some pa =>
          ch ← (pa ← get_ref pa; Ok (m pa));
          if ch =? 0 then Ok string
          else translated_str_loop fuel m page_table (va ⊞ 1) (vec_push string ch)
      end
  end.

Definition translated_str (fuel : nat) (m : PMem) (token ptr : Z) : outcome (list Z) :=
  translated_str_loop fuel m (PageTable_from_token token) ptr [].

(** ** [UserBuffer] *)

Record UserBuffer : Type := UserBuffer_new { buffers : list PSlice }.

Definition UserBuffer_len (ub : UserBuffer) : Z :=
  foldl (fun total b => total ⊞ b.2) 0 (buffers ub).

Definition UserBuffer_clear (ub : UserBuffer) : ST PMem unit :=
  st_fold (fun _ b => modify (fun m => fill_bytes m b.1 b.2 0)) tt (buffers ub).

Fixpoint ub_write_loop (bs : list PSlice) (buf : list Z) (len write_len : Z) : ST PMem unit :=
  match bs with
  | [] => mret tt
  | (a, l) :: bs =>
      let write_end := Z.min len (write_len ⊞ l) in
      copied_part ← slice buf write_len write_end;
      rust_assert (write_end ⊟ write_len <=? l);;
      modify (fun m => write_bytes m a copied_part);;
      if write_end =? len then mret tt else ub_write_loop bs buf len (write_len ⊞ l)
  end.

Definition UserBuffer_write (ub : UserBuffer) (buf : list Z) : ST PMem Z :=
  rust_assert (negb (bool_decide (buffers ub = [])));;
  let len := Z.min (UserBuffer_len ub) (Z.of_nat (length buf)) in
  ub_write_loop (buffers ub) buf len 0;;
  mret len.

(** The [for index in ..] loops of [write_at] on the sub-buffer at [a]; [inl]
    is the value returned from the function, [inr] the new [offset_buf]. *)
Fixpoint write_at_sub (a : Z) (buf : list Z) (len offset_buf : Z) (index : list Z)
    : ST PMem (Z + Z) :=
  match index with
  | [] => mret (inr offset_buf)
  | i :: index =>
      x ← unwrap (buf !! Z.to_nat offset_buf);
      modify (fun m => write_bytes m (a + i) [x]);;
      let offset_buf := offset_buf ⊞ 1 in
      if offset_buf =? len then mret (inl len) else write_at_sub a buf len offset_buf index
  end.

Fixpoint write_at_loop (bs : list PSlice) (offset : Z) (buf : list Z)
    (len offset_user_buffer offset_buf : Z) : ST PMem Z :=
  match bs with
  | [] => mret EPERM
  | (a, sub_buffer_len) :: bs =>
      if offset_user_buffer ⊞ sub_buffer_len <? offset then
        write_at_loop bs offset buf len offset_user_buffer offset_buf
      else
        let first := if offset_user_buffer <? offset then offset ⊟ offset_user_buffer else 0 in
        r ← write_at_sub a buf len offset_buf (seqZ first (sub_buffer_len - first));
        match r with
        | inl n => mret (as_isize n)
        | inr offset_buf =>
            write_at_loop bs offset buf len (offset_user_buffer ⊞ sub_buffer_len) offset_buf
        end
  end.

Definition UserBuffer_write_at (ub : UserBuffer) (offset : Z) (buf : list Z) : ST PMem Z :=
  rust_assert (negb (bool_decide (buffers ub = [])));;
  rust_assert (negb (UserBuffer_len ub <? offset ⊞ Z.of_nat (length buf)));;
  let len := Z.min (UserBuffer_len ub ⊟ offset) (Z.of_nat (length buf)) in
  write_at_loop (buffers ub) offset buf len 0 0.

Record UserBufferIterator : Type := mkUserBufferIterator {
  it_buffers : list PSlice;
  current_buffer : Z;
  current_idx : Z
}.

Definition UserBuffer_into_iter (ub : UserBuffer) : UserBufferIterator :=
  mkUserBufferIterator (buffers ub) 0 0.

Definition UserBufferIterator_next (it : UserBufferIterator)
    : outcome (option Z * UserBufferIterator) :=
  if Z.of_nat (length (it_buffers it)) <=? current_buffer it then Ok (None, it)
  else
    match it_buffers it !! Z.to_nat (current_buffer it) with
    | None => Panic
    | Some (a, l) =>
        if current_idx it <? l then
          Ok (Some (a + current_idx it),
              if current_idx it ⊞ 1 =? l
              then mkUserBufferIterator (it_buffers it) (current_buffer it ⊞ 1) 0
              else mkUserBufferIterator (it_buffers it) (current_buffer it) (current_idx it ⊞ 1))
        else Panic
    end.

(** [for b in user_buffer]: the addresses in the order they are visited. *)
Fixpoint UserBufferIterator_collect (fuel : nat) (it : UserBufferIterator) : outcome (list Z) :=
  match fuel with
  | O => OutOfFuel
  | S fuel =>
      '(x, it') ← UserBufferIterator_next it;
      match x with
      | None => Ok []
      | Some a => rest ← UserBufferIterator_collect fuel it'; Ok (a :: rest)
      end
  end.

(** ** What the operations are about *)

(** The physical address behind a mapped user address. *)
Definition user_phys (m : PMem) (pt : PageTable) (va : Z) : Z :=
  match pt_view m (root_ppn pt) (va / 4096) with
  | Some b => PTE_ppn b * 4096 + va mod 4096
  | None => 0
  end.

Definition user_mapped (m : PMem) (pt : PageTable) (va : Z) : Prop :=
  is_Some (pt_view m (root_ppn pt) (va / 4096)).

(** All the byte addresses of a list of slices, in order, and their bytes. *)
Definition slice_addrs (bs : list PSlice) : list Z := bs ≫= (fun b => seqZ b.1 b.2).
Definition slice_bytes (m : PMem) (bs : list PSlice) : list Z := m <$> slice_addrs bs.

(** Memory [m'] is [m] with [data] written to the first addresses of [addrs]. *)
Definition written (m m' : PMem) (addrs data : list Z) : Prop :=
  (∀ i a, addrs !! i = Some a → (i < length data)%nat → data !! i = Some (m' a)) ∧
  (∀ a, a ∉ take (length data) addrs → m' a = m a).

(** ** Lemmas on translation *)

Lemma slice_addrs_app bs1 bs2 : slice_addrs (bs1 ++ bs2) = slice_addrs bs1 ++ slice_addrs bs2.
Proof. apply bind_app. Qed.

Lemma slice_addrs_cons b bs : slice_addrs (b :: bs) = seqZ b.1 b.2 ++ slice_addrs bs.
Proof. done. Qed.

Lemma fmap_seqZ_shift (f : Z → Z) a b n :
  (∀ i, 0 ≤ i < n → f (a + i) = b + i) → f <$> seqZ a n = seqZ b n.
Proof.
  intros Hf. apply list_eq. intros i. rewrite list_lookup_fmap.
  destruct (decide (Z.of_nat i < n)).
  - rewrite !lookup_seqZ_lt by done. simpl. f_equal. apply Hf. lia.
  - by rewrite !lookup_seqZ_ge by lia.
Qed.

Lemma translate_mapped m pt va b :
  pt_view m (root_ppn pt) (va / 4096) = Some b → 0 ≤ va < 2 ^ 38 →
  translate m pt (floor (VirtAddr_from_usize va)) = Some b.
Proof.
  intros Hv Hva. rewrite VirtAddr_from_usize_mod, Z.mod_small by lia. by apply view_translate.
Qed.

Lemma translate_va_mapped m pt va :
  user_mapped m pt va → 0 ≤ va < 2 ^ 38 →
  translate_va m pt (VirtAddr_from_usize va) = Some (user_phys m pt va).
Proof.
  intros [b Hb] Hva. rewrite VirtAddr_from_usize_mod, Z.mod_small by lia.
  rewrite (view_translate_va m pt va b), page_offset_mod by done.
  unfold user_phys. by rewrite Hb.
Qed.

(** One page of a user range is contiguous in physical memory. *)
Lemma user_phys_page m pt start b n :
  pt_view m (root_ppn pt) (start / 4096) = Some b → start mod 4096 + n ≤ 4096 →
  user_phys m pt <$> seqZ start n = seqZ (PTE_ppn b * 4096 + start mod 4096) n.
Proof.
  intros Hb Hn. apply fmap_seqZ_shift. intros i Hi. unfold user_phys.
  pose proof (Z.mod_pos_bound start 4096).
  assert ((start + i) / 4096 = start / 4096) as Hdiv by (Z.to_euclidean_division_equations; lia).
  rewrite Hdiv, Hb. enough ((start + i) mod 4096 = start mod 4096 + i) by lia.
  Z.to_euclidean_division_equations; lia.
Qed.

(** Where one round of the loop ends. *)
Lemma tbb_round start end_ :
  0 ≤ start < end_ → end_ ≤ 2 ^ 38 →
  let nxt := Z.min ((start / 4096 + 1) * 4096) end_ in
  let end_va := Z.min (VirtAddr_from_VirtPageNum (step (floor (VirtAddr_from_usize start))))
                  (VirtAddr_from_usize end_) in
  end_va = nxt ∧ start < nxt ∧ start mod 4096 + (nxt - start) ≤ 4096 ∧
  usize_from_VirtAddr end_va = (if decide (nxt < 2 ^ 38) then nxt else nxt + (2 ^ 64 - 2 ^ 39)) ∧
  (page_offset end_va = 0 → nxt - start = 4096 - start mod 4096) ∧
  (page_offset end_va ≠ 0 → page_offset end_va - start mod 4096 = nxt - start).
Proof.
  intros Hs He nxt end_va.
  pose proof (Z.div_mod start 4096 ltac:(done)) as Hdm.
  pose proof (Z.mod_pos_bound start 4096 ltac:(done)) as Hr.
  assert (end_va = nxt) as ->.
  { unfold end_va, nxt. rewrite !VirtAddr_from_usize_mod, !Z.mod_small by lia.
    unfold floor, step, VirtAddr_from_VirtPageNum, shl64, PAGE_SIZE, PAGE_SIZE_BITS.
    rewrite (wrap64_small (_ / _ + 1)), Z.shiftl_mul_pow2 by (unfold is_usize; lia).
    by rewrite wrap64_small by (unfold is_usize; lia). }
  unfold nxt in *. clear nxt.
  split_and!; [done|lia|lia|apply usize_from_VirtAddr_eq; lia| |];
    rewrite page_offset_mod; destruct (Z.min_spec ((start / 4096 + 1) * 4096) end_) as [[? ->]|[? ->]];
    try lia; rewrite ?Z.mod_mul by done; try lia;
    pose proof (Z.div_mod end_ 4096 ltac:(done)); pose proof (Z.mod_pos_bound end_ 4096 ltac:(done)); nia.
Qed.

Lemma tbb_loop_stop fuel m pt start end_ v : end_ ≤ start → tbb_loop fuel m pt start end_ v = Ok v.
Proof. intros. destruct fuel; simpl; by rewrite (proj2 (Z.ltb_ge start end_)) by done. Qed.

(** The slice of one round followed by the slices of the rest. *)
Lemma tbb_chunk m pt start nxt end_ b w :
  pt_view m (root_ppn pt) (start / 4096) = Some b → start mod 4096 + (nxt - start) ≤ 4096 →
  start < nxt ≤ end_ → slice_addrs w = user_phys m pt <$> seqZ nxt (end_ - nxt) →
  slice_addrs ((PTE_ppn b * 4096 + start mod 4096, nxt - start) :: w) =
    user_phys m pt <$> seqZ start (end_ - start).
Proof.
  intros Hb Hpage Hn Hw. rewrite slice_addrs_cons, Hw. cbn [fst snd].
  rewrite <-(user_phys_page m pt start b) by done.
  replace (end_ - start) with ((nxt - start) + (end_ - nxt)) by lia.
  rewrite seqZ_app, fmap_app by lia. do 3 f_equal. lia.
Qed.

(** The loop cuts the mapped range into slices, one per page; the fuel is a
    bound on the number of pages. *)
Lemma tbb_loop_spec fuel m pt start end_ v :
  0 ≤ start → end_ ≤ 2 ^ 38 → end_ ≤ (start / 4096 + Z.of_nat fuel) * 4096 →
  (∀ va, start ≤ va < end_ → user_mapped m pt va) →
  ∃ w, tbb_loop fuel m pt start end_ v = Ok (v ++ w) ∧
    slice_addrs w = user_phys m pt <$> seqZ start (end_ - start) ∧
    Forall (fun b : PSlice => 0 < b.2 ≤ 4096) w.
Proof.
  revert start v. induction fuel as [|fuel IH]; intros start v Hs He Hf Hmap.
  { exists []. rewrite tbb_loop_stop, app_nil_r by (Z.to_euclidean_division_equations; lia).
    rewrite seqZ_nil by (Z.to_euclidean_division_equations; lia). done. }
  destruct (decide (start < end_)) as [Hlt|Hge].
  2:{ exists []. rewrite tbb_loop_stop, app_nil_r by lia. rewrite seqZ_nil by lia. done. }
  destruct (Hmap start ltac:(lia)) as [b Hb].
  destruct (tbb_round start end_ ltac:(lia) He) as (Hend & Hnxt & Hpage & Hus & Hz & Hnz).
  cbn [tbb_loop]. rewrite (proj2 (Z.ltb_lt start end_)) by done.
  rewrite (translate_mapped m pt start b Hb) by lia.
  set (nxt := Z.min ((start / 4096 + 1) * 4096) end_) in *.
  set (end_va := Z.min (VirtAddr_from_VirtPageNum _) _) in *.
  set (c := (PTE_ppn b * 4096 + start mod 4096, nxt - start)).
  pose proof (Z.mod_pos_bound start 4096 ltac:(done)) as Hmod.
  assert (∃ w, tbb_loop fuel m pt (usize_from_VirtAddr end_va) end_ (v ++ [c]) = Ok ((v ++ [c]) ++ w) ∧
      slice_addrs w = user_phys m pt <$> seqZ nxt (end_ - nxt) ∧
      Forall (fun b : PSlice => 0 < b.2 ≤ 4096) w) as (w & Hw & Haddr & Hall).
  { rewrite Hus. destruct (decide (nxt = end_)) as [Heq|Hne].
    - exists []. rewrite tbb_loop_stop, app_nil_r by (case_decide; lia).
      by rewrite Heq, seqZ_nil by lia.
    - rewrite decide_True by lia. apply IH; [lia|done| |intros; apply Hmap; lia].
      assert (nxt = (start / 4096 + 1) * 4096) as -> by lia. rewrite Z.div_mul by lia. lia. }
  exists (c :: w). split_and!; [|by apply tbb_chunk; [| |lia|]|by constructor; [simpl; lia|]].
  rewrite VirtAddr_from_usize_mod, (Z.mod_small start) by lia. unfold get_bytes_array.
  rewrite PhysAddr_from_PhysPageNum_small, (page_offset_mod start) by apply PTE_ppn_range.
  change PAGE_SIZE with 4096. rewrite <-app_assoc in Hw.
  destruct (Z.eqb_spec (page_offset end_va) 0) as [H0|H0]; [by rewrite <-Hz|].
  destruct (Z.leb_spec (start mod 4096) (page_offset end_va)); [by rewrite Hnz|].
  specialize (Hnz H0). lia.
Qed.

(** ** Lemmas on scattered writes *)

Lemma written_nil m addrs : written m m addrs [].
Proof. split; [intros; simpl in *; lia|done]. Qed.

Lemma written_weaken m m' addrs1 addrs2 data :
  written m m' addrs1 data → (length data ≤ length addrs1)%nat → written m m' (addrs1 ++ addrs2) data.
Proof.
  intros [Hin Hout] Hlen. split.
  - intros i a Hi Hlt. apply Hin; [|done]. by rewrite lookup_app_l in Hi by lia.
  - intros a Ha. apply Hout. by rewrite take_app_le in Ha.
Qed.

Lemma written_app m m1 m2 addrs1 addrs2 d1 d2 :
  length addrs1 = length d1 → NoDup (addrs1 ++ addrs2) →
  written m m1 addrs1 d1 → written m1 m2 addrs2 d2 →
  written m m2 (addrs1 ++ addrs2) (d1 ++ d2).
Proof.
  intros Hlen (_ & Hdj & _)%NoDup_app [Hin1 Hout1] [Hin2 Hout2]. split.
  - intros i a Hi Hlt. apply lookup_app_Some in Hi as [Hi|[Hge Hi]].
    + pose proof (lookup_lt_Some _ _ _ Hi). rewrite lookup_app_l by lia.
      rewrite Hout2; [apply Hin1; [done|lia]|].
      intros Hel. eapply Hdj; [by eapply list_elem_of_lookup_2|]. eapply elem_of_take in Hel as (j & ? & _).
      by eapply list_elem_of_lookup_2.
    + rewrite length_app in Hlt. rewrite lookup_app_r, <-Hlen by lia. apply Hin2; [done|lia].
  - intros a Ha. rewrite length_app, take_app in Ha.
    rewrite Hout2, Hout1; [done| |].
    + intros Hel. apply Ha. rewrite !take_ge in * by lia. set_solver.
    + intros Hel. apply Ha. apply elem_of_app. right.
      by replace (length d1 + length d2 - length addrs1)%nat with (length d2) by lia.
Qed.

Lemma written_write_bytes m a l data :
  Z.of_nat (length data) ≤ l → written m (write_bytes m a data) (seqZ a l) data.
Proof.
  intros Hlen. split.
  - intros i b [-> Hb]%lookup_seqZ Hlt. rewrite write_bytes_in by lia.
    replace (Z.to_nat (a + Z.of_nat i - a)) with i by lia.
    by apply list_lookup_lookup_total_lt.
  - intros b Hb. apply write_bytes_out.
    destruct (decide (b < a ∨ a + Z.of_nat (length data) ≤ b)); [done|]. exfalso. apply Hb.
    apply elem_of_take. exists (Z.to_nat (b - a)). split; [|lia].
    apply lookup_seqZ. lia.
Qed.

Lemma written_bytes m m' addrs data :
  written m m' addrs data → NoDup addrs → (length data ≤ length addrs)%nat →
  m' <$> addrs = data ++ drop (length data) (m <$> addrs).
Proof.
  intros [Hin Hout] Hnd Hlen. apply list_eq. intros i. rewrite list_lookup_fmap.
  destruct (decide (i < length data)%nat).
  - rewrite lookup_app_l by done. destruct (lookup_lt_is_Some_2 addrs i) as [a Ha]; [lia|].
    rewrite Ha. simpl. symmetry. by apply Hin.
  - rewrite lookup_app_r, lookup_drop, list_lookup_fmap by lia.
    replace (length data + (i - length data))%nat with i by lia.
    destruct (addrs !! i) as [a|] eqn:Ha; [|done]. simpl. f_equal. apply Hout.
    intros (j & Hj & Hlt)%elem_of_take. pose proof (NoDup_lookup _ _ _ _ Hnd Ha Hj). lia.
Qed.

Lemma slice_addrs_length bs :
  Forall (fun b : PSlice => 0 ≤ b.2) bs →
  Z.of_nat (length (slice_addrs bs)) = foldr (fun b n => b.2 + n) 0 bs.
Proof.
  induction 1 as [|b bs Hb _ IH]; [done|].
  rewrite slice_addrs_cons, length_app, length_seqZ. simpl. lia.
Qed.

Lemma UserBuffer_len_eq ub :
  Forall (fun b : PSlice => 0 ≤ b.2) (buffers ub) →
  Z.of_nat (length (slice_addrs (buffers ub))) < 2 ^ 64 →
  UserBuffer_len ub = Z.of_nat (length (slice_addrs (buffers ub))).
Proof.
  intros Hall Hlt. unfold UserBuffer_len. rewrite slice_addrs_length in * by done.
  enough (∀ t, 0 ≤ t → t + foldr (fun b n => b.2 + n) 0 (buffers ub) < 2 ^ 64 →
     foldl (fun total b => total ⊞ b.2) t (buffers ub) =
       t + foldr (fun b n => b.2 + n) 0 (buffers ub)) as H by (by apply (H 0)).
  clear Hlt. induction Hall as [|b bs Hb Hall IH]; simpl; intros t Ht Hlt; [lia|].
  pose proof (slice_addrs_length bs Hall). rewrite wrap64_small by (unfold is_usize; lia).
  rewrite IH by lia. lia.
Qed.

(** ** [UserBuffer::write] *)

Lemma wp_slice {S A} (l : list A) a b (Q : list A → S → Prop) s :
  0 ≤ a ≤ b → b ≤ Z.of_nat (length l) →
  Q (take (Z.to_nat (b - a)) (drop (Z.to_nat a) l)) s → wp (slice l a b) Q s.
Proof.
  intros Ha Hb HQ. unfold slice. wp_step. wp_step; [|by wp_step].
  apply andb_true_iff. rewrite !Z.leb_le. lia.
Qed.

Lemma wp_ub_write_loop bs buf len wl (m : PMem) :
  Forall (fun b : PSlice => 0 ≤ b.2) bs → NoDup (slice_addrs bs) →
  0 ≤ wl ≤ len → len ≤ Z.of_nat (length buf) → len ≤ wl + Z.of_nat (length (slice_addrs bs)) →
  wl + Z.of_nat (length (slice_addrs bs)) < 2 ^ 64 →
  wp (ub_write_loop bs buf len wl)
     (fun _ m' => written m m' (slice_addrs bs) (take (Z.to_nat (len - wl)) (drop (Z.to_nat wl) buf))) m.
Proof.
  intros Hall. revert wl m. induction Hall as [|[a l] bs Hl Hall IH]; intros wl m Hnd Hwl Hbuf Hlen Hbig.
  { simpl in *. wp_step. replace (len - wl) with 0 by lia. apply written_nil. }
  cbn [fst snd ub_write_loop] in *. rewrite slice_addrs_cons in *. cbn [fst snd] in *.
  rewrite length_app, length_seqZ in *.
  rewrite (wrap64_small (wl + l)) by (unfold is_usize; lia).
  wp_step. apply wp_slice; [lia|lia|]. wp_step.
  rewrite (wrap64_small (_ - wl)) by (unfold is_usize; lia).
  wp_step; [apply Z.leb_le; lia|]. wp_step. wp_step.
  set (d1 := take (Z.to_nat (Z.min len (wl + l) - wl)) (drop (Z.to_nat wl) buf)).
  assert (Z.of_nat (length d1) = Z.min len (wl + l) - wl) as Hd1.
  { unfold d1. rewrite length_take, length_drop. lia. }
  assert (written m (write_bytes m a d1) (seqZ a l) d1) as Hw by (apply written_write_bytes; lia).
  destruct (Z.eqb_spec (Z.min len (wl + l)) len) as [Heq|Hne].
  - wp_step. rewrite <-Heq at 1. apply written_weaken; [done|]. fold d1. rewrite length_seqZ. lia.
  - assert (Z.min len (wl + l) = wl + l) as Hmin by lia. rewrite Hmin in *.
    eapply wp_mono; [apply IH; try lia; by apply NoDup_app in Hnd as (_ & _ & ?)|].
    intros [] m' Hm'. replace (take (Z.to_nat (len - wl)) _) with
      (d1 ++ take (Z.to_nat (len - (wl + l))) (drop (Z.to_nat (wl + l)) buf)).
    { eapply written_app; [rewrite length_seqZ; lia|done|done|done]. }
    unfold d1. replace (Z.to_nat (len - wl)) with (Z.to_nat (wl + l - wl) + Z.to_nat (len - (wl + l)))%nat by lia.
    rewrite <-take_take_drop, drop_drop.
    rewrite Hmin. by replace (Z.to_nat wl + Z.to_nat (wl + l - wl))%nat with (Z.to_nat (wl + l)) by lia.
Qed.

(** ** [UserBuffer::write_at] *)

Lemma wp_write_at_sub a buf len ob f n (m : PMem) :
  0 ≤ ob < len → len ≤ Z.of_nat (length buf) → len < 2 ^ 64 → 0 ≤ n →
  wp (write_at_sub a buf len ob (seqZ f n)) (fun r m' =>
    written m m' (seqZ (a + f) n) (take (Z.to_nat (Z.min n (len - ob))) (drop (Z.to_nat ob) buf)) ∧
    r = if decide (len - ob ≤ n) then inl len else inr (ob + n)) m.
Proof.
  intros Hob Hlen Hbig Hn. revert f ob m Hob. pattern n. apply natlike_ind; [| |done].
  - intros f ob m Hob. simpl. wp_step. rewrite decide_False by lia.
    replace (Z.min 0 _) with 0 by lia. split; [apply written_nil|do 2 f_equal; lia].
  - clear n Hn. intros n Hn IH f ob m Hob. rewrite seqZ_cons, Z.pred_succ by lia.
    destruct (lookup_lt_is_Some_2 buf (Z.to_nat ob)) as [x Hx]; [lia|].
    cbn [write_at_sub]. rewrite Hx. wp_step. wp_step; [done|]. wp_step. wp_step.
    rewrite wrap64_small by (unfold is_usize; lia).
    assert (written m (write_bytes m (a + f) [x]) [a + f] [x]) as Hw.
    { apply (written_write_bytes m (a + f) 1 [x]). done. }
    rewrite (drop_S _ x) by done. rewrite (seqZ_cons (a + f)), Z.pred_succ by lia.
    change (a + f :: seqZ ?u ?v) with ([a + f] ++ seqZ u v).
    replace (Z.to_nat (Z.min (Z.succ n) (len - ob)))
      with (S (Z.to_nat (Z.min n (len - (ob + 1))))) by lia. cbn [take].
    destruct (Z.eqb_spec (ob + 1) len).
    + wp_step. rewrite decide_True by lia. split; [|done].
      replace (Z.min n _) with 0 by lia. by apply written_weaken; [|simpl; lia].
    + eapply wp_mono; [apply IH; lia|]. intros r m' [Hw' ->]. split.
      * apply (written_app _ (write_bytes m (a + f) [x]) _ [a + f] _ [x]); [done| |done|].
        -- pose proof (NoDup_seqZ (a + f) (Z.succ n)) as Hnd.
           by rewrite seqZ_cons, Z.pred_succ in Hnd by lia.
        -- replace (Z.to_nat (ob + 1)) with (S (Z.to_nat ob)) in Hw' by lia.
           by replace (Z.succ (a + f)) with (a + Z.succ f) by lia.
      * do 2 case_decide; try lia; f_equal; lia.
Qed.

(** One sub-buffer of [write_at], from [first] on, followed by the rest. *)
Lemma wp_write_at_step a l bs offset buf len oub ob first (m : PMem) :
  let rest r := match r with
                | inl n => mret (as_isize n)
                | inr ob' => write_at_loop bs offset buf len (oub + l) ob'
                end in
  0 ≤ first ≤ l → NoDup (seqZ a l ++ slice_addrs bs) → 0 ≤ ob < len →
  len ≤ Z.of_nat (length buf) → len < 2 ^ 63 →
  (∀ ob' m1, ob' < len → ob' = ob + (l - first) →
     wp (write_at_loop bs offset buf len (oub + l) ob') (fun r m' =>
       r = len ∧ written m1 m' (slice_addrs bs) (take (Z.to_nat (len - ob')) (drop (Z.to_nat ob') buf))) m1) →
  wp (write_at_sub a buf len ob (seqZ first (l - first)) ≫= rest) (fun r m' =>
    r = len ∧ written m m' (seqZ (a + first) (l - first) ++ slice_addrs bs)
                (take (Z.to_nat (len - ob)) (drop (Z.to_nat ob) buf))) m.
Proof.
  intros rest Hf Hnd Hob Hlen Hbig Hrest. wp_step.
  eapply wp_mono; [apply (wp_write_at_sub a buf len ob first (l - first) m); lia|].
  intros r m1 [Hw ->]. unfold rest. case_decide as Hd.
  - wp_step. unfold as_isize. rewrite (proj2 (Z.ltb_lt len (2 ^ 63))) by done. split; [done|].
    rewrite Z.min_r in Hw by lia. apply written_weaken; [done|].
    rewrite length_seqZ, length_take. lia.
  - eapply wp_mono; [apply Hrest; lia|]. intros r m' [-> Hw']. split; [done|].
    rewrite Z.min_l in Hw by lia.
    replace (Z.to_nat (len - ob)) with (Z.to_nat (l - first) + Z.to_nat (len - (ob + (l - first))))%nat by lia.
    rewrite <-take_take_drop, drop_drop.
    replace (Z.to_nat ob + Z.to_nat (l - first))%nat with (Z.to_nat (ob + (l - first))) by lia.
    apply (written_app _ m1); [rewrite length_seqZ, length_take, length_drop; lia| |done|done].
    apply NoDup_app in Hnd as (_ & Hdj & Hnd). apply NoDup_app. split_and!; [apply NoDup_seqZ| |done].
    intros x Hx. apply Hdj. rewrite elem_of_seqZ in *. lia.
Qed.

Lemma wp_write_at_tail bs offset buf len oub ob (m : PMem) :
  Forall (fun b : PSlice => 0 ≤ b.2) bs → NoDup (slice_addrs bs) → 0 ≤ offset ≤ oub →
  oub + Z.of_nat (length (slice_addrs bs)) < 2 ^ 64 → 0 ≤ ob < len →
  len ≤ Z.of_nat (length buf) → len < 2 ^ 63 → len - ob ≤ Z.of_nat (length (slice_addrs bs)) →
  wp (write_at_loop bs offset buf len oub ob) (fun r m' =>
    r = len ∧ written m m' (slice_addrs bs) (take (Z.to_nat (len - ob)) (drop (Z.to_nat ob) buf))) m.
Proof.
  intros Hall. revert oub ob m. induction Hall as [|[a l] bs Hl Hall IH];
    intros oub ob m Hnd Hoff Hbig Hob Hlen Hlb Hfit.
  { unfold slice_addrs in Hfit. simpl in Hfit. lia. }
  cbn [fst snd] in Hl. rewrite slice_addrs_cons, length_app, length_seqZ in *. cbn [fst snd] in *.
  cbn [write_at_loop]. rewrite (wrap64_small (oub + l)) by (unfold is_usize; lia).
  rewrite (proj2 (Z.ltb_ge (oub + l) offset)), (proj2 (Z.ltb_ge oub offset)) by lia.
  pose proof (wp_write_at_step a l bs offset buf len oub ob 0 m) as Hstep.
  rewrite Z.add_0_r in Hstep. rewrite Z.sub_0_r in *. apply Hstep; try done.
  intros ob' m1 Hob' ->. apply IH; try lia. by apply NoDup_app in Hnd as (_ & _ & ?).
Qed.

Lemma drop_seqZ a l n : 0 ≤ n ≤ l → drop (Z.to_nat n) (seqZ a l) = seqZ (a + n) (l - n).
Proof.
  intros Hn. replace l with (n + (l - n)) at 1 by lia.
  rewrite seqZ_app, drop_app_length' by (rewrite ?length_seqZ; lia). done.
Qed.

Lemma wp_UserBuffer_write_at a l bs offset buf (m : PMem) :
  let addrs := slice_addrs ((a, l) :: bs) in
  Forall (fun b : PSlice => 0 ≤ b.2) ((a, l) :: bs) → NoDup addrs →
  Z.of_nat (length addrs) < 2 ^ 63 → 0 ≤ offset ≤ l → buf ≠ [] →
  offset + Z.of_nat (length buf) ≤ Z.of_nat (length addrs) →
  wp (UserBuffer_write_at (UserBuffer_new ((a, l) :: bs)) offset buf) (fun r m' =>
    r = Z.of_nat (length buf) ∧ written m m' (drop (Z.to_nat offset) addrs) buf) m.
Proof.
  intros addrs Hall Hnd Hbig Hoff Hne Hfit.
  assert (0 < Z.of_nat (length buf)) as Hpos by (destruct buf; simpl; [done|lia]).
  unfold UserBuffer_write_at. wp_step. wp_step; [done|]. rewrite UserBuffer_len_eq; [|done|cbn [buffers]; fold addrs; lia].
  cbn [buffers]. fold addrs. rewrite (wrap64_small (offset + _)) by (unfold is_usize; lia).
  wp_step. wp_step; [rewrite (proj2 (Z.ltb_ge _ _)) by lia; done|].
  rewrite (wrap64_small (_ - offset)), Z.min_r by (unfold is_usize; lia).
  assert (addrs = seqZ a l ++ slice_addrs bs) as Haddrs by done.
  apply Forall_cons in Hall as [Hl Hall]. rewrite Haddrs, length_app, length_seqZ in *.
  cbn [write_at_loop]. rewrite Z.add_0_l, (wrap64_small l) by (unfold is_usize; simpl in Hl; lia).
  rewrite (proj2 (Z.ltb_ge l offset)) by lia.
  replace (if 0 <? offset then offset ⊟ 0 else 0) with offset.
  2:{ destruct (Z.ltb_spec 0 offset); [|lia]. rewrite Z.sub_0_r, wrap64_small; [done|unfold is_usize; lia]. }
  pose proof (wp_write_at_step a l bs offset buf (Z.of_nat (length buf)) 0 0 offset m) as Hstep.
  rewrite Z.add_0_l in Hstep. eapply wp_mono; [apply Hstep; try lia; [done|]|].
  - intros ob' m1 Hob' ->. apply wp_write_at_tail; try lia; [done|by apply NoDup_app in Hnd as (_ & _ & ?)].
  - intros r m' [-> Hw]. split; [done|]. rewrite Z.sub_0_r, Nat2Z.id, drop_0, firstn_all in Hw.
    rewrite drop_app_le by (rewrite length_seqZ; lia).
    by rewrite drop_seqZ by lia.
Qed.

(** ** [UserBufferIterator] *)

(** The addresses an iterator still has to visit. *)
Definition iter_rem (it : UserBufferIterator) (addrs : list Z) : Prop :=
  Forall (fun b : PSlice => 0 < b.2 < 2 ^ 64) (it_buffers it) ∧
  Z.of_nat (length (it_buffers it)) < 2 ^ 64 ∧
  ((current_buffer it = Z.of_nat (length (it_buffers it)) ∧ addrs = []) ∨
   ∃ pre a l bs, it_buffers it = pre ++ (a, l) :: bs ∧ current_buffer it = Z.of_nat (length pre) ∧
     0 ≤ current_idx it < l ∧
     addrs = seqZ (a + current_idx it) (l - current_idx it) ++ slice_addrs bs).

Lemma iter_rem_start ub :
  Forall (fun b : PSlice => 0 < b.2 < 2 ^ 64) (buffers ub) → Z.of_nat (length (buffers ub)) < 2 ^ 64 →
  iter_rem (UserBuffer_into_iter ub) (slice_addrs (buffers ub)).
Proof.
  intros Hall Hlen. split; [done|]. split; [done|].
  unfold UserBuffer_into_iter. cbn [it_buffers current_buffer current_idx].
  destruct (buffers ub) as [|[a l] bs]; [by left|right].
  apply Forall_cons in Hall as [Hl _]. cbn [snd] in Hl.
  exists [], a, l, bs. split_and!; [done|done|lia|lia|]. by rewrite slice_addrs_cons, Z.add_0_r, Z.sub_0_r.
Qed.

Lemma iter_rem_next it addrs :
  iter_rem it addrs →
  match addrs with
  | [] => UserBufferIterator_next it = Ok (None, it)
  | a :: rest => ∃ it', UserBufferIterator_next it = Ok (Some a, it') ∧ iter_rem it' rest
  end.
Proof.
  intros (Hall & Hlen & [[Hcur ->]|(pre & a & l & bs & Hbs & Hcur & Hidx & ->)]); unfold UserBufferIterator_next.
  { by rewrite Hcur, Z.leb_refl. }
  destruct it as [bufs cb i]. cbn [it_buffers current_buffer current_idx] in *. subst bufs cb.
  rewrite length_app in *. cbn [length] in *.
  rewrite (seqZ_cons (a + i)) by lia. cbn [app].
  rewrite (proj2 (Z.leb_gt _ (Z.of_nat (length pre)))) by lia.
  rewrite Nat2Z.id, list_lookup_middle by done. rewrite (proj2 (Z.ltb_lt i l)) by lia.
  pose proof Hall as [_ [Hl Hbs]%Forall_cons]%Forall_app. cbn [snd] in Hl.
  rewrite (wrap64_small (i + 1)), (wrap64_small (_ + 1)) by (unfold is_usize; lia).
  replace (Z.pred (l - i)) with (l - (i + 1)) by lia. replace (Z.succ (a + i)) with (a + (i + 1)) by lia.
  eexists. split; [done|]. destruct (Z.eqb_spec (i + 1) l) as [He|Hne].
  - subst l. rewrite Z.sub_diag. split; [done|]. split; [cbn [it_buffers]; rewrite length_app; simpl; lia|].
    cbn [it_buffers current_buffer current_idx]. destruct bs as [|[a' l'] bs].
    + left. split; [rewrite length_app; simpl; lia|done].
    + right. exists (pre ++ [(a, i + 1)]), a', l', bs. rewrite length_app.
      apply Forall_cons in Hbs as [Hl' _]. cbn [snd length] in *.
      split_and!; [by rewrite <-app_assoc|lia|lia|lia|]. by rewrite slice_addrs_cons, Z.add_0_r, Z.sub_0_r.
  - split; [done|]. split; [cbn [it_buffers]; rewrite length_app; simpl; lia|]. right.
    exists pre, a, l, bs. split_and!; [done|done|simpl; lia|simpl; lia|done].
Qed.

Lemma iter_rem_collect it addrs fuel :
  iter_rem it addrs → (length addrs < fuel)%nat → UserBufferIterator_collect fuel it = Ok addrs.
Proof.
  revert it fuel. induction addrs as [|a addrs IH]; intros it fuel Hit Hf;
    (destruct fuel as [|fuel]; [simpl in *; lia|]); cbn [UserBufferIterator_collect];
    pose proof (iter_rem_next it _ Hit) as Hn.
  - by rewrite Hn.
  - destruct Hn as (it' & Hn & Hit'). rewrite Hn. unfold mbind, outcome_bind.
    rewrite (IH it') by (done || simpl in Hf; lia). done.
Qed.

(** ** Properties *)

Section sample.
(** The two mapped pages of [sample_mapped] cover the range 20480..28671. *)
Lemma sample_user_mapped pt s va :
  pt_view (pmem s) (root_ppn pt) 5 = Some (PTE_new 20 23) →
  pt_view (pmem s) (root_ppn pt) 6 = Some (PTE_new 25 23) →
  20480 ≤ va < 28672 →
  user_mapped (pmem (A:=StackFrameAllocator) s) pt va ∧ user_phys (pmem s) pt va ≠ 0.
Proof.
  intros H5 H6 Hva. unfold user_mapped, user_phys. pose proof (Z.mod_pos_bound va 4096).
  destruct (decide (va < 24576)).
  - assert (va / 4096 = 5) as -> by (Z.to_euclidean_division_equations; lia). rewrite H5.
    change (PTE_ppn (PTE_new 20 23)) with 20. split; [done|lia].
  - assert (va / 4096 = 6) as -> by (Z.to_euclidean_division_equations; lia). rewrite H6.
    change (PTE_ppn (PTE_new 25 23)) with 25. split; [done|lia].
Qed.
End sample.

(** C34: a mapped user buffer is translated exactly: the slices that
    [translated_byte_buffer] returns, put one after the other, are the physical
    addresses of the bytes [ptr, ptr + len) in order, and no slice is empty or
    crosses a page. *)
Theorem translated_byte_buffer_exact m pt ptr len :
  0 ≤ root_ppn pt < 2 ^ 44 → 0 ≤ ptr → 0 ≤ len → ptr + len ≤ 2 ^ 38 →
  (∀ va, ptr ≤ va < ptr + len → user_mapped m pt va) →
  ∃ v, translated_byte_buffer (Z.to_nat (len / 4096 + 2)) m (token pt) ptr len = Ok v ∧
    slice_addrs v = user_phys m pt <$> seqZ ptr len ∧
    Forall (fun b : PSlice => 0 < b.2 ≤ 4096) v.
Proof.
  intros Hr Hp Hl He Hmap. unfold translated_byte_buffer.
  rewrite wrap64_small by (unfold is_usize; lia).
  set (pt' := PageTable_from_token (token pt)).
  assert (root_ppn pt' = root_ppn pt) as Hroot by by apply root_from_token.
  destruct (tbb_loop_spec (Z.to_nat (len / 4096 + 2)) m pt' ptr (ptr + len) []) as (v & Hv & Haddr & Hall);
    [done|done| | |].
  - pose proof (Z.div_mod ptr 4096). pose proof (Z.div_mod len 4096).
    pose proof (Z.mod_pos_bound ptr 4096). pose proof (Z.mod_pos_bound len 4096).
    pose proof (Z.div_pos len 4096). lia.
  - intros va Hva. unfold user_mapped. rewrite Hroot. by apply Hmap.
  - exists v. split_and!; [done| |done]. rewrite Haddr. replace (ptr + len - ptr) with len by lia.
    unfold user_phys. by rewrite Hroot.
Qed.

Lemma translated_byte_buffer_exact_witness :
  ∃ pt s v, pt_ok sample_frames s pt ∧
    translated_byte_buffer 3 (pmem s) (token pt) 20500 5000 = Ok v ∧
    slice_addrs v = user_phys (pmem s) pt <$> seqZ 20500 5000.
Proof.
  destruct sample_mapped as (pt & s & Hok & H5 & H6).
  destruct (translated_byte_buffer_exact (pmem s) pt 20500 5000) as (v & Hv & Haddr & _);
    [by eapply pt_ok_root|lia|lia|lia| |by exists pt, s, v].
  intros va Hva. apply (sample_user_mapped pt s); [done|done|lia].
Defined.

Lemma translated_str_loop_spec n fuel m pt va acc :
  0 ≤ va → va + Z.of_nat n < 2 ^ 38 → (n < fuel)%nat →
  (∀ a, va ≤ a ≤ va + Z.of_nat n → user_mapped m pt a ∧ user_phys m pt a ≠ 0) →
  (∀ a, va ≤ a < va + Z.of_nat n → m (user_phys m pt a) ≠ 0) →
  m (user_phys m pt (va + Z.of_nat n)) = 0 →
  translated_str_loop fuel m pt va acc =
    Ok (acc ++ ((fun a => m (user_phys m pt a)) <$> seqZ va (Z.of_nat n))).
Proof.
  revert fuel va acc. induction n as [|n IH]; intros fuel va acc Hva Hend Hf Hmap Hnz Hz;
    (destruct fuel as [|fuel]; [lia|]); cbn [translated_str_loop];
    destruct (Hmap va ltac:(lia)) as [Hm Hp0]; rewrite (translate_va_mapped _ _ _ Hm) by lia;
    unfold get_ref; rewrite (proj2 (Z.eqb_neq _ _) Hp0); unfold mbind, outcome_bind.
  - rewrite Z.add_0_r in Hz. rewrite Hz. simpl. by rewrite app_nil_r.
  - rewrite (proj2 (Z.eqb_neq _ _)) by (apply Hnz; lia).
    rewrite wrap64_small by (unfold is_usize; lia).
    rewrite IH; [|lia|lia|lia|intros; apply Hmap; lia|intros; apply Hnz; lia|].
    + unfold vec_push. rewrite <-app_assoc, (seqZ_cons va) by lia.
      replace (Z.pred (Z.of_nat (S n))) with (Z.of_nat n) by lia. done.
    + by replace (va + 1 + Z.of_nat n) with (va + Z.of_nat (S n)) by lia.
Qed.

(** [translated_str] returns exactly the bytes before the first zero byte of
    a mapped user string, also when the string crosses pages. *)
Theorem translated_str_reads m pt ptr n :
  0 ≤ root_ppn pt < 2 ^ 44 → 0 ≤ ptr → ptr + Z.of_nat n < 2 ^ 38 →
  (∀ a, ptr ≤ a ≤ ptr + Z.of_nat n → user_mapped m pt a ∧ user_phys m pt a ≠ 0) →
  (∀ a, ptr ≤ a < ptr + Z.of_nat n → m (user_phys m pt a) ≠ 0) →
  m (user_phys m pt (ptr + Z.of_nat n)) = 0 →
  translated_str (S n) m (token pt) ptr = Ok ((fun a => m (user_phys m pt a)) <$> seqZ ptr (Z.of_nat n)).
Proof.
  intros Hr Hp He Hmap Hnz Hz. unfold translated_str.
  set (pt' := PageTable_from_token (token pt)).
  assert (root_ppn pt' = root_ppn pt) as Hroot by by apply root_from_token.
  assert (∀ a, user_phys m pt' a = user_phys m pt a) as Hph by (intros; unfold user_phys; by rewrite Hroot).
  rewrite (translated_str_loop_spec n).
  - simpl. f_equal. apply list_fmap_ext. intros ? a _. by rewrite Hph.
  - done.
  - done.
  - lia.
  - intros a Ha. unfold user_mapped. rewrite Hph, Hroot. by apply Hmap.
  - intros a Ha. rewrite Hph. by apply Hnz.
  - by rewrite Hph.
Qed.

(** The sample table with the text "Hi" at user address 20500. *)
Definition sample_text : PageTable * PMem :=
  match (pt ← PageTable_new; pt ← PageTable_map pt 5 20 22; PageTable_map pt 6 25 22) sample_machine with
  | Ok (pt, s) => (pt, write_bytes (pmem s) (20 * 4096 + 20) [72; 105; 0])
  | _ => (mkPageTable 0 [], fun _ => 0)
  end.

Lemma translated_str_reads_witness :
  translated_str 3 sample_text.2 (token sample_text.1) 20500 = Ok [72; 105].
Proof.
  rewrite (translated_str_reads _ _ 20500 2);
    [vm_compute; reflexivity|vm_compute; split; congruence|lia|lia| | |vm_compute; reflexivity].
  - intros a Ha. assert (a = 20500 ∨ a = 20501 ∨ a = 20502) as [->|[->| ->]] by lia;
      (split; [apply not_eq_None_Some|]; vm_compute; congruence).
  - intros a Ha. assert (a = 20500 ∨ a = 20501) as [->| ->] by lia; vm_compute; congruence.
Defined.

Lemma tbb_loop_page fuel m pt vpn pte :
  0 ≤ vpn < 2 ^ 26 → translate m pt vpn = Some pte →
  tbb_loop (S fuel) m pt (vpn * 4096) (vpn * 4096 + 4096) [] = Ok [(PTE_ppn pte * 4096, 4096)].
Proof.
  intros Hv Ht.
  destruct (tbb_round (vpn * 4096) (vpn * 4096 + 4096)) as (He & _ & _ & Hus & _ & _); [lia|lia|].
  cbn [tbb_loop]. rewrite (proj2 (Z.ltb_lt _ _)) by lia.
  rewrite He in Hus |- *. rewrite Z.div_mul, Z.min_l in Hus |- * by lia.
  rewrite VirtAddr_from_usize_mod, Z.mod_small by lia.
  unfold floor. change PAGE_SIZE with 4096. rewrite Z.div_mul by done.
  rewrite Ht, !page_offset_mod, !Z.mod_mul by done. unfold get_bytes_array.
  rewrite PhysAddr_from_PhysPageNum_small by apply PTE_ppn_range. rewrite Z.add_0_r.
  cbv beta iota. apply tbb_loop_stop. rewrite Hus. case_decide; lia.
Qed.

(** [translate] does not test the valid bit, so after [unmap] the page is
    still translated, to physical page 0: the kernel gets a buffer at physical
    address 0 for a page that the user no longer has. *)
Theorem translate_after_unmap R (s : Machine StackFrameAllocator) pt vpn :
  pt_ok R s pt → 0 ≤ vpn < 2 ^ 26 → is_Some (pt_view (pmem s) (root_ppn pt) vpn) →
  ∃ s', PageTable_unmap pt vpn s = Ok (tt, s') ∧
    pt_view (pmem s') (root_ppn pt) vpn = None ∧
    translated_byte_buffer 3 (pmem s') (token pt) (vpn * 4096) 4096 = Ok [(0, 4096)] ∧
    translated_refmut (pmem s') (token pt) (vpn * 4096 + 8) = Ok 8.
Proof.
  intros Hok Hv Hm.
  assert (wp (PageTable_unmap pt vpn) (fun _ s' =>
    pt_view (pmem s') (root_ppn pt) vpn = None ∧ translate (pmem s') pt vpn = Some PTE_empty) s) as H.
  { eapply wp_PageTable_unmap; [done|lia|done|]. intros s' _ _ _ Hvw Ht. split; [|done].
    rewrite Hvw by lia. by rewrite decide_True. }
  apply wp_elim in H as ([] & s' & Hrun & Hn & Ht). exists s'. split_and!; [done|done| |].
  - unfold translated_byte_buffer. rewrite wrap64_small by (unfold is_usize; lia).
    apply (tbb_loop_page 2 _ _ vpn PTE_empty); [done|]. unfold translate in Ht |- *.
    by rewrite (find_pte_root _ _ pt) by by apply root_from_token, (pt_ok_root R s).
  - unfold translated_refmut, translate_va. rewrite VirtAddr_from_usize_mod, Z.mod_small by lia.
    unfold floor. change PAGE_SIZE with 4096. rewrite Z.div_add_l by done.
    rewrite (find_pte_root _ _ pt) by by apply root_from_token, (pt_ok_root R s).
    unfold translate in Ht. change (8 / 4096) with 0. rewrite Z.add_0_r.
    destruct (find_pte _ _ _) as [pte|]; [|done]. injection Ht as ->.
    rewrite page_offset_mod, (Z.add_comm (vpn * 4096) 8), Z_mod_plus_full. done.
Qed.

Lemma translate_after_unmap_witness :
  ∃ pt s s', pt_ok sample_frames s pt ∧ PageTable_unmap pt 5 s = Ok (tt, s') ∧
    translated_byte_buffer 3 (pmem s') (token pt) (5 * 4096) 4096 = Ok [(0, 4096)].
Proof.
  destruct sample_mapped as (pt & s & Hok & H5 & H6).
  destruct (translate_after_unmap sample_frames s pt 5) as (s' & Hrun & _ & Ht & _);
    [done|lia|by rewrite H5|by exists pt, s, s'].
Defined.

(** [UserBuffer::write] copies the first [n] bytes of [buf] to the first [n]
    bytes of the user buffer, where [n] is the smaller of the two lengths, returns
    [n], keeps the rest of the buffer, and writes nowhere else. *)
Theorem user_buffer_write_bytes ub buf m :
  buffers ub ≠ [] → Forall (fun b : PSlice => 0 ≤ b.2) (buffers ub) →
  NoDup (slice_addrs (buffers ub)) → Z.of_nat (length (slice_addrs (buffers ub))) < 2 ^ 64 →
  ∃ n m', UserBuffer_write ub buf m = Ok (Z.of_nat n, m') ∧
    n = min (length (slice_addrs (buffers ub))) (length buf) ∧
    slice_bytes m' (buffers ub) = take n buf ++ drop n (slice_bytes m (buffers ub)) ∧
    ∀ a, a ∉ slice_addrs (buffers ub) → m' a = m a.
Proof.
  intros Hne Hall Hnd Hbig.
  set (addrs := slice_addrs (buffers ub)) in *. set (n := min (length addrs) (length buf)).
  assert (wp (UserBuffer_write ub buf) (fun r m' =>
    r = Z.of_nat n ∧ written m m' addrs (take n buf)) m) as H.
  { unfold UserBuffer_write. wp_step. wp_step; [by rewrite bool_decide_false|].
    rewrite UserBuffer_len_eq by done. fold addrs.
    replace (Z.min _ _) with (Z.of_nat n) by lia. wp_step.
    eapply wp_mono; [apply wp_ub_write_loop; try done; fold addrs; lia|].
    intros [] m' Hw. wp_step. rewrite Z.sub_0_r, Nat2Z.id, drop_0 in Hw. done. }
  apply wp_elim in H as (r & m' & Hrun & -> & Hw). exists n, m'.
  assert (length (take n buf) = n) as Hlen by (rewrite length_take; lia).
  split_and!; [done|done| |].
  - unfold slice_bytes. fold addrs. rewrite (written_bytes m m' addrs (take n buf)) by (done || lia).
    by rewrite Hlen.
  - intros a Ha. apply Hw. intros (i & Hi & _)%elem_of_take. apply Ha.
    by eapply list_elem_of_lookup_2.
Qed.

Lemma user_buffer_write_bytes_witness :
  ∃ m', UserBuffer_write (UserBuffer_new [(100, 2); (4096, 3)]) [1; 2; 3; 4] (fun _ => 9) = Ok (4, m') ∧
    slice_bytes m' [(100, 2); (4096, 3)] = [1; 2; 3; 4; 9].
Proof.
  destruct (user_buffer_write_bytes (UserBuffer_new [(100, 2); (4096, 3)]) [1; 2; 3; 4] (fun _ => 9))
    as (n & m' & Hrun & -> & Hb & _).
  - done.
  - cbn [buffers]. by rewrite !Forall_cons, Forall_nil.
  - apply (bool_decide_unpack _). vm_compute. done.
  - done.
  - exists m'. split; [exact Hrun|]. cbn [buffers] in Hb. rewrite Hb. reflexivity.
Defined.

(** [UserBuffer::write_at] with an offset in the first slice overwrites
    exactly the bytes from [offset] on with [buf] and returns its length. *)
Theorem user_buffer_write_at_first a l bs offset buf m :
  let ub := UserBuffer_new ((a, l) :: bs) in
  Forall (fun b : PSlice => 0 ≤ b.2) (buffers ub) → NoDup (slice_addrs (buffers ub)) →
  Z.of_nat (length (slice_addrs (buffers ub))) < 2 ^ 63 → Z.of_nat offset ≤ l → buf ≠ [] →
  (offset + length buf ≤ length (slice_addrs (buffers ub)))%nat →
  ∃ m', UserBuffer_write_at ub (Z.of_nat offset) buf m = Ok (Z.of_nat (length buf), m') ∧
    slice_bytes m' (buffers ub) =
      take offset (slice_bytes m (buffers ub)) ++ buf ++
      drop (offset + length buf) (slice_bytes m (buffers ub)).
Proof.
  intros ub Hall Hnd Hbig Hoff Hne Hfit.
  pose proof (wp_UserBuffer_write_at a l bs (Z.of_nat offset) buf m Hall Hnd Hbig
    ltac:(lia) Hne ltac:(unfold ub in Hfit; cbn [buffers] in Hfit; lia)) as H.
  apply wp_elim in H as (r & m' & Hrun & -> & Hw). exists m'. split; [done|].
  unfold slice_bytes. fold (buffers ub) in Hw. rewrite Nat2Z.id in Hw.
  change ((a, l) :: bs) with (buffers ub) in Hw. set (addrs := slice_addrs (buffers ub)) in *.
  rewrite <-(take_drop offset addrs) at 1. rewrite fmap_app. f_equal.
  - rewrite <-fmap_take. apply list_fmap_ext. intros i x Hx. apply Hw.
    intros (j & Hj & _)%elem_of_take. rewrite lookup_drop in Hj.
    apply lookup_take_Some in Hx as [Hx Hlt].
    pose proof (NoDup_lookup _ _ _ _ Hnd Hx Hj). lia.
  - rewrite (written_bytes m m' (drop offset addrs) buf); [|done| |rewrite length_drop; lia].
    2:{ rewrite <-(take_drop offset addrs) in Hnd. by apply NoDup_app in Hnd as (_ & _ & ?). }
    by rewrite fmap_drop, drop_drop.
Qed.

Lemma user_buffer_write_at_first_witness :
  ∃ m', UserBuffer_write_at (UserBuffer_new [(100, 2); (4096, 3)]) 1 [7; 8] (fun _ => 9) = Ok (2, m') ∧
    slice_bytes m' [(100, 2); (4096, 3)] = [9; 7; 8; 9; 9].
Proof.
  destruct (user_buffer_write_at_first 100 2 [(4096, 3)] 1 [7; 8] (fun _ => 9)) as (m' & Hrun & Hb).
  - cbn [buffers]. by rewrite !Forall_cons, Forall_nil.
  - apply (bool_decide_unpack _). vm_compute. done.
  - done.
  - done.
  - done.
  - vm_compute. lia.
  - exists m'. split; [exact Hrun|]. cbn [buffers] in Hb. rewrite Hb. reflexivity.
Defined.

Lemma write_at_loop_skip bs offset buf len :
  Forall (fun b : PSlice => 0 ≤ b.2 < offset) bs → offset < 2 ^ 64 →
  ∀ m, write_at_loop bs offset buf len 0 0 m = Ok (EPERM, m).
Proof.
  intros Hall Hoff m. induction Hall as [|[a l] bs Hl Hall IH]; [done|].
  cbn [write_at_loop]. cbn [snd] in Hl. rewrite wrap64_small by (unfold is_usize; lia).
  by rewrite (proj2 (Z.ltb_lt (0 + l) offset)) by lia.
Qed.

(** [UserBuffer::write_at] fails for an offset behind the slices' lengths.
    The loop does not advance past a slice that it skips, so a write whose target
    lies completely inside the buffer, but beyond the length of each slice, writes
    nothing and returns [EPERM]. *)
Theorem user_buffer_write_at_beyond ub offset buf m :
  buffers ub ≠ [] → Forall (fun b : PSlice => 0 ≤ b.2 < offset) (buffers ub) →
  Z.of_nat (length (slice_addrs (buffers ub))) < 2 ^ 64 → 0 ≤ offset →
  offset + Z.of_nat (length buf) ≤ Z.of_nat (length (slice_addrs (buffers ub))) →
  UserBuffer_write_at ub offset buf m = Ok (EPERM, m).
Proof.
  intros Hne Hall Hbig Hoff Hfit. unfold UserBuffer_write_at, mbind, st_bind.
  rewrite bool_decide_false by done. simpl rust_assert. cbv beta iota delta [mret st_ret].
  rewrite UserBuffer_len_eq; [|by eapply Forall_impl; [done|]; simpl; intros; lia|done].
  rewrite wrap64_small by (unfold is_usize; lia).
  rewrite (proj2 (Z.ltb_ge _ _)) by lia. simpl rust_assert. cbv beta iota delta [mret st_ret].
  apply write_at_loop_skip; [done|lia].
Qed.

Lemma user_buffer_write_at_beyond_witness :
  UserBuffer_write_at (UserBuffer_new [(8192, 4096); (20480, 4096)]) 5000 [7; 8] (fun _ => 9)
    = Ok (EPERM, fun _ => 9).
Proof.
  apply (user_buffer_write_at_beyond (UserBuffer_new [(8192, 4096); (20480, 4096)])).
  - done.
  - cbn [buffers]. by rewrite !Forall_cons, Forall_nil.
  - cbn [buffers]. rewrite !slice_addrs_cons, !length_app, !length_seqZ. simpl. lia.
  - lia.
  - cbn [buffers]. rewrite !slice_addrs_cons, !length_app, !length_seqZ. simpl. lia.
Defined.

(** Iterating a [UserBuffer] visits every byte of its slices exactly once
    and in order, and ends. *)
Theorem user_buffer_iter_visits ub :
  Forall (fun b : PSlice => 0 < b.2 < 2 ^ 64) (buffers ub) → Z.of_nat (length (buffers ub)) < 2 ^ 64 →
  UserBufferIterator_collect (S (length (slice_addrs (buffers ub)))) (UserBuffer_into_iter ub) =
    Ok (slice_addrs (buffers ub)).
Proof.
  intros Hall Hlen. apply iter_rem_collect; [by apply iter_rem_start|lia].
Qed.

Lemma user_buffer_iter_visits_witness :
  UserBufferIterator_collect 6 (UserBuffer_into_iter (UserBuffer_new [(100, 2); (4096, 3)])) =
    Ok [100; 101; 4096; 4097; 4098].
Proof.
  apply (user_buffer_iter_visits (UserBuffer_new [(100, 2); (4096, 3)])); [|done].
  cbn [buffers]. by rewrite !Forall_cons, Forall_nil.
Defined.
