(* ===== verification/MemorySet.v ===== *)
(** * Address spaces: [kernel/src/mm/memory_set.rs]

    A [MemorySet] is a page table, the areas of an address space and the
    frames of its heap and of its [mmap] regions.  Dropping a [FrameTracker]
    returns its frame, so every place where the Rust code overwrites, removes
    or clears a container of frames is an explicit [drop] here. *)

From S2P Require Import Prelude Config Address PhysMem FrameAllocator PageTable UserMem.

(** ** Data *)

Inductive MapType : Type := Identical | Framed | Marked.

#[global] Instance MapType_eq_dec : EqDecision MapType.
Proof. solve_decision. Defined.

(** [MapPermission] and [PTEFlags] are [u8] bit sets; every [u8] is a set of
    [PTEFlags]. *)
Definition MapPermission_R : Z := Z.shiftl 1 1.
Definition MapPermission_W : Z := Z.shiftl 1 2.
Definition MapPermission_X : Z := Z.shiftl 1 3.
Definition MapPermission_U : Z := Z.shiftl 1 4.

Definition PTEFlags_from_bits (bits : Z) : option Z :=
  if Z.land bits 255 =? bits then Some bits else None.

Record MapArea : Type := mkMapArea {
  vpn_range : SimpleRange;
  data_frames : gmap Z FrameTracker;
  map_type : MapType;
  map_perm : Z
}.

Record MemorySet : Type := mkMemorySet {
  page_table : PageTable;
  areas : list MapArea;
  heap_area : gmap Z FrameTracker;
  mmap_area : gmap Z FrameTracker;
  mmap_base : VirtAddr;
  mmap_end : VirtAddr
}.

Record AuxHeader : Type := AuxHeader_new { _type : Z; value : Z }.

(** [Flags] of [kernel/src/task/process.rs]: the bits [mmap] tests. *)
Definition MAP_FIXED : Z := 0x10.
Definition MAP_ANONYMOUS : Z := 0x20.

(** The symbols of the linker script. *)
Record LinkerSymbols : Type := mkLinkerSymbols {
  stext : Z; etext : Z; srodata : Z; erodata : Z; sdata : Z; edata : Z;
  sbss_with_stack : Z; ebss : Z; ekernel : Z; strampoline : Z; ssignaltrampoline : Z
}.

(** What the loader reads of [xmas_elf::ElfFile]. *)
Record ProgramHeader : Type := mkProgramHeader {
  ph_is_load : bool; ph_is_interp : bool;
  ph_virtual_addr : Z; ph_mem_size : Z; ph_offset : Z; ph_file_size : Z;
  ph_read : bool; ph_write : bool; ph_execute : bool
}.

Record ElfFile : Type := mkElfFile {
  elf_input : list Z;
  elf_magic : list Z;
  elf_entry_point : Z;
  elf_ph_count : nat;
  elf_ph_entry_size : Z;
  elf_ph_offset : Z;
  elf_program_header : nat → option ProgramHeader
}.

(** [Into<PTEFlags> for MPROCTECTPROT] *)
Definition PROT_READ : Z := 0x01.
Definition PROT_WRITE : Z := 0x02.
Definition PROT_EXEC : Z := 0x04.

Definition PTEFlags_from_prot (prot : Z) : Z :=
  let flag := PTE_U in
  let flag := if flags_contains prot PROT_READ then Z.lor flag PTE_R else flag in
  let flag := if flags_contains prot PROT_WRITE then Z.lor flag PTE_W else flag in
  if flags_contains prot PROT_EXEC then Z.lor flag PTE_X else flag.

(** Round an address up to a page, as [mmap] and [munmap] write it. *)
Definition align_up (a : Z) : Z := Z.land (a ⊞ PAGE_SIZE ⊟ 1) (not64 (PAGE_SIZE - 1)).

(** ** Areas *)

Section operations.
Context {A : Type} {FA : FrameAllocator A}.

(** [BTreeMap::insert], [remove] and the drop of a map of frames. *)
Definition frames_insert (fs : gmap Z FrameTracker) (vpn : VirtPageNum) (ft : FrameTracker)
    : ST (Machine A) (gmap Z FrameTracker) :=
  match fs !! vpn with Some old => FrameTracker_drop old | None => mret tt end;;
  mret (<[vpn := ft]> fs).

Definition frames_remove (fs : gmap Z FrameTracker) (vpn : VirtPageNum)
    : ST (Machine A) (gmap Z FrameTracker) :=
  match fs !! vpn with Some old => FrameTracker_drop old | None => mret tt end;;
  mret (delete vpn fs).

Definition frames_drop (fs : gmap Z FrameTracker) : ST (Machine A) unit :=
  st_fold (fun _ p => FrameTracker_drop p.2) tt (btree_iter fs).

Definition MapArea_new (start_va end_va : VirtAddr) (ty : MapType) (perm : Z)
    : ST (Machine A) MapArea :=
  let start_vpn := floor start_va in
  let end_vpn := ceil end_va in
  r ← SimpleRange_new start_vpn end_vpn;
  mret (mkMapArea r ∅ ty perm).

Definition from_another (another : MapArea) : ST (Machine A) MapArea :=
  r ← SimpleRange_new (get_start (vpn_range another)) (get_end (vpn_range another));
  mret (mkMapArea r ∅ (map_type another) (map_perm another)).

(** The trackers are behind [Arc]s of the page cache; only their page numbers
    are used. *)
Definition from_existed (start_va : VirtAddr) (ty : MapType) (perm : Z)
    (frame_trackers : list FrameTracker) : ST (Machine A) MapArea :=
  let page_count := Z.of_nat (length frame_trackers) in
  let start_vpn := floor start_va in
  let end_vpn := VirtPageNum_from_usize (start_vpn ⊞ page_count) in
  r ← SimpleRange_new start_vpn end_vpn;
  let '(frames, _) :=
    foldl (fun '(frames, vpn) ft => (<[vpn := FrameTracker_cover (ft_ppn ft)]> frames, step vpn))
      (∅, start_vpn) frame_trackers in
  mret (mkMapArea r frames ty perm).

Definition map_one (self : MapArea) (pt : PageTable) (vpn : VirtPageNum)
    : ST (Machine A) (MapArea * PageTable) :=
  '(self, ppn) ←
    match map_type self with
    | Identical => mret (self, vpn)
    | Framed =>
        o ← frame_alloc;
        frame ← unwrap o;
        fs ← frames_insert (data_frames self) vpn frame;
        mret (mkMapArea (vpn_range self) fs (map_type self) (map_perm self), ft_ppn frame)
    | Marked => panic
    end;
  pte_flags ← unwrap (PTEFlags_from_bits (map_perm self));
  pt ← PageTable_map pt vpn ppn pte_flags;
  mret (self, pt).

Definition map_one_unalloc (self : MapArea) (pt : PageTable) (vpn : VirtPageNum) (ppn : PhysPageNum)
    : ST (Machine A) PageTable :=
  pte_flags ← unwrap (PTEFlags_from_bits (map_perm self));
  PageTable_map pt vpn ppn pte_flags.

Definition unmap_one (self : MapArea) (pt : PageTable) (vpn : VirtPageNum)
    : ST (Machine A) MapArea :=
  self ←
    (if decide (map_type self = Framed) then
       fs ← frames_remove (data_frames self) vpn;
       mret (mkMapArea (vpn_range self) fs (map_type self) (map_perm self))
     else mret self);
  PageTable_unmap pt vpn;;
  mret self.

Definition MapArea_map (self : MapArea) (pt : PageTable) : ST (Machine A) (MapArea * PageTable) :=
  match map_type self with
  | Identical | Framed =>
      for_range (vpn_range self) (fun '(self, pt) vpn => map_one self pt vpn) (self, pt)
  | Marked =>
      pt ← st_fold (fun pt '(vpn, frame) => map_one_unalloc self pt vpn (ft_ppn frame))
             pt (btree_iter (data_frames self));
      mret (self, pt)
  end.

Definition MapArea_unmap (self : MapArea) (pt : PageTable) : ST (Machine A) MapArea :=
  for_range (vpn_range self) (fun self vpn => unmap_one self pt vpn) self.

(** The [loop] of [copy_data]. *)
Fixpoint copy_data_loop (fuel : nat) (pt : PageTable) (data : list Z)
    (start page_offset : Z) (current_vpn : VirtPageNum) : ST (Machine A) unit :=
  match fuel with
  | O => out_of_fuel
  | S fuel =>
      let len := Z.of_nat (length data) in
      src ← slice data start (Z.min len (start ⊞ PAGE_SIZE ⊟ page_offset));
      m ← gets pmem;
      pte ← unwrap (translate m pt current_vpn);
      let dst_end := page_offset ⊞ Z.of_nat (length src) in
      rust_assert ((page_offset <=? dst_end) && (dst_end <=? PAGE_SIZE));;
      update_pmem (fun m => write_bytes m (get_bytes_array (PTE_ppn pte) + page_offset) src);;
      let start := start ⊞ (PAGE_SIZE ⊟ page_offset) in
      if len <=? start then mret tt
      else copy_data_loop fuel pt data start 0 (step current_vpn)
  end.

(** Every round but the first copies a whole page. *)
Definition copy_data (self : MapArea) (pt : PageTable) (data : list Z) (offset : Z)
    : ST (Machine A) unit :=
  rust_assert (bool_decide (map_type self = Framed));;
  copy_data_loop (length data / 4096 + 2) pt data 0 offset (get_start (vpn_range self)).

(** ** Address spaces *)

Definition with_page_table (ms : MemorySet) (pt : PageTable) : MemorySet :=
  mkMemorySet pt (areas ms) (heap_area ms) (mmap_area ms) (mmap_base ms) (mmap_end ms).

Definition new_bare : ST (Machine A) MemorySet :=
  pt ← PageTable_new;
  mret (mkMemorySet pt [] ∅ ∅ (VirtAddr_from_usize MMAP_BASE) (VirtAddr_from_usize MMAP_BASE)).

Definition MemorySet_token (self : MemorySet) : Z := token (page_table self).

Definition MemorySet_translate (m : PMem) (self : MemorySet) (vpn : VirtPageNum) : option Z :=
  translate m (page_table self) vpn.

Definition push_with_offset (self : MemorySet) (map_area : MapArea) (offset : Z)
    (data : option (list Z)) : ST (Machine A) MemorySet :=
  '(map_area, pt) ← MapArea_map map_area (page_table self);
  match data with Some data => copy_data map_area pt data offset | None => mret tt end;;
  mret (mkMemorySet pt (vec_push (areas self) map_area) (heap_area self) (mmap_area self)
          (mmap_base self) (mmap_end self)).

Definition push (self : MemorySet) (map_area : MapArea) (data : option (list Z))
    : ST (Machine A) MemorySet :=
  '(map_area, pt) ← MapArea_map map_area (page_table self);
  match data with Some data => copy_data map_area pt data 0 | None => mret tt end;;
  mret (mkMemorySet pt (vec_push (areas self) map_area) (heap_area self) (mmap_area self)
          (mmap_base self) (mmap_end self)).

Definition insert_framed_area (self : MemorySet) (start_va end_va : VirtAddr) (permission : Z)
    : ST (Machine A) MemorySet :=
  area ← MapArea_new start_va end_va Framed permission;
  push self area None.

(** [iter_mut().enumerate().find(..)]; the area is dropped by [areas.remove]. *)
Definition remove_area_with_start_vpn (self : MemorySet) (start_vpn : VirtPageNum)
    : ST (Machine A) MemorySet :=
  match list_find (fun area => get_start (vpn_range area) = start_vpn) (areas self) with
  | Some (idx, area) =>
      area ← MapArea_unmap area (page_table self);
      frames_drop (data_frames area);;
      mret (mkMemorySet (page_table self) (take idx (areas self) ++ drop (S idx) (areas self))
              (heap_area self) (mmap_area self) (mmap_base self) (mmap_end self))
  | None => panic
  end.

Definition map_trampoline (sym : LinkerSymbols) (self : MemorySet) : ST (Machine A) MemorySet :=
  vpn ← VirtPageNum_from_VirtAddr (VirtAddr_from_usize TRAMPOLINE);
  ppn ← PhysPageNum_from_PhysAddr (PhysAddr_from_usize (strampoline sym));
  pt ← PageTable_map (page_table self) vpn ppn (Z.lor PTE_R PTE_X);
  mret (with_page_table self pt).

Definition map_signaltrampoline (sym : LinkerSymbols) (self : MemorySet)
    : ST (Machine A) MemorySet :=
  vpn ← VirtPageNum_from_VirtAddr (VirtAddr_from_usize SIGNAL_TRAMPOLINE);
  ppn ← PhysPageNum_from_PhysAddr (PhysAddr_from_usize (ssignaltrampoline sym));
  pt ← PageTable_map (page_table self) vpn ppn (Z.lor (Z.lor PTE_R PTE_X) PTE_U);
  mret (with_page_table self pt).

Definition push_identical (self : MemorySet) (range : Z * Z) (perm : Z) : ST (Machine A) MemorySet :=
  area ← MapArea_new (VirtAddr_from_usize range.1) (VirtAddr_from_usize range.2) Identical perm;
  push self area None.

Definition new_kernel (sym : LinkerSymbols) : ST (Machine A) MemorySet :=
  let R := MapPermission_R in let W := MapPermission_W in let X := MapPermission_X in
  ms ← new_bare;
  ms ← map_trampoline sym ms;
  ms ← push_identical ms (stext sym, etext sym) (Z.lor R X);
  ms ← push_identical ms (srodata sym, erodata sym) R;
  ms ← push_identical ms (sdata sym, edata sym) (Z.lor R W);
  ms ← push_identical ms (sbss_with_stack sym, ebss sym) (Z.lor R W);
  ms ← push_identical ms (ekernel sym, MEMORY_END) (Z.lor R W);
  st_fold (fun ms pair => push_identical ms (pair.1, pair.1 ⊞ pair.2) (Z.lor R W)) ms MMIO.

(** The permissions of a program header. *)
Definition ph_perm (ph : ProgramHeader) : Z :=
  let map_perm := MapPermission_U in
  let map_perm := if ph_read ph then Z.lor map_perm MapPermission_R else map_perm in
  let map_perm := if ph_write ph then Z.lor map_perm MapPermission_W else map_perm in
  if ph_execute ph then Z.lor map_perm MapPermission_X else map_perm.

(** One [Load] header, at a load address [base]. *)
Definition load_segment (self : MemorySet) (elf : ElfFile) (ph : ProgramHeader) (base : Z)
    : ST (Machine A) MemorySet :=
  let start_va := VirtAddr_from_usize (ph_virtual_addr ph ⊞ base) in
  let end_va := VirtAddr_from_usize (ph_virtual_addr ph ⊞ ph_mem_size ph ⊞ base) in
  let page_offset := page_offset start_va in
  map_area ← MapArea_new start_va end_va Framed (ph_perm ph);
  data ← slice (elf_input elf) (ph_offset ph) (ph_offset ph ⊞ ph_file_size ph);
  if page_offset =? 0 then push self map_area (Some data)
  else push_with_offset self map_area page_offset (Some data).

(** [new] is [xmas_elf::ElfFile::new]. *)
Definition load_interp (new : list Z → option ElfFile) (self : MemorySet) (elf_data : list Z)
    : ST (Machine A) (MemorySet * (Z * Z)) :=
  elf ← unwrap (new elf_data);
  rust_assert (bool_decide (elf_magic elf = [0x7f; 0x45; 0x4c; 0x46]));;
  let interp_base := DYN_BASE in
  let interp_entry := elf_entry_point elf ⊞ interp_base in
  self ← st_fold (fun self i =>
    ph ← unwrap (elf_program_header elf i);
    if ph_is_load ph then load_segment self elf ph interp_base
    else if ph_is_interp ph then panic
    else mret self) self (seq 0 (elf_ph_count elf));
  mret (self, (interp_entry, interp_base)).

(** [dst.copy_from_slice(src)] on two whole pages. *)
Definition copy_page (dst_ppn src_ppn : PhysPageNum) : ST (Machine A) unit :=
  update_pmem (fun m =>
    write_bytes m (get_bytes_array dst_ppn) (read_bytes m (get_bytes_array src_ppn) PAGE_SIZE)).

(** One area of [from_existed_user]. *)
Definition copy_area (user_space memory_set : MemorySet) (area : MapArea)
    : ST (Machine A) MemorySet :=
  new_area ← from_another area;
  memory_set ← push memory_set new_area None;
  for_range (vpn_range area) (fun _ vpn =>
    m ← gets pmem;
    src ← unwrap (MemorySet_translate m user_space vpn);
    dst ← unwrap (MemorySet_translate m memory_set vpn);
    copy_page (PTE_ppn dst) (PTE_ppn src)) tt;;
  mret memory_set.

(** One entry of the [heap_area] and [mmap_area] loops: the frame and the
    table are the new ones. *)
Definition copy_frame (pt : PageTable) (fs : gmap Z FrameTracker) (vpn : VirtPageNum)
    (src_frame : FrameTracker) : ST (Machine A) (PageTable * gmap Z FrameTracker) :=
  o ← frame_alloc;
  dst_frame ← unwrap o;
  let dst_ppn := ft_ppn dst_frame in
  pt ← PageTable_map pt vpn dst_ppn (Z.lor (Z.lor PTE_U PTE_R) PTE_W);
  fs ← frames_insert fs vpn dst_frame;
  copy_page dst_ppn (ft_ppn src_frame);;
  mret (pt, fs).

Definition from_existed_user (sym : LinkerSymbols) (user_space : MemorySet)
    : ST (Machine A) MemorySet :=
  ms ← new_bare;
  ms ← map_trampoline sym ms;
  ms ← map_signaltrampoline sym ms;
  let ms := mkMemorySet (page_table ms) (areas ms) (heap_area ms) (mmap_area ms)
              (mmap_base ms) (mmap_end user_space) in
  ms ← st_fold (copy_area user_space) ms (areas user_space);
  ms ← st_fold (fun ms p =>
         '(pt, fs) ← copy_frame (page_table ms) (heap_area ms) p.1 p.2;
         mret (mkMemorySet pt (areas ms) fs (mmap_area ms) (mmap_base ms) (mmap_end ms)))
         ms (btree_iter (heap_area user_space));
  st_fold (fun ms p =>
    '(pt, fs) ← copy_frame (page_table ms) (mmap_area ms) p.1 p.2;
    mret (mkMemorySet pt (areas ms) (heap_area ms) fs (mmap_base ms) (mmap_end ms)))
    ms (btree_iter (mmap_area user_space)).

Definition clear_dirty_bit (self : MemorySet) (vpn : VirtPageNum) : ST (Machine A) unit :=
  delete_pte_flags (page_table self) vpn PTE_D;; mret tt.

(** [areas.clear()] drops every area. *)
Definition recycle_data_pages (self : MemorySet) : ST (Machine A) MemorySet :=
  st_fold (fun _ area => frames_drop (data_frames area)) tt (areas self);;
  mret (mkMemorySet (page_table self) [] (heap_area self) (mmap_area self)
          (mmap_base self) (mmap_end self)).

(** The drop of a whole [MemorySet], field by field. *)
Definition MemorySet_drop (self : MemorySet) : ST (Machine A) unit :=
  st_fold (fun _ ft => FrameTracker_drop ft) tt (frames (page_table self));;
  st_fold (fun _ area => frames_drop (data_frames area)) tt (areas self);;
  frames_drop (heap_area self);;
  frames_drop (mmap_area self).

(** A fresh frame for [vpn]. *)
Definition map_fresh (pt : PageTable) (fs : gmap Z FrameTracker) (vpn : VirtPageNum) (flags : Z)
    : ST (Machine A) (PageTable * gmap Z FrameTracker) :=
  o ← frame_alloc;
  frame ← unwrap o;
  pt ← PageTable_map pt vpn (ft_ppn frame) flags;
  fs ← frames_insert fs vpn frame;
  mret (pt, fs).

Fixpoint map_heap_loop (fuel : nat) (self : MemorySet) (current_addr aim_addr : VirtAddr)
    : ST (Machine A) MemorySet :=
  if aim_addr <=? current_addr then mret self
  else
    match fuel with
    | O => out_of_fuel
    | S fuel =>
        '(pt, fs) ← map_fresh (page_table self) (heap_area self) (floor current_addr)
                      (Z.lor (Z.lor PTE_U PTE_R) PTE_W);
        map_heap_loop fuel
          (mkMemorySet pt (areas self) fs (mmap_area self) (mmap_base self) (mmap_end self))
          (VirtAddr_from_usize (current_addr ⊞ PAGE_SIZE)) aim_addr
    end.

(** One round per page, and one for a partial page. *)
Definition map_heap (self : MemorySet) (current_addr aim_addr : VirtAddr)
    : ST (Machine A) (MemorySet * Z) :=
  self ← map_heap_loop (Z.to_nat ((aim_addr - current_addr) / 4096 + 1)) self current_addr aim_addr;
  mret (self, SUCCESS).

(** The [insert] and the [map] of one page of [mmap]. *)
Definition mmap_page (self : MemorySet) (vpn : VirtPageNum) : ST (Machine A) MemorySet :=
  o ← frame_alloc;
  frame ← unwrap o;
  fs ← frames_insert (mmap_area self) vpn frame;
  pt ← PageTable_map (page_table self) vpn (ft_ppn frame)
         (Z.lor (Z.lor (Z.lor PTE_R PTE_W) PTE_U) PTE_X);
  mret (mkMemorySet pt (areas self) (heap_area self) fs (mmap_base self) (mmap_end self)).

(** The loop that writes the file content. *)
Fixpoint mmap_write_loop (fuel : nat) (pt : PageTable) (context : list Z) (len start : Z)
    (current_vpn : VirtPageNum) : ST (Machine A) unit :=
  match fuel with
  | O => out_of_fuel
  | S fuel =>
      src ← slice context start (Z.min len (start ⊞ PAGE_SIZE));
      m ← gets pmem;
      pte ← unwrap (translate m pt current_vpn);
      rust_assert (Z.of_nat (length src) <=? PAGE_SIZE);;
      update_pmem (fun m => write_bytes m (get_bytes_array (PTE_ppn pte)) src);;
      let start := start ⊞ PAGE_SIZE in
      if len <=? start then mret tt
      else mmap_write_loop fuel pt context len start (step current_vpn)
  end.

Definition mmap (self : MemorySet) (start_addr len offset : Z) (context : list Z) (flags : Z)
    : ST (Machine A) (MemorySet * Z) :=
  let fixed := flags_contains flags MAP_FIXED && negb (start_addr =? 0) in
  let start_addr_align := if fixed then align_up start_addr else align_up (mmap_end self) in
  let end_addr_align :=
    if fixed then align_up (start_addr ⊞ len) else align_up (mmap_end self ⊞ len) in
  let self := mkMemorySet (page_table self) (areas self) (heap_area self) (mmap_area self)
                (mmap_base self) (VirtAddr_from_usize (end_addr_align ⊞ PAGE_SIZE)) in
  vpn_range ← SimpleRange_new (floor (VirtAddr_from_usize start_addr_align))
                              (floor (VirtAddr_from_usize end_addr_align));
  self ← for_range vpn_range (fun self vpn =>
           if fixed then
             match mmap_area self !! vpn with
             | Some _ => mret self
             | None => mmap_page self vpn
             end
           else mmap_page self vpn) self;
  (if negb (flags_contains flags MAP_ANONYMOUS) then
     mmap_write_loop (Z.to_nat (len / 4096 + 2)) (page_table self) context len offset
       (get_start vpn_range)
   else mret tt);;
  mret (self, as_isize start_addr_align).

Definition munmap (self : MemorySet) (start_addr len : Z) : ST (Machine A) (MemorySet * Z) :=
  let start_addr_align := align_up start_addr in
  let end_addr_align := align_up (start_addr ⊞ len) in
  vpn_range ← SimpleRange_new (floor (VirtAddr_from_usize start_addr_align))
                              (floor (VirtAddr_from_usize end_addr_align));
  fs ← for_range vpn_range (fun fs vpn => frames_remove fs vpn) (mmap_area self);
  mret (mkMemorySet (page_table self) (areas self) (heap_area self) fs
          (mmap_base self) (mmap_end self), SUCCESS).

Definition mprotect (self : MemorySet) (start end_ : VirtAddr) (new_flags : Z)
    : ST (Machine A) Z :=
  vpn_range ← SimpleRange_new (floor start) (ceil end_);
  r ← for_range_ret vpn_range (fun vpn =>
        b ← set_pte_flags (page_table self) vpn new_flags;
        mret (if b : bool then None else Some EPERM));
  mret (default SUCCESS r).

(** ** The initial user stack

    [*translated_refmut(self.token(), p) = v] for a byte and for a [usize]. *)
Definition put_u8 (self : MemorySet) (p v : Z) : ST (Machine A) unit :=
  m ← gets pmem;
  match translated_refmut m (MemorySet_token self) p with
  | Ok pa => update_pmem (fun m => write_bytes m pa [v])
  | _ => panic
  end.

Definition put_usize (self : MemorySet) (p v : Z) : ST (Machine A) unit :=
  m ← gets pmem;
  match translated_refmut m (MemorySet_token self) p with
  | Ok pa => update_pmem (fun m => store64 m pa v)
  | _ => panic
  end.

(** The characters of a string and its terminator. *)
Definition put_str (self : MemorySet) (p : Z) (chars : list Z) : ST (Machine A) unit :=
  p ← st_fold (fun p c => put_u8 self p c;; mret (p ⊞ 1)) p chars;
  put_u8 self p 0.

(** The closure [push_stack]. *)
Definition push_stack (self : MemorySet) (parms : list (list Z)) (user_sp : Z)
    : ST (Machine A) (list Z * Z) :=
  let ptr_vec := <[length parms := 0]> (seqZ 0 (Z.of_nat (length parms) + 1)) in
  st_fold (fun '(ptr_vec, user_sp) '(index, parm) =>
    let user_sp := user_sp ⊟ (Z.of_nat (length parm) ⊞ 1) in
    put_str self user_sp parm;;
    mret (<[index := user_sp]> ptr_vec, user_sp))
    (ptr_vec, user_sp) (imap pair parms).

(** A run of [usize] slots. *)
Definition put_usizes (self : MemorySet) (base : Z) (vs : list Z) : ST (Machine A) unit :=
  st_fold (fun p v => put_usize self p v;; mret (p ⊞ 8)) base vs;;
  mret tt.

Definition PATH_env : list Z := [80; 65; 84; 72; 61; 47; 58; 47; 98; 105; 110; 47].
Definition platform : list Z := [82; 73; 83; 67; 45; 86; 54; 52].

Definition build_stack (self : MemorySet) (user_sp : Z) (argv_vec envp_vec : list (list Z))
    (auxv_vec : list AuxHeader) : ST (Machine A) (Z * Z * Z * Z * Z) :=
  let envp_vec := vec_push envp_vec PATH_env in
  let user_sp := user_sp ⊟ 2 * 8 in
  '(envp, user_sp) ← push_stack self envp_vec user_sp;
  let user_sp := user_sp ⊟ user_sp mod 8 in
  let argc := Z.of_nat (length argv_vec) in
  '(argv, user_sp) ← push_stack self argv_vec user_sp;
  let user_sp := user_sp ⊟ user_sp mod 8 in
  let user_sp := user_sp ⊟ (Z.of_nat (length platform) ⊞ 1) in
  let user_sp := user_sp ⊟ user_sp mod 8 in
  put_str self user_sp platform;;
  let user_sp := user_sp ⊟ 16 in
  let auxv_vec := vec_push auxv_vec (AuxHeader_new AT_RANDOM user_sp) in
  put_usize self user_sp 0x01020304050607;;
  put_usize self (user_sp ⊞ 8) 0x08090a0b0c0d0e0f;;
  let user_sp := user_sp ⊟ user_sp mod 16 in
  argv0 ← unwrap (argv !! 0%nat);
  let auxv_vec := vec_push auxv_vec (AuxHeader_new AT_EXECFN argv0) in
  let auxv_vec := vec_push auxv_vec (AuxHeader_new AT_NULL 0) in
  let user_sp := user_sp ⊟ Z.of_nat (length auxv_vec) * 16 in
  let aux_base := user_sp in
  put_usizes self aux_base (auxv_vec ≫= (fun h => [_type h; value h]));;
  let user_sp := user_sp ⊟ Z.of_nat (length envp) * 8 in
  let envp_base := user_sp in
  put_usizes self envp_base envp;;
  let user_sp := user_sp ⊟ Z.of_nat (length argv) * 8 in
  let argv_base := user_sp in
  put_usizes self argv_base argv;;
  let user_sp := user_sp ⊟ 8 in
  put_usize self user_sp argc;;
  mret (user_sp, argc, argv_base, envp_base, aux_base).

Definition map_app_data (self : MemorySet) (start_va : VirtAddr) (perm : Z)
    (frame_trackers : list FrameTracker) : ST (Machine A) MemorySet :=
  map_area ← from_existed start_va Marked perm frame_trackers;
  push self map_area None.
End operations.
