(* ===== verification/AddressSpace.v ===== *)
(** * Address spaces own their frames

    The invariant of an address space, a page table together with the list of
    the data frames mapped through it, and the rules of the operations of
    [MemorySet.v] that add pages.  Frames are conserved: what an operation
    takes from the allocator it owns afterwards, and it writes to no page
    outside of what it owns. *)

From S2P Require Import Prelude Config Address PhysMem FrameAllocator PageTable UserMem MemorySet.

Definition page_zero (m : PMem) (p : Z) : Prop := ∀ a, same_page p a → m a = 0.

Section invariant.
Context {A : Type} {FA : FrameAllocator A} {FS : FrameAllocatorSpec A}.
Implicit Types (R : gset Z) (s : Machine A) (pt : PageTable) (L : list Z) (G : gmap Z Z).

(** [L] lists the data frames of an address space with page table [pt]. *)
Record as_ok R s pt L : Prop := {
  as_pt : pt_ok R s pt;
  as_nodup : NoDup L;
  as_owned p : p ∈ L → p ∈ R ∧ (p ∉ pt_frames pt) ∧ p ∉ fa_free (falloc s);
}.

(** The address space grew from [s], [pt] to [s'], [pt'] and got the data
    frames [N]. *)
Record as_grow s s' pt pt' (N : gset Z) : Prop := {
  ag_root : root_ppn pt' = root_ppn pt;
  ag_sub : pt_frames pt ⊆ pt_frames pt';
  ag_free : fa_free (falloc s) = fa_free (falloc s') ∪ N ∪ (pt_frames pt' ∖ pt_frames pt);
  ag_mem a : (∀ f, f ∈ pt_frames pt' ∪ N → ¬ same_page f a) → pmem s' a = pmem s a;
}.

(** The pages [G] (page number to frame) were added with [flags] to the
    frames [fs0] of a container. *)
Record fresh_inv R s0 pt0 L0 (fs0 : gmap Z FrameTracker) (flags : Z) G s pt
    (fs : gmap Z FrameTracker) : Prop := {
  fi_ok : as_ok R s pt ((map_to_list G).*2 ++ L0);
  fi_frames : fs = ((fun p => mkFrameTracker p true) <$> G) ∪ fs0;
  fi_grow : as_grow s0 s pt0 pt (list_to_set (map_to_list G).*2);
  fi_view vpn : 0 ≤ vpn < 2 ^ 27 →
    pt_view (pmem s) (root_ppn pt) vpn =
      match G !! vpn with
      | Some p => Some (PTE_new p (Z.lor flags PTE_V))
      | None => pt_view (pmem s0) (root_ppn pt0) vpn
      end;
  fi_zero vpn p : G !! vpn = Some p → page_zero (pmem s) p;
  fi_size : (size (fa_free (falloc s0)) ≤ size (fa_free (falloc s)) + 3 * size G)%nat;
}.

Lemma as_ok_perm R s pt L1 L2 : L1 ≡ₚ L2 → as_ok R s pt L1 → as_ok R s pt L2.
Proof.
  intros HL [Hpt Hnd Hown]. split; [done|by rewrite <-HL|]. intros p. rewrite <-HL. apply Hown.
Qed.

#[global] Instance as_ok_proper R s pt : Proper ((≡ₚ) ==> iff) (as_ok R s pt).
Proof. intros L1 L2 HL. split; by apply as_ok_perm. Qed.

Lemma as_grow_refl s pt : as_grow s s pt pt ∅.
Proof. split; set_solver. Qed.

Lemma as_grow_trans s1 s2 s3 p1 p2 p3 N1 N2 :
  as_grow s1 s2 p1 p2 N1 → as_grow s2 s3 p2 p3 N2 → as_grow s1 s3 p1 p3 (N1 ∪ N2).
Proof.
  intros [Hr1 Hs1 Hf1 Hm1] [Hr2 Hs2 Hf2 Hm2]. split; [congruence|set_solver| |].
  - rewrite Hf1, Hf2. apply set_eq. intros x.
    destruct (decide (x ∈ pt_frames p2)); set_solver.
  - intros a Ha. rewrite Hm2, Hm1; [done|set_solver|set_solver].
Qed.

Lemma same_page_inj f g a : same_page f a → same_page g a → f = g.
Proof. unfold same_page. lia. Qed.

(** Pages owned before an address space grows keep their content. *)
Lemma as_grow_old R s s' pt pt' L N p a :
  as_ok R s pt L → as_grow s s' pt pt' N → p ∈ L → same_page p a → pmem s' a = pmem s a.
Proof.
  intros Hok Hg Hp Ha. destruct (as_owned _ _ _ _ Hok p Hp) as (_ & Hnp & Hnf).
  apply Hg. intros f Hf Hfa. pose proof (same_page_inj _ _ _ Ha Hfa) as ->.
  rewrite (ag_free _ _ _ _ _ Hg) in Hnf. set_solver.
Qed.

(** The same for the pages of anybody else. *)
Lemma as_grow_frame s s' pt pt' N p a :
  as_grow s s' pt pt' N → p ∉ fa_free (falloc s) → p ∉ pt_frames pt → same_page p a →
  pmem s' a = pmem s a.
Proof.
  intros Hg Hnf Hnp Ha. apply Hg. intros f Hf Hfa.
  pose proof (same_page_inj _ _ _ Ha Hfa) as ->. rewrite (ag_free _ _ _ _ _ Hg) in Hnf. set_solver.
Qed.

(** ** Rules *)

Lemma wp_frame_alloc_as R s pt L Q :
  as_ok R s pt L → fa_free (falloc s) ≠ ∅ →
  (∀ p s', as_ok R s' pt (p :: L) → 0 ≤ p < 2 ^ 44 → p ∈ fa_free (falloc s) →
     as_grow s s' pt pt {[p]} → page_zero (pmem s') p →
     (size (fa_free (falloc s)) = S (size (fa_free (falloc s'))))%nat →
     (∀ vpn, 0 ≤ vpn < 2 ^ 27 →
        pt_view (pmem s') (root_ppn pt) vpn = pt_view (pmem s) (root_ppn pt) vpn) →
     Q (Some (mkFrameTracker p true)) s') →
  wp frame_alloc Q s.
Proof.
  intros [Hpt Hnd Hown] Hne HQ. apply (wp_frame_alloc R); [apply Hpt|done|].
  intros p fa' Hp Hr HpR Hf Hinv.
  assert (p ∉ pt_frames pt) as Hnp by (pose proof (pt_ok_disjoint _ _ _ Hpt); set_solver).
  assert (∀ f a, f ≠ p → same_page f a → fill_bytes (pmem s) (p * 4096) 4096 0 a = pmem s a) as Hmem.
  { intros f a Hfp Ha. apply fill_bytes_out. unfold same_page in Ha. lia. }
  pose proof Hpt as (P & HP)%pt_ok_okP.
  assert (∀ f a, f ∈ dom P → same_page f a → fill_bytes (pmem s) (p * 4096) 4096 0 a = pmem s a) as HmemP.
  { intros f a Hf' Ha. apply (Hmem f); [|done]. rewrite (okP_dom _ _ _ _ _ HP) in Hf'.
    unfold pt_frames in Hnp. set_solver. }
  apply HQ; try done.
  - split; [|constructor; [|done]|].
    + apply pt_ok_okP. exists P. destruct HP as [Ha Hwf Hd Hh Hn Hm Hdj].
      split; simpl; try done; [|set_solver].
      by apply (view_agree _ _ _ Hwf _ 0); [|lia].
    + intros Hin. by apply (Hown p).
    + simpl. intros q Hq%elem_of_cons. rewrite Hf. destruct Hq as [->|Hq]; [set_solver|].
      destruct (Hown q Hq). set_solver.
  - split; simpl; [done|done| |].
    + rewrite Hf. apply set_eq. intros x. destruct (decide (x = p)); set_solver.
    + intros a Ha. apply fill_bytes_out. specialize (Ha p ltac:(set_solver)). unfold same_page in Ha. lia.
  - intros a Ha. apply fill_bytes_in. unfold same_page in Ha. simpl. lia.
  - simpl. rewrite Hf, size_difference, size_singleton by set_solver.
    assert (size (fa_free (falloc s)) ≠ 0)%nat; [|lia]. rewrite size_non_empty_iff. set_solver.
  - intros vpn Hvpn. by apply (view_agree _ _ _ (okP_wf _ _ _ _ _ HP)).
Qed.

Lemma wp_PageTable_map_as R s pt L vpn ppn flags Q :
  as_ok R s pt L → 0 ≤ vpn < 2 ^ 27 → 0 ≤ ppn < 2 ^ 44 → 0 ≤ flags < 2 ^ 8 →
  (2 ≤ size (fa_free (falloc s)))%nat → pt_view (pmem s) (root_ppn pt) vpn = None →
  (∀ s' pt', as_ok R s' pt' L → as_grow s s' pt pt' ∅ →
     (size (fa_free (falloc s)) ≤ size (fa_free (falloc s')) + 2)%nat →
     (∀ vpn', 0 ≤ vpn' < 2 ^ 27 →
        pt_view (pmem s') (root_ppn pt') vpn' =
          if decide (vpn' = vpn) then Some (PTE_new ppn (Z.lor flags PTE_V))
          else pt_view (pmem s) (root_ppn pt) vpn') →
     Q pt' s') →
  wp (PageTable_map pt vpn ppn flags) Q s.
Proof.
  intros [Hpt Hnd Hown] Hv Hp Hf Hsz Hnone HQ. eapply wp_PageTable_map; [done..|].
  intros s' pt' Hok' [Hr Hsub Hfree Hmem] Hcnt Hview. apply HQ; [|split|done|done].
  - split; [done|done|]. intros p Hin. destruct (Hown p Hin) as (? & ? & Hnf).
    rewrite Hfree in Hnf. set_solver.
  - done.
  - done.
  - rewrite Hfree. set_solver.
  - intros a Ha. apply Hmem. set_solver.
Qed.

(** ** Adding fresh pages *)

Lemma fresh_inv_start R s pt L fs flags : as_ok R s pt L → fresh_inv R s pt L fs flags ∅ s pt fs.
Proof.
  intros Hok. split.
  - by rewrite map_to_list_empty.
  - by rewrite fmap_empty, (left_id_L ∅ (∪)).
  - rewrite map_to_list_empty. apply as_grow_refl.
  - intros vpn _. by rewrite lookup_empty.
  - intros vpn p. by rewrite lookup_empty.
  - lia.
Qed.

Lemma fresh_step R s0 pt0 L0 fs0 flags G s pt fs vpn p s1 s2 pt2 :
  fresh_inv R s0 pt0 L0 fs0 flags G s pt fs → G !! vpn = None →
  as_ok R s1 pt (p :: (map_to_list G).*2 ++ L0) → as_grow s s1 pt pt {[p]} → page_zero (pmem s1) p →
  (size (fa_free (falloc s)) = S (size (fa_free (falloc s1))))%nat →
  (∀ vpn, 0 ≤ vpn < 2 ^ 27 →
     pt_view (pmem s1) (root_ppn pt) vpn = pt_view (pmem s) (root_ppn pt) vpn) →
  as_ok R s2 pt2 (p :: (map_to_list G).*2 ++ L0) → as_grow s1 s2 pt pt2 ∅ →
  (size (fa_free (falloc s1)) ≤ size (fa_free (falloc s2)) + 2)%nat →
  (∀ vpn', 0 ≤ vpn' < 2 ^ 27 →
     pt_view (pmem s2) (root_ppn pt2) vpn' =
       if decide (vpn' = vpn) then Some (PTE_new p (Z.lor flags PTE_V))
       else pt_view (pmem s1) (root_ppn pt) vpn') →
  fresh_inv R s0 pt0 L0 fs0 flags (<[vpn := p]> G) s2 pt2 (<[vpn := mkFrameTracker p true]> fs).
Proof.
  intros [Hok Hfs Hg Hview Hzero Hsize] HG Hok1 Hg1 Hz1 Hs1 Hv1 Hok2 Hg2 Hs2 Hv2.
  pose proof (as_grow_trans _ _ _ _ _ _ _ _ Hg1 Hg2) as Hg12.
  split.
  - by rewrite map_to_list_insert by done.
  - rewrite Hfs, fmap_insert, insert_union_l. done.
  - pose proof (as_grow_trans _ _ _ _ _ _ _ _ Hg Hg12) as Hg3.
    replace (list_to_set (map_to_list (<[vpn:=p]> G)).*2 : gset Z)
      with ((list_to_set (map_to_list G).*2 : gset Z) ∪ ({[p]} ∪ ∅)); [done|].
    apply set_eq. intros x. rewrite !elem_of_union, !elem_of_list_to_set.
    rewrite map_to_list_insert by done. simpl. rewrite elem_of_cons. set_solver.
  - intros vpn' Hvpn'. rewrite Hv2, lookup_insert by done.
    destruct (decide (vpn' = vpn)), (decide (vpn = vpn')); try congruence.
    rewrite Hv1 by done. by apply Hview.
  - intros vpn' q. rewrite lookup_insert_Some. intros [[<- <-]|[Hne Hq]] a Ha.
    + rewrite (as_grow_old R s1 s2 pt pt2 _ ∅ p a Hok1 Hg2) by set_solver. by apply Hz1.
    + assert (q ∈ (map_to_list G).*2 ++ L0) as Hin.
      { apply elem_of_app. left. apply list_elem_of_fmap. exists (vpn', q).
        split; [done|by apply elem_of_map_to_list]. }
      rewrite (as_grow_old R s s2 pt pt2 _ _ q a Hok Hg12) by done. by apply (Hzero vpn' q).
  - rewrite map_size_insert_None by done. lia.
Qed.

(** The three places that add a fresh page to a container. *)
Section fresh_rules.
Context (R : gset Z) (s0 : Machine A) (pt0 : PageTable) (L0 : list Z).
Context (fs0 : gmap Z FrameTracker) (flags : Z).
Hypothesis Hflags : 0 ≤ flags < 2 ^ 8.

Lemma fresh_lookup G s pt fs vpn :
  fresh_inv R s0 pt0 L0 fs0 flags G s pt fs → G !! vpn = None → fs0 !! vpn = None → fs !! vpn = None.
Proof. intros H HG Hfs0. rewrite (fi_frames _ _ _ _ _ _ _ _ _ _ H). by rewrite lookup_union_None, lookup_fmap, HG. Qed.

Lemma fresh_free_nonempty s : (3 ≤ size (fa_free (falloc s)))%nat → fa_free (falloc s) ≠ ∅.
Proof. intros Hs H. rewrite H, size_empty in Hs. lia. Qed.

(** Allocate, then continue with the frame mapped and recorded. *)
Lemma wp_map_fresh G s pt fs vpn (Q : PageTable * gmap Z FrameTracker → Machine A → Prop) :
  fresh_inv R s0 pt0 L0 fs0 flags G s pt fs → G !! vpn = None → fs0 !! vpn = None →
  0 ≤ vpn < 2 ^ 27 → pt_view (pmem s0) (root_ppn pt0) vpn = None →
  (3 ≤ size (fa_free (falloc s)))%nat →
  (∀ p s' pt', fresh_inv R s0 pt0 L0 fs0 flags (<[vpn := p]> G) s' pt' (<[vpn := mkFrameTracker p true]> fs) →
     Q (pt', <[vpn := mkFrameTracker p true]> fs) s') →
  wp (map_fresh pt fs vpn flags) Q s.
Proof.
  intros HI HG Hfs Hv Hnone Hsz HQ. unfold map_fresh. wp_step.
  eapply wp_frame_alloc_as; [apply HI|by apply fresh_free_nonempty|].
  intros p s1 Hok1 Hp Hpf Hg1 Hz1 Hs1 Hv1. wp_step. wp_step; [done|]. wp_step.
  eapply wp_PageTable_map_as; [done|done|done|done|lia| |].
  { rewrite Hv1, (fi_view _ _ _ _ _ _ _ _ _ _ HI), HG by done. done. }
  intros s2 pt2 Hok2 Hg2 Hs2 Hv2. wp_step. unfold frames_insert.
  rewrite (fresh_lookup G s pt fs vpn HI HG Hfs). wp_step. wp_step. wp_step. wp_step.
  apply HQ. by eapply fresh_step.
Qed.

Lemma wp_map_one_framed G s pt r fs vpn (Q : MapArea * PageTable → Machine A → Prop) :
  fresh_inv R s0 pt0 L0 fs0 flags G s pt fs → G !! vpn = None → fs0 !! vpn = None →
  0 ≤ vpn < 2 ^ 27 → pt_view (pmem s0) (root_ppn pt0) vpn = None →
  (3 ≤ size (fa_free (falloc s)))%nat →
  (∀ p s' pt', fresh_inv R s0 pt0 L0 fs0 flags (<[vpn := p]> G) s' pt' (<[vpn := mkFrameTracker p true]> fs) →
     Q (mkMapArea r (<[vpn := mkFrameTracker p true]> fs) Framed flags, pt') s') →
  wp (map_one (mkMapArea r fs Framed flags) pt vpn) Q s.
Proof.
  intros HI HG Hfs Hv Hnone Hsz HQ. unfold map_one. cbn [map_type vpn_range data_frames map_perm].
  wp_step. wp_step. eapply wp_frame_alloc_as; [apply HI|by apply fresh_free_nonempty|].
  intros p s1 Hok1 Hp Hpf Hg1 Hz1 Hs1 Hv1. wp_step. wp_step; [done|]. wp_step. unfold frames_insert.
  rewrite (fresh_lookup G s pt fs vpn HI HG Hfs). do 4 wp_step. cbn [map_perm].
  assert (PTEFlags_from_bits flags = Some flags) as Hbits.
  { unfold PTEFlags_from_bits. change 255 with (Z.ones 8). rewrite land_ones_small by lia.
    by rewrite Z.eqb_refl. }
  wp_step. wp_step; [done|]. wp_step.
  eapply wp_PageTable_map_as; [done|done|done|done|lia| |].
  { rewrite Hv1, (fi_view _ _ _ _ _ _ _ _ _ _ HI), HG by done. done. }
  intros s2 pt2 Hok2 Hg2 Hs2 Hv2. wp_step. apply HQ. by eapply fresh_step.
Qed.

(** A loop over a range whose body adds one fresh page per round; [mk] builds
    the loop variable from the page table and the container. *)
Definition adds_fresh {B} (mk : PageTable → gmap Z FrameTracker → B)
    (f : B → Z → ST (Machine A) B) : Prop :=
  ∀ G s pt fs vpn Q,
    fresh_inv R s0 pt0 L0 fs0 flags G s pt fs → G !! vpn = None → fs0 !! vpn = None →
    0 ≤ vpn < 2 ^ 27 → pt_view (pmem s0) (root_ppn pt0) vpn = None →
    (3 ≤ size (fa_free (falloc s)))%nat →
    (∀ p s' pt',
       fresh_inv R s0 pt0 L0 fs0 flags (<[vpn := p]> G) s' pt' (<[vpn := mkFrameTracker p true]> fs) →
       Q (mk pt' (<[vpn := mkFrameTracker p true]> fs)) s') →
    wp (f (mk pt fs) vpn) Q s.

Lemma wp_fresh_loop {B} (mk : PageTable → gmap Z FrameTracker → B) f l n Q :
  adds_fresh mk f → as_ok R s0 pt0 L0 → 0 ≤ l → 0 ≤ n → l + n ≤ 2 ^ 27 →
  (∀ vpn, l ≤ vpn < l + n → pt_view (pmem s0) (root_ppn pt0) vpn = None ∧ fs0 !! vpn = None) →
  3 * n ≤ Z.of_nat (size (fa_free (falloc s0))) →
  (∀ G s' pt' fs', dom G = list_to_set (seqZ l n) → fresh_inv R s0 pt0 L0 fs0 flags G s' pt' fs' →
     Q (mk pt' fs') s') →
  wp (st_fold f (mk pt0 fs0) (seqZ l n)) Q s0.
Proof.
  intros Hf Hok Hl Hn Hln Hnew Hsz HQ. eapply wp_mono.
  - apply (wp_st_fold f (fun dn b s => ∃ G pt fs, b = mk pt fs ∧
      dom G = list_to_set dn ∧ fresh_inv R s0 pt0 L0 fs0 flags G s pt fs)).
    { exists ∅, pt0, fs0. split_and!; [done|by rewrite dom_empty_L|by apply fresh_inv_start]. }
    intros dn vpn rest b s Hsplit (G & pt & fs & -> & HG & HI).
    assert (NoDup (dn ++ vpn :: rest)) as Hnd by (rewrite <-Hsplit; apply NoDup_seqZ).
    assert (l ≤ vpn < l + n) as Hvpn.
    { apply elem_of_seqZ. rewrite Hsplit. set_solver. }
    assert (Z.of_nat (size G) < n) as Hlen.
    { rewrite <-size_dom, HG, size_list_to_set by (by apply NoDup_app in Hnd as (? & _)).
      pose proof (f_equal length Hsplit) as Heq. rewrite length_seqZ, length_app in Heq. simpl in Heq. lia. }
    pose proof (fi_size _ _ _ _ _ _ _ _ _ _ HI). destruct (Hnew vpn Hvpn) as [Hv0 Hfs0].
    eapply Hf; [done| |done|lia|done|lia|].
    + apply not_elem_of_dom. rewrite HG, elem_of_list_to_set.
      apply NoDup_app in Hnd as (_ & Hnd & _). set_solver.
    + intros p s' pt' HI'. exists (<[vpn := p]> G), pt', (<[vpn := mkFrameTracker p true]> fs).
      split_and!; [done| |done]. rewrite dom_insert_L, HG, list_to_set_app_L. set_solver.
  - intros b s (G & pt & fs & -> & HG & HI). by eapply HQ.
Qed.

Lemma map_one_adds_fresh r :
  adds_fresh (fun pt fs => (mkMapArea r fs Framed flags, pt)) (fun '(self, pt) vpn => map_one self pt vpn).
Proof. intros G s pt fs vpn Q. apply wp_map_one_framed. Qed.
End fresh_rules.

Lemma wp_for_range {B} l r (f : B → Z → ST (Machine A) B) b Q s :
  0 ≤ l ≤ r → r < 2 ^ 64 → wp (st_fold f b (seqZ l (r - l))) Q s →
  wp (for_range (mkSimpleRange l r) f b) Q s.
Proof. intros Hl Hr H. unfold wp in *. by rewrite for_range_fold. Qed.

Lemma wp_for_range_ret {B} l r (f : Z → ST (Machine A) (option B)) Q s :
  0 ≤ l ≤ r → r < 2 ^ 64 → wp (st_for_ret f (seqZ l (r - l))) Q s →
  wp (for_range_ret (mkSimpleRange l r) f) Q s.
Proof. intros Hl Hr H. unfold wp in *. by rewrite for_range_ret_list. Qed.

(** [MapArea::map] of a [Framed] area. *)
Lemma wp_MapArea_map_framed R s pt L l r perm Q :
  as_ok R s pt L → 0 ≤ perm < 2 ^ 8 → 0 ≤ l ≤ r → r ≤ 2 ^ 27 →
  (∀ vpn, l ≤ vpn < r → pt_view (pmem s) (root_ppn pt) vpn = None) →
  3 * (r - l) ≤ Z.of_nat (size (fa_free (falloc s))) →
  (∀ G s' pt' fs', dom G = list_to_set (seqZ l (r - l)) → fresh_inv R s pt L ∅ perm G s' pt' fs' →
     Q (mkMapArea (mkSimpleRange l r) fs' Framed perm, pt') s') →
  wp (MapArea_map (mkMapArea (mkSimpleRange l r) ∅ Framed perm) pt) Q s.
Proof.
  intros Hok Hp Hl Hr Hnone Hsz HQ. unfold MapArea_map. cbn [map_type vpn_range].
  apply wp_for_range; [done|lia|].
  eapply (wp_fresh_loop R s pt L ∅ perm Hp (fun pt fs => (mkMapArea (mkSimpleRange l r) fs Framed perm, pt)));
    [by apply map_one_adds_fresh|done|lia|lia|lia| |done|done].
  intros vpn Hvpn. split; [apply Hnone; lia|apply lookup_empty].
Qed.

(** ** Returning frames *)

(** The frames a list of trackers returns when it is dropped. *)
Definition held_list (fts : list FrameTracker) : list Z :=
  ft_ppn <$> filter (fun ft => ft_hold ft = true) fts.
Definition held (fs : gmap Z FrameTracker) : list Z := held_list (map_to_list fs).*2.

Record owns R s L : Prop := {
  own_alloc : fa_inv R (falloc s);
  own_nodup : NoDup L;
  own_in p : p ∈ L → p ∈ R ∧ p ∉ fa_free (falloc s);
}.

#[global] Instance held_list_proper : Proper ((≡ₚ) ==> (≡ₚ)) held_list.
Proof. intros l1 l2 Hl. unfold held_list. by rewrite Hl. Qed.

#[global] Instance owns_proper R s : Proper ((≡ₚ) ==> iff) (owns R s).
Proof.
  assert (∀ L1 L2, L1 ≡ₚ L2 → owns R s L1 → owns R s L2) as H.
  { intros L1 L2 HL [Ha Hn Hi]. split; [done|by rewrite <-HL|]. intros p. rewrite <-HL. apply Hi. }
  intros L1 L2 HL. split; by apply H.
Qed.

Lemma held_list_app l1 l2 : held_list (l1 ++ l2) = held_list l1 ++ held_list l2.
Proof. unfold held_list. by rewrite filter_app, fmap_app. Qed.

Lemma held_list_cons ft l :
  held_list (ft :: l) = (if ft_hold ft then [ft_ppn ft] else []) ++ held_list l.
Proof. unfold held_list. rewrite filter_cons. destruct (ft_hold ft); case_decide; simpl; done. Qed.

Lemma held_insert fs vpn p :
  fs !! vpn = None → held (<[vpn := mkFrameTracker p true]> fs) ≡ₚ p :: held fs.
Proof. intros H. unfold held. rewrite map_to_list_insert by done. simpl. by rewrite held_list_cons. Qed.

Lemma held_delete fs vpn ft :
  fs !! vpn = Some ft → held fs ≡ₚ (if ft_hold ft then [ft_ppn ft] else []) ++ held (delete vpn fs).
Proof.
  intros H. unfold held. rewrite <-(map_to_list_delete fs vpn ft) by done. simpl.
  by rewrite held_list_cons.
Qed.

Lemma held_fresh G fs0 :
  (∀ vpn, is_Some (G !! vpn) → fs0 !! vpn = None) →
  held (((fun p => mkFrameTracker p true) <$> G) ∪ fs0) ≡ₚ (map_to_list G).*2 ++ held fs0.
Proof.
  induction G as [|vpn p G HG IH] using map_ind; intros Hd.
  - by rewrite fmap_empty, (left_id_L ∅ (∪)), map_to_list_empty.
  - rewrite fmap_insert, <-insert_union_l, held_insert, map_to_list_insert by
      (done || (rewrite lookup_union_None, lookup_fmap, HG; split; [done|apply Hd; by rewrite lookup_insert_eq])).
    simpl. rewrite IH; [done|]. intros v Hv. apply Hd. rewrite lookup_insert. by case_decide.
Qed.

Lemma wp_drop_list R fts L s (Q : unit → Machine A → Prop) :
  owns R s (held_list fts ++ L) →
  (∀ s', owns R s' L → pmem s' = pmem s →
     fa_free (falloc s') = list_to_set (held_list fts) ∪ fa_free (falloc s) → Q tt s') →
  wp (st_fold (fun _ ft => FrameTracker_drop ft) tt fts) Q s.
Proof.
  revert s. induction fts as [|ft fts IH]; intros s Hown HQ; simpl.
  - wp_step. apply HQ; [done|done|]. set_solver.
  - rewrite held_list_cons in Hown, HQ. wp_step. unfold FrameTracker_drop.
    destruct (ft_hold ft); simpl in *.
    + destruct Hown as [Ha [Hni Hnd]%NoDup_cons Hin].
      destruct (Hin (ft_ppn ft) ltac:(set_solver)) as [HR Hnf].
      eapply wp_frame_dealloc; [done|done|done|]. intros fa' Hf' Ha'. apply IH.
      * split; [done|done|]. intros p Hp. destruct (Hin p ltac:(set_solver)). simpl. rewrite Hf'.
        split; [done|]. assert (p ≠ ft_ppn ft) by (by intros ->). set_solver.
      * intros s' Hown' Hm Hf. apply HQ; [done|done|]. rewrite Hf. simpl. rewrite Hf'. set_solver.
    + wp_step. by apply IH.
Qed.

Lemma st_fold_fmap {B C X} (g : X → C) (f : B → C → ST (Machine A) B) b l s :
  st_fold (fun b x => f b (g x)) b l s = st_fold f b (g <$> l) s.
Proof.
  revert b s. induction l as [|x l IH]; intros b s; simpl; [done|].
  unfold mbind, st_bind. destruct (f b (g x) s) as [[b' s']| |]; [apply IH|done|done].
Qed.

Lemma wp_frames_drop R fs L s (Q : unit → Machine A → Prop) :
  owns R s (held fs ++ L) →
  (∀ s', owns R s' L → pmem s' = pmem s →
     fa_free (falloc s') = list_to_set (held fs) ∪ fa_free (falloc s) → Q tt s') →
  wp (frames_drop fs) Q s.
Proof.
  assert ((btree_iter fs).*2 ≡ₚ (map_to_list fs).*2) as Hperm.
  { unfold btree_iter. by rewrite merge_sort_Permutation. }
  assert (held_list (btree_iter fs).*2 ≡ₚ held fs) as Hheld by (unfold held; by rewrite Hperm).
  intros Hown HQ. unfold wp, frames_drop. rewrite (st_fold_fmap snd (fun _ ft => FrameTracker_drop ft)).
  apply (wp_drop_list R _ L); [by rewrite Hheld|]. intros s' Hown' Hm Hf. apply HQ; [done|done|].
  rewrite Hf. apply set_eq. intros x. rewrite !elem_of_union, !elem_of_list_to_set. by rewrite Hheld.
Qed.

Lemma held_pt R s pt : pt_ok R s pt → held_list (frames pt) = ft_ppn <$> frames pt.
Proof.
  intros [_ [Hh _ _] _ _]. unfold held_list. f_equal. induction Hh as [|ft l Hft Hl IH]; [done|].
  rewrite filter_cons, decide_True by done. by f_equal.
Qed.

Lemma as_ok_owns R s pt L : as_ok R s pt L → owns R s (held_list (frames pt) ++ L).
Proof.
  intros [Hpt Hnd Hown]. rewrite (held_pt R s pt Hpt). destruct Hpt as [Ha [_ Hn _] Hm Hd].
  assert (∀ p, p ∈ ft_ppn <$> frames pt ↔ p ∈ pt_frames pt) as Hin
    by (intros p; unfold pt_frames; by rewrite elem_of_list_to_set).
  split; [done| |].
  - apply NoDup_app. split_and!; [done| |done]. intros p Hp%Hin HpL. by destruct (Hown p HpL) as (_ & ? & _).
  - intros p [Hp%Hin|Hp]%elem_of_app; [set_solver|]. by destruct (Hown p Hp) as (? & _ & ?).
Qed.

(** Freeing data frames of an address space. *)
Lemma as_ok_release R s s' pt L1 L2 :
  as_ok R s pt (L1 ++ L2) → owns R s' (held_list (frames pt) ++ L2) → pmem s' = pmem s →
  fa_free (falloc s') = list_to_set L1 ∪ fa_free (falloc s) → as_ok R s' pt L2.
Proof.
  intros [Hpt Hnd Hown] [Ha Hnd' Hin] Hm Hf. rewrite (held_pt R s pt Hpt) in *.
  destruct Hpt as [_ Hinv Hman Hd]. split.
  - split; [done|by rewrite Hm|done|]. rewrite Hf.
    intros p Hp1 [Hp2|Hp2]%elem_of_union; [|set_solver].
    apply elem_of_list_to_set in Hp2. by destruct (Hown p) as (_ & ? & _); [set_solver|].
  - by apply NoDup_app in Hnd' as (_ & _ & ?).
  - intros p Hp. destruct (Hown p) as (? & ? & _); [set_solver|].
    destruct (Hin p) as [_ ?]; [set_solver|]. done.
Qed.

Lemma wp_frames_remove R fs vpn p pt L s (Q : gmap Z FrameTracker → Machine A → Prop) :
  as_ok R s pt (held fs ++ L) → fs !! vpn = Some (mkFrameTracker p true) →
  (∀ s', as_ok R s' pt (held (delete vpn fs) ++ L) → pmem s' = pmem s →
     p ∈ held fs → fa_free (falloc s') = {[p]} ∪ fa_free (falloc s) → Q (delete vpn fs) s') →
  wp (frames_remove fs vpn) Q s.
Proof.
  intros Hok Hfs HQ. pose proof (held_delete fs vpn _ Hfs) as Hheld. simpl in Hheld.
  rewrite Hheld in Hok. unfold frames_remove. rewrite Hfs. wp_step. unfold FrameTracker_drop. simpl.
  destruct (as_owned _ _ _ _ Hok p ltac:(set_solver)) as (HR & Hnp & Hnf).
  eapply wp_frame_dealloc; [apply Hok|done|done|]. intros fa' Hf Ha. wp_step.
  apply HQ; [|done|rewrite Hheld; set_solver|done].
  apply (as_ok_release R s _ pt [p]); [done| |done|simpl; rewrite Hf; set_solver].
  pose proof (as_ok_owns _ _ _ _ Hok) as [_ Hnd Hin]. rewrite <-app_comm_cons, <-Permutation_middle in Hnd.
  apply NoDup_cons in Hnd as [Hni Hnd]. split; [done|done|]. simpl. rewrite Hf. intros q Hq.
  destruct (Hin q ltac:(set_solver)). split; [done|].
  assert (q ≠ p) by (by intros ->). set_solver.
Qed.

(** Dropping the mapping of one page. *)
Lemma wp_PageTable_unmap_as R s pt L vpn (Q : unit → Machine A → Prop) :
  as_ok R s pt L → 0 ≤ vpn < 2 ^ 27 → is_Some (pt_view (pmem s) (root_ppn pt) vpn) →
  (∀ s', as_ok R s' pt L → as_grow s s' pt pt ∅ → falloc s' = falloc s →
     (∀ vpn', 0 ≤ vpn' < 2 ^ 27 →
        pt_view (pmem s') (root_ppn pt) vpn' =
          if decide (vpn' = vpn) then None else pt_view (pmem s) (root_ppn pt) vpn') →
     Q tt s') →
  wp (PageTable_unmap pt vpn) Q s.
Proof.
  intros [Hpt Hnd Hown] Hv Hm HQ. eapply wp_PageTable_unmap; [done..|].
  intros s' Hok' Hg Hfa Hview _. apply HQ; [|split|done|done].
  - split; [done|done|]. by rewrite Hfa.
  - done.
  - done.
  - rewrite Hfa. set_solver.
  - intros a Ha. apply Hg. set_solver.
Qed.

Definition without (fs : gmap Z FrameTracker) (vpns : list Z) : gmap Z FrameTracker :=
  foldl (fun fs vpn => delete vpn fs) fs vpns.

Lemma without_lookup fs vpns vpn :
  without fs vpns !! vpn = if decide (vpn ∈ vpns) then None else fs !! vpn.
Proof.
  revert fs. induction vpns as [|v vpns IH]; intros fs; simpl.
  - done.
  - rewrite IH, lookup_delete. repeat case_decide; set_solver.
Qed.

Lemma without_snoc fs vpns vpn : without fs (vpns ++ [vpn]) = delete vpn (without fs vpns).
Proof. unfold without. by rewrite foldl_app. Qed.

(** What has been released when the pages [vpns] of [fs] are gone. *)
Record unmapped R s0 pt L fs vpns s : Prop := {
  um_ok : as_ok R s pt (held (without fs vpns) ++ L);
  um_free : fa_free (falloc s) ∪ list_to_set (held (without fs vpns)) =
            fa_free (falloc s0) ∪ list_to_set (held fs);
  um_mem a : (∀ f, f ∈ pt_frames pt → ¬ same_page f a) → pmem s a = pmem s0 a;
  um_view vpn : 0 ≤ vpn < 2 ^ 27 →
    pt_view (pmem s) (root_ppn pt) vpn =
      if decide (vpn ∈ vpns) then None else pt_view (pmem s0) (root_ppn pt) vpn;
}.

Lemma unmapped_step R s0 pt L fs vpns s vpn p s1 s2 :
  unmapped R s0 pt L fs vpns s →
  without fs vpns !! vpn = Some (mkFrameTracker p true) →
  pmem s1 = pmem s → fa_free (falloc s1) = {[p]} ∪ fa_free (falloc s) →
  as_ok R s2 pt (held (delete vpn (without fs vpns)) ++ L) → as_grow s1 s2 pt pt ∅ →
  falloc s2 = falloc s1 →
  (∀ vpn', 0 ≤ vpn' < 2 ^ 27 →
     pt_view (pmem s2) (root_ppn pt) vpn' =
       if decide (vpn' = vpn) then None else pt_view (pmem s1) (root_ppn pt) vpn') →
  unmapped R s0 pt L fs (vpns ++ [vpn]) s2.
Proof.
  intros [Hok Hfree Hmem Hview] Hlk Hm1 Hf1 Hok2 Hg2 Hfa2 Hv2. split.
  - by rewrite without_snoc.
  - rewrite without_snoc, Hfa2, Hf1, <-Hfree.
    pose proof (held_delete _ _ _ Hlk) as Hheld. simpl in Hheld.
    apply set_eq. intros x. rewrite !elem_of_union, !elem_of_list_to_set, Hheld, elem_of_cons. set_solver.
  - intros a Ha. rewrite (ag_mem _ _ _ _ _ Hg2), Hm1; [by apply Hmem|set_solver].
  - intros vpn' Hvpn'. rewrite Hv2, Hm1, Hview by done. repeat case_decide; set_solver.
Qed.

Lemma wp_MapArea_unmap_framed R s pt L l r fs perm Q :
  as_ok R s pt (held fs ++ L) → 0 ≤ l ≤ r → r ≤ 2 ^ 27 →
  (∀ vpn, l ≤ vpn < r → (∃ p, fs !! vpn = Some (mkFrameTracker p true)) ∧
                        is_Some (pt_view (pmem s) (root_ppn pt) vpn)) →
  (∀ s', unmapped R s pt L fs (seqZ l (r - l)) s' →
     Q (mkMapArea (mkSimpleRange l r) (without fs (seqZ l (r - l))) Framed perm) s') →
  wp (MapArea_unmap (mkMapArea (mkSimpleRange l r) fs Framed perm) pt) Q s.
Proof.
  intros Hok Hl Hr Hin HQ. unfold MapArea_unmap. cbn [vpn_range]. apply wp_for_range; [done|lia|].
  eapply wp_mono; [apply (wp_st_fold _ (fun dn area s' => unmapped R s pt L fs dn s' ∧
      area = mkMapArea (mkSimpleRange l r) (without fs dn) Framed perm))|].
  - split; [|done]. split; [done|done|done|]. intros. by rewrite decide_False by set_solver.
  - intros dn vpn rest area s1 Hsplit [HI ->]. unfold unmap_one. cbn [map_type data_frames vpn_range map_perm].
    rewrite decide_True by done.
    assert (l ≤ vpn < r) as Hvpn.
    { cut (l ≤ vpn < l + (r - l)); [lia|]. apply elem_of_seqZ. rewrite Hsplit. set_solver. }
    assert (vpn ∉ dn) as Hni.
    { pose proof (NoDup_seqZ l (r - l)) as Hnd. rewrite Hsplit in Hnd.
      apply NoDup_app in Hnd as (_ & Hnd & _). set_solver. }
    destruct (Hin vpn Hvpn) as [(p & Hp) Hv].
    assert (without fs dn !! vpn = Some (mkFrameTracker p true)) as Hlk
      by by rewrite without_lookup, decide_False.
    wp_step. wp_step. eapply wp_frames_remove; [apply HI|done|]. intros s2 Hok2 Hm2 _ Hf2. wp_step. wp_step.
    eapply wp_PageTable_unmap_as; [done|lia| |].
    { rewrite Hm2, (um_view _ _ _ _ _ _ _ HI), decide_False by (done || lia). done. }
    intros s3 Hok3 Hg3 Hfa3 Hv3. wp_step. rewrite without_snoc. split; [|done].
    by eapply unmapped_step.
  - intros area s' [HI ->]. by apply HQ.
Qed.
End invariant.
