(* ===== verification/MemorySetSpec.v ===== *)
(** * Properties of the operations on address spaces

    [ms_ok] is the invariant of a [MemorySet]: its page table is well formed
    and it owns the frames of its page table, its areas, its heap and its
    [mmap] regions, all different and none of them free.  [added] describes
    what an operation that maps new user pages does. *)

From S2P Require Import Prelude Config Address PhysMem FrameAllocator PageTable UserMem MemorySet AddressSpace.

Section spec.
Context {A : Type} {FA : FrameAllocator A} {FS : FrameAllocatorSpec A}.
Implicit Types (R : gset Z) (s : Machine A) (ms : MemorySet) (G : gmap Z Z).

Definition areas_frames (l : list MapArea) : list Z := l ≫= (fun a => held (data_frames a)).
Definition ms_frames ms : list Z :=
  areas_frames (areas ms) ++ held (heap_area ms) ++ held (mmap_area ms).
Definition ms_ok R s ms : Prop := as_ok R s (page_table ms) (ms_frames ms).
Definition ms_view s ms (vpn : Z) : option Z := pt_view (pmem s) (root_ppn (page_table ms)) vpn.

(** New pages [G] with [flags]: mapped to frames that were free, all
    different and cleared; nothing else changes. *)
Record added s s' ms ms' G (flags : Z) : Prop := {
  add_view vpn : 0 ≤ vpn < 2 ^ 27 →
    ms_view s' ms' vpn =
      match G !! vpn with
      | Some p => Some (PTE_new p (Z.lor flags PTE_V))
      | None => ms_view s ms vpn
      end;
  add_fresh vpn p : G !! vpn = Some p → p ∈ fa_free (falloc s) ∧ page_zero (pmem s') p;
  add_inj v1 v2 p : G !! v1 = Some p → G !! v2 = Some p → v1 = v2;
  add_keep p a : p ∉ fa_free (falloc s) → p ∉ pt_frames (page_table ms) → same_page p a →
    pmem s' a = pmem s a;
}.

Lemma fresh_added R s ms fs0 flags G s' pt' fs' ms' L :
  fresh_inv R s (page_table ms) L fs0 flags G s' pt' fs' → page_table ms' = pt' →
  added s s' ms ms' G flags.
Proof.
  intros HI Hpt. pose proof (fi_grow _ _ _ _ _ _ _ _ _ _ HI) as Hg. split.
  - intros vpn Hvpn. unfold ms_view. rewrite Hpt. by apply (fi_view _ _ _ _ _ _ _ _ _ _ HI).
  - intros vpn p Hp. split; [|by apply (fi_zero _ _ _ _ _ _ _ _ _ _ HI vpn)].
    rewrite (ag_free _ _ _ _ _ Hg). apply elem_of_union. left. apply elem_of_union. right.
    apply elem_of_list_to_set, list_elem_of_fmap. exists (vpn, p). split; [done|].
    by apply elem_of_map_to_list.
  - intros v1 v2 p H1 H2. pose proof (as_nodup _ _ _ _ (fi_ok _ _ _ _ _ _ _ _ _ _ HI)) as Hnd.
    apply NoDup_app in Hnd as (Hnd & _). apply elem_of_map_to_list in H1, H2.
    apply list_elem_of_lookup in H1 as [i1 H1], H2 as [i2 H2].
    assert (i1 = i2) as ->.
    { eapply NoDup_lookup; [done| |]; rewrite list_lookup_fmap; [by rewrite H1|by rewrite H2]. }
    congruence.
  - intros p a. by eapply as_grow_frame.
Qed.

Lemma areas_frames_snoc l a : areas_frames (l ++ [a]) = areas_frames l ++ held (data_frames a).
Proof. unfold areas_frames. rewrite bind_app. simpl. by rewrite app_nil_r. Qed.

(** [push] of an area without data. *)
Lemma wp_push_framed R s ms l r perm Q :
  ms_ok R s ms → 0 ≤ perm < 2 ^ 8 → 0 ≤ l ≤ r → r ≤ 2 ^ 27 →
  (∀ vpn, l ≤ vpn < r → ms_view s ms vpn = None) →
  3 * (r - l) ≤ Z.of_nat (size (fa_free (falloc s))) →
  (∀ G s' ms' fs', dom G = list_to_set (seqZ l (r - l)) → ms_ok R s' ms' →
     fs' = (fun p => mkFrameTracker p true) <$> G →
     areas ms' = areas ms ++ [mkMapArea (mkSimpleRange l r) fs' Framed perm] →
     heap_area ms' = heap_area ms → mmap_area ms' = mmap_area ms → mmap_end ms' = mmap_end ms →
     as_grow s s' (page_table ms) (page_table ms') (list_to_set (map_to_list G).*2) →
     (size (fa_free (falloc s)) ≤ size (fa_free (falloc s')) + 3 * size G)%nat →
     added s s' ms ms' G perm → Q ms' s') →
  wp (push ms (mkMapArea (mkSimpleRange l r) ∅ Framed perm) None) Q s.
Proof.
  intros Hok Hp Hl Hr Hnone Hsz HQ. unfold push. wp_step.
  eapply wp_MapArea_map_framed; [done|done|done|done|done|done|].
  intros G s' pt' fs' HG HI. wp_step. wp_step. wp_step.
  pose proof (fi_frames _ _ _ _ _ _ _ _ _ _ HI) as Hfs. rewrite (right_id_L ∅ (∪)) in Hfs.
  eapply HQ; try done; [|by apply HI|by apply HI|by eapply fresh_added].
  unfold ms_ok, ms_frames. cbn [page_table areas heap_area mmap_area]. unfold vec_push.
  rewrite areas_frames_snoc. cbn [data_frames]. pose proof (fi_ok _ _ _ _ _ _ _ _ _ _ HI) as HokI.
  assert (held fs' ≡ₚ (map_to_list G).*2) as Hheld.
  { pose proof (held_fresh G ∅) as Hh. rewrite (right_id_L ∅ (∪)), <-Hfs in Hh.
    rewrite Hh by (intros; apply lookup_empty). unfold held. rewrite map_to_list_empty. by rewrite app_nil_r. }
  rewrite (Permutation_app_comm (areas_frames (areas ms))), <-app_assoc, Hheld. exact HokI.
Qed.

Lemma list_find_middle {B} (P : B → Prop) `{∀ x, Decision (P x)} pre x post :
  Forall (fun y => ¬ P y) pre → P x → list_find P (pre ++ x :: post) = Some (length pre, x).
Proof.
  intros Hpre Hx. rewrite list_find_app_r by by apply list_find_None. simpl.
  rewrite decide_True by done. simpl. done.
Qed.

Lemma btree_iter_empty {V} : btree_iter (∅ : gmap Z V) = [].
Proof. unfold btree_iter. by rewrite map_to_list_empty. Qed.

Lemma ms_frames_middle pre a post hp mm pt b e :
  ms_frames (mkMemorySet pt (pre ++ a :: post) hp mm b e) ≡ₚ
    held (data_frames a) ++ ms_frames (mkMemorySet pt (pre ++ post) hp mm b e).
Proof.
  unfold ms_frames, areas_frames. cbn [areas heap_area mmap_area].
  rewrite !bind_app, bind_cons. rewrite !app_assoc.
  by rewrite (Permutation_app_comm (mbind _ pre) (held _)), <-!app_assoc.
Qed.

(** [remove_area_with_start_vpn] for a [Framed] area with all its frames. *)
Lemma wp_remove_area R s ms pre post l r fs perm Q :
  ms_ok R s ms → areas ms = pre ++ mkMapArea (mkSimpleRange l r) fs Framed perm :: post →
  Forall (fun a => get_start (vpn_range a) ≠ l) pre → 0 ≤ l ≤ r → r ≤ 2 ^ 27 →
  dom fs = list_to_set (seqZ l (r - l)) →
  (∀ vpn, l ≤ vpn < r → (∃ p, fs !! vpn = Some (mkFrameTracker p true)) ∧ is_Some (ms_view s ms vpn)) →
  (∀ s' ms', ms_ok R s' ms' → areas ms' = pre ++ post → page_table ms' = page_table ms →
     fa_free (falloc s') = fa_free (falloc s) ∪ list_to_set (held fs) →
     (∀ a, (∀ f, f ∈ pt_frames (page_table ms) → ¬ same_page f a) → pmem s' a = pmem s a) →
     (∀ vpn, 0 ≤ vpn < 2 ^ 27 →
        ms_view s' ms' vpn = if decide (l ≤ vpn < r) then None else ms_view s ms vpn) →
     Q ms' s') →
  wp (remove_area_with_start_vpn ms l) Q s.
Proof.
  intros Hok Har Hpre Hl Hr Hdom Hin HQ. destruct ms as [pt ars hp mm b e].
  cbn [areas page_table] in *. subst ars. unfold ms_ok in Hok. rewrite ms_frames_middle in Hok.
  unfold remove_area_with_start_vpn. cbn [areas page_table heap_area mmap_area mmap_base mmap_end].
  rewrite list_find_middle by done. wp_step.
  eapply wp_MapArea_unmap_framed; [done|done|done|done|].
  intros s' [Hok' Hfree Hmem Hview].
  assert (without fs (seqZ l (r - l)) = ∅) as Hempty.
  { apply map_eq. intros vpn. rewrite without_lookup, lookup_empty. case_decide as Hd; [done|].
    apply not_elem_of_dom. by rewrite Hdom, elem_of_list_to_set. }
  rewrite Hempty in *. assert (held (∅ : gmap Z FrameTracker) = []) as Hh0
    by (unfold held; by rewrite map_to_list_empty). rewrite Hh0 in *. cbn [data_frames].
  unfold frames_drop. rewrite btree_iter_empty. wp_step. cbn [st_fold]. wp_step. wp_step.
  replace (take (length pre) (pre ++ _) ++ _) with (pre ++ post).
  2:{ rewrite take_app_length. f_equal. change (mkMapArea (mkSimpleRange l r) fs Framed perm :: post)
        with ([mkMapArea (mkSimpleRange l r) fs Framed perm] ++ post).
      rewrite app_assoc. rewrite drop_app_length'; [done|]. rewrite length_app. simpl. lia. }
  apply HQ; try done.
  - rewrite <-Hfree. set_solver.
  - intros vpn Hvpn. unfold ms_view. cbn [page_table]. rewrite Hview by done.
    destruct (decide (vpn ∈ seqZ l (r - l))) as [Hi|Hi], (decide (l ≤ vpn < r)) as [Hj|Hj]; try done;
      rewrite elem_of_seqZ in Hi; lia.
Qed.

(** [new_bare] *)
Lemma wp_new_bare R s Q :
  fa_inv R (falloc s) → fa_free (falloc s) ≠ ∅ →
  (∀ s' ms, ms_ok R s' ms → ms_frames ms = [] → areas ms = [] → heap_area ms = ∅ → mmap_area ms = ∅ →
     mmap_end ms = VirtAddr_from_usize MMAP_BASE →
     pt_frames (page_table ms) = {[root_ppn (page_table ms)]} →
     root_ppn (page_table ms) ∈ fa_free (falloc s) →
     fa_free (falloc s') = fa_free (falloc s) ∖ {[root_ppn (page_table ms)]} →
     (∀ a, ¬ same_page (root_ppn (page_table ms)) a → pmem s' a = pmem s a) →
     (∀ vpn, 0 ≤ vpn < 2 ^ 27 → ms_view s' ms vpn = None) → Q ms s') →
  wp new_bare Q s.
Proof.
  intros Hinv Hne HQ. unfold new_bare. wp_step. eapply (wp_PageTable_new R); [done|done|].
  intros s' pt Hok Hroot Hfr Hfree Hmem Hview. wp_step.
  assert (ms_frames (mkMemorySet pt [] ∅ ∅ (VirtAddr_from_usize MMAP_BASE)
            (VirtAddr_from_usize MMAP_BASE)) = []) as Hnil.
  { unfold ms_frames, held. cbn [areas heap_area mmap_area]. by rewrite map_to_list_empty. }
  apply HQ; try done. split; [done|rewrite Hnil; constructor|]. rewrite Hnil. set_solver.
Qed.

Lemma wp_insert_framed_area R s ms start_va end_va perm Q :
  let l := start_va / 4096 in
  let r := (end_va + 4095) / 4096 in
  ms_ok R s ms → 0 ≤ perm < 2 ^ 8 → 0 ≤ start_va ≤ end_va → end_va ≤ 2 ^ 39 →
  (∀ vpn, l ≤ vpn < r → ms_view s ms vpn = None) →
  3 * (r - l) ≤ Z.of_nat (size (fa_free (falloc s))) →
  (∀ G s' ms', dom G = list_to_set (seqZ l (r - l)) → ms_ok R s' ms' →
     areas ms' = areas ms ++
       [mkMapArea (mkSimpleRange l r) ((fun p => mkFrameTracker p true) <$> G) Framed perm] →
     as_grow s s' (page_table ms) (page_table ms') (list_to_set (map_to_list G).*2) →
     added s s' ms ms' G perm → Q ms' s') →
  0 ≤ l ≤ r ∧ r ≤ 2 ^ 27 ∧ wp (insert_framed_area ms start_va end_va perm) Q s.
Proof.
  intros l r Hok Hp Hva Hend Hnone Hsz HQ.
  assert (0 ≤ l ≤ r) as Hlr by (split; [apply Z.div_pos; lia|apply Z.div_le_mono; lia]).
  assert (r ≤ 2 ^ 27) as Hr.
  { cut (r < 2 ^ 27 + 1); [lia|]. unfold r. apply Z.div_lt_upper_bound; lia. }
  split_and!; [lia|lia|done|]. unfold insert_framed_area, MapArea_new, SimpleRange_new.
  rewrite ceil_div by lia. change (floor start_va) with l. do 3 wp_step.
  wp_step; [apply Z.leb_le; lia|]. wp_step. wp_step.
  eapply (wp_push_framed R); try done. intros G s' ms' fs' HG Hok' -> Har _ _ _ Hg _ Hadd. by eapply HQ.
Qed.

(** ** Properties *)

(** C35: [insert_framed_area] on an unmapped range maps every page of the range,
    each to a frame of its own that was free and is zeroed, with the permissions
    asked for; the other translations and the contents of the frames in use do not
    change, and the invariant of the address space is kept. *)
Theorem insert_framed_area_correct R s ms start_va end_va perm :
  let l := start_va / 4096 in
  let r := (end_va + 4095) / 4096 in
  ms_ok R s ms → 0 ≤ perm < 2 ^ 8 → 0 ≤ start_va ≤ end_va → end_va ≤ 2 ^ 39 →
  (∀ vpn, l ≤ vpn < r → ms_view s ms vpn = None) →
  3 * (r - l) ≤ Z.of_nat (size (fa_free (falloc s))) →
  ∃ ms' s' G, insert_framed_area ms start_va end_va perm s = Ok (ms', s') ∧
    ms_ok R s' ms' ∧ dom G = list_to_set (seqZ l (r - l)) ∧ added s s' ms ms' G perm ∧
    areas ms' = areas ms ++
      [mkMapArea (mkSimpleRange l r) ((fun p => mkFrameTracker p true) <$> G) Framed perm].
Proof.
  intros l r Hok Hp Hva Hend Hnone Hsz.
  destruct (wp_insert_framed_area R s ms start_va end_va perm (fun ms' s' => ∃ G,
    ms_ok R s' ms' ∧ dom G = list_to_set (seqZ l (r - l)) ∧ added s s' ms ms' G perm ∧
    areas ms' = areas ms ++
      [mkMapArea (mkSimpleRange l r) ((fun p => mkFrameTracker p true) <$> G) Framed perm])
    Hok Hp Hva Hend Hnone Hsz) as (_ & _ & H).
  { intros G s' ms' HG Hok' Har _ Hadd. by exists G. }
  apply wp_elim in H as (ms' & s' & Hrun & G & HG). by exists ms', s', G.
Qed.

(** C36: dropping an address space returns every frame that it owns, the page
    table's frames and the data frames, to the allocator, each exactly once and
    without touching memory. *)
Theorem memory_set_drop_returns_all R s ms :
  ms_ok R s ms →
  ∃ s', MemorySet_drop ms s = Ok (tt, s') ∧ pmem s' = pmem s ∧ fa_inv R (falloc s') ∧
    fa_free (falloc s') =
      fa_free (falloc s) ∪ pt_frames (page_table ms) ∪ list_to_set (ms_frames ms).
Proof.
  intros Hok. pose proof (as_ok_owns _ _ _ _ Hok) as Hown.
  assert (∀ l L s0 (Q : unit → Machine A → Prop), owns R s0 (areas_frames l ++ L) →
    (∀ s', owns R s' L → pmem s' = pmem s0 →
       fa_free (falloc s') = list_to_set (areas_frames l) ∪ fa_free (falloc s0) → Q tt s') →
    wp (st_fold (fun _ area => frames_drop (data_frames area)) tt l) Q s0) as Hareas.
  { induction l as [|a l IH]; intros L s0 Q Ho HQ; simpl.
    - wp_step. apply HQ; [done|done|]. set_solver.
    - wp_step. unfold areas_frames in Ho, HQ. rewrite bind_cons in Ho, HQ. rewrite <-app_assoc in Ho.
      eapply wp_frames_drop; [done|]. intros s1 Ho1 Hm1 Hf1. eapply IH; [done|].
      intros s2 Ho2 Hm2 Hf2. apply HQ; [done|congruence|]. rewrite Hf2, Hf1, list_to_set_app_L.
      unfold areas_frames. set_solver. }
  assert (wp (MemorySet_drop ms) (fun _ s' => pmem s' = pmem s ∧ fa_inv R (falloc s') ∧
    fa_free (falloc s') =
      fa_free (falloc s) ∪ pt_frames (page_table ms) ∪ list_to_set (ms_frames ms)) s) as H.
  { unfold MemorySet_drop. wp_step. eapply wp_drop_list; [done|]. intros s1 Ho1 Hm1 Hf1.
    wp_step. unfold ms_frames in Ho1. eapply Hareas; [done|]. intros s2 Ho2 Hm2 Hf2.
    wp_step. eapply wp_frames_drop; [done|]. intros s3 Ho3 Hm3 Hf3.
    rewrite <-(app_nil_r (held (mmap_area ms))) in Ho3.
    eapply wp_frames_drop; [done|]. intros s4 Ho4 Hm4 Hf4.
    split_and!; [congruence|apply Ho4|]. rewrite Hf4, Hf3, Hf2, Hf1.
    rewrite (held_pt R s) by apply Hok. unfold ms_frames, pt_frames. rewrite !list_to_set_app_L. set_solver. }
  apply wp_elim in H as ([] & s' & Hrun & HP). by exists s'.
Qed.

(** [remove_area_with_start_vpn] undoes [insert_framed_area]: the areas, the
    translations and the contents of the frames in use are as before, and all data
    frames are free again; only frames of page-table nodes stay allocated. *)
Theorem insert_remove_area_roundtrip R s ms start_va end_va perm :
  let l := start_va / 4096 in
  let r := (end_va + 4095) / 4096 in
  ms_ok R s ms → 0 ≤ perm < 2 ^ 8 → 0 ≤ start_va ≤ end_va → end_va ≤ 2 ^ 39 →
  (∀ vpn, l ≤ vpn < r → ms_view s ms vpn = None) →
  3 * (r - l) ≤ Z.of_nat (size (fa_free (falloc s))) →
  Forall (fun a => get_start (vpn_range a) ≠ l) (areas ms) →
  ∃ ms1 s1 ms2 s2, insert_framed_area ms start_va end_va perm s = Ok (ms1, s1) ∧
    remove_area_with_start_vpn ms1 l s1 = Ok (ms2, s2) ∧
    ms_ok R s2 ms2 ∧ areas ms2 = areas ms ∧
    (∀ vpn, 0 ≤ vpn < 2 ^ 27 → ms_view s2 ms2 vpn = ms_view s ms vpn) ∧
    fa_free (falloc s) = fa_free (falloc s2) ∪
      (pt_frames (page_table ms2) ∖ pt_frames (page_table ms)) ∧
    (∀ p a, p ∈ ms_frames ms → same_page p a → pmem s2 a = pmem s a).
Proof.
  intros l r Hok Hp Hva Hend Hnone Hsz Hareas.
  destruct (wp_insert_framed_area R s ms start_va end_va perm (fun ms1 s1 => ∃ G,
    dom G = list_to_set (seqZ l (r - l)) ∧ ms_ok R s1 ms1 ∧
    areas ms1 = areas ms ++
       [mkMapArea (mkSimpleRange l r) ((fun p => mkFrameTracker p true) <$> G) Framed perm] ∧
    as_grow s s1 (page_table ms) (page_table ms1) (list_to_set (map_to_list G).*2) ∧
    added s s1 ms ms1 G perm) Hok Hp Hva Hend Hnone Hsz) as (Hl & Hr & H); [by eauto 10|].
  apply wp_elim in H as (ms1 & s1 & Hrun & G & HG & Hok1 & Har & Hg & Hadd).
  assert (∀ vpn, l ≤ vpn < r ↔ is_Some (G !! vpn)) as HGin.
  { intros vpn. rewrite <-elem_of_dom, HG, elem_of_list_to_set, elem_of_seqZ. lia. }
  assert (held ((fun p => mkFrameTracker p true) <$> G) ≡ₚ (map_to_list G).*2) as Hheld.
  { pose proof (held_fresh G ∅) as Hh. rewrite (right_id_L ∅ (∪)) in Hh.
    rewrite Hh by (intros; apply lookup_empty). unfold held. by rewrite map_to_list_empty, app_nil_r. }
  assert (wp (remove_area_with_start_vpn ms1 l) (fun ms2 s2 =>
    ms_ok R s2 ms2 ∧ areas ms2 = areas ms ∧
    (∀ vpn, 0 ≤ vpn < 2 ^ 27 → ms_view s2 ms2 vpn = ms_view s ms vpn) ∧
    fa_free (falloc s) = fa_free (falloc s2) ∪
      (pt_frames (page_table ms2) ∖ pt_frames (page_table ms)) ∧
    (∀ p a, p ∈ ms_frames ms → same_page p a → pmem s2 a = pmem s a)) s1) as H.
  { eapply (wp_remove_area R s1 ms1 (areas ms) []); [done|done|done|done|done|by rewrite dom_fmap_L| |].
    - intros vpn Hvpn. destruct (proj1 (HGin vpn) Hvpn) as [p Hp']. rewrite lookup_fmap, Hp'.
      split; [by exists p|]. rewrite (add_view _ _ _ _ _ _ Hadd), Hp' by lia. done.
    - intros s2 ms2 Hok2 Har2 Hpt2 Hfree2 Hmem2 Hview2. rewrite app_nil_r in Har2. split_and!; [done|done| | |].
      + intros vpn Hvpn. rewrite Hview2, (add_view _ _ _ _ _ _ Hadd) by done. case_decide as Hd.
        * by rewrite Hnone.
        * destruct (G !! vpn) eqn:E; [|done]. exfalso. apply Hd, HGin. by rewrite E.
      + rewrite Hfree2, Hpt2, (ag_free _ _ _ _ _ Hg). apply set_eq. intros x.
        rewrite !elem_of_union, !elem_of_list_to_set, Hheld. done.
      + intros p a Hin Ha. rewrite Hmem2.
        * by eapply as_grow_old.
        * intros f Hf Hfa. pose proof (same_page_inj _ _ _ Ha Hfa) as <-.
          destruct (as_owned _ _ _ _ Hok p Hin) as (_ & Hnp & Hnf).
          rewrite (ag_free _ _ _ _ _ Hg) in Hnf. set_solver. }
  apply wp_elim in H as (ms2 & s2 & Hrun2 & H). by exists ms1, s1, ms2, s2.
Qed.
End spec.

(** ** Witnesses: an empty address space on the sample machine *)

Lemma sample_bare :
  ∃ ms s, new_bare sample_machine = Ok (ms, s) ∧ ms_ok sample_frames s ms ∧ areas ms = [] ∧
    heap_area ms = ∅ ∧ mmap_area ms = ∅ ∧ mmap_end ms = MMAP_BASE ∧
    (∀ vpn, 0 ≤ vpn < 2 ^ 27 → ms_view s ms vpn = None) ∧ (15 ≤ size (fa_free (falloc s)))%nat.
Proof.
  apply wp_elim. eapply (wp_new_bare sample_frames); [apply sample_inv|apply sample_free_nonempty|].
  intros s ms Hok _ Har Hhp Hmm He _ Hroot Hfree _ Hview. split_and!; try done.
  rewrite Hfree, size_difference, size_singleton by set_solver. pose proof sample_free_size. lia.
Qed.

Lemma insert_framed_area_correct_witness :
  ∃ ms s ms' s' G, ms_ok sample_frames s ms ∧
    insert_framed_area ms 0x10100 0x12000 MapPermission_R s = Ok (ms', s') ∧
    ms_ok sample_frames s' ms' ∧ dom G = list_to_set (seqZ 0x10 2) ∧
    added s s' ms ms' G MapPermission_R.
Proof.
  destruct sample_bare as (ms & s & _ & Hok & _ & _ & _ & _ & Hview & Hsz).
  destruct (insert_framed_area_correct sample_frames s ms 0x10100 0x12000 MapPermission_R)
    as (ms' & s' & G & Hrun & Hok' & HG & Hadd & _); [done|done|lia|lia| | |].
  - intros vpn Hvpn. apply Hview. Z.to_euclidean_division_equations; lia.
  - change (3 * ((0x12000 + 4095) / 4096 - 0x10100 / 4096)) with 6. lia.
  - by exists ms, s, ms', s', G.
Defined.

Lemma memory_set_drop_returns_all_witness :
  ∃ ms s s', ms_ok sample_frames s ms ∧ MemorySet_drop ms s = Ok (tt, s') ∧
    fa_inv sample_frames (falloc s').
Proof.
  destruct sample_bare as (ms & s & _ & Hok & _).
  destruct (memory_set_drop_returns_all sample_frames s ms Hok) as (s' & Hrun & _ & Hinv & _).
  by exists ms, s, s'.
Defined.

Lemma insert_remove_area_roundtrip_witness :
  ∃ ms s ms1 s1 ms2 s2, ms_ok sample_frames s ms ∧
    insert_framed_area ms 0x10100 0x12000 MapPermission_R s = Ok (ms1, s1) ∧
    remove_area_with_start_vpn ms1 0x10 s1 = Ok (ms2, s2) ∧ areas ms2 = areas ms.
Proof.
  destruct sample_bare as (ms & s & _ & Hok & Har & _ & _ & _ & Hview & Hsz).
  destruct (insert_remove_area_roundtrip sample_frames s ms 0x10100 0x12000 MapPermission_R)
    as (ms1 & s1 & ms2 & s2 & H1 & H2 & _ & Har2 & _); [done|done|lia|lia| | | |].
  - intros vpn Hvpn. apply Hview. Z.to_euclidean_division_equations; lia.
  - change (3 * ((0x12000 + 4095) / 4096 - 0x10100 / 4096)) with 6. lia.
  - rewrite Har. apply Forall_nil_2.
  - by exists ms, s, ms1, s1, ms2, s2.
Defined.
