(* ===== verification/UserMaps.v ===== *)
(** * Heap, [mmap], [munmap] and [mprotect]

    Properties of the operations of [MemorySet] that change the mappings of a
    running process. *)

From S2P Require Import Prelude Config Address PhysMem FrameAllocator.
From S2P Require Import PageTable UserMem MemorySet AddressSpace MemorySetSpec.

(** The permissions of the pages [mmap] and [map_heap] add. *)
Definition MMAP_FLAGS : Z := Z.lor (Z.lor (Z.lor PTE_R PTE_W) PTE_U) PTE_X.
Definition HEAP_FLAGS : Z := Z.lor (Z.lor PTE_U PTE_R) PTE_W.

Lemma align_up_eq a : 0 ≤ a → a + 4096 ≤ 2 ^ 64 → align_up a = (a + 4095) / 4096 * 4096.
Proof.
  intros Ha Hb. unfold align_up, PAGE_SIZE.
  assert (a ⊞ 4096 ⊟ 1 = a + 4095) as ->.
  { unfold wrap64. rewrite Zminus_mod_idemp_l. rewrite Z.mod_small by lia. lia. }
  change (4096 - 1) with (2 ^ 12 - 1). rewrite land_not_mask by (unfold is_usize; lia).
  change (2 ^ 12) with 4096. pose proof (Z.div_mod (a + 4095) 4096). lia.
Qed.

(** A page boundary below the user limit survives the conversions. *)
Lemma floor_page n : 0 ≤ n < 2 ^ 27 → floor (VirtAddr_from_usize (n * 4096)) = n.
Proof.
  intros Hn. rewrite VirtAddr_from_usize_mod, Z.mod_small by lia. unfold floor, PAGE_SIZE.
  by rewrite Z.div_mul.
Qed.

Section maps.
Context {A : Type} {FA : FrameAllocator A} {FS : FrameAllocatorSpec A}.
Implicit Types (R : gset Z) (s : Machine A) (ms : MemorySet) (G : gmap Z Z).

Lemma mmap_page_adds_fresh R s0 pt0 L0 fs0 ars hp b e :
  adds_fresh R s0 pt0 L0 fs0 MMAP_FLAGS (fun pt fs => mkMemorySet pt ars hp fs b e) mmap_page.
Proof.
  intros G s pt fs vpn Q HI HG Hfs Hv Hnone Hsz HQ. unfold mmap_page.
  cbn [page_table areas heap_area mmap_area mmap_base mmap_end]. wp_step.
  eapply wp_frame_alloc_as; [apply HI|by apply fresh_free_nonempty|].
  intros p s1 Hok1 Hp Hpf Hg1 Hz1 Hs1 Hv1. wp_step. wp_step; [done|]. wp_step. unfold frames_insert.
  erewrite fresh_lookup by done. wp_step. wp_step. wp_step. wp_step.
  eapply wp_PageTable_map_as; [done|done|done|done|lia| |].
  { rewrite Hv1, (fi_view _ _ _ _ _ _ _ _ _ _ HI), HG by done. done. }
  intros s2 pt2 Hok2 Hg2 Hs2 Hv2. wp_step. apply HQ. by eapply fresh_step.
Qed.

Lemma ms_frames_mmap ms : ms_frames ms ≡ₚ held (mmap_area ms) ++ areas_frames (areas ms) ++ held (heap_area ms).
Proof. unfold ms_frames. by rewrite app_assoc, Permutation_app_comm. Qed.

Lemma ms_frames_heap ms : ms_frames ms ≡ₚ held (heap_area ms) ++ areas_frames (areas ms) ++ held (mmap_area ms).
Proof. unfold ms_frames. by rewrite !app_assoc, (Permutation_app_comm (areas_frames _)). Qed.

(** Frames added to a container next to the frames [L] of the others. *)
Lemma fresh_inv_close R s pt fs0 L flags G s' pt' fs' :
  fresh_inv R s pt (held fs0 ++ L) fs0 flags G s' pt' fs' →
  (∀ vpn, is_Some (G !! vpn) → fs0 !! vpn = None) → as_ok R s' pt' (held fs' ++ L).
Proof.
  intros HI Hd. rewrite (fi_frames _ _ _ _ _ _ _ _ _ _ HI), held_fresh by done.
  rewrite <-app_assoc. apply HI.
Qed.

Section mmap.
Context (R : gset Z) (s : Machine A) (ms : MemorySet) (len : Z).
Let l := (mmap_end ms + 4095) / 4096.
Let r := (mmap_end ms + len + 4095) / 4096.
Hypothesis Hok : ms_ok R s ms.
Hypothesis He : 0 ≤ mmap_end ms.
Hypothesis Hlen : 0 ≤ len.
Hypothesis Hend : mmap_end ms + len + 8192 ≤ 2 ^ 38.
Hypothesis Hnew : ∀ vpn, l ≤ vpn < r → ms_view s ms vpn = None ∧ mmap_area ms !! vpn = None.
Hypothesis Hsz : 3 * (r - l) ≤ Z.of_nat (size (fa_free (falloc s))).

Definition mmap_done s' ms' G : Prop :=
  ms_ok R s' ms' ∧ dom G = list_to_set (seqZ l (r - l)) ∧ added s s' ms ms' G MMAP_FLAGS ∧
  mmap_area ms' = ((fun p => mkFrameTracker p true) <$> G) ∪ mmap_area ms ∧
  mmap_end ms' = (r + 1) * 4096.

(** The pages of a request without [MAP_FIXED], before any content is
    written. *)
Lemma mmap_pages start offset context flags :
  flags_contains flags MAP_FIXED = false →
  ∃ ms' s' G, mmap_done s' ms' G ∧
    mmap ms start len offset context flags s =
      ((if negb (flags_contains flags MAP_ANONYMOUS) then
          mmap_write_loop (Z.to_nat (len / 4096 + 2)) (page_table ms') context len offset l
        else mret tt);; mret (ms', l * 4096)) s'.
Proof.
  intros Hfix.
  assert (0 ≤ l) as Hl0 by (apply Z.div_pos; lia).
  assert (l ≤ r) as Hlr by (apply Z.div_le_mono; lia).
  assert (r * 4096 ≤ mmap_end ms + len + 4095) as Hr
    by (unfold r; pose proof (Z.mul_div_le (mmap_end ms + len + 4095) 4096); lia).
  pose proof Hok as Hok'. unfold ms_ok in Hok'. rewrite ms_frames_mmap in Hok'.
  set (ms0 := mkMemorySet (page_table ms) (areas ms) (heap_area ms) (mmap_area ms) (mmap_base ms) ((r + 1) * 4096)).
  assert (wp (for_range (mkSimpleRange l r) mmap_page ms0) (fun ms' s' => ∃ G, mmap_done s' ms' G) s) as H.
  { apply wp_for_range; [lia|lia|].
    eapply (wp_fresh_loop R s (page_table ms) _ (mmap_area ms) MMAP_FLAGS ltac:(done)
      (fun pt fs => mkMemorySet pt (areas ms) (heap_area ms) fs (mmap_base ms) ((r + 1) * 4096)));
      [apply mmap_page_adds_fresh|done|lia|lia|lia|intros; apply Hnew; lia|done|].
    intros G s' pt' fs' HG HI. exists G.
    split_and!; [unfold ms_ok; rewrite ms_frames_mmap|done|by eapply fresh_added|apply HI|done].
    eapply fresh_inv_close; [done|]. intros vpn Hvpn. apply Hnew.
    apply elem_of_dom in Hvpn. rewrite HG, elem_of_list_to_set, elem_of_seqZ in Hvpn. lia. }
  apply wp_elim in H as (ms' & s' & Hrun & G & HG). exists ms', s', G. split; [done|].
  unfold mmap. rewrite Hfix. cbn [andb negb].
  rewrite (wrap64_small (mmap_end ms + len)), !align_up_eq by (unfold is_usize; lia).
  fold l r. rewrite !floor_page by lia.
  rewrite (wrap64_small (_ + PAGE_SIZE)) by (unfold is_usize, PAGE_SIZE; lia).
  rewrite (VirtAddr_from_usize_mod (_ + _)), Z.mod_small by (unfold PAGE_SIZE; lia).
  replace (r * 4096 + PAGE_SIZE) with ((r + 1) * 4096) by (unfold PAGE_SIZE; lia).
  assert (as_isize (l * 4096) = l * 4096) as ->
    by (unfold as_isize; destruct (Z.ltb_spec (l * 4096) (2 ^ 63)); lia).
  unfold SimpleRange_new. rewrite (proj2 (Z.leb_le l r)) by done. simpl rust_assert.
  fold ms0. cbn [get_start]. unfold mbind, st_bind. unfold mret at 1 2, st_ret at 1 2.
  change (for_range _ _ ms0 s) with (for_range (mkSimpleRange l r) mmap_page ms0 s). by rewrite Hrun.
Qed.
End mmap.

(** An anonymous [mmap] returns the rounded end of the previous mappings and
    maps all pages of the request there, each to a zeroed frame of its own,
    readable, writable and executable; nothing else changes, and the next mapping
    starts a page later. *)
Theorem mmap_anonymous_correct R s ms start len offset context flags :
  let l := (mmap_end ms + 4095) / 4096 in
  let r := (mmap_end ms + len + 4095) / 4096 in
  ms_ok R s ms → flags_contains flags MAP_FIXED = false → flags_contains flags MAP_ANONYMOUS = true →
  0 ≤ mmap_end ms → 0 ≤ len → mmap_end ms + len + 8192 ≤ 2 ^ 38 →
  (∀ vpn, l ≤ vpn < r → ms_view s ms vpn = None ∧ mmap_area ms !! vpn = None) →
  3 * (r - l) ≤ Z.of_nat (size (fa_free (falloc s))) →
  ∃ ms' s' G, mmap ms start len offset context flags s = Ok ((ms', l * 4096), s') ∧
    ms_ok R s' ms' ∧ dom G = list_to_set (seqZ l (r - l)) ∧ added s s' ms ms' G MMAP_FLAGS ∧
    mmap_area ms' = ((fun p => mkFrameTracker p true) <$> G) ∪ mmap_area ms ∧
    mmap_end ms' = (r + 1) * 4096.
Proof.
  intros l r Hok Hfix Hanon He Hlen Hend Hnew Hsz.
  destruct (mmap_pages R s ms len Hok He Hlen Hend Hnew Hsz start offset context flags Hfix)
    as (ms' & s' & G & HG & Hrun).
  exists ms', s', G. split; [|done]. by rewrite Hrun, Hanon.
Qed.

(** Mapping the end of a file panics the kernel.  [mmap] copies
    [context[offset .. min(len, offset + PAGE_SIZE)]], although [len] counts from
    [offset], so whenever the offset is larger than the number of bytes to map the
    slice has its bounds reversed. *)
Theorem mmap_file_offset_beyond_len R s ms start len offset context flags :
  let l := (mmap_end ms + 4095) / 4096 in
  let r := (mmap_end ms + len + 4095) / 4096 in
  ms_ok R s ms → flags_contains flags MAP_FIXED = false → flags_contains flags MAP_ANONYMOUS = false →
  0 ≤ mmap_end ms → 0 ≤ len → mmap_end ms + len + 8192 ≤ 2 ^ 38 →
  (∀ vpn, l ≤ vpn < r → ms_view s ms vpn = None ∧ mmap_area ms !! vpn = None) →
  3 * (r - l) ≤ Z.of_nat (size (fa_free (falloc s))) →
  len < offset < Z.of_nat (length context) →
  mmap ms start len offset context flags s = Panic.
Proof.
  intros l r Hok Hfix Hanon He Hlen Hend Hnew Hsz Hoff.
  destruct (mmap_pages R s ms len Hok He Hlen Hend Hnew Hsz start offset context flags Hfix)
    as (ms' & s' & G & HG & Hrun).
  rewrite Hrun, Hanon. cbn [negb]. replace (Z.to_nat (len / 4096 + 2)) with (S (Z.to_nat (len / 4096 + 1)))
    by (pose proof (Z.div_pos len 4096); lia).
  cbn [mmap_write_loop]. unfold slice. rewrite (proj2 (Z.leb_gt offset _)) by lia. done.
Qed.

(** [munmap] returns the frames of the range to the allocator but leaves the
    page-table entries in place: the process can still access frames that are
    free for others to use. *)
Theorem munmap_leaves_translations R s ms l r :
  ms_ok R s ms → 0 ≤ l ≤ r → r < 2 ^ 26 →
  (∀ vpn, l ≤ vpn < r → ∃ p, mmap_area ms !! vpn = Some (mkFrameTracker p true)) →
  ∃ ms' s', munmap ms (l * 4096) ((r - l) * 4096) s = Ok ((ms', SUCCESS), s') ∧
    ms_ok R s' ms' ∧ mmap_area ms' = without (mmap_area ms) (seqZ l (r - l)) ∧
    (∀ vpn p, l ≤ vpn < r → mmap_area ms !! vpn = Some (mkFrameTracker p true) →
       p ∈ fa_free (falloc s') ∧ ms_view s' ms' vpn = ms_view s ms vpn).
Proof.
  intros Hok Hl Hr Hin. set (fs := mmap_area ms) in *.
  set (L := areas_frames (areas ms) ++ held (heap_area ms)).
  assert (wp (munmap ms (l * 4096) ((r - l) * 4096)) (fun x s' => x.2 = SUCCESS ∧
    ms_ok R s' x.1 ∧ mmap_area x.1 = without fs (seqZ l (r - l)) ∧
    (∀ vpn p, l ≤ vpn < r → fs !! vpn = Some (mkFrameTracker p true) →
       p ∈ fa_free (falloc s') ∧ ms_view s' x.1 vpn = ms_view s ms vpn)) s) as H.
  { unfold munmap. rewrite (wrap64_small (_ + _)) by (unfold is_usize; lia).
    replace (l * 4096 + (r - l) * 4096) with (r * 4096) by lia.
    rewrite !align_up_eq by lia. replace ((l * 4096 + 4095) / 4096) with l by (Z.to_euclidean_division_equations; lia).
    replace ((r * 4096 + 4095) / 4096) with r by (Z.to_euclidean_division_equations; lia).
    rewrite !floor_page by lia. unfold SimpleRange_new. wp_step. wp_step. wp_step; [apply Z.leb_le; lia|].
    wp_step. wp_step. apply wp_for_range; [lia|lia|]. fold fs.
    eapply wp_mono; [apply (wp_st_fold _ (fun dn fs' s' => fs' = without fs dn ∧ pmem s' = pmem s ∧
      as_ok R s' (page_table ms) (held fs' ++ L) ∧
      (∀ vpn p, vpn ∈ dn → fs !! vpn = Some (mkFrameTracker p true) → p ∈ fa_free (falloc s'))))|].
    - split_and!; [done|done| |set_solver]. unfold ms_ok in Hok. by rewrite ms_frames_mmap in Hok.
    - intros dn vpn rest fs' s1 Hsplit (-> & Hm1 & Hok1 & Hf1).
      assert (l ≤ vpn < r) as Hvpn.
      { cut (l ≤ vpn < l + (r - l)); [lia|]. apply elem_of_seqZ. rewrite Hsplit. set_solver. }
      assert (vpn ∉ dn) as Hni.
      { pose proof (NoDup_seqZ l (r - l)) as Hnd. rewrite Hsplit in Hnd.
        apply NoDup_app in Hnd as (_ & Hnd & _). set_solver. }
      destruct (Hin vpn Hvpn) as [p Hp].
      eapply wp_frames_remove; [done|by rewrite without_lookup, decide_False|].
      intros s2 Hok2 Hm2 _ Hf2. rewrite without_snoc. split_and!; [done|congruence|done|].
      intros v q [Hv|Hv]%elem_of_app Hq; rewrite Hf2.
      + apply elem_of_union_r. by eapply Hf1.
      + apply list_elem_of_singleton in Hv as ->. rewrite Hp in Hq. injection Hq as <-. set_solver.
    - intros fs' s' (-> & Hm & Hok' & Hf). wp_step. cbn [fst snd mmap_area].
      split_and!; [done|unfold ms_ok; by rewrite ms_frames_mmap|done|].
      intros vpn p Hvpn Hp. split; [|unfold ms_view; by rewrite Hm].
      eapply Hf; [|done]. apply elem_of_seqZ. lia. }
  apply wp_elim in H as ([ms' ret] & s' & Hrun & Hret & HG). cbn [fst snd] in *. subst ret. by exists ms', s'.
Qed.

(** ** [mprotect] *)

Definition protect_view (flags b : Z) : Z := PTE_new (PTE_ppn b) (Z.lor (Z.lor flags PTE_U) PTE_V).

Lemma wp_mprotect_loop R pt L flags r n (Q : option Z → Machine A → Prop) :
  0 ≤ flags < 2 ^ 8 → r ≤ 2 ^ 27 → n ≤ r →
  ∀ k l s, as_ok R s pt L → 0 ≤ l → l + Z.of_nat k = n →
  (∀ vpn, l ≤ vpn < n → is_Some (pt_view (pmem s) (root_ppn pt) vpn)) →
  (n = r ∨ n < r ∧ pt_view (pmem s) (root_ppn pt) n = None) →
  (∀ s', as_ok R s' pt L → as_grow s s' pt pt ∅ →
     (∀ vpn, 0 ≤ vpn < 2 ^ 27 → pt_view (pmem s') (root_ppn pt) vpn =
        if decide (l ≤ vpn < n) then protect_view flags <$> pt_view (pmem s) (root_ppn pt) vpn
        else pt_view (pmem s) (root_ppn pt) vpn) →
     Q (if n =? r then None else Some EPERM) s') →
  wp (st_for_ret (fun vpn => b ← set_pte_flags pt vpn flags; mret (if b : bool then None else Some EPERM))
        (seqZ l (r - l))) Q s.
Proof.
  intros Hf Hr Hn. induction k as [|k IH]; intros l s Hok Hl Hk Hmap Hstop HQ.
  - assert (l = n) as -> by lia. destruct Hstop as [->|[Hlt Hnone]].
    + rewrite Z.eqb_refl, Z.sub_diag in *. simpl. wp_step. apply HQ; [done|apply as_grow_refl|].
      intros. by rewrite decide_False by lia.
    + rewrite seqZ_cons by lia. cbn [st_for_ret]. wp_step. wp_step.
      eapply wp_intro; [by apply set_pte_flags_unmapped|]. wp_step. wp_step.
      rewrite (proj2 (Z.eqb_neq n r)) in HQ by lia. apply HQ; [done|apply as_grow_refl|].
      intros. by rewrite decide_False by lia.
  - rewrite seqZ_cons by lia. cbn [st_for_ret]. wp_step. wp_step.
    destruct (Hmap l ltac:(lia)) as [b Hb].
    eapply wp_set_pte_flags; [apply Hok|lia|done|done|]. intros s1 Hpt1 Hg1 Hfa1 Hv1.
    assert (as_ok R s1 pt L) as Hok1.
    { destruct Hok as [_ Hnd Hown]. split; [done|done|]. by rewrite Hfa1. }
    assert (as_grow s s1 pt pt ∅) as Hgrow1.
    { split; [done|done|rewrite Hfa1; set_solver|]. intros a Ha. apply Hg1. set_solver. }
    wp_step. replace (Z.pred (r - l)) with (r - Z.succ l) by lia.
    apply IH; [done|lia|lia| | |].
    + intros vpn Hvpn. rewrite Hv1, decide_False by lia. apply Hmap. lia.
    + destruct Hstop as [?|[? ?]]; [by left|right]. rewrite Hv1, decide_False by lia. done.
    + intros s2 Hok2 Hg2 Hv2. apply HQ; [done| |].
      { pose proof (as_grow_trans _ _ _ _ _ _ _ _ Hgrow1 Hg2) as Hg. by rewrite (left_id_L ∅ (∪)) in Hg. }
      intros vpn Hvpn. rewrite Hv2, Hv1 by done.
      destruct (decide (vpn = l)) as [->|Hne].
      * rewrite decide_False, decide_True, Hb by lia. done.
      * destruct (decide (Z.succ l ≤ vpn < n)), (decide (l ≤ vpn < n)); lia || done.
Qed.

(** [mprotect] changes the permissions of the mapped pages of the range, up
    to the first unmapped page, keeping the frames they map to; it returns success
    exactly when the whole range is mapped and [EPERM] otherwise, and it changes no
    other translation and no data. *)
Theorem mprotect_correct R s ms start end_ flags n :
  let l := start / 4096 in
  let r := (end_ + 4095) / 4096 in
  ms_ok R s ms → 0 ≤ flags < 2 ^ 8 → 0 ≤ start ≤ end_ → end_ ≤ 2 ^ 39 → l ≤ n ≤ r →
  (∀ vpn, l ≤ vpn < n → is_Some (ms_view s ms vpn)) →
  (n = r ∨ n < r ∧ ms_view s ms n = None) →
  ∃ s', mprotect ms start end_ flags s = Ok (if n =? r then SUCCESS else EPERM, s') ∧ ms_ok R s' ms ∧
    (∀ vpn, 0 ≤ vpn < 2 ^ 27 → ms_view s' ms vpn =
       if decide (l ≤ vpn < n) then protect_view flags <$> ms_view s ms vpn else ms_view s ms vpn) ∧
    (∀ p a, p ∈ ms_frames ms → same_page p a → pmem s' a = pmem s a).
Proof.
  intros l r Hok Hf Hva Hend Hn Hmap Hstop.
  assert (0 ≤ l) as Hl by (apply Z.div_pos; lia).
  assert (r ≤ 2 ^ 27) as Hr.
  { cut (r < 2 ^ 27 + 1); [lia|]. unfold r. apply Z.div_lt_upper_bound; lia. }
  assert (wp (mprotect ms start end_ flags) (fun ret s' => ret = (if n =? r then SUCCESS else EPERM) ∧
    ms_ok R s' ms ∧
    (∀ vpn, 0 ≤ vpn < 2 ^ 27 → ms_view s' ms vpn =
       if decide (l ≤ vpn < n) then protect_view flags <$> ms_view s ms vpn else ms_view s ms vpn) ∧
    (∀ p a, p ∈ ms_frames ms → same_page p a → pmem s' a = pmem s a)) s) as H.
  { unfold mprotect, SimpleRange_new. rewrite ceil_div by lia. change (floor start) with l. fold r.
    wp_step. wp_step. wp_step; [apply Z.leb_le; lia|]. wp_step. wp_step.
    apply wp_for_range_ret; [lia|lia|].
    apply (wp_mprotect_loop R _ (ms_frames ms) flags r n _ Hf Hr ltac:(lia) (Z.to_nat (n - l))); [done|done|lia|done|done|].
    intros s' Hok' Hg Hv. wp_step. split_and!; [by destruct (n =? r)|done|done|].
    intros p a Hp Ha. by eapply as_grow_old. }
  apply wp_elim in H as (ret & s' & Hrun & -> & H). by exists s'.
Qed.

(** ** [map_heap] *)

Definition heap_page ms (vpn : Z) : ST (Machine A) MemorySet :=
  '(pt, fs) ← map_fresh (page_table ms) (heap_area ms) vpn HEAP_FLAGS;
  mret (mkMemorySet pt (areas ms) fs (mmap_area ms) (mmap_base ms) (mmap_end ms)).

Lemma heap_page_adds_fresh R s0 pt0 L0 fs0 ars mm b e :
  adds_fresh R s0 pt0 L0 fs0 HEAP_FLAGS (fun pt fs => mkMemorySet pt ars fs mm b e) heap_page.
Proof.
  intros G s pt fs vpn Q HI HG Hfs Hv Hnone Hsz HQ. unfold heap_page. wp_step.
  eapply (wp_map_fresh R s0 pt0 L0 fs0 HEAP_FLAGS ltac:(done)); [done|done|done|done|done|done|].
  intros p s' pt' HI'. wp_step. by apply HQ.
Qed.

Lemma heap_page_eq ms vpn s :
  heap_page ms vpn s =
    match map_fresh (page_table ms) (heap_area ms) vpn HEAP_FLAGS s with
    | Ok ((pt, fs), s') =>
        Ok (mkMemorySet pt (areas ms) fs (mmap_area ms) (mmap_base ms) (mmap_end ms), s')
    | Panic => Panic
    | OutOfFuel => OutOfFuel
    end.
Proof. unfold heap_page, mbind, st_bind. by destruct (map_fresh _ _ _ _ s) as [[[]]| |]. Qed.

(** The loop visits the pages from the one of [cur] on, until [aim] is reached. *)
Lemma map_heap_loop_fold n fuel ms cur aim s :
  0 ≤ cur → (n ≤ fuel)%nat → aim ≤ cur + Z.of_nat n * 4096 →
  (n ≠ O → cur + (Z.of_nat n - 1) * 4096 < aim) → aim + 4096 ≤ 2 ^ 39 →
  map_heap_loop fuel ms cur aim s = st_fold heap_page ms (seqZ (cur / 4096) (Z.of_nat n)) s.
Proof.
  revert fuel ms cur s. induction n as [|n IH]; intros fuel ms cur s Hcur Hfuel Haim Hlast Hmax.
  - destruct fuel; cbn [map_heap_loop]; rewrite (proj2 (Z.leb_le aim cur)) by lia; done.
  - destruct fuel as [|fuel]; [lia|]. cbn [map_heap_loop].
    rewrite (proj2 (Z.leb_gt aim cur)) by lia.
    rewrite wrap64_small, VirtAddr_from_usize_mod, Z.mod_small by (unfold is_usize, PAGE_SIZE; lia).
    rewrite seqZ_cons by lia. cbn [st_fold]. unfold mbind, st_bind.
    rewrite heap_page_eq.
    change (floor cur) with (cur / 4096).
    change (Z.lor (Z.lor PTE_U PTE_R) PTE_W) with HEAP_FLAGS.
    destruct (map_fresh (page_table ms) (heap_area ms) (cur / 4096) HEAP_FLAGS s) as [[[pt fs] s1]| |]; [|done|done]. unfold mret, st_ret.
    rewrite IH by (unfold PAGE_SIZE; lia). f_equal. f_equal; [|lia].
    unfold PAGE_SIZE. rewrite <-(Z.mul_1_l 4096) at 1. rewrite Z.div_add by lia. lia.
Qed.

(** [map_heap] maps the pages between the current and the new break, each to
    a zeroed frame of its own, readable and writable, and changes nothing
    else. *)
Theorem map_heap_correct R s ms cur aim n :
  let l := cur / 4096 in
  ms_ok R s ms → 0 ≤ cur → 0 ≤ n → aim ≤ cur + n * 4096 → (0 < n → cur + (n - 1) * 4096 < aim) →
  aim + 4096 ≤ 2 ^ 39 →
  (∀ vpn, l ≤ vpn < l + n → ms_view s ms vpn = None ∧ heap_area ms !! vpn = None) →
  3 * n ≤ Z.of_nat (size (fa_free (falloc s))) →
  ∃ ms' s' G, map_heap ms cur aim s = Ok ((ms', SUCCESS), s') ∧
    ms_ok R s' ms' ∧ dom G = list_to_set (seqZ l n) ∧ added s s' ms ms' G HEAP_FLAGS ∧
    heap_area ms' = ((fun p => mkFrameTracker p true) <$> G) ∪ heap_area ms.
Proof.
  intros l Hok Hcur Hn Haim Hlast Hmax Hnew Hsz.
  assert (0 ≤ l) as Hl by (apply Z.div_pos; lia).
  assert (n = 0 ∨ l + n ≤ 2 ^ 27) as Hln.
  { destruct (decide (n = 0)); [by left|right]. pose proof (Z.mul_div_le cur 4096). unfold l. lia. }
  pose proof Hok as Hok'. unfold ms_ok in Hok'. rewrite ms_frames_heap in Hok'.
  assert (wp (st_fold heap_page ms (seqZ l n)) (fun ms' s' => ∃ G,
    ms_ok R s' ms' ∧ dom G = list_to_set (seqZ l n) ∧ added s s' ms ms' G HEAP_FLAGS ∧
    heap_area ms' = ((fun p => mkFrameTracker p true) <$> G) ∪ heap_area ms) s) as H.
  { destruct Hln as [->|Hln].
    { simpl. wp_step. exists ∅. rewrite fmap_empty, (left_id_L ∅ (∪)), dom_empty_L. split_and!; done. }
    pose proof (wp_fresh_loop R s (page_table ms) (held (heap_area ms) ++ areas_frames (areas ms) ++ held (mmap_area ms)) (heap_area ms) HEAP_FLAGS ltac:(done)
      (fun pt fs => mkMemorySet pt (areas ms) fs (mmap_area ms) (mmap_base ms) (mmap_end ms)) heap_page l n) as Hloop.
    destruct ms as [pt ars hp mm b e]. cbn [page_table areas heap_area mmap_area mmap_base mmap_end] in *.
    apply Hloop; [apply heap_page_adds_fresh|done|done|done|done|done|done|].
    intros G s' pt' fs' HG HI. exists G.
    split_and!; [unfold ms_ok; rewrite ms_frames_heap|done|by eapply fresh_added|apply HI].
    eapply fresh_inv_close; [done|]. intros vpn Hvpn. apply Hnew.
    apply elem_of_dom in Hvpn. rewrite HG, elem_of_list_to_set, elem_of_seqZ in Hvpn. lia. }
  apply wp_elim in H as (ms' & s' & Hrun & G & HG). exists ms', s', G. split; [|done].
  unfold map_heap, mbind, st_bind.
  rewrite (map_heap_loop_fold (Z.to_nat n)), Z2Nat.id; [|lia|lia| |lia|lia|lia].
  - fold l. by rewrite Hrun.
  - destruct (decide (n = 0)); [lia|]. apply Z2Nat.inj_le; [lia|pose proof (Z.div_pos (aim - cur) 4096); lia|].
    cut (n - 1 ≤ (aim - cur) / 4096); [lia|]. apply Z.div_le_lower_bound; lia.
Qed.
End maps.

(** ** Witnesses *)

Lemma sample_mmap_range n vpn :
  (MMAP_BASE + 4095) / 4096 ≤ vpn < (MMAP_BASE + n + 4095) / 4096 → 0 ≤ n ≤ 2 ^ 20 →
  0 ≤ vpn < 2 ^ 27.
Proof. unfold MMAP_BASE. intros. Z.to_euclidean_division_equations; lia. Qed.

Lemma mmap_anonymous_correct_witness :
  ∃ ms s ms' s', ms_ok sample_frames s ms ∧
    mmap ms 0 5000 0 [] MAP_ANONYMOUS s = Ok ((ms', MMAP_BASE), s') ∧ ms_ok sample_frames s' ms'.
Proof.
  destruct sample_bare as (ms & s & _ & Hok & _ & _ & Hmm & He & Hview & Hsz).
  destruct (mmap_anonymous_correct sample_frames s ms 0 5000 0 [] MAP_ANONYMOUS)
    as (ms' & s' & G & Hrun & Hok' & _); rewrite ?He, ?Hmm; try done.
  - intros vpn Hvpn. split; [|apply lookup_empty]. apply Hview. by apply (sample_mmap_range 5000).
  - change (3 * ((MMAP_BASE + 5000 + 4095) / 4096 - (MMAP_BASE + 4095) / 4096)) with 6. lia.
  - rewrite He in Hrun. by exists ms, s, ms', s'.
Defined.

Lemma mmap_file_offset_beyond_len_witness :
  ∃ ms s, ms_ok sample_frames s ms ∧ mmap ms 0 1 2 [1; 2; 3] 0x02 s = Panic.
Proof.
  destruct sample_bare as (ms & s & _ & Hok & _ & _ & Hmm & He & Hview & Hsz).
  exists ms, s. split; [done|].
  apply (mmap_file_offset_beyond_len sample_frames s ms 0 1 2 [1; 2; 3] 0x02); rewrite ?He, ?Hmm; try done.
  - intros vpn Hvpn. split; [|apply lookup_empty]. apply Hview. by apply (sample_mmap_range 1).
  - change (3 * ((MMAP_BASE + 1 + 4095) / 4096 - (MMAP_BASE + 4095) / 4096)) with 3. lia.
Defined.

Lemma munmap_leaves_translations_witness :
  ∃ ms s ms' s' p, ms_ok sample_frames s ms ∧
    munmap ms (MMAP_BASE / 4096 * 4096) ((MMAP_BASE / 4096 + 1 - MMAP_BASE / 4096) * 4096) s
      = Ok ((ms', SUCCESS), s') ∧
    ms_view s' ms' (MMAP_BASE / 4096) = Some (PTE_new p (Z.lor MMAP_FLAGS PTE_V)) ∧
    p ∈ fa_free (falloc s').
Proof.
  destruct sample_bare as (ms0 & s0 & _ & Hok0 & _ & _ & Hmm & He & Hview & Hsz).
  destruct (mmap_pages sample_frames s0 ms0 1 Hok0) with (start := 0) (offset := 0) (context := @nil Z)
    (flags := MAP_ANONYMOUS) as (ms & s & G & (Hok & HG & Hadd & Harea & _) & _); rewrite ?He, ?Hmm; try done.
  { intros vpn Hvpn. split; [|apply lookup_empty]. apply Hview. by apply (sample_mmap_range 1). }
  { change (3 * ((MMAP_BASE + 1 + 4095) / 4096 - (MMAP_BASE + 4095) / 4096)) with 3. lia. }
  rewrite He in HG. set (l := MMAP_BASE / 4096) in *.
  assert (l ∈ dom G) as [p Hp]%elem_of_dom by (rewrite HG; vm_compute; done).
  assert (mmap_area ms !! l = Some (mkFrameTracker p true)) as Hlk
    by (rewrite Harea, lookup_union, lookup_fmap, Hp, Hmm; done).
  destruct (munmap_leaves_translations sample_frames s ms l (l + 1)) as (ms' & s' & Hrun & _ & _ & Hdang);
    [done|split; vm_compute; congruence|vm_compute; congruence| |].
  - intros vpn Hvpn. assert (vpn = l) as -> by lia. eauto.
  - exists ms, s, ms', s', p. destruct (Hdang l p) as [Hfree Hv]; [lia|done|].
    split_and!; [done|done| |done]. rewrite Hv, (add_view _ _ _ _ _ _ Hadd), Hp by done. done.
Defined.

Lemma mprotect_correct_witness :
  ∃ ms s s', ms_ok sample_frames s ms ∧ mprotect ms 0x10100 0x12000 PTE_R s = Ok (EPERM, s').
Proof.
  destruct sample_bare as (ms & s & _ & Hok & _ & _ & _ & _ & Hview & _).
  destruct (mprotect_correct sample_frames s ms 0x10100 0x12000 PTE_R 0x10) as (s' & Hrun & _);
    [done|done|lia|lia| | | |by exists ms, s, s'].
  - vm_compute. split; congruence.
  - change (0x10100 / 4096) with 0x10. intros; lia.
  - right. split; [done|]. by apply Hview.
Defined.

Lemma map_heap_correct_witness :
  ∃ ms s ms' s', ms_ok sample_frames s ms ∧ map_heap ms 0x10000 0x11800 s = Ok ((ms', SUCCESS), s') ∧
    ms_ok sample_frames s' ms'.
Proof.
  destruct sample_bare as (ms & s & _ & Hok & _ & Hhp & _ & _ & Hview & Hsz).
  destruct (map_heap_correct sample_frames s ms 0x10000 0x11800 2) as (ms' & s' & G & Hrun & Hok' & _);
    [done|lia|lia|lia|lia|lia| |lia|by exists ms, s, ms', s'].
  change (0x10000 / 4096) with 16. intros vpn Hvpn. rewrite Hhp. split; [|apply lookup_empty]. apply Hview. lia.
Defined.
