(* ===== verification/Fork.v ===== *)
(** * [fork] copies an address space: [MemorySet::from_existed_user]

    The child of a process gets frames of its own, taken from the free ones,
    and every user page of the parent has a copy with the same content at the
    same virtual address.  The parent is left as it was. *)

From S2P Require Import Prelude Config Address PhysMem FrameAllocator.
From S2P Require Import PageTable UserMem MemorySet AddressSpace MemorySetSpec UserMaps.

Definition TRAMPOLINE_VPN : Z := 2 ^ 27 - 1.
Definition SIGNAL_TRAMPOLINE_VPN : Z := 2 ^ 27 - 2.

Definition area_vpns (a : MapArea) : list Z :=
  seqZ (get_start (vpn_range a)) (get_end (vpn_range a) - get_start (vpn_range a)).

(** All user pages of an address space, in the order they are copied. *)
Definition ms_vpns (ms : MemorySet) : list Z :=
  (areas ms ≫= area_vpns) ++ (btree_iter (heap_area ms)).*1 ++ (btree_iter (mmap_area ms)).*1.

(** Page [q] of [m'] has the content of page [p] of [m]. *)
Definition same_content (m m' : PMem) (p q : Z) : Prop :=
  ∀ i, 0 ≤ i < 4096 → m' (q * 4096 + i) = m (p * 4096 + i).

Section fork.
Context {A : Type} {FA : FrameAllocator A} {FS : FrameAllocatorSpec A}.
Implicit Types (R : gset Z) (s : Machine A) (ms : MemorySet) (G : gmap Z Z).

(** The address space of a user process: framed areas, and every page mapped
    to a frame in use. *)
Record user_wf s ms : Prop := {
  uw_area a : a ∈ areas ms →
    map_type a = Framed ∧ 0 ≤ map_perm a < 2 ^ 8 ∧
    0 ≤ get_start (vpn_range a) ≤ get_end (vpn_range a) ∧ get_end (vpn_range a) ≤ 2 ^ 27;
  uw_nodup : NoDup (ms_vpns ms);
  uw_page vpn : vpn ∈ ms_vpns ms →
    0 ≤ vpn < SIGNAL_TRAMPOLINE_VPN ∧
    ∃ b, ms_view s ms vpn = Some b ∧ PTE_ppn b ∉ fa_free (falloc s);
  uw_frame vpn ft : heap_area ms !! vpn = Some ft ∨ mmap_area ms !! vpn = Some ft →
    ∃ b, ms_view s ms vpn = Some b ∧ PTE_ppn b = ft_ppn ft;
}.

(** Nothing but pages free in [s0] has been written. *)
Definition keeps s0 s : Prop :=
  ∀ f a, f ∉ fa_free (falloc s0) → same_page f a → pmem s a = pmem s0 a.

(** The child [c] after the pages [dn] of the parent [u] were copied. *)
Record fork_inv R s0 u (dn : list Z) s c : Prop := {
  fk_ok : ms_ok R s c;
  fk_frames p : p ∈ ms_frames c → p ∈ fa_free (falloc s0);
  fk_pt : pt_frames (page_table c) ⊆ fa_free (falloc s0);
  fk_free : fa_free (falloc s) ⊆ fa_free (falloc s0);
  fk_keeps : keeps s0 s;
  fk_range vpn : vpn ∈ dn → 0 ≤ vpn < 2 ^ 27;
  fk_copied vpn : vpn ∈ dn → ∃ b b', ms_view s0 u vpn = Some b ∧ ms_view s c vpn = Some b' ∧
    PTE_ppn b' ∈ ms_frames c ∧ same_content (pmem s0) (pmem s) (PTE_ppn b) (PTE_ppn b');
  fk_rest vpn : 0 ≤ vpn < SIGNAL_TRAMPOLINE_VPN → vpn ∉ dn → ms_view s c vpn = None;
  fk_size : (size (fa_free (falloc s0)) ≤ size (fa_free (falloc s)) + 3 * length dn + 5)%nat;
}.

(** ** Stability *)

Lemma page_of a : same_page (a / 4096) a.
Proof. unfold same_page. pose proof (Z.div_mod a 4096). pose proof (Z.mod_pos_bound a 4096). lia. Qed.

Lemma same_page_at p i : 0 ≤ i < 4096 → same_page p (p * 4096 + i).
Proof. unfold same_page. lia. Qed.

Lemma pt_ok_stable R s s' pt :
  pt_ok R s pt → fa_inv R (falloc s') → pt_frames pt ## fa_free (falloc s') →
  (∀ f a, f ∈ pt_frames pt → same_page f a → pmem s' a = pmem s a) →
  pt_ok R s' pt ∧
  ∀ vpn, 0 ≤ vpn < 2 ^ 27 → pt_view (pmem s') (root_ppn pt) vpn = pt_view (pmem s) (root_ppn pt) vpn.
Proof.
  intros (P & [Ha Hwf Hd Hh Hn Hm Hdj])%pt_ok_okP Ha' Hdj' Hmem.
  assert (∀ f a, f ∈ dom P → same_page f a → pmem s' a = pmem s a) as HmemP.
  { intros f a Hf. apply Hmem. unfold pt_frames. by rewrite <-Hd. }
  split; [|intros vpn Hvpn; by apply (view_agree _ _ _ Hwf)].
  apply pt_ok_okP. exists P. split; try done.
  - by apply (view_agree _ _ _ Hwf _ 0); [|lia].
  - unfold pt_frames in Hdj'. by rewrite Hd.
Qed.

Lemma keeps_view R s0 s ms vpn :
  ms_ok R s0 ms → keeps s0 s → 0 ≤ vpn < 2 ^ 27 → ms_view s ms vpn = ms_view s0 ms vpn.
Proof.
  intros [Hpt _ _] Hk Hv. pose proof Hpt as (P & [Ha Hwf Hd Hh Hn Hm Hdj])%pt_ok_okP.
  apply (view_agree _ _ _ Hwf); [|done]. intros f a Hf. apply Hk. set_solver.
Qed.

Lemma keeps_trans s0 s1 s2 :
  keeps s0 s1 → (∀ f a, f ∉ fa_free (falloc s0) → same_page f a → pmem s2 a = pmem s1 a) → keeps s0 s2.
Proof. intros H1 H2 f a Hf Ha. rewrite (H2 f a), (H1 f a); done. Qed.

(** ** Copying one page into a frame of the child *)

Lemma wp_copy_page R s pt L dst src (Q : unit → Machine A → Prop) :
  as_ok R s pt L → dst ∈ L → 0 ≤ dst < 2 ^ 44 → 0 ≤ src < 2 ^ 44 →
  (∀ s', as_ok R s' pt L → falloc s' = falloc s →
     (∀ a, ¬ same_page dst a → pmem s' a = pmem s a) →
     (∀ vpn, 0 ≤ vpn < 2 ^ 27 →
        pt_view (pmem s') (root_ppn pt) vpn = pt_view (pmem s) (root_ppn pt) vpn) →
     same_content (pmem s) (pmem s') src dst → Q tt s') →
  wp (copy_page dst src) Q s.
Proof.
  intros Hok Hdst Hd Hs HQ. unfold copy_page, update_pmem, get_bytes_array. wp_step.
  rewrite !PhysAddr_from_PhysPageNum_small by done. change PAGE_SIZE with 4096.
  set (data := read_bytes (pmem s) (src * 4096) 4096).
  assert (Z.of_nat (length data) = 4096) as Hlen by (unfold data; rewrite read_bytes_length; lia).
  set (s' := mkMachine _ _).
  assert (∀ a, ¬ same_page dst a → pmem s' a = pmem s a) as Hout.
  { intros a Ha. apply write_bytes_out. unfold same_page in Ha. lia. }
  destruct (as_owned _ _ _ _ Hok dst Hdst) as (_ & Hnp & _).
  destruct (pt_ok_stable R s s' pt) as [Hpt' Hview]; [apply Hok|apply Hok|apply Hok| |].
  { intros f a Hf Ha. apply Hout. intros Ha'. pose proof (same_page_inj _ _ _ Ha Ha') as ->. done. }
  apply HQ; [|done|done|done|].
  - destruct Hok as [_ Hnd Hown]. by split.
  - intros i Hi. simpl. rewrite write_bytes_in by lia. unfold data.
    replace (dst * 4096 + i - dst * 4096) with i by lia.
    apply list_lookup_total_correct. rewrite read_bytes_lookup by lia. do 2 f_equal. lia.
Qed.

(** ** Growing the child, then copying *)

Record child_grow R s c s1 c1 G (flags : Z) : Prop := {
  cg_ok : ms_ok R s1 c1;
  cg_frames p : p ∈ ms_frames c1 ↔ p ∈ ms_frames c ∨ ∃ vpn, G !! vpn = Some p;
  cg_grow : as_grow s s1 (page_table c) (page_table c1) (list_to_set (map_to_list G).*2);
  cg_added : added s s1 c c1 G flags;
  cg_size : (size (fa_free (falloc s)) ≤ size (fa_free (falloc s1)) + 3 * size G)%nat;
  cg_flags : 0 ≤ flags < 2 ^ 8;
}.

(** The pages [vpns] of [G] have been filled from the parent. *)
Record copied_pages R s0 u s1 c1 G (vpns : list Z) s2 : Prop := {
  cp_ok : ms_ok R s2 c1;
  cp_falloc : falloc s2 = falloc s1;
  cp_view vpn : 0 ≤ vpn < 2 ^ 27 → ms_view s2 c1 vpn = ms_view s1 c1 vpn;
  cp_mem a : (∀ vpn p, G !! vpn = Some p → ¬ same_page p a) → pmem s2 a = pmem s1 a;
  cp_done vpn : vpn ∈ vpns → ∃ b p, ms_view s0 u vpn = Some b ∧ G !! vpn = Some p ∧
    same_content (pmem s0) (pmem s2) (PTE_ppn b) p;
}.

Section extend.
Context (R : gset Z) (s0 : Machine A) (u : MemorySet) (dn : list Z) (s : Machine A) (c : MemorySet).
Context (s1 : Machine A) (c1 : MemorySet) (G : gmap Z Z) (flags : Z).
Hypothesis Hu : ms_ok R s0 u.
Hypothesis Huw : user_wf s0 u.
Hypothesis Hfork : fork_inv R s0 u dn s c.
Hypothesis Hgrow : child_grow R s c s1 c1 G flags.
Hypothesis Hrange : ∀ vpn, is_Some (G !! vpn) → vpn ∈ ms_vpns u.

Lemma ext_frame_free vpn p : G !! vpn = Some p → p ∈ fa_free (falloc s).
Proof. intros Hp. apply (add_fresh _ _ _ _ _ _ (cg_added _ _ _ _ _ _ _ Hgrow) _ _ Hp). Qed.

Lemma ext_frame_range vpn p : G !! vpn = Some p → 0 ≤ p < 2 ^ 44.
Proof.
  intros Hp%ext_frame_free. pose proof (fk_ok _ _ _ _ _ _ Hfork) as [[Ha _ _ _] _ _].
  apply (fa_range R _ p Ha). by apply (fa_free_sub R _ Ha).
Qed.

Lemma ext_keeps1 : keeps s0 s1.
Proof.
  apply (keeps_trans s0 s); [apply Hfork|]. intros f a Hf Ha.
  apply (as_grow_frame _ _ _ _ _ f a (cg_grow _ _ _ _ _ _ _ Hgrow)); [|..|done]; intros Hin; apply Hf.
  - by apply (fk_free _ _ _ _ _ _ Hfork).
  - by apply (fk_pt _ _ _ _ _ _ Hfork).
Qed.

Lemma ext_keeps vpns s2 : copied_pages R s0 u s1 c1 G vpns s2 → keeps s0 s2.
Proof.
  intros Hcp. apply (keeps_trans s0 s1); [apply ext_keeps1|]. intros f a Hf Ha.
  apply (cp_mem _ _ _ _ _ _ _ _ Hcp). intros vpn p Hp Ha'.
  pose proof (same_page_inj _ _ _ Ha Ha') as ->. apply Hf, (fk_free _ _ _ _ _ _ Hfork).
  by eapply ext_frame_free.
Qed.

Lemma copied_start : copied_pages R s0 u s1 c1 G [] s1.
Proof. split; [apply Hgrow|done|done|done|set_solver]. Qed.

(** One more page. *)
Lemma wp_copy_next vpns s2 vpn p b (Q : unit → Machine A → Prop) :
  copied_pages R s0 u s1 c1 G vpns s2 → G !! vpn = Some p →
  ms_view s0 u vpn = Some b →
  (∀ s3, copied_pages R s0 u s1 c1 G (vpns ++ [vpn]) s3 → Q tt s3) →
  wp (copy_page p (PTE_ppn b)) Q s2.
Proof.
  intros Hcp Hp Hb HQ. pose proof (ext_keeps _ _ Hcp) as Hk.
  destruct (uw_page _ _ Huw vpn (Hrange vpn ltac:(by rewrite Hp))) as (_ & b0 & Hb0 & Hnf).
  rewrite Hb in Hb0. injection Hb0 as <-.
  eapply (wp_copy_page R s2 (page_table c1) (ms_frames c1));
    [apply Hcp|apply (cg_frames _ _ _ _ _ _ _ Hgrow); eauto|by eapply ext_frame_range|apply PTE_ppn_range|].
  intros s3 Hok3 Hfa3 Hmem3 Hview3 Hcont. apply HQ. split.
  - done.
  - rewrite Hfa3. apply Hcp.
  - intros v Hv. unfold ms_view. rewrite Hview3 by done. by apply Hcp.
  - intros a Ha. rewrite Hmem3 by (by eapply Ha). by apply Hcp.
  - intros v [Hv|Hv]%elem_of_app.
    + destruct (cp_done _ _ _ _ _ _ _ _ Hcp v Hv) as (b1 & p1 & Hb1 & Hp1 & Hc1).
      destruct (decide (v = vpn)) as [->|Hne].
      * exists b, p. split_and!; [done|done|]. intros i Hi. rewrite Hcont by done.
        apply (Hk (PTE_ppn b)); [done|by apply same_page_at].
      * exists b1, p1. split_and!; [done|done|]. intros i Hi. rewrite <-Hc1 by done. apply Hmem3.
        intros Ha. pose proof (same_page_inj _ _ _ (same_page_at p1 i Hi) Ha) as ->.
        apply Hne. by eapply (add_inj _ _ _ _ _ _ (cg_added _ _ _ _ _ _ _ Hgrow)).
    + apply list_elem_of_singleton in Hv as ->. exists b, p. split_and!; [done|done|].
      intros i Hi. rewrite Hcont by done. apply (Hk (PTE_ppn b)); [done|by apply same_page_at].
Qed.

Lemma ext_pte p : 0 ≤ p < 2 ^ 44 → PTE_ppn (PTE_new p (Z.lor flags PTE_V)) = p.
Proof.
  intros Hp. apply PTE_ppn_new; [done|]. apply lor_flags_range; [apply Hgrow|done].
Qed.

(** Pages copied before stay as they are. *)
Lemma ext_old vpns s2 vpn :
  copied_pages R s0 u s1 c1 G vpns s2 → vpn ∈ dn → G !! vpn = None →
  ∃ b b', ms_view s0 u vpn = Some b ∧ ms_view s2 c1 vpn = Some b' ∧
    PTE_ppn b' ∈ ms_frames c1 ∧ same_content (pmem s0) (pmem s2) (PTE_ppn b) (PTE_ppn b').
Proof.
  intros Hcp Hv HG. pose proof (fk_ok _ _ _ _ _ _ Hfork) as Hok.
  pose proof Hgrow as [Hok1 Hframes Hg Hadd Hsz Hfl].
  destruct (fk_copied _ _ _ _ _ _ Hfork vpn Hv) as (b & b' & Hb & Hb' & Hin & Hc).
  pose proof (fk_range _ _ _ _ _ _ Hfork vpn Hv) as Hvr.
  exists b, b'. split_and!; [done| |by apply Hframes; left|].
  - rewrite (cp_view _ _ _ _ _ _ _ _ Hcp), (add_view _ _ _ _ _ _ Hadd), HG by done. done.
  - intros i Hi. rewrite <-Hc by done. rewrite (cp_mem _ _ _ _ _ _ _ _ Hcp).
    + by apply (as_grow_old R s s1 _ _ _ _ (PTE_ppn b') _ Hok Hg Hin), same_page_at.
    + intros v q Hq Ha. pose proof (same_page_inj _ _ _ (same_page_at _ i Hi) Ha) as <-.
      apply ext_frame_free in Hq. by destruct (as_owned _ _ _ _ Hok _ Hin) as (_ & _ & ?).
Qed.

Lemma ext_new vpns s2 vpn :
  copied_pages R s0 u s1 c1 G vpns s2 → vpn ∈ vpns →
  0 ≤ vpn < 2 ^ 27 ∧ ∃ b b', ms_view s0 u vpn = Some b ∧ ms_view s2 c1 vpn = Some b' ∧
    PTE_ppn b' ∈ ms_frames c1 ∧ same_content (pmem s0) (pmem s2) (PTE_ppn b) (PTE_ppn b').
Proof.
  intros Hcp Hv. pose proof Hgrow as [Hok1 Hframes Hg Hadd Hsz Hfl].
  destruct (cp_done _ _ _ _ _ _ _ _ Hcp vpn Hv) as (b & q & Hb & Hq & Hc).
  destruct (uw_page _ _ Huw vpn) as (Hvr & _); [apply Hrange; by rewrite Hq|].
  unfold SIGNAL_TRAMPOLINE_VPN in Hvr. split; [lia|].
  exists b, (PTE_new q (Z.lor flags PTE_V)). rewrite ext_pte by by eapply ext_frame_range.
  split_and!; [done| |apply Hframes; by eauto|done].
  rewrite (cp_view _ _ _ _ _ _ _ _ Hcp), (add_view _ _ _ _ _ _ Hadd), Hq by lia. done.
Qed.

(** When all the new pages are filled, the child has them too. *)
Lemma fork_extend vpns s2 :
  copied_pages R s0 u s1 c1 G vpns s2 → dom G = list_to_set vpns → NoDup (dn ++ vpns) →
  fork_inv R s0 u (dn ++ vpns) s2 c1.
Proof.
  intros Hcp Hdom (Hnd1 & Hdj & Hnd2)%NoDup_app.
  assert (∀ vpn, G !! vpn = None ↔ vpn ∉ vpns) as HG.
  { intros vpn. by rewrite <-not_elem_of_dom, Hdom, elem_of_list_to_set. }
  pose proof Hfork as [Hok Hfr Hpt Hfree Hkeeps Hr Hcopied Hrest Hsize].
  pose proof Hgrow as [Hok1 Hframes Hg Hadd Hsz Hfl]. split.
  - apply Hcp.
  - intros p [Hp|[vpn Hp]]%Hframes; [by apply Hfr|]. by eapply Hfree, ext_frame_free.
  - intros f Hf. destruct (decide (f ∈ pt_frames (page_table c))); [by apply Hpt|].
    apply Hfree. rewrite (ag_free _ _ _ _ _ Hg). set_solver.
  - rewrite (cp_falloc _ _ _ _ _ _ _ _ Hcp). rewrite (ag_free _ _ _ _ _ Hg) in Hfree. set_solver.
  - by eapply ext_keeps.
  - intros vpn [Hv|Hv]%elem_of_app; [by apply Hr|by eapply ext_new].
  - intros vpn [Hv|Hv]%elem_of_app; [|by eapply ext_new].
    eapply ext_old; [done|done|]. by apply HG, Hdj.
  - intros vpn Hvr Hv. rewrite not_elem_of_app in Hv. destruct Hv as [Hv1 Hv2%HG].
    unfold SIGNAL_TRAMPOLINE_VPN in *.
    rewrite (cp_view _ _ _ _ _ _ _ _ Hcp), (add_view _ _ _ _ _ _ Hadd), Hv2 by lia. by apply Hrest.
  - rewrite (cp_falloc _ _ _ _ _ _ _ _ Hcp), length_app.
    assert (size G = length vpns) by (rewrite <-size_dom, Hdom; by apply size_list_to_set). lia.
Qed.
End extend.

(** ** The three loops *)

Lemma elem_of_map_values G p : p ∈ (map_to_list G).*2 ↔ ∃ vpn, G !! vpn = Some p.
Proof.
  rewrite list_elem_of_fmap. split.
  - intros ([vpn q] & -> & Hq%elem_of_map_to_list). by exists vpn.
  - intros [vpn Hp%elem_of_map_to_list]. by exists (vpn, p).
Qed.

Lemma single_lookup vpn p v : is_Some ((<[vpn := p]> ∅ : gmap Z Z) !! v) → v = vpn.
Proof. intros [<-|[_ H]]%lookup_insert_is_Some; [done|]. rewrite lookup_empty in H. by destruct H. Qed.

Section loops.
Context (R : gset Z) (s0 : Machine A) (u : MemorySet).
Hypothesis Hu : ms_ok R s0 u.
Hypothesis Huw : user_wf s0 u.

Lemma wp_copy_area dn s c a (Q : MemorySet → Machine A → Prop) :
  fork_inv R s0 u dn s c → a ∈ areas u → NoDup (dn ++ area_vpns a) →
  (∀ vpn, vpn ∈ area_vpns a → vpn ∈ ms_vpns u) →
  (3 * length (area_vpns a) ≤ size (fa_free (falloc s)))%nat →
  (∀ s' c', fork_inv R s0 u (dn ++ area_vpns a) s' c' →
     heap_area c' = heap_area c → mmap_area c' = mmap_area c → mmap_end c' = mmap_end c → Q c' s') →
  wp (copy_area u c a) Q s.
Proof.
  intros Hfork Ha Hnd Hin Hsz HQ. destruct (uw_area _ _ Huw a Ha) as (Hty & Hperm & Hlr & Hr).
  destruct a as [[l r] fs ty perm]. cbn [vpn_range get_start get_end map_type map_perm] in *. subst ty.
  unfold area_vpns in *. cbn [vpn_range get_start get_end] in *.
  unfold copy_area, from_another, SimpleRange_new. cbn [vpn_range get_start get_end map_type map_perm].
  do 3 wp_step. wp_step; [apply Z.leb_le; lia|]. wp_step. wp_step. wp_step.
  assert (∀ vpn, l ≤ vpn < r → vpn ∈ seqZ l (r - l)) as Hseq by (intros; apply elem_of_seqZ; lia).
  eapply (wp_push_framed R); [apply Hfork|done|done|done| |rewrite length_seqZ in Hsz; lia|].
  { intros vpn Hvpn%Hseq. apply (fk_rest _ _ _ _ _ _ Hfork).
    - by destruct (uw_page _ _ Huw vpn (Hin vpn Hvpn)).
    - apply NoDup_app in Hnd as (_ & Hnd & _). intros Hd. by apply (Hnd vpn). }
  intros G s1 c1 fs' HG Hok1 Hfs' Har Hhp Hmm Hend Hg Hsize Hadd.
  assert (child_grow R s c s1 c1 G perm) as Hgrow.
  { split; try done. intros p. unfold ms_frames. rewrite Har, Hhp, Hmm, areas_frames_snoc. cbn [data_frames].
    pose proof (held_fresh G ∅ ltac:(intros; apply lookup_empty)) as Hheld.
    rewrite (right_id_L ∅ (∪)), <-Hfs' in Hheld. unfold held in Hheld at 2. rewrite map_to_list_empty in Hheld.
    rewrite !elem_of_app, Hheld, app_nil_r, elem_of_map_values. tauto. }
  assert (∀ vpn, is_Some (G !! vpn) → vpn ∈ ms_vpns u) as Hrange.
  { intros vpn. rewrite <-elem_of_dom, HG, elem_of_list_to_set. apply Hin. }
  wp_step. apply wp_for_range; [done|lia|].
  eapply wp_mono; [apply (wp_st_fold _ (fun dn2 _ s2 => copied_pages R s0 u s1 c1 G dn2 s2))|].
  - by eapply copied_start.
  - intros dn2 vpn rest [] s2 Hsplit Hcp.
    assert (vpn ∈ seqZ l (r - l)) as Hvpn by (rewrite Hsplit; set_solver).
    destruct (uw_page _ _ Huw vpn (Hin vpn Hvpn)) as (Hvr & b & Hb & _). unfold SIGNAL_TRAMPOLINE_VPN in Hvr.
    assert (is_Some (G !! vpn)) as [p Hp] by (by rewrite <-elem_of_dom, HG, elem_of_list_to_set).
    assert (keeps s0 s2) as Hk by by eapply ext_keeps.
    wp_step. wp_step. wp_step. wp_step.
    { apply view_translate. fold (ms_view s2 u vpn). rewrite (keeps_view R s0 s2 u vpn Hu Hk) by lia. done. }
    wp_step. wp_step.
    { apply view_translate. fold (ms_view s2 c1 vpn).
      rewrite (cp_view _ _ _ _ _ _ _ _ Hcp), (add_view _ _ _ _ _ _ Hadd), Hp by lia. done. }
    erewrite ext_pte; [|done|by eapply ext_frame_range]. by eapply wp_copy_next.
  - intros [] s2 Hcp. wp_step. apply HQ; [|done|done|done]. by eapply fork_extend.
Qed.

(** The frame of one page of the heap or of an [mmap] region; [mk] puts the
    page table and the container back into the child. *)
Lemma wp_copy_frame dn s c fs0 L vpn ft (mk : PageTable → gmap Z FrameTracker → MemorySet)
    (Q : PageTable * gmap Z FrameTracker → Machine A → Prop) :
  fork_inv R s0 u dn s c → vpn ∉ dn → NoDup dn → vpn ∈ ms_vpns u →
  (∃ b, ms_view s0 u vpn = Some b ∧ PTE_ppn b = ft_ppn ft) →
  (3 ≤ size (fa_free (falloc s)))%nat → fs0 !! vpn = None →
  (∀ pt fs, page_table (mk pt fs) = pt) → (∀ pt fs, ms_frames (mk pt fs) ≡ₚ held fs ++ L) →
  ms_frames c ≡ₚ held fs0 ++ L →
  (∀ s' pt' fs', dom fs' = {[vpn]} ∪ dom fs0 → fork_inv R s0 u (dn ++ [vpn]) s' (mk pt' fs') → Q (pt', fs') s') →
  wp (copy_frame (page_table c) fs0 vpn ft) Q s.
Proof.
  intros Hfork Hvdn Hnd Hvu (b & Hb & Hbf) Hsz Hfs0 Hmkpt Hmkfr Hcfr HQ.
  destruct (uw_page _ _ Huw vpn Hvu) as (Hvr & b0 & Hb0 & _). unfold SIGNAL_TRAMPOLINE_VPN in Hvr.
  pose proof (fk_ok _ _ _ _ _ _ Hfork) as Hok. unfold ms_ok in Hok. rewrite Hcfr in Hok.
  pose proof (fresh_inv_start R s (page_table c) (held fs0 ++ L) fs0 HEAP_FLAGS Hok) as HI.
  unfold copy_frame. wp_step. eapply wp_frame_alloc_as; [done|by apply fresh_free_nonempty|].
  intros p s1 Hok1 Hp Hpf Hg1 Hz1 Hs1 Hv1. wp_step. wp_step; [done|]. cbn [ft_ppn]. wp_step.
  eapply wp_PageTable_map_as; [done|lia|done|done|lia| |].
  { rewrite Hv1 by lia. apply (fk_rest _ _ _ _ _ _ Hfork); [unfold SIGNAL_TRAMPOLINE_VPN; lia|done]. }
  intros s2 pt2 Hok2 Hg2 Hs2 Hv2. wp_step. unfold frames_insert. rewrite Hfs0. wp_step. wp_step. wp_step. wp_step.
  assert (fresh_inv R s (page_table c) (held fs0 ++ L) fs0 HEAP_FLAGS (<[vpn := p]> ∅) s2 pt2
            (<[vpn := mkFrameTracker p true]> fs0)) as HI2.
  { eapply fresh_step; done || by rewrite map_to_list_empty. }
  set (fs2 := <[vpn := mkFrameTracker p true]> fs0) in *.
  assert (child_grow R s c s2 (mk pt2 fs2) (<[vpn := p]> ∅) HEAP_FLAGS) as Hgrow.
  { split; try done.
    - unfold ms_ok. rewrite Hmkpt, Hmkfr. eapply fresh_inv_close; [done|].
      by intros v ->%single_lookup.
    - intros q. rewrite Hmkfr, Hcfr. unfold fs2. rewrite held_insert by done.
      rewrite !elem_of_app, elem_of_cons. split; [|intros [H|[v [[<- <-]|[_ H]]%lookup_insert_Some]]; tauto || done].
      intros [[->|H]|H]; [right; exists vpn; apply lookup_insert_eq|tauto|tauto].
    - rewrite Hmkpt. apply HI2.
    - eapply fresh_added; [done|apply Hmkpt].
    - apply HI2. }
  assert (∀ v, is_Some ((<[vpn := p]> ∅ : gmap Z Z) !! v) → v ∈ ms_vpns u) as Hrange
    by by intros v ->%single_lookup.
  rewrite <-Hbf.
  eapply (wp_copy_next R s0 u dn s c s2 _ _ _ Huw Hfork Hgrow Hrange []);
    [by apply (copied_start R s0 u dn s c _ _ _ _ Hu Huw Hfork Hgrow Hrange)|apply lookup_insert_eq|done|].
  intros s3 Hcp. wp_step. apply HQ; [unfold fs2; by rewrite dom_insert_L|].
  apply (fork_extend R s0 u dn s c _ _ _ _ Hu Huw Hfork Hgrow Hrange _ _ Hcp).
  - rewrite dom_insert_L, dom_empty_L. simpl. set_solver.
  - apply NoDup_app. split_and!; [done| |apply NoDup_singleton]. set_solver.
Qed.

Lemma NoDup_prefix (l dn rest : list Z) x : NoDup l → l = dn ++ x :: rest → NoDup dn ∧ x ∉ dn.
Proof. intros Hnd ->. apply NoDup_app in Hnd as (? & Hd & _). set_solver. Qed.

Hypothesis Hsize : (3 * length (ms_vpns u) + 5 ≤ size (fa_free (falloc s0)))%nat.

(** Enough frames are left as long as pages are left. *)
Lemma fork_room dn rest s c :
  fork_inv R s0 u dn s c → ms_vpns u = dn ++ rest → (3 * length rest ≤ size (fa_free (falloc s)))%nat.
Proof.
  intros Hf Heq. pose proof (fk_size _ _ _ _ _ _ Hf). rewrite Heq, length_app in Hsize. lia.
Qed.

Lemma wp_copy_areas c s Q :
  fork_inv R s0 u [] s c → heap_area c = ∅ → mmap_area c = ∅ →
  (∀ s' c', fork_inv R s0 u (areas u ≫= area_vpns) s' c' → heap_area c' = ∅ → mmap_area c' = ∅ →
     mmap_end c' = mmap_end c → Q c' s') →
  wp (st_fold (copy_area u) c (areas u)) Q s.
Proof.
  intros Hf Hhp Hmm HQ.
  eapply wp_mono; [apply (wp_st_fold _ (fun dn c' s' => fork_inv R s0 u (dn ≫= area_vpns) s' c' ∧
    heap_area c' = ∅ ∧ mmap_area c' = ∅ ∧ mmap_end c' = mmap_end c))|].
  - done.
  - intros dn a rest c1 s1 Hsplit (Hf1 & Hhp1 & Hmm1 & He1).
    assert (ms_vpns u = (dn ≫= area_vpns) ++ area_vpns a ++ (rest ≫= area_vpns) ++
      (btree_iter (heap_area u)).*1 ++ (btree_iter (mmap_area u)).*1) as Heq.
    { unfold ms_vpns. rewrite Hsplit, bind_app, bind_cons, <-!app_assoc. done. }
    eapply (wp_copy_area _ s1 c1 a); [done|rewrite Hsplit; set_solver| | | |].
    + pose proof (uw_nodup _ _ Huw) as Hnd. rewrite Heq, app_assoc in Hnd. by apply NoDup_app in Hnd as (? & _).
    + intros vpn Hv. rewrite Heq. set_solver.
    + pose proof (fork_room _ _ _ _ Hf1 Heq) as Hroom. rewrite length_app in Hroom. lia.
    + intros s2 c2 Hf2 Hhp2 Hmm2 He2. rewrite bind_app, bind_cons, app_nil_r. split_and!; congruence || done.
  - intros c' s' (Hf' & ? & ? & ?). by apply HQ.
Qed.

Lemma wp_copy_heap c s Q :
  fork_inv R s0 u (areas u ≫= area_vpns) s c → heap_area c = ∅ → mmap_area c = ∅ →
  (∀ s' c', fork_inv R s0 u ((areas u ≫= area_vpns) ++ (btree_iter (heap_area u)).*1) s' c' →
     dom (heap_area c') = dom (heap_area u) → mmap_area c' = ∅ → mmap_end c' = mmap_end c → Q c' s') →
  wp (st_fold (fun ms p =>
         '(pt, fs) ← copy_frame (page_table ms) (heap_area ms) p.1 p.2;
         mret (mkMemorySet pt (areas ms) fs (mmap_area ms) (mmap_base ms) (mmap_end ms)))
         c (btree_iter (heap_area u))) Q s.
Proof.
  intros Hf Hhp Hmm HQ. set (AV := areas u ≫= area_vpns) in *.
  eapply wp_mono; [apply (wp_st_fold _ (fun dn c' s' => fork_inv R s0 u (AV ++ dn.*1) s' c' ∧
    dom (heap_area c') = list_to_set dn.*1 ∧ mmap_area c' = ∅ ∧ mmap_end c' = mmap_end c))|].
  - rewrite fmap_nil, app_nil_r, Hhp. done.
  - intros dn [vpn ft] rest c1 s1 Hsplit (Hf1 & Hdom1 & Hmm1 & He1). cbn [fst snd].
    assert (ms_vpns u = (AV ++ dn.*1) ++ vpn :: rest.*1 ++ (btree_iter (mmap_area u)).*1) as Heq.
    { unfold ms_vpns. rewrite Hsplit, fmap_app, <-!app_assoc. done. }
    assert (heap_area u !! vpn = Some ft) as Hft.
    { apply elem_of_btree_iter. rewrite Hsplit. set_solver. }
    destruct (NoDup_prefix _ _ _ _ (uw_nodup _ _ Huw) Heq) as [Hnd Hni].
    wp_step. apply (wp_copy_frame _ s1 c1 (heap_area c1) (areas_frames (areas c1) ++ held (mmap_area c1)) vpn ft
      (fun pt fs => mkMemorySet pt (areas c1) fs (mmap_area c1) (mmap_base c1) (mmap_end c1)) _ Hf1 Hni Hnd).
    + rewrite Heq. set_solver.
    + apply (uw_frame _ _ Huw). by left.
    + pose proof (fork_room _ _ _ _ Hf1 Heq) as Hroom. simpl in Hroom. lia.
    + apply not_elem_of_dom. rewrite Hdom1, elem_of_list_to_set. set_solver.
    + done.
    + intros pt fs. by rewrite ms_frames_heap.
    + by rewrite ms_frames_heap.
    + intros s2 pt2 fs2 Hdom2 Hf2. wp_step. rewrite fmap_app, app_assoc.
      split_and!; [done| |done|done]. cbn [heap_area]. rewrite Hdom2, Hdom1, list_to_set_app_L. set_solver.
  - intros c' s' (Hf' & Hdom & ? & ?). apply HQ; [done| |done|done]. by rewrite Hdom, dom_btree_iter.
Qed.

Lemma wp_copy_mmap c s Q :
  fork_inv R s0 u ((areas u ≫= area_vpns) ++ (btree_iter (heap_area u)).*1) s c → mmap_area c = ∅ →
  (∀ s' c', fork_inv R s0 u (ms_vpns u) s' c' → heap_area c' = heap_area c →
     dom (mmap_area c') = dom (mmap_area u) → mmap_end c' = mmap_end c → Q c' s') →
  wp (st_fold (fun ms p =>
         '(pt, fs) ← copy_frame (page_table ms) (mmap_area ms) p.1 p.2;
         mret (mkMemorySet pt (areas ms) (heap_area ms) fs (mmap_base ms) (mmap_end ms)))
         c (btree_iter (mmap_area u))) Q s.
Proof.
  intros Hf Hmm HQ. set (AV := (areas u ≫= area_vpns) ++ (btree_iter (heap_area u)).*1) in *.
  assert (ms_vpns u = AV ++ (btree_iter (mmap_area u)).*1) as Hvpns
    by (unfold ms_vpns, AV; by rewrite <-app_assoc).
  eapply wp_mono; [apply (wp_st_fold _ (fun dn c' s' => fork_inv R s0 u (AV ++ dn.*1) s' c' ∧
    dom (mmap_area c') = list_to_set dn.*1 ∧ heap_area c' = heap_area c ∧ mmap_end c' = mmap_end c))|].
  - rewrite fmap_nil, app_nil_r, Hmm. done.
  - intros dn [vpn ft] rest c1 s1 Hsplit (Hf1 & Hdom1 & Hhp1 & He1). cbn [fst snd].
    assert (ms_vpns u = (AV ++ dn.*1) ++ vpn :: rest.*1) as Heq.
    { rewrite Hvpns, Hsplit, fmap_app, <-!app_assoc. done. }
    assert (mmap_area u !! vpn = Some ft) as Hft.
    { apply elem_of_btree_iter. rewrite Hsplit. set_solver. }
    destruct (NoDup_prefix _ _ _ _ (uw_nodup _ _ Huw) Heq) as [Hnd Hni].
    wp_step. apply (wp_copy_frame _ s1 c1 (mmap_area c1) (areas_frames (areas c1) ++ held (heap_area c1)) vpn ft
      (fun pt fs => mkMemorySet pt (areas c1) (heap_area c1) fs (mmap_base c1) (mmap_end c1)) _ Hf1 Hni Hnd).
    + rewrite Heq. set_solver.
    + apply (uw_frame _ _ Huw). by right.
    + pose proof (fork_room _ _ _ _ Hf1 Heq) as Hroom. simpl in Hroom. lia.
    + apply not_elem_of_dom. rewrite Hdom1, elem_of_list_to_set. set_solver.
    + done.
    + intros pt fs. by rewrite ms_frames_mmap.
    + by rewrite ms_frames_mmap.
    + intros s2 pt2 fs2 Hdom2 Hf2. wp_step. rewrite fmap_app, app_assoc.
      split_and!; [done| |done|done]. cbn [mmap_area]. rewrite Hdom2, Hdom1, list_to_set_app_L. set_solver.
  - intros c' s' (Hf' & Hdom & ? & ?). rewrite <-Hvpns in Hf'. apply HQ; [done|done| |done]. by rewrite Hdom, dom_btree_iter.
Qed.
End loops.

(** ** The empty child *)

(** The linker places the trampolines on page boundaries. *)
Record symbols_ok (sym : LinkerSymbols) : Prop := {
  so_tramp : strampoline sym mod 4096 = 0 ∧ 0 ≤ strampoline sym < 2 ^ 56;
  so_sig : ssignaltrampoline sym mod 4096 = 0 ∧ 0 ≤ ssignaltrampoline sym < 2 ^ 56;
}.

(** A page of the kernel image mapped into an address space without frames of
    its own. *)
Lemma wp_map_symbol R s ms va vpn pa flags (Q : MemorySet → Machine A → Prop) :
  as_ok R s (page_table ms) [] →
  page_offset (VirtAddr_from_usize va) = 0 → floor (VirtAddr_from_usize va) = vpn →
  0 ≤ vpn < 2 ^ 27 → pa mod 4096 = 0 → 0 ≤ pa < 2 ^ 56 → 0 ≤ flags < 2 ^ 8 →
  (2 ≤ size (fa_free (falloc s)))%nat → ms_view s ms vpn = None →
  (∀ s' ms', as_ok R s' (page_table ms') [] → as_grow s s' (page_table ms) (page_table ms') ∅ →
     areas ms' = areas ms → heap_area ms' = heap_area ms → mmap_area ms' = mmap_area ms →
     (size (fa_free (falloc s)) ≤ size (fa_free (falloc s')) + 2)%nat →
     (∀ v, 0 ≤ v < 2 ^ 27 → v ≠ vpn → ms_view s' ms' v = ms_view s ms v) → Q ms' s') →
  wp (vpn ← VirtPageNum_from_VirtAddr (VirtAddr_from_usize va);
      ppn ← PhysPageNum_from_PhysAddr (PhysAddr_from_usize pa);
      pt ← PageTable_map (page_table ms) vpn ppn flags;
      mret (with_page_table ms pt)) Q s.
Proof.
  intros Hok Hoff Hfl Hv Hal Hpa Hf Hsz Hnone HQ.
  assert (PhysAddr_from_usize pa = pa) as Hpaeq by (rewrite PhysAddr_from_usize_mod, Z.mod_small; lia).
  rewrite Hpaeq. unfold VirtPageNum_from_VirtAddr, PhysPageNum_from_PhysAddr. rewrite Hfl.
  wp_step. wp_step. wp_step; [by apply Z.eqb_eq|]. wp_step. wp_step. wp_step.
  wp_step; [by rewrite page_offset_mod, Hal|]. wp_step. wp_step.
  eapply wp_PageTable_map_as; [done|done| |done|done|done|].
  { unfold floor, PAGE_SIZE. split; [apply Z.div_pos; lia|apply Z.div_lt_upper_bound; lia]. }
  intros s' pt' Hok' Hg Hcnt Hview. wp_step. apply HQ; try done.
  intros v Hvr Hne. unfold ms_view. cbn [with_page_table page_table]. by rewrite Hview, decide_False.
Qed.

Lemma wp_fork_start {B} R s0 u sym (k : MemorySet → ST (Machine A) B) Q :
  fa_inv R (falloc s0) → symbols_ok sym → (5 ≤ size (fa_free (falloc s0)))%nat →
  (∀ s c, fork_inv R s0 u [] s c → heap_area c = ∅ → mmap_area c = ∅ → wp (k c) Q s) →
  wp (ms ← new_bare; ms ← map_trampoline sym ms; ms ← map_signaltrampoline sym ms; k ms) Q s0.
Proof.
  intros Hinv [[Ht1 Ht2] [Hs1 Hs2]] Hsz HQ. wp_step.
  eapply (wp_new_bare R); [done|intros H; rewrite H, size_empty in Hsz; lia|].
  intros s1 c1 Hok1 Hfr1 Har1 Hhp1 Hmm1 _ Hpt1 Hroot Hfree1 Hmem1 Hview1.
  unfold ms_ok in Hok1. rewrite Hfr1 in Hok1.
  assert (size (fa_free (falloc s1)) = size (fa_free (falloc s0)) - 1)%nat as Hsz1
    by (rewrite Hfree1, size_difference, size_singleton by set_solver; done).
  wp_step. unfold map_trampoline. eapply (wp_map_symbol R s1 c1 _ TRAMPOLINE_VPN);
    [done|done|done|done|done|done|done|lia|by apply Hview1|].
  intros s2 c2 Hok2 Hg2 Har2 Hhp2 Hmm2 Hsz2 Hv2. wp_step. unfold map_signaltrampoline.
  eapply (wp_map_symbol R s2 c2 _ SIGNAL_TRAMPOLINE_VPN); [done|done|done|done|done|done|done|lia| |].
  { rewrite Hv2 by done. by apply Hview1. }
  intros s3 c3 Hok3 Hg3 Har3 Hhp3 Hmm3 Hsz3 Hv3.
  pose proof (as_grow_trans _ _ _ _ _ _ _ _ Hg2 Hg3) as Hg. rewrite (left_id_L ∅ (∪)) in Hg.
  assert (∀ vpn, 0 ≤ vpn < SIGNAL_TRAMPOLINE_VPN → ms_view s2 c2 vpn = None) as Hview2.
  { intros vpn Hvpn. unfold SIGNAL_TRAMPOLINE_VPN, TRAMPOLINE_VPN in *.
    rewrite Hv2 by lia. apply Hview1. lia. }
  assert (ms_frames c3 = []) as Hfr3 by (unfold ms_frames in *; congruence).
  assert (fa_free (falloc s1) ⊆ fa_free (falloc s0)) as Hsub1
    by (intros x; rewrite Hfree1, elem_of_difference; tauto).
  assert (∀ x, x ∈ fa_free (falloc s3) ∨ x ∈ pt_frames (page_table c3) → x ∈ fa_free (falloc s0)) as Hsub.
  { intros x Hx. destruct (decide (x ∈ pt_frames (page_table c1))) as [H1|H1].
    - rewrite Hpt1, elem_of_singleton in H1. by subst.
    - apply Hsub1. rewrite (ag_free _ _ _ _ _ Hg), !elem_of_union, elem_of_difference. tauto. }
  clear Hv2 Hok2 Hg2 Hg3.
  apply HQ; [|congruence..]. split.
  - unfold ms_ok. by rewrite Hfr3.
  - rewrite Hfr3. by intros p Hp%not_elem_of_nil.
  - intros f Hf. by apply Hsub; right.
  - intros f Hf. by apply Hsub; left.
  - intros f a Hf Ha. rewrite (as_grow_frame _ _ _ _ _ f a Hg); [|by intros Hin%Hsub1| |done].
    + apply Hmem1. intros Ha'. pose proof (same_page_inj _ _ _ Ha Ha') as ->. done.
    + rewrite Hpt1, elem_of_singleton. by intros ->.
  - by intros vpn Hv%not_elem_of_nil.
  - by intros vpn Hv%not_elem_of_nil.
  - intros vpn Hvpn _. unfold SIGNAL_TRAMPOLINE_VPN, TRAMPOLINE_VPN in *.
    rewrite Hv3, Hview2 by lia. done.
  - simpl. lia.
Qed.

(** ** The theorem *)

(** C2: [from_existed_user] gives the child a copy of the parent's address space:
    every page of the parent's areas, heap and mappings is mapped in the child to a
    frame of its own with the same content; the parent's translations and memory do
    not change, and both address spaces satisfy the invariant, so they share no
    frame. *)
Theorem fork_copies_address_space R s0 sym u :
  ms_ok R s0 u → user_wf s0 u → symbols_ok sym →
  (3 * length (ms_vpns u) + 5 ≤ size (fa_free (falloc s0)))%nat →
  ∃ c s, from_existed_user sym u s0 = Ok (c, s) ∧
    ms_ok R s c ∧ ms_ok R s u ∧ mmap_end c = mmap_end u ∧
    dom (heap_area c) = dom (heap_area u) ∧ dom (mmap_area c) = dom (mmap_area u) ∧
    (∀ p, p ∈ ms_frames c → (p ∉ ms_frames u) ∧ p ∈ fa_free (falloc s0)) ∧
    (∀ f a, f ∉ fa_free (falloc s0) → same_page f a → pmem s a = pmem s0 a) ∧
    (∀ vpn, 0 ≤ vpn < 2 ^ 27 → ms_view s u vpn = ms_view s0 u vpn) ∧
    (∀ vpn, vpn ∈ ms_vpns u → ∃ b b', ms_view s0 u vpn = Some b ∧ ms_view s c vpn = Some b' ∧
       PTE_ppn b' ∈ ms_frames c ∧ same_content (pmem s0) (pmem s) (PTE_ppn b) (PTE_ppn b')).
Proof.
  intros Hu Huw Hsym Hsz.
  assert (wp (from_existed_user sym u) (fun c s => fork_inv R s0 u (ms_vpns u) s c ∧
    mmap_end c = mmap_end u ∧ dom (heap_area c) = dom (heap_area u) ∧
    dom (mmap_area c) = dom (mmap_area u)) s0) as H.
  { unfold from_existed_user.
    eapply (wp_fork_start R s0 u sym); [apply Hu|done|lia|]. intros s1 c1 Hf1 Hhp1 Hmm1.
    wp_step. eapply (wp_copy_areas R s0 u Hu Huw Hsz); [| | |].
    - destruct Hf1 as [? ? ? ? ? ? ? ? ?]. split; done.
    - done.
    - done.
    - intros s2 c2 Hf2 Hhp2 Hmm2 He2. wp_step. eapply (wp_copy_heap R s0 u Hu Huw Hsz); [done|done|done|].
      intros s3 c3 Hf3 Hd3 Hmm3 He3. eapply (wp_copy_mmap R s0 u Hu Huw Hsz); [done|done|].
      intros s4 c4 Hf4 Hhp4 Hd4 He4. cbn [mmap_end] in He2. split_and!; [done|congruence|congruence|done]. }
  apply wp_elim in H as (c & s & Hrun & [Hok Hfr Hpt Hfree Hk Hr Hcop Hrest Hsize] & He & Hdh & Hdm).
  assert (∀ p, p ∈ ms_frames u → p ∉ fa_free (falloc s0)) as Hufr
    by (intros p Hp; by destruct (as_owned _ _ _ _ Hu p Hp) as (_ & _ & ?)).
  exists c, s. split_and!; [done|done| |done|done|done| |done| |done].
  - pose proof Hu as [Hupt Hund Huown]. split; [|done|].
    + apply (pt_ok_stable R s0); [done|apply Hok| |].
      * pose proof (pt_ok_disjoint _ _ _ Hupt). set_solver.
      * intros f a Hf. apply Hk. pose proof (pt_ok_disjoint _ _ _ Hupt). set_solver.
    + intros p Hp. destruct (Huown p Hp) as (? & ? & ?). set_solver.
  - intros p Hp. split; [|by apply Hfr]. intros Hp'. by apply (Hufr p Hp'), Hfr.
  - intros vpn Hvpn. by apply (keeps_view R).
Qed.
End fork.

(** ** Witness: a process with one page *)

Definition sample_symbols : LinkerSymbols :=
  mkLinkerSymbols 0x80200000 0x80210000 0x80210000 0x80220000 0x80220000 0x80230000
    0x80230000 0x80240000 0x80240000 0x80200000 0x80201000.

Lemma sample_user :
  ∃ u s, ms_ok sample_frames s u ∧ user_wf s u ∧ ms_vpns u = [16] ∧
    (12 ≤ size (fa_free (falloc (A:=StackFrameAllocator) s)))%nat.
Proof.
  destruct sample_bare as (ms & s & _ & Hok & Har & Hhp & Hmm & _ & Hview & Hsz).
  assert (wp (push ms (mkMapArea (mkSimpleRange 16 17) ∅ Framed MapPermission_R) None) (fun u s' =>
    ms_ok sample_frames s' u ∧ user_wf s' u ∧ ms_vpns u = [16] ∧
    (12 ≤ size (fa_free (falloc s')))%nat) s) as H.
  { eapply (wp_push_framed sample_frames); [done|done|lia|lia|intros; apply Hview; lia|lia|].
    intros G s' u fs' HG Hok' Hfs' Har' Hhp' Hmm' _ Hg Hsize Hadd. rewrite Har in Har'. cbn [app] in Har'. rewrite Hhp in Hhp'.
    rewrite Hmm in Hmm'.
    assert (ms_vpns u = [16]) as Hv.
    { unfold ms_vpns. rewrite Har', Hhp', Hmm', !btree_iter_empty. done. }
    assert (is_Some (G !! 16)) as [p Hp] by (rewrite <-elem_of_dom, HG; set_solver).
    assert (size G = 1%nat) as HsG by (rewrite <-size_dom, HG; done).
    assert (p ∈ ms_frames u) as Hpin.
    { unfold ms_frames. rewrite Har', Hfs'. apply elem_of_app. left. apply elem_of_app. left.
      pose proof (held_fresh G ∅ ltac:(intros; apply lookup_empty)) as Hheld.
      rewrite (right_id_L ∅ (∪)) in Hheld. cbn [data_frames]. rewrite Hheld. apply elem_of_app. left.
      apply elem_of_map_values. by exists 16. }
    destruct (as_owned _ _ _ _ Hok' p Hpin) as (HpR & _ & Hpf).
    assert (0 ≤ p < 2 ^ 44) as Hpr by (apply (fa_range sample_frames (falloc s') p); [apply Hok'|done]).
    split_and!; [done| |done|lia]. split.
    - intros a. rewrite Har', list_elem_of_singleton. intros ->. done.
    - rewrite Hv. apply NoDup_singleton.
    - intros vpn. rewrite Hv, list_elem_of_singleton. intros ->. split; [done|].
      exists (PTE_new p (Z.lor MapPermission_R PTE_V)).
      rewrite (add_view _ _ _ _ _ _ Hadd), Hp, PTE_ppn_new by done. done.
    - intros vpn ft. rewrite Hhp', Hmm', !lookup_empty. by intros [|]. }
  apply wp_elim in H as (u & s' & _ & H). by exists u, s'.
Qed.

Lemma fork_copies_address_space_witness :
  ∃ u s0 c s, ms_ok sample_frames s0 u ∧ ms_vpns u = [16] ∧
    from_existed_user sample_symbols u s0 = Ok (c, s) ∧ ms_ok sample_frames s c.
Proof.
  destruct sample_user as (u & s0 & Hok & Huw & Hv & Hsz).
  destruct (fork_copies_address_space sample_frames s0 sample_symbols u Hok Huw) as (c & s & Hrun & Hc & _).
  - split; by vm_compute.
  - rewrite Hv. cbn [length]. lia.
  - by exists u, s0, c, s.
Defined.
