(* ===== verification/Pipe.v ===== *)
(** * Pipes: [kernel/src/fs/dev/pipe.rs]

    A pipe is a ring buffer of 1024 bytes shared by a read end and a write
    end.  One round of the [loop] of a read or write call runs without
    interruption; between rounds the caller suspends itself and other tasks
    run.  A call is therefore a state that is advanced round by round, and an
    execution is an interleaving of rounds. *)

From S2P Require Import Prelude Config Address PhysMem UserMem.

Definition RING_BUFFER_SIZE : Z := 1024.

Inductive RingBufferStatus : Type := Full | Empty | Normal.

#[global] Instance RingBufferStatus_eq_dec : EqDecision RingBufferStatus.
Proof. solve_decision. Defined.

(** [write_end] and [read_end] are [Option<Weak<Pipe>>]: what matters of a
    [Weak] is whether it can still be upgraded. *)
Record PipeRingBuffer : Type := mkPipeRingBuffer {
  arr : list Z;
  head : Z;
  tail : Z;
  status : RingBufferStatus;
  write_end : option bool;
  read_end : option bool
}.

Definition PipeRingBuffer_new : PipeRingBuffer :=
  mkPipeRingBuffer (replicate (Z.to_nat RING_BUFFER_SIZE) 0) 0 0 Empty None None.

Definition set_write_end (rb : PipeRingBuffer) : PipeRingBuffer :=
  mkPipeRingBuffer (arr rb) (head rb) (tail rb) (status rb) (Some true) (read_end rb).

Definition set_read_end (rb : PipeRingBuffer) : PipeRingBuffer :=
  mkPipeRingBuffer (arr rb) (head rb) (tail rb) (status rb) (write_end rb) (Some true).

(** The buffer that [make_pipe] hands to both ends. *)
Definition make_pipe : PipeRingBuffer := set_read_end (set_write_end PipeRingBuffer_new).

Definition write_byte (rb : PipeRingBuffer) (byte : Z) : outcome PipeRingBuffer :=
  if tail rb <? Z.of_nat (length (arr rb)) then
    let arr' := <[Z.to_nat (tail rb) := byte]> (arr rb) in
    let tail' := (tail rb ⊞ 1) mod RING_BUFFER_SIZE in
    let status' := if tail' =? head rb then Full else Normal in
    Ok (mkPipeRingBuffer arr' (head rb) tail' status' (write_end rb) (read_end rb))
  else Panic.

Definition read_byte (rb : PipeRingBuffer) : outcome (Z * PipeRingBuffer) :=
  match arr rb !! Z.to_nat (head rb) with
  | None => Panic
  | Some c =>
      let head' := (head rb ⊞ 1) mod RING_BUFFER_SIZE in
      let status' := if head' =? tail rb then Empty else Normal in
      Ok (c, mkPipeRingBuffer (arr rb) head' (tail rb) status' (write_end rb) (read_end rb))
  end.

Definition available_read (rb : PipeRingBuffer) : Z :=
  if bool_decide (status rb = Empty) then 0
  else if head rb <? tail rb then tail rb ⊟ head rb
  else tail rb ⊞ RING_BUFFER_SIZE ⊟ head rb.

Definition available_write (rb : PipeRingBuffer) : Z :=
  if bool_decide (status rb = Full) then 0 else RING_BUFFER_SIZE ⊟ available_read rb.

(** [self.write_end.as_ref().unwrap().upgrade().is_none()] *)
Definition all_write_ends_closed (rb : PipeRingBuffer) : outcome bool :=
  match write_end rb with Some alive => Ok (negb alive) | None => Panic end.
Definition all_read_ends_closed (rb : PipeRingBuffer) : outcome bool :=
  match read_end rb with Some alive => Ok (negb alive) | None => Panic end.

(** ** The two ends *)

Record Pipe : Type := mkPipe { readable : bool; writable : bool }.
Definition read_end_with_buffer : Pipe := mkPipe true false.
Definition write_end_with_buffer : Pipe := mkPipe false true.

(** The memory the calls work on and the shared buffer. *)
Record PipeSys : Type := mkPipeSys { p_mem : PMem; p_ring : PipeRingBuffer }.

Definition set_ring (rb : PipeRingBuffer) : ST PipeSys unit :=
  modify (fun s => mkPipeSys (p_mem s) rb).

(** The [for _ in 0..loop_read] loop of [read_user]: [inl] is a returned
    value, [inr] the end of the loop. *)
Fixpoint read_for (want_to_read : Z) (n : nat) (it : UserBufferIterator) (already_read : Z)
    : ST PipeSys (Z + UserBufferIterator * Z) :=
  match n with
  | O => mret (inr (it, already_read))
  | S n =>
      '(r, it) ← lift (UserBufferIterator_next it);
      match r with
      | Some byte_ref =>
          rb ← gets p_ring;
          '(c, rb) ← lift (read_byte rb);
          modify (fun s => mkPipeSys (write_bytes (p_mem s) byte_ref [c]) rb);;
          let already_read := already_read ⊞ 1 in
          if already_read =? want_to_read then mret (inl want_to_read)
          else read_for want_to_read n it already_read
      | None => mret (inl already_read)
      end
  end.

(** One round of [read_user]: [inr] means that the caller suspends itself and
    tries again. *)
Definition read_round (want_to_read : Z) (it : UserBufferIterator) (already_read : Z)
    : ST PipeSys (Z + UserBufferIterator * Z) :=
  rb ← gets p_ring;
  let loop_read := available_read rb in
  if loop_read =? 0 then
    closed ← lift (all_write_ends_closed rb);
    mret (if closed : bool then inl already_read else inr (it, already_read))
  else
    r ← read_for want_to_read (Z.to_nat loop_read) it already_read;
    match r with
    | inl n => mret (inl n)
    | inr (it, already_read) =>
        mret (if 0 <? loop_read then inl already_read else inr (it, already_read))
    end.

(** [write] and [write_user] differ in where the next byte comes from. *)
Section write.
Context {I : Type} (next : I → ST PipeSys (option Z * I)).

Fixpoint write_for (want_to_write : Z) (n : nat) (it : I) (already_write : Z)
    : ST PipeSys (Z + I * Z) :=
  match n with
  | O => mret (inr (it, already_write))
  | S n =>
      '(r, it) ← next it;
      match r with
      | Some byte =>
          rb ← gets p_ring;
          rb ← lift (write_byte rb byte);
          set_ring rb;;
          let already_write := already_write ⊞ 1 in
          if already_write =? want_to_write then mret (inl want_to_write)
          else write_for want_to_write n it already_write
      | None => mret (inl already_write)
      end
  end.

Definition write_round (want_to_write : Z) (it : I) (already_write : Z)
    : ST PipeSys (Z + I * Z) :=
  rb ← gets p_ring;
  let loop_write := available_write rb in
  if loop_write =? 0 then mret (inr (it, already_write))
  else write_for want_to_write (Z.to_nat loop_write) it already_write.
End write.

(** The iterators of [write] (a slice) and of [write_user] (user memory). *)
Definition slice_next (it : list Z) : ST PipeSys (option Z * list Z) :=
  mret (match it with [] => (None, []) | b :: it => (Some b, it) end).

Definition user_next (it : UserBufferIterator) : ST PipeSys (option Z * UserBufferIterator) :=
  '(r, it) ← lift (UserBufferIterator_next it);
  m ← gets p_mem;
  mret (m <$> r, it).

(** The start of the calls: the asserts and the initial locals. *)
Definition read_user (self : Pipe) (buf : UserBuffer) : ST PipeSys (Z + UserBufferIterator * Z) :=
  rust_assert (readable self);;
  read_round (UserBuffer_len buf) (UserBuffer_into_iter buf) 0.

Definition write_user (self : Pipe) (buf : UserBuffer) : ST PipeSys (Z + UserBufferIterator * Z) :=
  rust_assert (writable self);;
  write_round user_next (UserBuffer_len buf) (UserBuffer_into_iter buf) 0.

Definition write (self : Pipe) (buf : list Z) : ST PipeSys (Z + list Z * Z) :=
  rust_assert (writable self);;
  write_round slice_next (Z.of_nat (length buf)) buf 0.

Definition r_ready (rb : PipeRingBuffer) : bool := negb (bool_decide (status rb = Empty)).
Definition w_ready (rb : PipeRingBuffer) : bool := negb (bool_decide (status rb = Full)).
Definition get_size : Z := RING_BUFFER_SIZE.
Definition hang_up (self : Pipe) (rb : PipeRingBuffer) : outcome bool :=
  if readable self then all_write_ends_closed rb else all_read_ends_closed rb.

(** ** The ring buffer is a bounded queue *)

Record rb_wf (rb : PipeRingBuffer) : Prop := {
  rb_len : length (arr rb) = 1024%nat;
  rb_head : 0 ≤ head rb < 1024;
  rb_tail : 0 ≤ tail rb < 1024;
  rb_status : match status rb with Full | Empty => head rb = tail rb | Normal => head rb ≠ tail rb end;
}.

(** The bytes in the pipe, oldest first. *)
Definition contents (rb : PipeRingBuffer) : list Z :=
  (fun i => arr rb !!! Z.to_nat ((head rb + i) mod 1024)) <$> seqZ 0 (available_read rb).

Lemma available_read_cases rb :
  rb_wf rb →
  available_read rb =
    match status rb with Empty => 0 | Full => 1024 | Normal => (tail rb - head rb) mod 1024 end.
Proof.
  intros [_ Hh Ht Hs]. unfold available_read, RING_BUFFER_SIZE.
  destruct (status rb); cbn [bool_decide decide decide_rel RingBufferStatus_eq_dec]; simpl; [|done|].
  - rewrite Hs, (proj2 (Z.ltb_ge _ _)) by lia.
    rewrite (wrap64_small (_ + _)), wrap64_small by (unfold is_usize; lia). lia.
  - destruct (Z.ltb_spec (head rb) (tail rb)).
    + rewrite wrap64_small by (unfold is_usize; lia). by rewrite Z.mod_small by lia.
    + rewrite (wrap64_small (_ + _)), wrap64_small by (unfold is_usize; lia).
      rewrite <-(Z_mod_plus_full _ 1). rewrite Z.mod_small by lia. lia.
Qed.

Lemma available_read_range rb : rb_wf rb → 0 ≤ available_read rb ≤ 1024.
Proof.
  intros Hwf. rewrite available_read_cases by done.
  pose proof (Z.mod_pos_bound (tail rb - head rb) 1024). destruct (status rb); lia.
Qed.

Lemma tail_pos rb : rb_wf rb → tail rb = (head rb + available_read rb) mod 1024.
Proof.
  intros Hwf. rewrite available_read_cases by done. destruct Hwf as [_ Hh Ht Hs].
  destruct (status rb).
  - rewrite Hs, <-(Z.mul_1_l 1024) at 1. rewrite Z_mod_plus_full, Z.mod_small by lia. done.
  - rewrite Z.add_0_r, Z.mod_small by lia. done.
  - rewrite Zplus_mod_idemp_r. replace (head rb + (tail rb - head rb)) with (tail rb) by lia.
    by rewrite Z.mod_small by lia.
Qed.

(** The status tells the number of bytes. *)
Lemma status_available rb :
  rb_wf rb → (status rb = Empty ↔ available_read rb = 0) ∧ (status rb = Full ↔ available_read rb = 1024).
Proof.
  intros Hwf. rewrite available_read_cases by done. destruct Hwf as [_ Hh Ht Hs].
  pose proof (Z.mod_pos_bound (tail rb - head rb) 1024 ltac:(done)).
  destruct (status rb); repeat split; try done; intros Heq; try lia.
  exfalso. apply Hs. apply Z.mod_divide in Heq as [q Hq]; [|done]. assert (q = 0) by lia. lia.
Qed.

Lemma contents_length rb : rb_wf rb → Z.of_nat (length (contents rb)) = available_read rb.
Proof.
  intros Hwf%available_read_range. unfold contents. rewrite length_fmap, length_seqZ. lia.
Qed.

Lemma available_write_eq rb : rb_wf rb → available_write rb = 1024 - available_read rb.
Proof.
  intros Hwf. destruct (status_available rb Hwf) as [_ Hf]. pose proof (available_read_range rb Hwf).
  unfold available_write. case_bool_decide as Hs; [apply Hf in Hs; lia|].
  unfold RING_BUFFER_SIZE. rewrite wrap64_small; [done|unfold is_usize; lia].
Qed.

(** The positions of the queue are all different. *)
Lemma ring_pos_inj h i j :
  0 ≤ i < 1024 → 0 ≤ j < 1024 → (h + i) mod 1024 = (h + j) mod 1024 → i = j.
Proof.
  intros Hi Hj Heq. assert (((h + i) - (h + j)) mod 1024 = 0) as H0.
  { rewrite Zminus_mod, Heq, Z.sub_diag. done. }
  apply Z.mod_divide in H0 as [q Hq]; [|done]. assert (q = 0) by lia. lia.
Qed.

Lemma new_status rb' n :
  length (arr rb') = 1024%nat → 0 ≤ head rb' < 1024 → 0 ≤ n ≤ 1024 →
  tail rb' = (head rb' + n) mod 1024 →
  match status rb' with Empty => n = 0 | Full => n = 1024 | Normal => 0 < n < 1024 end →
  rb_wf rb' ∧ available_read rb' = n.
Proof.
  intros Hl Hh Hn Ht Hs.
  assert (n = 0 ∨ n = 1024 → tail rb' = head rb') as Heq.
  { intros Hcase. rewrite Ht. destruct Hcase as [->| ->].
    - rewrite Z.add_0_r, Z.mod_small by lia. done.
    - rewrite <-(Z.mul_1_l 1024) at 1. rewrite Z_mod_plus_full, Z.mod_small by lia. done. }
  assert (rb_wf rb') as Hwf.
  { split; [done|done|rewrite Ht; apply Z.mod_pos_bound; lia|].
    destruct (status rb'); [symmetry; apply Heq; lia|symmetry; apply Heq; lia|].
    intros Hht. assert (0 = n); [|lia]. apply (ring_pos_inj (head rb')); [lia|lia|].
    rewrite <-Ht, <-Hht, Z.add_0_r, Z.mod_small by lia. done. }
  split; [done|]. rewrite available_read_cases by done. destruct (status rb'); [done|done|].
  rewrite Ht, Zminus_mod_idemp_l. replace (head rb' + n - head rb') with n by lia. apply Z.mod_small. lia.
Qed.

Lemma write_byte_spec rb b :
  rb_wf rb → available_read rb < 1024 →
  ∃ rb', write_byte rb b = Ok rb' ∧ rb_wf rb' ∧ contents rb' = contents rb ++ [b] ∧
    write_end rb' = write_end rb ∧ read_end rb' = read_end rb.
Proof.
  intros Hwf Hlt. pose proof (available_read_range rb Hwf) as Hn. pose proof (tail_pos rb Hwf) as Htp.
  destruct Hwf as [Hl Hh Ht Hs] eqn:E. clear E. set (n := available_read rb) in *.
  unfold write_byte. rewrite (proj2 (Z.ltb_lt _ _)) by lia. eexists. split; [done|].
  set (rb' := mkPipeRingBuffer _ _ _ _ _ _).
  assert ((tail rb ⊞ 1) mod RING_BUFFER_SIZE = (head rb + (n + 1)) mod 1024) as Htail.
  { unfold RING_BUFFER_SIZE. rewrite wrap64_small by (unfold is_usize; lia).
    rewrite Htp, Zplus_mod_idemp_l. f_equal. lia. }
  assert (rb_wf rb' ∧ available_read rb' = n + 1) as [Hwf' Hav'].
  { apply new_status; [cbn; by rewrite length_insert|done|lia|done|]. cbn [status rb']. rewrite Htail.
    destruct (Z.eqb_spec ((head rb + (n + 1)) mod 1024) (head rb)) as [Heq|Hne].
    - destruct (decide (n + 1 = 1024)); [done|]. exfalso.
      assert (n + 1 = 0); [|lia]. apply (ring_pos_inj (head rb)); [lia|lia|].
      rewrite Heq, Z.add_0_r, Z.mod_small by lia. done.
    - destruct (decide (n + 1 = 1024)) as [He|]; [|lia]. exfalso. apply Hne.
      rewrite He, <-(Z.mul_1_l 1024) at 1. rewrite Z_mod_plus_full, Z.mod_small by lia. done. }
  split_and!; [done| |done|done]. unfold contents. rewrite Hav'. cbn [arr head rb'].
  replace (n + 1) with (n + Z.of_nat 1) by lia. rewrite seqZ_app by lia. rewrite fmap_app. fold n. f_equal.
  - apply list_fmap_ext. intros i x [-> Hx]%lookup_seqZ. rewrite Z.add_0_l.
    apply list_lookup_total_insert_ne. intros Heq. apply (f_equal Z.of_nat) in Heq.
    rewrite !Z2Nat.id in Heq by (try lia; apply Z.mod_pos_bound; lia).
    rewrite Htp in Heq. apply ring_pos_inj in Heq; lia.
  - change (seqZ (0 + n) (Z.of_nat 1)) with [n]. rewrite list_fmap_singleton, <-Htp. f_equal.
    apply list_lookup_total_insert_eq. lia.
Qed.

Lemma read_byte_spec rb :
  rb_wf rb → 0 < available_read rb →
  ∃ c rb', read_byte rb = Ok (c, rb') ∧ rb_wf rb' ∧ contents rb = c :: contents rb' ∧
    write_end rb' = write_end rb ∧ read_end rb' = read_end rb.
Proof.
  intros Hwf Hpos. pose proof (available_read_range rb Hwf) as Hn. pose proof (tail_pos rb Hwf) as Htp.
  pose proof Hwf as [Hl Hh Ht Hs]. set (n := available_read rb) in *.
  unfold read_byte. destruct (lookup_lt_is_Some_2 (arr rb) (Z.to_nat (head rb))) as [c Hc]; [lia|].
  rewrite Hc. eexists c, _. split; [done|]. set (rb' := mkPipeRingBuffer _ _ _ _ _ _).
  assert ((head rb ⊞ 1) mod RING_BUFFER_SIZE = (head rb + 1) mod 1024) as Hhead.
  { unfold RING_BUFFER_SIZE. by rewrite wrap64_small by (unfold is_usize; lia). }
  assert (rb_wf rb' ∧ available_read rb' = n - 1) as [Hwf' Hav'].
  { apply new_status; cbn [arr head tail status rb']; rewrite ?Hhead.
    - done.
    - apply Z.mod_pos_bound. lia.
    - lia.
    - rewrite Zplus_mod_idemp_l, Htp. f_equal. lia.
    - destruct (Z.eqb_spec ((head rb + 1) mod 1024) (tail rb)) as [Heq|Hne].
      + destruct (decide (n = 1024)) as [He|].
        * exfalso. assert (1 = 0); [|done]. apply (ring_pos_inj (head rb)); [lia|lia|].
          rewrite Heq, Htp, He, Z.add_0_r, <-(Z.mul_1_l 1024) at 1. by rewrite Z_mod_plus_full.
        * assert (1 = n); [|lia]. apply (ring_pos_inj (head rb)); [lia|lia|congruence].
      + assert (n ≠ 1) by (intros He; apply Hne; by rewrite Htp, He). lia. }
  split_and!; [done| |done|done]. unfold contents. rewrite Hav'. fold n. cbn [arr head rb']. rewrite Hhead.
  rewrite (seqZ_cons 0 n), fmap_cons by lia. f_equal.
  - rewrite Z.add_0_r, Z.mod_small by lia. by apply list_lookup_total_correct.
  - apply list_eq. intros i. rewrite !list_lookup_fmap.
    destruct (decide (Z.of_nat i < n - 1)).
    + rewrite !lookup_seqZ_lt by lia. simpl. do 3 f_equal. rewrite Zplus_mod_idemp_l. f_equal. lia.
    + by rewrite !lookup_seqZ_ge by lia.
Qed.

(** ** Rounds *)

(** What a write call needs of its iterator: the bytes it still has to give,
    in a given memory. *)
Class ByteSource (I : Type) (next : I → ST PipeSys (option Z * I)) : Type := {
  source_rem : I → PMem → list Z → Prop;
  source_next it s data :
    source_rem it (p_mem s) data →
    match data with
    | [] => ∃ it', next it s = Ok ((None, it'), s)
    | b :: rest => ∃ it', next it s = Ok ((Some b, it'), s) ∧ source_rem it' (p_mem s) rest
    end;
}.

#[global] Instance slice_source : ByteSource (list Z) slice_next.
Proof.
  refine {| source_rem it _ data := it = data |}.
  intros it s data ->. destruct data as [|b rest]; [by exists []|by exists rest].
Defined.

#[global] Instance user_source : ByteSource UserBufferIterator user_next.
Proof.
  refine {| source_rem it m data := ∃ addrs, iter_rem it addrs ∧ data = m <$> addrs |}.
  intros it s data (addrs & Hit & ->). pose proof (iter_rem_next it addrs Hit) as Hn.
  unfold user_next, mbind, st_bind, lift. destruct addrs as [|a rest]; simpl.
  - rewrite Hn. by exists it.
  - destruct Hn as (it' & -> & Hit'). exists it'. split; [done|by exists rest].
Defined.

Section write_rounds.
Context {I : Type} {next : I → ST PipeSys (option Z * I)} {BS : ByteSource I next}.

Lemma wp_write_for want n it already data s :
  rb_wf (p_ring s) → Z.of_nat n = 1024 - available_read (p_ring s) → source_rem it (p_mem s) data →
  0 ≤ already → want = already + Z.of_nat (length data) → want < 2 ^ 64 → (0 < n)%nat →
  wp (write_for next want n it already) (fun r s' =>
    p_mem s' = p_mem s ∧ rb_wf (p_ring s') ∧ write_end (p_ring s') = write_end (p_ring s) ∧
    contents (p_ring s') = contents (p_ring s) ++ take n data ∧
    match r with
    | inl ret => ret = want ∧ (length data ≤ n)%nat
    | inr (it', al) => al = already + Z.of_nat n ∧ source_rem it' (p_mem s) (drop n data) ∧
                       (n < length data)%nat
    end) s.
Proof.
  revert it already data s. induction n as [|n IH]; intros it already data s Hwf Hn Hrem Ha Hw Hbig Hpos; [lia|].
  cbn [write_for]. pose proof (source_next it s data Hrem) as Hnext. wp_step.
  destruct data as [|b rest]; cbn [length] in *.
  { destruct Hnext as (it' & Hnx). eapply wp_intro; [exact Hnx|]. cbn beta iota. wp_step.
    rewrite app_nil_r. split_and!; [done|done|done|done|lia|lia]. }
  destruct Hnext as (it' & Hnx & Hrem'). eapply wp_intro; [exact Hnx|]. cbn beta iota. wp_step. wp_step.
  destruct (write_byte_spec (p_ring s) b Hwf) as (rb' & Hwb & Hwf' & Hc & Hwe & Hre); [lia|].
  pose proof (contents_length _ Hwf) as Hl1. pose proof (contents_length _ Hwf') as Hl2.
  rewrite Hc, length_app in Hl2. simpl in Hl2.
  wp_step. eapply wp_lift; [done|]. wp_step. unfold set_ring. wp_step.
  rewrite wrap64_small by (unfold is_usize; lia).
  destruct (Z.eqb_spec (already + 1) want) as [He|Hne].
  - assert (rest = []) as -> by (destruct rest; simpl in *; [done|lia]). wp_step. cbn [p_ring p_mem].
    rewrite Hc. rewrite firstn_all2 by (simpl; lia). split_and!; done || (simpl; lia).
  - destruct (decide (n = O)) as [->|Hn0].
    + simpl. wp_step. cbn [p_mem p_ring]. rewrite Hc, take_0, drop_0.
      split_and!; try done; destruct rest; simpl in *; lia.
    + eapply wp_mono; [apply (IH it' (already + 1) rest); cbn [p_ring p_mem]; try done; lia|].
      cbn [p_ring p_mem]. intros r s' (Hm & Hwf2 & Hwe2 & Hc2 & Hr). cbn [take drop].
      split_and!; [done|done|congruence| |].
      * rewrite Hc2, Hc, <-app_assoc. done.
      * destruct r as [ret|[it2 al]]; [destruct Hr; split; [done|lia]|]. destruct Hr as (-> & Hr & Hlt).
        split_and!; [lia|done|lia].
Qed.

(** One round of a write call moves as many bytes as fit. *)
Lemma write_round_spec want it already data s :
  rb_wf (p_ring s) → source_rem it (p_mem s) data → 0 ≤ already →
  want = already + Z.of_nat (length data) → want < 2 ^ 64 →
  let room := (1024 - length (contents (p_ring s)))%nat in
  ∃ r s', write_round next want it already s = Ok (r, s') ∧
    p_mem s' = p_mem s ∧ rb_wf (p_ring s') ∧ write_end (p_ring s') = write_end (p_ring s) ∧
    contents (p_ring s') = contents (p_ring s) ++ take room data ∧
    match r with
    | inl ret => ret = want ∧ (length data ≤ room)%nat ∧ (0 < room)%nat
    | inr (it', al) => al = already + Z.of_nat (min room (length data)) ∧
        source_rem it' (p_mem s) (drop room data) ∧ (room = 0 ∨ room < length data)%nat
    end.
Proof.
  intros Hwf Hrem Ha Hw Hbig room. pose proof (contents_length _ Hwf) as Hl.
  pose proof (available_read_range _ Hwf) as Hav. apply wp_elim.
  unfold write_round. wp_step. wp_step. rewrite available_write_eq by done.
  destruct (Z.eqb_spec (1024 - available_read (p_ring s)) 0) as [H0|H0].
  - wp_step. replace room with O by lia. rewrite take_0, drop_0, app_nil_r.
    split_and!; try done; [simpl; lia|by left].
  - replace (Z.to_nat (1024 - available_read (p_ring s))) with room by lia.
    eapply wp_mono; [apply (wp_write_for want room it already data); try done; lia|].
    intros r s' (Hm & Hwf' & Hwe & Hc & Hr). split_and!; [done|done|done|done|].
    destruct r as [ret|[it' al]]; [destruct Hr; split_and!; [done|done|lia]|].
    destruct Hr as (-> & Hr & Hlt). split_and!; [lia|done|by right].
Qed.
End write_rounds.

Lemma wp_read_for want n it already addrs s :
  rb_wf (p_ring s) → Z.of_nat n = available_read (p_ring s) → iter_rem it addrs → NoDup addrs →
  0 ≤ already → want = already + Z.of_nat (length addrs) → want < 2 ^ 64 →
  let k := min n (length addrs) in
  wp (read_for want n it already) (fun r s' =>
    rb_wf (p_ring s') ∧ write_end (p_ring s') = write_end (p_ring s) ∧
    contents (p_ring s) = take k (contents (p_ring s)) ++ contents (p_ring s') ∧
    written (p_mem s) (p_mem s') addrs (take k (contents (p_ring s))) ∧
    match r with inl ret => ret = already + Z.of_nat k | inr (_, al) => al = already + Z.of_nat k end) s.
Proof.
  revert it already addrs s. induction n as [|n IH]; intros it already addrs s Hwf Hn Hit Hnd Ha Hw Hbig k.
  { simpl. wp_step. split_and!; try done; try apply written_nil; unfold k; simpl; lia. }
  pose proof (iter_rem_next it addrs Hit) as Hnx. cbn [read_for]. wp_step.
  destruct addrs as [|a rest].
  { eapply wp_lift; [exact Hnx|]. cbn beta iota. wp_step. unfold k. rewrite Nat.min_0_r, take_0.
    split_and!; try done; try apply written_nil; simpl; lia. }
  destruct Hnx as (it' & Hnx & Hit'). eapply wp_lift; [exact Hnx|]. cbn beta iota. wp_step. wp_step.
  destruct (read_byte_spec (p_ring s) Hwf) as (c & rb' & Hrb & Hwf' & Hc & Hwe & Hre); [lia|].
  pose proof (contents_length _ Hwf) as Hl1. pose proof (contents_length _ Hwf') as Hl2.
  rewrite Hc in Hl1. cbn [length] in *. apply NoDup_cons in Hnd as [Hni Hnd].
  wp_step. eapply wp_lift; [done|]. cbn beta iota. wp_step. wp_step.
  rewrite wrap64_small by (unfold is_usize; lia).
  assert (written (p_mem s) (write_bytes (p_mem s) a [c]) [a] [c]) as Hwr
    by by apply (written_write_bytes _ a 1 [c]).
  destruct (Z.eqb_spec (already + 1) want) as [He|Hne].
  - assert (rest = []) as -> by (destruct rest; simpl in *; [done|lia]). wp_step. cbn [p_ring p_mem].
    unfold k. rewrite Hc. cbn [length Nat.min take]. rewrite Nat.min_0_r, take_0.
    split_and!; done || (simpl; lia).
  - eapply wp_mono; [apply (IH it' (already + 1) rest); cbn [p_ring p_mem]; try done; lia|].
    cbn [p_ring p_mem]. intros r s' (Hwf2 & Hwe2 & Hc2 & Hw2 & Hr).
    unfold k. rewrite Hc. cbn [length Nat.min take app]. split_and!; [done|congruence|by f_equal| |].
    + eapply (written_app _ (write_bytes (p_mem s) a [c]) _ [a] rest [c]); [done|by constructor|done|done].
    + destruct r as [ret|[? ?]]; lia.
Qed.

(** One round of a read call: it returns unless the pipe is empty and the
    write end is open. *)
Lemma read_round_spec want it already addrs s alive :
  rb_wf (p_ring s) → write_end (p_ring s) = Some alive → iter_rem it addrs → NoDup addrs →
  0 ≤ already → want = already + Z.of_nat (length addrs) → want < 2 ^ 64 →
  let k := min (length (contents (p_ring s))) (length addrs) in
  ∃ r s', read_round want it already s = Ok (r, s') ∧
    rb_wf (p_ring s') ∧ write_end (p_ring s') = Some alive ∧
    contents (p_ring s) = take k (contents (p_ring s)) ++ contents (p_ring s') ∧
    written (p_mem s) (p_mem s') addrs (take k (contents (p_ring s))) ∧
    match r with
    | inl ret => ret = already + Z.of_nat k
    | inr (it', al) => contents (p_ring s) = [] ∧ alive = true ∧ it' = it ∧ al = already ∧ s' = s
    end.
Proof.
  intros Hwf Halive Hit Hnd Ha Hw Hbig k. pose proof (contents_length _ Hwf) as Hl.
  pose proof (available_read_range _ Hwf) as Hav. apply wp_elim.
  unfold read_round. wp_step. wp_step.
  destruct (Z.eqb_spec (available_read (p_ring s)) 0) as [H0|H0].
  - assert (contents (p_ring s) = []) as Hnil by (apply length_zero_iff_nil; lia).
    assert (k = O) as Hk by (unfold k; rewrite Hnil; done). rewrite Hk, Hnil.
    wp_step. unfold all_write_ends_closed. rewrite Halive. eapply wp_lift; [done|]. wp_step.
    split_and!; try done; [apply written_nil|]. destruct alive; simpl; [done|lia].
  - wp_step. eapply wp_mono; [apply (wp_read_for want _ it already addrs); try done; lia|].
    replace (Z.to_nat (available_read (p_ring s))) with (length (contents (p_ring s))) by lia.
    intros r s' (Hwf' & Hwe & Hc & Hwr & Hr).
    destruct r as [ret|[it' al]]; wp_step; [split_and!; done || congruence|].
    rewrite (proj2 (Z.ltb_lt 0 _)) by lia. split_and!; done || congruence.
Qed.

(** ** Executions *)

(** One writing and one reading task.  [writer] is the write call in
    progress: what is left of its slice, [already_write] and
    [want_to_write].  [sent] lists the bytes of all write calls so far and
    [got] the bytes the reads have put into user memory. *)
Record Stream : Type := mkStream {
  st_ring : PipeRingBuffer;
  st_writer : option (list Z * Z * Z);
  st_sent : list Z;
  st_got : list Z
}.

Definition stream_init : Stream := mkStream make_pipe None [] [].

Definition valid_buffer (ub : UserBuffer) : Prop :=
  Forall (fun b : PSlice => 0 < b.2 < 2 ^ 64) (buffers ub) ∧ Z.of_nat (length (buffers ub)) < 2 ^ 64 ∧
  NoDup (slice_addrs (buffers ub)) ∧ Z.of_nat (length (slice_addrs (buffers ub))) < 2 ^ 64.

(** The bytes a finished read has stored. *)
Definition read_result (r : Z + UserBufferIterator * Z) (m : PMem) (ub : UserBuffer) : list Z :=
  match r with inl n => take (Z.to_nat n) (slice_bytes m (buffers ub)) | inr _ => [] end.

Inductive stream_step : Stream → Stream → Prop :=
  | step_begin_write rb sent got data :
      Z.of_nat (length data) < 2 ^ 64 →
      stream_step (mkStream rb None sent got)
                  (mkStream rb (Some (data, 0, Z.of_nat (length data))) (sent ++ data) got)
  | step_write rb it already want sent got m r s' :
      write_round slice_next want it already (mkPipeSys m rb) = Ok (r, s') →
      stream_step (mkStream rb (Some (it, already, want)) sent got)
                  (mkStream (p_ring s')
                     (match r with inl _ => None | inr (it', al) => Some (it', al, want) end) sent got)
  | step_read rb w sent got m ub r s' :
      valid_buffer ub →
      read_user read_end_with_buffer ub (mkPipeSys m rb) = Ok (r, s') →
      stream_step (mkStream rb w sent got)
                  (mkStream (p_ring s') w sent (got ++ read_result r (p_mem s') ub))
  | step_close rb sent got :
      stream_step (mkStream rb None sent got)
                  (mkStream (mkPipeRingBuffer (arr rb) (head rb) (tail rb) (status rb)
                               (Some false) (read_end rb)) None sent got).

Record stream_inv (st : Stream) : Prop := {
  si_wf : rb_wf (st_ring st);
  si_alive : is_Some (write_end (st_ring st));
  si_writer it already want : st_writer st = Some (it, already, want) →
    0 ≤ already ∧ want = already + Z.of_nat (length it) ∧ want < 2 ^ 64;
  si_fifo : st_got st ++ contents (st_ring st) ++
              match st_writer st with Some (it, _, _) => it | None => [] end = st_sent st;
}.

Lemma stream_init_inv : stream_inv stream_init.
Proof. split; [split; done|done|done|done]. Qed.

Lemma read_user_spec ub m rb alive :
  rb_wf rb → write_end rb = Some alive → valid_buffer ub →
  ∃ r s', read_user read_end_with_buffer ub (mkPipeSys m rb) = Ok (r, s') ∧
    rb_wf (p_ring s') ∧ write_end (p_ring s') = Some alive ∧
    contents rb = read_result r (p_mem s') ub ++ contents (p_ring s') ∧
    (contents rb ≠ [] → slice_addrs (buffers ub) ≠ [] → ∃ n, r = inl n ∧ 0 < n).
Proof.
  intros Hwf Halive (Hall & Hlen & Hnd & Hbig).
  assert (Forall (fun b : PSlice => 0 ≤ b.2) (buffers ub)) as Hall0
    by (eapply Forall_impl; [done|]; simpl; intros; lia).
  set (addrs := slice_addrs (buffers ub)) in *.
  destruct (read_round_spec (UserBuffer_len ub) (UserBuffer_into_iter ub) 0 addrs (mkPipeSys m rb) alive)
    as (r & s' & Hrun & Hwf' & Hwe' & Hc & Hwr & Hr);
    [done|done|by apply iter_rem_start|done|lia|by rewrite UserBuffer_len_eq|by rewrite UserBuffer_len_eq|].
  cbn [p_ring p_mem] in *. exists r, s'. split_and!; [done|done|done| |].
  - rewrite Hc at 1. f_equal. destruct r as [ret|[it al]]; simpl.
    + rewrite Hr, Z.add_0_l, Nat2Z.id. unfold slice_bytes. fold addrs.
      rewrite (written_bytes _ _ _ _ Hwr Hnd) by (rewrite length_take; lia).
      rewrite take_app_le by (rewrite length_take; lia). rewrite take_take, Nat.min_id. done.
    + destruct Hr as (-> & _). by rewrite take_nil.
  - intros Hne Ha. destruct r as [ret|[it al]]; [|by destruct Hr as (? & _)].
    exists ret. split; [done|]. rewrite Hr. destruct (contents rb), addrs; simpl; try done; lia.
Qed.

Lemma stream_step_inv st st' : stream_step st st' → stream_inv st → stream_inv st'.
Proof.
  intros Hstep [Hwf Halive Hwr Hfifo]. destruct Hstep as [rb sent got data Hd|rb it already want sent got m r s' Hrun|
    rb w sent got m ub r s' Hub Hrun|rb sent got]; cbn [st_ring st_writer st_sent st_got] in *.
  - split; cbn [st_ring st_writer st_sent st_got]; [done|done| |].
    + intros ? ? ? [= <- <- <-]. lia.
    + rewrite <-Hfifo, app_nil_r, <-app_assoc. done.
  - destruct (Hwr it already want eq_refl) as (Ha & Hw & Hb).
    destruct (write_round_spec (next := slice_next) want it already it (mkPipeSys m rb))
      as (r2 & s2 & Hrun2 & _ & Hwf' & Hwe & Hc & Hr); [done|done|done|done|done|].
    rewrite Hrun in Hrun2. injection Hrun2 as <- <-. cbn [p_ring] in *.
    set (room := (1024 - length (contents rb))%nat) in *.
    split; cbn [st_ring st_writer st_sent st_got]; [done|by rewrite Hwe| |].
    + destruct r as [ret|[it' al]]; [done|]. intros ? ? ? [= <- <- <-]. destruct Hr as (-> & Hrem & _).
      cbn in Hrem. subst it'. rewrite length_drop. lia.
    + rewrite <-Hfifo, Hc, <-app_assoc. do 2 f_equal. destruct r as [ret|[it' al]].
      * destruct Hr as (_ & Hle & _). rewrite firstn_all2 by lia. by rewrite app_nil_r.
      * destruct Hr as (_ & Hrem & _). cbn in Hrem. subst it'. by rewrite take_drop.
  - destruct Halive as [alive Halive].
    destruct (read_user_spec ub m rb alive Hwf Halive Hub) as (r2 & s2 & Hrun2 & Hwf' & Hwe & Hc & _).
    rewrite Hrun in Hrun2. injection Hrun2 as <- <-.
    split; cbn [st_ring st_writer st_sent st_got]; [done|by rewrite Hwe|done|].
    rewrite <-Hfifo, Hc, <-!app_assoc. done.
  - split; cbn [st_ring st_writer st_sent st_got]; [by destruct Hwf|done|done|done].
Qed.

(** C5: a pipe is a FIFO queue of bytes.  In every interleaving of rounds of
    reads and writes with one call of [write] at a time, the bytes read so far, the bytes in the ring and the bytes
    that the current writer still has to write are together the bytes sent, in
    order; the ring holds at most 1024 bytes; the readiness tests are exact; and no
    round panics. *)
Theorem pipe_is_fifo st :
  rtc stream_step stream_init st →
  (* order: nothing is lost, duplicated or reordered *)
  st_got st ++ contents (st_ring st) ++
    match st_writer st with Some (it, _, _) => it | None => [] end = st_sent st ∧
  (length (contents (st_ring st)) ≤ 1024)%nat ∧
  r_ready (st_ring st) = negb (bool_decide (contents (st_ring st) = [])) ∧
  w_ready (st_ring st) = negb (bool_decide (length (contents (st_ring st)) = 1024%nat)) ∧
  (* rounds do not panic *)
  (∀ ub m, valid_buffer ub → ∃ r s', read_user read_end_with_buffer ub (mkPipeSys m (st_ring st)) = Ok (r, s')) ∧
  (∀ it already want m, st_writer st = Some (it, already, want) →
     ∃ r s', write_round slice_next want it already (mkPipeSys m (st_ring st)) = Ok (r, s') ∧
       (∀ n, r = inl n → n = want)).
Proof.
  intros Hrun.
  assert (stream_inv st) as [Hwf [alive Halive] Hwr Hfifo].
  { revert Hrun. apply rtc_ind_r; [apply stream_init_inv|]. intros ? ? _ Hs. by apply stream_step_inv. }
  pose proof (contents_length _ Hwf) as Hl. pose proof (available_read_range _ Hwf).
  destruct (status_available _ Hwf) as [He Hf]. split_and!; [done|lia| | | |].
  - unfold r_ready. f_equal. apply bool_decide_ext. rewrite He. split.
    + intros H0. apply length_zero_iff_nil. lia.
    + intros Hn. rewrite Hn in Hl. simpl in Hl. lia.
  - unfold w_ready. f_equal. apply bool_decide_ext. rewrite Hf. lia.
  - intros ub m Hub. destruct (read_user_spec ub m _ alive Hwf Halive Hub) as (r & s' & Hr & _). eauto.
  - intros it already want m Hw. destruct (Hwr it already want Hw) as (Ha & Hwant & Hb).
    destruct (write_round_spec (next := slice_next) want it already it (mkPipeSys m (st_ring st)))
      as (r & s' & Hr & _ & _ & _ & _ & Hret); [done..|].
    exists r, s'. split; [done|]. intros n ->. by destruct Hret.
Qed.

Lemma pipe_is_fifo_witness :
  ∃ st, rtc stream_step stream_init st ∧ st_sent st = [1; 2; 3] ∧
    st_got st ++ contents (st_ring st) ++
      match st_writer st with Some (it, _, _) => it | None => [] end = st_sent st.
Proof.
  destruct (write_round_spec (next := slice_next) 3 [1; 2; 3] 0 [1; 2; 3] (mkPipeSys (fun _ => 0) make_pipe))
    as (r & s' & Hrun & _); [apply (si_wf _ stream_init_inv)|done|done|done|done|].
  assert (rtc stream_step stream_init
    (mkStream (p_ring s') (match r with inl _ => None | inr (it', al) => Some (it', al, 3) end) [1; 2; 3] [])) as Hrtc.
  { eapply rtc_l; [by apply (step_begin_write make_pipe [] [] [1; 2; 3])|].
    apply rtc_once. by eapply step_write. }
  eexists. split; [exact Hrtc|]. split; [done|]. apply (pipe_is_fifo _ Hrtc).
Defined.

(** Writing a user buffer of at most 1024 bytes into an empty pipe and
    reading it into another user buffer of that length copies the bytes, whatever
    the page boundaries of the two buffers are, and empties the pipe. *)
Theorem pipe_user_roundtrip ub1 ub2 m rb :
  rb_wf rb → is_Some (write_end rb) → contents rb = [] → valid_buffer ub1 → valid_buffer ub2 →
  length (slice_addrs (buffers ub1)) = length (slice_addrs (buffers ub2)) →
  (0 < length (slice_addrs (buffers ub1)) ≤ 1024)%nat →
  ∃ s1 s2, write_user write_end_with_buffer ub1 (mkPipeSys m rb) =
             Ok (inl (Z.of_nat (length (slice_addrs (buffers ub1)))), s1) ∧
    read_user read_end_with_buffer ub2 s1 = Ok (inl (Z.of_nat (length (slice_addrs (buffers ub2)))), s2) ∧
    slice_bytes (p_mem s2) (buffers ub2) = slice_bytes m (buffers ub1) ∧
    contents (p_ring s2) = [].
Proof.
  intros Hwf [alive Halive] Hempty (Hall1 & Hlen1 & Hnd1 & Hbig1) Hub2 Hlen Hn.
  pose proof Hub2 as (Hall2 & Hlen2 & Hnd2 & Hbig2).
  set (a1 := slice_addrs (buffers ub1)) in *. set (a2 := slice_addrs (buffers ub2)) in *.
  assert (∀ ub, Forall (fun b : PSlice => 0 < b.2 < 2 ^ 64) (buffers ub) →
    Forall (fun b : PSlice => 0 ≤ b.2) (buffers ub)) as Hnn
    by (intros ub Hub; eapply Forall_impl; [done|]; simpl; intros; lia).
  assert (UserBuffer_len ub1 = 0 + Z.of_nat (length (m <$> a1))) as Hl1
    by (rewrite length_fmap, UserBuffer_len_eq by (done || by apply Hnn); done).
  destruct (write_round_spec (next := user_next) (UserBuffer_len ub1) (UserBuffer_into_iter ub1) 0 (m <$> a1)
    (mkPipeSys m rb)) as (r1 & s1 & Hrun1 & Hm1 & Hwf1 & Hwe1 & Hc1 & Hr1);
    [done|exists a1; split; [by apply iter_rem_start|done]|done|done|rewrite Hl1, length_fmap; lia|].
  cbn [p_ring p_mem] in *. rewrite Hempty in *. cbn [length app Nat.sub] in *. rewrite length_fmap in *.
  assert (contents (p_ring s1) = m <$> a1) as Hc1' by (rewrite Hc1; apply firstn_all2; rewrite length_fmap; lia).
  destruct r1 as [ret1|[it1 al1]]; [|lia]. destruct Hr1 as (-> & _).
  destruct s1 as [m1 rb1]. cbn [p_ring p_mem] in *. subst m1. rewrite Halive in Hwe1.
  destruct (read_round_spec (UserBuffer_len ub2) (UserBuffer_into_iter ub2) 0 a2 (mkPipeSys m rb1) alive)
    as (r2 & s2 & Hrun2 & _ & _ & Hc2 & Hw2 & Hr2); [done|done|by apply iter_rem_start|done|lia| | |].
  { rewrite UserBuffer_len_eq by (done || by apply Hnn). done. }
  { rewrite UserBuffer_len_eq by (done || by apply Hnn). done. }
  cbn [p_ring p_mem] in *. rewrite Hc1' in *. rewrite length_fmap, Hlen, Nat.min_id in *.
  rewrite firstn_all2 in Hc2, Hw2 by (rewrite length_fmap; lia).
  destruct r2 as [ret2|[it2 al2]].
  2:{ destruct Hr2 as (Hnil & _). apply (f_equal length) in Hnil. rewrite length_fmap in Hnil. simpl in Hnil. lia. }
  exists (mkPipeSys m rb1), s2. split_and!.
  - change (write_user write_end_with_buffer ub1 (mkPipeSys m rb)) with
      (write_round user_next (UserBuffer_len ub1) (UserBuffer_into_iter ub1) 0 (mkPipeSys m rb)).
    by rewrite Hrun1, Hl1, Z.add_0_l.
  - change (read_user read_end_with_buffer ub2 (mkPipeSys m rb1)) with
      (read_round (UserBuffer_len ub2) (UserBuffer_into_iter ub2) 0 (mkPipeSys m rb1)).
    by rewrite Hrun2, Hr2.
  - unfold slice_bytes. fold a1 a2. rewrite (written_bytes _ _ _ _ Hw2 Hnd2) by (rewrite length_fmap; lia).
    rewrite drop_ge, app_nil_r by (rewrite !length_fmap; lia). done.
  - apply (app_inv_head (m <$> a1)). by rewrite app_nil_r.
Qed.

Lemma pipe_user_roundtrip_witness :
  ∃ s1 s2, write_user write_end_with_buffer (UserBuffer_new [(100, 2); (4096, 1)]) (mkPipeSys (fun a => a mod 7) make_pipe)
      = Ok (inl 3, s1) ∧
    read_user read_end_with_buffer (UserBuffer_new [(8192, 3)]) s1 = Ok (inl 3, s2) ∧
    slice_bytes (p_mem s2) [(8192, 3)] = [2; 3; 1].
Proof.
  assert (∀ l, bool_decide (NoDup (slice_addrs l)) = true → Forall (fun b : PSlice => 0 < b.2 < 2 ^ 64) l →
    Z.of_nat (length l) < 2 ^ 64 → Z.of_nat (length (slice_addrs l)) < 2 ^ 64 → valid_buffer (UserBuffer_new l)) as Hv.
  { intros l Hnd%bool_decide_eq_true Hall H1 H2. by split_and!. }
  destruct (pipe_user_roundtrip (UserBuffer_new [(100, 2); (4096, 1)]) (UserBuffer_new [(8192, 3)])
    (fun a => a mod 7) make_pipe) as (s1 & s2 & H1 & H2 & H3 & _).
  - apply (si_wf _ stream_init_inv).
  - done.
  - done.
  - apply Hv; [done|by rewrite !Forall_cons, Forall_nil|done|done].
  - apply Hv; [done|by rewrite !Forall_cons, Forall_nil|done|done].
  - done.
  - simpl. lia.
  - exists s1, s2. split_and!; [exact H1|exact H2|]. cbn [buffers] in H3. rewrite H3. reflexivity.
Defined.
