(* ===== verification/BlockCache.v ===== *)
(** * Block device and block cache

    [kernel/src/drivers/block/virtio_blk.rs] and the first half of
    [kernel/src/fs/cache.rs].  The disk is an array of 512-byte sectors; the
    [virtio_drivers] crate reads and writes single sectors of it and fails
    outside of the disk.  [BlockCacheManager] keeps a pool of sector buffers,
    which the FAT uses. *)

From S2P Require Import Prelude Config.

Definition BLOCK_SZ : Z := 512.
Definition BUFFER_SIZE : Z := 512.
Definition PAGE_BUFFERS : Z := 8.
Definition CACHEPOOLSIZE : Z := 16.
Definition PRIORITY_UPPERBOUND : Z := 1.

(** ** The device *)

Record Disk : Type := mkDisk { d_size : Z; d_data : Z → list Z }.

Definition sector_write (d : Disk) (id : Z) (data : list Z) : Disk :=
  mkDisk (d_size d) (fun i => if i =? id then data else d_data d i).

(** [VirtIOBlock::read_block] of a buffer of [n] sectors, sector by sector. *)
Fixpoint read_block (d : Disk) (block_id : Z) (n : nat) : outcome (list Z) :=
  match n with
  | O => Ok []
  | S n =>
      if block_id <? d_size d then
        rest ← read_block d (block_id ⊞ 1) n;
        Ok (d_data d block_id ++ rest)
      else Panic
  end.

(** The chunks of a buffer. *)
Definition chunks (n : nat) (buf : list Z) : list (list Z) :=
  (fun i => take 512 (drop (512 * i) buf)) <$> seq 0 n.

Fixpoint write_chunks (d : Disk) (block_id : Z) (bufs : list (list Z)) : outcome Disk :=
  match bufs with
  | [] => Ok d
  | buf :: bufs =>
      if block_id <? d_size d then write_chunks (sector_write d block_id buf) (block_id ⊞ 1) bufs
      else Panic
  end.

(** [VirtIOBlock::write_block]. *)
Definition write_block (d : Disk) (block_id : Z) (buf : list Z) : outcome Disk :=
  write_chunks d block_id (chunks (length buf / 512) buf).

(** ** Buffers *)

(** [shared] stands for [Arc::strong_count(..) > 1]. *)
Record BufferCache : Type := mkBufferCache {
  priority : Z;
  block_id : Z;
  buffer : list Z;
  shared : bool
}.

(** [BufferCache::new]; the buffer is a piece of a fresh, zeroed frame. *)
Definition BufferCache_new : BufferCache :=
  mkBufferCache 0 usize_MAX (replicate 512 0) false.

Record BcState : Type := mkBcState { cache_pool : list BufferCache; bc_disk : Disk }.

Definition BlockCacheManager_new : list BufferCache :=
  replicate (Z.to_nat CACHEPOOLSIZE) BufferCache_new.

(** Little-endian [u32] at an offset of a buffer; the code reads past the
    buffer without a check, where the model stops. *)
Definition buf_get32 (buf : list Z) (offset : Z) : outcome Z :=
  match drop (Z.to_nat offset) buf with
  | b0 :: b1 :: b2 :: b3 :: _ => Ok (b0 + 256 * (b1 + 256 * (b2 + 256 * b3)))
  | _ => Panic
  end.

Definition le32 (v : Z) : list Z :=
  [v mod 256; v / 256 mod 256; v / 65536 mod 256; v / 16777216 mod 256].

Definition buf_set32 (buf : list Z) (offset v : Z) : outcome (list Z) :=
  if offset + 4 <=? Z.of_nat (length buf) then
    Ok (take (Z.to_nat offset) buf ++ le32 v ++ drop (Z.to_nat offset + 4) buf)
  else Panic.

(** ** [BlockCacheManager] *)

(** One buffer of [oom]. *)
Definition oom_one (bc : BufferCache) (d : Disk) : outcome (BufferCache * Disk) :=
  if shared bc then Ok (bc, d)
  else if 0 <? priority bc then
    Ok (mkBufferCache (priority bc ⊟ 1) (block_id bc) (buffer bc) (shared bc), d)
  else
    d ← write_block d (block_id bc) (buffer bc);
    Ok (mkBufferCache (priority bc) usize_MAX (buffer bc) (shared bc), d).

Fixpoint oom_pool (pool : list BufferCache) (d : Disk) : outcome (list BufferCache * Disk) :=
  match pool with
  | [] => Ok ([], d)
  | bc :: pool =>
      '(bc, d) ← oom_one bc d;
      '(pool, d) ← oom_pool pool d;
      Ok (bc :: pool, d)
  end.

Definition oom : ST BcState unit :=
  fun s =>
    '(pool, d) ← oom_pool (cache_pool s) (bc_disk s);
    Ok (tt, mkBcState pool d).

(** The [loop] of [alloc_buffer_cache]: the index of an unused buffer. *)
Fixpoint alloc_buffer_cache (fuel : nat) : ST BcState nat :=
  match fuel with
  | O => out_of_fuel
  | S fuel =>
      pool ← gets cache_pool;
      match list_find (fun bc => block_id bc = usize_MAX) pool with
      | Some (i, _) => mret i
      | None => oom;; alloc_buffer_cache fuel
      end
  end.

Definition bump (bc : BufferCache) : BufferCache :=
  mkBufferCache (if priority bc <? PRIORITY_UPPERBOUND then priority bc ⊞ 1 else priority bc)
    (block_id bc) (buffer bc) (shared bc).

Definition set_buffer (i : nat) (bc : BufferCache) : ST BcState unit :=
  modify (fun s => mkBcState (<[i := bc]> (cache_pool s)) (bc_disk s)).

Definition try_get_block_cache (id : Z) : ST BcState (option nat) :=
  pool ← gets cache_pool;
  match list_find (fun bc => block_id bc = id) pool with
  | Some (i, bc) => set_buffer i (bump bc);; mret (Some i)
  | None => mret None
  end.

(** [BufferCache::read_block] *)
Definition BufferCache_read_block (bc : BufferCache) (id : Z) (d : Disk) : outcome BufferCache :=
  buf ← read_block d id 1;
  Ok (mkBufferCache (priority bc) id buf (shared bc)).

(** Two calls of [oom] release a buffer that is not shared. *)
Definition get_block_cache (id : Z) : ST BcState nat :=
  o ← try_get_block_cache id;
  match o with
  | Some i => mret i
  | None =>
      i ← alloc_buffer_cache 3;
      s ← get_st;
      bc ← unwrap (cache_pool s !! i);
      match BufferCache_read_block bc id (bc_disk s) with
      | Ok bc => set_buffer i (bump bc);; mret i
      | _ => panic
      end
  end.

(** [get_block_cache(id).lock().read(offset, ..)] and [.modify(offset, ..)]
    of a [u32]. *)
Definition cache_read32 (id offset : Z) : ST BcState Z :=
  i ← get_block_cache id;
  s ← get_st;
  bc ← unwrap (cache_pool s !! i);
  match buf_get32 (buffer bc) offset with Ok v => mret v | _ => panic end.

Definition cache_write32 (id offset v : Z) : ST BcState unit :=
  i ← get_block_cache id;
  s ← get_st;
  bc ← unwrap (cache_pool s !! i);
  match buf_set32 (buffer bc) offset v with
  | Ok buf => set_buffer i (mkBufferCache (priority bc) (block_id bc) buf (shared bc))
  | _ => panic
  end.

(** ** The cache is transparent *)

Record bc_wf (s : BcState) : Prop := {
  bw_len bc : bc ∈ cache_pool s → length (buffer bc) = 512%nat;
  bw_prio bc : bc ∈ cache_pool s → 0 ≤ priority bc ≤ 1;
  bw_range bc : bc ∈ cache_pool s → block_id bc ≠ usize_MAX → 0 ≤ block_id bc < d_size (bc_disk s);
  bw_nodup i j bc1 bc2 : cache_pool s !! i = Some bc1 → cache_pool s !! j = Some bc2 →
    block_id bc1 = block_id bc2 → block_id bc1 ≠ usize_MAX → i = j;
  bw_sectors id : 0 ≤ id < d_size (bc_disk s) → length (d_data (bc_disk s) id) = 512%nat;
  bw_size : d_size (bc_disk s) < usize_MAX;
  bw_unshared : ∃ bc, bc ∈ cache_pool s ∧ shared bc = false;
}.

(** The content of sector [id] as the file system sees it. *)
Definition bview (s : BcState) (id : Z) : list Z :=
  match list_find (fun bc => block_id bc = id) (cache_pool s) with
  | Some (_, bc) => buffer bc
  | None => d_data (bc_disk s) id
  end.

Lemma bview_cached s i bc :
  bc_wf s → cache_pool s !! i = Some bc → block_id bc ≠ usize_MAX → bview s (block_id bc) = buffer bc.
Proof.
  intros Hwf Hi Hid. unfold bview.
  destruct (list_find _ _) as [[j bc']|] eqn:E.
  - apply list_find_Some in E as (Hj & Heq & _).
    assert (j = i) as -> by (eapply (bw_nodup s Hwf); [exact Hj|exact Hi|done|congruence]).
    congruence.
  - exfalso. apply list_find_None in E. rewrite Forall_forall in E.
    by apply (E bc); [eapply list_elem_of_lookup_2|].
Qed.

Lemma bview_uncached s id :
  (∀ bc, bc ∈ cache_pool s → block_id bc ≠ id) → bview s id = d_data (bc_disk s) id.
Proof.
  intros Hn. unfold bview. destruct (list_find _ _) as [[j bc']|] eqn:E; [|done].
  apply list_find_Some in E as (Hj & Heq & _). exfalso. eapply Hn; [by eapply list_elem_of_lookup_2|done].
Qed.

Lemma write_block_one d id buf :
  length buf = 512%nat → id < d_size d → write_block d id buf = Ok (sector_write d id buf).
Proof.
  intros Hl Hid. unfold write_block. rewrite Hl. change (512 / 512)%nat with 1%nat.
  unfold chunks. simpl. rewrite (proj2 (Z.ltb_lt _ _)) by done. rewrite drop_0.
  by rewrite firstn_all2 by lia.
Qed.

(** What [oom] does to one buffer: it loses priority, or it is written back
    and becomes unused. *)
Definition oomed (d' : Disk) (bc bc' : BufferCache) : Prop :=
  buffer bc' = buffer bc ∧ shared bc' = shared bc ∧
  ((block_id bc' = block_id bc ∧ 0 ≤ priority bc' ≤ priority bc ∧
    (shared bc = false → 0 < priority bc ∧ priority bc' = priority bc - 1)) ∨
   (block_id bc' = usize_MAX ∧ priority bc' = priority bc ∧ d_data d' (block_id bc) = buffer bc)).

Lemma oom_pool_spec pool d :
  Forall (fun bc => length (buffer bc) = 512%nat ∧ 0 ≤ priority bc ≤ 1 ∧ 0 ≤ block_id bc < d_size d) pool →
  NoDup (block_id <$> pool) →
  ∃ pool' d', oom_pool pool d = Ok (pool', d') ∧ d_size d' = d_size d ∧
    Forall2 (oomed d') pool pool' ∧ (∀ id, id ∉ block_id <$> pool → d_data d' id = d_data d id) ∧
    (∀ id, d_data d' id = d_data d id ∨ length (d_data d' id) = 512%nat).
Proof.
  revert d. induction pool as [|bc pool IH]; intros d Hall Hnd.
  { exists [], d. split_and!; [done|done|constructor|done|by left]. }
  apply Forall_cons in Hall as [(Hl & Hp & Hr) Hall]. simpl in Hnd. apply NoDup_cons in Hnd as [Hni Hnd].
  cbn [oom_pool]. unfold oom_one.
  destruct (shared bc) eqn:Hsh; [|destruct (Z.ltb_spec 0 (priority bc)) as [Hpos|Hz]].
  - destruct (IH d Hall Hnd) as (pool' & d' & Heq & Hsz & HF & Hout & Hlen). unfold mbind, outcome_bind.
    rewrite Heq. exists (bc :: pool'), d'. split_and!; [done|done| |set_solver|done].
    constructor; [|done]. split_and!; [done|done|]. left. split_and!; [done|lia|lia|congruence].
  - destruct (IH d Hall Hnd) as (pool' & d' & Heq & Hsz & HF & Hout & Hlen). unfold mbind, outcome_bind.
    rewrite Heq. eexists _, d'. split_and!; [done|done| |set_solver|done].
    constructor; [|done]. split_and!; [done|done|]. left. cbn [block_id priority].
    rewrite wrap64_small by (unfold is_usize; lia). split_and!; [done|lia|lia|done].
  - rewrite write_block_one by lia. unfold mbind, outcome_bind.
    destruct (IH (sector_write d (block_id bc) (buffer bc)) Hall Hnd) as (pool' & d' & Heq & Hsz & HF & Hout & Hlen).
    rewrite Heq. eexists _, d'. split_and!; [done|done| | |].
    + constructor; [|done]. split_and!; [done|done|]. right. cbn [block_id priority]. split_and!; [done|done|].
      rewrite Hout by done. simpl. by rewrite Z.eqb_refl.
    + intros id Hid. simpl in Hid. apply not_elem_of_cons in Hid as [Hne Hid]. rewrite Hout by done. simpl.
      by rewrite (proj2 (Z.eqb_neq _ _)) by done.
    + intros id. destruct (Hlen id) as [He|He]; [|by right]. rewrite He. simpl.
      destruct (Z.eqb_spec id (block_id bc)); [by right|by left].
Qed.

(** The relation between states that show the same sectors; buffers only
    stop being used. *)
Record bc_same (s s' : BcState) : Prop := {
  bs_wf : bc_wf s';
  bs_size : d_size (bc_disk s') = d_size (bc_disk s);
  bs_view id : 0 ≤ id < usize_MAX → bview s' id = bview s id;
  bs_ids bc : bc ∈ cache_pool s' → block_id bc = usize_MAX ∨ block_id bc ∈ block_id <$> cache_pool s;
}.

Lemma bc_same_refl s : bc_wf s → bc_same s s.
Proof. intros Hwf. split; [done|done|done|]. intros bc Hbc. right. by apply list_elem_of_fmap_2. Qed.

Lemma bc_same_trans s1 s2 s3 : bc_same s1 s2 → bc_same s2 s3 → bc_same s1 s3.
Proof.
  intros [_ Hs1 Hv1 Hi1] [Hw2 Hs2 Hv2 Hi2]. split; [done|congruence| |].
  - intros id Hid. by rewrite Hv2, Hv1.
  - intros bc [?|(bc2 & Heq & Hin)%list_elem_of_fmap]%Hi2; [by left|].
    rewrite Heq. by apply Hi1.
Qed.

Lemma pool_NoDup s : bc_wf s → (∀ bc, bc ∈ cache_pool s → block_id bc ≠ usize_MAX) →
  NoDup (block_id <$> cache_pool s).
Proof.
  intros Hwf Hused. apply NoDup_alt. intros i j x. rewrite !list_lookup_fmap.
  destruct (cache_pool s !! i) as [b1|] eqn:E1, (cache_pool s !! j) as [b2|] eqn:E2; try done.
  simpl. intros [= <-] [= Heq]. eapply (bw_nodup s Hwf); [exact E1|exact E2|done|].
  apply Hused. by eapply list_elem_of_lookup_2.
Qed.

Lemma oom_spec s :
  bc_wf s → (∀ bc, bc ∈ cache_pool s → block_id bc ≠ usize_MAX) →
  ∃ s', oom s = Ok (tt, s') ∧ bc_same s s' ∧ Forall2 (oomed (bc_disk s')) (cache_pool s) (cache_pool s').
Proof.
  intros Hwf Hused. pose proof (pool_NoDup s Hwf Hused) as Hnd.
  destruct (oom_pool_spec (cache_pool s) (bc_disk s)) as (pool' & d' & Heq & Hsz & HF & Hout & Hlen); [|done|].
  { apply Forall_forall. intros bc Hbc.
    split_and!; [by apply Hwf|by apply Hwf|by apply Hwf|by apply (bw_range s Hwf); auto|by apply (bw_range s Hwf); auto]. }
  exists (mkBcState pool' d'). unfold oom, mbind, outcome_bind. rewrite Heq. split; [done|]. split; [|done].
  assert (∀ i bc', pool' !! i = Some bc' → ∃ bc, cache_pool s !! i = Some bc ∧ oomed d' bc bc') as Hlk
    by (intros i bc' Hi; by eapply Forall2_lookup_r in HF).
  assert (∀ bc', bc' ∈ pool' → ∃ bc, bc ∈ cache_pool s ∧ oomed d' bc bc') as Hel.
  { intros bc' [i Hi]%list_elem_of_lookup. destruct (Hlk i bc' Hi) as (bc & Hbc & Ho).
    exists bc. split; [by eapply list_elem_of_lookup_2|done]. }
  assert (bc_wf (mkBcState pool' d')) as Hwf'.
  { split; cbn [cache_pool bc_disk].
    - intros bc' (bc & Hbc & Hb & _)%Hel. rewrite Hb. by apply Hwf.
    - intros bc' (bc & Hbc & _ & _ & Ho)%Hel. pose proof (bw_prio s Hwf bc Hbc). destruct Ho as [Ho|Ho]; lia.
    - intros bc' (bc & Hbc & _ & _ & Ho)%Hel Hne. rewrite Hsz. destruct Ho as [(-> & _)|(? & _)]; [|done].
      by apply (bw_range s Hwf); auto.
    - intros i j b1 b2 (c1 & Hc1 & _ & _ & Ho1)%Hlk (c2 & Hc2 & _ & _ & Ho2)%Hlk Heqid Hne.
      eapply (bw_nodup s Hwf); [exact Hc1|exact Hc2| |by apply Hused; eapply list_elem_of_lookup_2].
      destruct Ho1 as [(? & _)|(? & _)], Ho2 as [(? & _)|(? & _)]; congruence.
    - rewrite Hsz. intros id Hid. destruct (Hlen id) as [-> |?]; [by apply (bw_sectors s Hwf)|done].
    - rewrite Hsz. apply Hwf.
    - destruct (bw_unshared s Hwf) as (bc & [i Hi]%list_elem_of_lookup & Hsh).
      destruct (Forall2_lookup_l _ _ _ _ _ HF Hi) as (bc' & Hi' & _ & Hsh' & _).
      exists bc'. split; [by eapply list_elem_of_lookup_2|congruence]. }
  split; [done|done| |].
  - intros id Hid. destruct (decide (id ∈ block_id <$> cache_pool s)) as [Hin|Hnin].
    + apply list_elem_of_fmap in Hin as (bc & -> & [i Hi]%list_elem_of_lookup).
      rewrite (bview_cached s i bc Hwf Hi) by lia.
      destruct (Forall2_lookup_l _ _ _ _ _ HF Hi) as (bc' & Hi' & Hb & _ & [(Hid' & _)|(Hid' & _ & Hd)]).
      * rewrite <-Hid'. rewrite (bview_cached _ i bc' Hwf' Hi') by lia. done.
      * rewrite bview_uncached; [done|]. cbn [cache_pool]. intros b2 [j Hj]%list_elem_of_lookup Heqid.
        destruct (Hlk j b2 Hj) as (c2 & Hc2 & _ & _ & [(Hid2 & _)|(Hid2 & _)]); [|lia].
        assert (j = i) as -> by (eapply (bw_nodup s Hwf); [exact Hc2|exact Hi|congruence|lia]).
        rewrite Hi' in Hj. injection Hj as <-. lia.
    + rewrite !bview_uncached; [by apply Hout| |].
      * intros bc Hbc <-. apply Hnin. by apply list_elem_of_fmap_2.
      * cbn [cache_pool]. intros bc' Hbc' Heqid. destruct (Hel bc' Hbc') as (bc & Hbc & _ & _ & [(Hi & _)|(Hi & _)]); [|lia].
        apply Hnin. rewrite <-Heqid, Hi. by apply list_elem_of_fmap_2.
  - cbn [cache_pool]. intros bc' (bc & Hbc & _ & _ & [(Hi & _)|(Hi & _)])%Hel; [|by left].
    right. rewrite Hi. by apply list_elem_of_fmap_2.
Qed.

Lemma alloc_found fuel s i bc :
  list_find (fun b => block_id b = usize_MAX) (cache_pool s) = Some (i, bc) →
  alloc_buffer_cache (S fuel) s = Ok (i, s).
Proof. intros Hf. cbn [alloc_buffer_cache]. unfold mbind, st_bind, gets. by rewrite Hf. Qed.

Lemma alloc_not_found fuel s s' :
  list_find (fun b => block_id b = usize_MAX) (cache_pool s) = None → oom s = Ok (tt, s') →
  alloc_buffer_cache (S fuel) s = alloc_buffer_cache fuel s'.
Proof.
  intros Hf Ho. change (alloc_buffer_cache (S fuel) s) with
    (match list_find (fun b => block_id b = usize_MAX) (cache_pool s) with
     | Some (i, _) => mret i | None => oom;; alloc_buffer_cache fuel end s).
  rewrite Hf. unfold mbind, st_bind. by rewrite Ho.
Qed.

(** Every buffer in use: [oom] lowers the priority of an unshared buffer, or
    releases one. *)
Lemma oom_progress s k u :
  bc_wf s → list_find (fun b => block_id b = usize_MAX) (cache_pool s) = None →
  cache_pool s !! k = Some u → shared u = false →
  ∃ s', oom s = Ok (tt, s') ∧ bc_same s s' ∧
    ((∃ u', cache_pool s' !! k = Some u' ∧ shared u' = false ∧ priority u' < priority u) ∨
     ∃ i bc, list_find (fun b => block_id b = usize_MAX) (cache_pool s') = Some (i, bc)).
Proof.
  intros Hwf Hn Hk Hsh. apply list_find_None in Hn. rewrite Forall_forall in Hn.
  destruct (oom_spec s Hwf Hn) as (s' & Heq & Hsame & HF). exists s'. split; [done|]. split; [done|].
  destruct (Forall2_lookup_l _ _ _ _ _ HF Hk) as (u' & Hk' & _ & Hsh' & [(_ & _ & Hp)|(Hid & _)]).
  - left. exists u'. split; [done|]. split; [congruence|]. specialize (Hp Hsh). lia.
  - right. destruct (list_find (fun b => block_id b = usize_MAX) (cache_pool s')) as [[i bc]|] eqn:E; [by eauto|].
    exfalso. apply list_find_None in E. rewrite Forall_forall in E.
    by apply (E u'); [eapply list_elem_of_lookup_2|].
Qed.

(** The loop of [alloc_buffer_cache] ends: three rounds are enough, because a
    priority is at most one. *)
Lemma alloc_buffer_cache_spec s :
  bc_wf s → ∃ i s' bc, alloc_buffer_cache 3 s = Ok (i, s') ∧ bc_same s s' ∧
    cache_pool s' !! i = Some bc ∧ block_id bc = usize_MAX.
Proof.
  intros Hwf. destruct (bw_unshared s Hwf) as (u & [k Hk]%list_elem_of_lookup & Hsh).
  assert (priority u < Z.of_nat 2) as Hp.
  { pose proof (bw_prio s Hwf u ltac:(by eapply list_elem_of_lookup_2)). lia. }
  generalize 2%nat, Hp. clear Hp. intros n. revert s u Hwf Hk Hsh.
  assert (∀ n s, bc_wf s → (∃ i bc, list_find (fun b => block_id b = usize_MAX) (cache_pool s) = Some (i, bc)) →
    ∃ i s' bc, alloc_buffer_cache (S n) s = Ok (i, s') ∧ bc_same s s' ∧
      cache_pool s' !! i = Some bc ∧ block_id bc = usize_MAX) as Hdone.
  { intros m s Hwf (i & bc & Hf). exists i, s, bc. rewrite (alloc_found m s i bc Hf).
    apply list_find_Some in Hf as (Hi & Hid & _). split_and!; auto using bc_same_refl. }
  induction n as [|n IH]; intros s u Hwf Hk Hsh Hp.
  { pose proof (bw_prio s Hwf u ltac:(by eapply list_elem_of_lookup_2)). lia. }
  destruct (list_find (fun b => block_id b = usize_MAX) (cache_pool s)) as [[i bc]|] eqn:E; [by eauto|].
  destruct (oom_progress s k u Hwf E Hk Hsh) as (s1 & Ho & Hs1 & Hcase).
  rewrite (alloc_not_found _ s s1 E Ho).
  assert (∃ i s' bc, alloc_buffer_cache (S n) s1 = Ok (i, s') ∧ bc_same s1 s' ∧
      cache_pool s' !! i = Some bc ∧ block_id bc = usize_MAX) as (i & s' & bc & H1 & H2 & H3).
  { destruct Hcase as [(u' & Hk' & Hsh' & Hlt)|Hf].
    - apply (IH s1 u' (bs_wf s s1 Hs1) Hk' Hsh'). lia.
    - by apply Hdone; [apply (bs_wf s s1 Hs1)|]. }
  exists i, s', bc. split_and!; try naive_solver. by eapply bc_same_trans.
Qed.

Definition with_buffer (s : BcState) (i : nat) (bc : BufferCache) : BcState :=
  mkBcState (<[i := bc]> (cache_pool s)) (bc_disk s).

(** Replacing a buffer by one for the same sector, or an unused buffer by one
    for a sector that is not cached. *)
Lemma with_buffer_spec s i bc bc' :
  bc_wf s → cache_pool s !! i = Some bc →
  length (buffer bc') = 512%nat → 0 ≤ priority bc' ≤ 1 → shared bc' = shared bc →
  0 ≤ block_id bc' < d_size (bc_disk s) →
  block_id bc = block_id bc' ∨
    (block_id bc = usize_MAX ∧ ∀ b, b ∈ cache_pool s → block_id b ≠ block_id bc') →
  bc_wf (with_buffer s i bc') ∧
  (∀ id, 0 ≤ id < usize_MAX →
    bview (with_buffer s i bc') id = if id =? block_id bc' then buffer bc' else bview s id).
Proof.
  intros Hwf Hi Hl Hp Hsh Hr Hor. pose proof (bw_size s Hwf) as Hsz.
  assert (∀ j b, cache_pool (with_buffer s i bc') !! j = Some b → b = bc' ∧ j = i ∨ cache_pool s !! j = Some b ∧ j ≠ i) as Hlk.
  { intros j b. cbn [cache_pool with_buffer]. intros [(-> & -> & _)|[? ?]]%list_lookup_insert_Some; auto. }
  assert (∀ b, b ∈ cache_pool (with_buffer s i bc') → b = bc' ∨ b ∈ cache_pool s) as Hel.
  { intros b [j [[-> _]|[Hj _]]%Hlk]%list_elem_of_lookup; [by left|right; by eapply list_elem_of_lookup_2]. }
  assert (∀ j b, cache_pool s !! j = Some b → block_id b = block_id bc' → j = i) as Huniq.
  { intros j b Hj Heq. destruct Hor as [Hsame|[_ Hno]].
    - eapply (bw_nodup s Hwf); [exact Hj|exact Hi|congruence|lia].
    - exfalso. eapply Hno; [by eapply list_elem_of_lookup_2|done]. }
  assert (bc_wf (with_buffer s i bc')) as Hwf'.
  { split.
    - intros b [-> |?]%Hel; [done|by apply Hwf].
    - intros b [-> |?]%Hel; [done|by apply Hwf].
    - intros b [-> |?]%Hel; [done|by apply Hwf].
    - intros j1 j2 b1 b2 [[-> ->]|[H1 ?]]%Hlk [[-> ->]|[H2 ?]]%Hlk Heq Hne; [done| | |by eapply (bw_nodup s Hwf)].
      + by destruct (Huniq j2 b2 H2).
      + by destruct (Huniq j1 b1 H1).
    - apply Hwf.
    - apply Hwf.
    - destruct (bw_unshared s Hwf) as (u & [k Hk]%list_elem_of_lookup & Hu).
      destruct (decide (k = i)) as [-> |Hne].
      + exists bc'. split; [|congruence]. eapply (list_elem_of_lookup_2 _ i). cbn [cache_pool with_buffer].
        apply list_lookup_insert_eq. by eapply lookup_lt_Some.
      + exists u. split; [|done]. eapply (list_elem_of_lookup_2 _ k). cbn [cache_pool with_buffer].
        by rewrite list_lookup_insert_ne. }
  split; [done|]. intros id Hid. destruct (Z.eqb_spec id (block_id bc')) as [-> |Hne].
  - apply (bview_cached _ i); [done| |lia]. cbn [cache_pool with_buffer].
    apply list_lookup_insert_eq. by eapply lookup_lt_Some.
  - destruct (decide (id ∈ block_id <$> cache_pool s)) as [(b & -> & [j Hj]%list_elem_of_lookup)%list_elem_of_fmap|Hnin].
    + rewrite (bview_cached s j b Hwf Hj) by lia.
      assert (j ≠ i) as Hji by (intros ->; rewrite Hi in Hj; injection Hj as ->; destruct Hor as [?|[? _]]; lia).
      apply (bview_cached _ j); [done| |lia]. cbn [cache_pool with_buffer]. by rewrite list_lookup_insert_ne.
    + rewrite !bview_uncached; [done| |].
      * intros b Hb <-. apply Hnin. by apply list_elem_of_fmap_2.
      * intros b [-> |Hb]%Hel; [done|]. intros <-. apply Hnin. by apply list_elem_of_fmap_2.
Qed.

Lemma bump_prio bc : 0 ≤ priority bc ≤ 1 → 0 ≤ priority (bump bc) ≤ 1.
Proof.
  intros Hp. unfold bump, PRIORITY_UPPERBOUND. cbn [priority]. destruct (Z.ltb_spec (priority bc) 1); [|lia].
  rewrite wrap64_small by (unfold is_usize; lia). lia.
Qed.

Lemma read_block_one d id : id < d_size d → read_block d id 1 = Ok (d_data d id).
Proof.
  intros Hid. cbn [read_block]. rewrite (proj2 (Z.ltb_lt _ _)) by done.
  unfold mbind, outcome_bind. by rewrite app_nil_r.
Qed.

(** No sector but [id] enters the pool. *)
Definition ids_grow (s : BcState) (id : Z) (s' : BcState) : Prop :=
  ∀ b, b ∈ cache_pool s' →
    block_id b = usize_MAX ∨ block_id b = id ∨ block_id b ∈ block_id <$> cache_pool s.

Lemma ids_grow_buffer s id s' i bc :
  ids_grow s id s' → block_id bc = id ∨ bc ∈ cache_pool s' → ids_grow s id (with_buffer s' i bc).
Proof.
  intros Hg Hbc b Hb. cbn [with_buffer cache_pool] in Hb. apply list_elem_of_lookup in Hb as [j Hj].
  apply list_lookup_insert_Some in Hj as [(-> & -> & _)|[_ Hj%list_elem_of_lookup_2]]; [|by apply Hg].
  destruct Hbc as [?|Hin]; [by right; left|by apply Hg].
Qed.

(** [get_block_cache] gives a buffer with the content of the sector and
    changes no sector. *)
Lemma get_block_cache_spec s id :
  bc_wf s → 0 ≤ id < d_size (bc_disk s) →
  wp (get_block_cache id) (fun i s' => bc_wf s' ∧ d_size (bc_disk s') = d_size (bc_disk s) ∧
    (∀ j, 0 ≤ j < usize_MAX → bview s' j = bview s j) ∧ ids_grow s id s' ∧
    ∃ bc, cache_pool s' !! i = Some bc ∧ block_id bc = id ∧ buffer bc = bview s id) s.
Proof.
  intros Hwf Hid. pose proof (bw_size s Hwf) as Hsz. unfold get_block_cache, try_get_block_cache. repeat wp_step.
  destruct (list_find (fun bc => block_id bc = id) (cache_pool s)) as [[i bc]|] eqn:E.
  - apply list_find_Some in E as (Hi & Hbid & _). assert (bc ∈ cache_pool s) by (by eapply list_elem_of_lookup_2).
    unfold set_buffer. repeat wp_step. change (mkBcState _ _) with (with_buffer s i (bump bc)).
    assert (bview s id = buffer bc) as Hv by (rewrite <-Hbid; apply (bview_cached s i); [done|done|lia]).
    destruct (with_buffer_spec s i bc (bump bc)) as [Hwf' Hview]; try done.
    { by apply (bw_len s Hwf bc). } { by apply bump_prio, (bw_prio s Hwf). } { cbn [block_id bump]. lia. } { by left. }
    split; [done|]. split; [done|]. split_and!.
    + intros j Hj. rewrite Hview by done. cbn [block_id bump buffer]. destruct (Z.eqb_spec j (block_id bc)); [|done].
      congruence.
    + apply ids_grow_buffer; [|by left]. intros b Hb. right. right. by apply list_elem_of_fmap_2.
    + exists (bump bc). split_and!; [|done|done]. cbn [with_buffer cache_pool].
      apply list_lookup_insert_eq. by eapply lookup_lt_Some.
  - apply list_find_None in E. rewrite Forall_forall in E. repeat wp_step.
    destruct (alloc_buffer_cache_spec s Hwf) as (i & s1 & bc & Heq & Hsame & Hi & Hmax).
    eapply wp_intro; [exact Heq|]. repeat wp_step; [exact Hi|].
    destruct Hsame as [Hwf1 Hsz1 Hv1 Hids1]. assert (bc ∈ cache_pool s1) by (by eapply list_elem_of_lookup_2).
    assert (∀ b, b ∈ cache_pool s1 → block_id b ≠ id) as Hno.
    { intros b [? |(b2 & Hb2 & Hin)%list_elem_of_fmap]%Hids1; [lia|]. intros Heqid. apply (E b2 Hin). congruence. }
    unfold BufferCache_read_block. rewrite read_block_one by lia.
    unfold mbind at 1, outcome_bind. unfold set_buffer. repeat wp_step.
    set (bc' := bump (mkBufferCache (priority bc) id (d_data (bc_disk s1) id) (shared bc))).
    change (mkBcState _ _) with (with_buffer s1 i bc').
    destruct (with_buffer_spec s1 i bc bc') as [Hwf' Hview]; try done.
    { apply (bw_sectors s1 Hwf1). lia. } { apply bump_prio. by apply (bw_prio s1 Hwf1 bc). } { subst bc'. cbn [block_id bump]. lia. }
    { by right. }
    assert (bview s id = d_data (bc_disk s1) id) as Hbv by (rewrite <-(Hv1 id) by lia; by apply bview_uncached).
    split; [done|]. split; [done|]. split_and!.
    + intros j Hj. rewrite Hview by done. cbn [block_id bump buffer bc']. destruct (Z.eqb_spec j id) as [-> |]; [done|].
      by apply Hv1.
    + apply ids_grow_buffer; [|by left]. intros b [?|?]%Hids1; auto.
    + exists bc'. split_and!; [|done|done]. cbn [with_buffer cache_pool].
      apply list_lookup_insert_eq. by eapply lookup_lt_Some.
Qed.

(** ** 32-bit words of a buffer *)

Lemma buf_get32_Ok buf off :
  0 ≤ off → off + 4 ≤ Z.of_nat (length buf) → ∃ v, buf_get32 buf off = Ok v.
Proof.
  intros Hoff Hle. unfold buf_get32.
  assert (4 ≤ length (drop (Z.to_nat off) buf))%nat as Hl by (rewrite length_drop; lia).
  destruct (drop _ _) as [|b0 [|b1 [|b2 [|b3 r]]]]; simpl in Hl; try lia. by eexists.
Qed.

Lemma le32_decode v : is_u32 v →
  v mod 256 + 256 * (v / 256 mod 256 + 256 * (v / 65536 mod 256 + 256 * (v / 16777216 mod 256))) = v.
Proof.
  intros Hv. unfold is_u32 in Hv.
  pose proof (Z.div_mod v 256 ltac:(lia)). pose proof (Z.div_mod (v / 256) 256 ltac:(lia)).
  pose proof (Z.div_mod (v / 65536) 256 ltac:(lia)).
  change 65536 with (256 * 256) in *. change 16777216 with (256 * 256 * 256).
  rewrite <-!Z.div_div in * by lia.
  rewrite (Z.mod_small (v / 256 / 256 / 256) 256); [lia|].
  split; [apply Z.div_pos; [|lia]; apply Z.div_pos; [|lia]; apply Z.div_pos; lia|].
  apply Z.div_lt_upper_bound; [lia|]. apply Z.div_lt_upper_bound; [lia|]. apply Z.div_lt_upper_bound; lia.
Qed.

Lemma buf_get32_take buf buf' off off' :
  take 4 (drop (Z.to_nat off) buf) = take 4 (drop (Z.to_nat off') buf') →
  buf_get32 buf off = buf_get32 buf' off'.
Proof.
  unfold buf_get32. destruct (drop (Z.to_nat off) buf) as [|? [|? [|? [|? ?]]]],
    (drop (Z.to_nat off') buf') as [|? [|? [|? [|? ?]]]]; simpl; try done; congruence.
Qed.

Lemma buf_set32_spec buf off v :
  0 ≤ off → off + 4 ≤ Z.of_nat (length buf) →
  ∃ buf', buf_set32 buf off v = Ok buf' ∧ length buf' = length buf ∧
    (is_u32 v → buf_get32 buf' off = Ok v) ∧
    ∀ off', 0 ≤ off' → off' + 4 ≤ off ∨ off + 4 ≤ off' → buf_get32 buf' off' = buf_get32 buf off'.
Proof.
  intros Hoff Hle. unfold buf_set32. rewrite (proj2 (Z.leb_le _ _)) by done.
  eexists. split; [done|].
  assert (length (take (Z.to_nat off) buf) = Z.to_nat off) as Ht by (rewrite length_take; lia).
  split; [rewrite !length_app, Ht, length_drop; cbn [le32 length]; lia|]. split.
  - intros Hv. unfold buf_get32. rewrite drop_app_length' by done. cbn [le32 app].
    by rewrite le32_decode.
  - intros off' Hoff' Hdisj.
    apply buf_get32_take. destruct Hdisj as [Hlt|Hgt].
    + rewrite drop_app_le by lia. rewrite take_app_le by (rewrite length_drop, Ht; lia).
      rewrite skipn_firstn_comm, firstn_firstn. by replace (4 `min` (Z.to_nat off - Z.to_nat off'))%nat with 4%nat by lia.
    + rewrite drop_app_ge by lia. rewrite Ht. rewrite drop_app_ge by (cbn [le32 length]; lia).
      rewrite drop_drop. cbn [le32 length]. do 2 f_equal. lia.
Qed.

(** ** Reading and writing words through the cache *)

Lemma bview_length s id : bc_wf s → 0 ≤ id < d_size (bc_disk s) → length (bview s id) = 512%nat.
Proof.
  intros Hwf Hid. unfold bview. destruct (list_find _ _) as [[j bc]|] eqn:E; [|by apply Hwf].
  apply list_find_Some in E as (Hj & _ & _). apply (bw_len s Hwf). by eapply list_elem_of_lookup_2.
Qed.

Lemma cache_read32_spec s id off v :
  bc_wf s → 0 ≤ id < d_size (bc_disk s) → buf_get32 (bview s id) off = Ok v →
  wp (cache_read32 id off) (fun r s' => r = v ∧ bc_wf s' ∧ d_size (bc_disk s') = d_size (bc_disk s) ∧
    (∀ j, 0 ≤ j < usize_MAX → bview s' j = bview s j) ∧ ids_grow s id s') s.
Proof.
  intros Hwf Hid Hget. unfold cache_read32. wp_step.
  eapply wp_mono; [by apply get_block_cache_spec|]. simpl. intros i s' (Hwf' & Hsz & Hv & Hg & bc & Hi & _ & Hb).
  repeat wp_step; [exact Hi|]. rewrite Hb, Hget. by wp_step.
Qed.

Lemma cache_write32_spec s id off v buf' :
  bc_wf s → 0 ≤ id < d_size (bc_disk s) → buf_set32 (bview s id) off v = Ok buf' → length buf' = 512%nat →
  wp (cache_write32 id off v) (fun _ s' => bc_wf s' ∧ d_size (bc_disk s') = d_size (bc_disk s) ∧
    (∀ j, 0 ≤ j < usize_MAX → bview s' j = if j =? id then buf' else bview s j) ∧ ids_grow s id s') s.
Proof.
  intros Hwf Hid Hset Hl. unfold cache_write32. wp_step.
  eapply wp_mono; [by apply get_block_cache_spec|]. simpl. intros i s' (Hwf' & Hsz & Hv & Hg & bc & Hi & Hbid & Hb).
  repeat wp_step; [exact Hi|]. rewrite Hb, Hset. unfold set_buffer. wp_step.
  set (bc' := mkBufferCache (priority bc) (block_id bc) buf' (shared bc)).
  change (mkBcState _ _) with (with_buffer s' i bc').
  assert (bc ∈ cache_pool s') by (by eapply list_elem_of_lookup_2).
  destruct (with_buffer_spec s' i bc bc') as [Hwf2 Hview]; try done.
  { by apply (bw_prio s' Hwf' bc). } { subst bc'. cbn [block_id]. lia. } { by left. }
  split; [done|]. split; [done|]. split; [|by apply ids_grow_buffer; [|left]].
  intros j Hj. rewrite Hview by done. subst bc'. cbn [block_id buffer].
  rewrite Hbid. destruct (j =? id); [done|by apply Hv].
Qed.

(** ** The cache against the bare disk *)

Inductive bc_cmd : Type :=
  | CRead (id off : Z)
  | CWrite (id off v : Z).

(** A command through the cache, and the same command on the disk itself. *)
Definition exec_cached (c : bc_cmd) : ST BcState (list Z) :=
  match c with
  | CRead id off => v ← cache_read32 id off; mret [v]
  | CWrite id off v => cache_write32 id off v;; mret []
  end.

Definition exec_direct (c : bc_cmd) : ST Disk (list Z) := fun d =>
  match c with
  | CRead id off => v ← buf_get32 (d_data d id) off; Ok ([v], d)
  | CWrite id off v => buf ← buf_set32 (d_data d id) off v; Ok ([], sector_write d id buf)
  end.

Definition cmd_ok (d : Disk) (c : bc_cmd) : Prop :=
  match c with
  | CRead id off | CWrite id off _ => 0 ≤ id < d_size d ∧ 0 ≤ off ≤ 508
  end.

Definition disk_wf (d : Disk) : Prop :=
  d_size d < usize_MAX ∧ ∀ id, 0 ≤ id < d_size d → length (d_data d id) = 512%nat.

Definition bc_refines (d : Disk) (s : BcState) : Prop :=
  bc_wf s ∧ disk_wf d ∧ d_size (bc_disk s) = d_size d ∧
  ∀ id, 0 ≤ id < d_size d → bview s id = d_data d id.

Lemma bc_new_wf d : disk_wf d → bc_wf (mkBcState BlockCacheManager_new d).
Proof.
  intros [Hsz Hd].
  assert (∀ bc, bc ∈ BlockCacheManager_new → bc = BufferCache_new) as Hall.
  { intros bc [-> _]%elem_of_replicate. done. }
  split; cbn [cache_pool bc_disk].
  - by intros bc ->%Hall.
  - by intros bc ->%Hall.
  - by intros bc ->%Hall.
  - intros i j b1 b2 ->%list_elem_of_lookup_2%Hall _ _ Hne. by destruct Hne.
  - done.
  - done.
  - exists BufferCache_new. split; [|done]. by apply elem_of_replicate.
Qed.

Lemma bc_new_refines d : disk_wf d → bc_refines d (mkBcState BlockCacheManager_new d).
Proof.
  intros Hd. split; [by apply bc_new_wf|]. split; [done|]. split; [done|].
  intros id Hid. apply bview_uncached. cbn [cache_pool]. intros bc [-> _]%elem_of_replicate. destruct Hd. cbn [block_id BufferCache_new]. lia.
Qed.

Lemma exec_cached_refines d s c :
  bc_refines d s → cmd_ok d c →
  ∃ out d' s', exec_direct c d = Ok (out, d') ∧ exec_cached c s = Ok (out, s') ∧ bc_refines d' s' ∧ d_size d' = d_size d.
Proof.
  intros (Hwf & [Hlt Hlen] & Hsz & Hv) Hc. destruct c as [id off|id off v]; destruct Hc as [Hid Hoff];
    pose proof (Hlen id Hid) as Hl512; pose proof (Hv id Hid) as Hvid.
  - destruct (buf_get32_Ok (d_data d id) off) as [w Hw]; [lia|lia|].
    destruct (wp_elim (exec_cached (CRead id off)) (fun out s' => out = [w] ∧ bc_refines d s') s) as (out & s' & Heq & -> & Hr).
    { unfold exec_cached. wp_step. eapply wp_mono; [apply cache_read32_spec; [done|lia|by rewrite Hvid]|].
      simpl. intros r s' (-> & Hwf' & Hsz' & Hv' & _). wp_step. split; [done|].
      split; [done|]. split; [done|]. split; [lia|]. intros j Hj. rewrite Hv' by lia. by apply Hv. }
    exists [w], d, s'. unfold exec_direct. by rewrite Hw.
  - destruct (buf_set32_spec (d_data d id) off v) as (buf' & Hset & Hl & _); [lia|lia|].
    destruct (wp_elim (exec_cached (CWrite id off v)) (fun out s' => out = [] ∧ bc_refines (sector_write d id buf') s') s)
      as (out & s' & Heq & -> & Hr).
    { unfold exec_cached. wp_step. eapply wp_mono; [apply cache_write32_spec; [done|lia|by rewrite Hvid|lia]|].
      simpl. intros _ s' (Hwf' & Hsz' & Hv' & _). wp_step. split; [done|]. split; [done|]. split.
      { split; [done|]. intros j Hj. cbn [sector_write d_data]. destruct (Z.eqb_spec j id); [lia|]. by apply Hlen. }
      split; [simpl; lia|]. intros j Hj. cbn [sector_write d_size d_data] in *. rewrite Hv' by lia.
      destruct (j =? id); [done|by apply Hv]. }
    exists [], (sector_write d id buf'), s'. unfold exec_direct. rewrite Hset. done.
Qed.

(** C6: the block cache is transparent.  Starting with an empty cache,
    every sequence of reads and writes of words that goes through the cache
    ends without panic, gives the results that the sequence gives on the disk
    itself, and leaves each sector, as seen through the cache, with the content
    that the disk has after the direct writes.  Evictions, write-backs and
    re-reads, which happen as soon as more than 16 sectors are used, are
    invisible. *)
Theorem block_cache_transparent (d : Disk) (cmds : list bc_cmd) :
  disk_wf d → Forall (cmd_ok d) cmds →
  ∃ outs d' s',
    st_fold (fun acc c => out ← exec_direct c; mret (acc ++ out)) [] cmds d = Ok (outs, d') ∧
    st_fold (fun acc c => out ← exec_cached c; mret (acc ++ out)) [] cmds
      (mkBcState BlockCacheManager_new d) = Ok (outs, s') ∧
    ∀ id, 0 ≤ id < d_size d → bview s' id = d_data d' id.
Proof.
  intros Hd Hall. pose proof (bc_new_refines d Hd) as Hr. revert Hr Hall.
  generalize (mkBcState BlockCacheManager_new d), (@nil Z). clear Hd.
  revert d. induction cmds as [|c cmds IH]; intros d s acc Hr Hall.
  { exists acc, d, s. split_and!; [done|done|]. by apply Hr. }
  apply Forall_cons in Hall as [Hc Hall].
  destruct (exec_cached_refines d s c Hr Hc) as (out & d1 & s1 & H1 & H2 & Hr1 & Hsz).
  destruct (IH d1 s1 (acc ++ out) Hr1) as (outs & d' & s' & Hd' & Hs' & Hv).
  { eapply Forall_impl; [exact Hall|]. intros c'. unfold cmd_ok. by rewrite Hsz. }
  exists outs, d', s'. cbn [st_fold]. unfold mbind, st_bind. rewrite H1, H2. split_and!; [done|done|].
  by rewrite <-Hsz.
Qed.

Definition sample_disk : Disk := mkDisk 64 (fun _ => replicate 512 0).

Definition sample_cmds : list bc_cmd :=
  CWrite 3 8 77 :: ((fun i => CWrite i 0 i) <$> seqZ 10 20) ++ [CRead 3 8; CRead 29 0].

Lemma block_cache_transparent_witness :
  ∃ outs d' s',
    st_fold (fun acc c => out ← exec_direct c; mret (acc ++ out)) [] sample_cmds sample_disk = Ok (outs, d') ∧
    st_fold (fun acc c => out ← exec_cached c; mret (acc ++ out)) [] sample_cmds
      (mkBcState BlockCacheManager_new sample_disk) = Ok (outs, s') ∧
    ∀ id, 0 ≤ id < d_size sample_disk → bview s' id = d_data d' id.
Proof.
  apply block_cache_transparent.
  - split; [done|]. intros id _. apply length_replicate.
  - unfold sample_cmds. constructor; [cbn; lia|]. apply Forall_app. split.
    + apply Forall_fmap, Forall_forall. intros i Hi%elem_of_seqZ. cbn. lia.
    + repeat constructor; cbn; lia.
Defined.
