(* ===== verification/SdCard.v ===== *)
(** * The SD card driver

    [kernel/src/drivers/block/sdcard.rs]: the commands of an SD card over a serial
    bus, the registers of the card, and reading and writing of sectors with
    retries.  The bus (the trait [SPI] and the pin functions of the crate
    [k210-soc]) and the time register are a class over the state of the board. *)

From S2P Require Import Prelude Config BlockCache.

(** Direction of a transfer. *)
Inductive Tmod : Type := TRANS | RECV.

(** What the driver uses of the board: the configuration of a transfer (mode 0,
    standard frames of 8 bits, no instruction, address or wait cycles), the clock
    rate, bytes sent and received with a chip select line, a pin and the time. *)
Class SpiBus (B : Type) : Type := {
  spi_configure : Tmod → ST B unit;
  spi_set_clk_rate : Z → ST B unit;
  spi_send_data : Z → list Z → ST B unit;
  spi_recv_data : Z → nat → ST B (list Z);
  gpiohs_set_pin : Z → bool → ST B unit;
  gpiohs_set_output : Z → ST B unit;
  read_time : ST B Z;
}.

Definition SD_START_DATA_SINGLE_BLOCK_READ : Z := 0xFE.
Definition SD_START_DATA_SINGLE_BLOCK_WRITE : Z := 0xFE.
Definition SD_START_DATA_MULTIPLE_BLOCK_WRITE : Z := 0xFC.
Definition SEC_LEN : nat := 512.

(** Commands, by their numbers. *)
Inductive CMD : Type :=
  | CMD0 | CMD8 | CMD9 | CMD10 | CMD12 | CMD16 | CMD17 | CMD18 | ACMD23 | CMD24 | CMD25 | ACMD41 | CMD55 | CMD58 | CMD59.

Definition cmd_u8 (c : CMD) : Z :=
  match c with
  | CMD0 => 0 | CMD8 => 8 | CMD9 => 9 | CMD10 => 10 | CMD12 => 12 | CMD16 => 16 | CMD17 => 17 | CMD18 => 18 | ACMD23 => 23
  | CMD24 => 24 | CMD25 => 25 | ACMD41 => 41 | CMD55 => 55 | CMD58 => 58 | CMD59 => 59
  end.

Record SDCardCSD : Type := mkCSD {
  CSDStruct : Z; SysSpecVersion : Z; CSD_Reserved1 : Z; TAAC : Z; NSAC : Z; MaxBusClkFrec : Z; CardComdClasses : Z;
  RdBlockLen : Z; PartBlockRead : Z; WrBlockMisalign : Z; RdBlockMisalign : Z; DSRImpl : Z; CSD_Reserved2 : Z; DeviceSize : Z;
  EraseGrSize : Z; EraseGrMul : Z; WrProtectGrSize : Z; WrProtectGrEnable : Z; ManDeflECC : Z; WrSpeedFact : Z; MaxWrBlockLen : Z;
  WriteBlockPaPartial : Z; Reserved3 : Z; ContentProtectAppli : Z; FileFormatGroup : Z; CopyFlag : Z; PermWrProtect : Z;
  TempWrProtect : Z; FileFormat : Z; ECC : Z; CSD_CRC : Z; Reserved4 : Z;
}.

Record SDCardCID : Type := mkCID {
  ManufacturerID : Z; OEM_AppliID : Z; ProdName1 : Z; ProdName2 : Z; ProdRev : Z; ProdSN : Z; CID_Reserved1 : Z; ManufactDate : Z;
  CID_CRC : Z; CID_Reserved2 : Z;
}.

Record SDCardInfo : Type := mkInfo { SD_csd : SDCardCSD; SD_cid : SDCardCID; CardCapacity : Z; CardBlockSize : Z }.

Inductive InitError : Type :=
  | CMDFailed (c : CMD) (result : Z)
  | CardCapacityStatusNotSet (frame : list Z)
  | CannotGetCardInfo.

(** A byte of an array that was read. *)
Definition at_ (tab : list Z) (i : nat) : Z := nth i tab 0.

(** The fields of the two registers, from their bytes. *)
Definition csd_of_tab (t : list Z) : SDCardCSD := {|
  CSDStruct := Z.shiftr (Z.land (at_ t 0) 0xC0) 6;
  SysSpecVersion := Z.shiftr (Z.land (at_ t 0) 0x3C) 2;
  CSD_Reserved1 := Z.land (at_ t 0) 0x03;
  TAAC := at_ t 1;
  NSAC := at_ t 2;
  MaxBusClkFrec := at_ t 3;
  CardComdClasses := Z.lor (Z.shiftl (at_ t 4) 4) (Z.shiftr (Z.land (at_ t 5) 0xF0) 4);
  RdBlockLen := Z.land (at_ t 5) 0x0F;
  PartBlockRead := Z.shiftr (Z.land (at_ t 6) 0x80) 7;
  WrBlockMisalign := Z.shiftr (Z.land (at_ t 6) 0x40) 6;
  RdBlockMisalign := Z.shiftr (Z.land (at_ t 6) 0x20) 5;
  DSRImpl := Z.shiftr (Z.land (at_ t 6) 0x10) 4;
  CSD_Reserved2 := 0;
  DeviceSize := Z.lor (Z.lor (Z.shiftl (Z.land (at_ t 7) 0x3F) 16) (Z.shiftl (at_ t 8) 8)) (at_ t 9);
  EraseGrSize := Z.shiftr (Z.land (at_ t 10) 0x40) 6;
  EraseGrMul := Z.lor (wrap8 (Z.shiftl (Z.land (at_ t 10) 0x3F) 1)) (Z.shiftr (Z.land (at_ t 11) 0x80) 7);
  WrProtectGrSize := Z.land (at_ t 11) 0x7F;
  WrProtectGrEnable := Z.shiftr (Z.land (at_ t 12) 0x80) 7;
  ManDeflECC := Z.shiftr (Z.land (at_ t 12) 0x60) 5;
  WrSpeedFact := Z.shiftr (Z.land (at_ t 12) 0x1C) 2;
  MaxWrBlockLen := Z.lor (wrap8 (Z.shiftl (Z.land (at_ t 12) 0x03) 2)) (Z.shiftr (Z.land (at_ t 13) 0xC0) 6);
  WriteBlockPaPartial := Z.shiftr (Z.land (at_ t 13) 0x20) 5;
  Reserved3 := 0;
  ContentProtectAppli := Z.land (at_ t 13) 0x01;
  FileFormatGroup := Z.shiftr (Z.land (at_ t 14) 0x80) 7;
  CopyFlag := Z.shiftr (Z.land (at_ t 14) 0x40) 6;
  PermWrProtect := Z.shiftr (Z.land (at_ t 14) 0x20) 5;
  TempWrProtect := Z.shiftr (Z.land (at_ t 14) 0x10) 4;
  FileFormat := Z.shiftr (Z.land (at_ t 14) 0x0C) 2;
  ECC := Z.land (at_ t 14) 0x03;
  CSD_CRC := Z.shiftr (Z.land (at_ t 15) 0xFE) 1;
  Reserved4 := 1;
|}.

Definition cid_of_tab (t : list Z) : SDCardCID := {|
  ManufacturerID := at_ t 0;
  OEM_AppliID := Z.lor (Z.shiftl (at_ t 1) 8) (at_ t 2);
  ProdName1 := Z.lor (Z.lor (Z.lor (Z.shiftl (at_ t 3) 24) (Z.shiftl (at_ t 4) 16)) (Z.shiftl (at_ t 5) 8)) (at_ t 6);
  ProdName2 := at_ t 7;
  ProdRev := at_ t 8;
  ProdSN := Z.lor (Z.lor (Z.lor (Z.shiftl (at_ t 9) 24) (Z.shiftl (at_ t 10) 16)) (Z.shiftl (at_ t 11) 8)) (at_ t 12);
  CID_Reserved1 := Z.shiftr (Z.land (at_ t 13) 0xF0) 4;
  ManufactDate := Z.lor (Z.shiftl (Z.land (at_ t 13) 0x0F) 8) (at_ t 14);
  CID_CRC := Z.shiftr (Z.land (at_ t 15) 0xFE) 1;
  CID_Reserved2 := 1;
|}.

(** [SDCard]: the chip select line of the controller and the pin. *)
Record SDCard : Type := mkSDCard { spi_cs : Z; cs_gpionum : Z }.

Section Driver.
Context {B : Type} `{!SpiBus B}.
Context (self : SDCard).

Definition CS_HIGH : ST B unit := gpiohs_set_pin (cs_gpionum self) true.

Definition CS_LOW : ST B unit := gpiohs_set_pin (cs_gpionum self) false.

Definition HIGH_SPEED_ENABLE : ST B unit := spi_set_clk_rate 10000000.

Definition lowlevel_init : ST B unit :=
  gpiohs_set_output (cs_gpionum self);;
  spi_set_clk_rate 200000.

Definition write_data (data : list Z) : ST B unit :=
  spi_configure TRANS;;
  spi_send_data (spi_cs self) data.

Definition read_data (n : nat) : ST B (list Z) :=
  spi_configure RECV;;
  spi_recv_data (spi_cs self) n.

Definition send_cmd (cmd : CMD) (arg crc : Z) : ST B unit :=
  CS_LOW;;
  write_data [Z.lor (cmd_u8 cmd) 0x40; wrap8 (Z.shiftr arg 24); wrap8 (Z.land (Z.shiftr arg 16) 0xff);
    wrap8 (Z.land (Z.shiftr arg 8) 0xff); wrap8 (Z.land arg 0xff); crc].

Definition end_cmd : ST B unit :=
  CS_HIGH;;
  write_data [0xff].

Fixpoint get_response_loop (timeout : nat) : ST B Z :=
  match timeout with
  | O => mret 0xFF
  | S timeout =>
      result ← read_data 1;
      if negb (at_ result 0 =? 0xFF) then mret (at_ result 0) else get_response_loop timeout
  end.

Definition get_response : ST B Z := get_response_loop (Z.to_nat 0x0FFF).

(** The card is busy while it sends zeros. *)
Fixpoint busy_loop (fuel : nat) (response : Z) : ST B unit :=
  match fuel with
  | O => out_of_fuel
  | S fuel => if response =? 0 then r ← read_data 1; busy_loop fuel (at_ r 0) else mret tt
  end.

Definition get_dataresponse (fuel : nat) : ST B Z :=
  response ← read_data 1;
  if negb (Z.land (at_ response 0) 0x1F =? 0x05) then mret 0xFF
  else
    response ← read_data 1;
    busy_loop fuel (at_ response 0);;
    mret 0.

(** The transaction that reads a register of 16 bytes and its checksum. *)
Definition read_register (cmd : CMD) : ST B (option (list Z)) :=
  send_cmd cmd 0 0;;
  r ← get_response;
  if negb (r =? 0x00) then end_cmd;; mret None
  else
    r ← get_response;
    if negb (r =? SD_START_DATA_SINGLE_BLOCK_READ) then end_cmd;; mret None
    else
      tab ← read_data 18;
      end_cmd;;
      mret (Some tab).

Definition get_csdregister : ST B (option SDCardCSD) :=
  tab ← read_register CMD9;
  mret (csd_of_tab <$> tab).

Definition get_cidregister : ST B (option SDCardCID) :=
  tab ← read_register CMD10;
  mret (cid_of_tab <$> tab).

Definition get_cardinfo : ST B (option SDCardInfo) :=
  csd ← get_csdregister;
  match csd with
  | None => mret None
  | Some csd =>
      cid ← get_cidregister;
      match cid with
      | None => mret None
      | Some cid =>
          let block_size := wrap64 (Z.shiftl 1 (RdBlockLen csd)) in
          mret (Some (mkInfo csd cid ((DeviceSize csd + 1) ⊠ 1024 ⊠ block_size) block_size))
      end
  end.

(** ** Initialisation *)

(** The error carries the [result] of before the loop. *)
Fixpoint acmd41_loop (index : nat) (result : Z) : ST B (option InitError) :=
  match index with
  | O => mret (Some (CMDFailed ACMD41 result))
  | S index =>
      send_cmd CMD55 0 0;;
      r ← get_response;
      end_cmd;;
      if negb (r =? 0x01) then mret (Some (CMDFailed CMD55 r))
      else
        send_cmd ACMD41 0x40000000 0;;
        r ← get_response;
        end_cmd;;
        if r =? 0x00 then mret None else acmd41_loop index result
  end.

Fixpoint cmd58_loop (index : nat) (result : Z) : ST B (list Z + InitError) :=
  match index with
  | O => mret (inr (CMDFailed CMD58 result))
  | S index =>
      send_cmd CMD58 0 1;;
      r ← get_response;
      frame ← read_data 4;
      end_cmd;;
      if r =? 0 then mret (inl frame) else cmd58_loop index result
  end.

Definition init : ST B (SDCardInfo + InitError) :=
  lowlevel_init;;
  CS_HIGH;;
  write_data (replicate 10 0xff);;
  send_cmd CMD0 0 0x95;;
  result ← get_response;
  end_cmd;;
  if negb (result =? 0x01) then mret (inr (CMDFailed CMD0 result))
  else
    send_cmd CMD8 0x01AA 0x87;;
    result ← get_response;
    frame ← read_data 4;
    end_cmd;;
    if negb (result =? 0x01) then mret (inr (CMDFailed CMD8 result))
    else
      e ← acmd41_loop 255 result;
      match e with
      | Some e => mret (inr e)
      | None =>
          f ← cmd58_loop 255 result;
          match f with
          | inr e => mret (inr e)
          | inl frame =>
              if Z.land (at_ frame 0) 0x40 =? 0 then mret (inr (CardCapacityStatusNotSet frame))
              else
                HIGH_SPEED_ENABLE;;
                info ← get_cardinfo;
                mret (match info with Some info => inl info | None => inr CannotGetCardInfo end)
          end
      end.

(** ** Sectors *)

(** The chunks of the buffer, read until an error; what is not read keeps its
    bytes. *)
Fixpoint read_chunks (chunks : list (list Z)) : ST B (bool * list Z) :=
  match chunks with
  | [] => mret (false, [])
  | chunk :: chunks =>
      r ← get_response;
      if negb (r =? SD_START_DATA_SINGLE_BLOCK_READ) then mret (true, chunk ++ concat chunks)
      else
        data ← read_data (length chunk);
        read_data 2;;
        '(error, rest) ← read_chunks chunks;
        mret (error, data ++ rest)
  end.

(** Whether the sequence succeeded, and the buffer. *)
Definition read_sector (data_buf : list Z) (sector : Z) : ST B (bool * list Z) :=
  let n := length data_buf in
  rust_assert ((SEC_LEN <=? n)%nat && (n mod SEC_LEN =? 0)%nat);;
  let flag := negb (n =? SEC_LEN)%nat in
  send_cmd (if flag then CMD18 else CMD17) sector 0;;
  r ← get_response;
  if negb (r =? 0x00) then end_cmd;; mret (false, data_buf)
  else
    '(error, data) ← read_chunks (chunks (n / SEC_LEN) data_buf);
    end_cmd;;
    (if flag then send_cmd CMD12 0 0;; get_response;; end_cmd;; end_cmd else mret tt);;
    mret (negb error, data).

Fixpoint write_data_chunks (fuel : nat) (frame : list Z) (chunks : list (list Z)) : ST B bool :=
  match chunks with
  | [] =>
      end_cmd;;
      end_cmd;;
      mret true
  | chunk :: chunks =>
      write_data frame;;
      write_data chunk;;
      write_data [0xff; 0xff];;
      r ← get_dataresponse fuel;
      if negb (r =? 0x00) then end_cmd;; mret false else write_data_chunks fuel frame chunks
  end.

Definition write_sector (fuel : nat) (data_buf : list Z) (sector : Z) : ST B bool :=
  let n := length data_buf in
  rust_assert ((SEC_LEN <=? n)%nat && (n mod SEC_LEN =? 0)%nat);;
  frame ← (if (n =? SEC_LEN)%nat then
             send_cmd CMD24 sector 0;;
             mret [0xff; SD_START_DATA_SINGLE_BLOCK_WRITE]
           else
             rust_assert (Z.of_nat (n / SEC_LEN) <? 2 ^ 32);;
             send_cmd ACMD23 (Z.of_nat (n / SEC_LEN)) 0;;
             get_response;;
             end_cmd;;
             send_cmd CMD25 sector 0;;
             mret [0xff; SD_START_DATA_MULTIPLE_BLOCK_WRITE]);
  r ← get_response;
  if negb (r =? 0x00) then end_cmd;; mret false
  else write_data_chunks fuel frame (chunks (n / SEC_LEN) data_buf).

(** ** The block device *)

Fixpoint wait_until (fuel : nat) (time : Z) : ST B unit :=
  match fuel with
  | O => out_of_fuel
  | S fuel => now ← read_time; if time <=? now then mret tt else wait_until fuel time
  end.

Definition wait_for_one_sec (fuel : nat) : ST B unit :=
  time ← read_time;
  wait_until fuel (time ⊞ CLOCK_FREQ).

(** Reading is tried again until it succeeds; after five failures there is
    a pause, one more try, and the card is set up again. *)
Fixpoint read_retry (fuel : nat) (block_id : Z) (buf : list Z) (ok : bool) (cont_cnt : Z) : ST B (list Z) :=
  match fuel with
  | O => out_of_fuel
  | S fuel' =>
      if ok then mret buf
      else
        '(ok, buf) ← read_sector buf (wrap32 block_id);
        let cont_cnt := cont_cnt + 1 in
        if 5 <=? cont_cnt then
          wait_for_one_sec fuel;;
          '(again, buf) ← read_sector buf (wrap32 block_id);
          if again : bool then mret buf
          else
            init;;
            wait_for_one_sec fuel;;
            read_retry fuel' block_id buf ok 0
        else read_retry fuel' block_id buf ok cont_cnt
  end.

Definition sd_read_block (fuel : nat) (block_id : Z) (buf : list Z) : ST B (list Z) :=
  '(ok, buf) ← read_sector buf (wrap32 block_id);
  read_retry fuel block_id buf ok 0.

Fixpoint write_retry (fuel : nat) (block_id : Z) (buf : list Z) (ok : bool) (cont_cnt : Z) : ST B unit :=
  match fuel with
  | O => out_of_fuel
  | S fuel' =>
      if ok then mret tt
      else
        ok ← write_sector fuel buf (wrap32 block_id);
        let cont_cnt := cont_cnt + 1 in
        if 5 <=? cont_cnt then
          wait_for_one_sec fuel;;
          again ← write_sector fuel buf (wrap32 block_id);
          if again : bool then mret tt
          else
            init;;
            wait_for_one_sec fuel;;
            write_retry fuel' block_id buf ok 0
        else write_retry fuel' block_id buf ok cont_cnt
  end.

Definition sd_write_block (fuel : nat) (block_id : Z) (buf : list Z) : ST B unit :=
  ok ← write_sector fuel buf (wrap32 block_id);
  write_retry fuel block_id buf ok 0.
End Driver.

Definition SD_CS_GPIONUM : Z := 7.
Definition SD_CS : Z := 3.
