(* ===== verification/SdCardSpec.v ===== *)
(** * The SD card driver is a block device

    What an SD card does on the bus is the class [SdProtocol]: the bytes it sends
    after each command and the data block it takes, with delays that the class
    leaves open, and with failures, of which there are at most four in a row.  On
    such a card the driver of [SdCard.v] reads sectors and writes single sectors of
    the disk that the card holds, trying again after a failure, with the results of
    the block device of [BlockCache.v].  [Card] is an instance. *)

From S2P Require Import Prelude Config BlockCache SdCard.

(** ** The protocol *)

(** A command on the bus: number, argument with the highest byte first,
    checksum. *)
Definition frame_of (cmd arg crc : Z) : list Z :=
  [64 + cmd; arg / 2 ^ 24 mod 256; arg / 2 ^ 16 mod 256; arg / 2 ^ 8 mod 256; arg mod 256; crc].

(** A card without something to say sends ones. *)
Definition ones (k : nat) : list Z := replicate k 0xFF.

(** Data blocks from sector [s] on, each after a pause, with a checksum. *)
Fixpoint stream (d : Disk) (s : Z) (gaps : list (nat * list Z)) : list Z :=
  match gaps with
  | [] => []
  | (k, crc) :: gaps => ones k ++ [0xFE] ++ d_data d s ++ crc ++ stream d (s + 1) gaps
  end.

(** Pauses shorter than what the driver waits for. *)
Definition gap_ok (g : nat * list Z) : Prop := Z.of_nat g.1 < 0xFFF ∧ length g.2 = 2%nat.

(** Instead of the byte [v] that means success: another one, or nothing while the
    driver waits. *)
Definition refusal (v : Z) (out : list Z) : Prop :=
  (∃ k r, Z.of_nat k < 0xFFF ∧ r ≠ v ∧ r ≠ 0xFF ∧ out = ones k ++ [r]) ∨ (∃ k, 0xFFF ≤ Z.of_nat k ∧ out = ones k).

(** The failures in a row after which the driver stops trying for a while. *)
Definition max_failures : nat := 4.

(** The disk, and how often the card may fail before it succeeds. *)
Inductive phase : Type :=
  | Idle (e : nat) (d : Disk)
  | Streaming (e : nat) (d : Disk)
  | Writing (e : nat) (d : Disk) (s : Z).

(** The bytes that a card in a phase sends after a command, and its new phase: the
    answers to reading one block (17), reading blocks until the card is stopped (18
    and 12) and writing a block (24), and the ways in which they fail: the command is
    refused, or an error token comes in place of a block. *)
Inductive answer : phase → Z → Z → list Z → phase → Prop :=
  | ans_read e e' d s k g : 0 ≤ s < d_size d → Z.of_nat k < 0xFFF → gap_ok g → (e' ≤ max_failures)%nat →
      answer (Idle e d) 17 s (ones k ++ [0] ++ stream d s [g]) (Idle e' d)
  | ans_read_many e e' d s k gaps : 0 ≤ s < d_size d → Z.of_nat k < 0xFFF → Forall gap_ok gaps → Z.of_nat (length gaps) = d_size d - s → (e' ≤ max_failures)%nat →
      answer (Idle e d) 18 s (ones k ++ [0] ++ stream d s gaps) (Streaming e' d)
  | ans_stop e d arg k r rest : Z.of_nat k < 0xFFF → r ≠ 0xFF → answer (Streaming e d) 12 arg (ones k ++ [r] ++ rest) (Idle e d)
  | ans_write e d s k : 0 ≤ s < d_size d → Z.of_nat k < 0xFFF → answer (Idle e d) 24 s (ones k ++ [0]) (Writing e d s)
  | ans_refused e e' d cmd s out : cmd = 17 ∨ cmd = 18 ∨ cmd = 24 → refusal 0 out → (e' < e)%nat → answer (Idle e d) cmd s out (Idle e' d)
  | ans_read_error e e' d s k out : Z.of_nat k < 0xFFF → refusal 0xFE out → (e' < e)%nat → answer (Idle e d) 17 s (ones k ++ [0] ++ out) (Idle e' d)
  | ans_many_error e e' d s k gaps out : Z.of_nat k < 0xFFF → Forall gap_ok gaps → Z.of_nat (length gaps) < d_size d - s → refusal 0xFE out → (e' < e)%nat →
      answer (Idle e d) 18 s (ones k ++ [0] ++ stream d s gaps ++ out) (Streaming e' d).

(** The answer to a data block: it is accepted, and then the card is busy for a
    while, or it is rejected and not written. *)
Inductive block_answer (busy : nat) (e : nat) (d : Disk) (s : Z) (data : list Z) : list Z → phase → Prop :=
  | block_accepted e' x z y : Z.land x 0x1F = 5 → (z ≤ busy)%nat → y ≠ 0 → (e' ≤ max_failures)%nat →
      block_answer busy e d s data ([x] ++ replicate z 0 ++ [y]) (Idle e' (sector_write d s data))
  | block_rejected e' x : Z.land x 0x1F ≠ 5 → (e' < e)%nat → block_answer busy e d s data [x] (Idle e' d).

(** A command that the driver may send in a phase. *)
Definition command_ok (p : phase) (cmd arg : Z) : Prop :=
  match p with
  | Idle _ d => (cmd = 17 ∨ cmd = 18 ∨ cmd = 24) ∧ 0 ≤ arg < d_size d
  | Streaming _ _ => cmd = 12
  | Writing _ _ _ => False
  end.

Definition may_deselect (p : phase) : Prop := match p with Writing _ _ _ => False | _ => True end.

Class SdProtocol (B : Type) `{!SpiBus B} (self : SDCard) : Type := {
  (** The card is not selected, or it is selected and will send these bytes. *)
  card_off : phase → B → Prop;
  card_on : list Z → phase → B → Prop;
  (** An upper bound of the time that writing a block takes. *)
  busy_bound : nat;
  sd_receive out p b n : card_on out p b → (n ≤ length out)%nat →
    wp (read_data self n) (fun r b' => r = take n out ∧ card_on (drop n out) p b') b;
  sd_command p cmd arg crc b : card_off p b → command_ok p cmd arg → 0 ≤ arg < 2 ^ 32 →
    wp (CS_LOW self) (fun _ => wp (write_data self (frame_of cmd arg crc)) (fun _ b' => ∃ out p', answer p cmd arg out p' ∧ card_on out p' b')) b;
  sd_block e d s data c1 c2 b : card_on [] (Writing e d s) b → length data = 512%nat →
    wp (write_data self [0xFF; 0xFE]) (fun _ => wp (write_data self data) (fun _ => wp (write_data self [c1; c2]) (fun _ b' =>
      ∃ out p', block_answer busy_bound e d s data out p' ∧ card_on out p' b'))) b;
  sd_deselect out p b : card_on out p b → may_deselect p →
    wp (CS_HIGH self) (fun _ => wp (write_data self [0xFF]) (fun _ => card_off p)) b;
  sd_pause p b : card_off p b → wp (CS_HIGH self) (fun _ => wp (write_data self [0xFF]) (fun _ => card_off p)) b;
}.

(** ** Transactions *)

Section Spec.
Context {B : Type} `{!SpiBus B} (self : SDCard) `{!SdProtocol B self}.
Implicit Types b : B.

(** The six bytes of [send_cmd]. *)
Lemma send_cmd_bytes cmd arg crc : 0 ≤ arg < 2 ^ 32 →
  [Z.lor (cmd_u8 cmd) 0x40; wrap8 (Z.shiftr arg 24); wrap8 (Z.land (Z.shiftr arg 16) 0xff); wrap8 (Z.land (Z.shiftr arg 8) 0xff); wrap8 (Z.land arg 0xff); crc]
  = frame_of (cmd_u8 cmd) arg crc.
Proof.
  intros Ha. unfold frame_of, wrap8. change 0xff with (Z.ones 8). rewrite !Z.land_ones, !Z.shiftr_div_pow2 by lia. change (2 ^ 8) with 256.
  rewrite !Z.mod_mod by lia. f_equal. by destruct cmd.
Qed.

Lemma wp_send_cmd p cmd arg crc b :
  card_off p b → command_ok p (cmd_u8 cmd) arg → 0 ≤ arg < 2 ^ 32 →
  wp (send_cmd self cmd arg crc) (fun _ b' => ∃ out p', answer p (cmd_u8 cmd) arg out p' ∧ card_on out p' b') b.
Proof.
  intros Hb Hc Ha. unfold send_cmd. wp_step. rewrite send_cmd_bytes by done. by apply sd_command.
Qed.

Lemma wp_end_cmd out p b : card_on out p b → may_deselect p → wp (end_cmd self) (fun _ => card_off p) b.
Proof. intros Hb Hp. unfold end_cmd. wp_step. by eapply sd_deselect. Qed.

Lemma wp_end_cmd_off p b : card_off p b → wp (end_cmd self) (fun _ => card_off p) b.
Proof. intros Hb. unfold end_cmd. wp_step. by apply sd_pause. Qed.

Lemma wp_get_response k r rest p b :
  card_on (ones k ++ [r] ++ rest) p b → Z.of_nat k < 0xFFF → r ≠ 0xFF → wp (get_response self) (fun v b' => v = r ∧ card_on rest p b') b.
Proof.
  unfold get_response. intros Hb Hk Hr. assert (k < Z.to_nat 0xFFF)%nat as Hn by lia. clear Hk. revert k b Hb Hn. generalize (Z.to_nat 0xFFF) as n.
  induction n as [|n IH]; intros k b Hb Hn; [lia|]. cbn [get_response_loop]. wp_step. eapply wp_mono; [apply sd_receive; [exact Hb|]|].
  { rewrite !length_app. cbn. lia. }
  intros v b' [-> Hb']. destruct k as [|k]; cbn [ones replicate app take drop at_ nth] in *.
  - destruct (Z.eqb_spec r 0xFF); [done|]. cbn [negb]. wp_step. done.
  - rewrite Z.eqb_refl. cbn [negb]. apply (IH k); [exact Hb'|lia].
Qed.

Lemma wp_get_response_refused v out p b :
  card_on out p b → refusal v out → v ≠ 0xFF → wp (get_response self) (fun r b' => r ≠ v ∧ ∃ rest, card_on rest p b') b.
Proof.
  intros Hb [(k & r & Hk & Hr & Hff & ->)|(k & Hk & ->)] Hv.
  - rewrite <-(app_nil_r (ones k ++ [r])), <-app_assoc in Hb. eapply wp_mono; [by apply (wp_get_response k)|]. intros r' b' [-> Hb']. split; [done|by eexists].
  - unfold get_response. assert (Z.to_nat 0xFFF ≤ k)%nat as Hn by lia. clear Hk. revert k b Hb Hn. generalize (Z.to_nat 0xFFF) as n.
    induction n as [|n IH]; intros k b Hb Hn; cbn [get_response_loop]; wp_step; [split; [done|by eexists]|]. destruct k as [|k]; [lia|].
    eapply wp_mono; [apply sd_receive; [exact Hb|cbn; lia]|]. intros r b' [-> Hb']. cbn [ones replicate app take drop at_ nth] in *. rewrite Z.eqb_refl. cbn [negb].
    apply (IH k); [exact Hb'|lia].
Qed.

(** ** Reading *)

(** All blocks come, or there is an error token after some of them. *)
Definition stream_end (gaps : list (nat * list Z)) (n : nat) (tail : list Z) : Prop :=
  (n ≤ length gaps)%nat ∨ refusal 0xFE tail.

Lemma wp_read_chunks d s bufs gaps tail p b :
  disk_wf d → card_on (stream d s gaps ++ tail) p b → Forall gap_ok gaps → stream_end gaps (length bufs) tail → Forall (fun c => length c = 512%nat) bufs →
  0 ≤ s → s + Z.of_nat (length bufs) ≤ d_size d → d_size d < 2 ^ 63 →
  wp (read_chunks self bufs) (fun r b' => (∃ rest, card_on rest p b') ∧ length r.2 = length (concat bufs) ∧
    (r.1 = false → read_block d s (length bufs) = Ok r.2) ∧ (r.1 = true → ¬ (length bufs ≤ length gaps)%nat)) b.
Proof.
  intros Hd. revert s gaps b. induction bufs as [|c bufs IH]; intros s gaps b Hb Hg Hl Hf Hs Hn Hsz; cbn [read_chunks].
  { wp_step. split_and!; [by eexists|done|done|done]. }
  inversion Hf as [|? ? Hc Hf']; subst. cbn [length concat] in *.
  destruct gaps as [|[k crc] gaps]; cbn [stream] in Hb.
  { destruct Hl as [Hl|Hl]; [cbn in Hl; lia|]. wp_step. eapply wp_mono; [by apply (wp_get_response_refused 0xFE tail)|]. intros r b1 [Hr Hb1].
    unfold SD_START_DATA_SINGLE_BLOCK_READ. destruct (Z.eqb_spec r 0xFE); [done|]. cbn [negb]. wp_step. split_and!; [done|done|done|cbn; lia]. }
  inversion Hg as [|? ? [Hk Hcrc] Hg']; subst. assert (length (d_data d s) = 512%nat) as Hds by (apply Hd; lia).
  rewrite <-!app_assoc in Hb. wp_step. eapply wp_mono; [by apply (wp_get_response k)|]. intros r b1 [-> Hb1]. cbn [Z.eqb Pos.eqb negb SD_START_DATA_SINGLE_BLOCK_READ].
  wp_step. eapply wp_mono; [apply sd_receive; [exact Hb1|]|]; [rewrite !length_app; lia|]. intros data b2 [-> Hb2].
  rewrite take_app_length', drop_app_length' in * by lia. wp_step. eapply wp_mono; [apply sd_receive; [exact Hb2|]|]; [cbn in Hcrc; rewrite !length_app; lia|].
  intros ? b3 [_ Hb3]. rewrite drop_app_length' in Hb3 by done. wp_step.
  assert (stream_end gaps (length bufs) tail) as Hl' by (destruct Hl as [Hl|]; [left; cbn in Hl; lia|by right]).
  eapply wp_mono; [apply (IH (s + 1) gaps); try done; lia|]. intros [e rest] b4 (Hrest & Hlen & Hr & He). cbn [fst snd] in *. wp_step. cbn [fst snd]. split_and!; [done| | |].
  - rewrite !length_app. lia.
  - intros ->. cbn [read_block]. rewrite (proj2 (Z.ltb_lt _ _)) by lia. rewrite wrap64_small by (unfold is_usize; lia). by rewrite Hr.
  - intros E. specialize (He E). cbn. lia.
Qed.

(** Buffers that the block device takes. *)
Definition sectors (buf : list Z) : nat := length buf / 512.

Definition buffer_ok (d : Disk) (id : Z) (buf : list Z) : Prop :=
  (0 < sectors buf)%nat ∧ length buf = (512 * sectors buf)%nat ∧ 0 ≤ id ∧ id + Z.of_nat (sectors buf) ≤ d_size d ∧ d_size d < 2 ^ 32.

Lemma chunks_512 n buf : length buf = (512 * n)%nat → Forall (fun c => length c = 512%nat) (chunks n buf).
Proof.
  intros Hl. apply Forall_forall. intros c Hc. unfold chunks in Hc. apply list_elem_of_fmap in Hc as (i & -> & Hi). apply elem_of_seq in Hi.
  rewrite length_take, length_drop. lia.
Qed.

Lemma length_chunks n buf : length (chunks n buf) = n.
Proof. unfold chunks. by rewrite length_fmap, length_seq. Qed.

Lemma buffer_assert d id buf : buffer_ok d id buf → ((SEC_LEN <=? length buf)%nat && (length buf mod SEC_LEN =? 0)%nat) = true.
Proof.
  intros (Hn & Hl & _). apply andb_true_iff. split; [apply Nat.leb_le; unfold SEC_LEN; lia|]. apply Nat.eqb_eq. rewrite Hl, Nat.mul_comm. apply Nat.Div0.mod_mul.
Qed.

Lemma concat_chunks n buf : length buf = (512 * n)%nat → length (concat (chunks n buf)) = length buf.
Proof.
  intros Hl. pose proof (chunks_512 n buf Hl) as Hc. rewrite Hl. rewrite <-(length_chunks n buf) at 2. revert Hc. generalize (chunks n buf). clear.
  intros l Hc. induction Hc as [|c l Hl _ IH]; [done|]. cbn [concat length]. rewrite length_app, IH. lia.
Qed.

(** What a card answers when [n] blocks are asked for, by reading one or many. *)
Lemma read_answer e d (many : bool) id n out p :
  answer (Idle e d) (if many then 18 else 17) id out p → (many = false → n = 1%nat) → 0 ≤ id → id + Z.of_nat n ≤ d_size d → (e ≤ max_failures)%nat →
  (refusal 0 out ∧ ∃ e', (e' < e)%nat ∧ p = Idle e' d) ∨
  ∃ e' k gaps tail, out = ones k ++ [0] ++ stream d id gaps ++ tail ∧ Z.of_nat k < 0xFFF ∧ Forall gap_ok gaps ∧ stream_end gaps n tail ∧
    p = (if many then Streaming e' d else Idle e' d) ∧ (e' ≤ max_failures)%nat ∧ (¬ (n ≤ length gaps)%nat → (e' < e)%nat).
Proof.
  intros Hans Hn Hid Hend He. destruct many; inversion Hans; subst; try (by left; eauto); right.
  - eexists _, k, gaps, []. rewrite app_nil_r. split_and!; try done || lia. left. lia.
  - eexists _, k, gaps, out0. split_and!; try done || lia. by right.
  - rewrite Hn by done. eexists _, k, [g], []. rewrite app_nil_r. split_and!; try done || (cbn; lia); [by apply Forall_singleton|left; cbn; lia].
  - eexists _, k, [], out0. split_and!; try done || lia. by right.
Qed.

Lemma wp_read_stop e d (many : bool) b :
  card_off (if many then Streaming e d else Idle e d) b →
  wp (if many then send_cmd self CMD12 0 0;; get_response self;; end_cmd self;; end_cmd self else mret tt) (fun _ => card_off (Idle e d)) b.
Proof.
  intros Hb. destruct many; [|by wp_step]. wp_step. eapply wp_mono; [apply (wp_send_cmd (Streaming e d)); [done|done|lia]|]. intros ? b1 (out & p & Hans & Hb1).
  cbn [cmd_u8] in Hans. inversion Hans; subst. wp_step. eapply wp_mono; [by apply (wp_get_response k)|]. intros r' b2 [-> Hb2].
  wp_step. eapply wp_mono; [by eapply wp_end_cmd|]. intros ? b3 Hb3. by apply wp_end_cmd_off.
Qed.

(** The outcome of an attempt: success, or a failure of which there are fewer to
    come. *)
Definition read_done (d : Disk) (id : Z) (buf : list Z) (e : nat) (r : bool * list Z) (b' : B) : Prop :=
  ∃ e', card_off (Idle e' d) b' ∧
    (r.1 = true ∧ read_block d id (sectors buf) = Ok r.2 ∧ (e' ≤ max_failures)%nat ∨ r.1 = false ∧ length r.2 = length buf ∧ (e' < e)%nat).

Lemma wp_read_sector e d id buf b :
  disk_wf d → card_off (Idle e d) b → (e ≤ max_failures)%nat → buffer_ok d id buf → wp (read_sector self buf id) (read_done d id buf e) b.
Proof.
  intros Hd Hb He Hok. pose proof (buffer_assert d id buf Hok) as Ha. destruct Hok as (Hn & Hl & Hid & Hend & Hsz). unfold read_sector. wp_step. apply wp_assert; [done|].
  change (length buf / SEC_LEN)%nat with (sectors buf). set (many := negb (length buf =? SEC_LEN)%nat).
  assert (many = false → sectors buf = 1%nat) as H1 by (intros E%negb_false_iff%Nat.eqb_eq; unfold SEC_LEN in E; lia). clearbody many.
  pose proof (chunks_512 _ buf Hl) as Hch. pose proof (length_chunks (sectors buf) buf) as Hlc. pose proof (concat_chunks _ buf Hl) as Hcc. wp_step.
  eapply wp_mono; [apply (wp_send_cmd (Idle e d)); [done|split; [destruct many; cbn; tauto|lia]|lia]|]. intros ? b1 (out & p & Hans & Hb1).
  assert (answer (Idle e d) (if many then 18 else 17) id out p) as Hans' by (by destruct many). wp_step.
  destruct (read_answer e d many id (sectors buf) out p) as [[Hr (e' & He' & ->)]|(e' & k & gaps & tail & -> & Hk & Hg & Hend' & -> & He' & Hfew)]; try done.
  - eapply wp_mono; [by apply (wp_get_response_refused 0 out)|]. intros r b2 [Hr0 [rest Hb2]]. destruct (Z.eqb_spec r 0); [done|]. cbn [negb]. wp_step.
    eapply wp_mono; [by eapply wp_end_cmd|]. intros ? b3 Hb3. wp_step. exists e'. split; [done|by right].
  - eapply wp_mono; [by apply (wp_get_response k)|]. intros r b2 [-> Hb2]. cbn [Z.eqb negb]. wp_step.
    eapply wp_mono; [apply (wp_read_chunks d id _ gaps tail); try done; rewrite ?Hlc; [done|lia..]|].
    intros [err data] b3 ([rest Hb3] & Hlen & Hok & Herr). cbn [fst snd] in *. rewrite Hlc in *. wp_step. eapply wp_mono; [eapply wp_end_cmd; [exact Hb3|by destruct many]|].
    intros ? b4 Hb4. wp_step. eapply wp_mono; [by apply (wp_read_stop e' d many)|]. intros ? b5 Hb5. wp_step. exists e'. split; [done|]. cbn [fst snd].
    destruct err; cbn [negb]; [right|left; by split_and!; [|apply Hok|]]. split_and!; [done|congruence|auto].
Qed.

(** ** Writing *)

Lemma wp_get_dataresponse fuel x z y p b :
  card_on ([x] ++ replicate z 0 ++ [y]) p b → Z.land x 0x1F = 5 → y ≠ 0 → (z < fuel)%nat →
  wp (get_dataresponse self fuel) (fun r b' => r = 0 ∧ card_on [] p b') b.
Proof.
  intros Hb Hx Hy Hz. unfold get_dataresponse. wp_step. eapply wp_mono; [apply sd_receive; [exact Hb|cbn; lia]|]. intros ? b1 [-> Hb1].
  cbn [take drop app at_ nth] in *. rewrite Hx. cbn [Z.eqb Pos.eqb negb].
  assert (∀ b1, card_on (replicate z 0 ++ [y]) p b1 →
    wp (read_data self 1) (fun r b' => wp (busy_loop self fuel (at_ r 0)) (fun _ b2 => card_on [] p b2) b') b1) as Hloop.
  { clear Hb Hb1 b1. revert fuel Hz. induction z as [|z IH]; intros fuel Hz b1 Hb1; (destruct fuel as [|fuel]; [lia|]).
    - eapply wp_mono; [apply sd_receive; [exact Hb1|cbn; lia]|]. intros ? b2 [-> Hb2]. cbn in *. destruct (Z.eqb_spec y 0); [done|]. by wp_step.
    - eapply wp_mono; [apply sd_receive; [exact Hb1|cbn; lia]|]. intros ? b2 [-> Hb2]. cbn [take drop replicate app at_ nth busy_loop] in *. cbn [Z.eqb].
      wp_step. apply IH; [lia|done]. }
  wp_step. eapply wp_mono; [by apply Hloop|]. intros r b2 H2. wp_step. eapply wp_mono; [exact H2|]. intros ? b3 H3. by wp_step.
Qed.

Lemma wp_get_dataresponse_rejected fuel x p b :
  card_on [x] p b → Z.land x 0x1F ≠ 5 → wp (get_dataresponse self fuel) (fun r b' => r ≠ 0 ∧ card_on [] p b') b.
Proof.
  intros Hb Hx. unfold get_dataresponse. wp_step. eapply wp_mono; [apply sd_receive; [exact Hb|cbn; lia]|]. intros ? b1 [-> Hb1].
  cbn [take drop at_ nth] in *. destruct (Z.eqb_spec (Z.land x 0x1F) 5); [done|]. cbn [negb]. by wp_step.
Qed.

Definition write_done (d : Disk) (id : Z) (buf : list Z) (e : nat) (r : bool) (b' : B) : Prop :=
  ∃ e' d', card_off (Idle e' d') b' ∧ (r = true ∧ write_block d id buf = Ok d' ∧ (e' ≤ max_failures)%nat ∨ r = false ∧ d' = d ∧ (e' < e)%nat).

Lemma chunks_one buf : length buf = 512%nat → chunks 1 buf = [buf].
Proof. intros Hl. unfold chunks. cbn [seq fmap list_fmap]. by rewrite Nat.mul_0_r, drop_0, take_ge by lia. Qed.

Lemma write_one d id buf : length buf = 512%nat → 0 ≤ id < d_size d → write_block d id buf = Ok (sector_write d id buf).
Proof.
  intros Hl Hid. unfold write_block. rewrite Hl. change (512 / 512)%nat with 1%nat. rewrite chunks_one by done. cbn [write_chunks]. by rewrite (proj2 (Z.ltb_lt _ _)) by lia.
Qed.

Lemma wp_write_sector fuel e d id buf b :
  card_off (Idle e d) b → buffer_ok d id buf → sectors buf = 1%nat → (busy_bound < fuel)%nat → wp (write_sector self fuel buf id) (write_done d id buf e) b.
Proof.
  intros Hb Hok H1 Hf. pose proof (buffer_assert d id buf Hok) as Ha. destruct Hok as (Hn & Hl & Hid & Hend & Hsz). assert (length buf = 512%nat) as Hl1 by (rewrite Hl, H1; done).
  unfold write_sector. wp_step. apply wp_assert; [done|]. change (length buf / SEC_LEN)%nat with (sectors buf). rewrite H1. unfold SEC_LEN. rewrite Hl1. cbn [Nat.eqb].
  rewrite chunks_one by done. wp_step. wp_step.
  eapply wp_mono; [apply (wp_send_cmd (Idle e d)); [done|cbn; split; [tauto|lia]|lia]|]. intros ? b1 (out & p & Hans & Hb1). cbn [cmd_u8] in Hans. wp_step. wp_step.
  inversion Hans; subst.
  - rewrite <-(app_nil_r (ones k ++ [0])), <-app_assoc in Hb1. eapply wp_mono; [apply (wp_get_response k); [exact Hb1|done|done]|]. intros r b2 [-> Hb2]. cbn [Z.eqb negb write_data_chunks].
    unfold SD_START_DATA_SINGLE_BLOCK_WRITE. wp_step. eapply wp_mono; [by apply (sd_block e d id buf 0xff 0xff b2)|]. intros ? b3 Hw1. wp_step.
    eapply wp_mono; [exact Hw1|]. intros ? b4 Hw2. wp_step. eapply wp_mono; [exact Hw2|]. intros ? b5 (out & p & Hans' & Hb5). wp_step. inversion Hans'; subst.
    + eapply wp_mono; [eapply wp_get_dataresponse; [exact Hb5|done|done|lia]|]. intros r b6 [-> Hb6]. cbn [Z.eqb negb]. wp_step.
      eapply wp_mono; [by eapply wp_end_cmd|]. intros ? b7 Hb7. wp_step. eapply wp_mono; [exact (wp_end_cmd_off _ b7 Hb7)|]. intros ? b8 Hb8. wp_step.
      eexists _, _. split; [exact Hb8|]. left. split_and!; [done|apply write_one; done || lia|done].
    + eapply wp_mono; [by eapply wp_get_dataresponse_rejected|]. intros r b6 [Hr Hb6]. destruct (Z.eqb_spec r 0); [done|]. cbn [negb]. wp_step.
      eapply wp_mono; [by eapply wp_end_cmd|]. intros ? b7 Hb7. wp_step. eexists _, d. split; [exact Hb7|by right].
  - eapply wp_mono; [by apply (wp_get_response_refused 0 out)|]. intros r b2 [Hr0 [rest Hb2]]. destruct (Z.eqb_spec r 0); [done|]. cbn [negb]. wp_step.
    eapply wp_mono; [by eapply wp_end_cmd|]. intros ? b3 Hb3. wp_step. eexists _, d. split; [exact Hb3|by right].
Qed.

(** ** Trying again *)

(** The retries of a read end: with at most four failures in a row the fifth
    attempt succeeds, before the driver pauses. *)
Lemma wp_read_retry fuel e d id buf data ok cnt b :
  disk_wf d → buffer_ok d id buf → wrap32 id = id → read_done d id buf e (ok, data) b → (e + 1 ≤ fuel)%nat → (e ≤ max_failures)%nat → 0 ≤ cnt → cnt + Z.of_nat e ≤ 4 →
  wp (read_retry self fuel id data ok cnt) (fun r b' => read_block d id (sectors buf) = Ok r ∧ ∃ e', (e' ≤ max_failures)%nat ∧ card_off (Idle e' d) b') b.
Proof.
  intros Hd Hok Hid. revert e data ok cnt b. induction fuel as [|fuel IH]; intros e data ok cnt b (e' & Hb & Hc) Hf He Hcnt Hle; [lia|]. cbn [fst snd] in Hc. cbn [read_retry].
  destruct Hc as [(-> & Hr & He')|(-> & Hl & He')]; [wp_step; eauto|]. wp_step. rewrite Hid.
  assert (sectors data = sectors buf) as Hs by (unfold sectors; by rewrite Hl).
  eapply wp_mono; [apply (wp_read_sector e' d id data b Hd Hb); [lia|unfold buffer_ok in *; rewrite Hs, Hl; done]|]. intros [ok1 data1] b1 Hdone.
  rewrite (proj2 (Z.leb_gt 5 (cnt + 1))) by lia. apply (IH e'); try lia. unfold read_done in *. by rewrite Hs, Hl in Hdone.
Qed.

Lemma wp_write_retry fuel e d id buf ok cnt b :
  buffer_ok d id buf → sectors buf = 1%nat → wrap32 id = id → write_done d id buf e ok b → (busy_bound + e + 1 ≤ fuel)%nat → (e ≤ max_failures)%nat → 0 ≤ cnt → cnt + Z.of_nat e ≤ 4 →
  wp (write_retry self fuel id buf ok cnt) (fun _ b' => ∃ d' e', write_block d id buf = Ok d' ∧ (e' ≤ max_failures)%nat ∧ card_off (Idle e' d') b') b.
Proof.
  intros Hok H1 Hid. revert e ok cnt b. induction fuel as [|fuel IH]; intros e ok cnt b (e' & d' & Hb & Hc) Hf He Hcnt Hle; [lia|]. cbn [write_retry].
  destruct Hc as [(-> & Hr & He')|(-> & -> & He')]; [wp_step; eauto|]. wp_step. rewrite Hid.
  eapply wp_mono; [apply (wp_write_sector (S fuel) e' d id buf b Hb Hok H1); lia|]. intros ok1 b1 Hdone.
  rewrite (proj2 (Z.leb_gt 5 (cnt + 1))) by lia. by apply (IH e'); try lia.
Qed.

(** ** The block device *)

Inductive sd_cmd : Type :=
  | SdRead (id : Z) (buf : list Z)
  | SdWrite (id : Z) (buf : list Z).

Definition exec_sd (fuel : nat) (c : sd_cmd) : ST B (list Z) :=
  match c with
  | SdRead id buf => sd_read_block self fuel id buf
  | SdWrite id buf => sd_write_block self fuel id buf;; mret []
  end.

(** Any number of sectors is read, one is written. *)
Definition sd_cmd_ok (d : Disk) (c : sd_cmd) : Prop :=
  match c with
  | SdRead id buf => buffer_ok d id buf
  | SdWrite id buf => buffer_ok d id buf ∧ sectors buf = 1%nat
  end.

Fixpoint exec_sd_all (fuel : nat) (cs : list sd_cmd) : ST B (list (list Z)) :=
  match cs with
  | [] => mret []
  | c :: cs => r ← exec_sd fuel c; rs ← exec_sd_all fuel cs; mret (r :: rs)
  end.
End Spec.

(** The same commands on a disk. *)
Definition exec_disk (c : sd_cmd) : ST Disk (list Z) := fun d =>
  match c with
  | SdRead id buf => data ← read_block d id (sectors buf); Ok (data, d)
  | SdWrite id buf => d' ← write_block d id buf; Ok ([], d')
  end.

Fixpoint exec_disk_all (cs : list sd_cmd) : ST Disk (list (list Z)) :=
  match cs with
  | [] => mret []
  | c :: cs => r ← exec_disk c; rs ← exec_disk_all cs; mret (r :: rs)
  end.

Lemma sector_write_kept d s data : disk_wf d → length data = 512%nat → disk_wf (sector_write d s data) ∧ d_size (sector_write d s data) = d_size d.
Proof. intros Hd Hl. split; [|done]. split; [apply Hd|]. intros i Hi. cbn. destruct (i =? s); [done|by apply Hd]. Qed.

(** One command on the card. *)
Lemma exec_sd_refines {B : Type} `{!SpiBus B} (self : SDCard) `{!SdProtocol B self} fuel c e d (b : B) :
  disk_wf d → card_off (Idle e d) b → (e ≤ max_failures)%nat → (busy_bound + max_failures < fuel)%nat → sd_cmd_ok d c →
  ∃ r b1 e1 d1, exec_sd self fuel c b = Ok (r, b1) ∧ exec_disk c d = Ok (r, d1) ∧ card_off (Idle e1 d1) b1 ∧ (e1 ≤ max_failures)%nat ∧ disk_wf d1 ∧ d_size d1 = d_size d.
Proof.
  intros Hd Hb He Hf Hc. destruct c as [id buf|id buf]; cbn [exec_sd exec_disk sd_cmd_ok] in *.
  - assert (wrap32 id = id) as Hid by (apply wrap32_small; unfold is_u32, buffer_ok in *; lia).
    assert (wp (sd_read_block self fuel id buf) (fun r b' => read_block d id (sectors buf) = Ok r ∧ ∃ e', (e' ≤ max_failures)%nat ∧ card_off (Idle e' d) b') b) as Hwp.
    { unfold sd_read_block. wp_step. rewrite Hid. eapply wp_mono; [by apply (wp_read_sector self e d id buf b)|]. intros [ok data] b1 Hdone.
      apply (wp_read_retry self fuel e d id buf); try done; unfold max_failures in *; lia. }
    destruct (wp_elim _ _ _ Hwp) as (r & b1 & E & Hr & e1 & He1 & Hb1). exists r, b1, e1, d. unfold outcome_bind, mbind. rewrite E, Hr. by split_and!.
  - destruct Hc as [Hc H1]. assert (wrap32 id = id) as Hid by (apply wrap32_small; unfold is_u32, buffer_ok in *; lia).
    assert (wp (sd_write_block self fuel id buf) (fun _ b' => ∃ d' e', write_block d id buf = Ok d' ∧ (e' ≤ max_failures)%nat ∧ card_off (Idle e' d') b') b) as Hwp.
    { unfold sd_write_block. wp_step. rewrite Hid. eapply wp_mono; [apply (wp_write_sector self fuel e d id buf b); try done; lia|]. intros ok b1 Hdone.
      apply (wp_write_retry self fuel e d id buf); try done; unfold max_failures in *; lia. }
    destruct (wp_elim _ _ _ Hwp) as ([] & b1 & E & d1 & e1 & Hr & He1 & Hb1). exists [], b1, e1, d1. unfold mbind, st_bind, outcome_bind. rewrite E, Hr. split_and!; try done;
      destruct Hc as (_ & Hl & ? & ? & _); (rewrite write_one in Hr by lia); injection Hr as <-; apply sector_write_kept; done || lia.
Qed.

(** C7: the driver is the block device that the caches use, for reads of any number
    of sectors and writes of one sector, on a card that follows the protocol of SD
    cards in serial mode and fails (refuses a command, sends an error token, rejects
    a block or does not answer) at most four times in a row.  Every sequence of such
    reads and writes returns, with the data that the device of [BlockCache.v]
    returns on the disk of the card, and leaves the card idle with the disk that the
    device leaves.  Writes of several sectors and more failures, after which the
    driver pauses and sets the card up again, are not covered. *)
Theorem sd_card_refines_disk {B : Type} `{!SpiBus B} (self : SDCard) `{!SdProtocol B self} (fuel : nat) (cs : list sd_cmd) (e : nat) (d : Disk) (b : B) :
  disk_wf d → card_off (Idle e d) b → (e ≤ max_failures)%nat → (busy_bound + max_failures < fuel)%nat → Forall (sd_cmd_ok d) cs →
  ∃ outs b' e' d', exec_sd_all self fuel cs b = Ok (outs, b') ∧ exec_disk_all cs d = Ok (outs, d') ∧ card_off (Idle e' d') b'.
Proof.
  intros Hd Hb He Hf. revert e d b Hd Hb He. induction cs as [|c cs IH]; intros e d b Hd Hb He Hcs; [by exists [], b, e, d|]. inversion Hcs as [|? ? Hc Hcs']; subst.
  destruct (exec_sd_refines self fuel c e d b Hd Hb He Hf Hc) as (r & b1 & e1 & d1 & E1 & E2 & Hb1 & He1 & Hd1 & Hs1).
  destruct (IH e1 d1 b1 Hd1 Hb1 He1) as (outs & b2 & e2 & d2 & E3 & E4 & Hb2).
  { eapply Forall_impl; [exact Hcs'|]. intros [id buf|id buf]; unfold sd_cmd_ok, buffer_ok; by rewrite Hs1. }
  exists (r :: outs), b2, e2, d2. cbn [exec_sd_all exec_disk_all]. unfold mbind, st_bind. rewrite E1, E2, E3, E4. done.
Qed.

(** ** A card *)

(** It pauses for one byte before each answer and is busy for one byte.  It fails
    twice before each success. *)
Record Card : Type := mkCard { cd_selected : bool; cd_out : list Z; cd_phase : phase; cd_got : list (list Z) }.

Definition pause : nat * list Z := (1%nat, [0; 0]).

(** The error token "out of range" in place of a block. *)
Definition bad_token : list Z := ones 1 ++ [8].

Definition card_command (p : phase) (cmd arg : Z) : option (list Z * phase) :=
  match p with
  | Idle e d =>
      if cmd =? 17 then
        match e with
        | O => Some (ones 1 ++ [0] ++ stream d arg [pause], Idle 2 d)
        | S e => Some (ones 1 ++ [0] ++ bad_token, Idle e d)
        end
      else if cmd =? 18 then
        match e with
        | O => Some (ones 1 ++ [0] ++ stream d arg (replicate (Z.to_nat (d_size d - arg)) pause), Streaming 2 d)
        | S e => Some (ones 1 ++ [0] ++ stream d arg (replicate (Z.to_nat (d_size d - arg - 1)) pause) ++ bad_token, Streaming e d)
        end
      else if cmd =? 24 then
        match e with
        | S (S e) => Some (ones 1 ++ [4], Idle (S e) d)
        | e => Some (ones 1 ++ [0], Writing e d arg)
        end
      else None
  | Streaming e d => if cmd =? 12 then Some (ones 1 ++ [0], Idle e d) else None
  | Writing _ _ _ => None
  end.

Definition card_take (bytes : list Z) (c : Card) : Card :=
  if cd_selected c then
    match cd_phase c with
    | Writing e d s =>
        match cd_got c with
        | [_; data] =>
            match e with
            | O => mkCard true [5; 0; 0xFF] (Idle 2 (sector_write d s data)) []
            | S e => mkCard true [0x0B] (Idle e d) []
            end
        | got => mkCard true (cd_out c) (cd_phase c) (got ++ [bytes])
        end
    | p =>
        match bytes with
        | [c0; a3; a2; a1; a0; _] =>
            match card_command p (c0 - 64) (((a3 * 256 + a2) * 256 + a1) * 256 + a0) with
            | Some (out, p') => mkCard true out p' []
            | None => c
            end
        | _ => c
        end
    end
  else c.

#[global] Instance card_bus : SpiBus Card := {
  spi_configure _ := mret tt;
  spi_set_clk_rate _ := mret tt;
  spi_send_data _ bytes := modify (card_take bytes);
  spi_recv_data _ n := c ← get_st; put_st (mkCard (cd_selected c) (drop n (cd_out c)) (cd_phase c) (cd_got c));; mret (take n (cd_out c));
  gpiohs_set_pin _ high := modify (fun c =>
    if high : bool then mkCard false [] (cd_phase c) [] else mkCard true (cd_out c) (cd_phase c) (cd_got c));
  gpiohs_set_output _ := mret tt;
  read_time := mret 0;
}.

Lemma bad_token_refusal : refusal 0xFE bad_token.
Proof. left. by exists 1%nat, 8. Qed.

Lemma answer_command p cmd arg : command_ok p cmd arg → 0 ≤ arg < 2 ^ 32 → ∃ out p', card_command p cmd arg = Some (out, p') ∧ answer p cmd arg out p'.
Proof.
  assert (gap_ok pause) as Hg by (split; [done|done]). pose proof bad_token_refusal as Hbad. intros Hc Ha.
  destruct p as [e d|e d|]; cbn [command_ok card_command] in *; [| |done].
  - destruct Hc as [[->|[->| ->] ] Hr]; cbn [Z.eqb Pos.eqb].
    + destruct e as [|e]; eexists _, _; (split; [reflexivity|]); [apply ans_read; unfold max_failures; done || lia|apply ans_read_error; done || lia].
    + destruct e as [|e]; eexists _, _; (split; [reflexivity|]).
      * apply ans_read_many; [done|done|by apply Forall_replicate|rewrite length_replicate; lia|unfold max_failures; lia].
      * apply ans_many_error; [done|by apply Forall_replicate|rewrite length_replicate; lia|done|lia].
    + destruct e as [|[|e] ]; eexists _, _; (split; [reflexivity|]); [by apply ans_write..|]. apply ans_refused; [tauto|left; by exists 1%nat, 4|lia].
  - subst. eexists _, _. split; [reflexivity|]. by apply (ans_stop e d arg 1 0 []).
Qed.

Lemma frame_arg arg : 0 ≤ arg < 2 ^ 32 → ((arg / 2 ^ 24 mod 256 * 256 + arg / 2 ^ 16 mod 256) * 256 + arg / 2 ^ 8 mod 256) * 256 + arg mod 256 = arg.
Proof.
  intros H. change (2 ^ 24) with 16777216. change (2 ^ 16) with 65536. change (2 ^ 8) with 256. change (2 ^ 32) with 4294967296 in H.
  rewrite (Z.mod_small (arg / 16777216)) by (split; [apply Z.div_pos; lia|apply Z.div_lt_upper_bound; lia]).
  change 16777216 with (256 * 256 * 256). change 65536 with (256 * 256). rewrite <-!Z.div_div by lia.
  pose proof (Z.div_mod (arg / 256 / 256) 256). pose proof (Z.div_mod (arg / 256) 256). pose proof (Z.div_mod arg 256). lia.
Qed.

#[global] Program Instance card_protocol (self : SDCard) : SdProtocol Card self := {
  card_off p c := cd_selected c = false ∧ cd_phase c = p ∧ cd_got c = [] ∧ may_deselect p;
  card_on out p c := cd_selected c = true ∧ cd_phase c = p ∧ cd_out c = out ∧ cd_got c = [];
  busy_bound := 1;
}.
Next Obligation.
  intros self out p b n (Hs & Hp & Ho & Hg) Hn. unfold read_data. repeat wp_step. subst. done.
Qed.
Next Obligation.
  intros self p cmd arg crc [sel out ph got] (Hs & Hp & Hg & _) Hc Ha. cbn in Hs, Hp, Hg. subst. unfold CS_LOW, write_data. repeat wp_step.
  destruct (answer_command p cmd arg Hc Ha) as (out' & p' & E & Hans). exists out', p'. split; [done|]. unfold card_take, frame_of. cbn [cd_selected cd_phase cd_got].
  rewrite frame_arg by done. replace (64 + cmd - 64) with cmd by lia. destruct p as [e d|e d|]; [by rewrite E..|by destruct Hc].
Qed.
Next Obligation.
  intros self e d s data c1 c2 [sel out ph got] (Hs & Hp & Ho & Hg) Hl. cbn in Hs, Hp, Ho, Hg. subst. unfold write_data. repeat wp_step. cbn.
  destruct e as [|e]; eexists _, _; (split; [|by split_and!]).
  - apply (block_accepted _ _ _ _ _ 2 5 1 0xFF); unfold max_failures; done || lia.
  - apply block_rejected; [done|lia].
Qed.
Next Obligation.
  intros self out p [sel out' ph got] (Hs & Hp & Ho & Hg) Hd. cbn in Hs, Hp, Ho, Hg. subst. unfold CS_HIGH, write_data. repeat wp_step. done.
Qed.
Next Obligation.
  intros self p [sel out ph got] (Hs & Hp & Hg & Hd). cbn in Hs, Hp, Hg. subst. unfold CS_HIGH, write_data. repeat wp_step. done.
Qed.

Definition card_sample : Card := mkCard false [] (Idle 2 (mkDisk 4 (fun i => replicate 512 i))) [].

Definition pins_sample : SDCard := mkSDCard 3 7.

(** Two sectors are written, three are read and one is read. *)
Definition cmds_sample : list sd_cmd :=
  [SdWrite 1 (replicate 512 9); SdRead 0 (replicate 1536 0); SdWrite 3 (replicate 512 7); SdRead 3 (replicate 512 0)].

Lemma sd_card_refines_disk_witness :
  ∃ b', exec_sd_all pins_sample 6 cmds_sample card_sample
        = Ok ([[]; replicate 512 0 ++ replicate 512 9 ++ replicate 512 2; []; replicate 512 7], b').
Proof.
  destruct (sd_card_refines_disk pins_sample 6 cmds_sample 2 (mkDisk 4 (fun i => replicate 512 i)) card_sample) as (outs & b' & e' & d' & E & Ed & _).
  - split; [done|]. intros i _. apply length_replicate.
  - by split_and!.
  - unfold max_failures. lia.
  - unfold max_failures. cbn. lia.
  - repeat (apply Forall_cons; split); try apply Forall_nil; try done; unfold sd_cmd_ok, buffer_ok; split_and!; vm_compute; try done; lia.
  - exists b'. rewrite E. f_equal. f_equal.
    assert (fst <$> (match exec_disk_all cmds_sample (mkDisk 4 (fun i => replicate 512 i)) with Ok r => Some r | _ => None end)
            = Some [[]; replicate 512 0 ++ replicate 512 9 ++ replicate 512 2; []; replicate 512 7]) as X by (vm_compute; reflexivity).
    rewrite Ed in X. by injection X.
Defined.
