(* ===== verification/Fat.v ===== *)
(** * The file allocation table

    [kernel/src/fs/fat32/bitmap.rs] and the block arithmetic of
    [kernel/src/fs/fat32/efs.rs].  The table is read and written through the
    block cache; [vacant_clus] holds clusters freed recently and [hint] is
    where the search for a free cluster starts. *)

From S2P Require Import Prelude Config BlockCache.

Definition VACANT_CLUS_CACHE_SIZE : Z := 64.
Definition FAT_ENTRY_FREE : Z := 0.
Definition FAT_ENTRY_RESERVED_TO_END : Z := 0x0FFFFFF8.
Definition EOC : Z := 0x0FFFFFFF.
Definition BAD_BLOCK : Z := 0x0FFFFFF7.

(** The fields of [Fat] that never change, and the state behind its locks. *)
Record Fat : Type := mkFat { start_block_id : Z; byts_per_sec : Z; tot_ent : Z }.

Record FatSt : Type := mkFatSt { fat_bc : BcState; vacant_clus : list Z; hint : Z }.

(** [Fat::new] *)
Definition Fat_new (rsvd_sec_cnt byts_per_sec clus : Z) (fat_cache_mgr : BcState) : Fat * FatSt :=
  (mkFat rsvd_sec_cnt byts_per_sec clus, mkFatSt fat_cache_mgr [] 0).

Definition with_cache {A} (m : ST BcState A) : ST FatSt A := fun s =>
  '(a, bc) ← m (fat_bc s);
  Ok (a, mkFatSt bc (vacant_clus s) (hint s)).

Definition put_vacant (v : list Z) : ST FatSt unit :=
  modify (fun s => mkFatSt (fat_bc s) v (hint s)).

Definition put_hint (h : Z) : ST FatSt unit :=
  modify (fun s => mkFatSt (fat_bc s) (vacant_clus s) h).

Section Fat.
Context (fat : Fat).

Definition this_fat_sec_num (clus_num : Z) : ST FatSt Z :=
  rust_assert (negb (wrap32 (byts_per_sec fat) =? 0));;
  let fat_offset := wrap32 (clus_num * 4) in
  mret (wrap32 (wrap32 (start_block_id fat) + fat_offset / wrap32 (byts_per_sec fat))).

Definition this_fat_ent_offset (clus_num : Z) : ST FatSt Z :=
  rust_assert (negb (wrap32 (byts_per_sec fat) =? 0));;
  let fat_offset := wrap32 (clus_num * 4) in
  mret (fat_offset mod wrap32 (byts_per_sec fat)).

Definition get_next_clus_num (current_clus_num : Z) : ST FatSt Z :=
  sec ← this_fat_sec_num current_clus_num;
  off ← this_fat_ent_offset current_clus_num;
  fat_entry ← with_cache (cache_read32 sec off);
  mret (Z.land fat_entry EOC).

(** The loop of [get_all_clus_num]; [v] is the vector built so far. *)
Fixpoint get_all_clus_num_loop (fuel : nat) (v : list Z) (current_clus_num : Z) : ST FatSt (list Z) :=
  match fuel with
  | O => out_of_fuel
  | S fuel =>
      let v := vec_push v current_clus_num in
      current_clus_num ← get_next_clus_num current_clus_num;
      if (current_clus_num =? BAD_BLOCK) || (current_clus_num =? FAT_ENTRY_FREE)
         || (FAT_ENTRY_RESERVED_TO_END <=? current_clus_num)
      then mret v
      else get_all_clus_num_loop fuel v current_clus_num
  end.

Definition get_all_clus_num (fuel : nat) (current_clus_num : Z) : ST FatSt (list Z) :=
  get_all_clus_num_loop fuel [] current_clus_num.

Definition set_next_clus (current : option Z) (next : Z) : ST FatSt unit :=
  match current with
  | None => mret tt
  | Some current =>
      sec ← this_fat_sec_num current;
      off ← this_fat_ent_offset current;
      with_cache (cache_write32 sec off next)
  end.

(** One round of the loops of [get_next_free_clus]. *)
Definition free_or_next (clus_id : Z) : ST FatSt (option Z) :=
  v ← get_next_clus_num clus_id;
  mret (if FAT_ENTRY_FREE =? v then Some clus_id else None).

Definition get_next_free_clus (start : Z) : ST FatSt (option Z) :=
  r ← st_for_ret free_or_next (seqZ start (wrap32 (tot_ent fat) - start));
  match r with
  | Some clus_id => mret (Some clus_id)
  | None => st_for_ret free_or_next (seqZ 0 start)
  end.

Definition alloc_one (last : option Z) : ST FatSt (option Z) :=
  match last with
  | Some l => get_next_clus_num l;; mret tt
  | None => mret tt
  end;;
  vacant ← gets vacant_clus;
  match vec_pop vacant with
  | Some (free_clus_id, vacant) =>
      put_vacant vacant;;
      set_next_clus last free_clus_id;;
      mret (Some free_clus_id)
  | None =>
      start ← gets hint;
      r ← get_next_free_clus (wrap32 start);
      match r with
      | None => mret None
      | Some free_clus_id =>
          rust_assert (negb (tot_ent fat =? 0));;
          put_hint (wrap32 (free_clus_id + 1) mod tot_ent fat);;
          set_next_clus last free_clus_id;;
          mret (Some free_clus_id)
      end
  end.

(** The loop of [alloc], with the local variables [last] and
    [allocated_cluster]. *)
Fixpoint alloc_loop (alloc_num : nat) (last : option Z) (allocated_cluster : list Z) :
    ST FatSt (option Z * list Z) :=
  match alloc_num with
  | O => mret (last, allocated_cluster)
  | S alloc_num =>
      last ← alloc_one last;
      match last with
      | None => mret (None, allocated_cluster)
      | Some c => alloc_loop alloc_num (Some c) (vec_push allocated_cluster c)
      end
  end.

Definition alloc (alloc_num : Z) (last : option Z) : ST FatSt (list Z) :=
  '(last, allocated_cluster) ← alloc_loop (Z.to_nat alloc_num) last [];
  set_next_clus last EOC;;
  mret allocated_cluster.

Definition free_one (_ : unit) (cluster_id : Z) : ST FatSt unit :=
  set_next_clus (Some cluster_id) FAT_ENTRY_FREE;;
  vacant ← gets vacant_clus;
  if Z.of_nat (length vacant) <? VACANT_CLUS_CACHE_SIZE then put_vacant (vec_push vacant cluster_id)
  else mret tt.

Definition free (cluster_list : list Z) (last : option Z) : ST FatSt unit :=
  st_fold free_one tt cluster_list;;
  set_next_clus last EOC.
End Fat.

(** ** [EasyFileSystem] *)

Record EasyFileSystem : Type := mkEasyFileSystem {
  efs_fat : Fat;
  data_area_start_block : Z;
  root_clus : Z;
  sec_per_clus : Z;
  efs_byts_per_sec : Z
}.

Definition clus_size (efs : EasyFileSystem) : Z := wrap32 (efs_byts_per_sec efs * sec_per_clus efs).

Definition first_sector_of_cluster (efs : EasyFileSystem) (clus_num : Z) : Z :=
  let offset_blocks := wrap32 (wrap32 (clus_num - 2) * sec_per_clus efs) in
  wrap32 (data_area_start_block efs + offset_blocks).

Definition alloc_blocks (efs : EasyFileSystem) (blocks : Z) : ST FatSt (list Z) :=
  rust_assert (negb (sec_per_clus efs =? 0));;
  let alloc_num := blocks / sec_per_clus efs + (if blocks mod sec_per_clus efs =? 0 then 0 else 1) in
  clus ← alloc (efs_fat efs) alloc_num None;
  mret (clus ≫= fun clus_id =>
    (fun offset => first_sector_of_cluster efs clus_id ⊞ offset) <$> seqZ 0 (sec_per_clus efs)).

(** ** The table as a function from clusters to entries *)

Section Spec.
Context (fat : Fat) (N : Z) (D : Disk).

(** The first sector behind the table. *)
Definition fat_end : Z := start_block_id fat + (N + 127) / 128.

(** [N] entries fit in the table's sectors; a cluster number below [N] is
    never one of the reserved values.  The block cache holds sectors up to the
    end of the table only, and the sectors behind it are those of [D]. *)
Record fat_wf (s : FatSt) : Prop := {
  fw_bc : bc_wf (fat_bc s);
  fw_bps : byts_per_sec fat = 512;
  fw_start : 0 ≤ start_block_id fat;
  fw_sectors : start_block_id fat * 128 + N ≤ d_size (bc_disk (fat_bc s)) * 128;
  fw_size : d_size (bc_disk (fat_bc s)) < 2 ^ 32;
  fw_N : N ≤ BAD_BLOCK;
  fw_tot : 0 < tot_ent fat ≤ N;
  fw_region b : b ∈ cache_pool (fat_bc s) → block_id b = usize_MAX ∨ 0 ≤ block_id b < fat_end;
  fw_dsize : d_size (bc_disk (fat_bc s)) = d_size D;
  fw_data j : fat_end ≤ j < usize_MAX → d_data (bc_disk (fat_bc s)) j = d_data D j;
}.

Definition fat_get (s : FatSt) (c : Z) : Z :=
  match buf_get32 (bview (fat_bc s) (start_block_id fat + c / 128)) (4 * (c mod 128)) with
  | Ok v => v
  | _ => 0
  end.

Definition fat_next (f : Z → Z) (c : Z) : Z := Z.land (f c) EOC.

Definition is_clus (c : Z) : Prop := 0 ≤ c < N.

(** Two states with the same table. *)
Definition fat_same (s s' : FatSt) : Prop :=
  fat_wf s' ∧ vacant_clus s' = vacant_clus s ∧ hint s' = hint s ∧
  ∀ c, is_clus c → fat_get s' c = fat_get s c.

Definition fat_set (f : Z → Z) (c v : Z) : Z → Z := fun x => if x =? c then v else f x.

Lemma wp_with_cache {A} (m : ST BcState A) Q s :
  wp m (fun a bc => Q a (mkFatSt bc (vacant_clus s) (hint s))) (fat_bc s) → wp (with_cache m) Q s.
Proof. unfold wp, with_cache, mbind, outcome_bind. by destruct (m (fat_bc s)) as [[a bc]| |]. Qed.

Lemma clus_sector s c :
  fat_wf s → is_clus c →
  0 ≤ start_block_id fat + c / 128 < d_size (bc_disk (fat_bc s)) ∧ 0 ≤ 4 * (c mod 128) ≤ 508.
Proof.
  intros Hwf Hc. unfold is_clus in Hc. pose proof (fw_start s Hwf). pose proof (fw_sectors s Hwf).
  pose proof (Z.div_mod c 128). pose proof (Z.mod_pos_bound c 128). lia.
Qed.

Lemma wp_fat_sec_num s c Q :
  fat_wf s → is_clus c → Q (start_block_id fat + c / 128) s → wp (this_fat_sec_num fat c) Q s.
Proof.
  intros Hwf Hc HQ. destruct (clus_sector s c Hwf Hc) as [Hs _]. pose proof (fw_size s Hwf).
  pose proof (fw_start s Hwf). pose proof (fw_N s Hwf) as HN. unfold is_clus, BAD_BLOCK in *.
  pose proof (Z.div_pos c 128).
  unfold this_fat_sec_num. rewrite (fw_bps s Hwf). repeat wp_step; [done|].
  rewrite !(wrap32_small (c * 4)), (wrap32_small (start_block_id fat)) by (unfold is_u32; lia).
  change (wrap32 512) with (128 * 4). rewrite Z.div_mul_cancel_r by lia. by rewrite wrap32_small by (unfold is_u32; lia).
Qed.

Lemma wp_fat_ent_offset s c Q :
  fat_wf s → is_clus c → Q (4 * (c mod 128)) s → wp (this_fat_ent_offset fat c) Q s.
Proof.
  intros Hwf Hc HQ. pose proof (fw_N s Hwf) as HN. unfold is_clus, BAD_BLOCK in *.
  unfold this_fat_ent_offset. rewrite (fw_bps s Hwf). repeat wp_step; [done|].
  rewrite !(wrap32_small (c * 4)) by (unfold is_u32; lia).
  change (wrap32 512) with (128 * 4). rewrite Z.mul_mod_distr_r by lia. by rewrite Z.mul_comm.
Qed.

Lemma fat_get_Ok s c : fat_wf s → is_clus c →
  buf_get32 (bview (fat_bc s) (start_block_id fat + c / 128)) (4 * (c mod 128)) = Ok (fat_get s c).
Proof.
  intros Hwf Hc. destruct (clus_sector s c Hwf Hc) as [Hs Ho]. unfold fat_get.
  destruct (buf_get32_Ok (bview (fat_bc s) (start_block_id fat + c / 128)) (4 * (c mod 128))) as [v ->]; [lia| |done].
  rewrite bview_length by (apply Hwf || done). lia.
Qed.

Lemma clus_before_end c : is_clus c → start_block_id fat + c / 128 < fat_end.
Proof.
  unfold fat_end, is_clus. intros Hc. pose proof (Z.div_le_mono c (N + 127 + -1 * 128) 128 ltac:(lia) ltac:(lia)) as H.
  rewrite Z.div_add in H by lia. lia.
Qed.

Lemma fat_end_pos s : fat_wf s → 0 ≤ fat_end.
Proof.
  intros Hwf. unfold fat_end. pose proof (fw_start s Hwf). pose proof (fw_tot s Hwf).
  pose proof (Z.div_pos (N + 127) 128). lia.
Qed.

Lemma fat_wf_put s v h : fat_wf s → fat_wf (mkFatSt (fat_bc s) v h).
Proof. by intros []. Qed.

(** Sectors behind the table are not cached. *)
Lemma bview_data bc j :
  (∀ b, b ∈ cache_pool bc → block_id b = usize_MAX ∨ 0 ≤ block_id b < fat_end) → fat_end ≤ j < usize_MAX →
  bview bc j = d_data (bc_disk bc) j.
Proof. intros Hr Hj. apply bview_uncached. intros b Hb. destruct (Hr b Hb); lia. Qed.

(** A step of the block cache that uses a sector of the table. *)
Lemma fat_wf_bc s bc v h c :
  fat_wf s → is_clus c → bc_wf bc → d_size (bc_disk bc) = d_size (bc_disk (fat_bc s)) →
  ids_grow (fat_bc s) (start_block_id fat + c / 128) bc →
  (∀ j, fat_end ≤ j < usize_MAX → bview bc j = bview (fat_bc s) j) → fat_wf (mkFatSt bc v h).
Proof.
  intros Hwf Hc Hbc Hsz Hids Hv. destruct (clus_sector s c Hwf Hc) as [Hsec _]. pose proof Hwf as [].
  assert (∀ b, b ∈ cache_pool bc → block_id b = usize_MAX ∨ 0 ≤ block_id b < fat_end) as Hr.
  { intros b [?|[->|(b' & -> & Hb')%list_elem_of_fmap]]%Hids; [by left| |by apply fw_region0].
    right. pose proof (clus_before_end c Hc). lia. }
  split; cbn [fat_bc]; try done; [lia|lia|congruence|].
  intros j Hj. rewrite <-(bview_data bc), Hv, bview_data by done. by apply fw_data0.
Qed.

(** Reading an entry. *)
Lemma wp_get_next s c :
  fat_wf s → is_clus c →
  wp (get_next_clus_num fat c) (fun r s' => r = fat_next (fat_get s) c ∧ fat_same s s') s.
Proof.
  intros Hwf Hc. destruct (clus_sector s c Hwf Hc) as [Hs Ho]. unfold get_next_clus_num. wp_step. apply wp_fat_sec_num; [done|done|].
  wp_step. apply wp_fat_ent_offset; [done|done|]. wp_step. apply wp_with_cache.
  eapply wp_mono; [apply cache_read32_spec; [apply Hwf|done|by apply fat_get_Ok]|].
  simpl. intros r bc (-> & Hbc & Hsz & Hv & Hids). wp_step. split; [done|].
  split; [eapply fat_wf_bc; try done; intros j Hj; apply Hv; pose proof (fat_end_pos s Hwf); lia|].
  split; [done|]. split; [done|]. intros x Hx. unfold fat_get. cbn [fat_bc].
  pose proof (fw_size s Hwf). destruct (clus_sector s x Hwf Hx). rewrite Hv by (unfold usize_MAX; lia). done.
Qed.

(** Writing an entry. *)
Lemma wp_set_next s c v :
  fat_wf s → is_clus c → is_u32 v →
  wp (set_next_clus fat (Some c) v) (fun _ s' => fat_wf s' ∧ vacant_clus s' = vacant_clus s ∧ hint s' = hint s ∧
    ∀ x, is_clus x → fat_get s' x = fat_set (fat_get s) c v x) s.
Proof.
  intros Hwf Hc Hv32. destruct (clus_sector s c Hwf Hc) as [Hs Ho]. unfold set_next_clus. wp_step.
  apply wp_fat_sec_num; [done|done|].
  wp_step. apply wp_fat_ent_offset; [done|done|]. apply wp_with_cache.
  pose proof (bview_length (fat_bc s) _ (fw_bc s Hwf) Hs) as Hlen.
  destruct (buf_set32_spec (bview (fat_bc s) (start_block_id fat + c / 128)) (4 * (c mod 128)) v)
    as (buf' & Hset & Hl & Hget & Hoth); [lia|lia|].
  eapply wp_mono; [apply cache_write32_spec; [apply Hwf|done|done|lia]|].
  simpl. intros _ bc (Hbc & Hsz & Hv & Hids). split.
  { eapply fat_wf_bc; try done. intros j Hj. pose proof (clus_before_end c Hc). rewrite Hv, (proj2 (Z.eqb_neq _ _)); [done|lia|].
    pose proof (fat_end_pos s Hwf). lia. }
  split; [done|]. split; [done|].
  intros x Hx. unfold fat_set. pose proof (fw_size s Hwf). destruct (clus_sector s x Hwf Hx) as [Hsx Hox].
  unfold fat_get at 1. cbn [fat_bc]. rewrite Hv by (unfold usize_MAX; lia).
  destruct (Z.eqb_spec x c) as [-> |Hne]; [by rewrite Z.eqb_refl, (Hget Hv32)|].
  destruct (Z.eqb_spec (start_block_id fat + x / 128) (start_block_id fat + c / 128)) as [Hsec|]; [|done].
  pose proof (Z.div_mod x 128). pose proof (Z.div_mod c 128).
  rewrite Hoth by lia. unfold fat_get. by rewrite Hsec.
Qed.

Lemma fat_same_trans s1 s2 s3 : fat_same s1 s2 → fat_same s2 s3 → fat_same s1 s3.
Proof.
  intros (_ & Hv & Hh & Hg) (Hwf & Hv' & Hh' & Hg'). split; [done|]. split; [congruence|]. split; [congruence|].
  intros c Hc. by rewrite Hg', Hg.
Qed.

Lemma fat_same_refl s : fat_wf s → fat_same s s.
Proof. done. Qed.

(** *** Searching for a free entry *)

Definition is_free (f : Z → Z) (c : Z) : Prop := fat_next f c = FAT_ENTRY_FREE.

#[global] Instance is_free_dec f c : Decision (is_free f c).
Proof. unfold is_free. apply _. Defined.

Lemma filter_free_iff f g (l : list Z) :
  (∀ c, c ∈ l → is_free f c ↔ is_free g c) → filter (is_free f) l = filter (is_free g) l.
Proof.
  induction l as [|c l IH]; intros Hfg; [done|]. rewrite !filter_cons, IH by set_solver.
  pose proof (Hfg c ltac:(set_solver)). destruct (decide (is_free f c)), (decide (is_free g c)); tauto.
Qed.

Lemma filter_free_ext f g (l : list Z) :
  (∀ c, c ∈ l → f c = g c) → filter (is_free f) l = filter (is_free g) l.
Proof. intros Hfg. apply filter_free_iff. intros c Hc. unfold is_free, fat_next. by rewrite Hfg. Qed.

(** What follows the first free cluster of a range. *)
Lemma filter_seqZ_cons f a n c F :
  filter (is_free f) (seqZ a n) = c :: F →
  a ≤ c < a + n ∧ is_free f c ∧ filter (is_free f) (seqZ (c + 1) (a + n - (c + 1))) = F.
Proof.
  destruct (decide (0 ≤ n)) as [Hn|Hn]; [|rewrite seqZ_nil by lia; done].
  revert a. pattern n. apply natlike_ind; [by intros a; rewrite seqZ_nil by lia| |done].
  clear n Hn. intros n Hn IH a. rewrite seqZ_cons by lia. rewrite Z.pred_succ, filter_cons.
  destruct (decide (is_free f a)) as [Hf|Hf].
  - intros [= -> <-]. split; [lia|]. split; [done|]. do 2 f_equal; lia.
  - intros Heq. destruct (IH _ Heq) as (H1 & H2 & H3). split; [lia|]. split; [done|].
    rewrite <-H3. do 2 f_equal; lia.
Qed.

Lemma wp_free_or_next s c :
  fat_wf s → is_clus c →
  wp (free_or_next fat c)
     (fun r s' => r = (if decide (is_free (fat_get s) c) then Some c else None) ∧ fat_same s s') s.
Proof.
  intros Hwf Hc. unfold free_or_next. wp_step. eapply wp_mono; [by apply wp_get_next|].
  intros r s1 [-> Hs1]. wp_step. split; [|done].
  destruct (decide (is_free (fat_get s) c)) as [H|H]; unfold is_free in H;
    destruct (Z.eqb_spec FAT_ENTRY_FREE (fat_next (fat_get s) c)); congruence.
Qed.

Lemma wp_scan s l :
  fat_wf s → (∀ c, c ∈ l → is_clus c) →
  wp (st_for_ret (free_or_next fat) l)
     (fun r s' => r = head (filter (is_free (fat_get s)) l) ∧ fat_same s s') s.
Proof.
  revert s. induction l as [|c l IH]; intros s Hwf Hl; cbn [st_for_ret].
  { wp_step. split; [done|by apply fat_same_refl]. }
  wp_step. eapply wp_mono; [apply wp_free_or_next; [done|set_solver]|]. simpl. intros r s1 [-> Hs1].
  rewrite filter_cons. destruct (decide (is_free (fat_get s) c)) as [He|Hne].
  - by wp_step.
  - eapply wp_mono; [apply IH; [apply Hs1|set_solver]|].
    simpl. intros r s2 [-> Hs2]. split; [|by eapply fat_same_trans].
    f_equal. apply filter_free_ext. intros x Hx. apply Hs1. set_solver.
Qed.

Lemma wp_get_next_free_clus s start :
  fat_wf s → 0 ≤ start ≤ tot_ent fat →
  wp (get_next_free_clus fat start)
     (fun r s' => r = head (filter (is_free (fat_get s)) (seqZ start (tot_ent fat - start) ++ seqZ 0 start)) ∧
                  fat_same s s') s.
Proof.
  intros Hwf Hst. pose proof (fw_tot s Hwf). pose proof (fw_N s Hwf) as HN. unfold BAD_BLOCK in HN.
  unfold get_next_free_clus. rewrite wrap32_small by (unfold is_u32; lia). wp_step.
  eapply wp_mono; [apply wp_scan; [done|]|].
  { intros c Hc%elem_of_seqZ. unfold is_clus. lia. }
  simpl. intros r s1 [-> Hs1]. rewrite filter_app. destruct (filter _ (seqZ start _)) as [|c F] eqn:E; simpl; [|by wp_step].
  eapply wp_mono; [apply wp_scan; [apply Hs1|]|].
  { intros c Hc%elem_of_seqZ. unfold is_clus. lia. }
  simpl. intros r s2 [-> Hs2]. split; [|by eapply fat_same_trans].
  f_equal. apply filter_free_ext. intros x Hx%elem_of_seqZ. apply Hs1. unfold is_clus. lia.
Qed.

(** *** Chains *)

Definition fat_terminal (v : Z) : Prop :=
  v = BAD_BLOCK ∨ v = FAT_ENTRY_FREE ∨ FAT_ENTRY_RESERVED_TO_END ≤ v.

(** [cs] are the clusters that follow [c]. *)
Fixpoint fat_chain (f : Z → Z) (c : Z) (cs : list Z) : Prop :=
  match cs with
  | [] => fat_terminal (fat_next f c)
  | d :: cs => fat_next f c = d ∧ fat_chain f d cs
  end.

Definition fat_set_opt (f : Z → Z) (o : option Z) (v : Z) : Z → Z :=
  match o with Some c => fat_set f c v | None => f end.

(** The table after the clusters [cs] have been linked behind [last]. *)
Fixpoint fat_link (f : Z → Z) (last : option Z) (cs : list Z) : Z → Z :=
  match cs with
  | [] => fat_set_opt f last EOC
  | c :: cs => fat_link (fat_set_opt f last c) (Some c) cs
  end.

Lemma fat_link_ext f g last cs :
  (∀ x, is_clus x → f x = g x) → ∀ x, is_clus x → fat_link f last cs x = fat_link g last cs x.
Proof.
  revert f g last. induction cs as [|c cs IH]; intros f g last Hfg x Hx; cbn [fat_link].
  - destruct last as [l|]; simpl; [|by apply Hfg]. unfold fat_set. by destruct (x =? l); [|apply Hfg].
  - apply IH; [|done]. intros y Hy. destruct last as [l|]; simpl; [|by apply Hfg].
    unfold fat_set. by destruct (y =? l); [|apply Hfg].
Qed.

Lemma fat_link_other f last cs x : last ≠ Some x → x ∉ cs → fat_link f last cs x = f x.
Proof.
  revert f last. induction cs as [|c cs IH]; intros f last Hl Hx; cbn [fat_link].
  - destruct last as [l|]; [|done]. simpl. unfold fat_set. rewrite (proj2 (Z.eqb_neq _ _)); congruence.
  - apply not_elem_of_cons in Hx as [Hne Hx]. rewrite IH by congruence.
    destruct last as [l|]; [|done]. simpl. unfold fat_set. rewrite (proj2 (Z.eqb_neq _ _)); congruence.
Qed.

Lemma clus_land c : 0 ≤ c ≤ BAD_BLOCK → Z.land c EOC = c.
Proof. intros Hc. unfold BAD_BLOCK in Hc. change EOC with (Z.ones 28). apply land_ones_small; lia. Qed.

Lemma fat_link_chain f l cs :
  N ≤ BAD_BLOCK → NoDup (l :: cs) → Forall is_clus cs → fat_chain (fat_link f (Some l) cs) l cs.
Proof.
  intros HN. revert f l. induction cs as [|c cs IH]; intros f l Hnd Hall; cbn [fat_chain fat_link].
  - right. right. unfold fat_next. simpl. unfold fat_set. rewrite Z.eqb_refl. done.
  - apply Forall_cons in Hall as [Hc Hall]. apply NoDup_cons in Hnd as [Hl Hnd]. apply not_elem_of_cons in Hl as [Hlc Hl].
    split; [|by apply IH]. unfold fat_next. rewrite fat_link_other by congruence. simpl. unfold fat_set.
    rewrite Z.eqb_refl. apply clus_land. unfold is_clus in Hc. lia.
Qed.

(** Following a chain collects it; the fuel is its length. *)
Lemma wp_get_all_loop s c cs fuel v :
  fat_wf s → is_clus c → Forall (fun d => is_clus d ∧ 0 < d) cs →
  fat_chain (fat_get s) c cs → (length cs < fuel)%nat →
  wp (get_all_clus_num_loop fat fuel v c) (fun r s' => r = v ++ c :: cs ∧ fat_same s s') s.
Proof.
  revert s c cs v. induction fuel as [|fuel IH]; intros s c cs v Hwf Hc Hall Hch Hf; [lia|].
  cbn [get_all_clus_num_loop]. wp_step. eapply wp_mono; [by apply wp_get_next|]. simpl. intros r s1 [-> Hs1].
  pose proof (fw_N s Hwf) as HN. unfold BAD_BLOCK in HN. destruct cs as [|d cs]; simpl in Hch.
  - assert ((fat_next (fat_get s) c =? BAD_BLOCK) || (fat_next (fat_get s) c =? FAT_ENTRY_FREE)
      || (FAT_ENTRY_RESERVED_TO_END <=? fat_next (fat_get s) c) = true) as ->.
    { destruct Hch as [->|[->|Hle]]; [done|done|]. rewrite (proj2 (Z.leb_le _ _) Hle). apply orb_true_r. }
    by wp_step.
  - destruct Hch as [Hd Hch]. apply Forall_cons in Hall as [[Hdc Hd0] Hall]. rewrite Hd. unfold is_clus in Hdc.
    rewrite (proj2 (Z.eqb_neq d BAD_BLOCK)), (proj2 (Z.eqb_neq d FAT_ENTRY_FREE)), (proj2 (Z.leb_gt FAT_ENTRY_RESERVED_TO_END d))
      by (unfold BAD_BLOCK, FAT_ENTRY_FREE, FAT_ENTRY_RESERVED_TO_END; lia). cbn [orb].
    eapply wp_mono; [apply (IH s1 d cs); [apply Hs1|done|done| |simpl in Hf; lia]|].
    + destruct Hs1 as (_ & _ & _ & Hg). revert Hch Hall Hdc Hg. clear.
      revert d. induction cs as [|e cs IHc]; intros d Hch Hall Hd Hg; simpl in *.
      * unfold fat_next in *. by rewrite Hg.
      * apply Forall_cons in Hall as [[He _] Hall]. destruct Hch as [Hne Hch]. split; [|by apply IHc].
        unfold fat_next in *. by rewrite Hg.
    + simpl. intros r s2 [-> Hs2]. split; [|by eapply fat_same_trans]. unfold vec_push. by rewrite <-app_assoc.
Qed.

(** *** Allocation *)

Lemma wp_set_next_opt s (o : option Z) v :
  fat_wf s → (∀ l, o = Some l → is_clus l) → is_u32 v →
  wp (set_next_clus fat o v) (fun _ s' => fat_wf s' ∧ vacant_clus s' = vacant_clus s ∧ hint s' = hint s ∧
    ∀ x, is_clus x → fat_get s' x = fat_set_opt (fat_get s) o v x) s.
Proof.
  intros Hwf Ho Hv. destruct o as [l|]; [apply wp_set_next; auto|]. unfold set_next_clus. by wp_step.
Qed.

Lemma wp_peek s (o : option Z) :
  fat_wf s → (∀ l, o = Some l → is_clus l) →
  wp (match o with Some l => get_next_clus_num fat l;; mret tt | None => mret tt end) (fun _ s' => fat_same s s') s.
Proof.
  intros Hwf Ho. destruct o as [l|]; [|by wp_step]. wp_step. eapply wp_mono; [apply wp_get_next; auto|].
  simpl. intros r s' [_ Hs]. by wp_step.
Qed.

Lemma fat_set_opt_same s s' o v x :
  fat_same s s' → is_clus x → fat_set_opt (fat_get s') o v x = fat_set_opt (fat_get s) o v x.
Proof.
  intros (_ & _ & _ & Hg) Hx. destruct o as [l|]; simpl; [|by apply Hg].
  unfold fat_set. by destruct (x =? l); [|apply Hg].
Qed.

(** A cluster found by the search. *)
Lemma wp_alloc_one_scan s last c :
  fat_wf s → vacant_clus s = [] → 0 ≤ hint s < tot_ent fat → (∀ l, last = Some l → is_clus l) →
  head (filter (is_free (fat_get s)) (seqZ (hint s) (tot_ent fat - hint s) ++ seqZ 0 (hint s))) = Some c →
  wp (alloc_one fat last) (fun r s' => r = Some c ∧ fat_wf s' ∧ vacant_clus s' = [] ∧
    hint s' = (c + 1) mod tot_ent fat ∧ ∀ x, is_clus x → fat_get s' x = fat_set_opt (fat_get s) last c x) s.
Proof.
  intros Hwf Hvac Hh Hl Hc. pose proof (fw_tot s Hwf). pose proof (fw_N s Hwf) as HN. unfold BAD_BLOCK in HN.
  assert (0 ≤ c < tot_ent fat) as Hcr.
  { apply head_Some_elem_of, list_elem_of_filter in Hc as [_ Hc]. rewrite elem_of_app, !elem_of_seqZ in Hc. lia. }
  unfold alloc_one. wp_step. eapply wp_mono; [by apply wp_peek|]. intros [] s1 Hs1. simpl in Hs1.
  pose proof Hs1 as (Hwf1 & Hv1 & Hh1 & Hg1). repeat wp_step. rewrite Hv1, Hvac. change (vec_pop []) with (@None (Z * list Z)).
  cbv iota. repeat wp_step. rewrite Hh1, wrap32_small by (unfold is_u32; lia).
  eapply wp_mono; [apply wp_get_next_free_clus; [done|lia]|]. intros r s2 [Hr Hs2].
  rewrite (filter_free_ext _ (fat_get s)) in Hr by (intros x; rewrite elem_of_app, !elem_of_seqZ; intros; apply Hg1; unfold is_clus; lia).
  rewrite Hc in Hr. subst r. pose proof (fat_same_trans _ _ _ Hs1 Hs2) as Hs12. pose proof Hs12 as (Hwf2 & Hv2 & Hh2 & Hg2).
  repeat wp_step; [apply negb_true_iff, Z.eqb_neq; lia|]. unfold put_hint. repeat wp_step.
  eapply wp_mono; [apply wp_set_next_opt; [|done|unfold is_u32; lia]|].
  { by apply (fat_wf_put s2). }
  cbn [vacant_clus hint]. intros [] s3 (Hwf3 & Hv3 & Hh3 & Hg3). wp_step. split; [done|]. split; [done|]. split; [congruence|]. split.
  - rewrite Hh3, wrap32_small by (unfold is_u32; lia). done.
  - intros x Hx. rewrite Hg3 by done. exact (fat_set_opt_same s s2 last c x Hs12 Hx).
Qed.

(** A cluster freed recently. *)
Lemma wp_alloc_one_vacant s last c V :
  fat_wf s → vacant_clus s = V ++ [c] → is_clus c → (∀ l, last = Some l → is_clus l) →
  wp (alloc_one fat last) (fun r s' => r = Some c ∧ fat_wf s' ∧ vacant_clus s' = V ∧
    hint s' = hint s ∧ ∀ x, is_clus x → fat_get s' x = fat_set_opt (fat_get s) last c x) s.
Proof.
  intros Hwf Hvac Hc Hl. pose proof (fw_N s Hwf) as HN. unfold BAD_BLOCK, is_clus in *.
  unfold alloc_one. wp_step. eapply wp_mono; [by apply wp_peek|]. intros [] s1 Hs1. simpl in Hs1.
  pose proof Hs1 as (Hwf1 & Hv1 & Hh1 & Hg1). repeat wp_step. rewrite Hv1, Hvac.
  change (V ++ [c]) with (vec_push V c). rewrite vec_pop_push. cbv iota. unfold put_vacant. repeat wp_step.
  eapply wp_mono; [apply wp_set_next_opt; [|done|unfold is_u32; lia]|].
  { by apply (fat_wf_put s1). }
  cbn [vacant_clus hint]. intros [] s3 (Hwf3 & Hv3 & Hh3 & Hg3). wp_step. split; [done|]. split; [done|]. split; [congruence|].
  split; [congruence|]. intros x Hx. rewrite Hg3 by done. exact (fat_set_opt_same s s1 last c x Hs1 Hx).
Qed.

(** The result of [alloc] started with [last] in [s]: the clusters [cs],
    linked behind [last]. *)
Definition allocated (s : FatSt) (last : option Z) (cs : list Z) (s' : FatSt) : Prop :=
  fat_wf s' ∧ ∀ x, is_clus x → fat_get s' x = fat_link (fat_get s) last cs x.

(** The rest of [alloc] after some clusters have been linked. *)
Definition alloc_rest (n : nat) (last : option Z) (acc : list Z) : ST FatSt (list Z) :=
  '(last, allocated_cluster) ← alloc_loop fat n last acc;
  set_next_clus fat last EOC;;
  mret allocated_cluster.

Lemma alloc_rest_S n last acc s c (Q : list Z → FatSt → Prop) :
  wp (alloc_one fat last) (fun r s' => r = Some c ∧ wp (alloc_rest n (Some c) (vec_push acc c)) Q s') s →
  wp (alloc_rest (S n) last acc) Q s.
Proof.
  intros H. apply wp_elim in H as (r & s1 & Heq & -> & H). revert H.
  unfold wp, alloc_rest, mbind, st_bind. cbn [alloc_loop]. unfold mbind, st_bind. by rewrite Heq.
Qed.

Lemma allocated_step s s1 last c cs s' :
  (∀ x, is_clus x → fat_get s1 x = fat_set_opt (fat_get s) last c x) →
  allocated s1 (Some c) cs s' → allocated s last (c :: cs) s'.
Proof.
  intros Hg [Hwf Hl]. split; [done|]. intros x Hx. rewrite Hl by done. cbn [fat_link]. by apply fat_link_ext.
Qed.

Lemma wp_alloc_rest_0 s last acc :
  fat_wf s → (∀ l, last = Some l → is_clus l) →
  wp (alloc_rest 0 last acc) (fun r s' => r = acc ++ [] ∧ vacant_clus s' = vacant_clus s ∧ allocated s last [] s') s.
Proof.
  intros Hwf Hl. unfold alloc_rest. cbn [alloc_loop]. repeat wp_step.
  eapply wp_mono; [apply wp_set_next_opt; [done|done|]|].
  { unfold is_u32, EOC. lia. }
  simpl. intros _ s' (Hwf' & Hv & Hh & Hg). wp_step. rewrite app_nil_r. split; [done|]. split; [done|]. by split.
Qed.

(** Clusters come from the search: the first free ones from [hint] on. *)
Lemma wp_alloc_rest_scan n s last acc :
  fat_wf s → vacant_clus s = [] → 0 ≤ hint s < tot_ent fat → ¬ is_free (fat_get s) 0 →
  (∀ l, last = Some l → is_clus l ∧ (l < hint s ∨ ¬ is_free (fat_get s) l)) →
  (n ≤ length (filter (is_free (fat_get s)) (seqZ (hint s) (tot_ent fat - hint s))))%nat →
  wp (alloc_rest n last acc) (fun r s' =>
    r = acc ++ take n (filter (is_free (fat_get s)) (seqZ (hint s) (tot_ent fat - hint s))) ∧
    vacant_clus s' = [] ∧
    allocated s last (take n (filter (is_free (fat_get s)) (seqZ (hint s) (tot_ent fat - hint s)))) s') s.
Proof.
  revert s last acc. induction n as [|n IH]; intros s last acc Hwf Hvac Hh H0 Hl Hn.
  { rewrite take_0. eapply wp_mono; [apply wp_alloc_rest_0; [done|]; intros l ->; by apply Hl|].
    simpl. intros r s' (-> & Hv & Ha). split; [done|]. split; [congruence|done]. }
  destruct (filter (is_free (fat_get s)) (seqZ (hint s) (tot_ent fat - hint s))) as [|c F] eqn:HF; simpl in Hn; [lia|].
  destruct (filter_seqZ_cons _ _ _ _ _ HF) as (Hc & Hfree & HF').
  pose proof (fw_tot s Hwf). pose proof (fw_N s Hwf) as HN.
  assert (c ≠ 0) as Hc0 by (intros ->; done).
  eapply alloc_rest_S, wp_mono; [apply (wp_alloc_one_scan s last c); try done|].
  { intros l ->. by apply Hl. }
  { by rewrite filter_app, HF. }
  intros r s1 (-> & Hwf1 & Hv1 & Hh1 & Hg1). split; [done|].
  assert (∀ l, Some c = Some l → is_clus l) as Hcl by (intros l [= <-]; unfold is_clus; lia).
  destruct n as [|n].
  { rewrite firstn_cons, take_0. eapply wp_mono; [by apply wp_alloc_rest_0|]. unfold vec_push.
    intros r s' (-> & Hv' & Ha). rewrite app_nil_r. split; [done|]. split; [congruence|]. by eapply allocated_step. }
  assert (c + 1 < tot_ent fat) as Hlt.
  { destruct F as [|d F]; simpl in Hn; [lia|]. destruct (filter_seqZ_cons _ _ _ _ _ HF') as (? & _). lia. }
  rewrite Z.mod_small in Hh1 by lia.
  assert (filter (is_free (fat_get s1)) (seqZ (hint s1) (tot_ent fat - hint s1)) = F) as HF1.
  { rewrite Hh1, <-HF'. replace (hint s + (tot_ent fat - hint s) - (c + 1)) with (tot_ent fat - (c + 1)) by lia.
    apply filter_free_iff. intros x Hx%elem_of_seqZ. unfold is_free, fat_next. rewrite Hg1 by (unfold is_clus; lia).
    destruct last as [l|]; [|done]. simpl. unfold fat_set. destruct (Z.eqb_spec x l) as [-> |]; [|done].
    destruct (Hl l eq_refl) as [_ [?|Hnf]]; [lia|]. rewrite clus_land by lia. unfold FAT_ENTRY_FREE.
    split; [lia|]. intros Hf. by destruct Hnf. }
  eapply wp_mono; [apply (IH s1 (Some c)); try done|].
  { lia. }
  { unfold is_free, fat_next. rewrite Hg1 by (unfold is_clus; lia). destruct last as [l|]; [|done].
    simpl. unfold fat_set. destruct (0 =? l); [|done]. rewrite clus_land by lia. done. }
  { intros l [= <-]. split; [unfold is_clus; lia|]. left. lia. }
  { rewrite HF1. lia. }
  rewrite HF1. intros r s' (-> & Hv' & Ha). rewrite firstn_cons. unfold vec_push. rewrite <-app_assoc.
  split; [done|]. split; [done|]. by eapply allocated_step.
Qed.

(** Clusters come from [vacant_clus], the last one freed first. *)
Lemma wp_alloc_rest_vacant n s last acc :
  fat_wf s → (∀ l, last = Some l → is_clus l) → Forall is_clus (vacant_clus s) →
  (n ≤ length (vacant_clus s))%nat →
  wp (alloc_rest n last acc) (fun r s' =>
    r = acc ++ take n (reverse (vacant_clus s)) ∧
    vacant_clus s' = take (length (vacant_clus s) - n) (vacant_clus s) ∧
    allocated s last (take n (reverse (vacant_clus s))) s') s.
Proof.
  revert s last acc. induction n as [|n IH]; intros s last acc Hwf Hl HV Hn.
  { rewrite Nat.sub_0_r, firstn_all, take_0. by apply wp_alloc_rest_0. }
  destruct (vec_pop (vacant_clus s)) as [[c V]|] eqn:HVs;
    [apply vec_pop_Some in HVs; unfold vec_push in HVs|apply vec_pop_None in HVs; rewrite HVs in Hn; simpl in Hn; lia].
  rewrite HVs in HV, Hn. rewrite HVs. rewrite length_app in Hn. simpl in Hn.
  apply Forall_app in HV as [HV Hc]. apply Forall_cons in Hc as [Hc _].
  eapply alloc_rest_S, wp_mono; [by apply (wp_alloc_one_vacant s last c V)|].
  intros r s1 (-> & Hwf1 & Hv1 & Hh1 & Hg1). split; [done|].
  eapply wp_mono; [apply (IH s1 (Some c)); [done|by intros l [= <-]|by rewrite Hv1|rewrite Hv1; lia]|].
  rewrite Hv1, reverse_app, length_app. simpl. change (reverse [c]) with [c]. cbn [app take].
  intros r s' (-> & Hv' & Ha). unfold vec_push. rewrite <-app_assoc. split; [done|].
  split; [|by eapply allocated_step].
  rewrite Hv'. replace (length V + 1 - S n)%nat with (length V - n)%nat by lia.
  by rewrite take_app_le by lia.
Qed.

(** [alloc] has produced the clusters [cs]: they were free, the table links
    them behind [last] and ends the chain, other entries are untouched, and
    [get_all_clus_num] reads the clusters back. *)
Record alloc_result (s : FatSt) (last : option Z) (cs : list Z) (s' : FatSt) : Prop := {
  ar_wf : fat_wf s';
  ar_nodup : NoDup cs;
  ar_free c : c ∈ cs → is_clus c ∧ is_free (fat_get s) c;
  ar_frame c : is_clus c → c ∉ cs → last ≠ Some c → fat_get s' c = fat_get s c;
  ar_read c cs' : cs = c :: cs' → ∃ s'', get_all_clus_num fat (length cs) c s' = Ok (cs, s'');
  ar_extend l : last = Some l → ∃ s'', get_all_clus_num fat (S (length cs)) l s' = Ok (l :: cs, s'');
}.

Lemma fat_chain_ext f g c cs :
  is_clus c → Forall is_clus cs → (∀ x, is_clus x → f x = g x) → fat_chain f c cs → fat_chain g c cs.
Proof.
  intros Hc Hcs Hfg. revert c Hc. induction Hcs as [|d cs Hd Hcs IH]; intros c Hc; simpl; unfold fat_next; rewrite Hfg by done; [done|].
  intros [-> ?]. split; [done|]. by apply IH.
Qed.

Lemma get_all_chain s c cs fuel :
  fat_wf s → is_clus c → Forall (fun d => is_clus d ∧ 0 < d) cs → fat_chain (fat_get s) c cs → (length cs < fuel)%nat →
  ∃ s', get_all_clus_num fat fuel c s = Ok (c :: cs, s').
Proof.
  intros Hwf Hc Hcs Hch Hf. pose proof (wp_get_all_loop s c cs fuel [] Hwf Hc Hcs Hch Hf) as H.
  apply wp_elim in H as (r & s' & Heq & -> & _). by exists s'.
Qed.

Lemma allocated_result s last cs s' :
  fat_wf s → allocated s last cs s' → NoDup cs → (∀ c, c ∈ cs → is_clus c ∧ 0 < c ∧ is_free (fat_get s) c) →
  (∀ l, last = Some l → is_clus l ∧ ¬ is_free (fat_get s) l) → alloc_result s last cs s'.
Proof.
  intros Hwf [Hwf' Hg] Hnd Hcs Hlast. pose proof (fw_N s Hwf) as HN.
  assert (Forall (fun d => is_clus d ∧ 0 < d) cs) as Hall
    by (apply Forall_forall; intros d Hd; by destruct (Hcs d Hd) as (? & ? & _)).
  assert (Forall is_clus cs) as Hall' by (apply Forall_forall; intros d Hd; apply (Hcs d Hd)).
  split; [done|done|intros c Hc; by destruct (Hcs c Hc) as (? & _ & ?)| | |].
  - intros c Hc Hn Hne. rewrite Hg by done. by apply fat_link_other.
  - intros c cs' ->. apply Forall_cons in Hall as [[Hc _] Hall]. apply Forall_cons in Hall' as [_ Hall'].
    eapply get_all_chain; [done|done|done| |simpl; lia].
    eapply fat_chain_ext; [done|done| |apply (fat_link_chain (fat_set_opt (fat_get s) last c) c cs'); done].
    intros x Hx. symmetry. by apply Hg.
  - intros l ->. destruct (Hlast l eq_refl) as [Hl Hnf].
    assert (NoDup (l :: cs)) as Hnd' by (apply NoDup_cons; split; [|done]; intros Hin; by apply Hnf, (Hcs l Hin)).
    eapply get_all_chain; [done|done|done| |lia].
    eapply fat_chain_ext; [done|done| |by apply (fat_link_chain (fat_get s) l cs)].
    intros x Hx. symmetry. by apply Hg.
Qed.

Lemma alloc_eq n last s : alloc fat n last s = alloc_rest (Z.to_nat n) last [] s.
Proof. done. Qed.

(** C9: with no recently freed cluster at hand and at least
    [alloc_num] free clusters from [hint] on, [alloc] gives the first
    [alloc_num] of them: they are distinct and were free, they are chained
    behind [last] and the chain is terminated, no other entry changes, and
    following the chain with [get_all_clus_num] gives them back.  With too few
    free clusters one can be given twice: [fat_alloc_duplicate]. *)
Theorem fat_alloc_first_free (s : FatSt) (alloc_num : Z) (last : option Z) :
  fat_wf s → vacant_clus s = [] → 0 ≤ hint s < tot_ent fat → ¬ is_free (fat_get s) 0 →
  (∀ l, last = Some l → is_clus l ∧ ¬ is_free (fat_get s) l) →
  0 ≤ alloc_num ≤ Z.of_nat (length (filter (is_free (fat_get s)) (seqZ (hint s) (tot_ent fat - hint s)))) →
  ∃ s', alloc fat alloc_num last s =
          Ok (take (Z.to_nat alloc_num) (filter (is_free (fat_get s)) (seqZ (hint s) (tot_ent fat - hint s))), s') ∧
        alloc_result s last
          (take (Z.to_nat alloc_num) (filter (is_free (fat_get s)) (seqZ (hint s) (tot_ent fat - hint s)))) s'.
Proof.
  intros Hwf Hvac Hh H0 Hlast Hn. rewrite alloc_eq. pose proof (fw_tot s Hwf).
  destruct (wp_elim _ _ _ (wp_alloc_rest_scan (Z.to_nat alloc_num) s last [] Hwf Hvac Hh H0
    ltac:(intros l Hl; destruct (Hlast l Hl); auto) ltac:(lia))) as (r & s' & Heq & -> & _ & Ha).
  exists s'. split; [done|]. apply allocated_result; [done|done| | |done].
  - eapply sublist_NoDup; [|apply sublist_take]. apply NoDup_filter, NoDup_seqZ.
  - intros c Hc%elem_of_take. destruct Hc as (i & Hi%list_elem_of_lookup_2 & _).
    apply list_elem_of_filter in Hi as [Hf Hi%elem_of_seqZ]. unfold is_clus. split; [lia|].
    split; [|done]. assert (c ≠ 0) by (intros ->; done). lia.
Qed.

(** As long as enough recently freed clusters are at hand,
    [alloc] hands them out, the last one freed first, with the same guarantees. *)
Theorem fat_alloc_recycles (s : FatSt) (alloc_num : Z) (last : option Z) :
  fat_wf s → NoDup (vacant_clus s) →
  (∀ c, c ∈ vacant_clus s → is_clus c ∧ 0 < c ∧ is_free (fat_get s) c) →
  (∀ l, last = Some l → is_clus l ∧ ¬ is_free (fat_get s) l) →
  0 ≤ alloc_num ≤ Z.of_nat (length (vacant_clus s)) →
  ∃ s', alloc fat alloc_num last s = Ok (take (Z.to_nat alloc_num) (reverse (vacant_clus s)), s') ∧
        vacant_clus s' = take (length (vacant_clus s) - Z.to_nat alloc_num) (vacant_clus s) ∧
        alloc_result s last (take (Z.to_nat alloc_num) (reverse (vacant_clus s))) s'.
Proof.
  intros Hwf Hnd Hvac Hlast Hn. rewrite alloc_eq.
  assert (Forall is_clus (vacant_clus s)) as HV by (apply Forall_forall; intros d Hd; apply (Hvac d Hd)).
  destruct (wp_elim _ _ _ (wp_alloc_rest_vacant (Z.to_nat alloc_num) s last [] Hwf
    ltac:(intros l Hl; destruct (Hlast l Hl); auto) HV ltac:(lia))) as (r & s' & Heq & -> & Hv' & Ha).
  exists s'. split; [done|]. split; [done|]. apply allocated_result; [done|done| | |done].
  - eapply sublist_NoDup; [|apply sublist_take]. by rewrite reverse_Permutation.
  - intros c (i & Hi%list_elem_of_lookup_2 & _)%elem_of_take. apply Hvac. by rewrite elem_of_reverse in Hi.
Qed.

(** What [alloc] hands out when it is asked for [n] clusters: those freed last,
    if there are enough of them, or the first free ones from [hint] on. *)
Inductive alloc_ready (s : FatSt) (n : nat) : list Z → Prop :=
  | ready_scan :
      vacant_clus s = [] → 0 ≤ hint s < tot_ent fat →
      (n ≤ length (filter (is_free (fat_get s)) (seqZ (hint s) (tot_ent fat - hint s))))%nat →
      alloc_ready s n (take n (filter (is_free (fat_get s)) (seqZ (hint s) (tot_ent fat - hint s))))
  | ready_vacant :
      NoDup (vacant_clus s) → (∀ c, c ∈ vacant_clus s → is_clus c ∧ is_free (fat_get s) c) →
      (n ≤ length (vacant_clus s))%nat → alloc_ready s n (take n (reverse (vacant_clus s))).

(** The first two entries of the table are reserved. *)
Definition reserved_used (s : FatSt) : Prop := ∀ c, is_clus c → is_free (fat_get s) c → 2 ≤ c.

Lemma alloc_ready_clus s n cs :
  fat_wf s → reserved_used s → alloc_ready s n cs →
  length cs = n ∧ NoDup cs ∧ ∀ c, c ∈ cs → 2 ≤ c < N ∧ is_free (fat_get s) c.
Proof.
  intros Hwf H2 Hr. pose proof (fw_tot s Hwf).
  destruct Hr as [Hv Hh Hn|Hnd Hv Hn]; (split; [rewrite length_take, ?length_reverse; lia|split]).
  - eapply sublist_NoDup; [|apply sublist_take]. apply NoDup_filter, NoDup_seqZ.
  - intros c (i & Hi%list_elem_of_lookup_2 & _)%elem_of_take.
    apply list_elem_of_filter in Hi as [Hf Hi%elem_of_seqZ]. pose proof (H2 c ltac:(unfold is_clus; lia) Hf). split; [lia|done].
  - eapply sublist_NoDup; [|apply sublist_take]. by rewrite reverse_Permutation.
  - intros c (i & Hi%list_elem_of_lookup_2 & _)%elem_of_take. rewrite elem_of_reverse in Hi.
    destruct (Hv c Hi) as [Hc Hf]. pose proof (H2 c Hc Hf). unfold is_clus in Hc. split; [lia|done].
Qed.

Lemma wp_alloc_ready s n last cs :
  fat_wf s → reserved_used s → alloc_ready s (Z.to_nat n) cs →
  (∀ l, last = Some l → is_clus l ∧ ¬ is_free (fat_get s) l) →
  wp (alloc fat n last) (fun r s' => r = cs ∧ allocated s last cs s') s.
Proof.
  intros Hwf H2 Hr Hlast. pose proof (fw_tot s Hwf). unfold wp. rewrite alloc_eq.
  match goal with |- match ?m s with _ => _ end => change (wp m (fun r s' => r = cs ∧ allocated s last cs s') s) end.
  destruct Hr as [Hv Hh Hn|Hnd Hv Hn].
  - eapply wp_mono; [apply wp_alloc_rest_scan; try done|].
    { intros Hf. pose proof (H2 0 ltac:(unfold is_clus; lia) Hf). lia. }
    { intros l Hl. destruct (Hlast l Hl). auto. }
    by intros r s' (-> & _ & ?).
  - eapply wp_mono; [apply wp_alloc_rest_vacant; try done|].
    { intros l Hl. by apply Hlast. } { apply Forall_forall. intros c Hc. by apply Hv. }
    by intros r s' (-> & _ & ?).
Qed.

(** A chain with more clusters linked behind its last one. *)
Lemma fat_link_extend f c xs l cs :
  N ≤ BAD_BLOCK → fat_chain f c xs → last (c :: xs) = Some l → NoDup ((c :: xs) ++ cs) → Forall is_clus cs →
  fat_chain (fat_link f (Some l) cs) c (xs ++ cs).
Proof.
  intros HN. revert c. induction xs as [|d xs IH]; intros c Hch Hl Hnd Hcs.
  { cbn in Hl. injection Hl as ->. by apply fat_link_chain. }
  destruct Hch as [Hd Hch]. rewrite last_cons_cons in Hl. cbn [app] in Hnd |- *. apply NoDup_cons in Hnd as [Hc Hnd].
  split; [|by apply IH]. unfold fat_next in *. rewrite fat_link_other; [done| |].
  - intros [= ->]. apply Hc. apply last_Some_elem_of in Hl. set_solver.
  - intros Hin. apply Hc. set_solver.
Qed.

(** A chain cut behind one of its clusters. *)
Lemma fat_chain_cut f g c xs ys l :
  fat_chain f c (xs ++ ys) → last (c :: xs) = Some l → NoDup (c :: xs) → g l = EOC →
  (∀ x, x ∈ c :: xs → x ≠ l → g x = f x) → fat_chain g c xs.
Proof.
  revert c. induction xs as [|d xs IH]; intros c Hch Hl Hnd Hg Hoth.
  { cbn in Hl. injection Hl as ->. right. right. unfold fat_next. by rewrite Hg. }
  destruct Hch as [Hd Hch]. rewrite last_cons_cons in Hl. apply NoDup_cons in Hnd as [Hc Hnd].
  split; [|apply IH; try done; intros x Hx; apply Hoth; set_solver].
  unfold fat_next in *. rewrite Hoth; [done|set_solver|]. intros ->. apply Hc. by apply last_Some_elem_of.
Qed.

(** The clusters of a chain are in use. *)
Lemma fat_chain_used f c xs l :
  fat_chain f c xs → last (c :: xs) = Some l → ¬ is_free f l → Forall (fun x => 2 ≤ x) xs →
  Forall (fun x => ¬ is_free f x) (c :: xs).
Proof.
  revert c. induction xs as [|d xs IH]; intros c Hch Hl Hf Hxs.
  { cbn in Hl. injection Hl as ->. by constructor. }
  destruct Hch as [Hd Hch]. rewrite last_cons_cons in Hl. apply Forall_cons in Hxs as [H2 Hxs].
  constructor; [|by apply IH]. unfold is_free. rewrite Hd. unfold FAT_ENTRY_FREE. lia.
Qed.

Lemma fat_link_last f last cs l : list.last cs = Some l → NoDup cs → fat_link f last cs l = EOC.
Proof.
  revert f last. induction cs as [|c cs IH]; intros f last Hl Hnd; [done|]. cbn [fat_link].
  apply NoDup_cons in Hnd as [Hc Hnd]. destruct cs as [|d cs].
  - cbn in Hl. injection Hl as ->. cbn. unfold fat_set. by rewrite Z.eqb_refl.
  - rewrite last_cons_cons in Hl. by apply IH.
Qed.

(** *** Release *)

Lemma wp_free_loop s cl :
  fat_wf s → Forall is_clus cl →
  wp (st_fold (free_one fat) tt cl) (fun _ s' => fat_wf s' ∧ hint s' = hint s ∧
    vacant_clus s' = vacant_clus s ++ take (64 - length (vacant_clus s)) cl ∧
    ∀ x, is_clus x → fat_get s' x = if decide (x ∈ cl) then FAT_ENTRY_FREE else fat_get s x) s.
Proof.
  revert s. induction cl as [|c cl IH]; intros s Hwf Hcl; cbn [st_fold].
  { wp_step. rewrite take_nil, app_nil_r. split_and!; done. }
  apply Forall_cons in Hcl as [Hc Hcl]. wp_step. unfold free_one at 1. wp_step.
  eapply wp_mono; [by apply wp_set_next|]. intros [] s1 (Hwf1 & Hv1 & Hh1 & Hg1). repeat wp_step.
  assert (∀ s2, fat_wf s2 → (∀ x, fat_get s2 x = fat_get s1 x) → hint s2 = hint s1 →
    vacant_clus s2 ++ take (64 - length (vacant_clus s2)) cl =
      vacant_clus s ++ take (64 - length (vacant_clus s)) (c :: cl) →
    wp (st_fold (free_one fat) tt cl) (fun _ s' => fat_wf s' ∧ hint s' = hint s ∧
      vacant_clus s' = vacant_clus s ++ take (64 - length (vacant_clus s)) (c :: cl) ∧
      ∀ x, is_clus x → fat_get s' x = if decide (x ∈ c :: cl) then FAT_ENTRY_FREE else fat_get s x) s2) as Hk.
  { intros s2 Hwf2 Hg2 Hh2 Hv2. eapply wp_mono; [by apply IH|]. intros [] s3 (Hwf3 & Hh3 & Hv3 & Hg3).
    split; [done|]. split; [congruence|]. split; [congruence|]. intros x Hx. rewrite Hg3, Hg2, Hg1 by done.
    unfold fat_set. destruct (decide (x ∈ cl)), (decide (x ∈ c :: cl)), (Z.eqb_spec x c); set_solver. }
  rewrite Hv1. destruct (Z.ltb_spec (Z.of_nat (length (vacant_clus s))) VACANT_CLUS_CACHE_SIZE) as [Hlt|Hge];
    unfold VACANT_CLUS_CACHE_SIZE in *.
  - unfold put_vacant. wp_step. apply Hk; [by apply fat_wf_put|done|done|].
    cbn [vacant_clus]. unfold vec_push. rewrite length_app. cbn [length].
    replace (64 - length (vacant_clus s))%nat with (S (64 - (length (vacant_clus s) + 1)))%nat by lia.
    rewrite firstn_cons, <-app_assoc. done.
  - wp_step. apply Hk; [done|done|done|]. rewrite Hv1.
    replace (64 - length (vacant_clus s))%nat with 0%nat by lia. done.
Qed.

Lemma wp_free s cl last :
  fat_wf s → Forall is_clus cl → (∀ l, last = Some l → is_clus l) →
  wp (free fat cl last) (fun _ s' => fat_wf s' ∧
    vacant_clus s' = vacant_clus s ++ take (64 - length (vacant_clus s)) cl ∧
    ∀ x, is_clus x → fat_get s' x =
      if decide (last = Some x) then EOC else if decide (x ∈ cl) then FAT_ENTRY_FREE else fat_get s x) s.
Proof.
  intros Hwf Hcl Hl. unfold free. wp_step. eapply wp_mono; [by apply wp_free_loop|].
  intros [] s1 (Hwf1 & Hh1 & Hv1 & Hg1). eapply wp_mono; [apply wp_set_next_opt; [done|done|unfold is_u32, EOC; lia]|].
  intros [] s2 (Hwf2 & Hv2 & _ & Hg2). split; [done|]. split; [congruence|]. intros x Hx. rewrite Hg2 by done.
  destruct last as [l|]; cbn [fat_set_opt]; [|destruct (decide (None = Some x)); [done|by apply Hg1]].
  unfold fat_set. destruct (Z.eqb_spec x l), (decide (Some l = Some x)); try congruence. by apply Hg1.
Qed.

(** [free] marks the clusters free, ends the chain at [last],
    changes no other entry, and remembers the clusters while there is room for
    64 of them.  A file of at most 64 clusters that is removed while nothing is
    remembered is recycled completely: the next allocation of that size gives its
    clusters, in reverse order. *)
Theorem fat_free_then_alloc (s : FatSt) (cl : list Z) (last : option Z) :
  fat_wf s → NoDup cl → Forall (fun c => is_clus c ∧ 0 < c) cl →
  (∀ l, last = Some l → is_clus l ∧ l ∉ cl) →
  vacant_clus s = [] → (length cl ≤ 64)%nat →
  ∃ s1 s2, free fat cl last s = Ok (tt, s1) ∧
    (∀ c, c ∈ cl → is_free (fat_get s1) c) ∧
    (∀ c, is_clus c → c ∉ cl → last ≠ Some c → fat_get s1 c = fat_get s c) ∧
    (∀ l, last = Some l → fat_get s1 l = EOC) ∧
    alloc fat (Z.of_nat (length cl)) None s1 = Ok (reverse cl, s2) ∧ vacant_clus s2 = [].
Proof.
  intros Hwf Hnd Hcl Hl Hvac Hlen.
  assert (Forall is_clus cl) as Hcl' by (eapply Forall_impl; [exact Hcl|]; by intros ? [? _]).
  destruct (wp_elim _ _ _ (wp_free s cl last Hwf Hcl' ltac:(intros l Hll; apply (Hl l Hll)))) as ([] & s1 & Hfree & Hwf1 & Hv1 & Hg1).
  rewrite Hvac in Hv1. cbn [length app] in Hv1. rewrite firstn_all2 in Hv1 by lia.
  destruct (wp_elim _ _ _ (wp_alloc_rest_vacant (length cl) s1 None [] Hwf1 ltac:(done)
    ltac:(by rewrite Hv1) ltac:(by rewrite Hv1))) as (r & s2 & Heq & -> & Hv2 & _).
  rewrite Hv1, Nat.sub_diag, take_0 in Hv2. rewrite Hv1, firstn_all2 in Heq by (rewrite length_reverse; lia).
  exists s1, s2. split_and!; [done| | | |by rewrite alloc_eq, Nat2Z.id|done].
  - intros c Hc. unfold is_free, fat_next. rewrite Forall_forall in Hcl'. rewrite Hg1 by auto.
    rewrite decide_False by (intros Heq'; by apply (Hl c Heq')). by rewrite decide_True.
  - intros c Hc Hn Hne. rewrite Hg1, !decide_False by done. done.
  - intros l Hll. rewrite Hg1 by apply (Hl l Hll). by rewrite decide_True.
Qed.

(** *** A search that meets the cluster just taken *)

Lemma scan_order f h c :
  0 ≤ h ≤ tot_ent fat →
  filter (is_free f) (seqZ h (tot_ent fat - h) ++ seqZ 0 h) = [c] ↔ filter (is_free f) (seqZ 0 (tot_ent fat)) = [c].
Proof.
  intros Hh. assert (seqZ h (tot_ent fat - h) ++ seqZ 0 h ≡ₚ seqZ 0 (tot_ent fat)) as Hp.
  { replace (tot_ent fat) with (h + (tot_ent fat - h)) at 2 by lia. rewrite seqZ_app by lia. rewrite Z.add_0_l.
    apply Permutation_app_comm. }
  apply (filter_Permutation (is_free f)) in Hp. split; intros Heq; rewrite Heq in Hp.
  - by apply Permutation_singleton_l in Hp.
  - by apply Permutation_singleton_r in Hp.
Qed.

(** When a single cluster [c] is free, a request for two clusters
    does not fail: an allocated cluster is only marked when its successor is
    linked, so the second search finds [c] again and the caller gets the list
    [[c; c]], with the entry of [c] set to end of chain. *)
Theorem fat_alloc_duplicate (s : FatSt) (c : Z) :
  fat_wf s → vacant_clus s = [] → 0 ≤ hint s < tot_ent fat →
  filter (is_free (fat_get s)) (seqZ 0 (tot_ent fat)) = [c] →
  ∃ s', alloc fat 2 None s = Ok ([c; c], s') ∧ fat_get s' c = EOC.
Proof.
  intros Hwf Hvac Hh Hone. rewrite alloc_eq. change (Z.to_nat 2) with 2%nat. pose proof (fw_tot s Hwf).
  assert (0 ≤ c < tot_ent fat) as Hc.
  { assert (c ∈ filter (is_free (fat_get s)) (seqZ 0 (tot_ent fat))) as [_ Hin%elem_of_seqZ]%list_elem_of_filter
      by (rewrite Hone; set_solver). lia. }
  assert (wp (alloc_rest 2 None []) (fun r s' => r = [c; c] ∧ fat_get s' c = EOC) s) as Hwp.
  { eapply alloc_rest_S, wp_mono; [apply (wp_alloc_one_scan s None c); try done|].
    { by rewrite (proj2 (scan_order (fat_get s) (hint s) c ltac:(lia)) Hone). }
    intros r s1 (-> & Hwf1 & Hv1 & Hh1 & Hg1). split; [done|]. cbn [fat_set_opt] in Hg1.
    pose proof (Z.mod_pos_bound (c + 1) (tot_ent fat) ltac:(lia)).
    eapply alloc_rest_S, wp_mono; [apply (wp_alloc_one_scan s1 (Some c) c); try done; try lia|].
    { intros l [= <-]. unfold is_clus. lia. }
    { rewrite (filter_free_ext _ (fat_get s)).
      - by rewrite (proj2 (scan_order (fat_get s) (hint s1) c ltac:(lia)) Hone).
      - intros x. rewrite elem_of_app, !elem_of_seqZ. intros. apply Hg1. unfold is_clus. lia. }
    intros r s2 (-> & Hwf2 & Hv2 & Hh2 & Hg2). split; [done|].
    eapply wp_mono; [apply wp_alloc_rest_0; [done|]|].
    { intros l [= <-]. unfold is_clus. lia. }
    intros r s3 (-> & _ & _ & Hg3). split; [done|]. rewrite Hg3 by (unfold is_clus; lia).
    cbn [fat_link fat_set_opt]. unfold fat_set. by rewrite Z.eqb_refl. }
  apply wp_elim in Hwp as (r & s' & Heq & -> & Hg). by exists s'.
Qed.
End Spec.

(** ** Blocks of clusters *)

Definition cluster_blocks (efs : EasyFileSystem) (c : Z) : list Z :=
  (fun offset => first_sector_of_cluster efs c ⊞ offset) <$> seqZ 0 (sec_per_clus efs).

(** The data area of [N] table entries fits in 32-bit sector numbers. *)
Record efs_wf (N : Z) (efs : EasyFileSystem) : Prop := {
  ew_spc : 0 < sec_per_clus efs < 256;
  ew_start : 0 ≤ data_area_start_block efs;
  ew_area : data_area_start_block efs + N * sec_per_clus efs < 2 ^ 32;
}.

Lemma first_sector_eq N efs c :
  efs_wf N efs → 2 ≤ c < N →
  first_sector_of_cluster efs c = data_area_start_block efs + (c - 2) * sec_per_clus efs.
Proof.
  intros [Hs Hd Ha] Hc. unfold first_sector_of_cluster.
  assert (0 ≤ (c - 2) * sec_per_clus efs) by (apply Z.mul_nonneg_nonneg; lia).
  assert ((c - 2) * sec_per_clus efs < N * sec_per_clus efs) by (apply Z.mul_lt_mono_pos_r; lia).
  assert (c - 2 ≤ (c - 2) * sec_per_clus efs) by nia.
  rewrite (wrap32_small (c - 2)), (wrap32_small (_ * _)), wrap32_small by (unfold is_u32; lia). done.
Qed.

Lemma elem_of_cluster_blocks N efs c b :
  efs_wf N efs → 2 ≤ c < N →
  b ∈ cluster_blocks efs c ↔
  data_area_start_block efs + (c - 2) * sec_per_clus efs ≤ b < data_area_start_block efs + (c - 1) * sec_per_clus efs.
Proof.
  intros Hwf Hc. unfold cluster_blocks. rewrite (first_sector_eq N) by done. destruct Hwf as [Hs Hd Ha].
  assert (0 ≤ (c - 2) * sec_per_clus efs) by (apply Z.mul_nonneg_nonneg; lia).
  assert ((c - 1) * sec_per_clus efs < N * sec_per_clus efs) by (apply Z.mul_lt_mono_pos_r; lia).
  replace ((c - 1) * sec_per_clus efs) with ((c - 2) * sec_per_clus efs + sec_per_clus efs) in * by lia.
  rewrite list_elem_of_fmap. split.
  - intros (o & -> & Ho%elem_of_seqZ). rewrite wrap64_small by (unfold is_usize; lia). lia.
  - intros Hb. exists (b - (data_area_start_block efs + (c - 2) * sec_per_clus efs)).
    rewrite wrap64_small by (unfold is_usize; lia). split; [lia|]. apply elem_of_seqZ. lia.
Qed.

Lemma cluster_blocks_NoDup N efs c : efs_wf N efs → 2 ≤ c < N → NoDup (cluster_blocks efs c).
Proof.
  intros Hwf Hc. unfold cluster_blocks. rewrite (first_sector_eq N) by done. destruct Hwf as [Hs Hd Ha].
  assert (0 ≤ (c - 2) * sec_per_clus efs) by (apply Z.mul_nonneg_nonneg; lia).
  assert ((c - 2) * sec_per_clus efs < N * sec_per_clus efs) by (apply Z.mul_lt_mono_pos_r; lia).
  apply NoDup_fmap_2_strong; [|apply NoDup_seqZ]. intros x y Hx%elem_of_seqZ Hy%elem_of_seqZ.
  rewrite !wrap64_small by (unfold is_usize; lia). lia.
Qed.

Lemma clusters_blocks_NoDup N efs cs :
  efs_wf N efs → NoDup cs → Forall (fun c => 2 ≤ c < N) cs → NoDup (cs ≫= cluster_blocks efs).
Proof.
  intros Hwf Hnd Hall. induction Hnd as [|c cs Hni Hnd IH]; [constructor|].
  apply Forall_cons in Hall as [Hc Hall]. rewrite bind_cons. apply NoDup_app.
  split; [by eapply cluster_blocks_NoDup|]. split; [|by apply IH].
  intros b Hb (d & Hb' & Hd)%list_elem_of_bind. rewrite Forall_forall in Hall.
  rewrite (elem_of_cluster_blocks N) in Hb, Hb' by auto. destruct Hwf as [Hs _ _].
  assert (c = d) as ->; [|done]. nia.
Qed.

Lemma clusters_blocks_length efs cs :
  0 ≤ sec_per_clus efs →
  Z.of_nat (length (cs ≫= cluster_blocks efs)) = Z.of_nat (length cs) * sec_per_clus efs.
Proof.
  intros Hs. induction cs as [|c cs IH]; [done|]. rewrite bind_cons, length_app. unfold cluster_blocks at 1.
  rewrite length_fmap, length_seqZ. cbn [length]. lia.
Qed.

(** C39: with no recently freed cluster at hand and enough free clusters from the
    hint on, [alloc_blocks] gives at least the number of blocks asked for, less
    than a cluster more; they are pairwise distinct, belong to the data area, and
    each belongs to a cluster that was free.  With fewer free clusters behind the
    hint the same block can be given twice, as [alloc] does
    ([fat_alloc_duplicate]). *)
Theorem alloc_blocks_correct (efs : EasyFileSystem) (N : Z) (D : Disk) (s : FatSt) (blocks : Z) :
  efs_wf N efs → fat_wf (efs_fat efs) N D s → vacant_clus s = [] → 0 ≤ hint s < tot_ent (efs_fat efs) →
  ¬ is_free (fat_get (efs_fat efs) s) 0 → ¬ is_free (fat_get (efs_fat efs) s) 1 →
  0 ≤ blocks ≤ sec_per_clus efs * Z.of_nat (length (filter (is_free (fat_get (efs_fat efs) s))
    (seqZ (hint s) (tot_ent (efs_fat efs) - hint s)))) →
  ∃ block_ids s', alloc_blocks efs blocks s = Ok (block_ids, s') ∧
    blocks ≤ Z.of_nat (length block_ids) < blocks + sec_per_clus efs ∧ NoDup block_ids ∧
    ∀ b, b ∈ block_ids → data_area_start_block efs ≤ b ∧
      ∃ c, b ∈ cluster_blocks efs c ∧ is_free (fat_get (efs_fat efs) s) c.
Proof.
  intros Hefs Hwf Hvac Hh H0 H1 Hn. pose proof Hefs as [Hs Hd Ha]. pose proof (fw_tot _ _ _ _ Hwf).
  set (F := filter _ _) in Hn.
  assert (∀ c, c ∈ F → 2 ≤ c < N ∧ is_free (fat_get (efs_fat efs) s) c) as HF.
  { intros c [Hf Hc%elem_of_seqZ]%list_elem_of_filter. split; [|done].
    assert (c ≠ 0) by (intros ->; done). assert (c ≠ 1) by (intros ->; done). lia. }
  set (n := blocks / sec_per_clus efs + (if blocks mod sec_per_clus efs =? 0 then 0 else 1)).
  assert (blocks ≤ n * sec_per_clus efs < blocks + sec_per_clus efs ∧ 0 ≤ n) as [Hnb Hn0].
  { pose proof (Z.div_mod blocks (sec_per_clus efs) ltac:(lia)) as Hdm.
    pose proof (Z.mod_pos_bound blocks (sec_per_clus efs) ltac:(lia)). pose proof (Z.div_pos blocks (sec_per_clus efs)).
    subst n. destruct (Z.eqb_spec (blocks mod sec_per_clus efs) 0); lia. }
  assert (n ≤ Z.of_nat (length F)) as HnF by nia.
  destruct (wp_elim _ _ _ (wp_alloc_rest_scan (efs_fat efs) N D (Z.to_nat n) s None [] Hwf Hvac Hh H0 ltac:(done)
    ltac:(fold F; lia))) as (r & s' & Heq & -> & _ & _).
  fold F in Heq. exists (take (Z.to_nat n) F ≫= cluster_blocks efs), s'.
  assert (∀ c, c ∈ take (Z.to_nat n) F → c ∈ F) as Htake by (intros c (i & ? & _)%elem_of_take; by eapply list_elem_of_lookup_2).
  assert (Z.of_nat (length (take (Z.to_nat n) F)) = n) as Htl by (rewrite length_take; lia).
  split_and!.
  - unfold alloc_blocks, mbind, st_bind, rust_assert. rewrite (proj2 (Z.eqb_neq _ _)) by lia. cbn [negb].
    unfold mret, st_ret. fold n. rewrite alloc_eq, Heq. done.
  - rewrite clusters_blocks_length, Htl by lia. lia.
  - rewrite clusters_blocks_length, Htl by lia. lia.
  - apply (clusters_blocks_NoDup N); [done| |apply Forall_forall; intros c Hc; by apply HF, Htake].
    eapply sublist_NoDup; [|apply sublist_take]. apply NoDup_filter, NoDup_seqZ.
  - intros b (c & Hb & Hc%Htake)%list_elem_of_bind. destruct (HF c Hc) as [Hcr Hf].
    split; [|by exists c]. rewrite (elem_of_cluster_blocks N) in Hb by done. nia.
Qed.

(** ** Samples *)

(** A table of eight entries in sector 1, one or three of them free. *)
Definition sample_table (entries : list Z) : Disk :=
  mkDisk 64 (fun i => if i =? 1 then (entries ≫= le32) ++ replicate 480 0 else replicate 512 0).

Definition sample_fat : Fat := mkFat 1 512 8.

Definition sample_efs : EasyFileSystem := mkEasyFileSystem sample_fat 2 2 4 512.

Definition sample_st (entries vacant : list Z) (h : Z) : FatSt :=
  mkFatSt (mkBcState BlockCacheManager_new (sample_table entries)) vacant h.

Lemma sample_st_wf entries vacant h :
  length entries = 8%nat → fat_wf sample_fat 8 (sample_table entries) (sample_st entries vacant h).
Proof.
  intros Hl. split; try done.
  2: { intros b [-> _]%elem_of_replicate. by left. }
  apply bc_new_wf. split; [done|]. intros id _. cbn [sample_table d_data].
  destruct (id =? 1); [|done]. rewrite length_app, length_replicate.
  assert (length (entries ≫= le32) = 32%nat) as ->; [|done].
  destruct entries as [|? [|? [|? [|? [|? [|? [|? [|? [|? ?]]]]]]]]]; done.
Qed.

Definition three_free : list Z := [EOC; EOC; EOC; 0; EOC; 0; 0; EOC].
Definition one_free : list Z := [EOC; EOC; EOC; EOC; EOC; 0; EOC; EOC].

Lemma fat_alloc_first_free_witness :
  ∃ s', alloc sample_fat 2 (Some 2) (sample_st three_free [] 4) = Ok ([5; 6], s') ∧
        alloc_result sample_fat 8 (sample_table three_free) (sample_st three_free [] 4) (Some 2) [5; 6] s'.
Proof.
  apply (fat_alloc_first_free sample_fat 8 (sample_table three_free) (sample_st three_free [] 4) 2 (Some 2)).
  - by apply sample_st_wf.
  - done.
  - done.
  - by vm_compute.
  - intros l [= <-]. split; [done|]. by vm_compute.
  - by vm_compute.
Defined.

Lemma fat_alloc_recycles_witness :
  ∃ s', alloc sample_fat 2 None (sample_st three_free [3; 6] 7) = Ok ([6; 3], s') ∧ vacant_clus s' = [] ∧
        alloc_result sample_fat 8 (sample_table three_free) (sample_st three_free [3; 6] 7) None [6; 3] s'.
Proof.
  apply (fat_alloc_recycles sample_fat 8 (sample_table three_free) (sample_st three_free [3; 6] 7) 2 None).
  - by apply sample_st_wf.
  - cbn [sample_st vacant_clus]. repeat constructor; set_solver.
  - cbn [sample_st vacant_clus]. intros c Hc. apply elem_of_cons in Hc as [-> |Hc]; [by vm_compute|].
    apply list_elem_of_singleton in Hc as ->. by vm_compute.
  - done.
  - done.
Defined.

Lemma fat_free_then_alloc_witness :
  ∃ s1 s2, free sample_fat [4; 7] (Some 2) (sample_st three_free [] 0) = Ok (tt, s1) ∧
    (∀ c, c ∈ [4; 7] → is_free (fat_get sample_fat s1) c) ∧
    (∀ c, is_clus 8 c → c ∉ [4; 7] → Some 2 ≠ Some c →
       fat_get sample_fat s1 c = fat_get sample_fat (sample_st three_free [] 0) c) ∧
    (∀ l, Some 2 = Some l → fat_get sample_fat s1 l = EOC) ∧
    alloc sample_fat 2 None s1 = Ok ([7; 4], s2) ∧ vacant_clus s2 = [].
Proof.
  apply (fat_free_then_alloc sample_fat 8 (sample_table three_free) (sample_st three_free [] 0) [4; 7] (Some 2)).
  - by apply sample_st_wf.
  - repeat constructor; set_solver.
  - repeat constructor; done.
  - intros l [= <-]. split; [done|]. set_solver.
  - done.
  - simpl. lia.
Defined.

Lemma fat_alloc_duplicate_witness :
  ∃ s', alloc sample_fat 2 None (sample_st one_free [] 0) = Ok ([5; 5], s') ∧ fat_get sample_fat s' 5 = EOC.
Proof.
  apply (fat_alloc_duplicate sample_fat 8 (sample_table one_free) (sample_st one_free [] 0) 5).
  - by apply sample_st_wf.
  - done.
  - done.
  - by vm_compute.
Defined.

Lemma alloc_blocks_correct_witness :
  ∃ block_ids s', alloc_blocks sample_efs 7 (sample_st three_free [] 0) = Ok (block_ids, s') ∧
    7 ≤ Z.of_nat (length block_ids) < 11 ∧ NoDup block_ids ∧
    ∀ b, b ∈ block_ids → 2 ≤ b ∧
      ∃ c, b ∈ cluster_blocks sample_efs c ∧ is_free (fat_get sample_fat (sample_st three_free [] 0)) c.
Proof.
  apply (alloc_blocks_correct sample_efs 8 (sample_table three_free) (sample_st three_free [] 0) 7).
  - split; done.
  - by apply sample_st_wf.
  - done.
  - done.
  - by vm_compute.
  - by vm_compute.
  - by vm_compute.
Defined.
