(* ===== verification/PageCache.v ===== *)
(** * Page caches of files

    The second half of [kernel/src/fs/cache.rs].  A [PageCache] holds one page
    of a file, made of up to eight sectors; a [PageCacheManager] holds the pages
    of one inode.  Whether a page has to be written back is decided by the dirty
    bit of the kernel's identity mapping of its frame, which the hardware sets. *)

From S2P Require Import Prelude Config FrameAllocator PageTable BlockCache.

(** [pc_shared] and [tracker_shared] stand for [Arc::strong_count(..) > 1] of the
    page and of its frame. *)
Record PageCache : Type := mkPageCache {
  pc_priority : Z;
  page_ptr : list Z;
  tracker_ppn : Z;
  pc_shared : bool;
  tracker_shared : bool
}.

(** The disk, the frame allocator and [KERNEL_SPACE.translate]. *)
Record PcSys : Type := mkPcSys {
  pc_disk : Disk;
  pc_fa : StackFrameAllocator;
  kernel_pte : Z → option Z
}.

Definition pc_lift {A} (f : Disk → outcome A) : ST PcSys A := fun s =>
  a ← f (pc_disk s);
  Ok (a, s).

(** [PageCache::new]; [tree_oom] is [fs::directory_tree::oom], which the frame
    allocation calls when no frame is free.  A fresh frame is zeroed. *)
Definition fa_alloc_sys : ST PcSys (option Z) := fun s =>
  let (o, fa) := sfa_alloc (pc_fa s) in
  Ok (o, mkPcSys (pc_disk s) fa (kernel_pte s)).

Definition PageCache_new (tree_oom : ST PcSys Z) : ST PcSys PageCache :=
  o ← fa_alloc_sys;
  ppn ← match o with
        | Some ppn => mret ppn
        | None =>
            released ← tree_oom;
            rust_assert (1 <=? released);;
            o ← fa_alloc_sys;
            unwrap o
        end;
  mret (mkPageCache 0 (replicate 4096 0) ppn false false).

Definition clear_kernel_dirty (vpn : Z) : ST PcSys unit :=
  modify (fun s => mkPcSys (pc_disk s) (pc_fa s) (fun v =>
    if v =? vpn then
      match kernel_pte s v with
      | Some bits => Some (if is_valid bits then Z.land bits (not64 PTE_D) else bits)
      | None => None
      end
    else kernel_pte s v)).

(** The local variables of the loops of [read_in] and [write_back]. *)
Record Run : Type := mkRun { start_blk : Z; con_length : Z; start_buf_id : Z }.

(** [block_device.read_block(start_block_id, buf)] for the sectors of a run;
    [buf] is a part of the page. *)
Definition read_run (page : list Z) (r : Run) : ST PcSys (list Z) :=
  data ← pc_lift (fun d => read_block d (start_blk r) (Z.to_nat (con_length r)));
  let off := Z.to_nat (start_buf_id r ⊠ BUFFER_SIZE) in
  mret (take off page ++ data ++ drop (off + length data) page).

Definition read_in_step (a : Run * list Z) (block_id : Z) : ST PcSys (Run * list Z) :=
  let '(r, page) := a in
  if con_length r =? 0 then mret (mkRun block_id 1 (start_buf_id r), page)
  else if negb (block_id =? start_blk r ⊞ con_length r) then
    page ← read_run page r;
    mret (mkRun block_id 1 (start_buf_id r ⊞ con_length r), page)
  else mret (mkRun (start_blk r) (con_length r ⊞ 1) (start_buf_id r), page).

Definition read_in (self : PageCache) (block_ids : list Z) : ST PcSys PageCache :=
  match block_ids with
  | [] => mret self
  | _ =>
      rust_assert (Z.of_nat (length block_ids) <=? PAGE_BUFFERS);;
      '(r, page) ← st_fold read_in_step (mkRun usize_MAX 0 0, page_ptr self) block_ids;
      page ← read_run page r;
      let n := (length block_ids * 512)%nat in
      let page := take n page ++ replicate (length page - n) 0 in
      clear_kernel_dirty (tracker_ppn self);;
      mret (mkPageCache (pc_priority self) page (tracker_ppn self) (pc_shared self) (tracker_shared self))
  end.

Definition write_run (page : list Z) (r : Run) : ST PcSys unit := fun s =>
  let buf := take (Z.to_nat (con_length r ⊠ BUFFER_SIZE)) (drop (Z.to_nat (start_buf_id r ⊠ BUFFER_SIZE)) page) in
  d ← write_block (pc_disk s) (start_blk r) buf;
  Ok (tt, mkPcSys d (pc_fa s) (kernel_pte s)).

Definition write_back_step (page : list Z) (r : Run) (block_id : Z) : ST PcSys Run :=
  if con_length r =? 0 then mret (mkRun block_id 1 (start_buf_id r))
  else if negb (block_id =? start_blk r ⊞ con_length r) then
    write_run page r;;
    mret (mkRun block_id 1 (start_buf_id r ⊞ con_length r))
  else mret (mkRun (start_blk r) (con_length r ⊞ 1) (start_buf_id r)).

Definition write_back (self : PageCache) (block_ids : list Z) : ST PcSys unit :=
  match block_ids with
  | [] => mret tt
  | _ =>
      r ← st_fold (write_back_step (page_ptr self)) (mkRun usize_MAX 0 0) block_ids;
      write_run (page_ptr self) r
  end.

Definition get_pte (self : PageCache) : ST PcSys (option Z) :=
  gets (fun s => kernel_pte s (tracker_ppn self)).

Definition sync (self : PageCache) (block_ids : list Z) : ST PcSys unit :=
  o ← get_pte self;
  match o with
  | Some pte => if negb (is_dirty pte) then mret tt else write_back self block_ids
  | None => write_back self block_ids
  end.

(** ** [PageCacheManager] *)

Record PcmState : Type := mkPcmState {
  pcm_pool : list (option PageCache);
  allocated_cache : list Z;
  pcm_sys : PcSys
}.

Definition pcm_lift {A} (m : ST PcSys A) : ST PcmState A := fun s =>
  '(a, y) ← m (pcm_sys s);
  Ok (a, mkPcmState (pcm_pool s) (allocated_cache s) y).

Definition put_pool (p : list (option PageCache)) : ST PcmState unit :=
  modify (fun s => mkPcmState p (allocated_cache s) (pcm_sys s)).

Definition put_allocated (l : list Z) : ST PcmState unit :=
  modify (fun s => mkPcmState (pcm_pool s) l (pcm_sys s)).

Definition pc_bump (pc : PageCache) : PageCache :=
  mkPageCache (if pc_priority pc <? PRIORITY_UPPERBOUND then pc_priority pc ⊞ 1 else pc_priority pc)
    (page_ptr pc) (tracker_ppn pc) (pc_shared pc) (tracker_shared pc).

(** [get_cache] returns a reference to the page, here its index; [neighbor] is
    the result of the closure. *)
Definition get_cache (tree_oom : ST PcSys Z) (inner_cache_id : Z) (neighbor : list Z) : ST PcmState Z :=
  remain ← gets (fun s => unallocated_frames (pc_fa (pcm_sys s)));
  (if remain <? 1 then panic else mret tt);;
  pool ← gets pcm_pool;
  let pool := pool ++ replicate (Z.to_nat (inner_cache_id + 1) - length pool) None in
  put_pool pool;;
  o ← unwrap (pool !! Z.to_nat inner_cache_id);
  pc ← match o with
       | Some page_cache => mret page_cache
       | None =>
           new_page_cache ← pcm_lift (PageCache_new tree_oom);
           new_page_cache ← pcm_lift (read_in new_page_cache neighbor);
           pool ← gets pcm_pool;
           put_pool (<[Z.to_nat inner_cache_id := Some new_page_cache]> pool);;
           allocated ← gets allocated_cache;
           put_allocated (vec_push allocated inner_cache_id);;
           mret new_page_cache
       end;
  pool ← gets pcm_pool;
  put_pool (<[Z.to_nat inner_cache_id := Some (pc_bump pc)]> pool);;
  mret inner_cache_id.

(** The drop of a page: its frame goes back unless it is shared. *)
Definition drop_page (pc : PageCache) : ST PcmState unit :=
  if tracker_shared pc then mret tt
  else fun s =>
    let y := pcm_sys s in
    match sfa_dealloc (pc_fa y) (tracker_ppn pc) with
    | Ok fa => Ok (tt, mkPcmState (pcm_pool s) (allocated_cache s) (mkPcSys (pc_disk y) fa (kernel_pte y)))
    | _ => Panic
    end.

(** One page of [oom], with the locals [new_allocated_cache] and [dropped]. *)
Definition pcm_oom_one (neighbor : Z → list Z) (a : list Z * Z) (inner_cache_id : Z) : ST PcmState (list Z * Z) :=
  let '(new_allocated_cache, dropped) := a in
  pool ← gets pcm_pool;
  slot ← unwrap (pool !! Z.to_nat inner_cache_id);
  inner ← unwrap slot;
  if pc_shared inner then mret (vec_push new_allocated_cache inner_cache_id, dropped)
  else if tracker_shared inner then mret (vec_push new_allocated_cache inner_cache_id, dropped)
  else if 0 <? pc_priority inner then
    put_pool (<[Z.to_nat inner_cache_id := Some (mkPageCache (pc_priority inner ⊟ 1) (page_ptr inner)
      (tracker_ppn inner) (pc_shared inner) (tracker_shared inner))]> pool);;
    mret (vec_push new_allocated_cache inner_cache_id, dropped)
  else
    pcm_lift (sync inner (neighbor inner_cache_id));;
    put_pool (<[Z.to_nat inner_cache_id := None]> pool);;
    drop_page inner;;
    mret (new_allocated_cache, dropped ⊞ 1).

Definition PageCacheManager_oom (neighbor : Z → list Z) : ST PcmState Z :=
  allocated ← gets allocated_cache;
  '(new_allocated_cache, dropped) ← st_fold (pcm_oom_one neighbor) ([], 0) allocated;
  put_allocated new_allocated_cache;;
  mret dropped.

(** The pages that [notify_new_size] pops, the last one first. *)
Definition pop_page (_ : unit) (slot : option PageCache) : ST PcmState unit :=
  match slot with
  | Some cache => if pc_shared cache then panic else drop_page cache
  | None => mret tt
  end.

Definition notify_new_size (new_size : Z) : ST PcmState unit :=
  pool ← gets pcm_pool;
  let new_pages := (new_size ⊞ PAGE_SIZE ⊟ 1) / PAGE_SIZE in
  st_fold pop_page tt (reverse (drop (Z.to_nat new_pages) pool));;
  put_pool (take (Z.to_nat new_pages) pool);;
  allocated ← gets allocated_cache;
  put_allocated (filter (fun cache_id => cache_id < new_pages) allocated).

(** ** Coalesced transfers against sector-by-sector ones *)

Definition sectors (d : Disk) (ids : list Z) : list Z := ids ≫= d_data d.

Fixpoint write_sectors (d : Disk) (ids : list Z) (buf : list Z) : Disk :=
  match ids with
  | [] => d
  | id :: ids => write_sectors (sector_write d id (take 512 buf)) ids (drop 512 buf)
  end.

Definition ids_ok (d : Disk) (ids : list Z) : Prop := Forall (fun id => 0 ≤ id < d_size d) ids.

Lemma sectors_app d ids1 ids2 : sectors d (ids1 ++ ids2) = sectors d ids1 ++ sectors d ids2.
Proof. apply bind_app. Qed.

Lemma sectors_length d ids : disk_wf d → ids_ok d ids → length (sectors d ids) = (512 * length ids)%nat.
Proof.
  intros [_ Hd]. induction 1 as [|id ids Hid Hids IH]; [done|].
  unfold sectors in *. rewrite bind_cons, length_app, Hd, IH by done. cbn [length]. lia.
Qed.

Lemma read_block_seq d id n :
  disk_wf d → 0 ≤ id → id + Z.of_nat n ≤ d_size d → read_block d id n = Ok (sectors d (seqZ id (Z.of_nat n))).
Proof.
  intros [Hsz Hd]. revert id. induction n as [|n IH]; intros id Hid Hle; [done|].
  unfold usize_MAX in Hsz. cbn [read_block]. rewrite (proj2 (Z.ltb_lt _ _)) by lia.
  rewrite wrap64_small by (unfold is_usize; lia). unfold mbind, outcome_bind. rewrite IH by lia.
  rewrite (seqZ_cons id) by lia. unfold sectors. rewrite bind_cons.
  replace (Z.succ id) with (id + 1) by lia. by replace (Z.pred (Z.of_nat (S n))) with (Z.of_nat n) by lia.
Qed.

(** The state of the loops: [done] has been visited, [pre] transferred, and the
    run holds the rest. *)
Definition run_inv (done : list Z) (r : Run) (pre : list Z) : Prop :=
  done = pre ++ seqZ (start_blk r) (con_length r) ∧ start_buf_id r = Z.of_nat (length pre) ∧
  (con_length r = 0 ↔ done = []).

(** One more block: it joins the run, or the run is transferred. *)
Lemma run_inv_join done r pre id :
  run_inv done r pre → 0 < con_length r → id = start_blk r + con_length r →
  run_inv (done ++ [id]) (mkRun (start_blk r) (con_length r + 1) (start_buf_id r)) pre.
Proof.
  intros (-> & Hb & Hc) Hpos ->. split_and!; cbn [start_blk con_length start_buf_id]; [|done|].
  - rewrite <-app_assoc. f_equal. rewrite seqZ_app by lia. done.
  - split; [lia|]. intros H. by apply app_nil in H as [_ H].
Qed.

Lemma run_inv_new done r pre id :
  run_inv done r pre → (0 < con_length r) →
  run_inv (done ++ [id]) (mkRun id 1 (start_buf_id r + con_length r)) (pre ++ seqZ (start_blk r) (con_length r)).
Proof.
  intros (-> & Hb & Hc) Hpos. split_and!; cbn [start_blk con_length start_buf_id].
  - done.
  - rewrite length_app, length_seqZ. lia.
  - split; [lia|]. intros H. apply app_nil in H as [_ H]. done.
Qed.

(** What is in the page after the sectors [pre] have been read. *)
Definition page_read (d : Disk) (pre : list Z) (page0 : list Z) : list Z :=
  sectors d pre ++ drop (512 * length pre) page0.

Lemma page_read_length d pre page0 :
  disk_wf d → ids_ok d pre → (512 * length pre ≤ length page0)%nat → length (page_read d pre page0) = length page0.
Proof. intros Hd Hp Hle. unfold page_read. rewrite length_app, length_drop, sectors_length by done. lia. Qed.

Lemma run_bounds d done r pre :
  disk_wf d → run_inv done r pre → ids_ok d done → 0 < con_length r →
  ids_ok d pre ∧ 0 ≤ start_blk r ∧ start_blk r + con_length r ≤ d_size d ∧
  Z.of_nat (length done) = Z.of_nat (length pre) + con_length r.
Proof.
  intros Hd (-> & Hb & _) Hok Hpos. apply Forall_app in Hok as [Hpre Hrun]. rewrite Forall_forall in Hrun.
  pose proof (Hrun (start_blk r) ltac:(apply elem_of_seqZ; lia)).
  pose proof (Hrun (start_blk r + con_length r - 1) ltac:(apply elem_of_seqZ; lia)).
  rewrite length_app, length_seqZ. split; [done|]. lia.
Qed.

Lemma wp_read_run s done r pre page0 :
  disk_wf (pc_disk s) → run_inv done r pre → ids_ok (pc_disk s) done → 0 < con_length r →
  length page0 = 4096%nat → (length done ≤ 8)%nat →
  wp (read_run (page_read (pc_disk s) pre page0) r)
     (fun page s' => s' = s ∧ page = page_read (pc_disk s) done page0) s.
Proof.
  intros Hd Hrun Hok Hpos Hl H8. destruct (run_bounds _ _ _ _ Hd Hrun Hok Hpos) as (Hpre & Hs0 & Hs1 & Hlen).
  destruct Hrun as (-> & Hb & _). unfold read_run. wp_step. eapply wp_intro.
  { unfold pc_lift. rewrite read_block_seq by (done || lia). done. }
  repeat wp_step. split; [done|]. rewrite Z2Nat.id by lia. set (run := seqZ _ _) in *.
  assert (ids_ok (pc_disk s) run) as Hrok by (by apply Forall_app in Hok as [_ ?]).
  rewrite wrap64_small by (unfold is_usize, BUFFER_SIZE; lia). rewrite Hb.
  replace (Z.to_nat (Z.of_nat (length pre) * BUFFER_SIZE)) with (512 * length pre)%nat by (unfold BUFFER_SIZE; lia).
  unfold page_read. rewrite take_app_length' by (by rewrite sectors_length).
  rewrite sectors_app, <-app_assoc. f_equal. f_equal.
  rewrite drop_app_ge by (rewrite sectors_length by done; lia).
  rewrite !sectors_length, drop_drop by done. f_equal. rewrite length_app. lia.
Qed.

Lemma wp_read_loop s page0 ids :
  disk_wf (pc_disk s) → ids_ok (pc_disk s) ids → length page0 = 4096%nat → (length ids ≤ 8)%nat →
  wp (st_fold read_in_step (mkRun usize_MAX 0 0, page0) ids)
     (fun a s' => s' = s ∧ ∃ pre, run_inv ids a.1 pre ∧ 0 ≤ con_length a.1 ∧ a.2 = page_read (pc_disk s) pre page0) s.
Proof.
  intros Hd Hok Hl H8.
  apply (wp_st_fold read_in_step (fun dn (a : Run * list Z) s' => s' = s ∧ ∃ pre, run_inv dn a.1 pre ∧
    0 ≤ con_length a.1 ∧ a.2 = page_read (pc_disk s) pre page0)).
  { split; [done|]. exists []. split; [|split; [done|by rewrite <-(drop_0 page0) at 1]].
    split; [done|]. split; [done|]. done. }
  intros dn id rest [r page] s' Hids (-> & pre & Hrun & Hc & Hp). cbn [fst snd] in *. subst page.
  rewrite Hids in Hok, H8. replace (dn ++ id :: rest) with ((dn ++ [id]) ++ rest) in * by (by rewrite <-app_assoc).
  apply Forall_app in Hok as [Hok _]. pose proof Hok as Hok'. apply Forall_app in Hok' as [Hokd Hid].
  rewrite !length_app in H8. cbn [length] in H8. unfold read_in_step.
  destruct (Z.eqb_spec (con_length r) 0) as [H0|Hn0].
  { wp_step. split; [done|]. exists pre. cbn [fst snd]. split; [|done]. destruct Hrun as (-> & Hb & Hnil).
    apply (proj1 Hnil) in H0 as Hz. apply app_nil in Hz as [-> _]. split_and!; [|done|].
    { cbn. rewrite H0. by rewrite seqZ_nil. }
    cbn [con_length]. split; [lia|]. intros H. by apply app_nil in H as [_ H]. }
  destruct (run_bounds _ _ _ _ Hd Hrun Hokd ltac:(lia)) as (_ & Hs0 & Hs1 & Hlen).
  destruct Hd as [Hsz Hsec] eqn:HdE. clear HdE. unfold usize_MAX in Hsz.
  assert (start_blk r ⊞ con_length r = start_blk r + con_length r) as -> by (apply wrap64_small; unfold is_usize; lia).
  destruct (Z.eqb_spec id (start_blk r + con_length r)) as [He|Hne]; cbn [negb].
  - wp_step. split; [done|]. exists pre. cbn [fst snd]. rewrite wrap64_small by (unfold is_usize; lia).
    split; [apply run_inv_join; [done|lia|done]|]. cbn [con_length]. split; [lia|done].
  - wp_step. eapply wp_mono; [apply (wp_read_run s dn r pre); [done|done|done|lia|done|lia]|].
    intros page s' [-> ->]. wp_step. split; [done|]. exists dn. cbn [fst snd].
    pose proof (proj1 (proj2 Hrun)) as Hb. rewrite wrap64_small by (unfold is_usize; lia).
    split; [|split; [done|done]]. destruct (run_inv_new dn r pre id Hrun ltac:(lia)) as (H1 & H2 & H3).
    rewrite <-(proj1 Hrun) in H1, H2. by split_and!.
Qed.

(** Reading a page in, with runs of consecutive sectors joined, is reading its
    sectors one by one; the rest of the page is zeroed. *)
Lemma wp_read_in s self ids :
  disk_wf (pc_disk s) → ids_ok (pc_disk s) ids → ids ≠ [] → length (page_ptr self) = 4096%nat → (length ids ≤ 8)%nat →
  wp (read_in self ids) (fun pc s' =>
    pc = mkPageCache (pc_priority self) (sectors (pc_disk s) ids ++ replicate (4096 - 512 * length ids) 0)
           (tracker_ppn self) (pc_shared self) (tracker_shared self) ∧
    clear_kernel_dirty (tracker_ppn self) s = Ok (tt, s')) s.
Proof.
  intros Hd Hok Hne Hl H8. unfold read_in. destruct ids as [|i ids']; [done|]. set (ids := i :: ids') in *.
  wp_step. wp_step. { apply Z.leb_le. unfold PAGE_BUFFERS. lia. }
  wp_step. eapply wp_mono; [by apply wp_read_loop|]. intros [r page] s' (-> & pre & Hrun & Hc & Hp). cbn [fst snd] in *. subst page.
  assert (0 < con_length r) as Hpos.
  { destruct (decide (con_length r = 0)) as [H0|]; [|lia]. by apply (proj2 (proj2 Hrun)) in H0. }
  wp_step. eapply wp_mono; [by apply (wp_read_run s ids r pre)|]. intros page s' [-> ->]. repeat wp_step.
  split; [|done]. f_equal. rewrite page_read_length by (done || lia). rewrite Hl.
  replace (length ids * 512)%nat with (512 * length ids)%nat by lia. f_equal.
  unfold page_read. rewrite take_app_length' by (by rewrite sectors_length). done.
Qed.

(** *** Writing back *)

Lemma write_sectors_size d ids buf : d_size (write_sectors d ids buf) = d_size d.
Proof. revert d buf. induction ids as [|id ids IH]; intros d buf; [done|]. cbn [write_sectors]. by rewrite IH. Qed.

Lemma write_sectors_app d ids1 ids2 buf :
  write_sectors d (ids1 ++ ids2) buf = write_sectors (write_sectors d ids1 buf) ids2 (drop (512 * length ids1) buf).
Proof.
  revert d buf. induction ids1 as [|id ids1 IH]; intros d buf; [done|]. cbn [app write_sectors length].
  rewrite IH, drop_drop. do 2 f_equal. lia.
Qed.

Lemma write_sectors_take d ids buf n :
  (512 * length ids ≤ n)%nat → write_sectors d ids (take n buf) = write_sectors d ids buf.
Proof.
  revert d buf n. induction ids as [|id ids IH]; intros d buf n Hn; [done|]. cbn [length] in Hn. cbn [write_sectors].
  rewrite firstn_firstn, skipn_firstn_comm, IH by lia. by replace (512 `min` n)%nat with 512%nat by lia.
Qed.

Lemma write_sectors_other d ids buf id : id ∉ ids → d_data (write_sectors d ids buf) id = d_data d id.
Proof.
  revert d buf. induction ids as [|i ids IH]; intros d buf Hid; [done|]. apply not_elem_of_cons in Hid as [Hne Hid].
  cbn [write_sectors]. rewrite IH by done. cbn [sector_write d_data]. by rewrite (proj2 (Z.eqb_neq _ _)).
Qed.

Lemma sectors_ext d d' ids : (∀ id, id ∈ ids → d_data d' id = d_data d id) → sectors d' ids = sectors d ids.
Proof.
  induction ids as [|i ids IH]; intros Hd; [done|]. unfold sectors in *. rewrite !bind_cons, IH, Hd by set_solver. done.
Qed.

(** What was written is read back. *)
Lemma sectors_write_sectors d ids buf :
  NoDup ids → (512 * length ids ≤ length buf)%nat → sectors (write_sectors d ids buf) ids = take (512 * length ids) buf.
Proof.
  intros Hnd. revert d buf. induction Hnd as [|i ids Hi Hnd IH]; intros d buf Hl; [done|]. cbn [length] in Hl.
  unfold sectors in *. rewrite bind_cons. cbn [write_sectors length].
  rewrite IH by (rewrite length_drop; lia). rewrite write_sectors_other by done. cbn [sector_write d_data].
  rewrite Z.eqb_refl. replace (512 * S (length ids))%nat with (512 + 512 * length ids)%nat by lia.
  by rewrite take_take_drop.
Qed.

Lemma write_sectors_wf d ids buf :
  disk_wf d → (512 * length ids ≤ length buf)%nat → disk_wf (write_sectors d ids buf).
Proof.
  revert d buf. induction ids as [|i ids IH]; intros d buf Hd Hl; [done|]. cbn [length] in Hl. cbn [write_sectors].
  apply IH; [|rewrite length_drop; lia]. destruct Hd as [Hsz Hs]. split; [done|].
  intros id Hid. cbn [sector_write d_data]. destruct (id =? i); [rewrite length_take; lia|by apply Hs].
Qed.

Lemma chunks_S n buf : chunks (S n) buf = take 512 buf :: chunks n (drop 512 buf).
Proof.
  unfold chunks. change (seq 0 (S n)) with (0%nat :: seq 1 n). rewrite fmap_cons.
  change (512 * 0)%nat with 0%nat. rewrite drop_0. f_equal. rewrite <-fmap_S_seq, <-list_fmap_compose. apply list_fmap_ext. intros i x _. simpl.
  rewrite drop_drop. do 2 f_equal. lia.
Qed.

Lemma write_chunks_seq d id n buf :
  d_size d < usize_MAX → 0 ≤ id → id + Z.of_nat n ≤ d_size d →
  write_chunks d id (chunks n buf) = Ok (write_sectors d (seqZ id (Z.of_nat n)) buf).
Proof.
  unfold usize_MAX. revert d id buf. induction n as [|n IH]; intros d id buf Hsz Hid Hle; [done|].
  rewrite chunks_S. cbn [write_chunks]. rewrite (proj2 (Z.ltb_lt _ _)) by lia.
  rewrite wrap64_small by (unfold is_usize; lia). rewrite IH by (cbn; lia).
  rewrite (seqZ_cons id) by lia. cbn [write_sectors].
  replace (Z.succ id) with (id + 1) by lia. by replace (Z.pred (Z.of_nat (S n))) with (Z.of_nat n) by lia.
Qed.

Definition with_disk (s : PcSys) (d : Disk) : PcSys := mkPcSys d (pc_fa s) (kernel_pte s).

Lemma write_run_eq s d done r pre page :
  disk_wf d → run_inv done r pre → ids_ok d done → 0 < con_length r →
  length page = 4096%nat → (length done ≤ 8)%nat →
  write_run page r (with_disk s (write_sectors d pre page)) = Ok (tt, with_disk s (write_sectors d done page)).
Proof.
  intros Hd Hrun Hok Hpos Hl H8. destruct (run_bounds _ _ _ _ Hd Hrun Hok Hpos) as (_ & Hs0 & Hs1 & Hlen).
  destruct Hrun as (-> & Hb & _). unfold write_run, write_block. cbn [pc_disk with_disk].
  rewrite !wrap64_small by (unfold is_usize, BUFFER_SIZE; lia). rewrite Hb.
  replace (Z.to_nat (Z.of_nat (length pre) * BUFFER_SIZE)) with (512 * length pre)%nat by (unfold BUFFER_SIZE; lia).
  replace (Z.to_nat (con_length r * BUFFER_SIZE)) with (512 * Z.to_nat (con_length r))%nat by (unfold BUFFER_SIZE; lia).
  rewrite length_take, length_drop, Hl.
  replace ((512 * Z.to_nat (con_length r)) `min` (4096 - 512 * length pre))%nat with (Z.to_nat (con_length r) * 512)%nat by lia.
  rewrite Nat.div_mul by lia. destruct Hd as [Hsz _].
  rewrite write_chunks_seq by (rewrite ?write_sectors_size; lia). unfold mbind, outcome_bind.
  rewrite write_sectors_app, Z2Nat.id by lia. rewrite write_sectors_take by (rewrite length_seqZ; lia). done.
Qed.

Lemma wp_write_loop s page ids :
  disk_wf (pc_disk s) → ids_ok (pc_disk s) ids → length page = 4096%nat → (length ids ≤ 8)%nat →
  wp (st_fold (write_back_step page) (mkRun usize_MAX 0 0) ids)
     (fun r s' => ∃ pre, run_inv ids r pre ∧ 0 ≤ con_length r ∧ s' = with_disk s (write_sectors (pc_disk s) pre page)) s.
Proof.
  intros Hd Hok Hl H8.
  apply (wp_st_fold (write_back_step page) (fun dn r s' => ∃ pre, run_inv dn r pre ∧
    0 ≤ con_length r ∧ s' = with_disk s (write_sectors (pc_disk s) pre page))).
  { exists []. split; [|split; [done|by destruct s]]. by split_and!. }
  intros dn id rest r s' Hids (pre & Hrun & Hc & ->).
  rewrite Hids in Hok, H8. replace (dn ++ id :: rest) with ((dn ++ [id]) ++ rest) in * by (by rewrite <-app_assoc).
  apply Forall_app in Hok as [Hok _]. pose proof Hok as Hok'. apply Forall_app in Hok' as [Hokd Hid].
  rewrite !length_app in H8. cbn [length] in H8. unfold write_back_step.
  destruct (Z.eqb_spec (con_length r) 0) as [H0|Hn0].
  { wp_step. exists pre. split; [|done]. destruct Hrun as (-> & Hb & Hnil).
    apply (proj1 Hnil) in H0 as Hz. apply app_nil in Hz as [-> _]. split_and!; [|done|].
    { cbn. rewrite H0. by rewrite seqZ_nil. }
    cbn [con_length]. split; [lia|]. intros H. by apply app_nil in H as [_ H]. }
  destruct (run_bounds _ _ _ _ Hd Hrun Hokd ltac:(lia)) as (_ & Hs0 & Hs1 & Hlen).
  pose proof (proj1 Hd) as Hsz. unfold usize_MAX in Hsz.
  assert (start_blk r ⊞ con_length r = start_blk r + con_length r) as -> by (apply wrap64_small; unfold is_usize; lia).
  destruct (Z.eqb_spec id (start_blk r + con_length r)) as [He|Hne]; cbn [negb].
  - wp_step. exists pre. rewrite wrap64_small by (unfold is_usize; lia).
    split; [apply run_inv_join; [done|lia|done]|]. cbn [con_length]. split; [lia|done].
  - wp_step. eapply wp_intro; [apply (write_run_eq s (pc_disk s) dn r pre); [done|done|done|lia|done|lia]|].
    wp_step. exists dn. pose proof (proj1 (proj2 Hrun)) as Hb. rewrite wrap64_small by (unfold is_usize; lia).
    split; [|split; [done|done]]. destruct (run_inv_new dn r pre id Hrun ltac:(lia)) as (H1 & H2 & H3).
    rewrite <-(proj1 Hrun) in H1, H2. by split_and!.
Qed.

(** Writing a page back, with runs joined, is writing its sectors one by one. *)
Lemma write_back_eq s self ids :
  disk_wf (pc_disk s) → ids_ok (pc_disk s) ids → length (page_ptr self) = 4096%nat → (length ids ≤ 8)%nat →
  write_back self ids s = Ok (tt, with_disk s (write_sectors (pc_disk s) ids (page_ptr self))).
Proof.
  intros Hd Hok Hl H8. destruct ids as [|i ids']; [by destruct s|]. set (ids := i :: ids') in *.
  assert (wp (write_back self ids) (fun _ s' => s' = with_disk s (write_sectors (pc_disk s) ids (page_ptr self))) s) as Hwp.
  { change (write_back self ids) with (r ← st_fold (write_back_step (page_ptr self)) (mkRun usize_MAX 0 0) ids;
      write_run (page_ptr self) r). wp_step. eapply wp_mono; [by apply wp_write_loop|]. intros r s' (pre & Hrun & Hc & ->).
    assert (0 < con_length r) as Hpos.
    { destruct (decide (con_length r = 0)) as [H0|]; [|lia]. by apply (proj2 (proj2 Hrun)) in H0. }
    eapply wp_intro; [by apply (write_run_eq s (pc_disk s) ids r pre)|done]. }
  apply wp_elim in Hwp as ([] & s' & Heq & ->). done.
Qed.

(** ** The pages of a file *)

Section Pages.
Context (neighbor : Z → list Z) (npages : Z) (R : gset Z).

(** The sectors of the pages of a file: one to eight each, all different. *)
Record neighbor_ok (size : Z) : Prop := {
  nb_range id : 0 ≤ id < npages → Forall (fun b => 0 ≤ b < size) (neighbor id);
  nb_nodup id : 0 ≤ id < npages → NoDup (neighbor id);
  nb_len id : 0 ≤ id < npages → (0 < length (neighbor id) ≤ 8)%nat;
  nb_disj id1 id2 b : 0 ≤ id1 < npages → 0 ≤ id2 < npages → b ∈ neighbor id1 → b ∈ neighbor id2 → id1 = id2;
}.

Definition nbytes (id : Z) : nat := (512 * length (neighbor id))%nat.

Definition cached (s : PcmState) (id : Z) (pc : PageCache) : Prop :=
  0 ≤ id ∧ pcm_pool s !! Z.to_nat id = Some (Some pc).

(** The kernel's mapping says that the page has not been written. *)
Definition clean (s : PcmState) (pc : PageCache) : Prop :=
  ∃ bits, kernel_pte (pcm_sys s) (tracker_ppn pc) = Some bits ∧ is_dirty bits = false.

Record page_ok (s : PcmState) (id : Z) (pc : PageCache) : Prop := {
  pk_id : id < npages;
  pk_len : length (page_ptr pc) = 4096%nat;
  pk_prio : 0 ≤ pc_priority pc ≤ 1;
  pk_frame : tracker_ppn pc ∈ R ∧ tracker_ppn pc ∉ sfa_free (pc_fa (pcm_sys s));
  pk_clean : clean s pc → take (nbytes id) (page_ptr pc) = sectors (pc_disk (pcm_sys s)) (neighbor id);
}.

Record pcm_inv (s : PcmState) : Prop := {
  pi_disk : disk_wf (pc_disk (pcm_sys s));
  pi_nb : neighbor_ok (d_size (pc_disk (pcm_sys s)));
  pi_fa : sfa_inv R (pc_fa (pcm_sys s));
  pi_nodup : NoDup (allocated_cache s);
  pi_alloc id : id ∈ allocated_cache s ↔ ∃ pc, cached s id pc;
  pi_page id pc : cached s id pc → page_ok s id pc;
  pi_frames id1 id2 pc1 pc2 : cached s id1 pc1 → cached s id2 pc2 →
    tracker_ppn pc1 = tracker_ppn pc2 → id1 = id2;
}.

(** Free frames and frames that hold pages of the file. *)
Definition budget (s : PcmState) : nat := size (sfa_free (pc_fa (pcm_sys s))) + length (allocated_cache s).

(** No page is in use outside the cache. *)
Definition unshared (s : PcmState) : Prop :=
  ∀ id pc, cached s id pc → pc_shared pc = false ∧ tracker_shared pc = false.

(** The content of a page of the file, through the cache. *)
Definition pview (s : PcmState) (id : Z) : list Z :=
  match pcm_pool s !! Z.to_nat id with
  | Some (Some pc) => take (nbytes id) (page_ptr pc)
  | _ => sectors (pc_disk (pcm_sys s)) (neighbor id)
  end.

Lemma nbytes_le s id : pcm_inv s → 0 ≤ id < npages → (nbytes id ≤ 4096)%nat.
Proof. intros Hi Hid. pose proof (nb_len _ (pi_nb s Hi) id Hid). unfold nbytes. lia. Qed.

Lemma cached_inj s id pc1 pc2 : cached s id pc1 → cached s id pc2 → pc1 = pc2.
Proof. intros [_ H1] [_ H2]. congruence. Qed.

Lemma pview_cached s id pc : cached s id pc → pview s id = take (nbytes id) (page_ptr pc).
Proof. intros [_ H]. unfold pview. by rewrite H. Qed.

Lemma pview_uncached s id :
  0 ≤ id → (∀ pc, ¬ cached s id pc) → pview s id = sectors (pc_disk (pcm_sys s)) (neighbor id).
Proof.
  intros Hid Hn. unfold pview. destruct (pcm_pool s !! Z.to_nat id) as [[pc|]|] eqn:E; [|done|done].
  by destruct (Hn pc).
Qed.

(** Replacing the page of slot [id] by one with the same frame. *)
Definition set_page (s : PcmState) (id : Z) (pc : PageCache) : PcmState :=
  mkPcmState (<[Z.to_nat id := Some pc]> (pcm_pool s)) (allocated_cache s) (pcm_sys s).

Lemma cached_set_page s id pc pc' id2 pc2 :
  cached s id pc → cached (set_page s id pc') id2 pc2 ↔ (id2 = id ∧ pc2 = pc') ∨ (id2 ≠ id ∧ cached s id2 pc2).
Proof.
  intros [Hid H]. pose proof (lookup_lt_Some _ _ _ H) as Hlt. unfold cached. cbn [set_page pcm_pool].
  rewrite list_lookup_insert_Some. split.
  - intros [Hid2 [(He & [= ->] & _)|(Hne & Hlk)]]; [left; split; [lia|done]|right; split; [congruence|done]].
  - intros [[-> ->]|[Hne [Hid2 Hlk]]]; [by split; [|left]|]. split; [done|]. right. split; [lia|done].
Qed.

Lemma page_ok_ext s s' id pc :
  pcm_sys s' = pcm_sys s → page_ok s id pc → page_ok s' id pc.
Proof. intros Hsys []. unfold clean in *. split; unfold clean; rewrite ?Hsys; done. Qed.

Lemma pcm_inv_ext s s' :
  (∀ id pc, cached s' id pc ↔ cached s id pc) → allocated_cache s' = allocated_cache s → pcm_sys s' = pcm_sys s →
  pcm_inv s → pcm_inv s'.
Proof.
  intros Hc Ha Hs Hi. split; rewrite ?Ha, ?Hs; try apply Hi.
  - intros id. rewrite (pi_alloc s Hi). by setoid_rewrite Hc.
  - intros id pc Hid%Hc. eapply page_ok_ext; [done|by apply Hi].
  - intros id1 id2 pc1 pc2 H1%Hc H2%Hc. by apply (pi_frames s Hi).
Qed.

Lemma pview_ext s s' id :
  (∀ pc, cached s' id pc ↔ cached s id pc) → pcm_sys s' = pcm_sys s → 0 ≤ id → pview s' id = pview s id.
Proof.
  intros Hc Hs Hid. destruct (pcm_pool s !! Z.to_nat id) as [[pc|]|] eqn:E.
  - assert (cached s id pc) as H by done. rewrite (pview_cached s id pc H).
    apply pview_cached. by apply Hc.
  - rewrite !pview_uncached; [by rewrite Hs|done| |done|]; intros pc H; [|apply Hc in H]; destruct H; congruence.
  - rewrite !pview_uncached; [by rewrite Hs|done| |done|]; intros pc H; [|apply Hc in H]; destruct H; congruence.
Qed.

Lemma set_page_inv s id pc pc' :
  pcm_inv s → cached s id pc → tracker_ppn pc' = tracker_ppn pc → length (page_ptr pc') = 4096%nat →
  0 ≤ pc_priority pc' ≤ 1 →
  (clean s pc → take (nbytes id) (page_ptr pc') = sectors (pc_disk (pcm_sys s)) (neighbor id)) →
  pcm_inv (set_page s id pc') ∧ cached (set_page s id pc') id pc' ∧
  (∀ j, 0 ≤ j → pview (set_page s id pc') j = if j =? id then take (nbytes id) (page_ptr pc') else pview s j).
Proof.
  intros Hi Hc Hp Hl Hpr Hcl. pose proof (cached_set_page s id pc pc') as Hcs.
  assert (cached (set_page s id pc') id pc') as Hc' by (apply Hcs; auto).
  split_and!; [|done..|].
  - split; cbn [set_page pcm_sys allocated_cache]; try apply Hi.
    + intros j. rewrite (pi_alloc s Hi j). split.
      * intros [q Hq]. destruct (decide (j = id)) as [-> |]; [by exists pc'|]. exists q. apply Hcs; auto.
      * intros [q [[-> ->]|[_ Hq]]%Hcs]; [by exists pc|by exists q|done].
    + intros j q [[-> ->]|[_ Hq]]%Hcs; [|by eapply page_ok_ext; [|apply Hi]|done].
      destruct (pi_page s Hi id pc Hc). unfold clean in *. by split; unfold clean; cbn [set_page pcm_sys]; rewrite ?Hp.
    + intros j1 j2 q1 q2 H1%Hcs H2%Hcs; [|done..].
      destruct H1 as [[-> ->]|[_ H1]], H2 as [[-> ->]|[_ H2]]; rewrite ?Hp; intros Heq; [done| | |].
      * by apply (pi_frames s Hi id j2 pc q2).
      * by apply (pi_frames s Hi j1 id q1 pc).
      * by apply (pi_frames s Hi j1 j2 q1 q2).
  - intros j Hj. destruct (Z.eqb_spec j id) as [-> |Hne]; [by rewrite (pview_cached _ _ _ Hc')|].
    apply pview_ext; [|done|done]. intros q. rewrite Hcs by done. naive_solver.
Qed.

Lemma unshared_set_page s id pc pc' :
  unshared s → cached s id pc → pc_shared pc' = pc_shared pc → tracker_shared pc' = tracker_shared pc → unshared (set_page s id pc').
Proof.
  intros Hu Hc H1 H2 j q Hq. apply (cached_set_page s id pc pc' j q Hc) in Hq as [[-> ->]|[_ Hq]]; [|by apply (Hu j)].
  rewrite H1, H2. by apply (Hu id).
Qed.

Lemma pc_bump_prio pc : 0 ≤ pc_priority pc ≤ 1 → 0 ≤ pc_priority (pc_bump pc) ≤ 1.
Proof.
  intros Hp. unfold pc_bump, PRIORITY_UPPERBOUND. cbn [pc_priority]. destruct (Z.ltb_spec (pc_priority pc) 1); [|lia].
  rewrite wrap64_small by (unfold is_usize; lia). lia.
Qed.

(** The pool grown to hold a slot. *)
Lemma grown_cached s n id pc :
  cached (mkPcmState (pcm_pool s ++ replicate n None) (allocated_cache s) (pcm_sys s)) id pc ↔ cached s id pc.
Proof.
  unfold cached. cbn [pcm_pool]. split; intros [Hid H]; (split; [done|]).
  - apply lookup_app_Some in H as [H|[_ H]]; [done|]. by apply lookup_replicate in H as [? _].
  - by apply lookup_app_l_Some.
Qed.

(** *** A page is read in *)

Definition fresh_page (s : PcmState) (id p : Z) : PageCache :=
  mkPageCache 0 (sectors (pc_disk (pcm_sys s)) (neighbor id) ++ replicate (4096 - nbytes id) 0) p false false.

Lemma fresh_page_len s id p : pcm_inv s → 0 ≤ id < npages → length (page_ptr (fresh_page s id p)) = 4096%nat.
Proof.
  intros Hi Hid. cbn [fresh_page page_ptr]. rewrite length_app, length_replicate, sectors_length.
  - pose proof (nbytes_le s id Hi Hid). unfold nbytes in *. lia.
  - apply Hi.
  - by apply (nb_range _ (pi_nb s Hi)).
Qed.

Lemma fresh_page_take s id p : pcm_inv s → 0 ≤ id < npages →
  take (nbytes id) (page_ptr (fresh_page s id p)) = sectors (pc_disk (pcm_sys s)) (neighbor id).
Proof.
  intros Hi Hid. cbn [fresh_page page_ptr]. apply take_app_length'. rewrite sectors_length; [done|apply Hi|].
  by apply (nb_range _ (pi_nb s Hi)).
Qed.

(** The state after the miss in [get_cache]: a page in frame [p]. *)
Definition loaded (s : PcmState) (id p : Z) (fa : StackFrameAllocator) (s' : PcmState) : Prop :=
  (∀ j pc, cached s' j pc ↔ j = id ∧ pc = fresh_page s id p ∨ j ≠ id ∧ cached s j pc) ∧
  allocated_cache s' = allocated_cache s ++ [id] ∧
  pc_disk (pcm_sys s') = pc_disk (pcm_sys s) ∧ pc_fa (pcm_sys s') = fa ∧
  (∀ v, v ≠ p → kernel_pte (pcm_sys s') v = kernel_pte (pcm_sys s) v).

Lemma loaded_inv s id p fa s' :
  pcm_inv s → 0 ≤ id < npages → (∀ pc, ¬ cached s id pc) → loaded s id p fa s' →
  p ∈ sfa_free (pc_fa (pcm_sys s)) → sfa_free fa = sfa_free (pc_fa (pcm_sys s)) ∖ {[p]} → sfa_inv R fa → p ∈ R →
  pcm_inv s' ∧ ∀ j, 0 ≤ j → pview s' j = pview s j.
Proof.
  intros Hi Hid Hn (Hc & Ha & Hd & Hfa & Hk) Hp Hfree Hinv HpR.
  assert (∀ j pc, cached s j pc → tracker_ppn pc ≠ p) as Hpne.
  { intros j pc Hj <-. by destruct (pk_frame s j pc (pi_page s Hi j pc Hj)) as [_ []]. }
  assert (tracker_ppn (fresh_page s id p) = p) as Hfp by done.
  split; [split; rewrite ?Hd, ?Hfa; try apply Hi|].
  - done.
  - rewrite Ha. apply NoDup_app. split; [apply Hi|]. split; [|apply NoDup_singleton].
    intros j [pc Hj]%(pi_alloc s Hi) ->%list_elem_of_singleton. by apply (Hn pc).
  - intros j. rewrite Ha, elem_of_app, list_elem_of_singleton, (pi_alloc s Hi). setoid_rewrite Hc. split.
    + intros [[pc Hj]| ->]; [|by eauto]. exists pc. right. split; [|done]. intros ->. by apply (Hn pc).
    + intros [pc [[-> ->]|[_ Hj]]]; eauto.
  - intros j pc [[-> ->]|[Hne Hj]]%Hc.
    + split; [lia|by apply fresh_page_len|done| |].
      * rewrite Hfp, Hfa, Hfree. split; [done|]. set_solver.
      * intros _. rewrite Hd. by apply fresh_page_take.
    + destruct (pi_page s Hi j pc Hj) as [H1 H2 H3 [H4 H5] H6]. pose proof (Hpne j pc Hj). unfold clean in *. split; unfold clean.
      * done.
      * done.
      * done.
      * rewrite Hfa, Hfree. split; [done|]. set_solver.
      * rewrite Hk, Hd by done. done.
  - intros j1 j2 pc1 pc2 [[-> ->]|[_ H1]]%Hc [[-> ->]|[_ H2]]%Hc; rewrite ?Hfp; intros Heq; [done| | |by eapply (pi_frames s Hi)].
    + by destruct (Hpne j2 pc2 H2).
    + by destruct (Hpne j1 pc1 H1).
  - intros j Hj. destruct (decide (j = id)) as [-> |Hne].
    + rewrite (pview_cached s' id (fresh_page s id p)) by (apply Hc; auto).
      rewrite pview_uncached by done. by apply fresh_page_take.
    + destruct (pcm_pool s !! Z.to_nat j) as [[pc|]|] eqn:E.
      { assert (cached s j pc) as H by done. rewrite (pview_cached s j pc H). apply pview_cached, Hc. auto. }
      all: rewrite !pview_uncached; [by rewrite Hd|done| |done|];
        intros pc H; [destruct H; congruence|apply Hc in H as [[-> _]|[_ [_ H]]]; congruence].
Qed.

(** *** [get_cache] *)

Lemma wp_pcm_lift {A} (m : ST PcSys A) Q s :
  wp m (fun a y => Q a (mkPcmState (pcm_pool s) (allocated_cache s) y)) (pcm_sys s) → wp (pcm_lift m) Q s.
Proof. unfold wp, pcm_lift, mbind, outcome_bind. by destruct (m (pcm_sys s)) as [[a y]| |]. Qed.

Lemma unallocated_size a : sfa_inv R a → unallocated_frames a = Z.of_nat (size (sfa_free a)).
Proof. intros (l & Hwf & _). by eapply unallocated_frames_size. Qed.

(** A frame for a new page. *)
Lemma wp_PageCache_new tree_oom y :
  sfa_inv R (pc_fa y) → sfa_free (pc_fa y) ≠ ∅ →
  wp (PageCache_new tree_oom) (fun pc y' => ∃ p fa, pc = mkPageCache 0 (replicate 4096 0) p false false ∧
    y' = mkPcSys (pc_disk y) fa (kernel_pte y) ∧ p ∈ R ∧ p ∈ sfa_free (pc_fa y) ∧
    sfa_free fa = sfa_free (pc_fa y) ∖ {[p]} ∧ sfa_inv R fa) y.
Proof.
  intros Hinv Hne. unfold PageCache_new. wp_step. unfold fa_alloc_sys at 1.
  destruct (sfa_alloc (pc_fa y)) as [[p|] fa] eqn:E; cycle 1.
  { by destruct (fa_alloc_None (FrameAllocatorSpec := StackFrameAllocator_spec) R _ _ Hinv E). }
  destruct (fa_alloc_Some (FrameAllocatorSpec := StackFrameAllocator_spec) R _ _ _ Hinv E) as (Hp & Hf & Hi).
  eapply wp_intro; [by rewrite E|]. repeat wp_step. exists p, fa. split_and!; try done.
  by apply (fa_free_sub (FrameAllocatorSpec := StackFrameAllocator_spec) R _ Hinv).
Qed.

Lemma wp_get_cache tree_oom s id :
  pcm_inv s → 0 ≤ id < npages → sfa_free (pc_fa (pcm_sys s)) ≠ ∅ →
  wp (get_cache tree_oom id (neighbor id)) (fun r s' => r = id ∧ pcm_inv s' ∧
    (∀ j, 0 ≤ j → pview s' j = pview s j) ∧
    budget s' = budget s ∧ (unshared s → unshared s') ∧ (size (sfa_free (pc_fa (pcm_sys s))) ≤ S (size (sfa_free (pc_fa (pcm_sys s')))))%nat ∧
    pc_disk (pcm_sys s') = pc_disk (pcm_sys s) ∧
    ∃ pc, cached s' id pc) s.
Proof.
  intros Hi Hid Hne. assert (size (sfa_free (pc_fa (pcm_sys s))) ≠ 0)%nat as Hsz 
    by (intros H0; by apply size_empty_inv, leibniz_equiv in H0).
  unfold get_cache. wp_step. wp_step. rewrite (unallocated_size _ (pi_fa s Hi)).
  wp_step. rewrite (proj2 (Z.ltb_ge _ _)) by lia. repeat wp_step.
  set (pool := pcm_pool s ++ _). unfold put_pool. do 2 wp_step.
  set (s1 := mkPcmState pool (allocated_cache s) (pcm_sys s)).
  assert (∀ j pc, cached s1 j pc ↔ cached s j pc) as Hc1 by (intros j pc; apply grown_cached).
  assert (pcm_inv s1) as Hi1 by (by apply (pcm_inv_ext s s1 Hc1)).
  assert (∀ j, 0 ≤ j → pview s1 j = pview s j) as Hv1 by (intros j Hj; by apply pview_ext).
  assert (Z.to_nat id < length pool)%nat as Hlt.
  { subst pool. rewrite length_app, length_replicate. lia. }
  destruct (lookup_lt_is_Some_2 pool _ Hlt) as [o Ho]. eapply wp_unwrap; [exact Ho|].
  (* the end of the function, for the page in the slot *)
  assert (∀ s2 pc, pcm_inv s2 → (∀ j, 0 ≤ j → pview s2 j = pview s j) → cached s2 id pc →
    budget s2 = budget s → (unshared s → unshared s2) → (size (sfa_free (pc_fa (pcm_sys s))) ≤ S (size (sfa_free (pc_fa (pcm_sys s2)))))%nat →
    pc_disk (pcm_sys s2) = pc_disk (pcm_sys s) →
    pcm_inv (set_page s2 id (pc_bump pc)) ∧ (∀ j, 0 ≤ j → pview (set_page s2 id (pc_bump pc)) j = pview s j) ∧
    budget (set_page s2 id (pc_bump pc)) = budget s ∧ (unshared s → unshared (set_page s2 id (pc_bump pc))) ∧
    (size (sfa_free (pc_fa (pcm_sys s))) ≤ S (size (sfa_free (pc_fa (pcm_sys (set_page s2 id (pc_bump pc)))))))%nat ∧
    pc_disk (pcm_sys (set_page s2 id (pc_bump pc))) = pc_disk (pcm_sys s) ∧
    ∃ pc', cached (set_page s2 id (pc_bump pc)) id pc') as Hend.
  { intros s2 pc Hi2 Hv2 Hc2 Hb2 Hu2 Hs2 Hd2. pose proof (pi_page s2 Hi2 id pc Hc2) as Hok.
    destruct (set_page_inv s2 id pc (pc_bump pc)) as (Hi3 & Hc3 & Hv3); try done; [apply Hok|by apply pc_bump_prio, Hok|apply Hok|].
    split_and!; [done| |done|by intros Hu; apply (unshared_set_page s2 id pc); [apply Hu2|..]|done|done|by exists (pc_bump pc)].
    intros j Hj. rewrite Hv3 by done. destruct (Z.eqb_spec j id) as [-> |]; [|by apply Hv2].
    rewrite <-Hv2 by done. by rewrite (pview_cached s2 id pc). }
  destruct o as [pc|].
  { repeat wp_step. split; [done|]. apply (Hend s1 pc); [done|done|by split; [lia|]|done| | |done].
    - intros Hu j q Hq. apply (Hu j). by apply Hc1.
    - cbn [s1 pcm_sys]. lia. }
  wp_step. wp_step. apply wp_pcm_lift. eapply wp_mono; [apply wp_PageCache_new; [apply Hi|done]|].
  intros pc0 y (p & fa & -> & -> & HpR & Hp & Hfree & Hinv). wp_step. apply wp_pcm_lift.
  eapply wp_mono; [apply wp_read_in; cbn [pc_disk page_ptr]|].
  { apply Hi. } { by apply (nb_range _ (pi_nb s Hi)). }
  { pose proof (nb_len _ (pi_nb s Hi) id Hid). by destruct (neighbor id); [simpl in *; lia|]. }
  { apply length_replicate. } { apply (nb_len _ (pi_nb s Hi) id Hid). }
  intros pc1 y1 [-> Hy1]. unfold clear_kernel_dirty, modify in Hy1. injection Hy1 as <-.
  cbn [pc_disk tracker_ppn pc_priority pc_shared tracker_shared pc_fa kernel_pte].
  unfold put_allocated. repeat wp_step. split; [done|].
  match goal with |- context [mkPcmState (<[Z.to_nat id:=Some (pc_bump ?q)]> ?pl) ?al ?sy] =>
    change (mkPcmState (<[Z.to_nat id:=Some (pc_bump q)]> pl) al sy) with (set_page (mkPcmState pl al sy) id (pc_bump q));
    set (s2 := mkPcmState pl al sy); change q with (fresh_page s id p) end.
  assert (∀ pc, ¬ cached s id pc) as Hmiss.
  { intros pc H. apply Hc1 in H as [_ H]. cbn [s1 pcm_pool] in H. congruence. }
  assert (loaded s id p fa s2) as Hl.
  { unfold loaded. split; [|split; [done|split; [done|split; [done|]]]].
    - intros j pc. subst s2. unfold cached at 1. cbn [pcm_pool]. rewrite list_lookup_insert_Some. split.
      + intros [Hj [(He & [= <-] & _)|(Hne' & H)]]; [left; split; [lia|done]|right].
        split; [congruence|]. apply Hc1. by split.
      + intros [[-> ->]|[Hne' [Hj H]%Hc1]]; [split; [lia|]; by left|]. split; [done|]. right. split; [lia|done].
    - intros v Hv. cbn [s2 pcm_sys kernel_pte]. by rewrite (proj2 (Z.eqb_neq _ _)). }
  destruct (loaded_inv s id p fa s2 Hi Hid Hmiss Hl Hp Hfree Hinv HpR) as [Hi2 Hv2].
  assert (size (sfa_free fa) = size (sfa_free (pc_fa (pcm_sys s))) - 1)%nat as Hszf.
  { rewrite Hfree, size_difference by set_solver. by rewrite size_singleton. }
  apply (Hend s2 (fresh_page s id p)); [done|done|apply Hl; auto| | | |done].
  2:{ intros Hu j q Hq. destruct Hl as (Hl & _). apply Hl in Hq as [[_ ->]|[_ Hq]]; [done|]. by apply (Hu j). }
  - unfold budget. change (pc_fa (pcm_sys s2)) with fa. destruct Hl as (_ & -> & _). rewrite length_app, Hszf. cbn [length]. lia.
  - change (pc_fa (pcm_sys s2)) with fa. change (pcm_sys s1) with (pcm_sys s). lia.
Qed.

(** *** [oom] *)

Definition with_alloc (s : PcmState) (l : list Z) : PcmState := mkPcmState (pcm_pool s) l (pcm_sys s).

(** The state after page [id] has been dropped. *)
Record dropped_page (s : PcmState) (id : Z) (pc : PageCache) (s' : PcmState) : Prop := {
  dp_cached j q : cached s' j q ↔ j ≠ id ∧ cached s j q;
  dp_alloc j : j ∈ allocated_cache s' ↔ j ≠ id ∧ j ∈ allocated_cache s;
  dp_nodup : NoDup (allocated_cache s');
  dp_wf : disk_wf (pc_disk (pcm_sys s'));
  dp_size : d_size (pc_disk (pcm_sys s')) = d_size (pc_disk (pcm_sys s));
  dp_self : sectors (pc_disk (pcm_sys s')) (neighbor id) = take (nbytes id) (page_ptr pc);
  dp_other j : 0 ≤ j < npages → j ≠ id →
    sectors (pc_disk (pcm_sys s')) (neighbor j) = sectors (pc_disk (pcm_sys s)) (neighbor j);
  dp_fa : sfa_inv R (pc_fa (pcm_sys s')) ∧
    sfa_free (pc_fa (pcm_sys s')) = {[tracker_ppn pc]} ∪ sfa_free (pc_fa (pcm_sys s));
  dp_pte : kernel_pte (pcm_sys s') = kernel_pte (pcm_sys s);
}.

Lemma dropped_page_inv s id pc s' :
  pcm_inv s → cached s id pc → dropped_page s id pc s' →
  pcm_inv s' ∧ ∀ j, 0 ≤ j < npages → pview s' j = pview s j.
Proof.
  intros Hi Hc [Hcd Ha Hnd Hwf Hsz Hself Hoth [Hfa Hfree] Hpte]. split.
  - split; try done.
    + rewrite Hsz. apply Hi.
    + intros j. rewrite Ha, (pi_alloc s Hi). setoid_rewrite Hcd. naive_solver.
    + intros j q [Hne Hj]%Hcd. destruct (pi_page s Hi j q Hj) as [H1 H2 H3 [H4 H5] H6].
      assert (tracker_ppn q ≠ tracker_ppn pc) by (intros Heq; by apply Hne, (pi_frames s Hi j id q pc)).
      unfold clean in *. split; unfold clean; [done|done|done| |].
      * rewrite Hfree. split; [done|]. set_solver.
      * rewrite Hpte. rewrite Hoth by (destruct Hj; lia || done). done.
    + intros j1 j2 q1 q2 [_ H1]%Hcd [_ H2]%Hcd. by apply (pi_frames s Hi).
  - intros j Hj. destruct (decide (j = id)) as [-> |Hne].
    + rewrite (pview_cached s id pc Hc), pview_uncached; [done|lia|]. intros q [? _]%Hcd. done.
    + destruct (pcm_pool s !! Z.to_nat j) as [[q|]|] eqn:E.
      { assert (cached s j q) as H by (by split; [lia|]). rewrite (pview_cached s j q H). apply pview_cached, Hcd. auto. }
      all: rewrite !pview_uncached; [by apply Hoth|lia| |lia|];
        intros q H; [destruct H; congruence|apply Hcd in H as [_ [_ H]]; congruence].
Qed.

(** [sync] leaves the sectors of the page with its content. *)
Lemma wp_sync s id pc :
  pcm_inv s → cached s id pc →
  wp (sync pc (neighbor id)) (fun _ y => pc_fa y = pc_fa (pcm_sys s) ∧ kernel_pte y = kernel_pte (pcm_sys s) ∧
    disk_wf (pc_disk y) ∧ d_size (pc_disk y) = d_size (pc_disk (pcm_sys s)) ∧
    sectors (pc_disk y) (neighbor id) = take (nbytes id) (page_ptr pc) ∧
    (∀ j, 0 ≤ j < npages → j ≠ id → sectors (pc_disk y) (neighbor j) = sectors (pc_disk (pcm_sys s)) (neighbor j)) ∧
    ∀ b, b ∉ neighbor id → d_data (pc_disk y) b = d_data (pc_disk (pcm_sys s)) b) (pcm_sys s).
Proof.
  intros Hi Hc. pose proof (pi_page s Hi id pc Hc) as [H1 H2 H3 [H4 H5] H6].
  assert (0 ≤ id < npages) as Hid by (destruct Hc; lia). pose proof (nb_len _ (pi_nb s Hi) id Hid) as Hlen.
  assert (wp (write_back pc (neighbor id)) (fun _ y => pc_fa y = pc_fa (pcm_sys s) ∧ kernel_pte y = kernel_pte (pcm_sys s) ∧
    disk_wf (pc_disk y) ∧ d_size (pc_disk y) = d_size (pc_disk (pcm_sys s)) ∧
    sectors (pc_disk y) (neighbor id) = take (nbytes id) (page_ptr pc) ∧
    (∀ j, 0 ≤ j < npages → j ≠ id → sectors (pc_disk y) (neighbor j) = sectors (pc_disk (pcm_sys s)) (neighbor j)) ∧
    ∀ b, b ∉ neighbor id → d_data (pc_disk y) b = d_data (pc_disk (pcm_sys s)) b) (pcm_sys s)) as Hwb.
  { eapply wp_intro; [apply write_back_eq; [apply Hi|by apply (nb_range _ (pi_nb s Hi))|done|lia]|].
    cbn [with_disk pc_fa kernel_pte pc_disk]. rewrite write_sectors_size. split_and!; try done.
    - apply write_sectors_wf; [apply Hi|lia].
    - apply sectors_write_sectors; [by apply (nb_nodup _ (pi_nb s Hi))|lia].
    - intros j Hj Hne. apply sectors_ext. intros b Hb. apply write_sectors_other. intros Hb'.
      by apply Hne, (nb_disj _ (pi_nb s Hi) j id b).
    - intros b Hb. by apply write_sectors_other. }
  unfold sync, get_pte. repeat wp_step. destruct (kernel_pte (pcm_sys s) (tracker_ppn pc)) as [bits|] eqn:E; [|done].
  destruct (is_dirty bits) eqn:Ed; cbn [negb]; [done|]. wp_step. split_and!; try done; try apply Hi.
  symmetry. apply H6. by exists bits.
Qed.

(** Only sectors of the file are written. *)
Definition disk_frame (s s' : PcmState) : Prop :=
  d_size (pc_disk (pcm_sys s')) = d_size (pc_disk (pcm_sys s)) ∧
  ∀ b, (∀ id, 0 ≤ id < npages → b ∉ neighbor id) →
    d_data (pc_disk (pcm_sys s')) b = d_data (pc_disk (pcm_sys s)) b.

Lemma wp_pcm_oom_one s newa dropped id rest :
  pcm_inv (with_alloc s (newa ++ id :: rest)) →
  wp (pcm_oom_one neighbor (newa, dropped) id) (fun a s' => allocated_cache s' = allocated_cache s ∧
    pcm_inv (with_alloc s' (a.1 ++ rest)) ∧ (∀ j, 0 ≤ j < npages → pview s' j = pview s j) ∧
    budget (with_alloc s' (a.1 ++ rest)) = budget (with_alloc s (newa ++ id :: rest)) ∧
    sfa_free (pc_fa (pcm_sys s)) ⊆ sfa_free (pc_fa (pcm_sys s')) ∧ disk_frame s s') s.
Proof.
  intros Hi. set (s0 := with_alloc s (newa ++ id :: rest)) in *.
  assert (id ∈ allocated_cache s0) as Hin by (cbn; set_solver). apply (pi_alloc s0 Hi) in Hin as [pc Hc].
  pose proof (pi_page s0 Hi id pc Hc) as Hok. assert (pcm_pool s !! Z.to_nat id = Some (Some pc)) as Hlk by apply Hc.
  unfold pcm_oom_one. do 3 wp_step. eapply wp_unwrap; [exact Hlk|]. wp_step. wp_step; [done|].
  assert (pcm_inv (with_alloc s (vec_push newa id ++ rest))) as Hi'.
  { unfold vec_push. by rewrite <-app_assoc. }
  assert (budget (with_alloc s (vec_push newa id ++ rest)) = budget s0) as Hb0 by (unfold vec_push; by rewrite <-app_assoc).
  destruct (pc_shared pc); [by wp_step|]. destruct (tracker_shared pc) eqn:Ets; [by wp_step|].
  destruct (Z.ltb_spec 0 (pc_priority pc)) as [Hpos|Hz].
  { unfold put_pool. repeat wp_step. split; [done|]. cbn [fst].
    set (pc' := mkPageCache _ _ _ _ _). change (with_alloc _ _) with (set_page (with_alloc s (vec_push newa id ++ rest)) id pc').
    destruct (set_page_inv (with_alloc s (vec_push newa id ++ rest)) id pc pc') as (Hi2 & _ & Hv2); try done.
    { apply Hok. } { pose proof (pk_prio _ _ _ Hok). subst pc'. cbn [pc_priority].
      rewrite wrap64_small by (unfold is_usize; lia). lia. } { apply Hok. }
    split; [done|]. split; [|split; [exact Hb0|done]]. intros j Hj. specialize (Hv2 j ltac:(lia)).
    change (pview (set_page (with_alloc s (vec_push newa id ++ rest)) id pc') j) with
      (pview (mkPcmState (<[Z.to_nat id:=Some pc']> (pcm_pool s)) (allocated_cache s) (pcm_sys s)) j) in Hv2.
    rewrite Hv2. destruct (Z.eqb_spec j id) as [He|]; [|done]. rewrite He. symmetry. by apply (pview_cached s0 id pc Hc). }
  wp_step. apply wp_pcm_lift. eapply wp_mono; [apply (wp_sync s0 id pc Hi Hc)|].
  intros [] y (Hfa & Hpte & Hwf & Hsz & Hself & Hoth & Hframe). unfold put_pool. repeat wp_step. unfold drop_page. rewrite Ets.
  destruct (pk_frame _ _ _ Hok) as [HpR Hpf].
  destruct (fa_dealloc_ok (FrameAllocatorSpec := StackFrameAllocator_spec) R _ _ (pi_fa s0 Hi) HpR Hpf) as (fa' & Hde & Hfree & Hinv).
  change (sfa_dealloc (pc_fa (pcm_sys s0)) (tracker_ppn pc) = Ok fa') in Hde. rewrite <-Hfa in Hde.
  eapply wp_intro; [cbn [pcm_sys]; by rewrite Hde|]. wp_step. split; [done|]. cbn [fst].
  set (s' := mkPcmState _ _ _).
  assert (dropped_page s0 id pc (with_alloc s' (newa ++ rest))) as Hdp.
  { pose proof (pi_nodup s0 Hi) as Hnd. cbn [s0 with_alloc allocated_cache] in Hnd.
    split; cbn [with_alloc s' s0 pcm_pool allocated_cache pcm_sys pc_disk pc_fa kernel_pte]; try done.
    - intros j q. unfold cached. cbn [with_alloc s' s0 pcm_pool]. rewrite list_lookup_insert_Some. split.
      + intros [Hj [(_ & ? & _)|[Hne H]]]; [done|]. split; [congruence|done].
      + intros [Hne [Hj H]]. split; [done|]. right. destruct Hc. split; [lia|done].
    - intros j. rewrite !elem_of_app, elem_of_cons. apply NoDup_app in Hnd as (_ & H1 & H2).
      apply NoDup_cons in H2 as [H2 _]. split; [|naive_solver]. intros [Hj|Hj]; (split; [|auto]); intros ->.
      + apply (H1 id Hj). set_solver.
      + done.
    - eapply (sublist_NoDup _ (newa ++ id :: rest)); [done|]. apply sublist_app; [done|]. by apply sublist_cons. }
  destruct (dropped_page_inv s0 id pc _ Hi Hc Hdp) as [Hi2 Hv2]. split; [done|]. split; [exact Hv2|].
  cbn [s' pcm_sys pc_fa]. change (sfa_free fa' = {[tracker_ppn pc]} ∪ sfa_free (pc_fa (pcm_sys s))) in Hfree.
  split.
  { unfold budget. cbn [with_alloc s' s0 pcm_sys pc_fa allocated_cache]. rewrite Hfree, size_union, size_singleton, !length_app by set_solver.
    cbn [length]. lia. }
  split; [rewrite Hfree; set_solver|]. split; [done|]. intros b Hb. apply Hframe, Hb.
  destruct Hc. pose proof (pk_id _ _ _ Hok). lia.
Qed.

Lemma wp_pcm_oom s :
  pcm_inv s →
  wp (PageCacheManager_oom neighbor) (fun _ s' => pcm_inv s' ∧ (∀ j, 0 ≤ j < npages → pview s' j = pview s j) ∧
    budget s' = budget s ∧
    sfa_free (pc_fa (pcm_sys s)) ⊆ sfa_free (pc_fa (pcm_sys s')) ∧ disk_frame s s') s.
Proof.
  intros Hi. unfold PageCacheManager_oom. do 3 wp_step.
  eapply wp_mono.
  { apply (wp_st_fold (pcm_oom_one neighbor) (fun dn (a : list Z * Z) s' =>
      pcm_inv (with_alloc s' (a.1 ++ drop (length dn) (allocated_cache s))) ∧
      (∀ j, 0 ≤ j < npages → pview s' j = pview s j) ∧
      budget (with_alloc s' (a.1 ++ drop (length dn) (allocated_cache s))) = budget s ∧
      sfa_free (pc_fa (pcm_sys s)) ⊆ sfa_free (pc_fa (pcm_sys s')) ∧ disk_frame s s')).
    - cbn [length fst app]. rewrite drop_0. destruct s. by split_and!.
    - intros dn id rest [newa dropped] s' Hl (Hi' & Hv' & Hb' & Hf' & Hd'). cbn [fst] in *.
      rewrite Hl, drop_app_length in Hi', Hb'. eapply wp_mono; [by apply (wp_pcm_oom_one s' newa dropped id rest)|].
      intros a s2 (_ & Hi2 & Hv2 & Hb2 & Hf2 & Hd2). rewrite length_app. cbn [length].
      replace (drop (length dn + 1) (allocated_cache s)) with rest.
      + split; [done|]. split; [intros j Hj; by rewrite Hv2, Hv'|]. split; [congruence|]. split; [by transitivity (sfa_free (pc_fa (pcm_sys s')))|].
        destruct Hd' as [Hz Hq], Hd2 as [Hz2 Hq2]. split; [congruence|]. intros b Hn. by rewrite Hq2, Hq.
      + rewrite Hl, <-drop_drop, drop_app_length. done. }
  intros [newa dropped] s' (Hi' & Hv' & Hb' & Hf' & Hd'). cbn [fst] in *. rewrite drop_all, app_nil_r in Hi', Hb'.
  unfold put_allocated. repeat wp_step. split; [done|]. split; [exact Hv'|]. by split.
Qed.

(** *** Users of the cache *)

(** [PageCache::read] and [modify] of a byte.  The store goes through the
    kernel's identity mapping, where the hardware sets the dirty bit. *)
Definition page_get (pc : PageCache) (offset : Z) : ST PcmState Z := unwrap (page_ptr pc !! Z.to_nat offset).

Definition page_set (pc : PageCache) (offset v : Z) : PageCache :=
  mkPageCache (pc_priority pc) (<[Z.to_nat offset := v]> (page_ptr pc)) (tracker_ppn pc) (pc_shared pc) (tracker_shared pc).

Definition touch (s : PcmState) (ppn : Z) : PcmState :=
  let y := pcm_sys s in
  mkPcmState (pcm_pool s) (allocated_cache s) (mkPcSys (pc_disk y) (pc_fa y) (fun v =>
    if v =? ppn then match kernel_pte y v with Some bits => Some (Z.lor bits PTE_D) | None => None end
    else kernel_pte y v)).

Inductive pc_cmd : Type :=
  | PRead (id offset : Z)
  | PWrite (id offset v : Z)
  | POom
  | PHold (id : Z) (page frame : bool).

Definition lookup_page (id : Z) : ST PcmState PageCache :=
  pool ← gets pcm_pool;
  slot ← unwrap (pool !! Z.to_nat id);
  unwrap slot.

(** [PHold] lets other holders of a page and of its frame come and go. *)
Definition exec_page (tree_oom : ST PcSys Z) (c : pc_cmd) : ST PcmState (list Z) :=
  match c with
  | PRead id offset =>
      get_cache tree_oom id (neighbor id);;
      pc ← lookup_page id;
      v ← page_get pc offset;
      mret [v]
  | PWrite id offset v =>
      get_cache tree_oom id (neighbor id);;
      pc ← lookup_page id;
      modify (fun s => set_page (touch s (tracker_ppn pc)) id (page_set pc offset v));;
      mret []
  | POom => PageCacheManager_oom neighbor;; mret []
  | PHold id b1 b2 =>
      pool ← gets pcm_pool;
      match pool !! Z.to_nat id with
      | Some (Some pc) =>
          modify (fun s => set_page s id (mkPageCache (pc_priority pc) (page_ptr pc) (tracker_ppn pc) b1 b2));; mret []
      | _ => mret []
      end
  end.

(** The same commands on the content of the file, page by page. *)
Definition exec_file (c : pc_cmd) : ST (Z → list Z) (list Z) := fun F =>
  match c with
  | PRead id offset => match F id !! Z.to_nat offset with Some v => Ok ([v], F) | None => Panic end
  | PWrite id offset v => Ok ([], fun j => if j =? id then <[Z.to_nat offset := v]> (F id) else F j)
  | POom | PHold _ _ _ => Ok ([], F)
  end.

Definition pc_cmd_ok (c : pc_cmd) : Prop :=
  match c with
  | PRead id offset | PWrite id offset _ => 0 ≤ id < npages ∧ 0 ≤ offset < Z.of_nat (nbytes id)
  | POom => True
  | PHold id _ _ => 0 ≤ id
  end.

Definition file_refines (s : PcmState) (F : Z → list Z) : Prop :=
  pcm_inv s ∧ ∀ id, 0 ≤ id < npages → pview s id = F id.

Lemma is_dirty_lor bits : is_dirty (Z.lor bits PTE_D) = true.
Proof.
  unfold is_dirty, PTE_flags, wrap8. apply negb_true_iff, Z.eqb_neq. intros H.
  assert (Z.testbit (Z.land (Z.lor bits PTE_D mod 2 ^ 8) PTE_D) 7 = true) as Ht; [|by rewrite H in Ht].
  rewrite Z.land_spec, Z.mod_pow2_bits_low, Z.lor_spec by lia. change (Z.testbit PTE_D 7) with true.
  by rewrite orb_true_r.
Qed.

Lemma clean_touch s ppn pc : clean (touch s ppn) pc → clean s pc ∧ tracker_ppn pc ≠ ppn.
Proof.
  intros (bits & Hb & Hd). cbn [touch pcm_sys kernel_pte] in Hb.
  destruct (Z.eqb_spec (tracker_ppn pc) ppn) as [He|Hne]; [|by split; [exists bits|]].
  destruct (kernel_pte _ _) as [b|]; [|done]. injection Hb as <-. by rewrite is_dirty_lor in Hd.
Qed.

Lemma touch_inv s ppn : pcm_inv s → pcm_inv (touch s ppn).
Proof.
  intros Hi. split; try apply Hi. intros id pc Hc. destruct (pi_page s Hi id pc Hc). split; try done.
  intros [Hcl _]%clean_touch. by apply pk_clean0.
Qed.

Lemma pview_length s id : pcm_inv s → 0 ≤ id < npages → length (pview s id) = nbytes id.
Proof.
  intros Hi Hid. destruct (pcm_pool s !! Z.to_nat id) as [[pc|]|] eqn:E.
  - assert (cached s id pc) as Hc by (by split; [lia|]). rewrite (pview_cached s id pc Hc), length_take.
    pose proof (pk_len _ _ _ (pi_page s Hi id pc Hc)). pose proof (nbytes_le s id Hi Hid). lia.
  - rewrite pview_uncached; [|lia|intros pc [_ H]; congruence].
    rewrite sectors_length; [done|apply Hi|by apply (nb_range _ (pi_nb s Hi))].
  - rewrite pview_uncached; [|lia|intros pc [_ H]; congruence].
    rewrite sectors_length; [done|apply Hi|by apply (nb_range _ (pi_nb s Hi))].
Qed.

Lemma wp_lookup_page s id pc Q : cached s id pc → Q pc s → wp (lookup_page id) Q s.
Proof.
  intros [_ H] HQ. unfold lookup_page. do 3 wp_step. eapply wp_unwrap; [exact H|]. by eapply wp_unwrap.
Qed.

(** Each command does through the cache what it does on the content. *)
Lemma exec_page_refines tree_oom s F c :
  file_refines s F → pc_cmd_ok c → sfa_free (pc_fa (pcm_sys s)) ≠ ∅ →
  ∃ out F' s', exec_file c F = Ok (out, F') ∧ exec_page tree_oom c s = Ok (out, s') ∧ file_refines s' F' ∧
    (size (sfa_free (pc_fa (pcm_sys s))) ≤ S (size (sfa_free (pc_fa (pcm_sys s')))))%nat.
Proof.
  intros [Hi HF] Hok Hne.
  assert (∀ out F', exec_file c F = Ok (out, F') → wp (exec_page tree_oom c) (fun o s' => o = out ∧ file_refines s' F' ∧
    (size (sfa_free (pc_fa (pcm_sys s))) ≤ S (size (sfa_free (pc_fa (pcm_sys s')))))%nat) s →
    ∃ out F' s', exec_file c F = Ok (out, F') ∧ exec_page tree_oom c s = Ok (out, s') ∧ file_refines s' F' ∧
    (size (sfa_free (pc_fa (pcm_sys s))) ≤ S (size (sfa_free (pc_fa (pcm_sys s')))))%nat) as Hfin.
  { intros out F' He Hwp. apply wp_elim in Hwp as (o & s' & Heq & -> & H1 & H2). by exists out, F', s'. }
  destruct c as [id off|id off v| |id b1 b2]; cbn [pc_cmd_ok] in Hok.
  - destruct Hok as [Hid Hoff]. destruct (lookup_lt_is_Some_2 (F id) (Z.to_nat off)) as [v Hv].
    { rewrite <-HF, pview_length by done. lia. }
    apply (Hfin [v] F); [cbn [exec_file]; by rewrite Hv|]. cbn [exec_page]. wp_step.
    eapply wp_mono; [by apply wp_get_cache|]. intros r s1 (_ & Hi1 & Hv1 & _ & _ & Hs1 & _ & pc & Hc). wp_step.
    eapply wp_lookup_page; [done|]. wp_step. unfold page_get. eapply wp_unwrap; [|wp_step].
    { rewrite <-HF, <-Hv1, (pview_cached s1 id pc Hc) in Hv by lia. apply lookup_take_Some in Hv as [Hv _]. done. }
    split; [done|]. split; [|done]. split; [done|]. intros j Hj. rewrite Hv1 by lia. by apply HF.
  - destruct Hok as [Hid Hoff]. apply (Hfin [] (fun j => if j =? id then <[Z.to_nat off := v]> (F id) else F j)); [done|].
    cbn [exec_page]. wp_step. eapply wp_mono; [by apply wp_get_cache|]. intros r s1 (_ & Hi1 & Hv1 & _ & _ & Hs1 & _ & pc & Hc). wp_step.
    eapply wp_lookup_page; [done|]. repeat wp_step. split; [done|]. split; [|done].
    pose proof (touch_inv s1 (tracker_ppn pc) Hi1) as Hi2. pose proof (pi_page s1 Hi1 id pc Hc) as Hpk.
    destruct (set_page_inv (touch s1 (tracker_ppn pc)) id pc (page_set pc off v)) as (Hi3 & _ & Hv3); try done.
    { cbn [page_set page_ptr]. rewrite length_insert. apply Hpk. } { apply Hpk. } { by intros [_ ?]%clean_touch. }
    split; [done|]. intros j Hj. rewrite Hv3 by lia. destruct (Z.eqb_spec j id) as [-> |Hne'].
    + rewrite <-HF, <-Hv1, (pview_cached s1 id pc Hc) by lia. cbn [page_set page_ptr]. rewrite <-take_insert_lt by lia. done.
    + change (pview s1 j = F j). rewrite Hv1 by lia. by apply HF.
  - apply (Hfin [] F); [done|]. cbn [exec_page]. wp_step. eapply wp_mono; [by apply wp_pcm_oom|].
    intros r s1 (Hi1 & Hv1 & _ & Hf1 & _). wp_step. split; [done|]. split; [|apply subseteq_size in Hf1; lia].
    split; [done|]. intros j Hj. rewrite Hv1 by lia. by apply HF.
  - apply (Hfin [] F); [done|]. cbn [exec_page]. do 2 wp_step.
    destruct (pcm_pool s !! Z.to_nat id) as [[pc|]|] eqn:E; [|wp_step; split_and!; [done|by split|lia]..].
    assert (cached s id pc) as Hc by (by split; [lia|]). repeat wp_step. split; [done|]. split; [|cbn [set_page pcm_sys]; lia].
    set (pc' := mkPageCache _ _ _ _ _). pose proof (pi_page s Hi id pc Hc) as Hpk.
    destruct (set_page_inv s id pc pc') as (Hi3 & _ & Hv3); try done; try apply Hpk.
    split; [done|]. intros j Hj. rewrite Hv3 by lia. destruct (Z.eqb_spec j id) as [-> |Hne']; [|by apply HF].
    rewrite <-HF by done. by rewrite (pview_cached s id pc).
Qed.

(** *** Truncation *)

Definition slot_frames (l : list (option PageCache)) : list Z := tracker_ppn <$> omap id l.

Lemma wp_pop_pages l s :
  sfa_inv R (pc_fa (pcm_sys s)) → Forall (fun o => ∀ pc, o = Some pc → pc_shared pc = false) l →
  NoDup (slot_frames l) → (∀ p, p ∈ slot_frames l → p ∈ R ∧ p ∉ sfa_free (pc_fa (pcm_sys s))) →
  wp (st_fold pop_page tt l) (fun _ s' => pcm_pool s' = pcm_pool s ∧ allocated_cache s' = allocated_cache s ∧
    pc_disk (pcm_sys s') = pc_disk (pcm_sys s) ∧ kernel_pte (pcm_sys s') = kernel_pte (pcm_sys s) ∧
    sfa_inv R (pc_fa (pcm_sys s')) ∧ sfa_free (pc_fa (pcm_sys s)) ⊆ sfa_free (pc_fa (pcm_sys s')) ∧
    (∀ p, p ∈ sfa_free (pc_fa (pcm_sys s')) → p ∈ sfa_free (pc_fa (pcm_sys s)) ∨ p ∈ slot_frames l) ∧
    (Forall (fun o => ∀ pc, o = Some pc → tracker_shared pc = false) l →
       size (sfa_free (pc_fa (pcm_sys s'))) = size (sfa_free (pc_fa (pcm_sys s))) + length (slot_frames l))%nat) s.
Proof.
  revert s. induction l as [|o l IH]; intros s Hinv Hsh Hnd Hfr; cbn [st_fold].
  { wp_step. split_and!; auto. }
  apply Forall_cons in Hsh as [Ho Hsh]. destruct o as [pc|]; cbn [pop_page]; wp_step.
  2:{ wp_step. eapply wp_mono; [by apply IH|]. intros [] s' (? & ? & ? & ? & ? & ? & Hf & Hsz).
      split_and!; try done. intros [_ Hts]%Forall_cons. by apply Hsz. }
  rewrite (Ho pc eq_refl). change (slot_frames (Some pc :: l)) with (tracker_ppn pc :: slot_frames l) in *.
  apply NoDup_cons in Hnd as [Hni Hnd]. unfold drop_page. destruct (tracker_shared pc) eqn:Ets.
  { wp_step. eapply wp_mono; [apply IH; [done|done|done|set_solver]|]. intros [] s' (? & ? & ? & ? & ? & ? & Hf & _).
    split_and!; try done; [set_solver|]. intros [Hts _]%Forall_cons. specialize (Hts pc eq_refl). congruence. }
  destruct (Hfr (tracker_ppn pc) ltac:(set_solver)) as [HpR Hpf].
  destruct (fa_dealloc_ok (FrameAllocatorSpec := StackFrameAllocator_spec) R _ _ Hinv HpR Hpf) as (fa' & Hde & Hfree & Hinv').
  change (sfa_dealloc (pc_fa (pcm_sys s)) (tracker_ppn pc) = Ok fa') in Hde.
  change (sfa_free fa' = {[tracker_ppn pc]} ∪ sfa_free (pc_fa (pcm_sys s))) in Hfree.
  eapply wp_intro; [by rewrite Hde|]. eapply wp_mono; [apply IH; cbn [pcm_sys pc_fa]; [done|done|done|]|].
  { intros p Hp. rewrite Hfree. destruct (Hfr p ltac:(set_solver)). set_solver. }
  cbn [pcm_pool allocated_cache pcm_sys pc_disk kernel_pte pc_fa].
  intros [] s' (? & ? & ? & ? & ? & Hsub & Hf & Hsz). split_and!; try done; [rewrite Hfree in Hsub; set_solver| |].
  - intros p [Hp|Hp]%Hf; [|set_solver]. rewrite Hfree in Hp. set_solver.
  - intros [_ Hts]%Forall_cons. rewrite Hsz, Hfree, size_union, size_singleton by (done || set_solver). cbn [length]. lia.
Qed.

Lemma elem_of_slot_frames l p : p ∈ slot_frames l ↔ ∃ i pc, l !! i = Some (Some pc) ∧ tracker_ppn pc = p.
Proof.
  unfold slot_frames. rewrite list_elem_of_fmap. setoid_rewrite list_elem_of_omap. split.
  - intros (pc & -> & o & [i Hi]%list_elem_of_lookup & Ho). simpl in Ho. subst o. eauto.
  - intros (i & pc & Hi & <-). exists pc. split; [done|]. exists (Some pc). split; [by eapply list_elem_of_lookup_2|done].
Qed.

Lemma slot_frames_NoDup l :
  (∀ i j pc1 pc2, l !! i = Some (Some pc1) → l !! j = Some (Some pc2) → tracker_ppn pc1 = tracker_ppn pc2 → i = j) →
  NoDup (slot_frames l).
Proof.
  induction l as [|o l IH]; intros Hd; [constructor|].
  assert (NoDup (slot_frames l)) as Hl.
  { apply IH. intros i j pc1 pc2 H1 H2 He. specialize (Hd (S i) (S j) pc1 pc2 H1 H2 He). lia. }
  destruct o as [pc|]; [|done]. change (slot_frames (Some pc :: l)) with (tracker_ppn pc :: slot_frames l).
  constructor; [|done]. intros (i & pc2 & Hi & He)%elem_of_slot_frames. by specialize (Hd 0%nat (S i) pc pc2 eq_refl Hi (eq_sym He)).
Qed.

(** The frames of the pages from [n] on, counted by the list of cached pages. *)
Lemma dropped_frames s n :
  pcm_inv s → 0 ≤ n → length (slot_frames (drop (Z.to_nat n) (pcm_pool s))) = length (filter (fun id => ¬ id < n) (allocated_cache s)).
Proof.
  intros Hi Hn. set (frame_of := fun id => match pcm_pool s !! Z.to_nat id with Some (Some pc) => tracker_ppn pc | _ => 0 end).
  assert (∀ id pc, cached s id pc → frame_of id = tracker_ppn pc) as Hfo by (intros id pc [_ H]; unfold frame_of; by rewrite H).
  rewrite <-(length_fmap frame_of (filter _ _)). apply Permutation_length, NoDup_Permutation.
  - apply slot_frames_NoDup. intros i j pc1 pc2. rewrite !lookup_drop. intros H1 H2 He.
    assert (Z.of_nat (Z.to_nat n + i) = Z.of_nat (Z.to_nat n + j)); [|lia].
    apply (pi_frames s Hi _ _ pc1 pc2); [split; [lia|by rewrite Nat2Z.id]..|done].
  - apply NoDup_fmap_2_strong; [|apply NoDup_filter, Hi]. intros i j [_ [pc1 H1]%(pi_alloc s Hi)]%list_elem_of_filter
      [_ [pc2 H2]%(pi_alloc s Hi)]%list_elem_of_filter. rewrite (Hfo i pc1), (Hfo j pc2) by done. by apply (pi_frames s Hi).
  - intros p. rewrite elem_of_slot_frames, list_elem_of_fmap. split.
    + intros (i & pc & Hip & <-). rewrite lookup_drop in Hip.
      assert (cached s (Z.of_nat (Z.to_nat n + i)) pc) as Hc by (split; [lia|by rewrite Nat2Z.id]).
      eexists. split; [symmetry; by apply Hfo|]. apply list_elem_of_filter. split; [lia|]. apply (pi_alloc s Hi). by exists pc.
    + intros (id & -> & [Hid [pc Hc]%(pi_alloc s Hi)]%list_elem_of_filter). exists (Z.to_nat id - Z.to_nat n)%nat, pc.
      rewrite lookup_drop. destruct Hc as [H0 Hc]. replace (Z.to_nat n + _)%nat with (Z.to_nat id) by lia. split; [done|].
      symmetry. by apply Hfo.
Qed.

Lemma length_filter_split (l : list Z) (n : Z) :
  length l = Nat.add (length (filter (fun id : Z => id < n) l)) (length (filter (fun id : Z => ¬ id < n) l)).
Proof.
  induction l as [|x l IH]; [done|]. rewrite !filter_cons. destruct (decide (x < n)), (decide (¬ x < n)); cbn [length]; lia.
Qed.

Lemma wp_notify_new_size s new_size :
  pcm_inv s → 0 ≤ new_size < 2 ^ 63 →
  (∀ id pc, cached s id pc → new_size ≤ id * 4096 → pc_shared pc = false) →
  wp (notify_new_size new_size) (fun _ s' => pcm_inv s' ∧
    (∀ id, 0 ≤ id < npages → pview s' id = if id * 4096 <? new_size then pview s id
                                            else sectors (pc_disk (pcm_sys s)) (neighbor id)) ∧
    (∀ id pc, cached s' id pc → cached s id pc ∧ id * 4096 < new_size) ∧
    pc_disk (pcm_sys s') = pc_disk (pcm_sys s) ∧ sfa_free (pc_fa (pcm_sys s)) ⊆ sfa_free (pc_fa (pcm_sys s')) ∧
    ((∀ id pc, cached s id pc → new_size ≤ id * 4096 → tracker_shared pc = false) → budget s' = budget s)) s.
Proof.
  intros Hi Hn Hsh. unfold notify_new_size. do 2 wp_step.
  assert ((new_size ⊞ PAGE_SIZE ⊟ 1) / PAGE_SIZE = (new_size + 4095) / 4096) as ->.
  { unfold PAGE_SIZE. rewrite !wrap64_small by (unfold is_usize; rewrite ?wrap64_small; unfold is_usize; lia). f_equal. lia. }
  set (n := (new_size + 4095) / 4096).
  assert (∀ id, id < n ↔ id * 4096 < new_size) as Hnid.
  { intros id. pose proof (Z.div_mod (new_size + 4095) 4096 ltac:(lia)). pose proof (Z.mod_pos_bound (new_size + 4095) 4096 ltac:(lia)). lia. }
  assert (0 ≤ n) as Hn0 by (apply Z.div_pos; lia).
  assert (∀ i pc, drop (Z.to_nat n) (pcm_pool s) !! i = Some (Some pc) → cached s (n + Z.of_nat i) pc) as Hdrop.
  { intros i pc Hi'. rewrite lookup_drop in Hi'. split; [lia|]. by replace (Z.to_nat (n + Z.of_nat i)) with (Z.to_nat n + i)%nat by lia. }
  assert (slot_frames (reverse (drop (Z.to_nat n) (pcm_pool s))) ≡ₚ slot_frames (drop (Z.to_nat n) (pcm_pool s))) as Hperm.
  { unfold slot_frames. by rewrite reverse_Permutation. }
  wp_step. eapply wp_mono.
  { apply wp_pop_pages; [apply Hi| | |].
    - apply Forall_forall. intros o. rewrite elem_of_reverse. intros [i Hio]%list_elem_of_lookup pc ->. apply (Hsh (n + Z.of_nat i)); [by apply Hdrop|].
      pose proof (Hnid (n + Z.of_nat i)). lia.
    - rewrite Hperm. apply slot_frames_NoDup. intros i j pc1 pc2 H1%Hdrop H2%Hdrop He. pose proof (pi_frames s Hi _ _ _ _ H1 H2 He). lia.
    - intros p. rewrite Hperm. intros (i & pc & Hip%Hdrop & <-)%elem_of_slot_frames. by apply (pi_page s Hi _ pc Hip). }
  intros [] s1 (Hp1 & Ha1 & Hd1 & Hk1 & Hfa1 & Hsub1 & Hf1 & Hsz1). unfold put_pool, put_allocated. repeat wp_step.
  cbn [pcm_pool allocated_cache pcm_sys]. set (s' := mkPcmState _ _ _).
  assert (∀ id pc, cached s' id pc ↔ cached s id pc ∧ id < n) as Hc'.
  { intros id pc. unfold cached. cbn [s' pcm_pool]. rewrite lookup_take_Some. split; [intros [? [? ?]]|intros [[? ?] ?]]; split_and!; done || lia. }
  assert (pcm_inv s') as Hi'.
  { split; cbn [s' pcm_sys allocated_cache]; rewrite ?Hd1, ?Ha1; try apply Hi; [done| | | |].
    - apply NoDup_filter, Hi.
    - intros id. rewrite list_elem_of_filter, (pi_alloc s Hi). setoid_rewrite Hc'. naive_solver.
    - intros id pc [Hc Hlt]%Hc'. destruct (pi_page s Hi id pc Hc) as [H1 H2 H3 [H4 H5] H6]. unfold clean in *. split; unfold clean; cbn [s' pcm_sys]; rewrite ?Hk1, ?Hd1; try done.
      split; [done|]. intros [Hin|Hin]%Hf1; [done|]. rewrite Hperm in Hin. apply elem_of_slot_frames in Hin as (i & q & Hq%Hdrop & He).
      pose proof (pi_frames s Hi _ _ _ _ Hq Hc He). lia.
    - intros i1 i2 q1 q2 [H1 _]%Hc' [H2 _]%Hc'. by apply (pi_frames s Hi). }
  split; [done|]. split; [|split; [by intros id pc [? ?%Hnid]%Hc'|split; [exact Hd1|split; [exact Hsub1|]]]].
  2:{ intros Hts. unfold budget. cbn [s' pcm_sys allocated_cache]. rewrite Ha1, Hsz1, Hperm, (dropped_frames s n Hi Hn0).
      - rewrite <-Nat.add_assoc. f_equal. rewrite Nat.add_comm. symmetry. apply length_filter_split.
      - apply Forall_forall. intros o. rewrite elem_of_reverse. intros [i Hio]%list_elem_of_lookup pc ->.
        apply (Hts (n + Z.of_nat i)); [by apply Hdrop|]. pose proof (Hnid (n + Z.of_nat i)). lia. }
  intros id Hid. destruct (Z.ltb_spec (id * 4096) new_size) as [Hlt|Hge].
  - apply Hnid in Hlt. destruct (pcm_pool s !! Z.to_nat id) as [[pc|]|] eqn:E.
    { assert (cached s id pc) as H by (by split; [lia|]). rewrite (pview_cached s id pc H). apply pview_cached, Hc'. auto. }
    all: rewrite !pview_uncached; [cbn [s' pcm_sys]; by rewrite Hd1|lia| |lia|];
        intros q H; [|apply Hc' in H as [H _]]; destruct H; congruence.
  - rewrite pview_uncached; [cbn [s' pcm_sys]; by rewrite Hd1|lia|]. intros q [_ H]%Hc'. pose proof (Hnid id). lia.
Qed.
End Pages.

(** The cache of a file whose sectors are described anew, with the same
    sectors for the pages that are cached, on a disk where they are the same. *)
Lemma pcm_inv_move nb n R s nb' n' d' :
  pcm_inv nb n R s → disk_wf d' → neighbor_ok nb' n' (d_size d') →
  (∀ id pc, cached s id pc → id < n') → (∀ id, 0 ≤ id < n → id < n' → nb' id = nb id) →
  (∀ id b, 0 ≤ id < n → id < n' → b ∈ nb id → d_data d' b = d_data (pc_disk (pcm_sys s)) b) →
  let s' := mkPcmState (pcm_pool s) (allocated_cache s) (with_disk (pcm_sys s) d') in
  pcm_inv nb' n' R s' ∧ ∀ id, 0 ≤ id < n → id < n' → pview nb' s' id = pview nb s id.
Proof.
  intros Hi Hd Hnb Hlt Heq Hdata s'.
  assert (∀ id, 0 ≤ id < n → id < n' → nbytes nb' id = nbytes nb id) as Hnby
    by (intros id H1 H2; unfold nbytes; by rewrite Heq).
  assert (∀ id, 0 ≤ id < n → id < n' → sectors d' (nb' id) = sectors (pc_disk (pcm_sys s)) (nb id)) as Hsec.
  { intros id H1 H2. rewrite Heq by done. apply sectors_ext. intros b Hb. by apply (Hdata id). }
  split.
  - split; try done; try apply Hi. intros id pc Hc. destruct (pi_page _ _ _ s Hi id pc Hc) as [H1 H2 H3 H4 H5].
    pose proof (Hlt id pc Hc). assert (0 ≤ id) by apply Hc. split; try done.
    intros Hcl. cbn [s' with_disk pcm_sys pc_disk]. rewrite Hnby, Hsec by lia. by apply H5.
  - intros id H1 H2. unfold pview. cbn [s' pcm_pool pcm_sys with_disk pc_disk]. rewrite Hnby, Hsec by done. done.
Qed.

(** ** Properties *)

Lemma empty_cache_inv neighbor npages R y :
  disk_wf (pc_disk y) → neighbor_ok neighbor npages (d_size (pc_disk y)) → sfa_inv R (pc_fa y) →
  pcm_inv neighbor npages R (mkPcmState [] [] y).
Proof.
  intros Hd Hn Hf.
  assert (∀ id pc, ¬ cached (mkPcmState [] [] y) id pc) as Hc by (intros id pc [_ H]; done).
  split; try done.
  - constructor.
  - intros id. split; [by intros ?%elem_of_nil|]. by intros [pc ?%Hc].
  - by intros id pc ?%Hc.
  - by intros id1 id2 pc1 pc2 ?%Hc.
Qed.

(** Joining consecutive sectors into one transfer does not matter.
    [read_in] fills a page with its sectors, as reading them one by one would, and
    zeroes the rest of the page; [write_back] changes the disk as writing the sectors
    one by one would; and a page that is written back and read in again has its
    content. *)
Theorem page_transfers_by_sector (s : PcSys) (pc : PageCache) (ids : list Z) :
  disk_wf (pc_disk s) → ids_ok (pc_disk s) ids → NoDup ids → (0 < length ids ≤ 8)%nat → length (page_ptr pc) = 4096%nat →
  (∃ pc' s', read_in pc ids s = Ok (pc', s') ∧ pc_disk s' = pc_disk s ∧
     page_ptr pc' = (ids ≫= d_data (pc_disk s)) ++ replicate (4096 - 512 * length ids) 0) ∧
  write_back pc ids s = Ok (tt, with_disk s (write_sectors (pc_disk s) ids (page_ptr pc))) ∧
  (∃ s1 pc2 s2, write_back pc ids s = Ok (tt, s1) ∧ read_in pc ids s1 = Ok (pc2, s2) ∧
     take (512 * length ids) (page_ptr pc2) = take (512 * length ids) (page_ptr pc)).
Proof.
  intros Hd Hok Hnd Hlen Hl. assert (ids ≠ []) as Hne by (intros ->; simpl in Hlen; lia).
  pose proof (write_back_eq s pc ids Hd Hok Hl ltac:(lia)) as Hwb. split; [|split; [done|]].
  - destruct (wp_elim _ _ _ (wp_read_in s pc ids Hd Hok Hne Hl ltac:(lia))) as (pc' & s' & Heq & -> & Hs').
    unfold clear_kernel_dirty, modify in Hs'. injection Hs' as <-. by eexists _, _.
  - set (s1 := with_disk s (write_sectors (pc_disk s) ids (page_ptr pc))) in *.
    assert (disk_wf (pc_disk s1)) as Hd1 by (apply write_sectors_wf; [done|lia]).
    assert (ids_ok (pc_disk s1) ids) as Hok1 by (unfold ids_ok; cbn [s1 with_disk pc_disk]; by rewrite write_sectors_size).
    destruct (wp_elim _ _ _ (wp_read_in s1 pc ids Hd1 Hok1 Hne Hl ltac:(lia))) as (pc' & s' & Heq & -> & Hs').
    exists s1. eexists _, s'. split; [done|]. split; [done|]. cbn [page_ptr].
    rewrite take_app_length' by (by rewrite sectors_length). cbn [s1 with_disk pc_disk]. apply sectors_write_sectors; [done|lia].
Qed.

(** C8: the page cache is transparent.  From an empty cache, every
    sequence of reads and writes of bytes of the file, of [oom] calls and of changes
    of the other holders of pages and frames runs without panic, as long as there is
    a free frame for each command, gives the values that the content of the file has,
    and leaves the file, as seen through the cache, with the content that direct
    writes give.  Pages may be dropped and read again in between: a dirty page is
    written back first. *)
Theorem page_cache_transparent (neighbor : Z → list Z) (npages : Z) (R : gset Z) (tree_oom : ST PcSys Z)
    (y : PcSys) (cmds : list pc_cmd) :
  disk_wf (pc_disk y) → neighbor_ok neighbor npages (d_size (pc_disk y)) → sfa_inv R (pc_fa y) →
  Forall (pc_cmd_ok neighbor npages) cmds → Z.of_nat (length cmds) ≤ unallocated_frames (pc_fa y) →
  ∃ outs F s',
    st_fold (fun acc c => out ← exec_file c; mret (acc ++ out)) [] cmds
      (fun id => neighbor id ≫= d_data (pc_disk y)) = Ok (outs, F) ∧
    st_fold (fun acc c => out ← exec_page neighbor tree_oom c; mret (acc ++ out)) [] cmds
      (mkPcmState [] [] y) = Ok (outs, s') ∧
    pcm_inv neighbor npages R s' ∧ ∀ id, 0 ≤ id < npages → pview neighbor s' id = F id.
Proof.
  intros Hd Hn Hf Hall Hlen. rewrite (unallocated_size R _ Hf) in Hlen.
  assert (file_refines neighbor npages R (mkPcmState [] [] y) (fun id => neighbor id ≫= d_data (pc_disk y))) as Hr.
  { split; [by apply empty_cache_inv|]. intros id Hid. apply pview_uncached; [lia|]. by intros pc [_ ?]. }
  change (pc_fa y) with (pc_fa (pcm_sys (mkPcmState [] [] y))) in Hlen. revert Hr Hall Hlen.
  generalize (mkPcmState [] [] y). generalize (fun id => neighbor id ≫= d_data (pc_disk y)). generalize (@nil Z).
  clear Hd Hn Hf. induction cmds as [|c cmds IH]; intros acc F s Hr Hall Hlen.
  { exists acc, F, s. split; [done|]. split; [done|]. exact Hr. }
  apply Forall_cons in Hall as [Hc Hall]. cbn [length] in Hlen.
  destruct (exec_page_refines neighbor npages R tree_oom s F c Hr Hc) as (out & F1 & s1 & H1 & H2 & Hr1 & Hs1).
  { intros He. rewrite He, size_empty in Hlen. lia. }
  destruct (IH (acc ++ out) F1 s1 Hr1 Hall ltac:(lia)) as (outs & F' & s' & HF' & Hs' & Hi').
  exists outs, F', s'. cbn [st_fold]. unfold mbind, st_bind. by rewrite H1, H2.
Qed.

(** Truncating a file drops the pages behind its end and keeps the
    invariant of the cache: the list of allocated pages is exact, no frame is used by
    two pages or free while in use, and clean pages agree with the disk.  The pages
    that remain keep their content; frames of the dropped pages are returned. *)
Theorem page_cache_truncate neighbor npages R s new_size :
  pcm_inv neighbor npages R s → 0 ≤ new_size < 2 ^ 63 →
  (∀ id pc, cached s id pc → new_size ≤ id * 4096 → pc_shared pc = false) →
  ∃ s', notify_new_size new_size s = Ok (tt, s') ∧ pcm_inv neighbor npages R s' ∧
    ∀ id, 0 ≤ id < npages → id * 4096 < new_size → pview neighbor s' id = pview neighbor s id.
Proof.
  intros Hi Hn Hsh.
  destruct (wp_elim _ _ _ (wp_notify_new_size neighbor npages R s new_size Hi Hn Hsh)) as ([] & s' & Heq & Hi' & Hv & _).
  exists s'. split; [done|]. split; [done|]. intros id Hid Hlt. rewrite Hv by done.
  by rewrite (proj2 (Z.ltb_lt _ _)).
Qed.

(** ** Samples *)

Definition sample_neighbor (id : Z) : list Z := if id =? 0 then [4; 5; 9] else [20].

Definition sample_sys : PcSys := mkPcSys (mkDisk 64 (fun i => replicate 512 (i mod 256))) (sfa_init sfa_new 10 30) (fun _ => None).

Lemma sample_sys_disk : disk_wf (pc_disk sample_sys).
Proof. split; [done|]. intros id _. apply length_replicate. Qed.

Lemma sample_sys_fa : sfa_inv (list_to_set (seqZ 10 20)) (pc_fa sample_sys).
Proof. exists 10. split; [by apply sfa_init_wf|done]. Qed.

Lemma sample_neighbor_ok : neighbor_ok sample_neighbor 2 64.
Proof.
  assert (∀ id, 0 ≤ id < 2 → sample_neighbor id = [4; 5; 9] ∧ id = 0 ∨ sample_neighbor id = [20] ∧ id = 1) as Hs.
  { intros id Hid. assert (id = 0 ∨ id = 1) as [-> | ->] by lia; [by left|by right]. }
  split.
  - intros id [[-> _]|[-> _]]%Hs; apply Forall_forall; set_solver by lia.
  - intros id [[-> _]|[-> _]]%Hs; repeat constructor; set_solver by lia.
  - intros id [[-> _]|[-> _]]%Hs; simpl; lia.
  - intros i1 i2 b [[-> ->]|[-> ->]]%Hs [[-> ->]|[-> ->]]%Hs; try done; set_solver by lia.
Qed.

Lemma page_transfers_by_sector_witness :
  let pc := mkPageCache 0 (replicate 4096 7) 10 false false in
  (∃ pc' s', read_in pc [4; 5; 9] sample_sys = Ok (pc', s') ∧ pc_disk s' = pc_disk sample_sys ∧
     page_ptr pc' = ([4; 5; 9] ≫= d_data (pc_disk sample_sys)) ++ replicate (4096 - 512 * 3) 0) ∧
  write_back pc [4; 5; 9] sample_sys =
    Ok (tt, with_disk sample_sys (write_sectors (pc_disk sample_sys) [4; 5; 9] (replicate 4096 7))) ∧
  (∃ s1 pc2 s2, write_back pc [4; 5; 9] sample_sys = Ok (tt, s1) ∧ read_in pc [4; 5; 9] s1 = Ok (pc2, s2) ∧
     take (512 * 3) (page_ptr pc2) = take (512 * 3) (replicate 4096 7)).
Proof.
  apply (page_transfers_by_sector sample_sys (mkPageCache 0 (replicate 4096 7) 10 false false) [4; 5; 9]).
  - apply sample_sys_disk.
  - repeat constructor; cbn; lia.
  - repeat constructor; set_solver by lia.
  - simpl; lia.
  - apply length_replicate.
Defined.

Lemma page_cache_transparent_witness :
  ∃ outs F s',
    st_fold (fun acc c => out ← exec_file c; mret (acc ++ out)) [] [PWrite 0 600 1; POom; POom; PRead 0 600; PRead 1 3]
      (fun id => sample_neighbor id ≫= d_data (pc_disk sample_sys)) = Ok (outs, F) ∧
    st_fold (fun acc c => out ← exec_page sample_neighbor (mret 0) c; mret (acc ++ out)) []
      [PWrite 0 600 1; POom; POom; PRead 0 600; PRead 1 3] (mkPcmState [] [] sample_sys) = Ok (outs, s') ∧
    pcm_inv sample_neighbor 2 (list_to_set (seqZ 10 20)) s' ∧
    ∀ id, 0 ≤ id < 2 → pview sample_neighbor s' id = F id.
Proof.
  apply (page_cache_transparent sample_neighbor 2 (list_to_set (seqZ 10 20)) (mret 0) sample_sys).
  - apply sample_sys_disk.
  - apply sample_neighbor_ok.
  - apply sample_sys_fa.
  - repeat constructor; cbn; lia.
  - by vm_compute.
Defined.

Lemma page_cache_truncate_witness :
  ∃ s', notify_new_size 100 (mkPcmState [] [] sample_sys) = Ok (tt, s') ∧
    pcm_inv sample_neighbor 2 (list_to_set (seqZ 10 20)) s' ∧
    ∀ id, 0 ≤ id < 2 → id * 4096 < 100 → pview sample_neighbor s' id = pview sample_neighbor (mkPcmState [] [] sample_sys) id.
Proof.
  apply (page_cache_truncate sample_neighbor 2 (list_to_set (seqZ 10 20)) (mkPcmState [] [] sample_sys) 100).
  - apply empty_cache_inv; [apply sample_sys_disk|apply sample_neighbor_ok|apply sample_sys_fa].
  - lia.
  - by intros id pc [_ ?].
Defined.
