(* ===== verification/FdTable.v ===== *)
(** * File descriptors: [FileDescriptor] and [FdTable] of
    [kernel/src/fs/mod.rs], and the system calls of
    [kernel/src/syscall/fs.rs] and [kernel/src/syscall/process.rs] that only
    move descriptors around.

    A table is the vector of open descriptors, the stack of the slots that
    were closed, kept as bytes, and two limits.  The files themselves
    ([Arc<dyn File>]) are a type parameter. *)

From S2P Require Import Prelude Config Address PhysMem UserMem.

Definition EBADF : Z := -9.
Definition EMFILE : Z := -24.
Definition SYSTEM_FD_LIMIT : Z := 256.
Definition DEFAULT_FD_LIMIT : Z := 128.

(** ** [OpenFlags] *)

Definition O_RDONLY : Z := 0.
Definition O_WRONLY : Z := 1.
Definition O_RDWR : Z := 2.
Definition O_CREAT : Z := 0x40.
Definition O_EXCL : Z := 0x80.
Definition O_NOCTTY : Z := 0x100.
Definition O_TRUNC : Z := 0x200.
Definition O_APPEND : Z := 0x400.
Definition O_NONBLOCK : Z := 0x800.
Definition O_DSYNC : Z := 0x1000.
Definition O_SYNC : Z := 0x101000.
Definition O_RSYNC : Z := 0x101000.
Definition O_DIRECTORY : Z := 0x10000.
Definition O_NOFOLLOW : Z := 0x20000.
Definition O_CLOEXEC : Z := 0x80000.
Definition O_ASYNC : Z := 0x2000.
Definition O_DIRECT : Z := 0x4000.
Definition O_LARGEFILE : Z := 0x8000.
Definition O_NOATIME : Z := 0x40000.
Definition O_PATH : Z := 0x200000.
Definition O_TMPFILE : Z := 0x410000.

Definition OpenFlags_all : Z :=
  foldr Z.lor 0 [O_RDONLY; O_WRONLY; O_RDWR; O_CREAT; O_EXCL; O_NOCTTY; O_TRUNC; O_APPEND;
    O_NONBLOCK; O_DSYNC; O_SYNC; O_RSYNC; O_DIRECTORY; O_NOFOLLOW; O_CLOEXEC; O_ASYNC;
    O_DIRECT; O_LARGEFILE; O_NOATIME; O_PATH; O_TMPFILE].

Definition OpenFlags_from_bits (bits : Z) : option Z := flags_from_bits OpenFlags_all bits.

(** ** Commands of [fcntl] *)

Inductive Fcntl_Command : Type :=
  | DUPFD | GETFD | SETFD | GETFL | SETFL | GETLK | SETLK | SETLKW | SETOWN | GETOWN
  | SETSIG | GETSIG | SETOWN_EX | GETOWN_EX | GETOWNER_UIDS | OFD_GETLK | OFD_SETLK
  | OFD_SETLKW | SETLEASE | GETLEASE | NOTIFY | CANCELLK | DUPFD_CLOEXEC | SETPIPE_SZ
  | GETPIPE_SZ | ADD_SEALS | GET_SEALS | GET_RW_HINT | SET_RW_HINT | GET_FILE_RW_HINT
  | SET_FILE_RW_HINT | ILLEAGAL.

Definition Fcntl_Command_from_primitive (cmd : Z) : Fcntl_Command :=
  match cmd with
  | 0 => DUPFD | 1 => GETFD | 2 => SETFD | 3 => GETFL | 4 => SETFL | 5 => GETLK
  | 6 => SETLK | 7 => SETLKW | 8 => SETOWN | 9 => GETOWN | 10 => SETSIG | 11 => GETSIG
  | 15 => SETOWN_EX | 16 => GETOWN_EX | 17 => GETOWNER_UIDS
  | 36 => OFD_GETLK | 37 => OFD_SETLK | 38 => OFD_SETLKW
  | 1024 => SETLEASE | 1025 => GETLEASE | 1026 => NOTIFY | 1029 => CANCELLK
  | 1030 => DUPFD_CLOEXEC | 1031 => SETPIPE_SZ | 1032 => GETPIPE_SZ | 1033 => ADD_SEALS
  | 1034 => GET_SEALS | 1035 => GET_RW_HINT | 1036 => SET_RW_HINT
  | 1037 => GET_FILE_RW_HINT | 1038 => SET_FILE_RW_HINT
  | _ => ILLEAGAL
  end.

Section FdTable.
Context {File : Type}.

Record FileDescriptor : Type := mkFileDescriptor {
  cloexec : bool;
  nonblock : bool;
  file : File
}.

Definition set_cloexec (d : FileDescriptor) (flag : bool) : FileDescriptor :=
  mkFileDescriptor flag (nonblock d) (file d).

Record FdTable : Type := mkFdTable {
  inner : list (option FileDescriptor);
  recycled : list Z;
  soft_limit : Z;
  hard_limit : Z
}.

Definition FdTable_new (l : list (option FileDescriptor)) : FdTable :=
  mkFdTable l [] DEFAULT_FD_LIMIT SYSTEM_FD_LIMIT.

Definition set_inner (l : list (option FileDescriptor)) : ST FdTable unit :=
  modify (fun t => mkFdTable l (recycled t) (soft_limit t) (hard_limit t)).
Definition set_recycled (l : list Z) : ST FdTable unit :=
  modify (fun t => mkFdTable (inner t) l (soft_limit t) (hard_limit t)).

Definition inner_len (t : FdTable) : Z := Z.of_nat (length (inner t)).

(** [self.inner[fd]], read and assigned: out of range it panics. *)
Definition inner_at (fd : Z) : ST FdTable (option FileDescriptor) :=
  t ← get_st; unwrap (inner t !! Z.to_nat fd).
Definition inner_assign (fd : Z) (o : option FileDescriptor) : ST FdTable unit :=
  t ← get_st;
  rust_assert (fd <? inner_len t);;
  set_inner (<[Z.to_nat fd := o]> (inner t)).

(** The common part of the two limit setters. *)
Definition truncate_to (limit : Z) : ST FdTable unit :=
  t ← get_st;
  if limit <? inner_len t then
    set_inner (take (Z.to_nat limit) (inner t));;
    set_recycled (filter (fun fd => fd < limit) (recycled t))
  else mret tt.

Definition set_soft_limit (limit : Z) : ST FdTable unit :=
  truncate_to limit;;
  modify (fun t => mkFdTable (inner t) (recycled t) limit (hard_limit t)).

Definition set_hard_limit (limit : Z) : ST FdTable unit :=
  truncate_to limit;;
  modify (fun t => mkFdTable (inner t) (recycled t) (soft_limit t) limit).

Definition FdTable_get_ref (fd : Z) : ST FdTable (Result FileDescriptor) :=
  t ← get_st;
  if inner_len t <=? fd then mret (RErr EBADF)
  else
    o ← inner_at fd;
    mret (match o with Some d => ROk d | None => RErr EBADF end).

Definition FdTable_remove (fd : Z) : ST FdTable (Result FileDescriptor) :=
  t ← get_st;
  if inner_len t <=? fd then mret (RErr EBADF)
  else
    o ← inner_at fd;
    inner_assign fd None;;
    match o with
    | Some d => set_recycled (vec_push (recycled t) (wrap8 fd));; mret (ROk d)
    | None => mret (RErr EBADF)
    end.

Definition FdTable_check (fd : Z) : ST FdTable (Result unit) :=
  t ← get_st;
  if inner_len t <=? fd then mret (RErr EBADF)
  else
    o ← inner_at fd;
    mret (match o with None => RErr EBADF | Some _ => ROk tt end).

Definition FdTable_insert (d : FileDescriptor) : ST FdTable (Result Z) :=
  t ← get_st;
  match vec_pop (recycled t) with
  | Some (fd, rs) =>
      set_recycled rs;;
      inner_assign fd (Some d);;
      mret (ROk fd)
  | None =>
      let current := inner_len t in
      if current =? soft_limit t then mret (RErr EMFILE)
      else set_inner (vec_push (inner t) (Some d));; mret (ROk current)
  end.

Definition insert_at (d : FileDescriptor) (pos : Z) : ST FdTable (Result Z) :=
  t ← get_st;
  let current := inner_len t in
  if pos <? current then
    o ← inner_at pos;
    (if o is None then set_recycled (filter (fun fd => fd ≠ pos) (recycled t)) else mret tt);;
    inner_assign pos (Some d);;
    mret (ROk pos)
  else if soft_limit t <=? pos then mret (RErr EMFILE)
  else
    set_recycled (recycled t ++ (wrap8 <$> reverse (seqZ current (pos - current))));;
    set_inner (vec_push (resize (Z.to_nat pos) None (inner t)) (Some d));;
    mret (ROk pos).

Definition try_insert_at (d : FileDescriptor) (hint : Z) : ST FdTable (Result Z) :=
  t ← get_st;
  if soft_limit t <=? hint then mret (RErr EMFILE)
  else
    let current := inner_len t in
    if hint <? current then
      o ← inner_at hint;
      match o with
      | Some _ =>
          match List.find (fun fd => hint <? fd) (recycled t) with
          | Some fd => inner_assign fd (Some d);; mret (ROk fd)
          | None =>
              if current =? soft_limit t then mret (RErr EMFILE)
              else set_inner (vec_push (inner t) (Some d));; mret (ROk current)
          end
      | None =>
          set_recycled (filter (fun fd => fd ≠ hint) (recycled t));;
          inner_assign hint (Some d);;
          mret (ROk hint)
      end
    else if soft_limit t <=? hint then mret (RErr EMFILE)
    else
      set_recycled (recycled t ++ (wrap8 <$> seqZ current (hint - current)));;
      set_inner (vec_push (resize (Z.to_nat hint) None (inner t)) (Some d));;
      mret (ROk hint).

Definition clear_inner : ST FdTable unit := set_inner [].

(** The table that [fork] builds for the child. *)
Definition fork_fd_table (t : FdTable) : FdTable :=
  FdTable_new (fold_left (fun v fd =>
    match fd with Some f => vec_push v (Some f) | None => vec_push v None end) (inner t) []).

(** ** System calls *)

Definition sys_dup (oldfd : Z) : ST FdTable Z :=
  r ← FdTable_get_ref oldfd;
  match r with
  | RErr errno => mret errno
  | ROk old_file_descriptor =>
      r ← FdTable_insert old_file_descriptor;
      mret (match r with ROk fd => as_isize fd | RErr errno => errno end)
  end.

Definition sys_dup3 (oldfd newfd flags : Z) : ST FdTable Z :=
  if oldfd =? newfd then mret EINVAL
  else
    let is_cloexec :=
      match OpenFlags_from_bits flags with
      | Some f => if f =? O_CLOEXEC then Some true
                  else if f =? O_RDONLY then Some false else None
      | None => None
      end in
    match is_cloexec with
    | None => mret EINVAL
    | Some _ =>
        r ← FdTable_get_ref oldfd;
        match r with
        | RErr errno => mret errno
        | ROk file_descriptor =>
            r ← insert_at (set_cloexec file_descriptor false) newfd;
            mret (match r with ROk fd => as_isize fd | RErr errno => errno end)
        end
    end.

Definition sys_close (fd : Z) : ST FdTable Z :=
  r ← FdTable_remove fd;
  mret (match r with ROk _ => SUCCESS | RErr errno => errno end).

Definition FD_CLOEXEC : Z := 1.

Definition sys_fcntl (fd cmd arg : Z) : ST FdTable Z :=
  let dup (flag : option bool) :=
    r ← FdTable_get_ref fd;
    match r with
    | RErr errno => mret errno
    | ROk d =>
        let d := match flag with Some b => set_cloexec d b | None => d end in
        r ← try_insert_at d arg;
        mret (match r with ROk fd => as_isize fd | RErr errno => errno end)
    end in
  match Fcntl_Command_from_primitive cmd with
  | DUPFD => dup None
  | DUPFD_CLOEXEC => dup (Some true)
  | GETFD =>
      r ← FdTable_get_ref fd;
      mret (match r with ROk d => if cloexec d then 1 else 0 | RErr errno => errno end)
  | SETFD =>
      r ← FdTable_get_ref fd;
      match r with
      | RErr errno => mret errno
      | ROk d =>
          inner_assign fd (Some (set_cloexec d (negb (Z.land arg FD_CLOEXEC =? 0))));;
          mret SUCCESS
      end
  | GETFL =>
      r ← FdTable_get_ref fd;
      mret (match r with
            | ROk d => if nonblock d then Z.lor O_RDWR O_NONBLOCK else O_RDWR
            | RErr errno => errno
            end)
  | _ => mret SUCCESS
  end.

Definition RESOURCE_STACK : Z := 3.
Definition RESOURCE_NOFILE : Z := 7.

Definition sys_prlimit (m : PMem) (tok resource new_limit : Z) : ST FdTable Z :=
  (if new_limit =? 0 then mret tt
   else
     rlimit ← lift (translated_ref m tok new_limit);
     if resource =? RESOURCE_NOFILE then
       set_soft_limit (load64 m rlimit);;
       set_hard_limit (load64 m (rlimit + 8))
     else if resource =? RESOURCE_STACK then mret tt
     else panic);;
  mret SUCCESS.

(** [pipe_read] and [pipe_write] are the ends that [make_pipe] returned; the
    two numbers are stored in the user's memory as [u32]s. *)
Definition sys_pipe (m : PMem) (tok pipe : Z) (pipe_read pipe_write : File)
    : ST FdTable (Z * PMem) :=
  r ← FdTable_insert (mkFileDescriptor false false pipe_read);
  match r with
  | RErr errno => mret (errno, m)
  | ROk read_fd =>
      r ← FdTable_insert (mkFileDescriptor false false pipe_write);
      match r with
      | RErr errno => mret (errno, m)
      | ROk write_fd =>
          pa ← lift (translated_refmut m tok pipe);
          let m := store_le 4 m pa (wrap32 read_fd) in
          pa ← lift (translated_refmut m tok (pipe ⊞ 4));
          mret (SUCCESS, store_le 4 m pa (wrap32 write_fd))
      end
  end.

(** ** The abstract table: a finite map from numbers to descriptors *)

Definition fds (l : list (option FileDescriptor)) : gmap Z FileDescriptor :=
  omap id (map_seqZ 0 l).
Definition fd_map (t : FdTable) : gmap Z FileDescriptor := fds (inner t).

(** The closed slots are exactly the recycled numbers, each once, and the
    numbers fit a byte. *)
Record fd_wf (t : FdTable) : Prop := {
  fw_len : inner_len t ≤ soft_limit t;
  fw_lim : soft_limit t ≤ 256;
  fw_nodup : NoDup (recycled t);
  fw_rec : ∀ r, r ∈ recycled t ↔ 0 ≤ r ∧ inner t !! Z.to_nat r = Some None
}.





Implicit Types (t : FdTable) (d : FileDescriptor).

Lemma fds_lookup l fd : 0 ≤ fd → fds l !! fd = l !! Z.to_nat fd ≫= id.
Proof. intros. unfold fds. by rewrite lookup_omap, lookup_map_seqZ_0. Qed.

Lemma fds_lookup_neg l fd : fd < 0 → fds l !! fd = None.
Proof.
  intros. unfold fds. rewrite lookup_omap.
  assert ((map_seqZ 0 l : gmap Z (option FileDescriptor)) !! fd = None) as ->; [|done].
  apply lookup_map_seqZ_None. lia.
Qed.

(** Two maps agree when they agree on the numbers from 0. *)
Lemma fds_ext l (m : gmap Z FileDescriptor) :
  (∀ fd, fd < 0 → m !! fd = None) →
  (∀ fd, 0 ≤ fd → l !! Z.to_nat fd ≫= id = m !! fd) → fds l = m.
Proof.
  intros Hneg Hpos. apply map_eq. intros fd. destruct (decide (0 ≤ fd)).
  - by rewrite fds_lookup, Hpos.
  - by rewrite fds_lookup_neg, Hneg by lia.
Qed.

Lemma fds_assign l fd o :
  0 ≤ fd < Z.of_nat (length l) →
  fds (<[Z.to_nat fd := o]> l) =
    match o with Some d => <[fd := d]> (fds l) | None => delete fd (fds l) end.
Proof.
  intros Hfd. apply fds_ext; intros i Hi.
  - destruct o; [rewrite lookup_insert_ne by lia|rewrite lookup_delete_ne by lia];
      by apply fds_lookup_neg.
  - destruct (decide (i = fd)) as [->|].
    + rewrite list_lookup_insert_eq by lia.
      destruct o; [by rewrite lookup_insert_eq|by rewrite lookup_delete_eq].
    + rewrite list_lookup_insert_ne by lia.
      destruct o; [rewrite lookup_insert_ne by lia|rewrite lookup_delete_ne by lia];
        by rewrite fds_lookup.
Qed.






Lemma fd_closed t fd : fd_wf t → fd ∈ recycled t →
  0 ≤ fd < inner_len t ∧ fd_map t !! fd = None.
Proof.
  intros Hwf [? Hl]%(fw_rec t Hwf). unfold fd_map, inner_len.
  pose proof (lookup_lt_Some _ _ _ Hl). rewrite fds_lookup by done. rewrite Hl.
  split; [lia|done].
Qed.


(** *** The invariant under the elementary changes *)









(** *** Every command keeps the invariant and meets its specification *)











(** ** Runs of commands *)





Lemma inner_at_run t fd d :
  0 ≤ fd → fd_map t !! fd = Some d → fd < inner_len t ∧ inner_at fd t = Ok (Some d, t).
Proof.
  unfold fd_map. intros H0 Hd. rewrite fds_lookup in Hd by done.
  destruct (inner t !! Z.to_nat fd) as [[]|] eqn:E; [|done|done]. injection Hd as [= ->].
  pose proof (lookup_lt_Some _ _ _ E). split; [unfold inner_len; lia|].
  unfold inner_at, mbind, st_bind, get_st. by rewrite E.
Qed.

Lemma get_ref_run t fd d :
  0 ≤ fd → fd_map t !! fd = Some d → FdTable_get_ref fd t = Ok (ROk d, t).
Proof.
  intros H0 Hd. destruct (inner_at_run t fd d H0 Hd) as [Hl Hat].
  unfold FdTable_get_ref, mbind, st_bind, get_st.
  by rewrite (proj2 (Z.leb_gt _ fd)), Hat by lia.
Qed.

Lemma inner_assign_run t fd o :
  fd < inner_len t → inner_assign fd o t =
    Ok (tt, mkFdTable (<[Z.to_nat fd := o]> (inner t)) (recycled t) (soft_limit t) (hard_limit t)).
Proof.
  intros Hl. unfold inner_assign, mbind, st_bind, get_st, rust_assert.
  by rewrite (proj2 (Z.ltb_lt fd _)) by lia.
Qed.

(** Duplicating a descriptor with [fcntl(fd, F_DUPFD, hint)] when
    [hint] is open and [r], above it, is the one recycled number, returns [r]
    without taking it off the recycled stack: the next descriptor that is
    opened gets the same number and silently replaces the duplicate. *)
Theorem fcntl_dupfd_overwritten t fd hint r d d' :
  fd_wf t → 0 ≤ fd → 0 ≤ hint < r → recycled t = [r] →
  fd_map t !! fd = Some d → is_Some (fd_map t !! hint) →
  ∃ t1 t2, sys_fcntl fd 0 hint t = Ok (r, t1) ∧ fd_map t1 = <[r := d]> (fd_map t) ∧
    FdTable_insert d' t1 = Ok (ROk r, t2) ∧ fd_map t2 = <[r := d']> (fd_map t).
Proof.
  intros Hwf Hfd Hh Hr Hd [dh Hhint].
  destruct (fd_closed t r Hwf) as [Hrl _]; [rewrite Hr; set_solver|].
  pose proof (fw_len t Hwf). pose proof (fw_lim t Hwf).
  destruct (inner_at_run t hint dh) as [Hhl Hhat]; [lia|done|].
  set (t1 := mkFdTable (<[Z.to_nat r := Some d]> (inner t)) [r] (soft_limit t) (hard_limit t)).
  set (t2 := mkFdTable (<[Z.to_nat r := Some d']> (inner t)) [] (soft_limit t) (hard_limit t)).
  exists t1, t2. split_and!.
  - assert (try_insert_at d hint t = Ok (ROk r, t1)) as Hins.
    { unfold try_insert_at, mbind, st_bind, get_st. rewrite (proj2 (Z.leb_gt _ hint)) by lia.
      rewrite (proj2 (Z.ltb_lt hint _)), Hhat, Hr by lia. cbn [List.find].
      rewrite (proj2 (Z.ltb_lt hint r)), inner_assign_run by lia. by rewrite Hr. }
    unfold sys_fcntl. change (Fcntl_Command_from_primitive 0) with DUPFD. cbv iota beta zeta.
    unfold mbind, st_bind. rewrite (get_ref_run t fd d), Hins by done. unfold mret, st_ret.
    do 2 f_equal. unfold as_isize. destruct (Z.ltb_spec r (2 ^ 63)); lia.
  - apply fds_assign. unfold inner_len in *. lia.
  - unfold FdTable_insert, mbind, st_bind, get_st, t1. cbn [recycled].
    change (vec_pop [r]) with (Some (r, @nil Z)). unfold set_recycled, modify. cbn [inner].
    rewrite inner_assign_run by (unfold inner_len in *; cbn [inner]; rewrite length_insert; lia).
    unfold t2. cbn [inner recycled soft_limit hard_limit]. by rewrite list_insert_insert_eq.
  - apply fds_assign. unfold inner_len in *. lia.
Qed.

(** The child of a [fork] has the parent's slots. *)
Lemma fork_fd_table_inner t : inner (fork_fd_table t) = inner t.
Proof.
  unfold fork_fd_table, FdTable_new. cbn [inner].
  enough (∀ l v, fold_left (fun v (fd : option FileDescriptor) =>
    match fd with Some f => vec_push v (Some f) | None => vec_push v None end) l v = v ++ l) as ->
    by done.
  induction l as [|[f|] l IH]; intros v; simpl; [by rewrite app_nil_r| |];
    rewrite IH; unfold vec_push; by rewrite <-app_assoc.
Qed.

(** When the parent raised its limit and holds more than 128 slots, the
    child's table is larger than its limit and [insert] never reaches the
    [current == soft_limit] test: it goes on past the limit. *)
Lemma fork_limit_ignored t d :
  128 < inner_len t →
  ∃ t', FdTable_insert d (fork_fd_table t) = Ok (ROk (inner_len t), t') ∧
        soft_limit t' < inner_len t.
Proof.
  intros Hlen. pose proof (fork_fd_table_inner t) as Hi.
  eexists. split.
  - unfold FdTable_insert, mbind, st_bind, get_st.
    change (vec_pop (recycled (fork_fd_table t))) with (@None (Z * list Z)). cbv iota zeta.
    unfold inner_len in *. rewrite Hi.
    change (soft_limit (fork_fd_table t)) with 128. rewrite (proj2 (Z.eqb_neq _ 128)) by lia.
    reflexivity.
  - done.
Qed.

(** With a limit above 256 the recycled stack loses the high bits: closing
    256 + [k] makes the next descriptor replace the open number [k]. *)
Lemma recycle_wraps t k d d0 d' :
  0 ≤ k < 256 → recycled t = [] →
  fd_map t !! (256 + k) = Some d → fd_map t !! k = Some d0 →
  ∃ t1 t2, sys_close (256 + k) t = Ok (SUCCESS, t1) ∧
    FdTable_insert d' t1 = Ok (ROk k, t2) ∧ fd_map t1 !! k = Some d0 ∧ fd_map t2 !! k = Some d'.
Proof.
  intros Hk Hr Hd H0.
  destruct (inner_at_run t (256 + k) d) as [Hl Hat]; [lia|done|].
  set (t1 := mkFdTable (<[Z.to_nat (256 + k) := None]> (inner t)) [k] (soft_limit t) (hard_limit t)).
  assert (inner_len t1 = inner_len t) as Hlen.
  { unfold inner_len, t1. cbn [inner]. by rewrite length_insert. }
  assert (fd_map t1 = delete (256 + k) (fd_map t)) as Hm1.
  { apply fds_assign. unfold inner_len in *. lia. }
  exists t1, (mkFdTable (<[Z.to_nat k := Some d']> (inner t1)) [] (soft_limit t) (hard_limit t)).
  split_and!.
  - unfold sys_close, FdTable_remove, mbind, st_bind, get_st.
    rewrite (proj2 (Z.leb_gt _ (256 + k))), Hat, inner_assign_run by lia.
    unfold set_recycled, modify, mret, st_ret. rewrite Hr.
    replace (wrap8 (256 + k)) with k; [done|]. unfold wrap8. change (2 ^ 8) with 256.
    replace (256 + k) with (k + 1 * 256) by lia. by rewrite Z_mod_plus_full, Z.mod_small by lia.
  - unfold FdTable_insert, mbind, st_bind, get_st.
    change (vec_pop (recycled t1)) with (Some (k, @nil Z)). unfold set_recycled, modify.
    rewrite inner_assign_run; [done|]. unfold inner_len in *. cbn [inner] in *. lia.
  - rewrite Hm1, lookup_delete_ne by lia. done.
  - unfold fd_map. cbn [inner]. rewrite fds_assign, lookup_insert_eq; [done|].
    unfold inner_len in *. lia.
Qed.
End FdTable.

(** ** Witnesses *)

Definition fd0 (n : nat) : @FileDescriptor nat := mkFileDescriptor false false n.

(** Descriptors 0 and 1 are open, 2 was closed. *)
Definition small_table : @FdTable nat :=
  mkFdTable [Some (fd0 0); Some (fd0 1); None] [2] 128 256.

Lemma small_table_wf : fd_wf small_table.
Proof.
  constructor; [done|done|apply NoDup_singleton|]. intros r.
  unfold small_table. cbn [recycled inner]. rewrite list_elem_of_singleton. split; [by intros ->|].
  intros [H0 Hl]. pose proof (lookup_lt_Some _ _ _ Hl) as Hlt. cbn [length] in Hlt.
  assert (r = 0 ∨ r = 1 ∨ r = 2) as [-> |[-> | ->]] by lia; done.
Qed.


Lemma fcntl_dupfd_overwritten_witness :
  ∃ t1 t2, sys_fcntl 1 0 0 small_table = Ok (2, t1) ∧
    fd_map t1 = <[2 := fd0 1]> (fd_map small_table) ∧
    FdTable_insert (fd0 5) t1 = Ok (ROk 2, t2) ∧ fd_map t2 = <[2 := fd0 5]> (fd_map small_table).
Proof.
  apply (fcntl_dupfd_overwritten small_table 1 0 2 (fd0 1) (fd0 5));
    [apply small_table_wf|lia|lia|done|by vm_compute|by exists (fd0 0)].
Defined.
