(* ===== verification/Sched.v ===== *)
(** * The scheduler: [kernel/src/task/manager.rs],
    [kernel/src/task/processor.rs] and the two ways of giving up the processor
    in [kernel/src/task/mod.rs].

    A task is identified by the address of its control block
    ([Arc::ptr_eq]).  [schedule] switches to the idle context, which continues
    in the loop of [run_tasks]; [current] is [None] exactly then.  One round
    of that loop dispatches the next task. *)

From stdpp Require Import functions.
From S2P Require Import Prelude.

Inductive TaskStatus : Type := Ready | Running | Blocked.

#[global] Instance TaskStatus_eq_dec : EqDecision TaskStatus.
Proof. solve_decision. Defined.

(** [TASK_MANAGER], [PROCESSOR] and the status field of the control blocks. *)
Record Sched : Type := mkSched {
  ready_queue : list Z;
  block_queue : list Z;
  current : option Z;
  task_status : Z → TaskStatus
}.

Definition Sched_new : Sched := mkSched [] [] None (fun _ => Ready).

Definition with_ready (q : list Z) (s : Sched) : Sched :=
  mkSched q (block_queue s) (current s) (task_status s).
Definition with_block (q : list Z) (s : Sched) : Sched :=
  mkSched (ready_queue s) q (current s) (task_status s).
Definition with_current (c : option Z) (s : Sched) : Sched :=
  mkSched (ready_queue s) (block_queue s) c (task_status s).
Definition with_status (t : Z) (st : TaskStatus) (s : Sched) : Sched :=
  mkSched (ready_queue s) (block_queue s) (current s) (<[t := st]> (task_status s)).

(** ** [TaskManager] *)

Definition TaskManager_add (task : Z) : ST Sched unit :=
  modify (fun s => with_ready (ready_queue s ++ [task]) s).

Definition TaskManager_fetch : ST Sched (option Z) :=
  s ← get_st;
  match ready_queue s with
  | [] => mret None
  | task :: q => put_st (with_ready q s);; mret (Some task)
  end.

(** [VecDeque::remove] of the first element that is [task], if there is one. *)
Fixpoint remove_first (task : Z) (q : list Z) : list Z :=
  match q with
  | [] => []
  | t :: q => if bool_decide (t = task) then q else t :: remove_first task q
  end.

Definition TaskManager_remove (task : Z) : ST Sched unit :=
  modify (fun s => with_ready (remove_first task (ready_queue s)) s).

Definition add_block (task : Z) : ST Sched unit :=
  modify (fun s => with_block (block_queue s ++ [task]) s).

Definition add_task (task : Z) : ST Sched unit := TaskManager_add task.

Definition wakeup_task (task : Z) : ST Sched unit :=
  modify (with_status task Ready);;
  add_task task.

Definition remove_task (task : Z) : ST Sched unit := TaskManager_remove task.

Definition fetch_task : ST Sched (option Z) := TaskManager_fetch.

Definition block_task (task : Z) : ST Sched unit := add_block task.

Definition unblock_task (task : Z) : ST Sched unit :=
  modify (with_status task Ready);;
  s ← get_st;
  if bool_decide (task ∈ block_queue s) then
    modify (fun s => with_block (remove_first task (block_queue s)) s);;
    modify (fun s => with_ready (task :: ready_queue s) s)
  else mret tt.

(** ** [PID2PCB]: processes by their number *)

Section pid2process.
Context {PCB : Type}.

Definition pid2process (pid : Z) (map : gmap Z PCB) : option PCB := map !! pid.

Definition insert_into_pid2process (pid : Z) (process : PCB) : ST (gmap Z PCB) unit :=
  modify <[pid := process]>.

Definition remove_from_pid2process (pid : Z) : ST (gmap Z PCB) unit :=
  map ← get_st;
  put_st (delete pid map);;
  match map !! pid with None => panic | Some _ => mret tt end.
End pid2process.

(** ** [Processor] *)

Definition take_current_task : ST Sched (option Z) :=
  c ← gets current;
  modify (with_current None);;
  mret c.

Definition current_task : ST Sched (option Z) := gets current.

(** One round of the loop of [run_tasks], up to the switch. *)
Definition run_tasks_round : ST Sched unit :=
  r ← fetch_task;
  match r with
  | Some task =>
      modify (with_status task Running);;
      modify (with_current (Some task))
  | None => mret tt
  end.

(** [suspend_current_and_run_next] and [block_current_and_run_next], up to the
    switch to the idle context. *)
Definition suspend_current_and_run_next : ST Sched unit :=
  c ← take_current_task;
  task ← unwrap c;
  modify (with_status task Ready);;
  add_task task.

Definition block_current_and_run_next : ST Sched unit :=
  c ← take_current_task;
  task ← unwrap c;
  modify (with_status task Blocked);;
  block_task task.

(** ** Executions

    What happens to the scheduler: the idle loop dispatches; the running task is
    preempted, blocks, ends or starts a task; a task is made runnable by
    [unblock_task] (the end of a child, futexes) or by [wakeup_task] (locks,
    timers), whether it waits or not; and the tasks of a process that ends are
    removed.  [EUnblock] is the call for a blocked task, [EStale] the call for any
    other. *)

Inductive event : Type :=
  | EDispatch
  | ESuspend
  | EBlock
  | EExit (t : Z)
  | ESpawn (t : Z)
  | EUnblock (t : Z)
  | EStale (t : Z)
  | EWakeup (t : Z)
  | ERemove (t : Z).

Definition known (s : Sched) : list Z :=
  option_list (current s) ++ ready_queue s ++ block_queue s.

(** The control block of a new task is [Ready]; a block that a queue refers to is
    not used for another task. *)
Inductive sched_step : Sched → event → Sched → Prop :=
  | step_dispatch s s' :
      current s = None → run_tasks_round s = Ok (tt, s') → sched_step s EDispatch s'
  | step_suspend s t s' :
      current s = Some t → suspend_current_and_run_next s = Ok (tt, s') → sched_step s ESuspend s'
  | step_block s t s' :
      current s = Some t → block_current_and_run_next s = Ok (tt, s') → sched_step s EBlock s'
  | step_exit s t s' :
      take_current_task s = Ok (Some t, s') → sched_step s (EExit t) s'
  | step_spawn s t s' :
      t ∉ known s → add_task t (with_status t Ready s) = Ok (tt, s') →
      sched_step s (ESpawn t) s'
  | step_unblock s t s' :
      t ∈ block_queue s → task_status s t = Blocked → unblock_task t s = Ok (tt, s') →
      sched_step s (EUnblock t) s'
  | step_stale s t s' :
      ¬ (t ∈ block_queue s ∧ task_status s t = Blocked) → unblock_task t s = Ok (tt, s') →
      sched_step s (EStale t) s'
  | step_wakeup s t s' : wakeup_task t s = Ok (tt, s') → sched_step s (EWakeup t) s'
  | step_remove s t s' : remove_task t s = Ok (tt, s') → sched_step s (ERemove t) s'.

(** An execution with the tasks it dispatches, in order. *)
Inductive sched_run : Sched → list event → list Z → Sched → Prop :=
  | run_nil s : sched_run s [] [] s
  | run_cons s e s1 es ds s' :
      sched_step s e s1 → sched_run s1 es ds s' →
      sched_run s (e :: es)
        (if e is EDispatch then option_list (current s1) ++ ds else ds) s'.

(** The tasks that were started and have not ended. *)
Definition live_after (L : gset Z) (e : event) : gset Z :=
  match e with
  | ESpawn t => {[t]} ∪ L
  | EExit t | ERemove t => L ∖ {[t]}
  | _ => L
  end.

(** A task is where its status says. *)
Definition placed (L : gset Z) (s : Sched) : Prop :=
  ∀ t, t ∈ L →
    match task_status s t with
    | Running => current s = Some t
    | Blocked => t ∈ block_queue s
    | Ready => t ∈ ready_queue s ∨ current s = Some t
    end.

(** Tasks are made runnable only when they are blocked, and taken off the block
    queue. *)
Definition orderly (e : event) : Prop :=
  match e with EStale _ | EWakeup _ => False | _ => True end.

(** Every task is in one place, and its status says in which. *)
Record sched_inv (s : Sched) : Prop := {
  si_nodup : NoDup (known s);
  si_ready : ∀ t, t ∈ ready_queue s → task_status s t = Ready;
  si_block : ∀ t, t ∈ block_queue s → task_status s t = Blocked;
  si_current : ∀ t, current s = Some t → task_status s t = Running
}.

(** ** Lemmas *)

Lemma remove_first_perm t q : t ∈ q → q ≡ₚ t :: remove_first t q.
Proof.
  induction q as [|x q IH]; [set_solver|]. intros Hin. simpl.
  case_bool_decide as Hx; [by rewrite Hx|]. rewrite (IH ltac:(set_solver)) at 1. apply Permutation_swap.
Qed.

Lemma remove_first_id t q : t ∉ q → remove_first t q = q.
Proof.
  induction q as [|x q IH]; [done|]. intros Hn. simpl.
  rewrite bool_decide_false by set_solver. by rewrite IH by set_solver.
Qed.

(** The operations as equations between states. *)
Lemma run_tasks_round_eq s :
  run_tasks_round s = Ok (tt,
    match ready_queue s with
    | [] => s
    | t :: q => mkSched q (block_queue s) (Some t) (<[t := Running]> (task_status s))
    end).
Proof.
  unfold run_tasks_round, fetch_task, TaskManager_fetch, mbind, st_bind, get_st.
  by destruct (ready_queue s).
Qed.

Lemma suspend_eq s t : current s = Some t →
  suspend_current_and_run_next s = Ok (tt,
    mkSched (ready_queue s ++ [t]) (block_queue s) None (<[t := Ready]> (task_status s))).
Proof.
  intros Hc. unfold suspend_current_and_run_next, take_current_task, gets, mbind, st_bind.
  cbn. by rewrite Hc.
Qed.

Lemma block_eq s t : current s = Some t →
  block_current_and_run_next s = Ok (tt,
    mkSched (ready_queue s) (block_queue s ++ [t]) None (<[t := Blocked]> (task_status s))).
Proof.
  intros Hc. unfold block_current_and_run_next, take_current_task, gets, mbind, st_bind.
  cbn. by rewrite Hc.
Qed.

Lemma unblock_eq s t :
  unblock_task t s = Ok (tt,
    if bool_decide (t ∈ block_queue s) then
      mkSched (t :: ready_queue s) (remove_first t (block_queue s)) (current s)
        (<[t := Ready]> (task_status s))
    else with_status t Ready s).
Proof.
  unfold unblock_task, mbind, st_bind, get_st, modify. cbn [block_queue with_status].
  by case_bool_decide.
Qed.

Lemma remove_first_elem t u q : u ≠ t → u ∈ remove_first t q ↔ u ∈ q.
Proof.
  intros Hne. induction q as [|x q IH]; [done|]. simpl. case_bool_decide; [subst|]; rewrite !elem_of_cons; naive_solver.
Qed.

Lemma remove_first_app t q1 q2 :
  remove_first t (q1 ++ q2) = if decide (t ∈ q1) then remove_first t q1 ++ q2 else q1 ++ remove_first t q2.
Proof.
  induction q1 as [|x q1 IH]; [by rewrite decide_False by apply not_elem_of_nil|]. simpl. case_bool_decide as Hx; [by rewrite decide_True by set_solver|].
  rewrite IH. destruct (decide (t ∈ q1)); [by rewrite decide_True by set_solver|by rewrite decide_False by set_solver].
Qed.

(** The effect of a step, with every operation evaluated. *)
Lemma sched_step_inv s e s' : sched_step s e s' →
  match e with
  | EDispatch => current s = None ∧
      s' = match ready_queue s with
           | [] => s
           | t :: q => mkSched q (block_queue s) (Some t) (<[t := Running]> (task_status s))
           end
  | ESuspend => ∃ t, current s = Some t ∧
      s' = mkSched (ready_queue s ++ [t]) (block_queue s) None (<[t := Ready]> (task_status s))
  | EBlock => ∃ t, current s = Some t ∧
      s' = mkSched (ready_queue s) (block_queue s ++ [t]) None (<[t := Blocked]> (task_status s))
  | EExit t => current s = Some t ∧ s' = with_current None s
  | ESpawn t => (t ∉ known s) ∧ s' = mkSched (ready_queue s ++ [t]) (block_queue s) (current s) (<[t := Ready]> (task_status s))
  | EUnblock t => t ∈ block_queue s ∧
      s' = mkSched (t :: ready_queue s) (remove_first t (block_queue s)) (current s)
             (<[t := Ready]> (task_status s))
  | EStale t => s' = if bool_decide (t ∈ block_queue s) then
        mkSched (t :: ready_queue s) (remove_first t (block_queue s)) (current s) (<[t := Ready]> (task_status s))
      else with_status t Ready s
  | EWakeup t => s' = mkSched (ready_queue s ++ [t]) (block_queue s) (current s) (<[t := Ready]> (task_status s))
  | ERemove t => s' = with_ready (remove_first t (ready_queue s)) s
  end.
Proof.
  destruct 1 as [s s' Hc H|s t s' Hc H|s t s' Hc H|s t s' H|s t s' Hn H|s t s' Hb Hs H|s t s' Hn H|s t s' H|s t s' H].
  - rewrite run_tasks_round_eq in H. by injection H as <-.
  - rewrite (suspend_eq s t) in H by done. injection H as <-. eauto.
  - rewrite (block_eq s t) in H by done. injection H as <-. eauto.
  - injection H as Hc <-. done.
  - injection H as <-. eauto.
  - rewrite unblock_eq, bool_decide_true in H by done. injection H as <-. eauto.
  - rewrite unblock_eq in H. by injection H as <-.
  - by injection H as <-.
  - by injection H as <-.
Qed.

(** Every live task stays where its status says. *)
Lemma placed_move L L' s s' t st :
  placed L s → task_status s' = <[t := st]> (task_status s) → (∀ u, u ≠ t → u ∈ L' → u ∈ L) →
  (∀ u, u ≠ t → u ∈ ready_queue s → u ∈ ready_queue s') →
  (∀ u, u ≠ t → u ∈ block_queue s → u ∈ block_queue s') →
  (∀ u, u ≠ t → current s = Some u → current s' = Some u) →
  (t ∈ L' → match st with
            | Running => current s' = Some t
            | Blocked => t ∈ block_queue s'
            | Ready => t ∈ ready_queue s' ∨ current s' = Some t
            end) → placed L' s'.
Proof.
  intros HP Hst HL Hr Hb Hc Ht u Hu. rewrite Hst. destruct (decide (u = t)) as [->|Hne]; [rewrite fn_lookup_insert; by apply Ht|].
  rewrite fn_lookup_insert_ne by done. specialize (HP u (HL u Hne Hu)). destruct (task_status s u); naive_solver.
Qed.

Lemma sched_step_placed L s e s' : placed L s → sched_step s e s' → placed (live_after L e) s'.
Proof.
  intros HP Hstep%sched_step_inv. destruct e as [| | |t|t|t|t|t|t]; cbn [live_after].
  - destruct Hstep as [Hc ->]. destruct (ready_queue s) as [|t q] eqn:Hq; [done|].
    apply (placed_move L L s _ t Running); cbn; rewrite ?Hq; try done; [set_solver|congruence].
  - destruct Hstep as (t & Hc & ->). apply (placed_move L L s _ t Ready); cbn; try done; [set_solver|congruence|set_solver].
  - destruct Hstep as (t & Hc & ->). apply (placed_move L L s _ t Blocked); cbn; try done; [set_solver|congruence|set_solver].
  - destruct Hstep as [Hc ->]. intros u [Hu Hne]%elem_of_difference. specialize (HP u Hu). cbn. destruct (task_status s u); [|set_solver|done].
    destruct HP as [|Hcu]; [by left|]. set_solver.
  - destruct Hstep as [_ ->]. apply (placed_move L _ s _ t Ready); cbn; try done; set_solver.
  - destruct Hstep as [_ ->]. apply (placed_move L L s _ t Ready); cbn; try done; [set_solver| |set_solver]. intros u Hne. by rewrite remove_first_elem.
  - subst s'. case_bool_decide as Hb; apply (placed_move L L s _ t Ready); cbn; try done; [set_solver| |set_solver|].
    + intros u Hne. by rewrite remove_first_elem.
    + intros Ht. specialize (HP t Ht). destruct (task_status s t); naive_solver.
  - subst s'. apply (placed_move L L s _ t Ready); cbn; try done; set_solver.
  - subst s'. intros u [Hu Hne]%elem_of_difference. specialize (HP u Hu). cbn.
    pose proof (remove_first_elem t u (ready_queue s) ltac:(set_solver)). destruct (task_status s u); naive_solver.
Qed.

(** One task moves to the place that its new status names. *)
Lemma sched_inv_move s s' t st :
  sched_inv s → (known s' ≡ₚ known s) → task_status s' = <[t := st]> (task_status s) →
  (∀ u, u ≠ t → u ∈ ready_queue s' → u ∈ ready_queue s) →
  (∀ u, u ≠ t → u ∈ block_queue s' → u ∈ block_queue s) →
  (∀ u, u ≠ t → current s' = Some u → current s = Some u) →
  (t ∈ ready_queue s' → st = Ready) → (t ∈ block_queue s' → st = Blocked) →
  (current s' = Some t → st = Running) → sched_inv s'.
Proof.
  intros [Hn Hr Hb Hc] Hk Hst Hr' Hb' Hc' H1 H2 H3.
  constructor; [by rewrite Hk|..]; intros u Hu; rewrite Hst;
    (destruct (decide (u = t)) as [->|Hne];
      [rewrite fn_lookup_insert; auto|rewrite fn_lookup_insert_ne by done; auto]).
Qed.

Ltac sched_solve :=
  solve [intros; first [congruence | set_solver | exfalso; set_solver]].

Lemma sched_step_preserves s e s' : sched_inv s → orderly e → sched_step s e s' → sched_inv s'.
Proof.
  intros Hinv Ho Hstep%sched_step_inv. pose proof (si_nodup s Hinv) as Hn. unfold known in Hn.
  destruct e as [| | |t|t|t|t|t|t].
  - destruct Hstep as [Hc ->]. rewrite Hc in Hn. simpl in Hn.
    destruct (ready_queue s) as [|t q] eqn:Hq; [done|].
    apply NoDup_cons in Hn as [Ht _].
    apply (sched_inv_move s _ t Running); simpl; rewrite ?Hq; try sched_solve.
    unfold known. simpl. by rewrite Hc, Hq.
  - destruct Hstep as (t & Hc & ->). rewrite Hc in Hn. simpl in Hn. apply NoDup_cons in Hn as [Ht _].
    apply (sched_inv_move s _ t Ready); simpl; try sched_solve.
    unfold known. simpl. rewrite Hc, <-app_assoc. simpl. symmetry. apply Permutation_middle.
  - destruct Hstep as (t & Hc & ->). rewrite Hc in Hn. simpl in Hn. apply NoDup_cons in Hn as [Ht _].
    apply (sched_inv_move s _ t Blocked); simpl; try sched_solve.
    unfold known. simpl. rewrite Hc. simpl. rewrite app_assoc. symmetry. apply Permutation_cons_append.
  - destruct Hstep as [Hc ->]. destruct Hinv as [_ Hr Hb _]. rewrite Hc in Hn. simpl in Hn. apply NoDup_cons in Hn as [_ Hn]. by constructor.
  - destruct Hstep as [Hnew ->]. destruct Hinv as [_ Hr Hb Hc]. unfold known in Hnew.
    assert (∀ u, u ∈ known s → u ≠ t) as Hne by (unfold known; intros u Hu ->; done). unfold known in Hne.
    constructor; simpl; [|intros u Hu; destruct (decide (u = t)) as [->|]; [by rewrite fn_lookup_insert|rewrite fn_lookup_insert_ne by done; set_solver]|..].
    + unfold known. simpl. rewrite <-app_assoc. simpl. rewrite <-Permutation_middle.
      rewrite <-Permutation_middle. by apply NoDup_cons.
    + intros u Hu. rewrite fn_lookup_insert_ne by (symmetry; apply Hne; set_solver). auto.
    + intros u Hu. rewrite fn_lookup_insert_ne by (symmetry; apply Hne; rewrite Hu; set_solver). auto.
  - destruct Hstep as [Ht ->]. pose proof (remove_first_perm t _ Ht) as Hp.
    revert Hp. generalize (remove_first t (block_queue s)). intros bq Hp.
    assert (t ∉ bq) as Hnr.
    { apply NoDup_app in Hn as (_ & _ & Hn). apply NoDup_app in Hn as (_ & _ & Hn).
      rewrite Hp in Hn. by apply NoDup_cons in Hn as [? _]. }
    assert (current s ≠ Some t) as Hnc.
    { intros Hc. rewrite Hc in Hn. simpl in Hn. apply NoDup_cons in Hn as [? _]. set_solver. }
    apply (sched_inv_move s _ t Ready); simpl; try sched_solve.
    + unfold known. simpl. rewrite Hp. by rewrite Permutation_middle.
    + intros u _ Hu. rewrite Hp. set_solver.
  - done.
  - done.
  - subst s'. destruct Hinv as [_ Hr Hb Hc]. destruct (decide (t ∈ ready_queue s)) as [Ht|Ht]; [|by rewrite remove_first_id by done; constructor].
    pose proof (remove_first_perm t _ Ht) as Hp. revert Hp. generalize (remove_first t (ready_queue s)). intros rq Hp.
    constructor; simpl; [|intros u Hu; apply Hr; rewrite Hp; by right|done|done].
    unfold known. simpl. rewrite Hp in Hn. simpl in Hn. rewrite <-Permutation_middle in Hn. by apply NoDup_cons in Hn as [_ ?].
Qed.

(** ** Properties of executions *)

Definition count_events (p : event → bool) (es : list event) : nat := length (filter p es).

Definition is_dispatch (e : event) : bool := if e is EDispatch then true else false.
Definition is_unblock (e : event) : bool := match e with EUnblock _ | EStale _ => true | _ => false end.

(** C31: no task is lost.  In every execution from the empty scheduler, whoever is
    made runnable and when, a task that was started and has not ended is where its
    status says: on the processor if it is [Running], on the block queue if it is
    [Blocked], and in the ready queue or on the processor if it is [Ready].  If in
    addition tasks are only made runnable by [unblock_task] while they are blocked,
    each task is in exactly one of the three places, once, with the status of that
    place.  ([wakeup_task], which locks and timers use, leaves the task on the block
    queue: see [wakeup_keeps_blocked].) *)
Theorem scheduler_invariant es ds s :
  sched_run Sched_new es ds s → placed (foldl live_after ∅ es) s ∧ (Forall orderly es → sched_inv s).
Proof.
  assert (sched_inv Sched_new) as H0 by by constructor; [constructor|..]; cbn; set_solver.
  assert (placed ∅ Sched_new) as H1 by (intros t; set_solver).
  revert H0 H1. generalize Sched_new (∅ : gset Z). intros s0 L H0 H1 Hrun. split.
  - revert L H1. clear H0. induction Hrun as [|s0 e s1 es ds s Hstep _ IH]; intros L H1; [done|]. by eapply IH, sched_step_placed.
  - clear H1. induction Hrun as [|s0 e s1 es ds s Hstep _ IH]; [done|]. intros [He Hes]%Forall_cons. eapply IH; [by eapply sched_step_preserves|done].
Qed.

(** C32: a ready task is not starved.  In an execution that dispatches
    more often than there are tasks before it in the ready queue, not counting
    one dispatch for each call of [unblock_task] meanwhile (unblocked tasks go to
    the front of the queue), the task runs, unless it is removed from the queue
    because its process ends. *)
Theorem ready_task_runs s es ds s' pre t post :
  sched_run s es ds s' → ready_queue s = pre ++ t :: post → ERemove t ∉ es →
  (length pre + count_events is_unblock es < count_events is_dispatch es)%nat →
  t ∈ ds.
Proof.
  intros Hrun. revert pre post. unfold count_events.
  induction Hrun as [|s e s1 es ds s' Hstep _ IH]; intros pre post Hq Hrm Hlt; [simpl in Hlt; lia|].
  apply not_elem_of_cons in Hrm as [Hne Hrm]. rewrite !filter_cons in Hlt.
  apply sched_step_inv in Hstep. destruct e as [| | |u|u|u|u|u|u]; simpl in Hlt.
  - destruct Hstep as [Hc ->]. rewrite Hq. destruct pre as [|x pre]; simpl; [set_solver|].
    apply elem_of_cons. right. eapply (IH pre post); [by rewrite Hq|done|simpl in Hlt; lia].
  - destruct Hstep as (c & Hc & ->). eapply (IH pre (post ++ [c])); [|done|lia]. simpl. by rewrite Hq, <-app_assoc.
  - destruct Hstep as (c & Hc & ->). by eapply (IH pre post).
  - destruct Hstep as [Hc ->]. by eapply (IH pre post).
  - destruct Hstep as [_ ->]. eapply (IH pre (post ++ [u])); [|done|lia]. simpl. by rewrite Hq, <-app_assoc.
  - destruct Hstep as [_ ->]. eapply (IH (u :: pre) post); [|done|simpl; lia]. simpl. by rewrite Hq.
  - subst s1. case_bool_decide; [eapply (IH (u :: pre) post); [|done|simpl; lia]; simpl; by rewrite Hq|]. eapply (IH pre post); [done|done|lia].
  - subst s1. eapply (IH pre (post ++ [u])); [|done|lia]. simpl. by rewrite Hq, <-app_assoc.
  - subst s1. assert (u ≠ t) as Hut by congruence. cbn in IH. rewrite Hq, remove_first_app in IH. case_decide as Hu.
    + eapply (IH (remove_first u pre) post); [done|done|]. pose proof (Permutation_length (remove_first_perm u pre Hu)) as Hl. simpl in Hl. lia.
    + eapply (IH pre (remove_first u post)); [simpl; by rewrite bool_decide_false by done|done|lia].
Qed.

(** ** Witnesses *)

Lemma run_dispatch s s1 t es ds s' :
  sched_step s EDispatch s1 → current s1 = Some t → sched_run s1 es ds s' →
  sched_run s (EDispatch :: es) (t :: ds) s'.
Proof.
  intros H1 Hc H2. change (t :: ds) with (option_list (Some t) ++ ds). rewrite <-Hc.
  by apply (run_cons s EDispatch s1).
Qed.

(** A task that blocks and is woken is ready and still on the block queue. *)
Lemma wakeup_keeps_blocked : ∃ s,
  sched_run Sched_new [ESpawn 1; EDispatch; EBlock; EWakeup 1] [1] s ∧ ready_queue s = [1] ∧ block_queue s = [1].
Proof.
  eexists. split; [|split; [|] ].
  - eapply (run_cons _ (ESpawn 1) _ _ [1]); [by eapply step_spawn; [apply not_elem_of_nil|]|].
    eapply run_dispatch; [by eapply step_dispatch|done|].
    eapply (run_cons _ EBlock _ _ []); [by eapply (step_block _ 1)|].
    eapply (run_cons _ (EWakeup 1) _ _ []); [by eapply step_wakeup|]. apply run_nil.
  - done.
  - done.
Qed.

(** Tasks 1 and 2 start; 1 runs and blocks, 2 runs, wakes 1 and is preempted. *)
Lemma demo_run : ∃ s1 s,
  sched_run Sched_new [ESpawn 1; ESpawn 2] [] s1 ∧ ready_queue s1 = [1; 2] ∧
  sched_run s1 [EDispatch; EBlock; EDispatch; EUnblock 1; ESuspend; EDispatch] [1; 2; 1] s.
Proof.
  eexists _, _. split_and!.
  - eapply (run_cons _ (ESpawn 1) _ _ []); [eapply step_spawn; [by apply not_elem_of_nil|reflexivity]|].
    eapply (run_cons _ (ESpawn 2) _ _ []); [eapply step_spawn; [set_solver|reflexivity]|]. apply run_nil.
  - done.
  - eapply run_dispatch; [by eapply step_dispatch|done|].
    eapply (run_cons _ EBlock _ _ [2; 1]); [by eapply (step_block _ 1)|].
    eapply run_dispatch; [by eapply step_dispatch|done|].
    eapply (run_cons _ (EUnblock 1) _ _ [1]); [eapply step_unblock; [set_solver|done|reflexivity]|].
    eapply (run_cons _ ESuspend _ _ [1]); [by eapply (step_suspend _ 2)|].
    eapply run_dispatch; [by eapply step_dispatch|done|]. apply run_nil.
Qed.

Lemma scheduler_invariant_witness : ∃ s,
  sched_run Sched_new [ESpawn 1; ESpawn 2] [] s ∧ ready_queue s = [1; 2] ∧ placed {[1; 2]} s ∧ sched_inv s.
Proof.
  destruct demo_run as (s1 & _ & H & Hq & _). destruct (scheduler_invariant _ _ _ H) as [HP HI].
  exists s1. split; [exact H|]. split; [exact Hq|]. split; [|apply HI; repeat constructor].
  replace ({[1; 2]} : gset Z) with (foldl live_after ∅ [ESpawn 1; ESpawn 2]) by (vm_compute; reflexivity). exact HP.
Defined.

Lemma ready_task_runs_witness : ∃ s1 s,
  sched_run s1 [EDispatch; EBlock; EDispatch; EUnblock 1; ESuspend; EDispatch] [1; 2; 1] s ∧ ready_queue s1 = [1; 2] ∧ 2 ∈ [1; 2; 1].
Proof.
  destruct demo_run as (s1 & s & _ & Hq & H). exists s1, s. split; [exact H|]. split; [exact Hq|].
  refine (ready_task_runs s1 _ _ s [1] 2 [] H Hq _ _); [|vm_compute; lia]. rewrite !not_elem_of_cons. split_and!; try discriminate. apply not_elem_of_nil.
Defined.
