(* ===== verification/Sync.v ===== *)
(** * Locks: [kernel/src/sync/mutex.rs], [kernel/src/sync/semaphore.rs] and
    [kernel/src/sync/condvar.rs]

    A call of [lock] or [down] that cannot proceed puts the caller on a wait
    queue and blocks; it returns when another task has woken the caller and
    the scheduler dispatches it.  A call is therefore split in the part up to
    the switch ([lk_acquire]) and the part after it ([lk_resume]), which
    answer whether the call has returned.  The tasks that use a lock
    ([client_step]) also do everything else that concerns the scheduler, and are
    made runnable by others ([COutside]). *)

From stdpp Require Import functions.
From S2P Require Import Prelude Sched.

Section state.
Context {P A : Type}.

(** Operations of the scheduler and of the lock on their joint state. *)
Definition on_sched (m : ST Sched A) : ST (Sched * P) A := fun st =>
  match m st.1 with
  | Ok (a, s) => Ok (a, (s, st.2))
  | Panic => Panic
  | OutOfFuel => OutOfFuel
  end.

Definition get_prim : ST (Sched * P) P := gets snd.
Definition put_prim (p : P) : ST (Sched * P) unit := modify (fun st => (st.1, p)).
End state.

(** ** [MutexSpin]: the state is the flag *)

Record MutexSpin : Type := mkMutexSpin { spin_locked : bool }.

Definition MutexSpin_new : MutexSpin := mkMutexSpin false.

(** One round of the loop of [lock]. *)
Definition MutexSpin_lock_round : ST (Sched * MutexSpin) bool :=
  m ← get_prim;
  if spin_locked m then
    on_sched suspend_current_and_run_next;; mret false
  else
    put_prim (mkMutexSpin true);; mret true.

Definition MutexSpin_unlock : ST (Sched * MutexSpin) unit := put_prim (mkMutexSpin false).

(** ** [MutexBlocking] *)

Record MutexBlockingInner : Type := mkMutexBlockingInner {
  mb_locked : bool;
  mb_wait_queue : list Z
}.

Definition MutexBlocking_new : MutexBlockingInner := mkMutexBlockingInner false [].

Definition MutexBlocking_lock : ST (Sched * MutexBlockingInner) bool :=
  m ← get_prim;
  if mb_locked m then
    c ← on_sched current_task;
    t ← unwrap c;
    put_prim (mkMutexBlockingInner (mb_locked m) (mb_wait_queue m ++ [t]));;
    on_sched block_current_and_run_next;;
    mret false
  else
    put_prim (mkMutexBlockingInner true (mb_wait_queue m));;
    mret true.

Definition MutexBlocking_unlock : ST (Sched * MutexBlockingInner) unit :=
  m ← get_prim;
  rust_assert (mb_locked m);;
  match mb_wait_queue m with
  | waking_task :: q =>
      put_prim (mkMutexBlockingInner (mb_locked m) q);;
      on_sched (wakeup_task waking_task)
  | [] => put_prim (mkMutexBlockingInner false [])
  end.

(** ** [Semaphore]; [count] is an [isize] *)

Record SemaphoreInner : Type := mkSemaphoreInner {
  sem_count : Z;
  sem_wait_queue : list Z
}.

Definition Semaphore_new (res_count : Z) : SemaphoreInner := mkSemaphoreInner (as_isize res_count) [].

Definition Semaphore_up : ST (Sched * SemaphoreInner) unit :=
  m ← get_prim;
  let count := as_isize (sem_count m ⊞ 1) in
  put_prim (mkSemaphoreInner count (sem_wait_queue m));;
  if count <=? 0 then
    match sem_wait_queue m with
    | task :: q => put_prim (mkSemaphoreInner count q);; on_sched (wakeup_task task)
    | [] => mret tt
    end
  else mret tt.

Definition Semaphore_down : ST (Sched * SemaphoreInner) bool :=
  m ← get_prim;
  let count := as_isize (sem_count m ⊟ 1) in
  put_prim (mkSemaphoreInner count (sem_wait_queue m));;
  if count <? 0 then
    c ← on_sched current_task;
    t ← unwrap c;
    put_prim (mkSemaphoreInner count (sem_wait_queue m ++ [t]));;
    on_sched block_current_and_run_next;;
    mret false
  else mret true.

(** ** [Condvar], with the mutex it is used with *)

Record CondvarInner : Type := mkCondvarInner { cv_wait_queue : list Z }.

Definition Condvar_new : CondvarInner := mkCondvarInner [].

Definition on_mutex {P Q A} (m : ST (Sched * P) A) : ST (Sched * (P * Q)) A := fun st =>
  match m (st.1, st.2.1) with
  | Ok (a, (s, p)) => Ok (a, (s, (p, st.2.2)))
  | Panic => Panic
  | OutOfFuel => OutOfFuel
  end.

Definition Condvar_signal {P} : ST (Sched * (P * CondvarInner)) unit :=
  m ← get_prim;
  match cv_wait_queue m.2 with
  | task :: q => put_prim (m.1, mkCondvarInner q);; on_sched (wakeup_task task)
  | [] => mret tt
  end.

(** [wait] up to the switch; [mutex.lock()] follows when the task is woken. *)
Definition Condvar_wait : ST (Sched * (MutexBlockingInner * CondvarInner)) unit :=
  on_mutex MutexBlocking_unlock;;
  m ← get_prim;
  c ← on_sched current_task;
  t ← unwrap c;
  put_prim (m.1, mkCondvarInner (cv_wait_queue m.2 ++ [t]));;
  on_sched block_current_and_run_next.

Definition Condvar_wait_resume {Q} : ST (Sched * (MutexBlockingInner * Q)) bool :=
  on_mutex MutexBlocking_lock.

(** ** The interface of a lock and the tasks that use one *)

Class LockOps (P : Type) : Type := {
  lk_acquire : ST (Sched * P) bool;
  lk_resume : ST (Sched * P) bool;
  lk_release : ST (Sched * P) unit
}.

#[global] Instance MutexSpin_lock_ops : LockOps MutexSpin :=
  {| lk_acquire := MutexSpin_lock_round; lk_resume := MutexSpin_lock_round;
     lk_release := MutexSpin_unlock |}.

#[global] Instance MutexBlocking_lock_ops : LockOps MutexBlockingInner :=
  {| lk_acquire := MutexBlocking_lock; lk_resume := mret true;
     lk_release := MutexBlocking_unlock |}.

#[global] Instance Semaphore_lock_ops : LockOps SemaphoreInner :=
  {| lk_acquire := Semaphore_down; lk_resume := mret true; lk_release := Semaphore_up |}.

(** Where a task is with respect to the lock. *)
Inductive Phase : Type := Outside | Waiting | Critical.

Section client.
Context {P : Type} `{!LockOps P}.

Record Client : Type := mkClient { cl_st : Sched * P; phase : Z → Phase }.

Definition entered (b : bool) : Phase := if b then Critical else Waiting.

Definition is_waiting (x : Phase) : bool := match x with Waiting => true | _ => false end.

(** What the tasks and the scheduler do, and a task that somebody else makes
    runnable: the end of a child and futexes call [unblock_task], other locks and
    timers [wakeup_task].  The call is [expected] if the task is blocked, and not
    because it waits for this lock. *)
Inductive cl_event : Type :=
  | CTask
  | COutside (expected : bool).

Definition expected (st : Sched * P) (ph : Z → Phase) (u : Z) : bool :=
  bool_decide (task_status st.1 u = Blocked) && negb (is_waiting (ph u)).

(** Control blocks live in the kernel's heap. *)
Definition task_id (t : Z) : Prop := 0 ≤ t < 2 ^ 61.

(** Tasks take and release the lock in any order; when they are not inside a call
    they may be preempted, block for another reason, end, start other tasks and
    remove tasks that do not wait for the lock. *)
Inductive client_step : Client → cl_event → Client → Prop :=
  | cl_dispatch st ph st' :
      current st.1 = None → on_sched run_tasks_round st = Ok (tt, st') →
      client_step (mkClient st ph) CTask (mkClient st' ph)
  | cl_preempt st ph t st' :
      current st.1 = Some t → ph t ≠ Waiting →
      on_sched suspend_current_and_run_next st = Ok (tt, st') →
      client_step (mkClient st ph) CTask (mkClient st' ph)
  | cl_block st ph t st' :
      current st.1 = Some t → ph t ≠ Waiting →
      on_sched block_current_and_run_next st = Ok (tt, st') →
      client_step (mkClient st ph) CTask (mkClient st' ph)
  | cl_exit st ph t st' :
      ph t ≠ Waiting → on_sched take_current_task st = Ok (Some t, st') →
      client_step (mkClient st ph) CTask (mkClient st' ph)
  | cl_spawn st ph t st' :
      t ∉ known st.1 → ph t = Outside → task_id t →
      on_sched (modify (with_status t Ready);; add_task t) st = Ok (tt, st') →
      client_step (mkClient st ph) CTask (mkClient st' ph)
  | cl_remove st ph u st' :
      ph u ≠ Waiting → on_sched (remove_task u) st = Ok (tt, st') →
      client_step (mkClient st ph) CTask (mkClient st' ph)
  | cl_unblock st ph u st' :
      on_sched (unblock_task u) st = Ok (tt, st') →
      client_step (mkClient st ph) (COutside (expected st ph u)) (mkClient st' ph)
  | cl_wakeup st ph u st' :
      on_sched (wakeup_task u) st = Ok (tt, st') →
      client_step (mkClient st ph) (COutside (expected st ph u)) (mkClient st' ph)
  | cl_acquire st ph t b st' :
      current st.1 = Some t → ph t = Outside → lk_acquire st = Ok (b, st') →
      client_step (mkClient st ph) CTask (mkClient st' (<[t := entered b]> ph))
  | cl_resume st ph t b st' :
      current st.1 = Some t → ph t = Waiting → lk_resume st = Ok (b, st') →
      client_step (mkClient st ph) CTask (mkClient st' (<[t := entered b]> ph))
  | cl_release st ph t st' :
      current st.1 = Some t → ph t = Critical → lk_release st = Ok (tt, st') →
      client_step (mkClient st ph) CTask (mkClient st' (<[t := Outside]> ph)).

Inductive client_run : Client → list cl_event → Client → Prop :=
  | cr_nil c : client_run c [] c
  | cr_cons c e c1 es c' : client_step c e c1 → client_run c1 es c' → client_run c (e :: es) c'.

(** The tasks [ts] are ready and none has used the lock. *)
Definition client_init (ts : list Z) (p : P) : Client :=
  mkClient (mkSched ts [] None (fun _ => Ready), p) (fun _ => Outside).
End client.
Arguments Client : clear implicits.

(** ** What a lock with a wait queue promises

    [view p h q] says that the lock [p] has been granted [h] times and is
    waited for by the tasks [q], in this order.  It is granted at most [n]
    times at once. *)

Definition small_queue (q : list Z) : Prop := Z.of_nat (length q) < 2 ^ 62.

Definition blocked (s : Sched) (t : Z) : Sched :=
  mkSched (ready_queue s) (block_queue s ++ [t]) None (<[t := Blocked]> (task_status s)).
Definition woken (s : Sched) (u : Z) : Sched :=
  mkSched (ready_queue s ++ [u]) (block_queue s) (current s) (<[u := Ready]> (task_status s)).

Class QueueLock (P : Type) `{!LockOps P} (n : nat) (view : P → nat → list Z → Prop) : Prop := {
  ql_bound p h q : view p h q → (h ≤ n)%nat ∧ (q ≠ [] → h = n);
  ql_acquire s p h q t : view p h q → current s = Some t → small_queue q →
    ∃ p', ((h < n)%nat ∧ lk_acquire (s, p) = Ok (true, (s, p')) ∧ view p' (S h) []) ∨
          (h = n ∧ lk_acquire (s, p) = Ok (false, (blocked s t, p')) ∧ view p' n (q ++ [t]));
  ql_resume st : lk_resume st = Ok (true, st);
  ql_release s p h q : view p (S h) q → small_queue q →
    ∃ p', match q with
          | [] => lk_release (s, p) = Ok (tt, (s, p')) ∧ view p' h []
          | u :: q' => lk_release (s, p) = Ok (tt, (woken s u, p')) ∧ view p' (S h) q'
          end
}.

(** *** The two queue locks *)

Definition mutex_view (m : MutexBlockingInner) (h : nat) (q : list Z) : Prop :=
  m = mkMutexBlockingInner (bool_decide (h = 1)%nat) q ∧ (h ≤ 1)%nat ∧ (q ≠ [] → h = 1%nat).

#[global] Instance MutexBlocking_QueueLock : QueueLock MutexBlockingInner 1 mutex_view.
Proof.
  constructor.
  - by intros p h q (-> & ? & ?).
  - intros s p h q t (-> & Hh & Hq) Hc _. unfold lk_acquire, MutexBlocking_lock_ops,
      MutexBlocking_lock, get_prim, gets, mbind, st_bind. cbn [snd mb_locked].
    case_bool_decide as Hh1.
    + eexists. right. split; [done|]. unfold on_sched at 1, current_task, gets. cbn [fst snd].
      rewrite Hc. cbn [unwrap mret st_ret]. unfold put_prim, modify, on_sched. cbn [fst snd].
      rewrite (block_eq s t) by done. subst h. split; [done|].
      unfold mutex_view. split_and!; [done|done|done].
    + assert (h = 0%nat) as -> by lia. assert (q = []) as ->.
      { destruct q; [done|]. by specialize (Hq ltac:(done)). }
      eexists. left. split; [lia|]. split; [done|]. unfold mutex_view. split_and!; [done|done|done].
  - done.
  - intros s p h q (-> & Hh & Hq) _. assert (h = 0%nat) as -> by lia.
    unfold lk_release, MutexBlocking_lock_ops, MutexBlocking_unlock, get_prim, gets, mbind, st_bind.
    cbn. destruct q as [|u q]; eexists; (split; [done|]); unfold mutex_view; split_and!; done || lia.
Qed.

Definition sem_view (n : nat) (m : SemaphoreInner) (h : nat) (q : list Z) : Prop :=
  m = mkSemaphoreInner (Z.of_nat n - Z.of_nat h - Z.of_nat (length q)) q ∧
  (h ≤ n)%nat ∧ (q ≠ [] → h = n).

Lemma Semaphore_QueueLock n :
  Z.of_nat n < 2 ^ 62 → QueueLock SemaphoreInner n (sem_view n).
Proof.
  intros Hn. constructor.
  - by intros p h q (-> & ? & ?).
  - intros s p h q t (-> & Hh & Hq) Hc Hs. unfold small_queue in Hs.
    unfold lk_acquire, Semaphore_lock_ops, Semaphore_down, get_prim, gets, mbind, st_bind.
    cbn [snd sem_count sem_wait_queue]. rewrite as_isize_wrap64 by lia.
    unfold put_prim, modify. cbn [fst snd]. destruct (Z.ltb_spec (Z.of_nat n - Z.of_nat h - Z.of_nat (length q) - 1) 0).
    + assert (h = n) as ->.
      { destruct q; [simpl in *; lia|]. by apply Hq. }
      eexists. right. split; [done|]. unfold on_sched at 1, current_task, gets. cbn [fst snd].
      rewrite Hc. cbn [unwrap mret st_ret]. unfold on_sched. cbn [fst snd].
      rewrite (block_eq s t) by done. split; [done|]. split; [|done].
      f_equal. rewrite length_app. simpl. lia.
    + assert (q = []) as ->.
      { destruct q; [done|]. specialize (Hq ltac:(done)). simpl in *. lia. }
      simpl length in *. eexists. left. split; [lia|]. split; [done|].
      split; [|split; [lia|done]]. f_equal. simpl. lia.
  - done.
  - intros s p h q (-> & Hh & Hq) Hs. unfold small_queue in Hs.
    unfold lk_release, Semaphore_lock_ops, Semaphore_up, get_prim, gets, mbind, st_bind.
    cbn [snd sem_count sem_wait_queue]. rewrite as_isize_wrap64 by lia.
    unfold put_prim, modify. cbn [fst snd].
    destruct q as [|u q]; simpl length in *.
    + rewrite (proj2 (Z.leb_gt _ 0)) by (simpl; lia). eexists. split; [done|]. split; [f_equal; simpl; lia|]. split; [lia|done].
    + specialize (Hq ltac:(done)).
      rewrite (proj2 (Z.leb_le _ 0)) by (simpl; lia).
      eexists. split; [done|]. cbn [fst snd length]. split; [f_equal; lia|]. split; [lia|done].
Qed.

(** ** The tasks that use a queue lock *)

(** The tasks that the scheduler can run. *)
Definition runnable (s : Sched) : list Z := option_list (current s) ++ ready_queue s.

Lemma NoDup_bounded (l : list Z) N :
  0 ≤ N → NoDup l → (∀ x, x ∈ l → 0 ≤ x < N) → Z.of_nat (length l) ≤ N.
Proof.
  intros HN Hn Hb. assert (length l ≤ length (seqZ 0 N))%nat as Hl.
  { apply submseteq_length, NoDup_submseteq; [done|].
    intros x Hx. apply elem_of_seqZ. apply Hb in Hx. lia. }
  rewrite length_seqZ in Hl. lia.
Qed.

Lemma task_ids_bound l : NoDup l → Forall task_id l → small_queue l.
Proof.
  intros Hn Hb. unfold small_queue. rewrite Forall_forall in Hb.
  pose proof (NoDup_bounded l (2 ^ 61) ltac:(lia) Hn Hb). lia.
Qed.

Section queue_lock.
Context {P : Type} `{!LockOps P} (n : nat) (view : P → nat → list Z → Prop).
Context `{!QueueLock P n view}.

(** [hs] are the tasks that were granted the lock: those in their critical
    section and those that were woken but have not run yet. *)
Record cl_inv (c : Client P) (hs q : list Z) : Prop := {
  ci_view : view (cl_st c).2 (length hs) q;
  ci_hs : NoDup hs;
  ci_q : NoDup q;
  ci_granted : ∀ t, t ∈ hs ↔ phase c t = Critical ∨ (phase c t = Waiting ∧ t ∉ q);
  ci_queued : ∀ t, t ∈ q → phase c t = Waiting ∧ t ∉ runnable (cl_st c).1;
  ci_ids : Forall task_id (q ++ runnable (cl_st c).1);
  ci_sched : NoDup (runnable (cl_st c).1);
  ci_woken : ∀ t, phase c t = Waiting → t ∉ q → t ∈ runnable (cl_st c).1;
  ci_blocked : ∀ t, task_status (cl_st c).1 t = Blocked → task_id t ∧ t ∉ runnable (cl_st c).1
}.

Lemma ci_small c hs q : cl_inv c hs q → small_queue q.
Proof.
  intros Hi. apply task_ids_bound; [apply Hi|]. by destruct (proj1 (Forall_app _ _ _) (ci_ids c hs q Hi)).
Qed.

(** A step that leaves the lock and the tasks that wait for it alone. *)
Lemma cl_inv_sched s p ph s' hs q :
  cl_inv (mkClient (s, p) ph) hs q → NoDup (runnable s') → Forall task_id (runnable s') →
  (∀ t, ph t = Waiting → t ∈ runnable s' ↔ t ∈ runnable s) →
  (∀ t, task_status s' t = Blocked → task_id t ∧ t ∉ runnable s') →
  cl_inv (mkClient (s', p) ph) hs q.
Proof.
  intros [H1 H2 H3 H4 H5 H6 H7 H8 H9] Hn Hid Hr Hb. cbn in *. apply Forall_app in H6 as [H6 _].
  constructor; cbn; [done|done|done|done| | |done| |done].
  - intros t Ht. destruct (H5 t Ht) as [Hw Hnr]. by rewrite Hr.
  - by apply Forall_app.
  - intros t Hw Hq. rewrite Hr by done. auto.
Qed.

Lemma phase_insert {A} (f : Z → A) t x u :
  (<[t := x]> f) u = if decide (u = t) then x else f u.
Proof.
  destruct (decide (u = t)) as [->|]; [apply fn_lookup_insert|by apply fn_lookup_insert_ne].
Qed.

(** Propositional reasoning about phases; the context is cut down first. *)
Ltac phase_solve :=
  repeat match goal with H : ∀ _, _ |- _ => clear H end; intuition congruence.

(** The lock is granted to the running task. *)
Lemma cl_inv_enter s p ph hs p' t :
  cl_inv (mkClient (s, p) ph) hs [] → current s = Some t → ph t = Outside →
  view p' (S (length hs)) [] →
  cl_inv (mkClient (s, p') (<[t := Critical]> ph)) (t :: hs) [].
Proof.
  intros [H1 H2 H3 H4 H5 H6 H7 H8 H9] Hc Hp Hv. cbn in *.
  assert (t ∉ hs) by (rewrite H4, Hp; phase_solve).
  constructor; cbn; [done|by apply NoDup_cons|done| |set_solver|done|done| |done].
  - intros u. rewrite elem_of_cons, phase_insert, H4. case_decide; phase_solve.
  - intros u. rewrite phase_insert. case_decide; [done|auto].
Qed.

(** The running task joins the queue and leaves the processor. *)
Lemma cl_inv_wait s p ph hs q p' t :
  cl_inv (mkClient (s, p) ph) hs q → current s = Some t → ph t = Outside →
  view p' (length hs) (q ++ [t]) →
  cl_inv (mkClient (blocked s t, p') (<[t := Waiting]> ph)) hs (q ++ [t]).
Proof.
  intros [H1 H2 H3 H4 H5 H6 H7 H8 H9] Hc Hp Hv. cbn in *.
  assert (t ∉ q) as Htq by (intros Hq%H5; destruct Hq; congruence).
  unfold runnable in *. rewrite Hc in *. cbn in *. apply NoDup_cons in H7 as [Ht Hr].
  constructor; cbn; [done|done| | | | |done| |].
  - apply NoDup_app. split_and!; [done|set_solver|apply NoDup_singleton].
  - intros u. rewrite phase_insert, H4, elem_of_app, list_elem_of_singleton.
    case_decide as Hu; [subst u; rewrite Hp|]; phase_solve.
  - intros u. rewrite elem_of_app, list_elem_of_singleton, phase_insert.
    case_decide as Hu; [by subst u|]. intros [Hq|]; [|done]. apply H5 in Hq. set_solver.
  - by rewrite <-app_assoc.
  - intros u. rewrite phase_insert. case_decide as Hu; [set_solver|].
    intros Hw Hnq. specialize (H8 u Hw). set_solver.
  - intros u. rewrite phase_insert. case_decide as Hu; [subst u; intros _; split; [|done]|].
    + apply Forall_app in H6 as [_ [? _]%Forall_cons]. done.
    + intros Hb. destruct (H9 u Hb). set_solver.
Qed.

(** A woken task returns from its call. *)
Lemma cl_inv_resume s p ph hs q t :
  cl_inv (mkClient (s, p) ph) hs q → current s = Some t → ph t = Waiting →
  cl_inv (mkClient (s, p) (<[t := Critical]> ph)) hs q.
Proof.
  intros [H1 H2 H3 H4 H5 H6 H7 H8 H9] Hc Hp. cbn in *.
  assert (t ∉ q) as Hq.
  { intros Hq%H5. destruct Hq as [_ Hr]. destruct Hr. unfold runnable. rewrite Hc. set_solver. }
  constructor; cbn; [done|done|done| | |done|done| |done].
  - intros u. rewrite H4, phase_insert. case_decide as Hu; [subst u|]; phase_solve.
  - intros u Hu. rewrite phase_insert. case_decide; [by subst u|auto].
  - intros u. rewrite phase_insert. case_decide; [done|auto].
Qed.

(** The running task gives the lock back and nobody waits. *)
Lemma cl_inv_leave s p ph hs p' t :
  cl_inv (mkClient (s, p) ph) (t :: hs) [] → current s = Some t → ph t = Critical →
  view p' (length hs) [] →
  cl_inv (mkClient (s, p') (<[t := Outside]> ph)) hs [].
Proof.
  intros [H1 H2 H3 H4 H5 H6 H7 H8 H9] Hc Hp Hv. cbn in *. apply NoDup_cons in H2 as [Ht H2].
  constructor; cbn; [done|done|done| |set_solver|done|done| |done].
  - intros u. specialize (H4 u). rewrite elem_of_cons in H4. rewrite phase_insert.
    case_decide as Hu; [subst u|]; phase_solve.
  - intros u. rewrite phase_insert. case_decide; [done|auto].
Qed.

(** The running task hands the lock to the first waiting task. *)
Lemma cl_inv_handoff s p ph hs u q p' t :
  cl_inv (mkClient (s, p) ph) (t :: hs) (u :: q) → current s = Some t → ph t = Critical →
  view p' (S (length hs)) q →
  cl_inv (mkClient (woken s u, p') (<[t := Outside]> ph)) (u :: hs) q.
Proof.
  intros [H1 H2 H3 H4 H5 H6 H7 H8 H9] Hc Hp Hv. cbn in *.
  apply NoDup_cons in H2 as [Ht H2]. apply NoDup_cons in H3 as [Hu H3].
  destruct (H5 u) as [Hpu Hru]; [left|].
  assert (runnable (woken s u) ≡ₚ u :: runnable s) as Hr.
  { unfold runnable. cbn. rewrite app_assoc. symmetry. apply Permutation_cons_append. }
  constructor; cbn; [done| |done| | | | | |].
  - apply NoDup_cons. split; [|done]. intros Hin.
    destruct (proj1 (H4 u) (proj2 (elem_of_cons hs u t) (or_intror Hin))) as [|[_ []]]; [congruence|left].
  - intros v. specialize (H4 v). rewrite !elem_of_cons in *. rewrite phase_insert.
    destruct (decide (v = t)), (decide (v = u)); subst; phase_solve.
  - intros v Hv'. destruct (H5 v) as [Hp1 Hp2]; [by right|]. rewrite phase_insert, Hr, elem_of_cons.
    case_decide; [subst v; congruence|]. split; [done|]. intros [->|]; done.
  - rewrite Hr. apply Forall_cons in H6 as [Hiu H6]. apply Forall_app in H6 as [Hq6 Hr6].
    apply Forall_app. split; [done|]. by apply Forall_cons.
  - rewrite Hr. by apply NoDup_cons.
  - intros v. rewrite phase_insert, Hr, elem_of_cons. case_decide; [done|]. intros Hw Hnq.
    destruct (decide (v = u)); [by left|]. right. apply (H8 v Hw).
    rewrite elem_of_cons. intros [|]; done.
  - intros v. rewrite phase_insert. case_decide; [done|]. intros Hb. destruct (H9 v Hb) as [? Hnr]. split; [done|]. rewrite Hr, elem_of_cons. intros [|]; done.
Qed.

Lemma cl_inv_perm c hs hs' q : cl_inv c hs q → (hs ≡ₚ hs') → cl_inv c hs' q.
Proof.
  intros [H1 H2 H3 H4 H5 H6 H7 H8 H9] Hp.
  constructor; [by rewrite <-Hp|by rewrite <-Hp|done| |done|done|done|done|done].
  intros t. by rewrite <-Hp.
Qed.

(** The holder is among the granted tasks. *)
Lemma cl_inv_holder c hs q t :
  cl_inv c hs q → phase c t = Critical → ∃ hs', cl_inv c (t :: hs') q.
Proof.
  intros Hi Hp. assert (t ∈ hs) as [hs' Hhs]%elem_of_Permutation.
  { apply (ci_granted c hs q Hi). by left. }
  exists hs'. by eapply cl_inv_perm.
Qed.

(** Steps of the scheduler. *)
Lemma cl_inv_dispatch s p ph hs q : cl_inv (mkClient (s, p) ph) hs q → current s = None →
  cl_inv (mkClient (match ready_queue s with [] => s | t :: l => mkSched l (block_queue s) (Some t) (<[t := Running]> (task_status s)) end, p) ph) hs q.
Proof.
  intros Hi Hc. destruct (ready_queue s) as [|t l] eqn:Hr; [done|]. assert (runnable s = t :: l) as Er by (unfold runnable; by rewrite Hc, Hr).
  pose proof Hi as [_ _ _ _ _ H6 H7 _ H9]. cbn in *. rewrite Er in *. apply Forall_app in H6 as [_ H6].
  eapply cl_inv_sched; [done|done|done|by rewrite Er|]. cbn. intros u. rewrite phase_insert. case_decide; [done|]. auto.
Qed.

(** The running task leaves the processor. *)
Lemma cl_inv_yield s p ph hs q t st : cl_inv (mkClient (s, p) ph) hs q → current s = Some t → ph t ≠ Waiting → st ≠ Blocked →
  cl_inv (mkClient (mkSched (ready_queue s ++ [t]) (block_queue s) None (<[t := st]> (task_status s)), p) ph) hs q.
Proof.
  intros Hi Hc Hp Hst. assert (runnable s = t :: ready_queue s) as Er by (unfold runnable; by rewrite Hc). set (s' := mkSched _ _ _ _).
  assert (runnable s' ≡ₚ runnable s) as Hr by (rewrite Er; symmetry; apply Permutation_cons_append).
  pose proof Hi as [_ _ _ _ _ H6 H7 _ H9]. cbn [cl_st phase fst snd] in *. apply Forall_app in H6 as [_ H6].
  eapply cl_inv_sched; [done|by rewrite Hr|by rewrite Hr|intros u _; by rewrite Hr|]. intros u. rewrite Hr. cbn. rewrite phase_insert. case_decide; [done|]. auto.
Qed.

Lemma cl_inv_stop s p ph hs q t s' : cl_inv (mkClient (s, p) ph) hs q → current s = Some t → ph t ≠ Waiting →
  ready_queue s' = ready_queue s → current s' = None → (∀ u, u ≠ t → task_status s' u = task_status s u) →
  cl_inv (mkClient (s', p) ph) hs q.
Proof.
  intros Hi Hc Hp Hq Hn Hst. assert (runnable s = t :: ready_queue s) as Er by (unfold runnable; by rewrite Hc).
  assert (runnable s' = ready_queue s) as Er' by (unfold runnable; by rewrite Hn, Hq).
  pose proof Hi as [_ _ _ _ _ H6 H7 _ H9]. cbn in *. rewrite Er in *. apply Forall_app in H6 as [_ [Ht H6]%Forall_cons]. apply NoDup_cons in H7 as [Hnt H7].
  eapply cl_inv_sched; [done|by rewrite Er'|by rewrite Er'| |]; rewrite ?Er, ?Er'.
  - intros u Hu. rewrite elem_of_cons. naive_solver.
  - intros u Hu. destruct (decide (u = t)) as [->|Hne]; [done|]. rewrite Hst in Hu by done. destruct (H9 u Hu). set_solver.
Qed.

Lemma cl_inv_remove s p ph hs q t : cl_inv (mkClient (s, p) ph) hs q → ph t ≠ Waiting →
  cl_inv (mkClient (with_ready (remove_first t (ready_queue s)) s, p) ph) hs q.
Proof.
  intros Hi Hp. destruct (decide (t ∈ ready_queue s)) as [Ht|Ht]; [|rewrite remove_first_id by done; by destruct s].
  set (s' := with_ready _ _). assert (runnable s ≡ₚ t :: runnable s') as Hr.
  { unfold runnable, s'. cbn. rewrite (remove_first_perm t _ Ht) at 1. symmetry. apply Permutation_middle. }
  pose proof Hi as [_ _ _ _ _ H6 H7 _ H9]. cbn [cl_st phase fst snd] in *. apply Forall_app in H6 as [_ H6]. rewrite Hr in H6, H7.
  apply Forall_cons in H6 as [_ H6]. apply NoDup_cons in H7 as [_ H7].
  eapply cl_inv_sched; [done..| |].
  - intros u Hu. rewrite Hr, elem_of_cons. naive_solver.
  - intros u Hu. destruct (H9 u Hu) as [? Hn]. split; [done|]. rewrite Hr in Hn. set_solver.
Qed.

(** A task that was not runnable becomes ready. *)
Lemma cl_inv_ready s p ph hs q u s' : cl_inv (mkClient (s, p) ph) hs q → u ∉ runnable s → task_id u → ph u ≠ Waiting →
  (runnable s' ≡ₚ u :: runnable s) → task_status s' = <[u := Ready]> (task_status s) → cl_inv (mkClient (s', p) ph) hs q.
Proof.
  intros Hi Hu Hid Hp Hr Hst. pose proof Hi as [_ _ _ _ _ H6 H7 _ H9]. cbn in *. apply Forall_app in H6 as [_ H6].
  eapply cl_inv_sched; [done|rewrite Hr; by apply NoDup_cons|rewrite Hr; by apply Forall_cons| |].
  - intros v Hv. rewrite Hr, elem_of_cons. naive_solver.
  - intros v. rewrite Hst, Hr, elem_of_cons, phase_insert. case_decide; [done|]. intros Hb. destruct (H9 v Hb). naive_solver.
Qed.

Lemma cl_inv_outside s p ph hs q u s' : cl_inv (mkClient (s, p) ph) hs q → expected (s, p) ph u = true →
  unblock_task u s = Ok (tt, s') ∨ wakeup_task u s = Ok (tt, s') → cl_inv (mkClient (s', p) ph) hs q.
Proof.
  intros Hi [Hb%bool_decide_eq_true Hw%negb_true_iff]%andb_true_iff Hs'. destruct (ci_blocked _ _ _ Hi u Hb) as [Hid Hu].
  assert (ph u ≠ Waiting) as Hp by (intros E; by rewrite E in Hw). cbn in *.
  assert (∀ rq bq, (rq ≡ₚ u :: ready_queue s) → runnable (mkSched rq bq (current s) (<[u := Ready]> (task_status s))) ≡ₚ u :: runnable s) as Hr.
  { intros rq bq E. unfold runnable. cbn. rewrite E. symmetry. apply Permutation_middle. }
  destruct Hs' as [E|E]; [rewrite unblock_eq in E; case_bool_decide|]; injection E as <-.
  - eapply cl_inv_ready; [done..|by apply Hr|done].
  - pose proof Hi as [_ _ _ _ _ H6 H7 _ H9]. cbn in *. apply Forall_app in H6 as [_ H6].
    eapply cl_inv_sched; [done..|]. cbn. intros v. rewrite phase_insert. case_decide; [done|]. intros Hv. by destruct (H9 v Hv).
  - eapply cl_inv_ready; [done..| |done]. apply Hr. symmetry. apply Permutation_cons_append.
Qed.

(** An operation of the scheduler on the joint state. *)
Lemma on_sched_Ok {X} (m : ST Sched X) (s : Sched) (p : P) x st : on_sched m (s, p) = Ok (x, st) → ∃ s', m s = Ok (x, s') ∧ st = (s', p).
Proof. unfold on_sched. cbn. destruct (m s) as [[y s1]| |]; [|done..]. intros [= <- <-]. eauto. Qed.

Lemma cl_step_inv c e c' hs q : cl_inv c hs q → client_step c e c' → e ≠ COutside false → ∃ hs' q', cl_inv c' hs' q'.
Proof.
  intros Hi Hstep He. pose proof (ci_small c hs q Hi) as Hs. pose proof (ci_view c hs q Hi) as Hv.
  destruct Hstep as [[s p] ph st' Hc H|[s p] ph t st' Hc Hp H|[s p] ph t st' Hc Hp H|[s p] ph t st' Hp H|[s p] ph t st' Hn Hp Hid H|[s p] ph u st' Hp H|[s p] ph u st' H|[s p] ph u st' H
    |[s p] ph t b st' Hc Hp H|[s p] ph t b st' Hc Hp H|[s p] ph t st' Hc Hp H]; cbn [fst snd cl_st phase] in *.
  - exists hs, q. apply on_sched_Ok in H as (s' & H & ->). rewrite run_tasks_round_eq in H. injection H as <-. by apply cl_inv_dispatch.
  - exists hs, q. apply on_sched_Ok in H as (s' & H & ->). rewrite (suspend_eq s t) in H by done. injection H as <-. by apply cl_inv_yield.
  - exists hs, q. apply on_sched_Ok in H as (s' & H & ->). rewrite (block_eq s t) in H by done. injection H as <-.
    eapply cl_inv_stop; try done. intros u Hu. cbn. rewrite phase_insert. by case_decide.
  - exists hs, q. apply on_sched_Ok in H as (s' & H & ->). injection H as Hc <-. by eapply cl_inv_stop.
  - exists hs, q. apply on_sched_Ok in H as (s' & H & ->). injection H as <-. assert (t ∉ runnable s) as Hr by (unfold known, runnable in *; set_solver).
    eapply (cl_inv_ready s p ph hs q t); try done; [congruence|]. unfold runnable. cbn. rewrite app_assoc. symmetry. apply Permutation_cons_append.
  - exists hs, q. apply on_sched_Ok in H as (s' & H & ->). injection H as <-. by apply cl_inv_remove.
  - exists hs, q. apply on_sched_Ok in H as (s' & H & ->). destruct (expected (s, p) ph u) eqn:E; [|done]. eapply cl_inv_outside; [done|done|by left].
  - exists hs, q. apply on_sched_Ok in H as (s' & H & ->). destruct (expected (s, p) ph u) eqn:E; [|done]. eapply cl_inv_outside; [done|done|by right].
  - destruct (ql_acquire s p _ q t Hv Hc Hs) as (p' & [(Hlt & Ha & Hv')|(Hn & Ha & Hv')]);
      rewrite Ha in H; injection H as <- <-.
    + assert (q = []) as ->.
      { destruct q; [done|]. destruct (ql_bound p _ _ Hv) as [_ Hq]. specialize (Hq ltac:(done)). lia. }
      exists (t :: hs), []. by eapply cl_inv_enter.
    + exists hs, (q ++ [t]). eapply cl_inv_wait; [done|done|done|]. by rewrite Hn.
  - rewrite ql_resume in H. injection H as <- <-. exists hs, q. by eapply cl_inv_resume.
  - destruct (cl_inv_holder _ hs q t Hi Hp) as [hs' Hi'].
    destruct (ql_release s p (length hs') q (ci_view _ _ _ Hi') Hs) as (p' & Hr).
    destruct q as [|u q]; destruct Hr as [Hr Hv']; rewrite Hr in H; injection H as <-.
    + exists hs', []. by eapply cl_inv_leave.
    + exists (u :: hs'), q. by eapply cl_inv_handoff.
Qed.

Lemma client_init_inv ts p :
  NoDup ts → Forall task_id ts → view p 0 [] → cl_inv (client_init ts p) [] [].
Proof.
  intros ???. constructor; cbn; [done|constructor|constructor| |set_solver|done|done|done|done].
  intros t. split; [set_solver|naive_solver].
Qed.

Lemma client_reach_inv ts p es c :
  NoDup ts → Forall task_id ts → view p 0 [] → client_run (client_init ts p) es c → COutside false ∉ es →
  ∃ hs q, cl_inv c hs q.
Proof.
  intros Hn Hf Hv. pose proof (client_init_inv ts p Hn Hf Hv) as Hi.
  enough (∀ c0 hs q, client_run c0 es c → COutside false ∉ es → cl_inv c0 hs q → ∃ hs q, cl_inv c hs q) as H.
  { intros Hr He. by eapply H. }
  intros c0 hs q Hr. revert hs q.
  induction Hr as [c|c e c1 es c' Hstep _ IH]; intros hs q He Hi'; [by exists hs, q|]. apply not_elem_of_cons in He as [He Hes].
  destruct (cl_step_inv c e c1 hs q Hi' Hstep ltac:(done)) as (hs1 & q1 & Hi1). by eapply IH.
Qed.

(** At most [n] tasks are in their critical sections. *)
Lemma client_critical_bound c hs q l :
  cl_inv c hs q → NoDup l → (∀ t, t ∈ l → phase c t = Critical) → (length l ≤ n)%nat.
Proof.
  intros Hi Hl Hc. destruct (ql_bound _ _ _ (ci_view c hs q Hi)) as [Hb _].
  etrans; [|exact Hb]. apply submseteq_length, NoDup_submseteq; [done|].
  intros t Ht. apply (ci_granted c hs q Hi). left. by apply Hc.
Qed.

(** A release by a holder does not fail. *)
Lemma client_release_ok c hs q t :
  cl_inv c hs q → phase c t = Critical → ∃ st, lk_release (cl_st c) = Ok (tt, st).
Proof.
  intros Hi Hp. destruct (cl_inv_holder c hs q t Hi Hp) as [hs' Hi'].
  destruct c as [[s p] ph].
  destruct (ql_release s p (length hs') q (ci_view _ _ _ Hi') (ci_small _ _ _ Hi)) as (p' & Hr).
  cbn [cl_st]. destruct q; destruct Hr as [-> _]; eauto.
Qed.
End queue_lock.

(** C29: mutual exclusion of [MutexBlocking].  Tasks lock and unlock the mutex,
    are preempted, block for other reasons, end, and start, remove and wake other
    tasks.  If every wake-up from outside the mutex is of a task that is blocked,
    and not in [lock], then at most one task is between [lock] and [unlock];
    [unlock] by that task never panics; and no wake-up is lost: a task whose call
    of [lock] has not returned is on the wait queue of a locked mutex or can be
    scheduled.  The condition is needed: [mutex_broken_by_unblock]. *)
Theorem mutex_mutual_exclusion ts es c :
  NoDup ts → Forall task_id ts →
  client_run (client_init ts MutexBlocking_new) es c → COutside false ∉ es →
  (∀ t u, phase c t = Critical → phase c u = Critical → t = u) ∧
  (∀ t, phase c t = Critical → ∃ st, MutexBlocking_unlock (cl_st c) = Ok (tt, st)) ∧
  (∀ t, phase c t = Waiting →
     (mb_locked (cl_st c).2 = true ∧ t ∈ mb_wait_queue (cl_st c).2) ∨ t ∈ runnable (cl_st c).1).
Proof.
  intros Hn Hf Hr He. destruct (client_reach_inv 1 mutex_view ts MutexBlocking_new es c) as (hs & q & Hi);
    [done|done|by unfold mutex_view; split_and!; auto with lia|done|done|].
  split_and!.
  - intros t u Ht Hu. destruct (decide (t = u)) as [|Hne]; [done|].
    pose proof (client_critical_bound 1 mutex_view c hs q [t; u] Hi) as Hb.
    enough (length [t; u] ≤ 1)%nat by (simpl in *; lia). apply Hb.
    + apply NoDup_cons. split; [set_solver|apply NoDup_singleton].
    + intros v Hv. apply elem_of_cons in Hv as [->|Hv]; [done|].
      by apply list_elem_of_singleton in Hv as ->.
  - intros t Ht. exact (client_release_ok 1 mutex_view c hs q t Hi Ht).
  - intros t Ht. destruct (decide (t ∈ q)) as [Hq|Hq].
    + left. destruct (ci_view _ _ _ _ Hi) as (Hm & _ & Hl). rewrite Hm. cbn.
      split; [|done]. apply bool_decide_eq_true, Hl. intros ->. by apply not_elem_of_nil in Hq.
    + right. by eapply (ci_woken _ _ _ _ Hi).
Qed.

(** C33: a semaphore created with [n] admits at most [n] tasks between
    [down] and [up], in every execution of such tasks in which every wake-up from
    outside the semaphore is of a task that is blocked, and not in [down].  When a task is queued, exactly [n]
    tasks have been admitted, so no permit is left unused; and a task whose
    [down] has not returned is queued or can be scheduled. *)
Theorem semaphore_admits n ts es c :
  Z.of_nat n < 2 ^ 62 → NoDup ts → Forall task_id ts →
  client_run (client_init ts (Semaphore_new (Z.of_nat n))) es c → COutside false ∉ es →
  ∃ hs, NoDup hs ∧ (length hs ≤ n)%nat ∧
    (∀ t, phase c t = Critical → t ∈ hs) ∧
    sem_count (cl_st c).2 =
      Z.of_nat n - Z.of_nat (length hs) - Z.of_nat (length (sem_wait_queue (cl_st c).2)) ∧
    (sem_wait_queue (cl_st c).2 ≠ [] → length hs = n) ∧
    (∀ t, phase c t = Waiting → t ∈ sem_wait_queue (cl_st c).2 ∨ (t ∈ hs ∧ t ∈ runnable (cl_st c).1)).
Proof.
  intros Hn Hd Hf Hr He. pose proof (Semaphore_QueueLock n Hn).
  destruct (client_reach_inv n (sem_view n) ts (Semaphore_new (Z.of_nat n)) es c) as (hs & q & Hi);
    [done|done| |done|done|].
  { unfold sem_view, Semaphore_new, as_isize. rewrite (proj2 (Z.ltb_lt _ _)) by lia.
    split_and!; [f_equal; simpl; lia|lia|done]. }
  destruct (ci_view _ _ _ _ Hi) as (Hm & Hle & Hq). exists hs. rewrite Hm. cbn.
  split_and!; [apply Hi|done| |done|done|].
  - intros t Ht. apply (ci_granted _ _ _ _ Hi). by left.
  - intros t Ht. destruct (decide (t ∈ q)) as [|Hnq]; [by left|right]. split.
    + apply (ci_granted _ _ _ _ Hi). by right.
    + by eapply (ci_woken _ _ _ _ Hi).
Qed.

(** The spin lock excludes too, as long as only the holder unlocks. *)
Lemma spin_mutual_exclusion ts es c :
  client_run (client_init ts MutexSpin_new) es c →
  (∀ t u, phase c t = Critical → phase c u = Critical → t = u) ∧
  (∀ t, phase c t = Critical → spin_locked (cl_st c).2 = true).
Proof.
  set (I (c : Client MutexSpin) := (∀ t u, phase c t = Critical → phase c u = Critical → t = u) ∧
    (∀ t, phase c t = Critical → spin_locked (cl_st c).2 = true)).
  enough (∀ c e c', client_step c e c' → I c → I c') as Hstep.
  { intros Hr. assert (I (client_init ts MutexSpin_new)) as H0 by done. revert H0.
    induction Hr as [|c0 e c1 es' c2 Hs _ IH]; [done|]. intros H0. by eapply IH, Hstep. }
  assert (∀ s p ph t b st', phase (mkClient (s, p) ph) t ≠ Critical → current s = Some t →
    MutexSpin_lock_round (s, p) = Ok (b, st') → I (mkClient (s, p) ph) →
    I (mkClient st' (<[t := entered b]> ph))) as Hround.
  { intros s [[]] ph t b st' Ht Hc H [H1 H2]; cbn in *.
    - unfold MutexSpin_lock_round, get_prim, gets, mbind, st_bind, on_sched in H. cbn in H.
      rewrite (suspend_eq s t) in H by done. injection H as <- <-.
      split; cbn; [intros u v; rewrite !phase_insert; repeat case_decide; auto; done|done].
    - injection H as <- <-. split; cbn; [|done].
      intros u v. rewrite !phase_insert. repeat case_decide; subst; auto;
        intros Hu Hv; exfalso; [by specialize (H2 v Hv)|by specialize (H2 u Hu)]. }
  assert (∀ A (m : ST Sched A) s p ph x st', on_sched m (s, p) = Ok (x, st') → I (mkClient (s, p) ph) → I (mkClient st' ph)) as Hsched.
  { intros A m s p ph x st' H. by apply on_sched_Ok in H as (s' & _ & ->). }
  intros c0 e c' Hs HI. destruct Hs as [[s p] ph st' Hc H|[s p] ph t st' Hc Hp H|[s p] ph t st' Hc Hp H|[s p] ph t st' Hp H|[s p] ph t st' Hn Hp Hid H|[s p] ph u st' Hp H|[s p] ph u st' H|[s p] ph u st' H
    |[s p] ph t b st' Hc Hp H|[s p] ph t b st' Hc Hp H|[s p] ph t st' Hc Hp H]; cbn in Hc || idtac; [by eapply Hsched..| | |].
  - eapply Hround; [cbn; congruence|done|done|done].
  - eapply Hround; [cbn; congruence|done|done|done].
  - injection H as <-. destruct HI as [H1 H2]. cbn in *. split; cbn.
    + intros u v. rewrite !phase_insert. repeat case_decide; [done|done|done|auto].
    + intros u. rewrite phase_insert. case_decide; [done|]. intros Hu. destruct (H1 t u Hp Hu). done.
Qed.

(** A task that waits on a condition variable has released the mutex, and the
    next signal makes the task that waited longest runnable. *)
Lemma condvar_wait_then_signal s t q :
  current s = Some t →
  ∃ st, Condvar_wait (s, (mkMutexBlockingInner true [], mkCondvarInner q)) = Ok (tt, st) ∧
    mb_locked st.2.1 = false ∧ cv_wait_queue st.2.2 = q ++ [t] ∧
    ∃ st', Condvar_signal st = Ok (tt, st') ∧
      ready_queue st'.1 = ready_queue s ++ take 1 (q ++ [t]) ∧
      cv_wait_queue st'.2.2 = drop 1 (q ++ [t]).
Proof.
  intros Hc. destruct s as [rq bq cur st]. cbn in Hc. subst cur.
  eexists. split; [reflexivity|]. split_and!; [done|done|].
  destruct q as [|u q]; (eexists; split_and!; [reflexivity|done|done]).
Qed.

(** Task 1 holds the mutex and task 2 waits for it when a child of task 2 ends:
    [exit_current_and_run_next] finds task 2 blocked and unblocks it, and its call
    of [lock] returns although task 1 has not released the mutex. *)
Lemma mutex_broken_by_unblock : ∃ es c,
  client_run (client_init [1; 2] MutexBlocking_new) es c ∧ phase c 1 = Critical ∧ phase c 2 = Critical.
Proof.
  do 2 eexists. split.
  - eapply cr_cons; [by eapply cl_dispatch|]. eapply cr_cons; [by eapply (cl_acquire _ _ 1)|].
    eapply cr_cons; [by eapply (cl_preempt _ _ 1)|]. eapply cr_cons; [by eapply cl_dispatch|].
    eapply cr_cons; [by eapply (cl_acquire _ _ 2)|]. eapply cr_cons; [by eapply (cl_unblock _ _ 2)|].
    eapply cr_cons; [by eapply cl_dispatch|]. eapply cr_cons; [by eapply (cl_resume _ _ 2)|]. apply cr_nil.
  - done.
Qed.

(** ** Witnesses *)

Lemma cl_wakeup_expected {P} `{!LockOps P} (st : Sched * P) ph u st' :
  expected st ph u = true → on_sched (wakeup_task u) st = Ok (tt, st') →
  client_step (mkClient st ph) (COutside true) (mkClient st' ph).
Proof. intros <-. apply cl_wakeup. Qed.

(** Task 1 holds the lock and blocks for another reason, task 2 waits for the lock,
    and a timer wakes task 1. *)
Lemma mutex_mutual_exclusion_witness : ∃ es c,
  client_run (client_init [1; 2] MutexBlocking_new) es c ∧ (COutside false ∉ es) ∧
  phase c 1 = Critical ∧ phase c 2 = Waiting ∧
  (∀ t u, phase c t = Critical → phase c u = Critical → t = u) ∧
  (∀ t, phase c t = Critical → ∃ st, MutexBlocking_unlock (cl_st c) = Ok (tt, st)) ∧
  (∀ t, phase c t = Waiting →
     (mb_locked (cl_st c).2 = true ∧ t ∈ mb_wait_queue (cl_st c).2) ∨ t ∈ runnable (cl_st c).1).
Proof.
  assert (∃ c, client_run (client_init [1; 2] MutexBlocking_new) [CTask; CTask; CTask; CTask; CTask; COutside true] c ∧
    phase c 1 = Critical ∧ phase c 2 = Waiting) as (c & Hr & H1 & H2).
  { eexists. split_and!.
    - eapply cr_cons; [by eapply cl_dispatch|]. eapply cr_cons; [by eapply (cl_acquire _ _ 1)|].
      eapply cr_cons; [by eapply (cl_block _ _ 1)|]. eapply cr_cons; [by eapply cl_dispatch|].
      eapply cr_cons; [by eapply (cl_acquire _ _ 2)|].
      eapply cr_cons; [eapply (cl_wakeup_expected _ _ 1); reflexivity|]. apply cr_nil.
    - done.
    - done. }
  assert (COutside false ∉ [CTask; CTask; CTask; CTask; CTask; COutside true]) as He by (rewrite !not_elem_of_cons; split_and!; [done..|apply not_elem_of_nil]).
  eexists _, c. split; [exact Hr|]. split; [exact He|]. split; [exact H1|]. split; [exact H2|].
  refine (mutex_mutual_exclusion [1; 2] _ c _ _ Hr He).
  - apply NoDup_cons. split; [set_solver|apply NoDup_singleton].
  - repeat constructor; lia.
Defined.

Lemma semaphore_admits_witness : ∃ es c,
  client_run (client_init [1; 2] (Semaphore_new 1)) es c ∧ (COutside false ∉ es) ∧
  phase c 1 = Critical ∧ phase c 2 = Waiting ∧
  ∃ hs, NoDup hs ∧ (length hs ≤ 1)%nat ∧
    (∀ t, phase c t = Critical → t ∈ hs) ∧
    sem_count (cl_st c).2 =
      1 - Z.of_nat (length hs) - Z.of_nat (length (sem_wait_queue (cl_st c).2)) ∧
    (sem_wait_queue (cl_st c).2 ≠ [] → length hs = 1%nat) ∧
    (∀ t, phase c t = Waiting → t ∈ sem_wait_queue (cl_st c).2 ∨ (t ∈ hs ∧ t ∈ runnable (cl_st c).1)).
Proof.
  assert (∃ c, client_run (client_init [1; 2] (Semaphore_new 1)) [CTask; CTask; CTask; CTask; CTask] c ∧
    phase c 1 = Critical ∧ phase c 2 = Waiting) as (c & Hr & H1 & H2).
  { eexists. split_and!.
    - eapply cr_cons; [by eapply cl_dispatch|]. eapply cr_cons; [eapply (cl_acquire _ _ 1); lazy; reflexivity|].
      eapply cr_cons; [by eapply (cl_preempt _ _ 1)|]. eapply cr_cons; [by eapply cl_dispatch|].
      eapply cr_cons; [eapply (cl_acquire _ _ 2); lazy; reflexivity|]. apply cr_nil.
    - done.
    - done. }
  assert (COutside false ∉ [CTask; CTask; CTask; CTask; CTask]) as He by (rewrite !not_elem_of_cons; split_and!; [done..|apply not_elem_of_nil]).
  eexists _, c. split; [exact Hr|]. split; [exact He|]. split; [exact H1|]. split; [exact H2|].
  refine (semaphore_admits 1 [1; 2] _ c _ _ _ Hr He).
  - lia.
  - apply NoDup_cons. split; [set_solver|apply NoDup_singleton].
  - repeat constructor; lia.
Defined.
