(* ===== verification/Futex.v ===== *)
(** * Futexes: [kernel/src/sync/futex.rs], [sys_futex] of
    [kernel/src/syscall/process.rs], and the wake-up of the parent in
    [exit_current_and_run_next] of [kernel/src/task/mod.rs]

    A process keeps a queue of waiting threads for each futex address.
    [futex_wait] is modelled up to the switch: [None] means that the thread is
    blocked; when it runs again the call returns [SUCCESS]. *)

From stdpp Require Import functions.
From S2P Require Import Prelude Config Address PhysMem UserMem Sched.

Definition FUTEX_WAIT : Z := 0.
Definition FUTEX_WAKE : Z := 1.
Definition FUTEX_PRIVATE_FLAG : Z := 128.
Definition FUTEX_CLOCK_REALTIME : Z := 256.
Definition FUTEX_CMD_MASK : Z := not64 (Z.lor FUTEX_PRIVATE_FLAG FUTEX_CLOCK_REALTIME).

(** The scheduler and the field [futex] of the process. *)
Record FutexSys : Type := mkFutexSys {
  fx_sched : Sched;
  fx_inner : gmap Z (list Z)
}.

Definition Futex_new : gmap Z (list Z) := ∅.

Definition fx_lift {A} (m : ST Sched A) : ST FutexSys A := fun s =>
  match m (fx_sched s) with
  | Ok (a, s') => Ok (a, mkFutexSys s' (fx_inner s))
  | Panic => Panic
  | OutOfFuel => OutOfFuel
  end.

Definition set_queue (uaddr : Z) (q : list Z) : ST FutexSys unit :=
  modify (fun s => mkFutexSys (fx_sched s) (<[uaddr := q]> (fx_inner s))).

(** The timeout is read and turned into a point in time that is not used
    further; what remains of it is that a bad pointer panics. *)
Definition futex_wait (m : PMem) (tok uaddr timeout val : Z) : ST FutexSys (option Z) :=
  (if timeout =? 0 then mret tt else _ ← lift (translated_ref m tok timeout); mret tt);;
  pa ← lift (translated_ref m tok uaddr);
  let futex_word := load_le 4 m pa in
  if negb (futex_word =? val) then mret (Some EAGAIN)
  else
    c ← fx_lift current_task;
    thread ← unwrap c;
    s ← get_st;
    (match fx_inner s !! uaddr with
     | Some wait_queue => set_queue uaddr (thread :: wait_queue)
     | None => set_queue uaddr [thread]
     end);;
    fx_lift block_current_and_run_next;;
    mret None.

(** The loop [for cnt in 0..val], with [n] rounds left. *)
Fixpoint futex_signal_loop (uaddr val : Z) (n : nat) (cnt : Z) : ST FutexSys Z :=
  match n with
  | O => mret val
  | S n =>
      s ← get_st;
      match fx_inner s !! uaddr with
      | Some (thread :: q) =>
          set_queue uaddr q;;
          fx_lift (unblock_task thread);;
          futex_signal_loop uaddr val n (cnt + 1)
      | Some [] => mret (wrap32 (cnt + 1))
      | None => mret EINVAL
      end
  end.

Definition futex_signal (uaddr val : Z) : ST FutexSys Z :=
  futex_signal_loop uaddr val (Z.to_nat val) 0.

Definition sys_futex (m : PMem) (tok uaddr futex_op val timeout : Z) : ST FutexSys (option Z) :=
  if Z.land futex_op FUTEX_PRIVATE_FLAG =? 0 then panic
  else
    let cmd := Z.land futex_op FUTEX_CMD_MASK in
    if cmd =? FUTEX_WAIT then futex_wait m tok uaddr timeout val
    else if cmd =? FUTEX_WAKE then r ← futex_signal uaddr val; mret (Some r)
    else panic.

(** An exiting child wakes the main thread of its parent. *)
Definition exit_wake_parent (parent_task : Z) : ST Sched unit :=
  s ← get_st;
  if bool_decide (task_status s parent_task = Blocked) then unblock_task parent_task else mret tt.

(** ** Waking *)

(** [ws] unblocked one after the other. *)
Definition unblocked (ws : list Z) (s : Sched) : Sched :=
  mkSched (reverse ws ++ ready_queue s)
    (foldl (fun q t => remove_first t q) (block_queue s) ws) (current s)
    (foldl (fun st t => <[t := Ready]> st) (task_status s) ws).

Lemma unblock_run t s : t ∈ block_queue s → unblock_task t s = Ok (tt, unblocked [t] s).
Proof. intros Ht. by rewrite unblock_eq, bool_decide_true. Qed.

Lemma unblocked_cons t ws s : unblocked ws (unblocked [t] s) = unblocked (t :: ws) s.
Proof.
  unfold unblocked. cbn [ready_queue block_queue current task_status foldl].
  by rewrite reverse_singleton, reverse_cons, <-app_assoc.
Qed.

Lemma remove_first_other t u q : u ≠ t → u ∈ q → u ∈ remove_first t q.
Proof.
  induction q as [|x q IH]; [set_solver|]. intros Hne Hin. simpl.
  case_bool_decide; set_solver.
Qed.

Lemma futex_signal_loop_run uaddr val n ws rest cnt s :
  fx_inner s !! uaddr = Some (ws ++ rest) → NoDup ws →
  (∀ t, t ∈ ws → t ∈ block_queue (fx_sched s)) →
  (length ws ≤ n)%nat → (length ws < n → rest = [])%nat →
  futex_signal_loop uaddr val n cnt s =
    Ok (if (length ws <? n)%nat then wrap32 (cnt + Z.of_nat (length ws) + 1) else val,
        mkFutexSys (unblocked ws (fx_sched s)) (<[uaddr := rest]> (fx_inner s))).
Proof.
  revert n cnt s. induction ws as [|t ws IH]; intros n cnt s Hq Hnd Hb Hn Hr; simpl in Hn.
  - assert (mkFutexSys (unblocked [] (fx_sched s)) (<[uaddr:=rest]> (fx_inner s)) = s) as ->.
    { rewrite insert_id by done. by destruct s as [[] ?]. }
    destruct n as [|n]; [done|]. rewrite (Hr ltac:(simpl; lia)) in Hq.
    cbn [futex_signal_loop]. unfold mbind, st_bind, get_st. rewrite Hq. simpl. by rewrite Z.add_0_r.
  - destruct n as [|n]; [lia|]. cbn [futex_signal_loop]. unfold mbind, st_bind, get_st.
    rewrite Hq. cbn [app]. unfold set_queue, modify, fx_lift. cbn [fx_sched fx_inner].
    rewrite unblock_run by (apply Hb; set_solver). apply NoDup_cons in Hnd as [Ht Hnd].
    rewrite IH.
    + cbn [fx_sched fx_inner]. rewrite unblocked_cons, insert_insert_eq. do 2 f_equal.
      cbn [length]. change (S (length ws) <? S n)%nat with (length ws <? n)%nat.
      case_match; [f_equal; lia|done].
    + cbn [fx_inner]. by rewrite lookup_insert_eq.
    + done.
    + intros u Hu. cbn. apply remove_first_other; [set_solver|]. apply Hb. set_solver.
    + lia.
    + intros. apply Hr. simpl. lia.
Qed.

(** [futex_signal] wakes the first [val] waiting threads, or all
    of them when fewer wait: it takes them off the futex queue and the block
    queue, puts them in front of the ready queue, and touches no other
    thread.  It returns [val] when that many were waiting.  When fewer were,
    it returns one more than the number of threads it woke, contrary to
    futex(2). *)
Theorem futex_signal_wakes s uaddr val q :
  fx_inner s !! uaddr = Some q → NoDup q → 0 ≤ val < 2 ^ 31 → Z.of_nat (length q) < 2 ^ 31 →
  (∀ t, t ∈ q → t ∈ block_queue (fx_sched s)) →
  let k := (Z.to_nat val `min` length q)%nat in
  futex_signal uaddr val s =
    Ok (if Z.of_nat (length q) <? val then Z.of_nat k + 1 else val,
        mkFutexSys (unblocked (take k q) (fx_sched s)) (<[uaddr := drop k q]> (fx_inner s))).
Proof.
  intros Hq Hnd Hv Hl Hb k. unfold futex_signal.
  rewrite (futex_signal_loop_run uaddr val _ (take k q) (drop k q)).
  - rewrite length_take. do 2 f_equal. destruct (Z.ltb_spec (Z.of_nat (length q)) val).
    + rewrite (proj2 (Nat.ltb_lt _ _)) by lia. rewrite wrap32_small by (unfold is_u32; lia). lia.
    + by rewrite (proj2 (Nat.ltb_ge _ _)) by lia.
  - by rewrite take_drop.
  - eapply sublist_NoDup; [done|apply sublist_take].
  - intros t Ht. apply Hb. by eapply elem_of_take in Ht as (? & ?%list_elem_of_lookup_2 & ?).
  - rewrite length_take. lia.
  - rewrite length_take. intros. apply drop_ge. lia.
Qed.

(** A wake-up can be lost.  The main thread [p] of a process
    waits on a futex together with the threads [rest]; a child of the process
    exits, which makes [p] runnable but leaves it on the futex queue.  The
    next [FUTEX_WAKE] of one thread is spent on [p]: it answers 1, no thread
    becomes runnable, and [rest] stay blocked. *)
Theorem futex_wake_lost s uaddr p rest :
  fx_inner s !! uaddr = Some (p :: rest) → NoDup (block_queue (fx_sched s)) →
  p ∈ block_queue (fx_sched s) → task_status (fx_sched s) p = Blocked →
  ∃ s1 s2, fx_lift (exit_wake_parent p) s = Ok (tt, s1) ∧
    futex_signal uaddr 1 s1 = Ok (1, s2) ∧
    ready_queue (fx_sched s2) = ready_queue (fx_sched s1) ∧
    block_queue (fx_sched s2) = block_queue (fx_sched s1) ∧
    (∀ t, t ∈ block_queue (fx_sched s) → t ≠ p → t ∈ block_queue (fx_sched s2)).
Proof.
  intros Hq Hnd Hp Hst.
  assert (p ∉ remove_first p (block_queue (fx_sched s))) as Hnp.
  { rewrite (remove_first_perm p _ Hp) in Hnd. by apply NoDup_cons in Hnd as [? _]. }
  eexists _, _. split_and!.
  - unfold fx_lift, exit_wake_parent, mbind, st_bind, get_st. rewrite bool_decide_true by done.
    by rewrite unblock_run.
  - unfold futex_signal. change (Z.to_nat 1) with 1%nat. cbn [futex_signal_loop].
    unfold mbind, st_bind, get_st. cbn [fx_inner]. rewrite Hq.
    unfold set_queue, modify, fx_lift. cbn [fx_sched fx_inner].
    rewrite unblock_eq, bool_decide_false by done. reflexivity.
  - done.
  - done.
  - intros t Ht Hne. cbn. by apply remove_first_other.
Qed.

(** ** Witnesses *)

Definition futex_demo : FutexSys :=
  mkFutexSys (mkSched [4] [1; 2; 3] None (fun t => if t =? 4 then Ready else Blocked))
    {[ 0x1000 := [2; 3] ]}.

Lemma futex_signal_wakes_witness :
  futex_signal 0x1000 5 futex_demo =
    Ok (3, mkFutexSys (unblocked [2; 3] (fx_sched futex_demo))
             (<[0x1000 := []]> (fx_inner futex_demo))).
Proof.
  refine (futex_signal_wakes futex_demo 0x1000 5 [2; 3] _ _ _ _ _); [done| |lia|simpl; lia|].
  - apply NoDup_cons. split; [set_solver|apply NoDup_singleton].
  - cbn. set_solver.
Defined.

Lemma futex_wake_lost_witness :
  ∃ s1 s2, fx_lift (exit_wake_parent 2) futex_demo = Ok (tt, s1) ∧
    futex_signal 0x1000 1 s1 = Ok (1, s2) ∧
    ready_queue (fx_sched s2) = ready_queue (fx_sched s1) ∧
    block_queue (fx_sched s2) = block_queue (fx_sched s1) ∧
    (∀ t, t ∈ [1; 2; 3] → t ≠ 2 → t ∈ block_queue (fx_sched s2)).
Proof.
  refine (futex_wake_lost futex_demo 0x1000 2 [3] _ _ _ _); [done| |cbn; set_solver|done].
  cbn. repeat (apply NoDup_cons; split; [set_solver|]). constructor.
Defined.
