(* ===== verification/Timer.v ===== *)
(** * Time: [kernel/src/timer.rs]

    Clock readings, the two time structures and their arithmetic, process
    times, and the timers that wake tasks.  [time] is the value of the [time]
    register.  The binary heap of timers is the list of its elements; [peek]
    and [pop] take a greatest one. *)

From stdpp Require Import functions.
From S2P Require Import Prelude Config Sched.

Definition TICKS_PER_SEC : Z := 100.
Definition MSEC_PER_SEC : Z := 1000.
Definition USEC_PER_SEC : Z := 1000000.
Definition USEC_PER_MSEC : Z := 1000.
Definition NSEC_PER_SEC : Z := 1000000000.
Definition NSEC_PER_MSEC : Z := 1000000.
Definition NSEC_PER_USEC : Z := 1000.

(** ** Clock readings *)

Definition get_time (time : Z) : Z := time.
Definition get_time_sec (time : Z) : Z := time / CLOCK_FREQ.
Definition get_time_ms (time : Z) : Z := time / (CLOCK_FREQ / MSEC_PER_SEC).
Definition get_time_us (time : Z) : Z := time / (CLOCK_FREQ / USEC_PER_SEC).
Definition get_time_ns (time : Z) : Z := (time ⊠ NSEC_PER_SEC) / CLOCK_FREQ.

(** The value handed to [set_timer]. *)
Definition set_next_trigger (time : Z) : Z := get_time time ⊞ CLOCK_FREQ / TICKS_PER_SEC.

(** ** [TimeSpec] *)

Record TimeSpec : Type := mkTimeSpec { ts_sec : Z; ts_nsec : Z }.

Definition TimeSpec_add_assign (self rhs : TimeSpec) : TimeSpec :=
  mkTimeSpec (ts_sec self ⊞ ts_sec rhs) (ts_nsec self ⊞ ts_nsec rhs).

Definition TimeSpec_add (self other : TimeSpec) : TimeSpec :=
  let sec := ts_sec self ⊞ ts_sec other in
  let nsec := ts_nsec self ⊞ ts_nsec other in
  mkTimeSpec (sec ⊞ nsec / NSEC_PER_SEC) (nsec mod NSEC_PER_SEC).

Definition TimeSpec_new : TimeSpec := mkTimeSpec 0 0.
Definition TimeSpec_from_tick (tick : Z) : TimeSpec :=
  mkTimeSpec (tick / CLOCK_FREQ) (((tick mod CLOCK_FREQ) ⊠ NSEC_PER_SEC) / CLOCK_FREQ).
Definition TimeSpec_from_s (s : Z) : TimeSpec := mkTimeSpec s 0.
Definition TimeSpec_from_ms (ms : Z) : TimeSpec :=
  mkTimeSpec (ms / MSEC_PER_SEC) ((ms mod MSEC_PER_SEC) ⊠ NSEC_PER_MSEC).
Definition TimeSpec_from_us (us : Z) : TimeSpec :=
  mkTimeSpec (us / USEC_PER_SEC) ((us mod USEC_PER_SEC) ⊠ NSEC_PER_USEC).
Definition TimeSpec_from_ns (ns : Z) : TimeSpec :=
  mkTimeSpec (ns / NSEC_PER_SEC) (ns mod NSEC_PER_SEC).
Definition TimeSpec_to_ns (self : TimeSpec) : Z := ts_sec self ⊠ NSEC_PER_SEC ⊞ ts_nsec self.
Definition TimeSpec_is_zero (self : TimeSpec) : bool := (ts_sec self =? 0) && (ts_nsec self =? 0).
Definition TimeSpec_now (time : Z) : TimeSpec := TimeSpec_from_tick (get_time time).

Definition TimeSpec_sub (self other : TimeSpec) : TimeSpec :=
  let self_ns := TimeSpec_to_ns self in
  let other_ns := TimeSpec_to_ns other in
  if self_ns <=? other_ns then TimeSpec_new else TimeSpec_from_ns (self_ns ⊟ other_ns).

Definition TimeSpec_cmp (self other : TimeSpec) : comparison :=
  match ts_sec self ?= ts_sec other with
  | Lt => Lt
  | Eq => ts_nsec self ?= ts_nsec other
  | Gt => Gt
  end.

(** ** [TimeVal] *)

Record TimeVal : Type := mkTimeVal { tv_sec : Z; tv_usec : Z }.

Definition TimeVal_new : TimeVal := mkTimeVal 0 0.
Definition TimeVal_from_tick (tick : Z) : TimeVal :=
  mkTimeVal (tick / CLOCK_FREQ) (((tick mod CLOCK_FREQ) ⊠ USEC_PER_SEC) / CLOCK_FREQ).
Definition TimeVal_to_tick (self : TimeVal) : Z :=
  tv_sec self ⊠ CLOCK_FREQ ⊞ (tv_usec self ⊠ CLOCK_FREQ) / USEC_PER_SEC.
Definition TimeVal_from_s (s : Z) : TimeVal := mkTimeVal s 0.
Definition TimeVal_from_ms (ms : Z) : TimeVal :=
  mkTimeVal (ms / MSEC_PER_SEC) ((ms mod MSEC_PER_SEC) ⊠ USEC_PER_MSEC).
Definition TimeVal_from_us (us : Z) : TimeVal :=
  mkTimeVal (us / USEC_PER_SEC) (us mod USEC_PER_SEC).
Definition TimeVal_to_us (self : TimeVal) : Z := tv_sec self ⊠ USEC_PER_SEC ⊞ tv_usec self.
Definition TimeVal_is_zero (self : TimeVal) : bool := (tv_sec self =? 0) && (tv_usec self =? 0).
Definition TimeVal_now (time : Z) : TimeVal := TimeVal_from_tick (get_time time).

Definition TimeVal_add (self other : TimeVal) : TimeVal :=
  let sec := tv_sec self ⊞ tv_sec other in
  let usec := tv_usec self ⊞ tv_usec other in
  mkTimeVal (sec ⊞ usec / USEC_PER_SEC) (usec mod USEC_PER_SEC).

Definition TimeVal_sub (self other : TimeVal) : TimeVal :=
  let self_us := TimeVal_to_us self in
  let other_us := TimeVal_to_us other in
  if self_us <=? other_us then TimeVal_new else TimeVal_from_us (self_us ⊟ other_us).

Definition TimeVal_cmp (self other : TimeVal) : comparison :=
  match tv_sec self ?= tv_sec other with
  | Lt => Lt
  | Eq => tv_usec self ?= tv_usec other
  | Gt => Gt
  end.

Record ITimerVal : Type := mkITimerVal { it_interval : TimeVal; it_value : TimeVal }.

Definition ITimerVal_new : ITimerVal := mkITimerVal TimeVal_new TimeVal_new.
Definition ITimerVal_is_zero (self : ITimerVal) : bool :=
  TimeVal_is_zero (it_interval self) && TimeVal_is_zero (it_value self).

(** ** [Times] *)

Record Times : Type := mkTimes {
  tms_utime : Z;
  tms_stime : Z;
  tms_cutime : Z;
  tms_cstime : Z
}.

Definition Times_new : Times := mkTimes 0 0 0 0.

Definition Times_add (self other : Times) : Times :=
  mkTimes (tms_utime self ⊞ tms_utime other) (tms_stime self ⊞ tms_stime other)
    (tms_cutime self ⊞ tms_cutime other) (tms_cstime self ⊞ tms_cstime other).

Definition Times_sub (self other : Times) : Times :=
  if (tms_utime self <? tms_utime other) || (tms_stime self <? tms_stime other)
    || (tms_cutime self <? tms_cutime other) || (tms_cstime self <? tms_cstime other)
  then Times_new
  else
    mkTimes (tms_utime self ⊞ tms_utime other) (tms_stime self ⊞ tms_stime other)
      (tms_cutime self ⊞ tms_cutime other) (tms_cstime self ⊞ tms_cstime other).

(** ** Timers *)

Record TimerCondVar : Type := mkTimerCondVar { expire_ms : Z; timer_task : Z }.

(** [-(expire_ms as isize)], which wraps. *)
Definition timer_key (c : TimerCondVar) : Z := as_isize (wrap64 (- as_isize (expire_ms c))).

Definition TimerCondVar_cmp (self other : TimerCondVar) : comparison :=
  timer_key self ?= timer_key other.

(** A greatest element of the heap and the others. *)
Fixpoint heap_pop (timers : list TimerCondVar) : option (TimerCondVar * list TimerCondVar) :=
  match timers with
  | [] => None
  | x :: l =>
      match heap_pop l with
      | None => Some (x, [])
      | Some (y, l') =>
          match TimerCondVar_cmp x y with
          | Lt => Some (y, x :: l')
          | _ => Some (x, l)
          end
      end
  end.

(** The scheduler and [TIMERS]. *)
Record TimerSys : Type := mkTimerSys { tm_sched : Sched; timers : list TimerCondVar }.

Definition tm_lift {A} (m : ST Sched A) : ST TimerSys A := fun s =>
  match m (tm_sched s) with
  | Ok (a, s') => Ok (a, mkTimerSys s' (timers s))
  | Panic => Panic
  | OutOfFuel => OutOfFuel
  end.

Definition set_timers (l : list TimerCondVar) : ST TimerSys unit :=
  modify (fun s => mkTimerSys (tm_sched s) l).

Definition add_timer (expire_ms task : Z) : ST TimerSys unit :=
  s ← get_st; set_timers (mkTimerCondVar expire_ms task :: timers s).

Definition remove_timer (task : Z) : ST TimerSys unit :=
  s ← get_st; set_timers (filter (fun condvar => task ≠ timer_task condvar) (timers s)).

Fixpoint check_timer_loop (fuel : nat) (current_ms : Z) : ST TimerSys unit :=
  match fuel with
  | O => out_of_fuel
  | S fuel =>
      s ← get_st;
      match heap_pop (timers s) with
      | Some (timer, rest) =>
          if expire_ms timer <=? current_ms then
            tm_lift (wakeup_task (timer_task timer));;
            set_timers rest;;
            check_timer_loop fuel current_ms
          else mret tt
      | None => mret tt
      end
  end.

(** Every round but the last removes a timer. *)
Definition check_timer (time : Z) : ST TimerSys unit :=
  s ← get_st; check_timer_loop (S (length (timers s))) (get_time_ms time).

(** [remove_inactive_task] of [kernel/src/task/mod.rs]. *)
Definition remove_inactive_task (task : Z) : ST TimerSys unit :=
  tm_lift (remove_task task);; remove_timer task.

(** ** A time structure is a number of nanoseconds or microseconds *)

Definition ts_ok (t : TimeSpec) : Prop := is_usize (ts_sec t) ∧ 0 ≤ ts_nsec t < NSEC_PER_SEC.
Definition ts_value (t : TimeSpec) : Z := ts_sec t * NSEC_PER_SEC + ts_nsec t.

Definition tv_ok (t : TimeVal) : Prop := is_usize (tv_sec t) ∧ 0 ≤ tv_usec t < USEC_PER_SEC.
Definition tv_value (t : TimeVal) : Z := tv_sec t * USEC_PER_SEC + tv_usec t.

(** Splitting a number of ticks in seconds and a fraction loses nothing. *)
Lemma tick_split tick u f : 0 < f → tick / f * u + (tick mod f * u) / f = tick * u / f.
Proof.
  intros Hf. rewrite (Z.div_mod tick f) at 3 by lia.
  replace ((f * (tick / f) + tick mod f) * u) with ((tick / f * u) * f + tick mod f * u) by lia.
  by rewrite Z.div_add_l by lia.
Qed.

(** The comparison of (seconds, fraction) pairs is that of their values. *)
Lemma compare_pairs s1 f1 s2 f2 u :
  0 ≤ f1 < u → 0 ≤ f2 < u →
  match s1 ?= s2 with Lt => Lt | Eq => f1 ?= f2 | Gt => Gt end = (s1 * u + f1 ?= s2 * u + f2).
Proof.
  intros H1 H2. symmetry. destruct (Z.compare_spec s1 s2) as [->|Hlt|Hgt].
  - apply Z.add_compare_mono_l.
  - apply Z.compare_lt_iff. nia.
  - apply Z.compare_gt_iff. nia.
Qed.

Ltac div_lia := Z.div_mod_to_equations; lia.

Lemma ts_to_ns t : ts_ok t → ts_value t < 2 ^ 64 → TimeSpec_to_ns t = ts_value t.
Proof.
  unfold ts_ok, ts_value, TimeSpec_to_ns, is_usize, NSEC_PER_SEC. intros [Hs Hn] Hv.
  rewrite (wrap64_small (_ * _)) by (unfold is_usize; lia).
  apply wrap64_small. unfold is_usize. lia.
Qed.

Lemma ts_from_ns ns : is_usize ns → ts_ok (TimeSpec_from_ns ns) ∧ ts_value (TimeSpec_from_ns ns) = ns.
Proof.
  unfold ts_ok, ts_value, TimeSpec_from_ns, is_usize, NSEC_PER_SEC. cbn [ts_sec ts_nsec]. intros. div_lia.
Qed.

Lemma ts_value_inj a b : ts_ok a → ts_ok b → ts_value a = ts_value b → a = b.
Proof.
  destruct a as [s n], b as [s' n']. unfold ts_ok, ts_value, NSEC_PER_SEC. cbn [ts_sec ts_nsec].
  intros [_ ?] [_ ?] ?. f_equal; lia.
Qed.

Lemma tv_to_us t : tv_ok t → tv_value t < 2 ^ 64 → TimeVal_to_us t = tv_value t.
Proof.
  unfold tv_ok, tv_value, TimeVal_to_us, is_usize, USEC_PER_SEC. intros [Hs Hn] Hv.
  rewrite (wrap64_small (_ * _)) by (unfold is_usize; lia).
  apply wrap64_small. unfold is_usize. lia.
Qed.

Lemma tv_from_us us : is_usize us → tv_ok (TimeVal_from_us us) ∧ tv_value (TimeVal_from_us us) = us.
Proof.
  unfold tv_ok, tv_value, TimeVal_from_us, is_usize, USEC_PER_SEC. cbn [tv_sec tv_usec]. intros. div_lia.
Qed.

(** [TimeSpec] arithmetic is arithmetic on nanoseconds.  For
    normalised values whose nanoseconds fit [usize], addition adds,
    subtraction subtracts and stops at zero, both give normalised values; the
    derived order is the order of the nanoseconds; [from_ns] and [to_ns] are
    inverse to each other; and [from_tick] is exact for every tick count. *)
Theorem timespec_is_nanoseconds a b tick :
  ts_ok a → ts_ok b → ts_value a + ts_value b < 2 ^ 64 → is_usize tick →
  ts_ok (TimeSpec_add a b) ∧ ts_value (TimeSpec_add a b) = ts_value a + ts_value b ∧
  ts_ok (TimeSpec_sub a b) ∧ ts_value (TimeSpec_sub a b) = Z.max 0 (ts_value a - ts_value b) ∧
  TimeSpec_cmp a b = (ts_value a ?= ts_value b) ∧
  TimeSpec_from_ns (TimeSpec_to_ns a) = a ∧ TimeSpec_to_ns (TimeSpec_from_ns tick) = tick ∧
  ts_ok (TimeSpec_from_tick tick) ∧
  ts_value (TimeSpec_from_tick tick) = tick * NSEC_PER_SEC / CLOCK_FREQ.
Proof.
  intros Ha Hb Hab Ht.
  assert (0 ≤ ts_value a ∧ 0 ≤ ts_value b) as [Ha0 Hb0].
  { unfold ts_ok, ts_value, is_usize, NSEC_PER_SEC in *. lia. }
  assert (ts_ok (TimeSpec_sub a b) ∧
    ts_value (TimeSpec_sub a b) = Z.max 0 (ts_value a - ts_value b)) as [Hs1 Hs2].
  { unfold TimeSpec_sub. rewrite !ts_to_ns by (done || lia).
    destruct (Z.leb_spec (ts_value a) (ts_value b)).
    - split; [done|]. change (ts_value TimeSpec_new) with 0. lia.
    - rewrite wrap64_small by (unfold is_usize; lia).
      destruct (ts_from_ns (ts_value a - ts_value b)) as [H1 ->]; [unfold is_usize; lia|].
      split; [done|lia]. }
  assert (ts_ok (TimeSpec_from_tick tick) ∧
    ts_value (TimeSpec_from_tick tick) = tick * NSEC_PER_SEC / CLOCK_FREQ) as [Hk1 Hk2].
  { unfold ts_value. rewrite <-tick_split by done. unfold ts_ok, TimeSpec_from_tick. cbn [ts_sec ts_nsec].
    rewrite wrap64_small; unfold is_usize, NSEC_PER_SEC, CLOCK_FREQ in *; [|div_lia].
    split; [|done]. div_lia. }
  destruct (ts_from_ns tick Ht) as [Hn1 Hn2].
  destruct (ts_from_ns (ts_value a)) as [Hm1 Hm2]; [unfold is_usize; lia|].
  split_and!; [..|done|done].
  - destruct Ha, Hb. unfold ts_ok, ts_value, TimeSpec_add, is_usize, NSEC_PER_SEC in *. cbn [ts_sec ts_nsec].
    rewrite !wrap64_small; unfold is_usize; rewrite ?wrap64_small; unfold is_usize; div_lia.
  - destruct Ha, Hb. unfold ts_value, TimeSpec_add, is_usize, NSEC_PER_SEC in *. cbn [ts_sec ts_nsec].
    rewrite !wrap64_small; unfold is_usize; rewrite ?wrap64_small; unfold is_usize; div_lia.
  - done.
  - done.
  - apply compare_pairs; [apply Ha|apply Hb].
  - rewrite ts_to_ns by (done || lia). by apply ts_value_inj.
  - rewrite ts_to_ns by (done || unfold is_usize in Ht; lia). done.
Qed.

(** The same for [TimeVal] and microseconds; a tick count that goes through a
    [TimeVal] loses less than 14 ticks. *)
Lemma timeval_is_microseconds a b tick :
  tv_ok a → tv_ok b → tv_value a + tv_value b < 2 ^ 64 → is_usize tick →
  tv_ok (TimeVal_add a b) ∧ tv_value (TimeVal_add a b) = tv_value a + tv_value b ∧
  tv_ok (TimeVal_sub a b) ∧ tv_value (TimeVal_sub a b) = Z.max 0 (tv_value a - tv_value b) ∧
  TimeVal_cmp a b = (tv_value a ?= tv_value b) ∧
  tv_value (TimeVal_from_tick tick) = tick * USEC_PER_SEC / CLOCK_FREQ ∧
  0 ≤ tick - TimeVal_to_tick (TimeVal_from_tick tick) < 14.
Proof.
  intros Ha Hb Hab Ht.
  assert (0 ≤ tv_value a ∧ 0 ≤ tv_value b) as [Ha0 Hb0].
  { unfold tv_ok, tv_value, is_usize, USEC_PER_SEC in *. lia. }
  assert (tv_ok (TimeVal_sub a b) ∧
    tv_value (TimeVal_sub a b) = Z.max 0 (tv_value a - tv_value b)) as [Hs1 Hs2].
  { unfold TimeVal_sub. rewrite !tv_to_us by (done || lia).
    destruct (Z.leb_spec (tv_value a) (tv_value b)).
    - split; [done|]. change (tv_value TimeVal_new) with 0. lia.
    - rewrite wrap64_small by (unfold is_usize; lia).
      destruct (tv_from_us (tv_value a - tv_value b)) as [H1 ->]; [unfold is_usize; lia|].
      split; [done|lia]. }
  assert (0 ≤ tick - TimeVal_to_tick (TimeVal_from_tick tick) < 14) as Hk.
  { unfold TimeVal_to_tick, TimeVal_from_tick. cbn [tv_sec tv_usec].
    rewrite (wrap64_small (tick mod CLOCK_FREQ * USEC_PER_SEC))
      by (unfold is_usize, USEC_PER_SEC, CLOCK_FREQ in *; div_lia).
    rewrite !wrap64_small; unfold is_usize in *; rewrite ?wrap64_small; unfold is_usize;
      unfold USEC_PER_SEC, CLOCK_FREQ in *; div_lia. }
  split_and!.
  - destruct Ha, Hb. unfold tv_ok, tv_value, TimeVal_add, is_usize, USEC_PER_SEC in *.
    cbn [tv_sec tv_usec].
    rewrite !wrap64_small; unfold is_usize; rewrite ?wrap64_small; unfold is_usize; div_lia.
  - destruct Ha, Hb. unfold tv_value, TimeVal_add, is_usize, USEC_PER_SEC in *.
    cbn [tv_sec tv_usec].
    rewrite !wrap64_small; unfold is_usize; rewrite ?wrap64_small; unfold is_usize; div_lia.
  - done.
  - done.
  - apply compare_pairs; [apply Ha|apply Hb].
  - unfold tv_value, TimeVal_from_tick. cbn [tv_sec tv_usec]. rewrite <-tick_split by done.
    rewrite wrap64_small; [done|]. unfold is_usize, USEC_PER_SEC, CLOCK_FREQ in *. div_lia.
  - lia.
  - lia.
Qed.

(** The clock readings.  Seconds and milliseconds are exact for
    every value of the [time] register.  Nanoseconds are exact up to
    18446744073 ticks, that is for the first 1475 seconds; at the next tick
    the product overflows and the reading falls back to 23.  Microseconds run
    fast: after [s] seconds the reading is at least [s] * 1041666 instead of
    [s] * 1000000, because the 12.5 ticks of a microsecond are rounded to
    12. *)
Theorem clock_readings time s :
  is_usize time → 0 ≤ s < 2 ^ 32 →
  get_time_sec time = time / CLOCK_FREQ ∧
  get_time_ms time = time * MSEC_PER_SEC / CLOCK_FREQ ∧
  (time ≤ 18446744073 → get_time_ns time = time * NSEC_PER_SEC / CLOCK_FREQ) ∧
  get_time_ns 18446744074 = 23 ∧
  s * 1041666 ≤ get_time_us (s * CLOCK_FREQ).
Proof.
  intros Ht Hs. unfold is_usize in Ht. split_and!.
  - done.
  - unfold get_time_ms, MSEC_PER_SEC, CLOCK_FREQ. change (12500000 / 1000) with 12500.
    change 12500000 with (12500 * 1000). by rewrite Z.div_mul_cancel_r.
  - intros Hle. unfold get_time_ns, NSEC_PER_SEC. rewrite wrap64_small; [done|].
    unfold is_usize. lia.
  - done.
  - unfold get_time_us, USEC_PER_SEC, CLOCK_FREQ. change (12500000 / 1000000) with 12. div_lia.
Qed.

(** [Times] has a subtraction that adds. *)
Lemma times_sub_adds a b :
  tms_utime b ≤ tms_utime a → tms_stime b ≤ tms_stime a →
  tms_cutime b ≤ tms_cutime a → tms_cstime b ≤ tms_cstime a → Times_sub a b = Times_add a b.
Proof. intros. unfold Times_sub. by rewrite !(proj2 (Z.ltb_ge _ _)) by done. Qed.

(** [+=] on [TimeSpec] does not carry. *)
Lemma add_assign_no_carry :
  ts_nsec (TimeSpec_add_assign (mkTimeSpec 1 600000000) (mkTimeSpec 1 600000000)) = 1200000000.
Proof. done. Qed.

(** ** Timers *)

Definition timer_ok (c : TimerCondVar) : Prop := 0 ≤ expire_ms c < 2 ^ 63.

Definition timer_le (a b : TimerCondVar) : Prop := expire_ms a ≤ expire_ms b.

Lemma timer_key_eq c : timer_ok c → timer_key c = - expire_ms c.
Proof.
  intros Hc. unfold timer_ok in Hc. unfold timer_key, as_isize.
  rewrite (proj2 (Z.ltb_lt (expire_ms c) _)) by lia. unfold wrap64.
  destruct (decide (expire_ms c = 0)) as [->|]; [done|].
  rewrite <-(Z_mod_plus_full _ 1), Z.mod_small by lia. rewrite (proj2 (Z.ltb_ge _ _)); lia.
Qed.

(** [heap_pop] takes a timer that expires first. *)
Lemma heap_pop_spec l :
  Forall timer_ok l →
  match heap_pop l with
  | None => l = []
  | Some (x, l') => l ≡ₚ x :: l' ∧ Forall (timer_le x) l'
  end.
Proof.
  induction 1 as [|x l Hx Hl IH]; [done|]. simpl.
  destruct (heap_pop l) as [[y l']|] eqn:E; [|by subst l].
  destruct IH as [Hp Hle]. assert (timer_ok y) as Hy.
  { rewrite Forall_forall in Hl. apply Hl. rewrite Hp. left. }
  unfold TimerCondVar_cmp. rewrite !timer_key_eq by done.
  destruct (Z.compare_spec (- expire_ms x) (- expire_ms y)).
  1, 3: split; [done|]; rewrite Hp; apply Forall_cons; split; [unfold timer_le; lia|];
    eapply Forall_impl; [exact Hle|]; unfold timer_le; intros; lia.
  split; [rewrite Hp; apply Permutation_swap|]. apply Forall_cons. split; [unfold timer_le; lia|done].
Qed.

Definition wake_all (ws : list TimerCondVar) (s : Sched) : Sched :=
  mkSched (ready_queue s ++ (timer_task <$> ws)) (block_queue s) (current s)
    (foldl (fun st w => <[timer_task w := Ready]> st) (task_status s) ws).

Lemma check_timer_loop_run fuel now s :
  Forall timer_ok (timers s) → (length (timers s) < fuel)%nat →
  ∃ ws rest, check_timer_loop fuel now s = Ok (tt, mkTimerSys (wake_all ws (tm_sched s)) rest) ∧
    timers s ≡ₚ ws ++ rest ∧ StronglySorted timer_le ws ∧
    Forall (fun c => expire_ms c ≤ now) ws ∧ Forall (fun c => now < expire_ms c) rest.
Proof.
  revert s. induction fuel as [|fuel IH]; intros s Hok Hf; [lia|].
  cbn [check_timer_loop]. unfold mbind, st_bind, get_st. pose proof (heap_pop_spec _ Hok) as Hpop.
  destruct (heap_pop (timers s)) as [[x l]|].
  - destruct Hpop as [Hp Hle]. destruct (Z.leb_spec (expire_ms x) now).
    + unfold tm_lift, set_timers, modify. cbn.
      rewrite Hp in Hok, Hf. apply Forall_cons in Hok as [Hx Hok]. simpl in Hf.
      destruct (IH (mkTimerSys (wake_all [x] (tm_sched s)) l)) as (ws & rest & Hrun & H1 & H2 & H3 & H4);
        [done|cbn; lia|]. cbn in *.
      exists (x :: ws), rest. split_and!.
      * etrans; [exact Hrun|]. unfold wake_all. cbn. by rewrite <-app_assoc.
      * by rewrite Hp, H1.
      * constructor; [done|]. rewrite H1 in Hle. by apply Forall_app in Hle as [? _].
      * by apply Forall_cons.
      * done.
    + exists [], (timers s). split_and!; [|done|constructor|done|].
      * unfold wake_all. cbn. rewrite app_nil_r. by destruct s as [[] ?].
      * rewrite Hp. apply Forall_cons. split; [done|].
        eapply Forall_impl; [exact Hle|]. unfold timer_le. intros. lia.
  - exists [], []. rewrite Hpop. split_and!; [|done|constructor|done|done].
    unfold wake_all. cbn. rewrite app_nil_r. destruct s as [[] ?]. cbn in *. by subst.
Qed.

(** C38: [check_timer] terminates and fires the right timers: the
    tasks whose timers have expired are made ready, once per timer, in the
    order of their expiry times, and exactly the timers that have not
    expired remain. *)
Theorem check_timer_fires time s :
  Forall timer_ok (timers s) →
  ∃ ws rest, check_timer time s = Ok (tt, mkTimerSys (wake_all ws (tm_sched s)) rest) ∧
    timers s ≡ₚ ws ++ rest ∧ StronglySorted timer_le ws ∧
    Forall (fun c => expire_ms c ≤ get_time_ms time) ws ∧
    Forall (fun c => get_time_ms time < expire_ms c) rest.
Proof. intros Hok. apply check_timer_loop_run; [done|lia]. Qed.

(** ** Witnesses *)

Lemma timespec_is_nanoseconds_witness :
  ts_value (TimeSpec_add (mkTimeSpec 1 600000000) (mkTimeSpec 2 700000000)) = 4300000000.
Proof.
  destruct (timespec_is_nanoseconds (mkTimeSpec 1 600000000) (mkTimeSpec 2 700000000) 5)
    as (_ & H & _); [vm_compute; intuition congruence..|].
  rewrite H. reflexivity.
Defined.

Lemma clock_readings_witness : 1000 * 1041666 ≤ get_time_us (1000 * CLOCK_FREQ).
Proof.
  destruct (clock_readings 0 1000) as (_ & _ & _ & _ & H); [unfold is_usize; lia|lia|exact H].
Defined.

Definition timer_demo : TimerSys :=
  mkTimerSys Sched_new [mkTimerCondVar 30 1; mkTimerCondVar 10 2; mkTimerCondVar 20 3].

Lemma check_timer_fires_witness :
  ∃ ws rest, check_timer 250000 timer_demo = Ok (tt, mkTimerSys (wake_all ws Sched_new) rest) ∧
    timers timer_demo ≡ₚ ws ++ rest ∧ StronglySorted timer_le ws ∧
    Forall (fun c => expire_ms c ≤ 20) ws ∧ Forall (fun c => 20 < expire_ms c) rest.
Proof.
  refine (check_timer_fires 250000 timer_demo _).
  repeat constructor; unfold timer_ok; cbn; lia.
Defined.
