(* ===== verification/Ids.v ===== *)
(** * Numbers and stacks: [kernel/src/task/id.rs]

    The allocator of process, kernel-stack and thread numbers, the kernel
    stacks in kernel space, and the user resources of a thread (its user stack
    and the page of its trap context).  An address space and an allocator that
    an operation changes are passed to it and returned. *)

From S2P Require Import Prelude Config Address PhysMem FrameAllocator PageTable UserMem MemorySet AddressSpace MemorySetSpec.

Record RecycleAllocator : Type := mkRecycleAllocator {
  ra_current : Z;
  ra_recycled : list Z
}.

Definition RecycleAllocator_new : RecycleAllocator := mkRecycleAllocator 0 [].

Definition ra_alloc (al : RecycleAllocator) : Z * RecycleAllocator :=
  match vec_pop (ra_recycled al) with
  | Some (id, rs) => (id, mkRecycleAllocator (ra_current al) rs)
  | None => let current := ra_current al ⊞ 1 in (current ⊟ 1, mkRecycleAllocator current [])
  end.

Definition ra_dealloc (al : RecycleAllocator) (id : Z) : outcome RecycleAllocator :=
  if id <? ra_current al then
    if existsb (fun i => i =? id) (ra_recycled al) then Panic
    else Ok (mkRecycleAllocator (ra_current al) (vec_push (ra_recycled al) id))
  else Panic.

(** [PID_ALLOCATOR] *)
Definition pid_alloc (al : RecycleAllocator) : Z * RecycleAllocator := ra_alloc al.
Definition PidHandle_drop (al : RecycleAllocator) (pid : Z) : outcome RecycleAllocator :=
  ra_dealloc al pid.

(** ** Kernel stacks *)

Definition kernel_stack_position (kstack_id : Z) : Z * Z :=
  let top := TRAMPOLINE ⊟ (kstack_id ⊠ (KERNEL_STACK_SIZE + PAGE_SIZE)) in
  let bottom := top ⊟ KERNEL_STACK_SIZE in
  (bottom, top).

Definition KernelStack_get_top (kstack : Z) : Z := (kernel_stack_position kstack).2.

(** The address where [push_on_top] writes a value of [size] bytes. *)
Definition push_on_top (kstack size : Z) : Z := KernelStack_get_top kstack ⊟ size.

(** ** User resources of a thread *)

Record TaskUserRes : Type := mkTaskUserRes {
  tid : Z;
  ustack_top : Z;
  self_stack : bool
}.

Definition trap_cx_bottom_from_tid (tid : Z) : Z := TRAP_CONTEXT_BASE ⊟ (tid ⊠ PAGE_SIZE).

Definition ustack_bottom_from_tid (ustack_base tid : Z) : Z :=
  ustack_base ⊞ (tid ⊠ (PAGE_SIZE + USER_STACK_SIZE)).

Definition ustack_top_from_id (ustack_top id : Z) : Z :=
  ustack_top ⊟ (id ⊠ (PAGE_SIZE + USER_STACK_SIZE)).

Definition trap_cx_user_va (self : TaskUserRes) : Z := trap_cx_bottom_from_tid (tid self).

Definition ustack_base (self : TaskUserRes) : Z :=
  ustack_bottom_from_tid (ustack_top self) (tid self) ⊟ USER_STACK_SIZE.

Section operations.
Context {A : Type} {FA : FrameAllocator A}.

Definition kstack_alloc (kernel_space : MemorySet) (al : RecycleAllocator)
    : ST (Machine A) (Z * MemorySet * RecycleAllocator) :=
  let '(kstack_id, al) := ra_alloc al in
  let '(kstack_bottom, kstack_top) := kernel_stack_position kstack_id in
  kernel_space ← insert_framed_area kernel_space (VirtAddr_from_usize kstack_bottom)
    (VirtAddr_from_usize kstack_top) (Z.lor MapPermission_R MapPermission_W);
  mret (kstack_id, kernel_space, al).

Definition KernelStack_drop (kstack : Z) (kernel_space : MemorySet) (al : RecycleAllocator)
    : ST (Machine A) (MemorySet * RecycleAllocator) :=
  let '(kernel_stack_bottom, _) := kernel_stack_position kstack in
  vpn ← VirtPageNum_from_VirtAddr (VirtAddr_from_usize kernel_stack_bottom);
  kernel_space ← remove_area_with_start_vpn kernel_space vpn;
  al ← lift (ra_dealloc al kstack);
  mret (kernel_space, al).

Definition alloc_user_res (self : TaskUserRes) (memory_set : MemorySet) (alloc_user_stack : bool)
    : ST (Machine A) (TaskUserRes * MemorySet) :=
  let self := mkTaskUserRes (tid self) (ustack_top self) alloc_user_stack in
  memory_set ←
    (if alloc_user_stack then
       let top := ustack_top_from_id (ustack_top self) (tid self) in
       let bottom := top ⊟ USER_STACK_SIZE in
       insert_framed_area memory_set (VirtAddr_from_usize bottom) (VirtAddr_from_usize top)
         (Z.lor (Z.lor MapPermission_R MapPermission_W) MapPermission_U)
     else mret memory_set);
  let trap_cx_bottom := trap_cx_bottom_from_tid (tid self) in
  let trap_cx_top := trap_cx_bottom ⊞ PAGE_SIZE in
  memory_set ← insert_framed_area memory_set (VirtAddr_from_usize trap_cx_bottom)
    (VirtAddr_from_usize trap_cx_top) (Z.lor MapPermission_R MapPermission_W);
  mret (self, memory_set).

Definition TaskUserRes_new (memory_set : MemorySet) (task_res_allocator : RecycleAllocator)
    (ustack_top : Z) (alloc_user_res_flag alloc_user_stack : bool)
    : ST (Machine A) (TaskUserRes * MemorySet * RecycleAllocator) :=
  let '(tid, al) := ra_alloc task_res_allocator in
  let task_user_res := mkTaskUserRes tid ustack_top true in
  if alloc_user_res_flag then
    '(task_user_res, memory_set) ← alloc_user_res task_user_res memory_set alloc_user_stack;
    mret (task_user_res, memory_set, al)
  else mret (task_user_res, memory_set, al).

Definition dealloc_user_res (self : TaskUserRes) (memory_set : MemorySet)
    : ST (Machine A) MemorySet :=
  memory_set ←
    (if self_stack self then
       let top := ustack_top_from_id (ustack_top self) (tid self) in
       vpn ← VirtPageNum_from_VirtAddr (VirtAddr_from_usize (top ⊟ USER_STACK_SIZE));
       remove_area_with_start_vpn memory_set vpn
     else mret memory_set);
  vpn ← VirtPageNum_from_VirtAddr (VirtAddr_from_usize (trap_cx_bottom_from_tid (tid self)));
  remove_area_with_start_vpn memory_set vpn.

Definition TaskUserRes_drop (self : TaskUserRes) (memory_set : MemorySet)
    (task_res_allocator : RecycleAllocator) : ST (Machine A) (MemorySet * RecycleAllocator) :=
  al ← lift (ra_dealloc task_res_allocator (tid self));
  memory_set ← dealloc_user_res self memory_set;
  mret (memory_set, al).

Definition trap_cx_ppn (self : TaskUserRes) (memory_set : MemorySet) : ST (Machine A) PhysPageNum :=
  vpn ← VirtPageNum_from_VirtAddr (VirtAddr_from_usize (trap_cx_bottom_from_tid (tid self)));
  s ← get_st;
  pte ← unwrap (MemorySet_translate (pmem s) memory_set vpn);
  mret (PTE_ppn pte).
End operations.

(** ** The allocator: [live] are the numbers in use *)

Record ra_wf (al : RecycleAllocator) (live : gset Z) : Prop := {
  rw_nodup : NoDup (ra_recycled al);
  rw_range : 0 ≤ ra_current al < 2 ^ 64 - 1;
  rw_split : ∀ id, 0 ≤ id < ra_current al ↔ id ∈ live ∨ id ∈ ra_recycled al;
  rw_disj : ∀ id, id ∈ live → id ∉ ra_recycled al
}.

Lemma ra_wf_count al live : ra_wf al live →
  ra_current al = Z.of_nat (size live) + Z.of_nat (length (ra_recycled al)).
Proof.
  intros [Hn Hr Hs Hd].
  assert (live ∪ list_to_set (ra_recycled al) = list_to_set (seqZ 0 (ra_current al))) as Hu.
  { apply set_eq. intros id. rewrite elem_of_union, !elem_of_list_to_set, elem_of_seqZ, <-Hs. lia. }
  apply (f_equal size) in Hu. rewrite size_union in Hu by set_solver.
  rewrite !size_list_to_set in Hu by (done || apply NoDup_seqZ). rewrite length_seqZ in Hu. lia.
Qed.

(** [alloc] returns a number that is not in use, the next one when none was
    given back. *)
Lemma ra_alloc_spec al live id al' :
  ra_wf al live → ra_current al < 2 ^ 64 - 2 → ra_alloc al = (id, al') →
  ra_wf al' ({[id]} ∪ live) ∧ (id ∉ live) ∧ 0 ≤ id ∧ ra_current al' ≤ Z.max (ra_current al) (id + 1) ∧
  (id < ra_current al ∨ (id = ra_current al ∧ id = Z.of_nat (size live))).
Proof.
  intros Hwf Hb. pose proof (ra_wf_count al live Hwf) as Hc. destruct Hwf as [Hn Hr Hs Hd].
  unfold ra_alloc. destruct (vec_pop (ra_recycled al)) as [[i rs]|] eqn:Hpop.
  - intros [= <- <-]. apply vec_pop_Some in Hpop. unfold vec_push in Hpop. rewrite Hpop in *.
    apply NoDup_app in Hn as (Hn & Hx & _).
    assert (0 ≤ i < ra_current al) as Hi by (apply Hs; right; set_solver).
    split_and!; [|set_solver|lia|cbn; lia|left; lia].
    constructor; cbn; [done|lia| |].
    + intros id. rewrite Hs. set_solver.
    + intros id [->%elem_of_singleton|Hid]%elem_of_union; [|specialize (Hd id Hid); set_solver].
      intros Hin. by apply (Hx _ Hin), list_elem_of_singleton.
  - intros [= <- <-]. apply vec_pop_None in Hpop. rewrite Hpop in *.
    rewrite (wrap64_small (ra_current al + 1)) by (unfold is_usize; lia).
    replace (ra_current al + 1 - 1) with (ra_current al) by lia.
    rewrite wrap64_small by (unfold is_usize; lia). simpl in Hc.
    assert (ra_current al ∉ live) by (intros Hin; specialize (Hs (ra_current al)); destruct Hs as [_ Hs];
      specialize (Hs (or_introl Hin)); lia).
    split_and!; [|done|lia|cbn; lia|right; lia].
    constructor; cbn; [constructor|lia| |set_solver].
    intros id. specialize (Hs id). rewrite elem_of_union, elem_of_singleton.
    destruct (decide (id = ra_current al)); [|set_solver by lia].
    subst. split; [by left; left|]. intros _. lia.
Qed.

Lemma ra_dealloc_spec al live id :
  ra_wf al live → id ∈ live →
  ∃ al', ra_dealloc al id = Ok al' ∧ ra_wf al' (live ∖ {[id]}) ∧ ra_current al' = ra_current al.
Proof.
  intros [Hn Hr Hs Hd] Hid. assert (0 ≤ id < ra_current al) as Hi by (apply Hs; by left).
  unfold ra_dealloc. rewrite (proj2 (Z.ltb_lt id _)) by lia.
  destruct (existsb _ _) eqn:E.
  { apply existsb_exists in E as (i & Hin & ->%Z.eqb_eq). by apply list_elem_of_In, Hd in Hin. }
  eexists. split_and!; [done| |done]. constructor; cbn; unfold vec_push.
  - apply NoDup_app. split_and!; [done| |apply NoDup_singleton].
    intros x Hx ->%list_elem_of_singleton. by apply (Hd id).
  - done.
  - intros i. rewrite Hs, elem_of_app, list_elem_of_singleton, elem_of_difference, elem_of_singleton.
    destruct (decide (i = id)) as [->|]; [intuition|]. intuition.
  - intros i [Hi1 Hi2]%elem_of_difference. rewrite elem_of_app, list_elem_of_singleton.
    rewrite elem_of_singleton in Hi2. intros [Hx|Hx]; [|done]. by apply (Hd i).
Qed.

(** ** Where the kernel stacks are *)

(** The lowest page of a stack.  The page below it belongs to no stack. *)
Definition kstack_lo (id : Z) : Z := 2 ^ 27 - 3 - 3 * id.

(** The numbers whose stacks fit the upper three quarters of the kernel's
    address space. *)
Definition kstack_max : Z := 2 ^ 25.

Lemma kstack_position id :
  0 ≤ id < kstack_max →
  VirtAddr_from_usize (kernel_stack_position id).1 = kstack_lo id * 4096 ∧
  VirtAddr_from_usize (kernel_stack_position id).2 = (kstack_lo id + 2) * 4096.
Proof.
  unfold kstack_max. intros Hid. rewrite !VirtAddr_from_usize_mod.
  unfold kernel_stack_position. cbn [fst snd].
  change (KERNEL_STACK_SIZE + PAGE_SIZE) with 12288. change KERNEL_STACK_SIZE with 8192.
  change TRAMPOLINE with (2 ^ 64 - 4096).
  rewrite (wrap64_small (id * 12288)), (wrap64_small (2 ^ 64 - 4096 - id * 12288)),
    wrap64_small by (unfold is_usize; lia).
  unfold kstack_lo. split.
  - replace (2 ^ 64 - 4096 - id * 12288 - 8192) with
      ((2 ^ 27 - 3 - 3 * id) * 4096 + (2 ^ 25 - 1) * 2 ^ 39) by lia.
    rewrite Z_mod_plus_full, Z.mod_small; lia.
  - replace (2 ^ 64 - 4096 - id * 12288) with
      ((2 ^ 27 - 3 - 3 * id + 2) * 4096 + (2 ^ 25 - 1) * 2 ^ 39) by lia.
    rewrite Z_mod_plus_full, Z.mod_small; lia.
Qed.

Section kstack.
Context {A : Type} {FA : FrameAllocator A} {FS : FrameAllocatorSpec A}.
Implicit Types (R : gset Z) (s : Machine A) (ms : MemorySet) (al : RecycleAllocator).

Definition RW : Z := Z.lor MapPermission_R MapPermission_W.

(** The area of stack [id], with its frames [fs]. *)
Definition kstack_area (id : Z) (fs : gmap Z FrameTracker) : MapArea :=
  mkMapArea (mkSimpleRange (kstack_lo id) (kstack_lo id + 2)) fs Framed RW.

(** Stack [id] is mapped: both pages have a frame of the area. *)
Definition kstack_mapped s ms (id : Z) : Prop :=
  ∃ fs, kstack_area id fs ∈ areas ms ∧
    dom fs = list_to_set (seqZ (kstack_lo id) 2) ∧
    ∀ vpn, kstack_lo id ≤ vpn < kstack_lo id + 2 →
      ∃ p, fs !! vpn = Some (mkFrameTracker p true) ∧
           ms_view s ms vpn = Some (PTE_new p (Z.lor RW PTE_V)).

(** The kernel space with the stacks [live]: those are mapped, the pages of
    the others and the page below each stack are not. *)
Record ks_inv R s ms al (live : gset Z) : Prop := {
  ki_ok : ms_ok R s ms;
  ki_ra : ra_wf al live;
  ki_max : ra_current al ≤ kstack_max;
  ki_live : ∀ id, id ∈ live → kstack_mapped s ms id;
  ki_starts : NoDup ((fun a => get_start (vpn_range a)) <$> areas ms);
  ki_dead : ∀ id, 0 ≤ id < kstack_max → id ∉ live →
    (∀ vpn, kstack_lo id ≤ vpn < kstack_lo id + 2 → ms_view s ms vpn = None) ∧
    Forall (fun a => get_start (vpn_range a) ≠ kstack_lo id) (areas ms);
  ki_guard : ∀ id, 0 ≤ id < kstack_max → ms_view s ms (kstack_lo id - 1) = None
}.

Lemma ki_range R s ms al live id : ks_inv R s ms al live → id ∈ live → 0 ≤ id < kstack_max.
Proof.
  intros Hi Hid. pose proof (ki_max _ _ _ _ _ Hi).
  assert (0 ≤ id < ra_current al); [|lia]. apply (rw_split _ _ (ki_ra _ _ _ _ _ Hi)). by left.
Qed.

(** The pages of different stacks, and the pages below them, are different. *)
Lemma kstack_disjoint i j : i ≠ j →
  kstack_lo j + 2 < kstack_lo i ∨ kstack_lo i + 2 < kstack_lo j.
Proof. unfold kstack_lo. lia. Qed.

Lemma kstack_lo_range id : 0 ≤ id < kstack_max → 1 ≤ kstack_lo id ∧ kstack_lo id + 2 < 2 ^ 27.
Proof. unfold kstack_lo, kstack_max. lia. Qed.

(** Stack [id] was mapped with the frames [G] and nothing else changed. *)
Lemma ks_inv_insert R s ms al live id al' G s' ms' :
  ks_inv R s ms al live → ra_wf al' ({[id]} ∪ live) → ra_current al' ≤ kstack_max → id ∉ live →
  0 ≤ id < kstack_max →
  ms_ok R s' ms' → areas ms' = areas ms ++ [kstack_area id ((fun p => mkFrameTracker p true) <$> G)] →
  dom G = list_to_set (seqZ (kstack_lo id) 2) →
  (∀ vpn, 0 ≤ vpn < 2 ^ 27 → ms_view s' ms' vpn =
     match G !! vpn with Some p => Some (PTE_new p (Z.lor RW PTE_V)) | None => ms_view s ms vpn end) →
  ks_inv R s' ms' al' ({[id]} ∪ live).
Proof.
  intros Hi Hwf Hmax Hnl Hid Hok Har HG Hview. pose proof (kstack_lo_range id Hid) as Hlo.
  assert (∀ vpn, 0 ≤ vpn < 2 ^ 27 → vpn < kstack_lo id ∨ kstack_lo id + 2 ≤ vpn →
    ms_view s' ms' vpn = ms_view s ms vpn) as Hsame.
  { intros vpn Hv Hout. rewrite Hview by done. replace (G !! vpn) with (@None Z); [done|].
    symmetry. apply not_elem_of_dom. rewrite HG, elem_of_list_to_set, elem_of_seqZ. lia. }
  destruct (ki_dead _ _ _ _ _ Hi id Hid Hnl) as [_ Hst].
  constructor; [done|done|done| | | |].
  - intros j [->%elem_of_singleton|Hj]%elem_of_union.
    + exists ((fun p => mkFrameTracker p true) <$> G). split_and!; [|by rewrite dom_fmap_L|].
      * rewrite Har. set_solver.
      * intros vpn Hvpn. assert (is_Some (G !! vpn)) as [p Hp].
        { apply elem_of_dom. rewrite HG, elem_of_list_to_set, elem_of_seqZ. lia. }
        exists p. rewrite lookup_fmap, Hview, Hp by lia. done.
    + assert (j ≠ id) as Hne by (intros ->; done). pose proof (kstack_disjoint j id Hne).
      pose proof (kstack_lo_range j (ki_range _ _ _ _ _ _ Hi Hj)).
      destruct (ki_live _ _ _ _ _ Hi j Hj) as (fs & Hin & Hdom & Hfs). exists fs.
      split_and!; [rewrite Har; set_solver|done|]. intros vpn Hvpn. rewrite Hsame by lia. by apply Hfs.
  - rewrite Har, fmap_app. apply NoDup_app. split_and!; [apply Hi| |apply NoDup_singleton].
    intros x Hx Hy. cbn in Hy. apply list_elem_of_singleton in Hy as ->.
    apply list_elem_of_fmap in Hx as (a & Ha & Hin). rewrite Forall_forall in Hst.
    by apply (Hst a Hin).
  - intros j Hj [Hjid Hjl]%not_elem_of_union. rewrite elem_of_singleton in Hjid.
    destruct (ki_dead _ _ _ _ _ Hi j Hj Hjl) as [Hv Hs]. pose proof (kstack_disjoint j id Hjid).
    pose proof (kstack_lo_range j Hj). split.
    + intros vpn Hvpn. rewrite Hsame by lia. by apply Hv.
    + rewrite Har. apply Forall_app. split; [done|]. apply Forall_singleton. cbn. lia.
  - intros j Hj. pose proof (kstack_lo_range j Hj). rewrite Hsame; [by apply Hi|lia|].
    destruct (decide (j = id)) as [->|Hne]; [lia|]. pose proof (kstack_disjoint j id Hne). lia.
Qed.

Lemma wp_kstack_alloc R s ms al live :
  ks_inv R s ms al live → Z.of_nat (size live) < kstack_max →
  6 ≤ Z.of_nat (size (fa_free (falloc s))) →
  wp (kstack_alloc ms al) (fun r s' =>
    (r.1.1 ∉ live) ∧ 0 ≤ r.1.1 < kstack_max ∧ ks_inv R s' r.1.2 r.2 ({[r.1.1]} ∪ live)) s.
Proof.
  intros Hi Hsz Hfree. unfold kstack_alloc. destruct (ra_alloc al) as [id al'] eqn:Hal.
  pose proof (ki_max _ _ _ _ _ Hi) as Hmax.
  destruct (ra_alloc_spec al live id al') as (Hwf' & Hnl & H0 & Hcur & Hlt);
    [apply Hi|unfold kstack_max in *; lia|done|].
  assert (0 ≤ id < kstack_max) as Hid by lia.
  destruct (kstack_position id Hid) as [Hb Ht].
  destruct (kernel_stack_position id) as [b t]. cbn in Hb, Ht. rewrite Hb, Ht.
  destruct (ki_dead _ _ _ _ _ Hi id Hid Hnl) as [Hun Hst].
  assert (kstack_lo id * 4096 / 4096 = kstack_lo id) as Hd1 by by rewrite Z.div_mul.
  assert (((kstack_lo id + 2) * 4096 + 4095) / 4096 = kstack_lo id + 2) as Hd2.
  { rewrite Z.div_add_l by lia. change (4095 / 4096) with 0. lia. }
  pose proof (kstack_lo_range id Hid) as Hlo.
  wp_step. eapply (wp_insert_framed_area R s ms (kstack_lo id * 4096) ((kstack_lo id + 2) * 4096));
    [apply Hi|done|lia|lia|by rewrite Hd1, Hd2|rewrite Hd1, Hd2; lia|].
  rewrite Hd1, Hd2. replace (kstack_lo id + 2 - kstack_lo id) with 2 by lia.
  intros G s' ms' HG Hok' Har _ Hadd. wp_step. cbn [fst snd]. split; [done|]. split; [done|].
  eapply (ks_inv_insert R s ms al live id al' G); try done; [lia|].
  apply Hadd.
Qed.

(** Stack [id] was unmapped and its area removed. *)
Lemma ks_inv_remove R s ms al live id al' pre post fs s' ms' :
  ks_inv R s ms al live → id ∈ live → areas ms = pre ++ kstack_area id fs :: post →
  ra_wf al' (live ∖ {[id]}) → ra_current al' = ra_current al → ms_ok R s' ms' →
  areas ms' = pre ++ post →
  (∀ vpn, 0 ≤ vpn < 2 ^ 27 → ms_view s' ms' vpn =
     if decide (kstack_lo id ≤ vpn < kstack_lo id + 2) then None else ms_view s ms vpn) →
  ks_inv R s' ms' al' (live ∖ {[id]}).
Proof.
  intros Hi Hid Har Hwf Hcur Hok Har' Hview. pose proof (ki_range _ _ _ _ _ _ Hi Hid) as Hrid.
  pose proof (kstack_lo_range id Hrid) as Hlo.
  pose proof (ki_starts _ _ _ _ _ Hi) as Hnd. rewrite Har, fmap_app, fmap_cons in Hnd. cbn in Hnd.
  rewrite <-Permutation_middle in Hnd. apply NoDup_cons in Hnd as [Hnew Hnd].
  rewrite <-fmap_app in Hnew, Hnd. rewrite <-Har' in Hnew, Hnd.
  constructor; [done|done|rewrite Hcur; apply Hi| |done| |].
  - intros j [Hj Hne]%elem_of_difference. rewrite elem_of_singleton in Hne.
    destruct (ki_live _ _ _ _ _ Hi j Hj) as (gs & Hin & Hdom & Hgs).
    pose proof (kstack_disjoint j id Hne). pose proof (kstack_lo_range j (ki_range _ _ _ _ _ _ Hi Hj)).
    exists gs. split_and!; [|done|].
    + rewrite Har in Hin. rewrite Har'. apply elem_of_app in Hin as [|Hin]; [set_solver|].
      apply elem_of_cons in Hin as [Heq|]; [|set_solver]. injection Heq as Heq _ _. lia.
    + intros vpn Hvpn. rewrite Hview by lia. rewrite decide_False by lia. by apply Hgs.
  - intros j Hj Hjl. pose proof (kstack_lo_range j Hj).
    destruct (decide (j = id)) as [->|Hne].
    + split; [intros vpn Hvpn; rewrite Hview by lia; by rewrite decide_True|].
      apply Forall_forall. intros a Ha Heq. apply Hnew, list_elem_of_fmap. by exists a.
    + pose proof (kstack_disjoint j id Hne).
      destruct (ki_dead _ _ _ _ _ Hi j Hj) as [Hv Hs]; [set_solver|]. split.
      * intros vpn Hvpn. rewrite Hview by lia. rewrite decide_False by lia. by apply Hv.
      * rewrite Har'. rewrite Har in Hs. apply Forall_app in Hs as [Hs1 Hs2].
        apply Forall_cons in Hs2 as [_ Hs2]. by apply Forall_app.
  - intros j Hj. pose proof (kstack_lo_range j Hj). rewrite Hview by lia.
    case_decide; [done|]. by apply Hi.
Qed.

Lemma wp_KernelStack_drop R s ms al live id :
  ks_inv R s ms al live → id ∈ live →
  wp (KernelStack_drop id ms al) (fun r s' => ks_inv R s' r.1 r.2 (live ∖ {[id]})) s.
Proof.
  intros Hi Hid. pose proof (ki_range _ _ _ _ _ _ Hi Hid) as Hrid.
  pose proof (kstack_lo_range id Hrid) as Hlo. destruct (kstack_position id Hrid) as [Hb _].
  destruct (ki_live _ _ _ _ _ Hi id Hid) as (fs & Hin & Hdom & Hfs).
  apply list_elem_of_split in Hin as (pre & post & Har).
  destruct (ra_dealloc_spec al live id) as (al' & Hde & Hwf & Hcur); [apply Hi|done|].
  unfold KernelStack_drop. destruct (kernel_stack_position id) as [b t]. cbn in Hb. rewrite Hb.
  unfold VirtPageNum_from_VirtAddr. do 2 wp_step. wp_step.
  { rewrite page_offset_mod, Z_mod_mult. done. }
  wp_step. assert (floor (kstack_lo id * 4096) = kstack_lo id) as ->.
  { unfold floor. change PAGE_SIZE with 4096. by rewrite Z.div_mul. }
  wp_step. eapply (wp_remove_area R s ms pre post (kstack_lo id) (kstack_lo id + 2) fs RW);
    [apply Hi|done| |lia|lia|by replace (kstack_lo id + 2 - kstack_lo id) with 2 by lia| |].
  - pose proof (ki_starts _ _ _ _ _ Hi) as Hnd. rewrite Har, fmap_app in Hnd.
    apply NoDup_app in Hnd as (_ & Hnd & _). apply Forall_forall. intros a Ha Heq.
    apply (Hnd (kstack_lo id)); [apply list_elem_of_fmap; by exists a|]. cbn. left.
  - intros vpn Hvpn. destruct (Hfs vpn Hvpn) as (p & Hp & Hv). split; [by exists p|]. by rewrite Hv.
  - intros s' ms' Hok' Har' _ _ _ Hview. wp_step. eapply wp_lift; [exact Hde|]. wp_step.
    by eapply (ks_inv_remove R s ms al live id al' pre post fs).
Qed.

(** ** Executions: tasks come and go *)

Inductive ks_cmd : Type := KAlloc | KDrop (id : Z).

Record KsState : Type := mkKsState { ks_space : MemorySet; ks_alloc : RecycleAllocator; ks_live : gset Z }.

(** Only stacks in use are dropped ([KernelStack] is owned by its task), and
    stacks are created while memory and numbers last. *)
Inductive ks_step : Machine A → KsState → ks_cmd → Machine A → KsState → Prop :=
  | ks_step_alloc s k id ms al s' :
      6 ≤ Z.of_nat (size (fa_free (falloc s))) → Z.of_nat (size (ks_live k)) < kstack_max →
      kstack_alloc (ks_space k) (ks_alloc k) s = Ok ((id, ms, al), s') →
      ks_step s k KAlloc s' (mkKsState ms al ({[id]} ∪ ks_live k))
  | ks_step_drop s k id ms al s' :
      id ∈ ks_live k → KernelStack_drop id (ks_space k) (ks_alloc k) s = Ok ((ms, al), s') →
      ks_step s k (KDrop id) s' (mkKsState ms al (ks_live k ∖ {[id]})).

Inductive ks_run : Machine A → KsState → list ks_cmd → Machine A → KsState → Prop :=
  | ks_run_nil s k : ks_run s k [] s k
  | ks_run_cons s k c s1 k1 cs s2 k2 :
      ks_step s k c s1 k1 → ks_run s1 k1 cs s2 k2 → ks_run s k (c :: cs) s2 k2.

Definition ks_ok R s (k : KsState) : Prop := ks_inv R s (ks_space k) (ks_alloc k) (ks_live k).

Lemma ks_step_ok R s k c s' k' : ks_ok R s k → ks_step s k c s' k' → ks_ok R s' k'.
Proof.
  intros Hi Hstep. destruct Hstep as [s k id ms al s' Hf Hs Hrun|s k id ms al s' Hin Hrun].
  - pose proof (wp_kstack_alloc _ _ _ _ _ Hi Hs Hf) as H. unfold wp in H. rewrite Hrun in H. apply H.
  - pose proof (wp_KernelStack_drop _ _ _ _ _ id Hi Hin) as H. unfold wp in H. by rewrite Hrun in H.
Qed.

Lemma NoDup_bind_inj {X Y} (f : X → list Y) (l : list X) a b y :
  NoDup (l ≫= f) → a ∈ l → b ∈ l → y ∈ f a → y ∈ f b → a = b.
Proof.
  induction l as [|x l IH]; [set_solver|]. rewrite bind_cons.
  intros (Hn1 & Hn2 & Hn3)%NoDup_app Ha Hb Hya Hyb.
  apply elem_of_cons in Ha as [->|Ha], Hb as [->|Hb]; [done| | |by apply IH];
    exfalso; apply (Hn2 y); try done; apply list_elem_of_bind; eauto.
Qed.

(** A tracker that holds a frame accounts for it, and only one does. *)
Lemma elem_of_held (fs : gmap Z FrameTracker) vpn p :
  fs !! vpn = Some (mkFrameTracker p true) → p ∈ held fs.
Proof. intros Hp. rewrite (held_delete fs vpn _ Hp). cbn. left. Qed.

Lemma held_inj (fs : gmap Z FrameTracker) v w p :
  NoDup (held fs) → fs !! v = Some (mkFrameTracker p true) → fs !! w = Some (mkFrameTracker p true) →
  v = w.
Proof.
  intros Hn Hv Hw. destruct (decide (v = w)) as [|Hne]; [done|]. exfalso.
  rewrite (held_delete fs v _ Hv) in Hn. cbn in Hn. apply NoDup_cons in Hn as [Hn _]. apply Hn.
  apply (elem_of_held _ w). by rewrite lookup_delete_ne.
Qed.

(** Frame [p] is held for page [vpn] of a stack in use. *)
Definition kstack_frame ms (live : gset Z) (vpn p : Z) : Prop :=
  ∃ id fs, id ∈ live ∧ kstack_area id fs ∈ areas ms ∧
    kstack_lo id ≤ vpn < kstack_lo id + 2 ∧ fs !! vpn = Some (mkFrameTracker p true).

Lemma kstack_frame_inj R s ms al live v w p :
  ks_inv R s ms al live → kstack_frame ms live v p → kstack_frame ms live w p → v = w.
Proof.
  intros Hi (i & fs & Hil & Hin & Hv & Hfs) (j & gs & Hjl & Hjn & Hw & Hgs).
  pose proof (as_nodup _ _ _ _ (ki_ok _ _ _ _ _ Hi)) as Hn. unfold ms_frames in Hn.
  apply NoDup_app in Hn as (Hn & _ & _).
  assert (kstack_area i fs = kstack_area j gs) as Heq.
  { eapply NoDup_bind_inj; [exact Hn|done|done|by eapply elem_of_held|by eapply elem_of_held]. }
  injection Heq as _ _ ->. eapply (held_inj gs); [|done|done].
  apply list_elem_of_split in Hjn as (l1 & l2 & Har). unfold areas_frames in Hn.
  rewrite Har, bind_app, bind_cons in Hn. apply NoDup_app in Hn as (_ & _ & Hn).
  by apply NoDup_app in Hn as (Hn & _).
Qed.

(** C30: kernel stacks are isolated from each other.  However tasks
    are created and dropped, each stack in use has its two pages mapped
    read-write, every page to a frame of its own; the page below each stack
    is unmapped, so an overflow faults instead of reaching another stack; a
    stack in use can be dropped without a panic; and as long as six frames
    are free and fewer than 2^25 stacks exist, a new one can be created,
    with a number that is not in use. *)
Theorem kernel_stacks_isolated R s k cs s' k' :
  ks_ok R s k → ks_run s k cs s' k' →
  (∀ id vpn, id ∈ ks_live k' → kstack_lo id ≤ vpn < kstack_lo id + 2 →
     ∃ p, kstack_frame (ks_space k') (ks_live k') vpn p ∧
       ms_view s' (ks_space k') vpn = Some (PTE_new p (Z.lor RW PTE_V))) ∧
  (∀ v w p, kstack_frame (ks_space k') (ks_live k') v p →
     kstack_frame (ks_space k') (ks_live k') w p → v = w) ∧
  (∀ id, 0 ≤ id < kstack_max → ms_view s' (ks_space k') (kstack_lo id - 1) = None) ∧
  (∀ id, id ∈ ks_live k' → ∃ r s2, KernelStack_drop id (ks_space k') (ks_alloc k') s' = Ok (r, s2)) ∧
  (6 ≤ Z.of_nat (size (fa_free (falloc s'))) → Z.of_nat (size (ks_live k')) < kstack_max →
     ∃ r s2, kstack_alloc (ks_space k') (ks_alloc k') s' = Ok (r, s2) ∧ (r.1.1 ∉ ks_live k')).
Proof.
  intros Hi Hrun.
  assert (ks_ok R s' k') as Hi'.
  { induction Hrun as [|s k c s1 k1 cs s2 k2 Hstep _ IH]; [done|]. by eapply IH, ks_step_ok. }
  unfold ks_ok in Hi'. split_and!.
  - intros id vpn Hid Hvpn. destruct (ki_live _ _ _ _ _ Hi' id Hid) as (fs & Hin & _ & Hfs).
    destruct (Hfs vpn Hvpn) as (p & Hp & Hv). exists p. split; [|done]. by exists id, fs.
  - intros v w p. by eapply kstack_frame_inj.
  - apply Hi'.
  - intros id Hid. pose proof (wp_KernelStack_drop _ _ _ _ _ id Hi' Hid) as H.
    apply wp_elim in H as (r & s2 & Hr & _). by exists r, s2.
  - intros Hf Hs. pose proof (wp_kstack_alloc _ _ _ _ _ Hi' Hs Hf) as H.
    apply wp_elim in H as (r & s2 & Hr & Hn & _). by exists r, s2.
Qed.
End kstack.

(** ** Witness: a stack is created and dropped in an empty kernel space *)

Lemma sample_ks : ∃ ms s, ks_ok sample_frames s (mkKsState ms RecycleAllocator_new ∅) ∧
  6 ≤ Z.of_nat (size (fa_free (falloc s))).
Proof.
  destruct sample_bare as (ms & s & _ & Hok & Har & _ & _ & _ & Hview & Hsz).
  exists ms, s. split; [|lia]. constructor; cbn; [done| |done|set_solver| | |].
  - constructor; cbn; [constructor|lia| |set_solver]. intros id. split; [lia|set_solver].
  - rewrite Har. constructor.
  - intros id Hid _. pose proof (kstack_lo_range id Hid). split; [intros; apply Hview; lia|].
    rewrite Har. constructor.
  - intros id Hid. pose proof (kstack_lo_range id Hid). apply Hview. lia.
Qed.

Lemma sample_live (id : Z) : id ∈ ({[id]} ∪ ∅ : gset Z).
Proof. set_solver. Qed.

Lemma kernel_stacks_isolated_witness : ∃ s k s' k' id,
  ks_run s k [KAlloc; KDrop id] s' k' ∧ ks_live k' = ({[id]} ∪ ∅) ∖ {[id]} ∧
  (∀ id, 0 ≤ id < kstack_max → ms_view s' (ks_space k') (kstack_lo id - 1) = None).
Proof.
  destruct sample_ks as (ms & s & Hi & Hf).
  pose proof (wp_kstack_alloc _ _ _ _ _ Hi ltac:(done) Hf) as H.
  apply wp_elim in H as ([[id ms1] al1] & s1 & Hrun1 & Hn & Hr & Hi1). cbn in Hi1.
  pose proof (wp_KernelStack_drop _ _ _ _ _ id Hi1 (sample_live id)) as H.
  apply wp_elim in H as ([ms2 al2] & s2 & Hrun2 & _).
  assert (ks_run s (mkKsState ms RecycleAllocator_new ∅) [KAlloc; KDrop id] s2
    (mkKsState ms2 al2 (({[id]} ∪ ∅) ∖ {[id]}))) as Hrun.
  { eapply ks_run_cons; [by apply (ks_step_alloc s (mkKsState ms RecycleAllocator_new ∅) id ms1 al1)|].
    eapply ks_run_cons; [eapply (ks_step_drop s1 (mkKsState ms1 al1 ({[id]} ∪ ∅)) id ms2 al2);
      [exact (sample_live id)|exact Hrun2]|]. apply ks_run_nil. }
  exists s, (mkKsState ms RecycleAllocator_new ∅), s2, (mkKsState ms2 al2 (({[id]} ∪ ∅) ∖ {[id]})), id.
  split; [exact Hrun|]. split; [reflexivity|].
  exact (proj1 (proj2 (proj2 (kernel_stacks_isolated sample_frames _ _ _ _ _ Hi Hrun)))).
Defined.
