(* ===== verification/Signals.v ===== *)
(** * Signals: [kernel/src/task/signal.rs], [kernel/src/task/action.rs], the
    delivery functions of [kernel/src/task/mod.rs], and the system calls of
    [kernel/src/syscall/signal.rs]

    The state is what these functions share: the pending set, the mask and the
    action table of the current process, and the signal fields and the trap
    context of the current thread.  [SignalFlags] has a name for each of the
    64 bits, so [from_bits] never fails. *)

From S2P Require Import Prelude Config Address PhysMem UserMem Sched Timer.

Definition MAX_SIG : Z := 63.
Definition SIG_BLOCK : Z := 0.
Definition SIG_UNBLOCK : Z := 1.
Definition SIG_SETMASK : Z := 2.
Definition SIG_DFL : Z := 0.

Definition SIGINT : Z := Z.shiftl 1 1.
Definition SIGILL : Z := Z.shiftl 1 3.
Definition SIGABRT : Z := Z.shiftl 1 5.
Definition SIGFPE : Z := Z.shiftl 1 7.
Definition SIGKILL : Z := Z.shiftl 1 8.
Definition SIGSEGV : Z := Z.shiftl 1 10.
Definition SIGCONT : Z := Z.shiftl 1 17.
Definition SIGSTOP : Z := Z.shiftl 1 18.
Definition SIGCANCEL : Z := Z.shiftl 1 32.

Definition SignalFlags_from_bits (bits : Z) : option Z := flags_from_bits (Z.ones 64) bits.

(** [1 << n] on [usize]: the amount is taken modulo 64. *)
Definition shl_one (n : Z) : Z := Z.shiftl 1 (n mod 64).

Definition SA_RESTORER : Z := 0x04000000.

(** The exit code; the message is left out. *)
Definition check_error (self : Z) : option Z :=
  if flags_contains self SIGINT then Some (-2)
  else if flags_contains self SIGILL then Some (-4)
  else if flags_contains self SIGABRT then Some (-6)
  else if flags_contains self SIGFPE then Some (-8)
  else if flags_contains self SIGKILL then Some (-9)
  else if flags_contains self SIGSEGV then Some (-11)
  else None.

Record SignalAction : Type := mkSignalAction {
  sa_handler : Z;
  sa_flags : Z;
  sa_restorer : Z;
  sa_mask : Z
}.

Definition SignalAction_default : SignalAction := mkSignalAction SIG_DFL 0 0 40.

Definition SignalActions_default : list SignalAction :=
  replicate (Z.to_nat (MAX_SIG + 1)) SignalAction_default.

(** [#[repr(C)]]: 32 bytes, four of them padding behind [sa_flags]. *)
Definition load_action (m : PMem) (a : Z) : SignalAction :=
  mkSignalAction (load64 m a) (load_le 4 m (a + 8)) (load64 m (a + 16)) (load64 m (a + 24)).
Definition store_action (m : PMem) (a : Z) (v : SignalAction) : PMem :=
  store64 (store64 (store_le 4 (store64 m a (sa_handler v)) (a + 8) (sa_flags v))
    (a + 16) (sa_restorer v)) (a + 24) (sa_mask v).

(** [TrapContext] of [kernel/src/trap/context.rs]. *)
Record TrapContext : Type := mkTrapContext {
  x : list Z;
  sstatus : Z;
  sepc : Z;
  kernel_satp : Z;
  kernel_sp : Z;
  trap_handler : Z
}.

Definition set_sepc (v : Z) (c : TrapContext) : TrapContext :=
  mkTrapContext (x c) (sstatus c) v (kernel_satp c) (kernel_sp c) (trap_handler c).
Definition set_x (i : nat) (v : Z) (c : TrapContext) : TrapContext :=
  mkTrapContext (<[i := v]> (x c)) (sstatus c) (sepc c) (kernel_satp c) (kernel_sp c) (trap_handler c).

Record SigState : Type := mkSigState {
  (* the process *)
  signals_pending : Z;
  signal_mask : Z;
  signal_actions : list SignalAction;
  (* the current thread *)
  signal_pending : Z;
  handling_sig : Z;
  killed : bool;
  frozen : bool;
  trap_cx : TrapContext;
  trap_ctx_backup : option TrapContext
}.

Definition with_pending (v : Z) (s : SigState) : SigState :=
  mkSigState v (signal_mask s) (signal_actions s) (signal_pending s) (handling_sig s)
    (killed s) (frozen s) (trap_cx s) (trap_ctx_backup s).
Definition with_thread_pending (v : Z) (s : SigState) : SigState :=
  mkSigState (signals_pending s) (signal_mask s) (signal_actions s) v (handling_sig s)
    (killed s) (frozen s) (trap_cx s) (trap_ctx_backup s).
Definition with_mask (v : Z) (s : SigState) : SigState :=
  mkSigState (signals_pending s) v (signal_actions s) (signal_pending s) (handling_sig s)
    (killed s) (frozen s) (trap_cx s) (trap_ctx_backup s).
Definition with_actions (v : list SignalAction) (s : SigState) : SigState :=
  mkSigState (signals_pending s) (signal_mask s) v (signal_pending s) (handling_sig s)
    (killed s) (frozen s) (trap_cx s) (trap_ctx_backup s).
Definition with_handling (v : Z) (s : SigState) : SigState :=
  mkSigState (signals_pending s) (signal_mask s) (signal_actions s) (signal_pending s) v
    (killed s) (frozen s) (trap_cx s) (trap_ctx_backup s).
Definition with_killed (v : bool) (s : SigState) : SigState :=
  mkSigState (signals_pending s) (signal_mask s) (signal_actions s) (signal_pending s)
    (handling_sig s) v (frozen s) (trap_cx s) (trap_ctx_backup s).
Definition with_frozen (v : bool) (s : SigState) : SigState :=
  mkSigState (signals_pending s) (signal_mask s) (signal_actions s) (signal_pending s)
    (handling_sig s) (killed s) v (trap_cx s) (trap_ctx_backup s).
Definition with_trap_cx (v : TrapContext) (s : SigState) : SigState :=
  mkSigState (signals_pending s) (signal_mask s) (signal_actions s) (signal_pending s)
    (handling_sig s) (killed s) (frozen s) v (trap_ctx_backup s).
Definition with_backup (v : option TrapContext) (s : SigState) : SigState :=
  mkSigState (signals_pending s) (signal_mask s) (signal_actions s) (signal_pending s)
    (handling_sig s) (killed s) (frozen s) (trap_cx s) v.

(** [table[i]]: out of range it panics. *)
Definition action_at (i : Z) : ST SigState SignalAction :=
  s ← get_st;
  if i <? 0 then panic else unwrap (signal_actions s !! Z.to_nat i).

(** ** Delivery *)

Definition check_signals_of_current_process : ST SigState (option Z) :=
  gets (fun s => check_error (signals_pending s)).

Definition check_signals_of_current_thread : ST SigState (option Z) :=
  gets (fun s => check_error (signal_pending s)).

Definition current_add_signal (signal : Z) : ST SigState unit :=
  modify (fun s => with_pending (Z.lor (signals_pending s) signal) s).

Definition call_kernel_signal_handler (signal : Z) : ST SigState unit :=
  if signal =? SIGSTOP then
    modify (with_frozen true);;
    modify (fun s => with_pending (Z.lxor (signals_pending s) SIGSTOP) s)
  else if signal =? SIGCONT then
    s ← get_st;
    if flags_contains (signals_pending s) SIGCONT then
      modify (fun s => with_pending (Z.lxor (signals_pending s) SIGCONT) s);;
      modify (with_frozen false)
    else mret tt
  else modify (with_killed true).

Definition call_user_signal_handler (sig signal : Z) (thread : bool) : ST SigState unit :=
  action ← action_at sig;
  let handler := sa_handler action in
  if negb (handler =? 0) then
    modify (with_mask (sa_mask action));;
    modify (with_handling (as_isize sig));;
    (if thread then
       modify (fun s => with_thread_pending (Z.lxor (signal_pending s) signal) s)
     else modify (fun s => with_pending (Z.lxor (signals_pending s) signal) s));;
    modify (fun s => with_backup (Some (trap_cx s)) s);;
    modify (fun s => with_trap_cx (set_sepc handler (trap_cx s)) s);;
    modify (fun s => with_trap_cx (set_x 10 sig (trap_cx s)) s);;
    modify (fun s => with_trap_cx (set_x 1
      (if flags_contains (sa_flags action) SA_RESTORER then sa_restorer action
       else SIGNAL_TRAMPOLINE) (trap_cx s)) s)
  else modify (with_killed true).

(** The guard that both halves of [check_pending_signals] use: pending, not
    masked, and not masked by the action that is being handled. *)
Definition deliverable (pending signal : Z) : ST SigState bool :=
  s ← get_st;
  if flags_contains pending signal && negb (flags_contains (signal_mask s) signal) then
    if handling_sig s =? -1 then mret true
    else
      action ← action_at (wrap64 (handling_sig s));
      mret (negb (flags_contains (sa_mask action) signal))
  else mret false.

(** One round of the loop: [true] is the [return] after a user handler. *)
Definition check_one (sig : Z) : ST SigState (option unit) :=
  s ← get_st;
  signal ← unwrap (SignalFlags_from_bits (shl_one sig));
  d ← deliverable (signals_pending s) signal;
  if d : bool then
    if (signal =? SIGKILL) || (signal =? SIGSTOP) || (signal =? SIGCONT) then
      call_kernel_signal_handler signal;; mret None
    else
      call_user_signal_handler sig signal false;; mret (Some tt)
  else mret None.

Definition check_pending_signals : ST SigState unit :=
  s ← get_st;
  d ← deliverable (signal_pending s) SIGCANCEL;
  (if d : bool then call_user_signal_handler 33 SIGCANCEL true else mret tt);;
  _ ← st_for_ret check_one (seqZ 0 (MAX_SIG + 1));
  mret tt.

(** One round of the loop of [handle_signals]: [true] when the loop ends; the
    other rounds give up the processor after it. *)
Definition handle_signals_round : ST SigState bool :=
  s ← get_st;
  if negb (frozen s) || killed s then mret true
  else check_pending_signals;; mret false.

(** ** System calls; the user's memory is passed in and out *)

Definition sys_sigprocmask (m : PMem) (tok how set old_set : Z) : ST SigState (Z * PMem) :=
  s ← get_st;
  let mask := signal_mask s in
  m ← (if negb (old_set =? 0) then
         pa ← lift (translated_refmut m tok old_set);
         mret (store64 m pa mask)
       else mret m);
  if negb (set =? 0) then
    pa ← lift (translated_ref m tok set);
    set_flags ← unwrap (SignalFlags_from_bits (load64 m pa));
    if how =? SIG_BLOCK then
      modify (with_mask (Z.lor mask set_flags));; mret (SUCCESS, m)
    else if how =? SIG_UNBLOCK then
      modify (with_mask (Z.land mask (not64 set_flags)));; mret (SUCCESS, m)
    else if how =? SIG_SETMASK then
      modify (with_mask set_flags);; mret (SUCCESS, m)
    else mret (EPERM, m)
  else mret (SUCCESS, m).

Definition sys_sigreturn : ST SigState Z :=
  modify (with_handling (-1));;
  s ← get_st;
  backup ← unwrap (trap_ctx_backup s);
  modify (with_trap_cx backup);;
  mret SUCCESS.

Definition check_sigaction_error (signal : Z) : bool := (signal =? SIGKILL) || (signal =? SIGSTOP).

Definition sys_sigaction (m : PMem) (tok signum action old_action : Z) : ST SigState (Z * PMem) :=
  if MAX_SIG <? signum then mret (EPERM, m)
  else
    m ← (if negb (old_action =? 0) then
           pa ← lift (translated_refmut m tok old_action);
           a ← action_at signum;
           mret (store_action m pa a)
         else mret m);
    match SignalFlags_from_bits (shl_one (signum ⊟ 1)) with
    | None => mret (EPERM, m)
    | Some flag =>
        if check_sigaction_error flag then mret (EPERM, m)
        else
          old_kernel_action ← action_at signum;
          m ← (if negb (old_action =? 0) then
                 pa ← lift (translated_refmut m tok old_action);
                 mret (if negb (sa_mask old_kernel_action =? 40)
                       then store_action m pa old_kernel_action
                       else m)
               else mret m);
          (if negb (action =? 0) then
             pa ← lift (translated_ref m tok action);
             s ← get_st;
             put_st (with_actions (<[Z.to_nat signum := load_action m pa]> (signal_actions s)) s)
           else mret tt);;
          mret (SUCCESS, m)
    end.

(** [sys_kill]: the part on the process that was found, and the lookup. *)
Definition kill_process (signum : Z) : ST SigState Z :=
  match SignalFlags_from_bits (shl_one (signum ⊟ 1)) with
  | Some flag =>
      modify (fun s => with_pending (Z.lor (signals_pending s) flag) s);; mret 0
  | None => mret (-1)
  end.

Definition sys_kill (pid signum : Z) : ST (gmap Z SigState) Z := fun map =>
  match pid2process pid map with
  | Some process =>
      match kill_process signum process with
      | Ok (r, process) => Ok (r, <[pid := process]> map)
      | Panic => Panic
      | OutOfFuel => OutOfFuel
      end
  | None => Ok (-1, map)
  end.

(** [sys_tkill] on the pending sets of the threads of the process: the main
    thread has number 0 inside and the process number outside. *)
Definition sys_tkill (pid tid signum : Z) : ST (list (option Z)) Z :=
  let tid := if tid =? pid then 0 else if tid =? 0 then pid else tid in
  signal ← unwrap (SignalFlags_from_bits (shl_one (signum ⊟ 1)));
  tasks ← get_st;
  task ← unwrap (tasks !! Z.to_nat tid);
  pending ← unwrap task;
  put_st (<[Z.to_nat tid := Some (Z.lor pending signal)]> tasks);;
  mret SUCCESS.

(** [u64::trailing_zeros] *)
Definition trailing_zeros (v : Z) : Z :=
  match List.find (Z.testbit v) (seqZ 0 64) with Some i => i | None => 64 end.

(** [SigInfo::new]: three words, the rest is zero. *)
Definition store_siginfo (m : PMem) (a si_signo si_errno si_code : Z) : PMem :=
  fill_bytes
    (store_le 4 (store_le 4 (store_le 4 m a (wrap32 si_signo)) (a + 4) (wrap32 si_errno))
       (a + 8) (wrap32 si_code)) (a + 12) 116 0.

(** [sys_sigtimedwait] up to its loop, and one round of the loop: [None] means
    that the caller suspends itself and tries again. *)
Definition sigtimedwait_setup (m : PMem) (tok uthese uts time : Z)
    : ST SigState (Z + Z * TimeSpec) :=
  if (uthese =? 0) || (uts =? 0) then mret (inl EPERM)
  else
    pa ← lift (translated_ref m tok uts);
    let timeout := mkTimeSpec (load64 m pa) (load64 m (pa + 8)) in
    let limit_time := TimeSpec_add (TimeSpec_now time) timeout in
    pa ← lift (translated_ref m tok uthese);
    set_flags ← unwrap (SignalFlags_from_bits (load64 m pa));
    mret (inr (set_flags, limit_time)).

Definition sigtimedwait_round (m : PMem) (tok info set_flags : Z) (limit_time : TimeSpec) (time : Z)
    : ST SigState (option Z * PMem) :=
  s ← get_st;
  let match_signals := Z.land set_flags (signals_pending s) in
  if negb (match_signals =? 0) then
    let first_signals := trailing_zeros match_signals in
    m ← (if negb (info =? 0) then
           pa ← lift (translated_refmut m tok info);
           mret (store_siginfo m pa first_signals 0 0)
         else mret m);
    mret (Some SUCCESS, m)
  else if TimeSpec_cmp limit_time (TimeSpec_now time) is Lt then mret (Some EAGAIN, m)
  else mret (None, m).

(** The [UserEnvCall] arm of [trap_handler] of [kernel/src/trap/mod.rs] around
    a system call: step over the instruction, run the call, put its result in
    [a0] of the trap context of that moment. *)
Definition trap_syscall (call : ST SigState Z) : ST SigState unit :=
  modify (fun s => with_trap_cx (set_sepc (sepc (trap_cx s) ⊞ 4) (trap_cx s)) s);;
  result ← call;
  modify (fun s => with_trap_cx (set_x 10 (wrap64 result) (trap_cx s)) s).

(** ** Lemmas *)

Lemma contains_bit v i : 0 ≤ i → flags_contains v (2 ^ i) = Z.testbit v i.
Proof.
  intros Hi. unfold flags_contains. destruct (Z.testbit v i) eqn:E.
  - apply Z.eqb_eq. apply Z.bits_inj'. intros j Hj. rewrite Z.land_spec, Z.pow2_bits_eqb by done.
    destruct (Z.eqb_spec i j) as [->|]; [by rewrite E|apply andb_false_r].
  - apply Z.eqb_neq. intros Heq. apply (f_equal (fun w => Z.testbit w i)) in Heq.
    rewrite Z.land_spec, E, Z.pow2_bits_true in Heq by done. done.
Qed.

Lemma sig_bit i : 0 ≤ i < 64 → SignalFlags_from_bits (shl_one i) = Some (2 ^ i).
Proof.
  intros Hi. unfold SignalFlags_from_bits, flags_from_bits, shl_one.
  rewrite Z.mod_small, Z.shiftl_1_l by lia.
  assert (Z.ldiff (2 ^ i) (Z.ones 64) = 0) as ->; [|done].
  apply Z.bits_inj'. intros j Hj. rewrite Z.ldiff_spec, Z.bits_0.
  destruct (decide (j < 64)).
  - rewrite Z.ones_spec_low by lia. apply andb_false_r.
  - rewrite Z.pow2_bits_false by lia. done.
Qed.

(** A signal that must not be delivered now. *)
Definition idle_signal (s : SigState) (i : Z) : Prop :=
  Z.testbit (signals_pending s) i = true → Z.testbit (signal_mask s) i = true.

Lemma deliverable_idle s v i :
  0 ≤ i → (Z.testbit v i = true → Z.testbit (signal_mask s) i = true) →
  deliverable v (2 ^ i) s = Ok (false, s).
Proof.
  intros Hi Hid. unfold deliverable, mbind, st_bind, get_st. rewrite !contains_bit by done.
  destruct (Z.testbit v i); [|done]. by rewrite Hid.
Qed.

Lemma deliverable_now s v i :
  0 ≤ i → handling_sig s = -1 → Z.testbit v i = true → Z.testbit (signal_mask s) i = false →
  deliverable v (2 ^ i) s = Ok (true, s).
Proof.
  intros Hi Hh Hv Hm. unfold deliverable, mbind, st_bind, get_st. rewrite !contains_bit by done.
  by rewrite Hv, Hm, Hh.
Qed.

Lemma check_one_idle s i : 0 ≤ i < 64 → idle_signal s i → check_one i s = Ok (None, s).
Proof.
  intros Hi Hid. unfold check_one, mbind, st_bind, get_st. rewrite sig_bit by done. cbn [unwrap].
  unfold mret, st_ret. by rewrite deliverable_idle by (done || lia).
Qed.

Lemma check_all_idle s l :
  (∀ i, i ∈ l → 0 ≤ i < 64 ∧ idle_signal s i) → st_for_ret check_one l s = Ok (None, s).
Proof.
  induction l as [|i l IH]; [done|]. intros Hl. cbn [st_for_ret]. unfold mbind, st_bind.
  destruct (Hl i) as [Hi Hid]; [left|]. rewrite check_one_idle by done.
  apply IH. intros j Hj. apply Hl. by right.
Qed.

Lemma st_for_ret_app {S X B} (f : X → ST S (option B)) l1 l2 s s' :
  st_for_ret f l1 s = Ok (None, s') → st_for_ret f (l1 ++ l2) s = st_for_ret f l2 s'.
Proof.
  revert s. induction l1 as [|y l1 IH]; intros s; cbn; [by intros [= ->]|].
  unfold mbind, st_bind. destruct (f y s) as [[[b|] s1]| |]; try done. apply IH.
Qed.

(** The signals that the kernel handles itself. *)
Definition kernel_signal (sig : Z) : Prop := sig = 8 ∨ sig = 17 ∨ sig = 18.

Lemma user_signal_test sig : 0 ≤ sig < 64 → ¬ kernel_signal sig →
  (2 ^ sig =? SIGKILL) || (2 ^ sig =? SIGSTOP) || (2 ^ sig =? SIGCONT) = false.
Proof.
  intros Hs Hk. unfold kernel_signal in Hk.
  change SIGKILL with (2 ^ 8). change SIGSTOP with (2 ^ 18). change SIGCONT with (2 ^ 17).
  rewrite !orb_false_iff, !Z.eqb_neq. split_and!; intros H; apply Z.pow_inj_r in H; lia.
Qed.

(** [check_pending_signals] when the thread has no signal of its own. *)
Lemma check_pending_first s sig :
  signal_pending s = 0 → handling_sig s = -1 → 0 ≤ sig < 64 → ¬ kernel_signal sig →
  (∀ j, 0 ≤ j < sig → idle_signal s j) →
  Z.testbit (signals_pending s) sig = true → Z.testbit (signal_mask s) sig = false →
  check_pending_signals s = call_user_signal_handler sig (2 ^ sig) false s.
Proof.
  intros Ht Hh Hs Hk Hlow Hp Hm. unfold check_pending_signals, mbind at 1, st_bind at 1, get_st.
  unfold mbind at 1, st_bind at 1. change SIGCANCEL with (2 ^ 32).
  rewrite Ht, deliverable_idle; [|done|by rewrite Z.bits_0]. cbv beta iota.
  unfold mbind at 1, st_bind at 1, mret at 1, st_ret at 1. unfold mbind at 1, st_bind at 1.
  change (MAX_SIG + 1) with 64. replace 64 with (sig + (64 - sig)) at 1 by lia.
  rewrite seqZ_app by lia. rewrite (st_for_ret_app _ _ _ s s).
  2:{ apply check_all_idle. intros i Hi%elem_of_seqZ. split; [lia|]. apply Hlow. lia. }
  rewrite seqZ_cons by lia. cbn [st_for_ret]. rewrite Z.add_0_l. unfold mbind at 1, st_bind at 1.
  unfold check_one at 1. unfold mbind at 1, st_bind at 1, get_st. rewrite sig_bit by done.
  cbn [unwrap]. unfold mbind at 1, st_bind at 1, mret at 1, st_ret at 1.
  unfold mbind at 1, st_bind at 1. rewrite deliverable_now by (done || lia). cbv beta iota.
  rewrite user_signal_test by done. unfold mbind at 1, st_bind at 1.
  by destruct (call_user_signal_handler sig (2 ^ sig) false s) as [[[] ?]| |].
Qed.

(** The state in which the handler of [a] runs. *)
Definition in_handler (s : SigState) (sig signal : Z) (a : SignalAction) : SigState :=
  mkSigState (Z.lxor (signals_pending s) signal) (sa_mask a) (signal_actions s) (signal_pending s)
    sig (killed s) (frozen s)
    (set_x 1 (if flags_contains (sa_flags a) SA_RESTORER then sa_restorer a else SIGNAL_TRAMPOLINE)
       (set_x 10 sig (set_sepc (sa_handler a) (trap_cx s))))
    (Some (trap_cx s)).

Lemma action_at_run s i a : 0 ≤ i → signal_actions s !! Z.to_nat i = Some a → action_at i s = Ok (a, s).
Proof.
  intros Hi Ha. unfold action_at, mbind, st_bind, get_st.
  by rewrite (proj2 (Z.ltb_ge i 0)), Ha by done.
Qed.

Lemma call_user_run s sig signal a :
  0 ≤ sig < 64 → signal_actions s !! Z.to_nat sig = Some a →
  call_user_signal_handler sig signal false s =
    Ok (tt, if sa_handler a =? 0 then with_killed true s else in_handler s sig signal a).
Proof.
  intros Hs Ha. unfold call_user_signal_handler, mbind at 1, st_bind at 1.
  rewrite (action_at_run s sig a) by (done || lia).
  destruct (sa_handler a =? 0); [done|]. cbn. unfold in_handler, as_isize.
  by rewrite (proj2 (Z.ltb_lt sig _)) by lia.
Qed.

(** C37: outside of handlers, and without signals pending for the thread or for the
    kernel, of the signals that are pending for the process and not
    masked, [check_pending_signals] delivers the one with the lowest number:
    it enters the handler of that signal's table entry with the interrupted
    trap context saved, the number in [a0], the return address of the
    restorer, the action's mask installed and only that signal no longer
    pending; without a handler it marks the thread as killed.  When nothing
    can be delivered, nothing changes. *)
Theorem pending_signal_order s sig a :
  signal_pending s = 0 → handling_sig s = -1 → 0 ≤ sig < 64 → ¬ kernel_signal sig →
  signal_actions s !! Z.to_nat sig = Some a →
  (∀ j, 0 ≤ j < sig → idle_signal s j) →
  (Z.testbit (signals_pending s) sig = true → Z.testbit (signal_mask s) sig = false →
   check_pending_signals s =
     Ok (tt, if sa_handler a =? 0 then with_killed true s else in_handler s sig (2 ^ sig) a)) ∧
  ((∀ j, sig ≤ j < 64 → idle_signal s j) → check_pending_signals s = Ok (tt, s)).
Proof.
  intros Ht Hh Hs Hk Ha Hlow. split.
  - intros Hp Hm. rewrite (check_pending_first s sig) by done. by apply call_user_run.
  - intros Hhigh. unfold check_pending_signals, mbind, st_bind, get_st.
    change SIGCANCEL with (2 ^ 32). rewrite Ht, deliverable_idle; [|done|by rewrite Z.bits_0].
    unfold mret at 1, st_ret at 1. rewrite check_all_idle; [done|].
    change (MAX_SIG + 1) with 64.
    intros i Hi%elem_of_seqZ. split; [lia|]. destruct (decide (i < sig)); [apply Hlow|apply Hhigh]; lia.
Qed.

(** C40: [sigreturn] ends a handler during which no other signal was delivered.
    Whatever the handler did otherwise, the trap context is the interrupted one
    again and the thread handles no signal.  Two things are not put back: [a0] of
    the interrupted code is overwritten with the result of the call (0), and the
    signal mask, which was set to that of the action, stays what it is at the end of
    the handler.  That the saved context is still there is the condition: a signal
    delivered during the handler replaces it and the interrupted code is lost
    ([nested_signal_loses_context]). *)
Theorem signal_handler_roundtrip s sig signal a s2 :
  0 ≤ sig < 64 → signal_actions s !! Z.to_nat sig = Some a → sa_handler a ≠ 0 →
  trap_ctx_backup s2 = trap_ctx_backup (in_handler s sig signal a) →
  call_user_signal_handler sig signal false s = Ok (tt, in_handler s sig signal a) ∧
  ∃ s3, trap_syscall sys_sigreturn s2 = Ok (tt, s3) ∧
    trap_cx s3 = set_x 10 0 (trap_cx s) ∧ handling_sig s3 = -1 ∧ signal_mask s3 = signal_mask s2.
Proof.
  intros Hs Ha Hh Hb. split.
  - rewrite (call_user_run s sig signal a) by done. by rewrite (proj2 (Z.eqb_neq _ 0)).
  - cbn in Hb. unfold trap_syscall, sys_sigreturn, mbind, st_bind, modify, get_st. cbn.
    rewrite Hb. cbn. eexists. split; [reflexivity|]. done.
Qed.

(** A handler installed with [sigaction] is not called.
    [sys_sigaction] stores the action at index [signum], while a signal sent
    with [sys_kill] sets bit [signum] - 1 and delivery uses the bit number as
    index.  With the default action at index [signum] - 1, the thread is
    marked as killed instead. *)
Theorem sigaction_handler_not_called m tok s signum action pa a0 :
  1 ≤ signum ≤ 63 → ¬ kernel_signal (signum - 1) → action ≠ 0 →
  translated_ref m tok action = Ok pa →
  length (signal_actions s) = 64%nat →
  signal_actions s !! Z.to_nat (signum - 1) = Some a0 → sa_handler a0 = 0 →
  signals_pending s = 0 → signal_pending s = 0 → signal_mask s = 0 → handling_sig s = -1 →
  ∃ s1 s2 s3,
    sys_sigaction m tok signum action 0 s = Ok ((SUCCESS, m), s1) ∧
    signal_actions s1 !! Z.to_nat signum = Some (load_action m pa) ∧
    kill_process signum s1 = Ok (0, s2) ∧
    check_pending_signals s2 = Ok (tt, s3) ∧ killed s3 = true ∧ trap_cx s3 = trap_cx s.
Proof.
  intros Hn Hk Hact Hpa Hlen Ha0 Hd0 Hp Ht Hm Hh.
  assert (signum ⊟ 1 = signum - 1) as Hw by (apply wrap64_small; unfold is_usize; lia).
  destruct (lookup_lt_is_Some_2 (signal_actions s) (Z.to_nat signum)) as [old Hold]; [lia|].
  set (s1 := with_actions (<[Z.to_nat signum := load_action m pa]> (signal_actions s)) s).
  set (s2 := with_pending (Z.lor 0 (2 ^ (signum - 1))) s1).
  exists s1, s2, (with_killed true s2). split_and!; [| | | |done|done].
  - unfold sys_sigaction. rewrite (proj2 (Z.ltb_ge MAX_SIG signum)) by (unfold MAX_SIG; lia).
    unfold mbind at 1, st_bind at 1. cbn [Z.eqb negb]. unfold mret at 1, st_ret at 1.
    rewrite Hw, sig_bit by lia. pose proof (user_signal_test (signum - 1) ltac:(lia) Hk) as Hu.
    apply orb_false_iff in Hu as [Hu _]. unfold check_sigaction_error. rewrite Hu.
    unfold mbind, st_bind. rewrite (action_at_run s signum old) by (done || lia).
    unfold mret, st_ret. rewrite (proj2 (Z.eqb_neq action 0)) by done. cbn [negb].
    unfold lift. rewrite Hpa. done.
  - unfold s1. cbn. rewrite list_lookup_insert_eq by lia. done.
  - unfold kill_process. rewrite Hw, sig_bit by lia. unfold modify, mbind, st_bind.
    change (signals_pending s1) with (signals_pending s). by rewrite Hp.
  - rewrite (check_pending_first s2 (signum - 1)); [|done|done|lia|done| | |].
    + rewrite (call_user_run s2 (signum - 1) _ a0); [by rewrite Hd0|lia|].
      unfold s2, s1. cbn. by rewrite list_lookup_insert_ne by lia.
    + intros j Hj. unfold idle_signal.
      change (signals_pending s2) with (Z.lor 0 (2 ^ (signum - 1))).
      by rewrite Z.lor_0_l, Z.pow2_bits_false by lia.
    + change (signals_pending s2) with (Z.lor 0 (2 ^ (signum - 1))).
      by rewrite Z.lor_0_l, Z.pow2_bits_true by lia.
    + change (signal_mask s2) with (signal_mask s). rewrite Hm. apply Z.bits_0.
Qed.

(** Signals without a handler whose default action is to terminate, such as
    [SIGTERM], do not terminate the process: the thread is marked as killed,
    but the exit code is computed from six of the pending signals only. *)
Lemma sigterm_not_fatal : check_error (Z.shiftl 1 14) = None.
Proof. done. Qed.

(** [kill(pid, 0)], which should only test for the process, sends signal 64. *)
Lemma kill_zero_sends s :
  kill_process 0 s = Ok (0, with_pending (Z.lor (signals_pending s) (2 ^ 63)) s).
Proof. done. Qed.

(** The three ways of changing the mask. *)
Lemma sigprocmask_sets m tok how set pa s :
  set ≠ 0 → translated_ref m tok set = Ok pa → is_usize (load64 m pa) → 0 ≤ how ≤ 2 →
  sys_sigprocmask m tok how set 0 s =
    Ok ((SUCCESS, m), with_mask
      (if how =? SIG_BLOCK then Z.lor (signal_mask s) (load64 m pa)
       else if how =? SIG_UNBLOCK then Z.land (signal_mask s) (not64 (load64 m pa))
       else load64 m pa) s).
Proof.
  intros Hset Hpa Hv Hhow.
  assert (SignalFlags_from_bits (load64 m pa) = Some (load64 m pa)) as Hf.
  { unfold SignalFlags_from_bits, flags_from_bits. rewrite Z.ldiff_ones_r_low; [done|apply Hv|].
    destruct (decide (load64 m pa = 0)) as [->|]; [done|].
    apply Z.log2_lt_pow2; unfold is_usize in Hv; lia. }
  unfold sys_sigprocmask, mbind, st_bind, get_st. cbn [Z.eqb negb]. unfold mret, st_ret.
  rewrite (proj2 (Z.eqb_neq set 0)) by done. cbn [negb]. unfold lift. rewrite Hpa, Hf. cbn [unwrap].
  unfold mret, st_ret. assert (how = 0 ∨ how = 1 ∨ how = 2) as [->|[->| ->]] by lia; done.
Qed.

(** ** Witnesses *)

(** A page table at frame 1 that maps page 1 to frame 5. *)
Definition sig_mem : PMem :=
  store64 (store64 (store64 (fun _ => 0) 4096 (2 * 1024 + 1)) 8192 (3 * 1024 + 1))
    12296 (5 * 1024 + 31).

Definition sig_state (pending : Z) (table : list SignalAction) : SigState :=
  mkSigState pending 0 table 0 (-1) false false (mkTrapContext (replicate 32 7) 0 0x1000 0 0 0) None.

(** The handler of signal bit 9. *)
Definition sig_action9 : SignalAction := mkSignalAction 0x4000 0 0 40.
Definition sig_table : list SignalAction := <[9%nat := sig_action9]> SignalActions_default.

(** There is one saved context.  The signal of bit 20 arrives during the handler of
    bit 9, which does not mask it; both [sigreturn]s go back into the first handler
    and none to the interrupted code at 0x1000. *)
Lemma nested_signal_loses_context :
  let table := <[20%nat := mkSignalAction 0x5000 0 0 0]> sig_table in
  match (check_pending_signals;; check_pending_signals;; outer ← get_st; trap_syscall sys_sigreturn;; inner ← get_st; trap_syscall sys_sigreturn;; mret (outer, inner))
          (sig_state (2 ^ 9 + 2 ^ 20) table) with
  | Ok ((outer, inner), s) => (sepc (trap_cx outer), sepc (trap_cx inner), sepc (trap_cx s)) = (0x5000, 0x4000, 0x4000)
  | _ => False
  end.
Proof. vm_compute. reflexivity. Qed.

Lemma pending_signal_order_witness :
  check_pending_signals (sig_state (2 ^ 9 + 2 ^ 20) sig_table) =
    Ok (tt, in_handler (sig_state (2 ^ 9 + 2 ^ 20) sig_table) 9 (2 ^ 9) sig_action9).
Proof.
  refine (proj1 (pending_signal_order (sig_state (2 ^ 9 + 2 ^ 20) sig_table) 9 sig_action9
    _ _ _ _ _ _) _ _); [done|done|lia|unfold kernel_signal; lia|done| |done|done].
  intros j Hj. unfold idle_signal. cbn [signals_pending sig_state].
  assert (j = 0 ∨ j = 1 ∨ j = 2 ∨ j = 3 ∨ j = 4 ∨ j = 5 ∨ j = 6 ∨ j = 7 ∨ j = 8) as H by lia.
  destruct_or! H; subst j; done.
Defined.

Lemma signal_handler_roundtrip_witness :
  ∃ s3, trap_syscall sys_sigreturn
      (in_handler (sig_state (2 ^ 9) sig_table) 9 (2 ^ 9) sig_action9) = Ok (tt, s3) ∧
    trap_cx s3 = set_x 10 0 (trap_cx (sig_state (2 ^ 9) sig_table)) ∧
    handling_sig s3 = -1 ∧ signal_mask s3 = 40.
Proof.
  refine (proj2 (signal_handler_roundtrip (sig_state (2 ^ 9) sig_table) 9 (2 ^ 9) sig_action9
    (in_handler (sig_state (2 ^ 9) sig_table) 9 (2 ^ 9) sig_action9) _ _ _ _));
    [lia|done|done|done].
Defined.

Lemma sigaction_handler_not_called_witness :
  ∃ s1 s2 s3,
    sys_sigaction sig_mem 1 10 0x1000 0 (sig_state 0 SignalActions_default) =
      Ok ((SUCCESS, sig_mem), s1) ∧
    signal_actions s1 !! Z.to_nat 10 = Some (load_action sig_mem 0x5000) ∧
    kill_process 10 s1 = Ok (0, s2) ∧
    check_pending_signals s2 = Ok (tt, s3) ∧ killed s3 = true ∧
    trap_cx s3 = trap_cx (sig_state 0 SignalActions_default).
Proof.
  refine (sigaction_handler_not_called sig_mem 1 (sig_state 0 SignalActions_default) 10 0x1000
    0x5000 SignalAction_default _ _ _ _ _ _ _ _ _ _ _);
    [lia|unfold kernel_signal; lia|lia|vm_compute; reflexivity|done|done|done|done|done|done|done].
Defined.
