(* ===== verification/Utf.v ===== *)
(** * Strings of the Rust standard library

    A [String] is the list of its characters, and a [char] is a Unicode
    scalar value.  [str_len] and [as_bytes] are those of the UTF-8 encoding,
    as in Rust; [utf8_decode] is [core::str::from_utf8].  The on-disk names of
    FAT are UTF-16. *)

From S2P Require Import Prelude.

(** An ASCII string. *)
Definition chars (s : string) : list Z := (fun a => Z.of_nat (Ascii.nat_of_ascii a)) <$> String.list_ascii_of_string s.

Definition is_char (c : Z) : bool :=
  ((0 <=? c) && (c <? 0xD800)) || ((0xE000 <=? c) && (c <? 0x110000)).

Definition utf8_char (c : Z) : list Z :=
  if c <? 0x80 then [c]
  else if c <? 0x800 then [0xC0 + c / 64; 0x80 + c mod 64]
  else if c <? 0x10000 then [0xE0 + c / 4096; 0x80 + c / 64 mod 64; 0x80 + c mod 64]
  else [0xF0 + c / 262144; 0x80 + c / 4096 mod 64; 0x80 + c / 64 mod 64; 0x80 + c mod 64].

Definition as_bytes (s : list Z) : list Z := s ≫= utf8_char.

Definition str_len (s : list Z) : Z := Z.of_nat (length (as_bytes s)).

Definition is_cont (b : Z) : bool := (0x80 <=? b) && (b <? 0xC0).

(** Overlong forms, surrogates and numbers above [0x10FFFF] are refused. *)
Fixpoint utf8_decode (bs : list Z) : option (list Z) :=
  match bs with
  | [] => Some []
  | b0 :: bs =>
      if (0 <=? b0) && (b0 <? 0x80) then cons b0 <$> utf8_decode bs
      else if (0xC2 <=? b0) && (b0 <? 0xE0) then
        match bs with
        | b1 :: bs =>
            if is_cont b1 then cons ((b0 - 0xC0) * 64 + (b1 - 0x80)) <$> utf8_decode bs else None
        | _ => None
        end
      else if (0xE0 <=? b0) && (b0 <? 0xF0) then
        match bs with
        | b1 :: b2 :: bs =>
            let c := (b0 - 0xE0) * 4096 + (b1 - 0x80) * 64 + (b2 - 0x80) in
            if is_cont b1 && is_cont b2 && (0x800 <=? c) && is_char c
            then cons c <$> utf8_decode bs else None
        | _ => None
        end
      else if (0xF0 <=? b0) && (b0 <? 0xF5) then
        match bs with
        | b1 :: b2 :: b3 :: bs =>
            let c := (b0 - 0xF0) * 262144 + (b1 - 0x80) * 4096 + (b2 - 0x80) * 64 + (b3 - 0x80) in
            if is_cont b1 && is_cont b2 && is_cont b3 && (0x10000 <=? c) && is_char c
            then cons c <$> utf8_decode bs else None
        | _ => None
        end
      else None
  end.

(** [String::from_utf8_lossy]: a byte sequence that is not part of a character
    becomes one replacement character, up to the byte where it goes wrong. *)
Definition REPLACEMENT_CHARACTER : Z := 0xFFFD.

Definition second_ok (b0 b1 : Z) : bool :=
  if b0 =? 0xE0 then (0xA0 <=? b1) && (b1 <? 0xC0)
  else if b0 =? 0xED then (0x80 <=? b1) && (b1 <? 0xA0)
  else if b0 =? 0xF0 then (0x90 <=? b1) && (b1 <? 0xC0)
  else if b0 =? 0xF4 then (0x80 <=? b1) && (b1 <? 0x90)
  else is_cont b1.

Definition low6 (b : Z) : Z := Z.land b 0x3F.

Fixpoint from_utf8_lossy (bs : list Z) : list Z :=
  match bs with
  | [] => []
  | b0 :: r0 =>
      if b0 <? 0x80 then b0 :: from_utf8_lossy r0
      else if (b0 <? 0xC2) || (0xF4 <? b0) then REPLACEMENT_CHARACTER :: from_utf8_lossy r0
      else
        match r0 with
        | [] => [REPLACEMENT_CHARACTER]
        | b1 :: r1 =>
            if negb (second_ok b0 b1) then REPLACEMENT_CHARACTER :: from_utf8_lossy r0
            else if b0 <? 0xE0 then Z.shiftl (Z.land b0 0x1F) 6 + low6 b1 :: from_utf8_lossy r1
            else
              match r1 with
              | [] => [REPLACEMENT_CHARACTER]
              | b2 :: r2 =>
                  if negb (is_cont b2) then REPLACEMENT_CHARACTER :: from_utf8_lossy r1
                  else if b0 <? 0xF0 then Z.shiftl (Z.land b0 0x0F) 12 + Z.shiftl (low6 b1) 6 + low6 b2 :: from_utf8_lossy r2
                  else
                    match r2 with
                    | [] => [REPLACEMENT_CHARACTER]
                    | b3 :: r3 =>
                        if negb (is_cont b3) then REPLACEMENT_CHARACTER :: from_utf8_lossy r2
                        else Z.shiftl (Z.land b0 0x07) 18 + Z.shiftl (low6 b1) 12 + Z.shiftl (low6 b2) 6 + low6 b3 :: from_utf8_lossy r3
                    end
              end
        end
  end.

Definition utf16_char (c : Z) : list Z :=
  if c <? 0x10000 then [c]
  else [0xD800 + (c - 0x10000) / 1024; 0xDC00 + (c - 0x10000) mod 1024].

Definition encode_utf16 (s : list Z) : list Z := s ≫= utf16_char.

Definition is_high_surrogate (u : Z) : bool := (0xD800 <=? u) && (u <? 0xDC00).
Definition is_low_surrogate (u : Z) : bool := (0xDC00 <=? u) && (u <? 0xE000).

Fixpoint from_utf16_lossy (us : list Z) : list Z :=
  match us with
  | [] => []
  | u :: us =>
      if is_high_surrogate u then
        match us with
        | u2 :: us' =>
            if is_low_surrogate u2
            then (0x10000 + (u - 0xD800) * 1024 + (u2 - 0xDC00)) :: from_utf16_lossy us'
            else REPLACEMENT_CHARACTER :: from_utf16_lossy us
        | [] => [REPLACEMENT_CHARACTER]
        end
      else if is_low_surrogate u then REPLACEMENT_CHARACTER :: from_utf16_lossy us
      else u :: from_utf16_lossy us
  end.

(** [str::split_at]: the index counts bytes and has to be a character boundary. *)
Fixpoint split_at (s : list Z) (mid : Z) : outcome (list Z * list Z) :=
  if mid =? 0 then Ok ([], s)
  else
    match s with
    | [] => Panic
    | c :: s =>
        let n := Z.of_nat (length (utf8_char c)) in
        if mid <? n then Panic
        else '(a, b) ← split_at s (mid - n); Ok (c :: a, b)
    end.

(** [str::rsplit_once] *)
Fixpoint rsplit_once (s : list Z) (d : Z) : option (list Z * list Z) :=
  match s with
  | [] => None
  | c :: s =>
      match rsplit_once s d with
      | Some (a, b) => Some (c :: a, b)
      | None => if c =? d then Some ([], s) else None
      end
  end.

(** [str::trim_start_matches] *)
Fixpoint trim_start_matches (s : list Z) (d : Z) : list Z :=
  match s with
  | c :: s' => if c =? d then trim_start_matches s' d else s
  | [] => []
  end.

Definition to_ascii_uppercase (c : Z) : Z := if (97 <=? c) && (c <=? 122) then c - 32 else c.
Definition to_ascii_lowercase (c : Z) : Z := if (65 <=? c) && (c <=? 90) then c + 32 else c.

Definition eq_ignore_ascii_case (s t : list Z) : bool :=
  bool_decide (to_ascii_lowercase <$> s = to_ascii_lowercase <$> t).

(** [format!("{: <n}", s)]: spaces up to [n] characters. *)
Definition pad_right (n : nat) (s : list Z) : list Z := s ++ replicate (n - length s) 32.

(** [find] of a byte in a slice. *)
Definition position (b : Z) (l : list Z) : option nat := fst <$> list_find (fun x => x = b) l.

(** ** Lemmas *)

Lemma is_char_spec c : is_char c = true ↔ (0 ≤ c < 0xD800 ∨ 0xE000 ≤ c < 0x110000).
Proof. unfold is_char. rewrite orb_true_iff, !andb_true_iff, !Z.leb_le, !Z.ltb_lt. lia. Qed.

Ltac zbool :=
  repeat match goal with
  | |- context [?a <? ?b] =>
      first [ rewrite (proj2 (Z.ltb_lt a b)) by lia | rewrite (proj2 (Z.ltb_ge a b)) by lia ]
  | |- context [?a <=? ?b] =>
      first [ rewrite (proj2 (Z.leb_le a b)) by lia | rewrite (proj2 (Z.leb_gt a b)) by lia ]
  end; cbn [andb orb].

(** A character survives its UTF-16 encoding, whatever follows. *)
Lemma utf16_char_lossy c us :
  is_char c = true → from_utf16_lossy (utf16_char c ++ us) = c :: from_utf16_lossy us.
Proof.
  intros Hc%is_char_spec. unfold utf16_char. destruct (Z.ltb_spec c 0x10000) as [Hb|Hb].
  - cbn [app from_utf16_lossy]. unfold is_high_surrogate, is_low_surrogate.
    destruct Hc as [Hc|Hc]; zbool; done.
  - pose proof (Z.div_mod (c - 0x10000) 1024 ltac:(lia)).
    pose proof (Z.mod_pos_bound (c - 0x10000) 1024 ltac:(lia)).
    cbn [app from_utf16_lossy]. unfold is_high_surrogate, is_low_surrogate. zbool. f_equal. lia.
Qed.

Lemma encode_utf16_app s t : encode_utf16 (s ++ t) = encode_utf16 s ++ encode_utf16 t.
Proof. apply bind_app. Qed.

(** Decoding what was encoded gives the string back. *)
Lemma utf16_roundtrip s us :
  Forall (fun c => is_char c = true) s → from_utf16_lossy (encode_utf16 s ++ us) = s ++ from_utf16_lossy us.
Proof.
  induction 1 as [|c s Hc Hs IH]; [done|]. unfold encode_utf16 in *.
  rewrite bind_cons, <-app_assoc, utf16_char_lossy, IH by done. done.
Qed.

Lemma utf8_char_length c : (1 ≤ length (utf8_char c) ≤ 4)%nat.
Proof. unfold utf8_char. repeat case_match; cbn; lia. Qed.

(** UTF-16 needs at most as many units as UTF-8 needs bytes. *)
Lemma utf16_le_utf8 c : (1 ≤ length (utf16_char c) ≤ length (utf8_char c))%nat.
Proof.
  unfold utf16_char, utf8_char. destruct (Z.ltb_spec c 0x10000); [pose proof (utf8_char_length c)|].
  - cbn. repeat case_match; cbn; lia.
  - zbool. cbn. lia.
Qed.

Lemma encode_utf16_length s : (length s ≤ length (encode_utf16 s) ≤ length (as_bytes s))%nat.
Proof.
  induction s as [|c s IH]; [done|]. unfold encode_utf16, as_bytes in *. rewrite !bind_cons, !length_app.
  pose proof (utf16_le_utf8 c). cbn [length]. lia.
Qed.

Lemma utf16_char_nonzero c : c ≠ 0 → 0 ≤ c → 0 ∉ utf16_char c.
Proof.
  intros Hc Hp. unfold utf16_char. destruct (Z.ltb_spec c 0x10000).
  - rewrite list_elem_of_singleton. lia.
  - pose proof (Z.div_pos (c - 0x10000) 1024). pose proof (Z.mod_pos_bound (c - 0x10000) 1024).
    rewrite !elem_of_cons, elem_of_nil. lia.
Qed.

Definition is_ascii (c : Z) : bool := (0 <=? c) && (c <? 0x80).

Lemma as_bytes_ascii s : Forall (fun c => is_ascii c = true) s → as_bytes s = s.
Proof.
  induction 1 as [|c s Hc Hs IH]; [done|]. unfold as_bytes in *. rewrite bind_cons, IH.
  unfold is_ascii in Hc. apply andb_true_iff in Hc as [H1%Z.leb_le H2%Z.ltb_lt]. unfold utf8_char. by zbool.
Qed.

Lemma utf8_decode_ascii s : Forall (fun c => is_ascii c = true) s → utf8_decode s = Some s.
Proof.
  induction 1 as [|c s Hc Hs IH]; [done|]. cbn [utf8_decode]. unfold is_ascii in Hc. rewrite Hc. by rewrite IH.
Qed.

(** A valid string survives its UTF-8 encoding. *)
Lemma utf8_roundtrip s :
  Forall (fun c => is_char c = true) s → utf8_decode (as_bytes s) = Some s.
Proof.
  induction 1 as [|c s Hc%is_char_spec Hs IH]; [done|]. unfold as_bytes in *. rewrite bind_cons.
  unfold utf8_char at 1. pose proof (Z.div_mod c 64 ltac:(lia)). pose proof (Z.mod_pos_bound c 64 ltac:(lia)).
  assert (c / 64 / 64 = c / 4096) as H64 by (by rewrite Z.div_div).
  assert (c / 4096 / 64 = c / 262144) as H128 by (by rewrite Z.div_div).
  pose proof (Z.div_mod (c / 64) 64 ltac:(lia)) as Hd2. pose proof (Z.mod_pos_bound (c / 64) 64 ltac:(lia)).
  pose proof (Z.div_mod (c / 4096) 64 ltac:(lia)) as Hd3. pose proof (Z.mod_pos_bound (c / 4096) 64 ltac:(lia)).
  rewrite H64 in Hd2. rewrite H128 in Hd3. clear H64 H128.
  destruct (Z.ltb_spec c 0x80); [|destruct (Z.ltb_spec c 0x800); [|destruct (Z.ltb_spec c 0x10000)]];
    cbn [app utf8_decode]; unfold is_cont.
  - zbool. by rewrite IH.
  - zbool. rewrite IH. cbn. do 2 f_equal. lia.
  - zbool.
    replace ((224 + c / 4096 - 224) * 4096 + (128 + (c / 64) mod 64 - 128) * 64 + (128 + c mod 64 - 128)) with c by lia.
    rewrite (proj2 (is_char_spec c)) by done. zbool. by rewrite IH.
  - zbool.
    replace ((240 + c / 262144 - 240) * 262144 + (128 + (c / 4096) mod 64 - 128) * 4096 +
      (128 + (c / 64) mod 64 - 128) * 64 + (128 + c mod 64 - 128)) with c by lia.
    rewrite (proj2 (is_char_spec c)) by done. zbool. by rewrite IH.
Qed.
