(* ===== verification/Process.v ===== *)
(** * Processes and threads

    [kernel/src/task/process.rs], [task/task.rs], [exit_current_and_run_next] of
    [task/mod.rs] and the system calls on processes and threads of
    [syscall/process.rs] and [syscall/thread.rs].

    Control blocks live at addresses ([Arc::ptr_eq]).  A strong reference to a
    process is an element of a list of children, an entry of [PID2PCB] or
    [INITPROC]: the calls of this file give up their own before they let another
    task run.  [sys_readv] and [sys_writev] ([syscall/fs.rs]), which keep theirs
    while a pipe makes them wait, are not modelled.
    A task is referred to by its process, the queues, the processor, the timers,
    and by the kernel stack on which [block_current_and_run_next] waits.  What
    loses its last reference is dropped, field by field.

    The fields [mutex_list], [semaphore_list], [condvar_list] and [rusage] of
    a process never change and are left out, and so is the saved context of
    a task, which only the switch uses. *)

From stdpp Require Import functions.
From S2P Require Import Prelude Config Address PhysMem FrameAllocator PageTable UserMem MemorySet.
From S2P Require Import FdTable Sched Futex Timer Ids Signals.

(** What processes use of the file system: the root directory opened once more,
    the console files, and the counting of references to open files. *)
Class ProcFiles (S File : Type) : Type := {
  open_root : ST S (option (@FileDescriptor File));
  Stdin : File;
  Stdout : File;
  file_clone : File → ST S unit;
  file_drop : File → ST S unit;
}.

Definition IDLE_PID : Z := 0.
Definition SIGCHLD : Z := Z.shiftl 1 16.
Definition CSIGNAL : Z := 0xff.
Definition CLONE_THREAD : Z := 0x00010000.
Definition CLONE_PARENT_SETTID : Z := 0x00100000.
Definition CLONE_CHILD_CLEARTID : Z := 0x00200000.
Definition CLONE_CHILD_SETTID : Z := 0x01000000.
Definition CloneFlags_all : Z := 0xffffff00.

(** [CloneFlags::from_bits]: every bit but those of the signal has a name. *)
Definition CloneFlags_from_bits (bits : Z) : option Z := flags_from_bits CloneFlags_all bits.

Definition WNOHANG : Z := 1.
Definition WaitOption_all : Z := Z.lor 1 (Z.lor 2 (Z.lor 4 (Z.lor 8 0x1000000))).
Definition WaitOption_from_bits (bits : Z) : option Z := flags_from_bits WaitOption_all bits.

Definition ECHILD : Z := -10.

(** Where the fields of a [TrapContext] are in its page. *)
Definition CX_X (i : Z) : Z := 8 * i.
Definition CX_SSTATUS : Z := 256.
Definition CX_SEPC : Z := 264.
Definition CX_KERNEL_SATP : Z := 272.
Definition CX_KERNEL_SP : Z := 280.
Definition CX_TRAP_HANDLER : Z := 288.
Definition CX_SIZE : Z := 296.

Section Blocks.
Context {File : Type}.

Record ProcessControlBlock : Type := mkPCB {
  pid : Z;
  is_zombie : bool;
  memory_set : MemorySet;
  parent : option Z;
  children : list Z;
  exit_code : Z;
  fd_table : @FdTable File;
  working_inode : @FileDescriptor File;
  p_signals_pending : Z;
  p_signal_mask : Z;
  tasks : list (option Z);
  task_res_allocator : RecycleAllocator;
  heap_base : Z;
  heap_end : Z;
  p_signal_actions : list SignalAction;
  tms : Times;
  exit_signal : Z;
  futex : gmap Z (list Z);
  self_exe : list Z;
}.

Definition set_memory (v : MemorySet) (al : RecycleAllocator) (x : ProcessControlBlock) : ProcessControlBlock :=
  mkPCB (pid x) (is_zombie x) v (parent x) (children x) (exit_code x) (fd_table x) (working_inode x) (p_signals_pending x) (p_signal_mask x)
    (tasks x) al (heap_base x) (heap_end x) (p_signal_actions x) (tms x) (exit_signal x) (futex x) (self_exe x).

Definition set_family (par : option Z) (ch : list Z) (x : ProcessControlBlock) : ProcessControlBlock :=
  mkPCB (pid x) (is_zombie x) (memory_set x) par ch (exit_code x) (fd_table x) (working_inode x) (p_signals_pending x) (p_signal_mask x)
    (tasks x) (task_res_allocator x) (heap_base x) (heap_end x) (p_signal_actions x) (tms x) (exit_signal x) (futex x) (self_exe x).

Definition set_zombie (code : Z) (x : ProcessControlBlock) : ProcessControlBlock :=
  mkPCB (pid x) true (memory_set x) (parent x) (children x) code (fd_table x) (working_inode x) (p_signals_pending x) (p_signal_mask x)
    (tasks x) (task_res_allocator x) (heap_base x) (heap_end x) (p_signal_actions x) (tms x) (exit_signal x) (futex x) (self_exe x).

Definition set_files (v : @FdTable File) (x : ProcessControlBlock) : ProcessControlBlock :=
  mkPCB (pid x) (is_zombie x) (memory_set x) (parent x) (children x) (exit_code x) v (working_inode x) (p_signals_pending x) (p_signal_mask x)
    (tasks x) (task_res_allocator x) (heap_base x) (heap_end x) (p_signal_actions x) (tms x) (exit_signal x) (futex x) (self_exe x).

Definition set_pending (v : Z) (x : ProcessControlBlock) : ProcessControlBlock :=
  mkPCB (pid x) (is_zombie x) (memory_set x) (parent x) (children x) (exit_code x) (fd_table x) (working_inode x) v (p_signal_mask x)
    (tasks x) (task_res_allocator x) (heap_base x) (heap_end x) (p_signal_actions x) (tms x) (exit_signal x) (futex x) (self_exe x).

Definition set_tasks (v : list (option Z)) (x : ProcessControlBlock) : ProcessControlBlock :=
  mkPCB (pid x) (is_zombie x) (memory_set x) (parent x) (children x) (exit_code x) (fd_table x) (working_inode x) (p_signals_pending x) (p_signal_mask x)
    v (task_res_allocator x) (heap_base x) (heap_end x) (p_signal_actions x) (tms x) (exit_signal x) (futex x) (self_exe x).

Definition set_heap_end (v : Z) (x : ProcessControlBlock) : ProcessControlBlock :=
  mkPCB (pid x) (is_zombie x) (memory_set x) (parent x) (children x) (exit_code x) (fd_table x) (working_inode x) (p_signals_pending x) (p_signal_mask x)
    (tasks x) (task_res_allocator x) (heap_base x) v (p_signal_actions x) (tms x) (exit_signal x) (futex x) (self_exe x).

(** [thread_count]; an entry may be empty. *)
Definition thread_count (x : ProcessControlBlock) : Z := Z.of_nat (length (tasks x)).
End Blocks.

Record TaskControlBlock : Type := mkTCB {
  process : Z;
  kstack : Z;
  res : option TaskUserRes;
  t_trap_cx_ppn : PhysPageNum;
  t_exit_code : option Z;
  t_signal_pending : Z;
  t_handling_sig : Z;
  t_killed : bool;
  t_frozen : bool;
  t_trap_ctx_backup : option TrapContext;
  clear_child_tid : Z;
  itimer : ITimerVal;
}.

Definition set_exited (code : option Z) (r : option TaskUserRes) (t : TaskControlBlock) : TaskControlBlock :=
  mkTCB (process t) (kstack t) r (t_trap_cx_ppn t) code (t_signal_pending t) (t_handling_sig t) (t_killed t) (t_frozen t)
    (t_trap_ctx_backup t) (clear_child_tid t) (itimer t).

Definition set_clear_child_tid (v : Z) (t : TaskControlBlock) : TaskControlBlock :=
  mkTCB (process t) (kstack t) (res t) (t_trap_cx_ppn t) (t_exit_code t) (t_signal_pending t) (t_handling_sig t) (t_killed t) (t_frozen t)
    (t_trap_ctx_backup t) v (itimer t).

Section Processes.
Context {A : Type} {FA : FrameAllocator A}.
Context {S File : Type} {PF : ProcFiles S File}.
Context (sym : LinkerSymbols) (trap_handler_addr : Z).

(** ** The state of the kernel *)

Record Kernel : Type := mkKernel {
  machine : Machine A;
  files : S;
  kernel_space : MemorySet;
  pid_allocator : RecycleAllocator;
  kstack_allocator : RecycleAllocator;
  times : TimerSys;
  pid2pcb : gmap Z Z;
  pcbs : gmap Z (@ProcessControlBlock File);
  tcbs : gmap Z TaskControlBlock;
  waiting : list Z;
  initproc : Z;
}.

Definition on_machine {B} (m : ST (Machine A) B) : ST Kernel B := fun k =>
  '(b, s) ← m (machine k);
  Ok (b, mkKernel s (files k) (kernel_space k) (pid_allocator k) (kstack_allocator k) (times k) (pid2pcb k) (pcbs k) (tcbs k) (waiting k) (initproc k)).

Definition on_files {B} (m : ST S B) : ST Kernel B := fun k =>
  '(b, s) ← m (files k);
  Ok (b, mkKernel (machine k) s (kernel_space k) (pid_allocator k) (kstack_allocator k) (times k) (pid2pcb k) (pcbs k) (tcbs k) (waiting k) (initproc k)).

Definition on_times {B} (m : ST TimerSys B) : ST Kernel B := fun k =>
  '(b, s) ← m (times k);
  Ok (b, mkKernel (machine k) (files k) (kernel_space k) (pid_allocator k) (kstack_allocator k) s (pid2pcb k) (pcbs k) (tcbs k) (waiting k) (initproc k)).

Definition on_sched {B} (m : ST Sched B) : ST Kernel B := on_times (tm_lift m).

Definition on_pid2pcb {B} (m : ST (gmap Z Z) B) : ST Kernel B := fun k =>
  '(b, s) ← m (pid2pcb k);
  Ok (b, mkKernel (machine k) (files k) (kernel_space k) (pid_allocator k) (kstack_allocator k) (times k) s (pcbs k) (tcbs k) (waiting k) (initproc k)).

Definition put_pcbs (v : gmap Z ProcessControlBlock) : ST Kernel unit :=
  modify (fun k => mkKernel (machine k) (files k) (kernel_space k) (pid_allocator k) (kstack_allocator k) (times k) (pid2pcb k) v (tcbs k) (waiting k) (initproc k)).

Definition put_tcbs (v : gmap Z TaskControlBlock) : ST Kernel unit :=
  modify (fun k => mkKernel (machine k) (files k) (kernel_space k) (pid_allocator k) (kstack_allocator k) (times k) (pid2pcb k) (pcbs k) v (waiting k) (initproc k)).

Definition put_kstacks (ks : MemorySet) (al : RecycleAllocator) : ST Kernel unit :=
  modify (fun k => mkKernel (machine k) (files k) ks (pid_allocator k) al (times k) (pid2pcb k) (pcbs k) (tcbs k) (waiting k) (initproc k)).

Definition put_pids (al : RecycleAllocator) : ST Kernel unit :=
  modify (fun k => mkKernel (machine k) (files k) (kernel_space k) al (kstack_allocator k) (times k) (pid2pcb k) (pcbs k) (tcbs k) (waiting k) (initproc k)).

Definition put_waiting (v : list Z) : ST Kernel unit :=
  modify (fun k => mkKernel (machine k) (files k) (kernel_space k) (pid_allocator k) (kstack_allocator k) (times k) (pid2pcb k) (pcbs k) (tcbs k) v (initproc k)).

Definition put_initproc (v : Z) : ST Kernel unit :=
  modify (fun k => mkKernel (machine k) (files k) (kernel_space k) (pid_allocator k) (kstack_allocator k) (times k) (pid2pcb k) (pcbs k) (tcbs k) (waiting k) v).

(** A control block behind a reference; [upgrade().unwrap()] of a weak one panics
    when the block is gone. *)
Definition get_pcb (p : Z) : ST Kernel ProcessControlBlock :=
  k ← get_st;
  unwrap (pcbs k !! p).

Definition update_pcb (p : Z) (f : ProcessControlBlock → ProcessControlBlock) : ST Kernel unit :=
  x ← get_pcb p;
  k ← get_st;
  put_pcbs (<[p := f x]> (pcbs k)).

Definition get_tcb (t : Z) : ST Kernel TaskControlBlock :=
  k ← get_st;
  unwrap (tcbs k !! t).

Definition update_tcb (t : Z) (f : TaskControlBlock → TaskControlBlock) : ST Kernel unit :=
  x ← get_tcb t;
  k ← get_st;
  put_tcbs (<[t := f x]> (tcbs k)).

(** [Arc::new] at an address that is not in use. *)
Definition next_addr {V} (m : gmap Z V) : Z := map_fold (fun a _ n => Z.max (a + 1) n) 1 m.

Definition current_thread : ST Kernel Z :=
  c ← on_sched current_task;
  unwrap c.

Definition current_process : ST Kernel Z :=
  t ← current_thread;
  tcb ← get_tcb t;
  _ ← get_pcb (process tcb);
  mret (process tcb).

(** [get_task]: [tasks[tid]] must be there. *)
Definition get_task (x : @ProcessControlBlock File) (tid : Z) : ST Kernel Z :=
  o ← unwrap (tasks x !! Z.to_nat tid);
  unwrap o.

(** ** References and drops *)

Definition count (p : Z) (l : list Z) : Z := Z.of_nat (length (filter (fun c => c = p) l)).

(** [Arc::strong_count], without the references of the running call and of calls
    that wait (see above). *)
Definition strong_count (k : Kernel) (p : Z) : Z :=
  count p (concat (children <$> (map_to_list (pcbs k)).*2)) + count p (map_to_list (pid2pcb k)).*2 + (if initproc k =? p then 1 else 0).

Definition waiting_in (x : @ProcessControlBlock File) : list Z := concat (map_to_list (futex x)).*2.

(** Whether there is a reference to the task. *)
Definition task_held (k : Kernel) (t : Z) : bool :=
  bool_decide (t ∈ known (tm_sched (times k)) ++ (timer_task <$> timers (times k)) ++ waiting k ++
    concat ((fun x => omap id (tasks x) ++ waiting_in x) <$> (map_to_list (pcbs k)).*2)).

(** [Drop for TaskUserRes], on its process. *)
Definition user_res_drop (p : Z) (r : TaskUserRes) : ST Kernel unit :=
  x ← get_pcb p;
  '(ms, al) ← on_machine (TaskUserRes_drop r (memory_set x) (task_res_allocator x));
  update_pcb p (set_memory ms al).

(** A reference to a task goes away. *)
Definition release_task (t : Z) : ST Kernel unit :=
  k ← get_st;
  if task_held k t then mret tt
  else
    x ← get_tcb t;
    put_tcbs (delete t (tcbs k));;
    '(ks, al) ← on_machine (KernelStack_drop (kstack x) (kernel_space k) (kstack_allocator k));
    put_kstacks ks al;;
    match res x with Some r => user_res_drop (process x) r | None => mret tt end.

Definition release_tasks (l : list Z) : ST Kernel unit := st_fold (fun _ t => release_task t) tt l.

Definition drop_descriptors (l : list (option (@FileDescriptor File))) : ST Kernel unit :=
  st_fold (fun _ d => on_files (file_drop (file d))) tt (omap id l).

(** A reference to a process goes away.  The fuel bounds the processes dropped. *)
Fixpoint release_process_loop (fuel : nat) (p : Z) : ST Kernel unit :=
  match fuel with
  | O => out_of_fuel
  | Datatypes.S fuel =>
      k ← get_st;
      if 0 <? strong_count k p then mret tt
      else
        x ← get_pcb p;
        put_pcbs (delete p (pcbs k));;
        al ← lift (PidHandle_drop (pid_allocator k) (pid x));
        put_pids al;;
        on_machine (MemorySet_drop (memory_set x));;
        st_fold (fun _ c => release_process_loop fuel c) tt (children x);;
        drop_descriptors (inner (fd_table x));;
        on_files (file_drop (file (working_inode x)));;
        release_tasks (omap id (tasks x));;
        release_tasks (waiting_in x)
  end.

Definition release_process (p : Z) : ST Kernel unit :=
  k ← get_st;
  release_process_loop (Datatypes.S (size (pcbs k))) p.

(** ** Threads *)

Definition k_pid_alloc : ST Kernel Z :=
  k ← get_st;
  let '(id, al) := pid_alloc (pid_allocator k) in
  put_pids al;;
  mret id.

Definition k_kstack_alloc : ST Kernel Z :=
  k ← get_st;
  '(id, ks, al) ← on_machine (kstack_alloc (kernel_space k) (kstack_allocator k));
  put_kstacks ks al;;
  mret id.

Definition TaskControlBlock_new (p : Z) (ustack_top : Z) (alloc_user_res alloc_user_stack : bool) : ST Kernel Z :=
  x ← get_pcb p;
  '(r, ms, al) ← on_machine (TaskUserRes_new (memory_set x) (task_res_allocator x) ustack_top alloc_user_res alloc_user_stack);
  update_pcb p (set_memory ms al);;
  ppn ← on_machine (trap_cx_ppn r ms);
  kstack ← k_kstack_alloc;
  k ← get_st;
  let t := next_addr (tcbs k) in
  put_tcbs (<[t := mkTCB p kstack (Some r) ppn None 0 (-1) false false None 0 ITimerVal_new]> (tcbs k));;
  on_sched (modify (with_status t Ready));;
  mret t.

(** The word at an offset of a trap context. *)
Definition put_cx (ppn : PhysPageNum) (off v : Z) : ST Kernel unit :=
  on_machine (update_pmem (fun m => store64 m (get_bytes_array ppn + off) v)).

(** [app_init_context] written to the page of a thread; [sstatus] is the control
    register, whose bit 8 is the privilege to return to. *)
Definition put_init_context (sstatus : Z) (ppn : PhysPageNum) (entry sp kernel_sp : Z) : ST Kernel unit :=
  k ← get_st;
  st_fold (fun _ i => put_cx ppn (CX_X i) (if i =? 2 then sp else 0)) tt (seqZ 0 32);;
  put_cx ppn CX_SSTATUS (Z.ldiff sstatus (Z.shiftl 1 8));;
  put_cx ppn CX_SEPC entry;;
  put_cx ppn CX_KERNEL_SATP (MemorySet_token (kernel_space k));;
  put_cx ppn CX_KERNEL_SP kernel_sp;;
  put_cx ppn CX_TRAP_HANDLER trap_handler_addr.

(** [tasks[tid] = Some(task)], after empty entries up to [tid]. *)
Definition put_task (p : Z) (tid : Z) (o : option Z) : ST Kernel unit :=
  x ← get_pcb p;
  let l := tasks x ++ replicate (Z.to_nat (tid + 1) - length (tasks x)) None in
  update_pcb p (set_tasks (<[Z.to_nat tid := o]> l));;
  match l !! Z.to_nat tid with Some (Some old) => release_task old | _ => mret tt end.

Definition task_tid (t : Z) : ST Kernel Z :=
  x ← get_tcb t;
  r ← unwrap (res x);
  mret (tid r).

(** ** Processes *)

(** [new], for [INITPROC]: [from_elf] gave the address space, the end of the
    program, the top of the stack and the entry point. *)
Definition ProcessControlBlock_new (sstatus : Z) (ms : MemorySet) (uheap_base ustack_top entry_point : Z) : ST Kernel Z :=
  id ← k_pid_alloc;
  o ← on_files open_root;
  d ← unwrap o;
  k ← get_st;
  let p := next_addr (pcbs k) in
  let console f := Some (mkFileDescriptor false false f) in
  put_pcbs (<[p := mkPCB id false ms None [] 0 (FdTable_new [console Stdin; console Stdout; console Stdout]) d 0 0 [] RecycleAllocator_new
    (VirtAddr_from_usize uheap_base) (VirtAddr_from_usize uheap_base) SignalActions_default Times_new 0 Futex_new []]> (pcbs k));;
  t ← TaskControlBlock_new p ustack_top true true;
  tcb ← get_tcb t;
  put_init_context sstatus (t_trap_cx_ppn tcb) entry_point ustack_top (KernelStack_get_top (kstack tcb));;
  update_pcb p (fun x => set_tasks (vec_push (tasks x) (Some t)) x);;
  on_pid2pcb (insert_into_pid2process id p);;
  on_sched (add_task t);;
  mret p.

Definition fork (self : Z) : ST Kernel Z :=
  par ← get_pcb self;
  rust_assert (thread_count par =? 1);;
  ms ← on_machine (from_existed_user sym (memory_set par));
  id ← k_pid_alloc;
  st_fold (fun _ d => on_files (file_clone (file d))) tt (omap Datatypes.id (inner (fd_table par)));;
  o ← on_files open_root;
  d ← unwrap o;
  k ← get_st;
  let child := next_addr (pcbs k) in
  put_pcbs (<[child := mkPCB id false ms (Some self) [] 0 (fork_fd_table (fd_table par)) d (p_signals_pending par) 0 [] RecycleAllocator_new
    (heap_base par) (heap_base par) SignalActions_default Times_new SIGCHLD Futex_new (self_exe par)]> (pcbs k));;
  update_pcb self (fun x => set_family (parent x) (vec_push (children x) child) x);;
  main ← get_task par 0;
  m ← get_tcb main;
  r ← unwrap (res m);
  t ← TaskControlBlock_new child (ustack_top r) false false;
  update_pcb child (fun x => set_tasks (vec_push (tasks x) (Some t)) x);;
  tcb ← get_tcb t;
  put_cx (t_trap_cx_ppn tcb) CX_KERNEL_SP (KernelStack_get_top (kstack tcb));;
  put_cx (t_trap_cx_ppn tcb) (CX_X 10) 0;;
  on_pid2pcb (insert_into_pid2process id child);;
  on_sched (add_task t);;
  mret id.

(** [clone2]: a thread of the current process. *)
Definition clone2 (stack_ptr tls : Z) : ST Kernel Z :=
  task ← current_thread;
  p ← current_process;
  tcb ← get_tcb task;
  thread_stack ← (if negb (stack_ptr =? 0) then mret stack_ptr else r ← unwrap (res tcb); mret (ustack_top r));
  new_task ← TaskControlBlock_new p thread_stack true false;
  new ← get_tcb new_task;
  r ← unwrap (res new);
  put_task p (tid r) (Some new_task);;
  let cx := t_trap_cx_ppn new in
  on_machine (update_pmem (fun m => write_bytes m (get_bytes_array cx) (read_bytes m (get_bytes_array (t_trap_cx_ppn tcb)) CX_SIZE)));;
  put_cx cx (CX_X 10) 0;;
  put_cx cx (CX_X 4) tls;;
  put_cx cx (CX_X 2) (ustack_top r);;
  put_cx cx CX_KERNEL_SP (KernelStack_get_top (kstack new));;
  on_sched (add_task new_task);;
  mret new_task.

(** [*translated_refmut(token, ptr) = v], unless the pointer is null. *)
Definition put_user (width : nat) (p ptr v : Z) : ST Kernel unit :=
  if ptr =? 0 then mret tt
  else
    x ← get_pcb p;
    k ← get_st;
    pa ← lift (translated_refmut (pmem (machine k)) (MemorySet_token (memory_set x)) ptr);
    on_machine (update_pmem (fun m => store_le width m pa v)).

Definition sys_clone (flags stack_ptr ptid tls ctid : Z) : ST Kernel Z :=
  p ← current_process;
  exit_signal ← unwrap (SignalFlags_from_bits (shl_one (Z.land flags CSIGNAL ⊟ 1)));
  clone_signals ← unwrap (CloneFlags_from_bits (wrap32 (Z.ldiff flags CSIGNAL)));
  if negb (flags_contains clone_signals CLONE_THREAD) then
    rust_assert (stack_ptr =? 0);;
    fork p
  else
    new_thread ← clone2 stack_ptr tls;
    x ← get_pcb p;
    tid ← task_tid new_thread;
    let ttid := if tid =? pid x then 0 else tid in
    (if flags_contains clone_signals CLONE_PARENT_SETTID then put_user 8 p ptid ttid else mret tt);;
    (if flags_contains clone_signals CLONE_CHILD_SETTID then put_user 8 p ctid ttid else mret tt);;
    (if flags_contains clone_signals CLONE_CHILD_CLEARTID then update_tcb new_thread (set_clear_child_tid ctid) else mret tt);;
    mret ttid.

(** ** The end of a thread or of a process *)

(** The parent gets the signal, and its main thread runs if it is blocked. *)
Definition send_exit_signal (x : @ProcessControlBlock File) : ST Kernel unit :=
  if exit_signal x =? 0 then mret tt
  else
    q ← unwrap (parent x);
    update_pcb q (fun y => set_pending (Z.lor (p_signals_pending y) (exit_signal x)) y);;
    y ← get_pcb q;
    parent_task ← get_task y 0;
    on_sched (exit_wake_parent parent_task).

(** The children move under [INITPROC]. *)
Definition adopt (c : Z) : ST Kernel unit :=
  k ← get_st;
  update_pcb c (fun x => set_family (Some (initproc k)) (children x) x);;
  update_pcb (initproc k) (fun x => set_family (parent x) (vec_push (children x) c) x).

(** A thread of the process that ends: it leaves the ready queue and the timers,
    and its user resources are collected. *)
Definition retire (recycle_res : list TaskUserRes) (t : Z) : ST Kernel (list TaskUserRes) :=
  on_times (remove_inactive_task t);;
  x ← get_tcb t;
  update_tcb t (fun x => set_exited (t_exit_code x) None x);;
  mret (match res x with Some r => vec_push recycle_res r | None => recycle_res end).

(** What the end of the main thread does to the process. *)
Definition end_process (p : Z) (code : Z) : ST Kernel unit :=
  x ← get_pcb p;
  on_pid2pcb (remove_from_pid2process (pid x));;
  update_pcb p (set_zombie code);;
  st_fold (fun _ c => adopt c) tt (children x);;
  recycle_res ← st_fold retire [] (omap id (tasks x));
  st_fold (fun _ r => user_res_drop p r) tt recycle_res;;
  update_pcb p (fun x => set_family (parent x) [] x);;
  st_fold (fun _ c => release_process c) tt (children x);;
  y ← get_pcb p;
  ms ← on_machine (recycle_data_pages (memory_set y));
  update_pcb p (set_memory ms (task_res_allocator y));;
  drop_descriptors (inner (fd_table y));;
  '(_, fds) ← lift (clear_inner (fd_table y));
  update_pcb p (set_files fds);;
  update_pcb p (set_tasks []);;
  release_tasks (omap id (tasks x)).

(** [exit_current_and_run_next], up to the switch.  [Some failure]: the end of
    [INITPROC] shuts the machine down. *)
Definition exit_current_and_run_next (code : Z) : ST Kernel (option bool) :=
  c ← on_sched take_current_task;
  task ← unwrap c;
  tcb ← get_tcb task;
  let p := process tcb in
  x ← get_pcb p;
  send_exit_signal x;;
  r ← unwrap (res tcb);
  update_tcb task (set_exited (Some code) None);;
  user_res_drop p r;;
  release_task task;;
  if (tid r =? 0) && (pid x =? IDLE_PID) then mret (Some (negb (code =? 0)))
  else
    (if tid r =? 0 then end_process p code else mret tt);;
    release_process p;;
    mret None.

Definition sys_exit (code : Z) : ST Kernel (option bool) :=
  exit_current_and_run_next (Z.shiftl (Z.land code 0xff) 8).

(** ** Waiting *)

(** [block_current_and_run_next]: the kernel stack refers to its task until the
    task runs again. *)
Definition k_block_current : ST Kernel unit :=
  t ← current_thread;
  on_sched block_current_and_run_next;;
  k ← get_st;
  put_waiting (t :: waiting k).

(** One round of [run_tasks]. *)
Definition k_run_tasks : ST Kernel unit :=
  on_sched run_tasks_round;;
  k ← get_st;
  match current (tm_sched (times k)) with
  | Some t => put_waiting (remove_first t (waiting k))
  | None => mret tt
  end.

(** The processes that a call waits for. *)
Definition selects (id : Z) (x : @ProcessControlBlock File) : bool := (id =? -1) || (wrap64 id =? pid x).

(** One round of the loop of [sys_wait4]: [None] when the caller blocks, to try
    again when it runs. *)
Definition sys_wait4 (id exit_code_ptr options : Z) : ST Kernel (option Z) :=
  options ← unwrap (WaitOption_from_bits options);
  p ← current_process;
  x ← get_pcb p;
  l ← st_fold (fun l c => y ← get_pcb c; mret (vec_push l (c, y))) [] (children x);
  if negb (existsb (fun cy => selects id cy.2) l) then mret (Some ECHILD)
  else
    match list_find (fun cy => is_zombie cy.2 && selects id cy.2) l with
    | Some (idx, (child, y)) =>
        update_pcb p (fun x => set_family (parent x) (delete idx (children x)) x);;
        k ← get_st;
        rust_assert (strong_count k child + 1 =? 1);;
        put_user 4 p exit_code_ptr (exit_code y);;
        release_process child;;
        mret (Some (pid y))
    | None =>
        if flags_contains options WNOHANG then mret (Some SUCCESS)
        else
          k_block_current;;
          mret None
    end.

(** ** Calls on threads *)

Definition sys_thread_create (sstatus entry arg : Z) : ST Kernel Z :=
  task ← current_thread;
  p ← current_process;
  tcb ← get_tcb task;
  r ← unwrap (res tcb);
  new_task ← TaskControlBlock_new p (ustack_top r) true true;
  on_sched (add_task new_task);;
  new ← get_tcb new_task;
  r ← unwrap (res new);
  put_task p (tid r) (Some new_task);;
  put_init_context sstatus (t_trap_cx_ppn new) entry (ustack_top r) (KernelStack_get_top (kstack new));;
  put_cx (t_trap_cx_ppn new) (CX_X 10) arg;;
  mret (tid r).

Definition sys_gettid : ST Kernel Z :=
  t ← current_thread;
  task_tid t.

Definition sys_waittid (id : Z) : ST Kernel Z :=
  task ← current_thread;
  p ← current_process;
  x ← get_pcb p;
  self ← task_tid task;
  if self =? id then mret (-1)
  else
    waited ← unwrap (tasks x !! Z.to_nat id);
    match waited with
    | None => mret (-1)
    | Some t =>
        y ← get_tcb t;
        match t_exit_code y with
        | Some code =>
            put_task p id None;;
            mret code
        | None => mret (-2)
        end
    end.

Definition sys_set_tid_address (tid_ptr : Z) : ST Kernel Z :=
  t ← current_thread;
  update_tcb t (set_clear_child_tid tid_ptr);;
  task_tid t.

(** ** Other calls *)

Definition sys_getpid : ST Kernel Z :=
  p ← current_process;
  x ← get_pcb p;
  mret (pid x).

Definition sys_getppid : ST Kernel Z :=
  p ← current_process;
  x ← get_pcb p;
  q ← unwrap (parent x);
  y ← get_pcb q;
  mret (pid y).

Definition sys_brk (addr : Z) : ST Kernel Z :=
  p ← current_process;
  x ← get_pcb p;
  if addr =? 0 then mret (as_isize (heap_end x))
  else if addr <? heap_base x then mret EINVAL
  else
    let align_addr := align_up addr in
    let align_end := align_up (heap_end x) in
    if addr <=? align_end then
      update_pcb p (set_heap_end (VirtAddr_from_usize addr));;
      mret (as_isize align_addr)
    else
      '(ms, _) ← on_machine (map_heap (memory_set x) (heap_end x) (VirtAddr_from_usize align_addr));
      update_pcb p (set_memory ms (task_res_allocator x));;
      update_pcb p (set_heap_end (VirtAddr_from_usize align_addr));;
      mret (as_isize addr).
End Processes.

