(* ===== verification/Exec.v ===== *)
(** * Loading programs

    [MemorySet::from_elf] of [kernel/src/mm/memory_set.rs], [exec] and [new] of
    [task/process.rs], [FileDescriptor::map_to_kernel_space] of [fs/mod.rs], and the
    system calls [execve], [mmap], [munmap], [mprotect] and those on time of
    [syscall/process.rs], on the kernel of [Process.v].

    The parser of the crate [xmas_elf] is the argument [elf_new].  A program is
    read through the frames of its pages in the cache of the file, which are mapped
    to kernel space while it is loaded. *)

From S2P Require Import Prelude Config Address PhysMem FrameAllocator PageTable UserMem MemorySet.
From S2P Require Import FdTable Sched Futex Timer Ids Signals Utf Process.

(** What loading uses of the file system. *)
Class ExecFiles (S File : Type) : Type := {
  root_open : list Z → Z → bool → ST S (Result (@FileDescriptor File));
  fd_open_at : @FileDescriptor File → list Z → Z → bool → ST S (Result (@FileDescriptor File));
  fd_cwd : @FileDescriptor File → ST S (option (list Z));
  (** [get_all_caches] with the frame of each page; the cache keeps the frames *)
  fd_frames : @FileDescriptor File → ST S (option (list FrameTracker));
  fd_size : @FileDescriptor File → ST S Z;
  fd_read_all : @FileDescriptor File → ST S (list Z);
}.

Definition CLOCK_REALTIME : Z := 0.

(** [Flags::from_bits] of [mmap] and [MPROCTECTPROT::from_bits]. *)
Definition MapFlags_all : Z :=
  foldr Z.lor 0 [0x01; 0x02; 0x10; 0x20; 0x0100; 0x0800; 0x1000; 0x2000; 0x4000; 0x8000; 0x10000; 0x20000; 0x40000; 0x80000; 0x100000; 0x4000000].
Definition MapFlags_from_bits (bits : Z) : option Z := flags_from_bits MapFlags_all bits.
Definition MPROCTECTPROT_all : Z := foldr Z.lor 0 [0x01; 0x02; 0x04; 0x10; 0x01000000; 0x02000000].
Definition MPROCTECTPROT_from_bits (bits : Z) : option Z := flags_from_bits MPROCTECTPROT_all bits.

(** [str::contains] and [str::ends_with]. *)
Fixpoint str_contains (s t : list Z) : bool :=
  bool_decide (take (length t) s = t) || match s with [] => false | _ :: s => str_contains s t end.
Definition str_ends_with (s t : list Z) : bool := bool_decide (drop (length s - length t) s = t).

Definition contains_substrings (vec_of_strings : list (list Z)) (target_substring : list Z) : bool :=
  existsb (fun s => str_contains s target_substring) vec_of_strings.

(** The arguments for which [execve] does nothing, on every board. *)
Definition skipped_tests : list (list Z) :=
  [chars "pthread"; chars "socket"; chars "sem_init"; chars "tls_init"; chars "tls_local_exec"; chars "tls_get_new_dtv"].

Section Exec.
Context {A : Type} {FA : FrameAllocator A}.
Context {S File : Type} {PF : ProcFiles S File} {EF : ExecFiles S File}.
Context (sym : LinkerSymbols) (trap_handler_addr sstatus : Z) (elf_new : list Z → option ElfFile).
Abbreviation K := (@Kernel A S File).

(** An operation on kernel space. *)
Definition on_kernel_space (m : MemorySet → ST (Machine A) MemorySet) : ST K unit :=
  k ← get_st;
  ks ← on_machine (m (kernel_space k));
  put_kstacks ks (kstack_allocator k).

(** [map_to_kernel_space]: the bytes of the file, behind the mapping. *)
Definition map_to_kernel_space (fd : @FileDescriptor File) (addr : Z) : ST K (list Z) :=
  caches ← on_files (fd_frames fd);
  frames ← unwrap caches;
  on_kernel_space (fun ks => map_app_data ks (VirtAddr_from_usize addr) (Z.lor MapPermission_R MapPermission_W) frames);;
  size ← on_files (fd_size fd);
  k ← get_st;
  mret (take (Z.to_nat size) (frames ≫= (fun f => read_bytes (pmem (machine k)) (get_bytes_array (ft_ppn f)) PAGE_SIZE))).

Definition unmap_from_kernel_space (addr : Z) : ST K unit :=
  on_kernel_space (fun ks => remove_area_with_start_vpn ks (floor (VirtAddr_from_usize addr))).

(** ** [from_elf] *)

Record Loading : Type := mkLoading {
  ld_memory : MemorySet;
  ld_max_end_vpn : VirtPageNum;
  ld_head_va : Z;
  ld_interp : option (Z * Z);
}.

(** One program header. *)
Definition load_header (elf : ElfFile) (ld : Loading) (i : nat) : ST K Loading :=
  ph ← unwrap (elf_program_header elf i);
  if ph_is_load ph then
    let start_va := VirtAddr_from_usize (ph_virtual_addr ph) in
    let end_va := VirtAddr_from_usize (ph_virtual_addr ph ⊞ ph_mem_size ph) in
    ms ← on_machine (load_segment (ld_memory ld) elf ph 0);
    mret (mkLoading ms (ceil end_va) (if ld_head_va ld =? 0 then start_va else ld_head_va ld) (ld_interp ld))
  else if ph_is_interp ph then
    bytes ← slice (elf_input elf) (ph_offset ph) (ph_offset ph ⊞ ph_file_size ph ⊟ 1);
    r ← on_files (root_open (from_utf8_lossy bytes) O_RDONLY false);
    match r with
    | RErr _ => panic
    | ROk fd =>
        elf_data ← map_to_kernel_space fd SECOND_MMAP_BASE;
        '(ms, eb) ← on_machine (load_interp elf_new (ld_memory ld) elf_data);
        unmap_from_kernel_space SECOND_MMAP_BASE;;
        on_files (file_drop (file fd));;
        mret (mkLoading ms (ld_max_end_vpn ld) (ld_head_va ld) (Some eb))
    end
  else mret ld.

Definition initial_auxv (elf : ElfFile) : list AuxHeader :=
  [AuxHeader_new AT_PHENT (elf_ph_entry_size elf); AuxHeader_new AT_PHNUM (Z.of_nat (elf_ph_count elf)); AuxHeader_new AT_PAGESIZE PAGE_SIZE;
   AuxHeader_new AT_FLAGS 0; AuxHeader_new AT_ENTRY (elf_entry_point elf); AuxHeader_new AT_UID 0; AuxHeader_new AT_EUID 0; AuxHeader_new AT_GID 0;
   AuxHeader_new AT_EGID 0; AuxHeader_new AT_PLATFORM 0; AuxHeader_new AT_HWCAP 0; AuxHeader_new AT_CLKTCK CLOCK_FREQ; AuxHeader_new AT_SECURE 0;
   AuxHeader_new AT_NOELF 0x112d].

Record Image : Type := mkImage {
  im_memory : MemorySet;
  im_heap_base : Z;
  im_stack_top : Z;
  im_entry : Z;
  im_auxv : list AuxHeader;
  im_interp_entry : option Z;
}.

Definition from_elf (elf_data : list Z) : ST K Image :=
  ms ← on_machine new_bare;
  ms ← on_machine (map_trampoline sym ms);
  ms ← on_machine (map_signaltrampoline sym ms);
  elf ← unwrap (elf_new elf_data);
  rust_assert (bool_decide (elf_magic elf = [0x7f; 0x45; 0x4c; 0x46]));;
  ld ← st_fold (load_header elf) (mkLoading ms 0 0 None) (seq 0 (elf_ph_count elf));
  let auxv := initial_auxv elf ++ [AuxHeader_new AT_BASE (match ld_interp ld with Some eb => eb.2 | None => 0 end);
    AuxHeader_new AT_PHDR (ld_head_va ld ⊞ elf_ph_offset elf)] in
  let user_heap_base := usize_from_VirtAddr (VirtAddr_from_VirtPageNum (ld_max_end_vpn ld)) ⊞ PAGE_SIZE in
  mret (mkImage (ld_memory ld) user_heap_base STACK_TOP (elf_entry_point elf) auxv (fst <$> ld_interp ld)).

(** [ProcessControlBlock::new] with its program. *)
Definition new_from_fd (elf_fd : @FileDescriptor File) : ST K Z :=
  elf_data ← map_to_kernel_space elf_fd MMAP_BASE;
  im ← from_elf elf_data;
  unmap_from_kernel_space MMAP_BASE;;
  p ← ProcessControlBlock_new trap_handler_addr sstatus (im_memory im) (im_heap_base im) (im_stack_top im) (im_entry im);
  on_files (file_drop (file elf_fd));;
  mret p.

(** ** [exec] *)

Definition set_heap (base end_ : Z) (x : @ProcessControlBlock File) : ProcessControlBlock :=
  mkPCB (pid x) (is_zombie x) (memory_set x) (parent x) (children x) (exit_code x) (fd_table x) (working_inode x) (p_signals_pending x) (p_signal_mask x)
    (tasks x) (task_res_allocator x) base end_ (p_signal_actions x) (tms x) (exit_signal x) (futex x) (self_exe x).

Definition set_self_exe (v : list Z) (x : @ProcessControlBlock File) : ProcessControlBlock :=
  mkPCB (pid x) (is_zombie x) (memory_set x) (parent x) (children x) (exit_code x) (fd_table x) (working_inode x) (p_signals_pending x) (p_signal_mask x)
    (tasks x) (task_res_allocator x) (heap_base x) (heap_end x) (p_signal_actions x) (tms x) (exit_signal x) (futex x) v.

Definition set_user_res (r : TaskUserRes) (ppn : PhysPageNum) (t : TaskControlBlock) : TaskControlBlock :=
  mkTCB (process t) (kstack t) (Some r) ppn (t_exit_code t) (t_signal_pending t) (t_handling_sig t) (t_killed t) (t_frozen t)
    (t_trap_ctx_backup t) (clear_child_tid t) (itimer t).

(** [inner.memory_set = ms]: the old address space is dropped. *)
Definition replace_memory (p : Z) (ms : MemorySet) : ST K unit :=
  x ← get_pcb p;
  update_pcb p (set_memory ms (task_res_allocator x));;
  on_machine (MemorySet_drop (memory_set x)).

Definition exec (self : Z) (fd : @FileDescriptor File) (argv_vec envp_vec : list (list Z)) : ST K unit :=
  x ← get_pcb self;
  rust_assert (thread_count x =? 1);;
  bare ← on_machine new_bare;
  replace_memory self bare;;
  elf_data ← map_to_kernel_space fd MMAP_BASE;
  im ← from_elf elf_data;
  unmap_from_kernel_space MMAP_BASE;;
  replace_memory self (im_memory im);;
  update_pcb self (set_heap (VirtAddr_from_usize (im_heap_base im)) (VirtAddr_from_usize (im_heap_base im)));;
  x ← get_pcb self;
  task ← get_task x 0;
  tcb ← get_tcb task;
  r ← unwrap (res tcb);
  '(r, ms) ← on_machine (alloc_user_res (mkTaskUserRes (tid r) (im_stack_top im) (self_stack r)) (memory_set x) true);
  update_pcb self (set_memory ms (task_res_allocator x));;
  ppn ← on_machine (trap_cx_ppn r ms);
  update_tcb task (set_user_res r ppn);;
  '(user_sp, argc, argv_base, envp_base, aux_base) ←
    on_machine (build_stack ms (im_stack_top im) (as_bytes <$> argv_vec) (as_bytes <$> envp_vec) (im_auxv im));
  put_init_context trap_handler_addr sstatus ppn (default (im_entry im) (im_interp_entry im)) user_sp (KernelStack_get_top (kstack tcb));;
  put_cx ppn (CX_X 10) argc;;
  put_cx ppn (CX_X 11) argv_base;;
  put_cx ppn (CX_X 12) envp_base;;
  put_cx ppn (CX_X 13) aux_base;;
  on_files (file_drop (file fd)).

(** The loop that reads a vector of strings up to a null pointer; the fuel bounds
    the strings and their lengths. *)
Fixpoint read_strings (fuel : nat) (token : Z) (args : Z) (v : list (list Z)) : ST K (list (list Z)) :=
  match fuel with
  | O => out_of_fuel
  | Datatypes.S fuel' =>
      k ← get_st;
      pa ← lift (translated_ref (pmem (machine k)) token args);
      let ptr := load64 (pmem (machine k)) pa in
      if ptr =? 0 then mret v
      else
        s ← lift (translated_str fuel (pmem (machine k)) token ptr);
        read_strings fuel' token (args ⊞ 8) (vec_push v s)
  end.

Definition sys_execve (fuel : nat) (path args envp : Z) : ST K Z :=
  p ← current_process;
  x ← get_pcb p;
  let token := MemorySet_token (memory_set x) in
  k ← get_st;
  path ← lift (translated_str fuel (pmem (machine k)) token path);
  args_vec ← (if negb (args =? 0) then read_strings fuel token args [] else mret []);
  if existsb (contains_substrings args_vec) skipped_tests then mret SUCCESS
  else
    envp_vec ← (if negb (envp =? 0) then read_strings fuel token envp [] else mret []);
    let script := str_ends_with path (chars ".sh") in
    let args_vec := if script then chars "/busybox" :: chars "sh" :: args_vec else args_vec in
    let path := if script then chars "./busybox" else path in
    r ← on_files (fd_open_at (working_inode x) path O_RDONLY false);
    match r with
    | RErr errno => mret errno
    | ROk fd =>
        cwd ← on_files (fd_cwd fd);
        cwd ← unwrap cwd;
        exec p fd args_vec envp_vec;;
        update_pcb p (set_self_exe cwd);;
        mret (Z.of_nat (length args_vec))
    end.

(** ** Memory calls *)

(** [ProcessControlBlockInner::mmap] *)
Definition process_mmap (p start_addr len flags fd offset : Z) : ST K Z :=
  flags ← unwrap (MapFlags_from_bits flags);
  x ← get_pcb p;
  let go context length :=
    '(ms, r) ← on_machine (mmap (memory_set x) start_addr length offset context flags);
    update_pcb p (set_memory ms (task_res_allocator x));;
    mret r in
  if flags_contains flags MAP_ANONYMOUS then go [] len
  else
    '(r, _) ← lift (FdTable_get_ref fd (fd_table x));
    match r with
    | RErr errno => mret errno
    | ROk d =>
        context ← on_files (fd_read_all d);
        let file_len := Z.of_nat (length context) in
        let length := Z.min len (file_len ⊟ offset) in
        if file_len <=? offset then mret EPERM else go context length
    end.

Definition sys_mmap (start len flags fd offset : Z) : ST K Z :=
  if (as_isize start =? -1) || (len =? 0) then mret EPERM
  else
    p ← current_process;
    process_mmap p start len flags fd offset.

Definition sys_munmap (start len : Z) : ST K Z :=
  p ← current_process;
  x ← get_pcb p;
  '(ms, r) ← on_machine (munmap (memory_set x) start len);
  update_pcb p (set_memory ms (task_res_allocator x));;
  mret r.

Definition sys_mprotect (addr len prot : Z) : ST K Z :=
  if (addr =? 0) || negb (addr mod PAGE_SIZE =? 0) then mret EINVAL
  else
    p ← current_process;
    x ← get_pcb p;
    prot ← unwrap (MPROCTECTPROT_from_bits (wrap32 prot));
    on_machine (mprotect (memory_set x) addr (addr ⊞ len) (PTEFlags_from_prot prot)).

(** ** Time

    Structures of [usize] fields, stored in order. *)

Definition put_user_words (p ptr : Z) (ws : list Z) : ST K unit :=
  x ← get_pcb p;
  k ← get_st;
  pa ← lift (translated_refmut (pmem (machine k)) (MemorySet_token (memory_set x)) ptr);
  on_machine (update_pmem (fun m => foldl (fun m iw => store64 m (pa + 8 * iw.1) iw.2) m (zip (seqZ 0 (Z.of_nat (length ws))) ws))).

Definition sys_times (time buf : Z) : ST K Z :=
  p ← current_process;
  let usec := get_time_us time in
  put_user_words p buf [usec; usec; usec; usec];;
  mret SUCCESS.

Definition sys_get_time_day (time tr : Z) : ST K Z :=
  p ← current_process;
  (if negb (tr =? 0) then put_user_words p tr [tv_sec (TimeVal_now time); tv_usec (TimeVal_now time)] else mret tt);;
  mret SUCCESS.

Definition sys_clock_gettime (time clk_id tp : Z) : ST K Z :=
  (if (clk_id =? CLOCK_REALTIME) && negb (tp =? 0) then
     p ← current_process;
     put_user_words p tp [ts_sec (TimeSpec_now time); ts_nsec (TimeSpec_now time)]
   else mret tt);;
  mret SUCCESS.

Definition itimer_words (v : ITimerVal) : list Z := [tv_sec (it_interval v); tv_usec (it_interval v); tv_sec (it_value v); tv_usec (it_value v)].

Definition sys_getitimer (which curr_value : Z) : ST K Z :=
  if negb (which =? 0) then panic
  else
    p ← current_process;
    if curr_value =? 0 then mret EINVAL
    else
      t ← current_thread;
      tcb ← get_tcb t;
      put_user_words p curr_value (itimer_words (itimer tcb));;
      mret SUCCESS.

(** The new value goes to a local copy, and it is read from [old_value]. *)
Definition sys_setitimer (which new_value old_value : Z) : ST K Z :=
  if negb (which =? 0) then panic
  else
    p ← current_process;
    x ← get_pcb p;
    t ← current_thread;
    tcb ← get_tcb t;
    (if negb (old_value =? 0) then put_user_words p old_value (itimer_words (itimer tcb)) else mret tt);;
    k ← get_st;
    (if negb (new_value =? 0) then _ ← lift (translated_refmut (pmem (machine k)) (MemorySet_token (memory_set x)) old_value); mret tt else mret tt);;
    mret SUCCESS.
End Exec.
