(* ===== verification/ProcessTree.v ===== *)
(** * The tree of processes

    Control blocks of processes as far as they make up a tree, with the numbers of
    processes; what [fork], [exit] and [wait4] do to it, the invariant they keep,
    and the table from numbers to parents and exit codes that user programs see. *)

From S2P Require Import Prelude Config Ids.

Record Family : Type := mkFamily { f_pid : Z; f_zombie : bool; f_parent : option Z; f_children : list Z; f_code : Z }.

Record PTree : Type := mkPTree { fams : gmap Z Family; by_pid : gmap Z Z; free_pids : RecycleAllocator; init : Z }.

(** ** The calls *)

Definition t_boot (p : Z) (al : RecycleAllocator) : PTree := mkPTree {[p := mkFamily 0 false None [] 0]} {[0 := p]} al p.

(** [q] gets the child [c] with number [i]. *)
Definition t_fork (T : PTree) (q : Z) (y : Family) (c i : Z) (al : RecycleAllocator) : PTree :=
  mkPTree (<[q := mkFamily (f_pid y) (f_zombie y) (f_parent y) (f_children y ++ [c]) (f_code y)]> (<[c := mkFamily i false (Some q) [] 0]> (fams T)))
    (<[i := c]> (by_pid T)) al (init T).

Definition t_adopt (T : PTree) (c : Z) : PTree :=
  mkPTree (alter (fun x => mkFamily (f_pid x) (f_zombie x) (f_parent x) (f_children x ++ [c]) (f_code x)) (init T)
            (alter (fun x => mkFamily (f_pid x) (f_zombie x) (Some (init T)) (f_children x) (f_code x)) c (fams T)))
    (by_pid T) (free_pids T) (init T).

(** The end of the process [p], whose block was [x]. *)
Definition t_exit (T : PTree) (p : Z) (x : Family) (code : Z) : PTree :=
  let T := mkPTree (<[p := mkFamily (f_pid x) true (f_parent x) (f_children x) code]> (fams T)) (delete (f_pid x) (by_pid T)) (free_pids T) (init T) in
  let T := foldl t_adopt T (f_children x) in
  mkPTree (alter (fun x => mkFamily (f_pid x) (f_zombie x) (f_parent x) [] (f_code x)) p (fams T)) (by_pid T) (free_pids T) (init T).

#[local] Arguments t_exit : simpl never.

(** The child [c] of [q] goes away. *)
Definition t_reap (T : PTree) (q : Z) (y : Family) (idx : nat) (c : Z) (al : RecycleAllocator) : PTree :=
  mkPTree (delete c (<[q := mkFamily (f_pid y) (f_zombie y) (f_parent y) (delete idx (f_children y)) (f_code y)]> (fams T)))
    (by_pid T) al (init T).

Lemma adopt_all_lookup l T q : init T ∉ l → NoDup l →
  fams (foldl t_adopt T l) !! q =
    (fun x => mkFamily (f_pid x) (f_zombie x) (if decide (q ∈ l) then Some (init T) else f_parent x)
                (if decide (q = init T) then f_children x ++ l else f_children x) (f_code x)) <$> fams T !! q.
Proof.
  revert T. induction l as [|c l IH]; intros T Hi Hn; cbn [foldl].
  - destruct (fams T !! q) as [[]|]; [|done]. cbn. rewrite decide_False by set_solver. rewrite app_nil_r. by destruct (decide _).
  - apply NoDup_cons in Hn as [Hc Hn]. rewrite IH; [|set_solver|done]. cbn. assert (c ≠ init T) as Hci by set_solver.
    destruct (decide (q = init T)) as [->|Hq].
    + rewrite lookup_alter_eq, lookup_alter_ne by done. destruct (fams T !! init T) as [x|]; [|done]. cbn. rewrite !decide_False, <-app_assoc by set_solver. done.
    + rewrite lookup_alter_ne by done. destruct (decide (q = c)) as [->|Hqc].
      * rewrite lookup_alter_eq. destruct (fams T !! c) as [x|]; [|done]. cbn. rewrite decide_False, decide_True by set_solver. done.
      * rewrite lookup_alter_ne by done. destruct (fams T !! q) as [x|]; [|done]. cbn. f_equal. f_equal. destruct (decide (q ∈ l)); [by rewrite decide_True by set_solver|by rewrite decide_False by set_solver].
Qed.

Lemma adopt_all_other l T : by_pid (foldl t_adopt T l) = by_pid T ∧ free_pids (foldl t_adopt T l) = free_pids T ∧ init (foldl t_adopt T l) = init T.
Proof. revert T. induction l as [|c l IH]; intros T; [done|]. cbn [foldl]. destruct (IH (t_adopt T c)) as (-> & -> & ->). done. Qed.

(** ** The invariant *)

Definition pids_of (T : PTree) : gset Z := map_to_set (fun _ x => f_pid x) (fams T).

(** Parents and children agree, every process but the first has one parent, which
    has not ended, and descends from the first. *)
Record links (T : PTree) : Prop := {
  lk_init : ∃ x, fams T !! init T = Some x ∧ f_pid x = 0 ∧ f_zombie x = false ∧ f_parent x = None;
  lk_parent p x : fams T !! p = Some x → p ≠ init T → ∃ q y, f_parent x = Some q ∧ fams T !! q = Some y ∧ p ∈ f_children y;
  lk_child q y c : fams T !! q = Some y → c ∈ f_children y → ∃ x, fams T !! c = Some x ∧ f_parent x = Some q;
  lk_nodup q y : fams T !! q = Some y → NoDup (f_children y);
  lk_zombie q y : fams T !! q = Some y → f_zombie y = true → f_children y = [];
  lk_rank : ∃ d : Z → nat, d (init T) = 0%nat ∧ ∀ p x q, fams T !! p = Some x → f_parent x = Some q → (d q < d p)%nat;
}.

(** Numbers are unique, those of all processes are taken, and the processes that
    have not ended are found by their numbers. *)
Record numbers (T : PTree) : Prop := {
  nb_by_pid i p : by_pid T !! i = Some p ↔ ∃ x, fams T !! p = Some x ∧ f_pid x = i ∧ f_zombie x = false;
  nb_inj p x q y : fams T !! p = Some x → fams T !! q = Some y → f_pid x = f_pid y → p = q;
  nb_pids : ra_wf (free_pids T) (pids_of T);
}.

Record ptree_inv (T : PTree) : Prop := { pi_links : links T; pi_numbers : numbers T }.

Lemma elem_of_pids T i : i ∈ pids_of T ↔ ∃ p x, fams T !! p = Some x ∧ f_pid x = i.
Proof. unfold pids_of. rewrite elem_of_map_to_set. done. Qed.

Lemma ptree_inv_boot p al : ra_wf al {[0]} → ptree_inv (t_boot p al).
Proof.
  intros Hal. split; constructor; cbn.
  - eexists. by rewrite lookup_singleton_eq.
  - intros q x [<- <-]%lookup_singleton_Some. done.
  - intros q y c [<- <-]%lookup_singleton_Some. set_solver.
  - intros q y [<- <-]%lookup_singleton_Some. constructor.
  - by intros q y [<- <-]%lookup_singleton_Some.
  - exists (fun _ => 0%nat). split; [done|]. by intros q x r [<- <-]%lookup_singleton_Some.
  - intros i q. rewrite lookup_singleton_Some. split.
    + intros [<- <-]. eexists. by rewrite lookup_singleton_eq.
    + by intros (x & [<- <-]%lookup_singleton_Some & <- & _).
  - by intros q x r y [<- <-]%lookup_singleton_Some [<- <-]%lookup_singleton_Some.
  - replace (pids_of (t_boot p al)) with ({[0]} : gset Z); [done|]. apply set_eq. intros i. rewrite elem_of_pids. cbn. setoid_rewrite lookup_singleton_Some. set_solver.
Qed.

(** ** The table of processes

    What user programs can tell of the processes: the number of the parent, and
    the exit code of a process that has ended. *)

Record PState : Type := mkPState { ps_parent : option Z; ps_code : option Z }.

Definition state_of (T : PTree) (x : Family) : PState :=
  mkPState (q ← f_parent x; f_pid <$> fams T !! q) (if f_zombie x then Some (f_code x) else None).

Definition table (T : PTree) : gmap Z PState := list_to_map ((fun x => (f_pid x, state_of T x)) <$> (map_to_list (fams T)).*2).

(** The process [P] ends: its children become children of the first process. *)
Definition exit_state (P code i : Z) (st : PState) : PState :=
  if decide (i = P) then mkPState (ps_parent st) (Some code)
  else if decide (ps_parent st = Some P) then mkPState (Some 0) (ps_code st) else st.

Definition wait_for (id i : Z) : Prop := id = -1 ∨ wrap64 id = i.

(** What [wait4] may return to the process [P], and what it does to the table. *)
Definition wait_spec (P id : Z) (r : option Z) (m m' : gmap Z PState) : Prop :=
  (r = Some (-10) ∧ m' = m ∧ ∀ i st, m !! i = Some st → ps_parent st = Some P → ¬ wait_for id i) ∨
  ((r = Some 0 ∨ r = None) ∧ m' = m ∧ (∃ i st, m !! i = Some st ∧ ps_parent st = Some P ∧ wait_for id i) ∧
     ∀ i st, m !! i = Some st → ps_parent st = Some P → wait_for id i → ps_code st = None) ∨
  (∃ i code, r = Some i ∧ i ≠ 0 ∧ m !! i = Some (mkPState (Some P) (Some code)) ∧ wait_for id i ∧ m' = delete i m).

Inductive pevent : Type :=
  | PFork (P child : Z)
  | PExit (P code : Z)
  | PWait (P id : Z) (r : option Z)
  | PInternal.

Definition spec_step (m : gmap Z PState) (e : pevent) (m' : gmap Z PState) : Prop :=
  match e with
  | PFork P child => (∃ par, m !! P = Some (mkPState par None)) ∧ m !! child = None ∧ m' = <[child := mkPState (Some P) None]> m
  | PExit P code => P ≠ 0 ∧ (∃ par, m !! P = Some (mkPState par None)) ∧ m' = map_imap (fun i st => Some (exit_state P code i st)) m
  | PWait P id r => wait_spec P id r m m'
  | PInternal => m' = m
  end.

Inductive spec_run : gmap Z PState → list pevent → gmap Z PState → Prop :=
  | sr_nil m : spec_run m [] m
  | sr_cons m e m1 es m' : spec_step m e m1 → spec_run m1 es m' → spec_run m (e :: es) m'.

(** The state of a process does not change when the numbers of the parents do not. *)
Lemma state_of_ext T T' x x' : f_parent x' = f_parent x → f_zombie x' = f_zombie x → (f_zombie x = true → f_code x' = f_code x) →
  (∀ q, f_parent x = Some q → f_pid <$> fams T' !! q = f_pid <$> fams T !! q) → state_of T' x' = state_of T x.
Proof.
  intros E1 E2 E3 Hq. unfold state_of. rewrite E1, E2. f_equal; [|by destruct (f_zombie x); [rewrite E3|]]. destruct (f_parent x) as [q|]; [|done]. cbn. by apply Hq.
Qed.

Section Table.
Context (T : PTree) (HN : numbers T).

Lemma table_lookup i st : table T !! i = Some st ↔ ∃ p x, fams T !! p = Some x ∧ f_pid x = i ∧ st = state_of T x.
Proof.
  unfold table. rewrite <-elem_of_list_to_map.
  - rewrite list_elem_of_fmap. setoid_rewrite list_elem_of_fmap. split.
    + intros (x & [= -> ->] & [p x'] & -> & Hin%elem_of_map_to_list). by exists p, x'.
    + intros (p & x & Hp & <- & ->). exists x. split; [done|]. exists (p, x). split; [done|]. by apply elem_of_map_to_list.
  - rewrite <-!list_fmap_compose. apply NoDup_fmap_2_strong; [|apply NoDup_map_to_list].
    intros [p x] [q y] Hp%elem_of_map_to_list Hq%elem_of_map_to_list E. cbn in E. assert (p = q) as -> by by eapply (nb_inj T HN). congruence.
Qed.

Lemma table_ext m : (∀ i st, m !! i = Some st ↔ ∃ p x, fams T !! p = Some x ∧ f_pid x = i ∧ st = state_of T x) → table T = m.
Proof. intros H. apply map_eq. intros i. apply option_eq. intros st. by rewrite table_lookup, H. Qed.

Lemma state_parent p x q y : fams T !! p = Some x → fams T !! q = Some y → ps_parent (state_of T x) = Some (f_pid y) ↔ f_parent x = Some q.
Proof.
  intros Hp Hq. cbn. split; [|by intros ->; cbn; rewrite Hq]. destruct (f_parent x) as [r|] eqn:E; [|done]. cbn.
  destruct (fams T !! r) as [z|] eqn:Hr; [|done]. cbn. intros [= Hpid]. f_equal. by eapply (nb_inj T HN).
Qed.
End Table.

Section Inv.
Context (T : PTree) (HT : links T) (HN : numbers T).

Lemma init_not_child q y : fams T !! q = Some y → init T ∉ f_children y.
Proof. intros Hq Hin. destruct (lk_child T HT q y _ Hq Hin) as (x & Hx & Hp). destruct (lk_init T HT) as (z & Hz & _ & _ & Hn). congruence. Qed.

Lemma child_unique q y r z c : fams T !! q = Some y → fams T !! r = Some z → c ∈ f_children y → c ∈ f_children z → q = r.
Proof.
  intros Hq Hr H1 H2. destruct (lk_child T HT _ _ _ Hq H1) as (x & Hx & Hp), (lk_child T HT _ _ _ Hr H2) as (x' & Hx' & Hp'). congruence.
Qed.

Lemma not_own_child q y : fams T !! q = Some y → q ∉ f_children y.
Proof.
  intros Hq Hin. destruct (lk_child T HT _ _ _ Hq Hin) as (x & Hx & Hp). destruct (lk_rank T HT) as (d & _ & Hd). specialize (Hd _ _ _ Hx Hp). lia.
Qed.

Lemma parent_lives p x q : fams T !! p = Some x → f_parent x = Some q → ∃ y, fams T !! q = Some y ∧ p ∈ f_children y ∧ f_zombie y = false.
Proof.
  intros Hp Hq. destruct (decide (p = init T)) as [->|Hi]; [destruct (lk_init T HT) as (z & ? & _ & _ & ?); congruence|].
  destruct (lk_parent T HT _ _ Hp Hi) as (q' & y & E & Hy & Hin). assert (q' = q) as -> by congruence. exists y. split_and!; [done|done|].
  destruct (f_zombie y) eqn:Hz; [|done]. rewrite (lk_zombie T HT _ _ Hy Hz) in Hin. set_solver.
Qed.

(** ** A child is born *)

Section Fork.
Context (q : Z) (y : Family) (c i : Z) (al : RecycleAllocator).
Context (Hq : fams T !! q = Some y) (Hz : f_zombie y = false) (Hc : fams T !! c = None).

Let y' : Family := mkFamily (f_pid y) (f_zombie y) (f_parent y) (f_children y ++ [c]) (f_code y).

Lemma fork_lookup p x :
  fams (t_fork T q y c i al) !! p = Some x ↔ (p = q ∧ x = y') ∨ (p = c ∧ x = mkFamily i false (Some q) [] 0) ∨ (p ≠ q ∧ p ≠ c ∧ fams T !! p = Some x).
Proof. assert (q ≠ c) by congruence. cbn. rewrite !lookup_insert_Some. naive_solver. Qed.

(** What was there is still there, up to the new child. *)
Lemma fork_old p x : fams T !! p = Some x → ∃ x', fams (t_fork T q y c i al) !! p = Some x' ∧ f_pid x' = f_pid x ∧ f_zombie x' = f_zombie x ∧
  f_parent x' = f_parent x ∧ (∀ e, e ∈ f_children x → e ∈ f_children x') ∧ (p ≠ q → x' = x).
Proof.
  intros Hp. destruct (decide (p = q)) as [->|].
  - exists y'. rewrite fork_lookup. assert (x = y) as -> by congruence. split_and!; try done; [by left|]. cbn. set_solver.
  - exists x. rewrite fork_lookup. split_and!; try done. right; right. split_and!; [done|congruence|done].
Qed.

Lemma links_fork : links (t_fork T q y c i al).
Proof.
  constructor; change (init (t_fork T q y c i al)) with (init T).
  - destruct (lk_init T HT) as (x & Hx & ? & ? & ?). destruct (fork_old _ _ Hx) as (x' & Hx' & ? & ? & ? & _). exists x'. split_and!; [done|congruence..].
  - intros p x [(-> & ->)|[(-> & ->)|(N1 & N2 & Hp)]]%fork_lookup Hpi; cbn.
    + destruct (lk_parent T HT _ _ Hq Hpi) as (r & z & Hr & Hz' & Hin). destruct (fork_old _ _ Hz') as (z' & Hz'' & _ & _ & _ & Hch & _). eauto 10.
    + destruct (fork_old _ _ Hq) as (y1 & Hy1 & _). exists q, y'. rewrite fork_lookup. split_and!; [done|by left|]. cbn. set_solver.
    + destruct (lk_parent T HT _ _ Hp Hpi) as (r & z & Hr & Hz' & Hin). destruct (fork_old _ _ Hz') as (z' & Hz'' & _ & _ & _ & Hch & _). eauto 10.
  - intros r z c' [(-> & ->)|[(-> & ->)|(N1 & N2 & Hr)]]%fork_lookup Hin; cbn in Hin; [|set_solver|].
    + apply elem_of_app in Hin as [Hin| ->%list_elem_of_singleton]; [|eexists; rewrite fork_lookup; split; [by right; left|done]].
      destruct (lk_child T HT _ _ _ Hq Hin) as (x & Hx & Hp). destruct (fork_old _ _ Hx) as (x' & Hx' & _ & _ & Hpar & _). exists x'. split; [done|congruence].
    + destruct (lk_child T HT _ _ _ Hr Hin) as (x & Hx & Hp). destruct (fork_old _ _ Hx) as (x' & Hx' & _ & _ & Hpar & _). exists x'. split; [done|congruence].
  - intros r z [(-> & ->)|[(-> & ->)|(N1 & N2 & Hr)]]%fork_lookup; cbn; [|constructor|by eapply lk_nodup].
    apply NoDup_app. split_and!; [by eapply lk_nodup| |apply NoDup_singleton]. intros e He ->%list_elem_of_singleton.
    destruct (lk_child T HT _ _ _ Hq He) as (x & Hx & _). congruence.
  - intros r z [(-> & ->)|[(-> & ->)|(N1 & N2 & Hr)]]%fork_lookup; cbn; [congruence|done|by eapply lk_zombie].
  - destruct (lk_rank T HT) as (d & Hd0 & Hd). exists (fun p => if decide (p = c) then Datatypes.S (d q) else d p). split.
    { destruct (lk_init T HT) as (x & Hx & _). rewrite decide_False; [done|]. congruence. }
    assert (∀ p x r, fams T !! p = Some x → f_parent x = Some r → r ≠ c) as Hrc.
    { intros p x r Hp Hr ->. destruct (parent_lives _ _ _ Hp Hr) as (? & ? & _). congruence. }
    intros p x r [(-> & ->)|[(-> & ->)|(N1 & N2 & Hp)]]%fork_lookup Hr; cbn in Hr.
    + rewrite !decide_False by (congruence || eauto). eauto.
    + injection Hr as <-. rewrite decide_False, decide_True by congruence. lia.
    + rewrite !decide_False by (congruence || eauto). eauto.
Qed.

Lemma numbers_fork : ra_alloc (free_pids T) = (i, al) → ra_current (free_pids T) < 2 ^ 64 - 2 → numbers (t_fork T q y c i al) ∧ i ∉ pids_of T.
Proof.
  intros Hal Hb. destruct (ra_alloc_spec _ _ _ _ (nb_pids T HN) Hb Hal) as (Hwf & Hi & _). split; [|done].
  assert (∀ p x, fams T !! p = Some x → f_pid x ≠ i) as Hf by (intros p x Hp <-; apply Hi, elem_of_pids; by exists p, x).
  constructor.
  - intros j p. change (by_pid (t_fork T q y c i al)) with (<[i := c]> (by_pid T)). rewrite lookup_insert_Some, (nb_by_pid T HN). split.
    + intros [(<- & <-)|(Hj & x & Hx & Hpid & Hzo)]; [eexists; rewrite fork_lookup; split; [by right; left|done]|].
      destruct (fork_old _ _ Hx) as (x' & Hx' & ? & ? & _). exists x'. split_and!; [done|congruence..].
    + intros (x & [(-> & ->)|[(-> & ->)|(N1 & N2 & Hp)]]%fork_lookup & Hpid & Hzo); cbn in *; [|left; done|].
      * right. split; [|by exists y]. specialize (Hf _ _ Hq). congruence.
      * right. split; [|by exists x]. specialize (Hf _ _ Hp). congruence.
  - intros p x r z [(-> & ->)|[(-> & ->)|(N1 & N2 & Hp)]]%fork_lookup [(-> & ->)|[(-> & ->)|(N3 & N4 & Hr)]]%fork_lookup; cbn; intros E; try done;
      first [by eapply (nb_inj T HN)|exfalso; naive_solver].
  - replace (pids_of (t_fork T q y c i al)) with ({[i]} ∪ pids_of T); [done|]. apply set_eq. intros j. rewrite elem_of_union, elem_of_singleton, !elem_of_pids. split.
    + intros [->|(p & x & Hp & Hj)]; [exists c; eexists; rewrite fork_lookup; split; [by right; left|done]|].
      destruct (fork_old _ _ Hp) as (x' & Hx' & ? & _). exists p, x'. split; [done|congruence].
    + intros (p & x & [(-> & ->)|[(-> & ->)|(N1 & N2 & Hp)]]%fork_lookup & Hj); cbn in Hj; [right; by exists q, y|by left|right; by exists p, x].
Qed.
Lemma spec_fork :
  ra_alloc (free_pids T) = (i, al) → ra_current (free_pids T) < 2 ^ 64 - 2 →
  ptree_inv (t_fork T q y c i al) ∧ spec_step (table T) (PFork (f_pid y) i) (table (t_fork T q y c i al)).
Proof.
  intros Hal Hb. destruct (numbers_fork Hal Hb) as [HN' Hi]. split; [split; [apply links_fork|done]|]. cbn. split_and!.
  - exists (ps_parent (state_of T y)). apply table_lookup; [done|]. exists q, y. split_and!; [done|done|]. unfold state_of. by rewrite Hz.
  - apply eq_None_not_Some. intros [st (p & x & Hp & E & _)%table_lookup]; [|done]. apply Hi, elem_of_pids. by exists p, x.
  - assert (∀ p x x', fams T !! p = Some x → fams (t_fork T q y c i al) !! p = Some x' → state_of (t_fork T q y c i al) x' = state_of T x) as Hst.
    { intros p x x' Hp Hp'. assert (p ≠ c) by congruence. assert (f_parent x' = f_parent x ∧ f_zombie x' = f_zombie x ∧ f_code x' = f_code x) as (? & ? & ?).
      { apply fork_lookup in Hp' as [(-> & ->)|[(-> & ->)|(? & ? & ?)]]; [|done|by assert (x' = x) as -> by congruence]. by assert (x = y) as -> by congruence. }
      apply state_of_ext; [done..|]. intros r Hr. destruct (parent_lives _ _ _ Hp Hr) as (z & Hz' & _).
      destruct (fork_old _ _ Hz') as (z' & Hz'' & E & _). rewrite Hz', Hz''. cbn. by rewrite E. }
    apply table_ext; [done|]. intros j st. rewrite lookup_insert_Some, table_lookup by done. split.
    + intros [(<- & <-)|(Hj & p & x & Hp & Hpid & ->)].
      * exists c, (mkFamily i false (Some q) [] 0). rewrite fork_lookup. split_and!; [by right; left|done|]. unfold state_of. cbn. by rewrite lookup_insert_eq.
      * destruct (fork_old _ _ Hp) as (x' & Hx' & E & _). exists p, x'. split_and!; [done|congruence|]. by rewrite (Hst p x x').
    + intros (p & x' & Hp' & <- & ->). destruct (decide (p = c)) as [->|Hpc].
      * left. apply fork_lookup in Hp' as [(-> & ->)|[(_ & ->)|(_ & ? & _)]]; [congruence| |done]. split; [done|]. unfold state_of. cbn. by rewrite lookup_insert_eq.
      * right. assert (∃ x, fams T !! p = Some x ∧ f_pid x' = f_pid x) as (x & Hp & E).
        { apply fork_lookup in Hp' as [(-> & ->)|[(-> & _)|(_ & _ & ?)]]; [by exists y|done|by exists x']. }
        split; [|exists p, x; split_and!; [done|congruence|by apply (Hst p)]]. intros ->. apply Hi, elem_of_pids. by exists p, x.
Qed.
End Fork.

(** ** A process ends *)

Section Exit.
Context (p : Z) (x : Family) (code : Z).
Context (Hp : fams T !! p = Some x) (Hpi : p ≠ init T).

(** What becomes of the block [z] of [q]. *)
Definition exited (q : Z) (z : Family) : Family :=
  mkFamily (f_pid z) (if decide (q = p) then true else f_zombie z) (if decide (q ∈ f_children x) then Some (init T) else f_parent z)
    (if decide (q = p) then [] else if decide (q = init T) then f_children z ++ f_children x else f_children z) (if decide (q = p) then code else f_code z).

Lemma exit_lookup q : fams (t_exit T p x code) !! q = exited q <$> fams T !! q.
Proof.
  pose proof (not_own_child _ _ Hp) as Hown. unfold t_exit, exited. cbn [fams].
  destruct (decide (q = p)) as [->|Hq].
  - rewrite lookup_alter_eq, adopt_all_lookup by (by eapply init_not_child || by eapply lk_nodup). cbn. rewrite lookup_insert_eq, Hp. cbn.
    rewrite (decide_False (P := p ∈ _)) by done. done.
  - rewrite lookup_alter_ne by done. rewrite adopt_all_lookup by (by eapply init_not_child || by eapply lk_nodup). cbn. by rewrite lookup_insert_ne by done.
Qed.

Lemma exit_lookup_Some q z : fams (t_exit T p x code) !! q = Some z ↔ ∃ z0, fams T !! q = Some z0 ∧ z = exited q z0.
Proof. rewrite exit_lookup, fmap_Some. done. Qed.

Lemma exit_init : init (t_exit T p x code) = init T.
Proof. unfold t_exit. cbn. by destruct (adopt_all_other (f_children x) (mkPTree (<[p:=mkFamily (f_pid x) true (f_parent x) (f_children x) code]> (fams T)) (delete (f_pid x) (by_pid T)) (free_pids T) (init T))) as (_ & _ & ->). Qed.

Lemma exit_by_pid : by_pid (t_exit T p x code) = delete (f_pid x) (by_pid T) ∧ free_pids (t_exit T p x code) = free_pids T.
Proof. unfold t_exit. cbn. by destruct (adopt_all_other (f_children x) (mkPTree (<[p:=mkFamily (f_pid x) true (f_parent x) (f_children x) code]> (fams T)) (delete (f_pid x) (by_pid T)) (free_pids T) (init T))) as (-> & -> & _). Qed.

(** The children of the process are those of its number. *)
Lemma child_iff q z : fams T !! q = Some z → q ∈ f_children x ↔ f_parent z = Some p.
Proof.
  intros Hq. split.
  - intros Hin. destruct (lk_child T HT _ _ _ Hp Hin) as (z' & Hz' & ?). congruence.
  - intros Hpar. destruct (parent_lives _ _ _ Hq Hpar) as (x' & Hx' & Hin & _). congruence.
Qed.

Lemma links_exit : links (t_exit T p x code).
Proof.
  constructor; rewrite ?exit_init.
  - destruct (lk_init T HT) as (z & Hz & ? & ? & ?). exists (exited (init T) z). rewrite exit_lookup, Hz. split; [done|]. unfold exited. cbn.
    rewrite decide_False by done. rewrite decide_False by by eapply init_not_child. done.
  - intros q z (z0 & Hq & ->)%exit_lookup_Some Hqi. destruct (lk_parent T HT _ _ Hq Hqi) as (r & w & Hr & Hw & Hin). cbn.
    destruct (decide (q ∈ f_children x)) as [Hx|Hx].
    + destruct (lk_init T HT) as (wi & Hwi & _). exists (init T), (exited (init T) wi). rewrite exit_lookup, Hwi. split_and!; [done|done|]. unfold exited. cbn.
      rewrite decide_False, decide_True by done. set_solver.
    + exists r, (exited r w). rewrite exit_lookup, Hw. split_and!; [done|done|]. unfold exited. cbn.
      rewrite decide_False by (intros ->; congruence). destruct (decide _); set_solver.
  - intros r w c (w0 & Hr & ->)%exit_lookup_Some Hin. unfold exited in Hin. cbn in Hin. destruct (decide (r = p)) as [->|Hrp]; [set_solver|].
    assert (∀ z, fams T !! c = Some z → ∃ z', fams (t_exit T p x code) !! c = Some z' ∧ f_parent z' = if decide (c ∈ f_children x) then Some (init T) else f_parent z) as Hc.
    { intros z Hz. exists (exited c z). by rewrite exit_lookup, Hz. }
    assert (c ∈ f_children w0 ∨ (r = init T ∧ c ∈ f_children x)) as [Hin'|[-> Hin']] by (destruct (decide _); set_solver).
    + destruct (lk_child T HT _ _ _ Hr Hin') as (z & Hz & Hpar). destruct (Hc _ Hz) as (z' & Hz' & E). exists z'. split; [done|].
      rewrite E, decide_False; [done|]. rewrite (child_iff _ _ Hz). congruence.
    + destruct (lk_child T HT _ _ _ Hp Hin') as (z & Hz & Hpar). destruct (Hc _ Hz) as (z' & Hz' & E). exists z'. split; [done|]. by rewrite E, decide_True.
  - intros r w (w0 & Hr & ->)%exit_lookup_Some. unfold exited. cbn. destruct (decide (r = p)); [constructor|]. destruct (decide _); [|by eapply lk_nodup].
    apply NoDup_app. split_and!; [by eapply lk_nodup| |by eapply lk_nodup]. intros c He1 He2. assert (r = p) by by eapply (child_unique r w0 p x). done.
  - intros r w (w0 & Hr & ->)%exit_lookup_Some. unfold exited. cbn. destruct (decide (r = p)); [done|]. intros Hzo. destruct (decide (r = init T)) as [->|]; [|by eapply lk_zombie].
    destruct (lk_init T HT) as (wi & ? & _ & ? & _). congruence.
  - destruct (lk_rank T HT) as (d & Hd0 & Hd). exists d. split; [done|]. intros q z r (z0 & Hq & ->)%exit_lookup_Some. cbn. destruct (decide _) as [Hx|]; [|by apply Hd].
    intros [= <-]. apply (child_iff _ _ Hq) in Hx. specialize (Hd _ _ _ Hq Hx). lia.
Qed.

Lemma numbers_exit : f_zombie x = false → numbers (t_exit T p x code).
Proof.
  intros Hzo. destruct exit_by_pid as [Eb Ef]. constructor; rewrite ?Eb, ?Ef.
  - intros i q. rewrite lookup_delete_Some, (nb_by_pid T HN). setoid_rewrite exit_lookup_Some. split.
    + intros (Hi & z & Hz & Hpid & Hzz). exists (exited q z). split; [by exists z|]. unfold exited. cbn. rewrite decide_False; [done|]. intros ->. congruence.
    + intros (z & (z0 & Hz0 & ->) & Hpid & Hzz). unfold exited in *. cbn in *. destruct (decide (q = p)) as [|Hqp]; [done|]. split; [|by exists z0].
      intros E. apply Hqp. eapply (nb_inj T HN); [done|done|congruence].
  - intros q z r w (z0 & Hq & ->)%exit_lookup_Some (w0 & Hr & ->)%exit_lookup_Some. cbn. by apply (nb_inj T HN).
  - replace (pids_of (t_exit T p x code)) with (pids_of T); [apply HN|]. apply set_eq. intros i. rewrite !elem_of_pids. setoid_rewrite exit_lookup_Some. split.
    + intros (q & z & Hz & Hi). exists q, (exited q z). split; [by exists z|done].
    + intros (q & z & (z0 & Hz0 & ->) & Hi). by exists q, z0.
Qed.

(** The state of every process after the end of [p]. *)
Lemma state_exited q z : fams T !! q = Some z → state_of (t_exit T p x code) (exited q z) = exit_state (f_pid x) code (f_pid z) (state_of T z).
Proof.
  intros Hq. assert (q = p ↔ f_pid z = f_pid x) as Hqp by (split; [intros ->; congruence|by apply (nb_inj T HN)]).
  assert (∀ r w, fams T !! r = Some w → f_pid <$> fams (t_exit T p x code) !! r = f_pid <$> fams T !! r) as Hpid by (intros r w Hr; by rewrite exit_lookup, Hr).
  pose proof (state_parent T HN q z p x Hq Hp) as Hpar. unfold exit_state. destruct (decide (q = p)) as [E|E].
  - rewrite decide_True by by apply Hqp. subst q. assert (z = x) as -> by congruence. unfold state_of, exited. cbn. rewrite !(decide_True (P := p = p)) by done.
    rewrite (decide_False (P := p ∈ _)) by (by apply not_own_child). f_equal. destruct (f_parent x) as [r|] eqn:Hr; [|done]. cbn.
    destruct (parent_lives _ _ _ Hp Hr) as (w & Hw & _). by eapply Hpid.
  - rewrite decide_False by by rewrite <-Hqp. destruct (decide (f_parent z = Some p)) as [Hz|Hz].
    + rewrite decide_True by by apply Hpar. unfold state_of, exited. cbn. rewrite decide_True by by apply (child_iff q z). rewrite !(decide_False (P := q = p)) by done. cbn.
      destruct (lk_init T HT) as (w & Hw & H0 & _). rewrite exit_lookup, Hw. cbn. by rewrite H0.
    + rewrite decide_False by by rewrite Hpar. apply state_of_ext; unfold exited; cbn; rewrite ?(decide_False (P := q = p)) by done; try done.
      * rewrite decide_False; [done|]. by rewrite (child_iff q z).
      * intros r Hr. destruct (parent_lives _ _ _ Hq Hr) as (w & Hw & _). by eapply Hpid.
Qed.

Lemma spec_exit : f_zombie x = false → ptree_inv (t_exit T p x code) ∧ spec_step (table T) (PExit (f_pid x) code) (table (t_exit T p x code)).
Proof.
  intros Hz. pose proof (numbers_exit Hz) as HN'. split; [split; [apply links_exit|done]|]. cbn. split_and!.
  - destruct (lk_init T HT) as (w & Hw & H0 & _). rewrite <-H0. intros E. apply Hpi. by eapply (nb_inj T HN).
  - exists (ps_parent (state_of T x)). apply table_lookup; [done|]. exists p, x. split_and!; [done|done|]. unfold state_of. by rewrite Hz.
  - apply table_ext; [done|]. intros i st. rewrite map_lookup_imap, bind_Some. setoid_rewrite table_lookup; [|done]. setoid_rewrite exit_lookup_Some. split.
    + intros (st0 & (q & z & Hq & <- & ->) & [= <-]). exists q, (exited q z). split_and!; [by exists z|done|]. by rewrite state_exited.
    + intros (q & z' & (z & Hq & ->) & <- & ->). exists (state_of T z). split; [by exists q, z|]. by rewrite state_exited.
Qed.
End Exit.

(** ** A child is reaped *)

Section Reap.
Context (q : Z) (y : Family) (idx : nat) (c : Z) (x : Family) (al : RecycleAllocator).
Context (Hq : fams T !! q = Some y) (Hidx : f_children y !! idx = Some c) (Hc : fams T !! c = Some x) (Hz : f_zombie x = true).

Let y' : Family := mkFamily (f_pid y) (f_zombie y) (f_parent y) (delete idx (f_children y)) (f_code y).

Lemma reap_child : c ∈ f_children y ∧ c ≠ q ∧ c ≠ init T ∧ f_parent x = Some q.
Proof.
  assert (c ∈ f_children y) as Hin by by eapply list_elem_of_lookup_2. destruct (lk_child T HT _ _ _ Hq Hin) as (x' & Hx' & ?). split_and!; [done| | |congruence].
  - intros ->. by apply (not_own_child _ _ Hq).
  - intros ->. by apply (init_not_child _ _ Hq).
Qed.

Lemma reap_children e : e ∈ delete idx (f_children y) ↔ e ∈ f_children y ∧ e ≠ c.
Proof.
  pose proof (lk_nodup T HT _ _ Hq) as Hn. pose proof (take_drop_middle _ _ _ Hidx) as E. rewrite delete_take_drop.
  assert (e ∈ f_children y ↔ e ∈ take idx (f_children y) ∨ e = c ∨ e ∈ drop (Datatypes.S idx) (f_children y)) as ->
    by (rewrite <-E at 1; rewrite elem_of_app, elem_of_cons; done).
  rewrite <-E in Hn. apply NoDup_app in Hn as (_ & H1 & H2). apply NoDup_cons in H2 as [H2 _]. rewrite elem_of_app. set_solver.
Qed.

Lemma reap_lookup p z :
  fams (t_reap T q y idx c al) !! p = Some z ↔ (p = q ∧ z = y') ∨ (p ≠ q ∧ p ≠ c ∧ fams T !! p = Some z).
Proof. destruct reap_child as (_ & Hcq & _). cbn. rewrite lookup_delete_Some, lookup_insert_Some. naive_solver. Qed.

Lemma reap_old p z : p ≠ c → fams T !! p = Some z → ∃ z', fams (t_reap T q y idx c al) !! p = Some z' ∧ f_pid z' = f_pid z ∧ f_zombie z' = f_zombie z ∧
  f_parent z' = f_parent z ∧ (∀ e, e ∈ f_children z' ↔ e ∈ f_children z ∧ e ≠ c).
Proof.
  intros Hpc Hp. destruct (decide (p = q)) as [->|].
  - exists y'. rewrite reap_lookup. assert (z = y) as -> by congruence. split_and!; try done; [by left|]. cbn. apply reap_children.
  - exists z. rewrite reap_lookup. split_and!; try done; [by right|]. intros e. split; [|by intros [??]]. intros He. split; [done|]. intros ->.
    destruct reap_child as (Hin & _). by apply n, (child_unique p z q y c).
Qed.

Lemma links_reap : links (t_reap T q y idx c al).
Proof.
  destruct reap_child as (Hin & Hcq & Hci & Hpar). assert (f_children x = []) as Hnil by by eapply (lk_zombie T HT c).
  assert (∀ p z, fams T !! p = Some z → f_parent z ≠ Some c) as Hno.
  { intros p z Hp Hpc. destruct (parent_lives _ _ _ Hp Hpc) as (x' & Hx' & H & _). assert (x' = x) as -> by congruence. rewrite Hnil in H. set_solver. }
  constructor; change (init (t_reap T q y idx c al)) with (init T).
  - destruct (lk_init T HT) as (z & Hz' & ? & ? & ?). destruct (reap_old (init T) z ltac:(done) Hz') as (z' & ? & ? & ? & ? & _). exists z'. split_and!; [done|congruence..].
  - assert (∀ p z, fams T !! p = Some z → p ≠ c → p ≠ init T → ∃ r w, f_parent z = Some r ∧ fams (t_reap T q y idx c al) !! r = Some w ∧ p ∈ f_children w) as Hpp.
    { intros p z Hp Hpc Hpi. destruct (lk_parent T HT _ _ Hp Hpi) as (r & w & Hr & Hw & Hin'). destruct (reap_old r w) as (w' & Hw' & _ & _ & _ & Hch); [|done|].
      - intros ->. by apply (Hno _ _ Hp).
      - exists r, w'. split_and!; [done|done|]. by apply Hch. }
    intros p z [(-> & ->)|(N1 & N2 & Hp)]%reap_lookup Hpi; [apply (Hpp q y)|apply (Hpp p z)]; done.
  - assert (∀ r w e, fams T !! r = Some w → e ∈ f_children w → e ≠ c → ∃ z, fams (t_reap T q y idx c al) !! e = Some z ∧ f_parent z = Some r) as Hcc.
    { intros r w e Hr He Hec. destruct (lk_child T HT _ _ _ Hr He) as (z & Hz' & Hzp). destruct (reap_old e z Hec Hz') as (z' & ? & _ & _ & ? & _). exists z'. split; [done|congruence]. }
    intros r w e [(-> & ->)|(N1 & N2 & Hr)]%reap_lookup He.
    + cbn in He. apply reap_children in He as [He Hec]. by apply (Hcc q y).
    + apply (Hcc r w); [done..|]. intros ->. by apply N1, (child_unique r w q y c).
  - intros r w [(-> & ->)|(N1 & N2 & Hr)]%reap_lookup; cbn; [|by eapply lk_nodup]. eapply sublist_NoDup; [apply (lk_nodup T HT _ _ Hq)|apply sublist_delete].
  - intros r w [(-> & ->)|(N1 & N2 & Hr)]%reap_lookup; cbn; [|by eapply lk_zombie]. intros H. rewrite (lk_zombie T HT _ _ Hq H). by destruct idx.
  - destruct (lk_rank T HT) as (d & Hd0 & Hd). exists d. split; [done|]. intros p z r [(-> & ->)|(N1 & N2 & Hp)]%reap_lookup; cbn; by apply Hd.
Qed.

Lemma numbers_reap : ra_dealloc (free_pids T) (f_pid x) = Ok al → numbers (t_reap T q y idx c al).
Proof.
  intros Hal. destruct reap_child as (Hin & Hcq & Hci & Hpar).
  assert (f_pid x ∈ pids_of T) as Hx by (apply elem_of_pids; by exists c, x).
  destruct (ra_dealloc_spec _ _ _ (nb_pids T HN) Hx) as (al' & E & Hwf & _). assert (al' = al) as -> by congruence.
  assert (∀ p z, fams (t_reap T q y idx c al) !! p = Some z → ∃ z0, p ≠ c ∧ fams T !! p = Some z0 ∧ f_pid z = f_pid z0 ∧ f_zombie z = f_zombie z0) as Hold.
  { intros p z [(-> & ->)|(N1 & N2 & Hp)]%reap_lookup; [by exists y|by exists z]. }
  constructor.
  - intros i p. change (by_pid (t_reap T q y idx c al)) with (by_pid T). rewrite (nb_by_pid T HN). split.
    + intros (z & Hp & Hi & Hzz). destruct (reap_old p z) as (z' & ? & ? & ? & _); [congruence|done|]. exists z'. split_and!; [done|congruence..].
    + intros (z & Hp & Hi & Hzz). destruct (Hold _ _ Hp) as (z0 & _ & ? & ? & ?). exists z0. split_and!; [done|congruence..].
  - intros p z r w (z0 & _ & Hz0 & Ez & _)%Hold (w0 & _ & Hw0 & Ew & _)%Hold E'. eapply (nb_inj T HN); [done|done|congruence].
  - replace (pids_of (t_reap T q y idx c al)) with (pids_of T ∖ {[f_pid x]}); [done|]. apply set_eq. intros i. rewrite elem_of_difference, elem_of_singleton, !elem_of_pids. split.
    + intros [(p & z & Hp & <-) Hi]. destruct (reap_old p z) as (z' & ? & ? & _); [congruence|done|]. by exists p, z'.
    + intros (p & z & Hp & <-). destruct (Hold _ _ Hp) as (z0 & Hpc & Hz0 & -> & _). split; [by exists p, z0|]. intros E'. by apply Hpc, (nb_inj T HN p z0 c x).
Qed.

Lemma spec_reap : ra_dealloc (free_pids T) (f_pid x) = Ok al → ptree_inv (t_reap T q y idx c al) ∧
  f_pid x ≠ 0 ∧ table T !! f_pid x = Some (mkPState (Some (f_pid y)) (Some (f_code x))) ∧ table (t_reap T q y idx c al) = delete (f_pid x) (table T).
Proof.
  intros Hal. pose proof (numbers_reap Hal) as HN'. destruct reap_child as (Hin & Hcq & Hci & Hpar). split; [split; [apply links_reap|done]|]. split_and!.
  - destruct (lk_init T HT) as (w & Hw & H0 & _). rewrite <-H0. intros E. apply Hci. by eapply (nb_inj T HN).
  - apply table_lookup; [done|]. exists c, x. split_and!; [done|done|]. unfold state_of. rewrite Hz, Hpar. cbn. by rewrite Hq.
  - assert (∀ p z z', fams T !! p = Some z → fams (t_reap T q y idx c al) !! p = Some z' → f_pid z' = f_pid z ∧ state_of (t_reap T q y idx c al) z' = state_of T z) as Hst.
    { intros p z z' Hp Hp'. assert (f_pid z' = f_pid z ∧ f_parent z' = f_parent z ∧ f_zombie z' = f_zombie z ∧ f_code z' = f_code z) as (? & ? & ? & ?).
      { apply reap_lookup in Hp' as [(-> & ->)|(? & ? & ?)]; [by assert (z = y) as -> by congruence|by assert (z' = z) as -> by congruence]. }
      split; [done|]. apply state_of_ext; [done..|]. intros r Hr. destruct (parent_lives _ _ _ Hp Hr) as (w & Hw & Hinw & _). destruct (reap_old r w) as (w' & Hw' & E & _); [|done|].
      - intros ->. assert (w = x) as -> by congruence. rewrite (lk_zombie T HT _ _ Hc Hz) in Hinw. set_solver.
      - rewrite Hw, Hw'. cbn. by rewrite E. }
    apply table_ext; [done|]. intros i st. rewrite lookup_delete_Some, table_lookup by done. split.
    + intros (Hi & p & z & Hp & <- & ->). destruct (reap_old p z) as (z' & Hz' & E & _); [congruence|done|]. destruct (Hst _ _ _ Hp Hz') as [E1 E2]. by exists p, z'.
    + intros (p & z' & Hp' & <- & ->). assert (∃ z, fams T !! p = Some z ∧ p ≠ c) as (z & Hp & Hpc).
      { apply reap_lookup in Hp' as [(-> & ->)|(? & ? & ?)]; [by exists y|by exists z']. }
      destruct (Hst _ _ _ Hp Hp') as [E1 E2]. split; [|by exists p, z; rewrite E1, E2]. rewrite E1. intros E. apply Hpc. by eapply (nb_inj T HN).
Qed.
End Reap.
End Inv.
