(* ===== verification/ProcessSpec.v ===== *)
(** * The process table

    The processes of [Process.v] as a table from numbers to parents and exit codes,
    the calls that change it, and the invariant of the tree of control blocks that
    makes them agree. *)

From stdpp Require Import functions.
From S2P Require Import Prelude Config Address PhysMem FrameAllocator PageTable UserMem MemorySet.
From S2P Require Import FdTable Sched Futex Timer Ids Signals Utf Process Exec ProcessTree Fork.

(** ** The part of the state that processes make up *)

Definition family {File} (x : @ProcessControlBlock File) : Family :=
  mkFamily (pid x) (is_zombie x) (parent x) (children x) (exit_code x).

Section Spec.
Context {A : Type} {FA : FrameAllocator A}.
Context {S File : Type} {PF : ProcFiles S File}.
Context (sym : LinkerSymbols) (trap_handler_addr : Z).
Abbreviation K := (@Kernel A S File).
Implicit Types k : K.

Definition tree_of k : PTree := mkPTree (family <$> pcbs k) (pid2pcb k) (pid_allocator k) (initproc k).

(** The calls that leave processes alone. *)
Definition Keeps {B} (m : ST K B) : Prop := ∀ k, wlp m (fun _ k' => tree_of k' = tree_of k) k.

Lemma keeps_ret {B} (b : B) : Keeps (mret b).
Proof. intros k. by apply wlp_ret. Qed.

Lemma keeps_bind {B C} (m : ST K B) (f : B → ST K C) : Keeps m → (∀ b, Keeps (f b)) → Keeps (m ≫= f).
Proof. intros Hm Hf k. wlp_step. eapply wlp_mono; [apply Hm|]. intros b k1 H1. eapply wlp_mono; [apply Hf|]. cbn. intros _ k2 ->. done. Qed.

Lemma keeps_get : Keeps (get_st (S := K)).
Proof. intros k. by apply wlp_get. Qed.

Lemma keeps_unwrap {B} (o : option B) : Keeps (unwrap o).
Proof. intros k. by apply wlp_unwrap. Qed.

Lemma keeps_assert b : Keeps (rust_assert b).
Proof. intros k. by apply wlp_assert. Qed.

Lemma keeps_lift {B} (o : outcome B) : Keeps (lift o).
Proof. intros k. by apply wlp_lift. Qed.

Lemma keeps_if {B} (b : bool) (m n : ST K B) : Keeps m → Keeps n → Keeps (if b then m else n).
Proof. by destruct b. Qed.

Lemma keeps_fold {B X} (f : B → X → ST K B) b l : (∀ b x, Keeps (f b x)) → Keeps (st_fold f b l).
Proof. intros Hf. revert b. induction l as [|x l IH]; intros b; cbn [st_fold]; [apply keeps_ret|]. apply keeps_bind; [apply Hf|done]. Qed.

Create HintDb keeps discriminated.

(** [keeps] goes through a call; the calls it makes are in the hint database. *)
Ltac keeps_step :=
  lazymatch goal with
  | |- ∀ _, _ => intros ?
  | |- Keeps (mbind _ _) => apply keeps_bind
  | |- Keeps (mret _) => apply keeps_ret
  | |- Keeps (st_fold _ _ _) => apply keeps_fold
  | |- Keeps (if _ then _ else _) => apply keeps_if
  | |- Keeps (match ?x with _ => _ end) => destruct x
  | |- Keeps _ => solve [auto with keeps nocore]
  end.
Ltac keeps := repeat keeps_step.

#[local] Hint Resolve keeps_get keeps_unwrap keeps_assert keeps_lift : keeps.

Lemma keeps_machine {B} (m : ST (Machine A) B) : Keeps (on_machine m).
Proof. intros k b k' E. unfold on_machine, mbind, outcome_bind in E. destruct (m (machine k)) as [[b1 s1]| |]; [|done..]. by injection E as <- <-. Qed.
#[local] Hint Resolve keeps_machine : keeps.

Lemma keeps_files {B} (m : ST S B) : Keeps (on_files m).
Proof. intros k b k' E. unfold on_files, mbind, outcome_bind in E. destruct (m (files k)) as [[b1 s1]| |]; [|done..]. by injection E as <- <-. Qed.
#[local] Hint Resolve keeps_files : keeps.

Lemma keeps_times {B} (m : ST TimerSys B) : Keeps (on_times m).
Proof. intros k b k' E. unfold on_times, mbind, outcome_bind in E. destruct (m (times k)) as [[b1 s1]| |]; [|done..]. by injection E as <- <-. Qed.
#[local] Hint Resolve keeps_times : keeps.

Lemma keeps_sched {B} (m : ST Sched B) : Keeps (on_sched m).
Proof. unfold on_sched. keeps. Qed.
#[local] Hint Resolve keeps_sched : keeps.

Lemma keeps_tcbs v : Keeps (put_tcbs v).
Proof. intros k. by apply wlp_modify. Qed.
#[local] Hint Resolve keeps_tcbs : keeps.

Lemma keeps_kstacks ks al : Keeps (put_kstacks ks al).
Proof. intros k. by apply wlp_modify. Qed.
#[local] Hint Resolve keeps_kstacks : keeps.

Lemma keeps_waiting v : Keeps (put_waiting v).
Proof. intros k. by apply wlp_modify. Qed.
#[local] Hint Resolve keeps_waiting : keeps.

Lemma keeps_get_pcb p : Keeps (get_pcb p).
Proof. unfold get_pcb. keeps. Qed.
#[local] Hint Resolve keeps_get_pcb : keeps.

Lemma keeps_get_tcb t : Keeps (get_tcb t).
Proof. unfold get_tcb. keeps. Qed.
#[local] Hint Resolve keeps_get_tcb : keeps.

(** What writing a control block does to the tree. *)
Lemma wlp_update_pcb p f k (Q : unit → K → Prop) :
  (∀ x k', pcbs k !! p = Some x → pcbs k' = <[p := f x]> (pcbs k) →
     tree_of k' = mkPTree (<[p := family (f x)]> (fams (tree_of k))) (by_pid (tree_of k)) (free_pids (tree_of k)) (init (tree_of k)) → Q tt k') → wlp (update_pcb p f) Q k.
Proof. intros H. unfold update_pcb, get_pcb, put_pcbs. repeat wlp_step. apply (H a); [done|done|]. unfold tree_of. cbn. by rewrite fmap_insert. Qed.

Lemma keeps_update p f : (∀ x, family (f x) = family x) → Keeps (update_pcb p f).
Proof.
  intros Hf k. apply wlp_update_pcb. intros x k' Hx _ ->. rewrite Hf. unfold tree_of. cbn. f_equal. apply insert_id. by rewrite lookup_fmap, Hx.
Qed.

Lemma keeps_update_memory p ms al : Keeps (update_pcb p (set_memory ms al)).
Proof. by apply keeps_update. Qed.
#[local] Hint Resolve keeps_update_memory : keeps.

Lemma keeps_update_files p v : Keeps (update_pcb p (set_files v)).
Proof. by apply keeps_update. Qed.
#[local] Hint Resolve keeps_update_files : keeps.

Lemma keeps_update_tasks p v : Keeps (update_pcb p (set_tasks v)).
Proof. by apply keeps_update. Qed.
#[local] Hint Resolve keeps_update_tasks : keeps.

Lemma keeps_push_task p t : Keeps (update_pcb p (fun x => set_tasks (vec_push (tasks x) t) x)).
Proof. by apply keeps_update. Qed.
#[local] Hint Resolve keeps_push_task : keeps.

Lemma keeps_update_pending p v : Keeps (update_pcb p (fun y => set_pending (Z.lor (p_signals_pending y) v) y)).
Proof. by apply keeps_update. Qed.
#[local] Hint Resolve keeps_update_pending : keeps.

Lemma keeps_update_heap p v : Keeps (update_pcb p (set_heap_end v)).
Proof. by apply keeps_update. Qed.
#[local] Hint Resolve keeps_update_heap : keeps.

Lemma keeps_update_tcb t f : Keeps (update_tcb t f).
Proof. unfold update_tcb. keeps. Qed.
#[local] Hint Resolve keeps_update_tcb : keeps.

Lemma keeps_thread : Keeps current_thread.
Proof. unfold current_thread. keeps. Qed.
#[local] Hint Resolve keeps_thread : keeps.

Lemma keeps_process : Keeps current_process.
Proof. unfold current_process. keeps. Qed.
#[local] Hint Resolve keeps_process : keeps.

Lemma keeps_user_res p r : Keeps (user_res_drop p r).
Proof. unfold user_res_drop. keeps. Qed.
#[local] Hint Resolve keeps_user_res : keeps.

Lemma keeps_release_task t : Keeps (release_task t).
Proof. unfold release_task. keeps. Qed.
#[local] Hint Resolve keeps_release_task : keeps.

Lemma keeps_release_tasks l : Keeps (release_tasks l).
Proof. unfold release_tasks. keeps. Qed.
#[local] Hint Resolve keeps_release_tasks : keeps.

Lemma keeps_drop_descriptors l : Keeps (drop_descriptors l).
Proof. unfold drop_descriptors. keeps. Qed.
#[local] Hint Resolve keeps_drop_descriptors : keeps.

Lemma keeps_kstack_alloc : Keeps k_kstack_alloc.
Proof. unfold k_kstack_alloc. keeps. Qed.
#[local] Hint Resolve keeps_kstack_alloc : keeps.

Lemma keeps_tcb_new p u b1 b2 : Keeps (TaskControlBlock_new p u b1 b2).
Proof. unfold TaskControlBlock_new. keeps. Qed.
#[local] Hint Resolve keeps_tcb_new : keeps.

Lemma keeps_put_cx ppn off v : Keeps (put_cx ppn off v).
Proof. unfold put_cx. keeps. Qed.
#[local] Hint Resolve keeps_put_cx : keeps.

Lemma keeps_init_context s ppn e sp ksp : Keeps (put_init_context trap_handler_addr s ppn e sp ksp).
Proof. unfold put_init_context. keeps. Qed.

#[local] Hint Resolve keeps_init_context : keeps.

Lemma keeps_put_user w p ptr v : Keeps (put_user w p ptr v).
Proof. unfold put_user. keeps. Qed.
#[local] Hint Resolve keeps_put_user : keeps.

Lemma keeps_put_task p t o : Keeps (put_task p t o).
Proof. unfold put_task. keeps. Qed.
#[local] Hint Resolve keeps_put_task : keeps.

Lemma keeps_task_tid t : Keeps (task_tid t).
Proof. unfold task_tid. keeps. Qed.
#[local] Hint Resolve keeps_task_tid : keeps.

Lemma keeps_get_task x t : Keeps (get_task x t).
Proof. unfold get_task. keeps. Qed.
#[local] Hint Resolve keeps_get_task : keeps.

Lemma keeps_clone2 stack tls : Keeps (clone2 stack tls).
Proof. unfold clone2. keeps. Qed.
#[local] Hint Resolve keeps_clone2 : keeps.

Lemma keeps_exit_signal x : Keeps (send_exit_signal x).
Proof. unfold send_exit_signal. keeps. Qed.
#[local] Hint Resolve keeps_exit_signal : keeps.

Lemma keeps_retire l t : Keeps (retire l t).
Proof. unfold retire. keeps. Qed.
#[local] Hint Resolve keeps_retire : keeps.

Lemma keeps_block : Keeps k_block_current.
Proof. unfold k_block_current. keeps. Qed.
#[local] Hint Resolve keeps_block : keeps.

(** The calls that are internal to a process. *)
Lemma keeps_run_tasks : Keeps k_run_tasks.
Proof. unfold k_run_tasks. keeps. Qed.

Lemma keeps_thread_create s e a : Keeps (sys_thread_create trap_handler_addr s e a).
Proof. unfold sys_thread_create. keeps. Qed.

Lemma keeps_waittid t : Keeps (sys_waittid t).
Proof. unfold sys_waittid. keeps. Qed.

Lemma keeps_brk a : Keeps (sys_brk a).
Proof. unfold sys_brk. keeps. Qed.

Lemma keeps_set_tid_address a : Keeps (sys_set_tid_address a).
Proof. unfold sys_set_tid_address. keeps. Qed.

(** ** References *)

Lemma wlp_keeps {B} (m : ST K B) k (Q : B → K → Prop) : Keeps m → (∀ b k', tree_of k' = tree_of k → Q b k') → wlp m Q k.
Proof. intros Hm HQ. eapply wlp_mono; [apply Hm|]. done. Qed.

Lemma wlp_get_pcb p k (Q : ProcessControlBlock → K → Prop) : (∀ x, pcbs k !! p = Some x → Q x k) → wlp (get_pcb p) Q k.
Proof. intros H. unfold get_pcb. repeat wlp_step. by apply H. Qed.

Lemma fams_lookup k p x : pcbs k !! p = Some x → fams (tree_of k) !! p = Some (family x).
Proof. intros H. cbn. by rewrite lookup_fmap, H. Qed.

Lemma fams_lookup_inv k p f : fams (tree_of k) !! p = Some f → ∃ x, pcbs k !! p = Some x ∧ family x = f.
Proof. cbn. rewrite lookup_fmap, fmap_Some. naive_solver. Qed.

Lemma elem_of_concat (p : Z) ls : p ∈ concat ls ↔ ∃ l, p ∈ l ∧ l ∈ ls.
Proof. rewrite list_elem_of_In, in_concat. setoid_rewrite list_elem_of_In. naive_solver. Qed.

Lemma count_zero p l : count p l = 0 ↔ p ∉ l.
Proof.
  unfold count. split.
  - intros H Hin. assert (p ∈ filter (fun c => c = p) l) as Hf by by apply list_elem_of_filter. destruct (filter _ l); [set_solver|cbn in H; lia].
  - intros Hn. destruct (filter (fun c => c = p) l) as [|c l'] eqn:E; [done|]. assert (c ∈ filter (fun c => c = p) l) as [-> Hin]%list_elem_of_filter by (rewrite E; set_solver). done.
Qed.

Lemma strong_count_zero k p : strong_count k p = 0 ↔
  (∀ q y, fams (tree_of k) !! q = Some y → p ∉ f_children y) ∧ (∀ i, by_pid (tree_of k) !! i ≠ Some p) ∧ init (tree_of k) ≠ p.
Proof.
  unfold strong_count. assert (∀ l, 0 ≤ count p l) as Hpos by (intros; unfold count; lia).
  set (a := concat _). set (b := _.*2). specialize (Hpos a) as Ha. specialize (Hpos b) as Hb.
  assert (count p a = 0 ↔ ∀ q y, fams (tree_of k) !! q = Some y → p ∉ f_children y) as <-.
  { rewrite count_zero. unfold a. rewrite elem_of_concat. setoid_rewrite list_elem_of_fmap. setoid_rewrite list_elem_of_fmap. split.
    - intros Hn q y (x & Hx & <-)%fams_lookup_inv Hin. apply Hn. exists (children x). split; [done|]. exists x. split; [done|]. exists (q, x). split; [done|]. by apply elem_of_map_to_list.
    - intros H (l & Hin & x & -> & [q x'] & -> & Hx%elem_of_map_to_list). by apply (H q (family x') (fams_lookup _ _ _ Hx)). }
  assert (count p b = 0 ↔ ∀ i, by_pid (tree_of k) !! i ≠ Some p) as <-.
  { rewrite count_zero. unfold b. rewrite list_elem_of_fmap. split.
    - intros Hn i Hi. apply Hn. exists (i, p). split; [done|]. by apply elem_of_map_to_list.
    - intros H ([i p'] & -> & Hi%elem_of_map_to_list). by apply (H i). }
  cbn. destruct (Z.eqb_spec (initproc k) p); lia.
Qed.

Lemma strong_count_nonneg k p : 0 ≤ strong_count k p.
Proof. unfold strong_count, count. destruct (initproc k =? p); lia. Qed.

(** A process that someone refers to is not dropped. *)
Definition held (T : PTree) (p : Z) : Prop := (∃ q y, fams T !! q = Some y ∧ p ∈ f_children y) ∨ (∃ i, by_pid T !! i = Some p).

Lemma wlp_release_kept_process p k (Q : unit → K → Prop) : held (tree_of k) p → Q tt k → wlp (release_process p) Q k.
Proof.
  intros Hh HQ. unfold release_process. wlp_step. wlp_step. cbn [release_process_loop]. wlp_step. wlp_step.
  assert (strong_count k p ≠ 0) as Hne. { intros (H1 & H2 & _)%strong_count_zero. destruct Hh as [(q & y & Hq & Hin)|[i Hi]]; [by apply (H1 q y)|by apply (H2 i)]. }
  pose proof (strong_count_nonneg k p). rewrite (proj2 (Z.ltb_lt 0 _)) by lia. by wlp_step.
Qed.

(** ** What the calls do to the tree *)

Ltac keep k E := wlp_step; apply wlp_keeps; [keeps|]; intros ? k E.

Lemma alter_Some {V} (f : V → V) (m : gmap Z V) i x : m !! i = Some x → alter f i m = <[i := f x]> m.
Proof.
  intros Hi. apply map_eq. intros j. destruct (decide (i = j)) as [<-|]; [by rewrite lookup_alter_eq, lookup_insert_eq, Hi|by rewrite lookup_alter_ne, lookup_insert_ne].
Qed.

Lemma next_addr_fresh {V} (m : gmap Z V) : m !! next_addr m = None.
Proof.
  assert (∀ a v, m !! a = Some v → a < next_addr m) as H.
  { unfold next_addr. apply (map_fold_weak_ind (fun n m => ∀ a v, m !! a = Some v → a < n)).
    - intros a v. by rewrite lookup_empty.
    - intros b w m' n Hb IH a v [[-> _]|[_ Ha]]%lookup_insert_Some; [lia|]. specialize (IH _ _ Ha). lia. }
  apply eq_None_not_Some. intros [v Hv]. specialize (H _ _ Hv). lia.
Qed.

Lemma wlp_put_pcbs v k (Q : unit → K → Prop) :
  (∀ k', pcbs k' = v → tree_of k' = mkPTree (family <$> v) (by_pid (tree_of k)) (free_pids (tree_of k)) (init (tree_of k)) → Q tt k') → wlp (put_pcbs v) Q k.
Proof. intros H. unfold put_pcbs. wlp_step. by apply H. Qed.

Lemma wlp_pid_alloc k (Q : Z → K → Prop) :
  (∀ i al k', ra_alloc (free_pids (tree_of k)) = (i, al) → tree_of k' = mkPTree (fams (tree_of k)) (by_pid (tree_of k)) al (init (tree_of k)) → Q i k') → wlp k_pid_alloc Q k.
Proof.
  intros H. unfold k_pid_alloc, pid_alloc, put_pids. wlp_step. wlp_step. destruct (ra_alloc (pid_allocator k)) as [i al] eqn:E. repeat wlp_step. by eapply H.
Qed.

Lemma wlp_pid2pcb_insert i p k (Q : unit → K → Prop) :
  (∀ k', tree_of k' = mkPTree (fams (tree_of k)) (<[i := p]> (by_pid (tree_of k))) (free_pids (tree_of k)) (init (tree_of k)) → Q tt k') → wlp (on_pid2pcb (insert_into_pid2process i p)) Q k.
Proof. intros H a k' [= <- <-]. by apply H. Qed.

Lemma wlp_pid2pcb_remove i k (Q : unit → K → Prop) :
  (∀ p k', by_pid (tree_of k) !! i = Some p → pcbs k' = pcbs k → tree_of k' = mkPTree (fams (tree_of k)) (delete i (by_pid (tree_of k))) (free_pids (tree_of k)) (init (tree_of k)) → Q tt k') →
  wlp (on_pid2pcb (remove_from_pid2process i)) Q k.
Proof.
  intros H a k' E. unfold on_pid2pcb, remove_from_pid2process, mbind, st_bind, outcome_bind, get_st, put_st in E. cbn in E.
  destruct (pid2pcb k !! i) as [p|] eqn:Hp; [|done]. injection E as <- <-. by eapply H.
Qed.

Lemma wlp_fork q k :
  wlp (fork sym q) (fun r k' => ∃ y c al, fams (tree_of k) !! q = Some y ∧ fams (tree_of k) !! c = None ∧
    ra_alloc (free_pids (tree_of k)) = (r, al) ∧ tree_of k' = t_fork (tree_of k) q y c r al) k.
Proof.
  unfold fork. wlp_step. apply wlp_get_pcb. intros y Hy. wlp_step. wlp_step. keep k1 E1. wlp_step. apply wlp_pid_alloc. intros i al k2 Hal E2.
  keep k3 E3. keep k4 E4. wlp_step. wlp_step. wlp_step. wlp_step. wlp_step. apply wlp_put_pcbs. intros k5 Hk5 E5. wlp_step. apply wlp_update_pcb. intros z k6 Hz Hk6 E6.
  keep k7 E7. keep k8 E8. keep k9 E9. keep k10 E10. keep k11 E11. keep k12 E12. keep k13 E13. keep k14 E14. wlp_step. apply wlp_pid2pcb_insert. intros k15 E15. keep k16 E16. wlp_step.
  rewrite E16, E15, E14, E13, E12, E11, E10, E9, E8, E7, E6, E5. set (c := next_addr (pcbs k4)) in *.
  assert (tree_of k4 = mkPTree (fams (tree_of k)) (by_pid (tree_of k)) al (init (tree_of k))) as T4 by by rewrite E4, E3, E2, E1.
  assert (fams (tree_of k) !! c = None) as Hc.
  { change (fams (tree_of k)) with (fams (mkPTree (fams (tree_of k)) (by_pid (tree_of k)) al (init (tree_of k)))). rewrite <-T4. cbn. rewrite lookup_fmap. unfold c. by rewrite next_addr_fresh. }
  assert (q ≠ c) as Hqc. { intros ->. rewrite (fams_lookup _ _ _ Hy) in Hc. done. }
  rewrite Hk5, lookup_insert_ne in Hz by done. apply fams_lookup in Hz. rewrite T4 in Hz. cbn [fams] in Hz. rewrite (fams_lookup _ _ _ Hy) in Hz. injection Hz as Hz1 Hz2 Hz3 Hz4 Hz5.
  exists (family y), c, al. split_and!; [by apply fams_lookup|done|by rewrite <-E1|].
  unfold t_fork. rewrite fmap_insert. change (family <$> pcbs k4) with (fams (tree_of k4)). rewrite T4. cbn [fams by_pid free_pids init]. unfold family at 1. cbn. by rewrite Hz1, Hz2, Hz3, Hz4, Hz5.
Qed.

Lemma wlp_adopt c k : wlp (adopt c) (fun _ k' => tree_of k' = t_adopt (tree_of k) c) k.
Proof.
  unfold adopt. wlp_step. wlp_step. wlp_step. apply wlp_update_pcb. intros x k1 Hx _ E1. apply wlp_update_pcb. intros y k2 Hy _ E2.
  rewrite E2. apply fams_lookup in Hx. apply fams_lookup in Hy. rewrite E1 in Hy |- *. cbn [fams by_pid free_pids init] in *. unfold t_adopt.
  rewrite (alter_Some _ (fams (tree_of k)) c (family x) Hx). change (initproc k) with (init (tree_of k)) in *. rewrite (alter_Some _ _ _ (family y)); done.
Qed.

Lemma wlp_adopt_all l k : wlp (st_fold (fun _ c => adopt c) tt l) (fun _ k' => tree_of k' = foldl t_adopt (tree_of k) l) k.
Proof.
  revert k. induction l as [|c l IH]; intros k; cbn [st_fold foldl]; [by wlp_step|]. wlp_step. eapply wlp_mono; [apply wlp_adopt|]. intros [] k1 E1.
  cbn beta in E1. rewrite <-E1. apply IH.
Qed.

Lemma wlp_release_all_held l k (Q : unit → K → Prop) :
  (∀ c, c ∈ l → held (tree_of k) c) → Q tt k → wlp (st_fold (fun _ c => release_process c) tt l) Q k.
Proof.
  intros H HQ. induction l as [|c l IH]; cbn [st_fold]; [by wlp_step|]. wlp_step. apply wlp_release_kept_process; [apply H; set_solver|]. apply IH. intros d Hd. apply H. set_solver.
Qed.

Lemma wlp_end_process p x code k : pcbs k !! p = Some x → ptree_inv (tree_of k) → p ≠ initproc k →
  wlp (end_process p code) (fun _ k' => is_zombie x = false ∧ tree_of k' = t_exit (tree_of k) p (family x) code) k.
Proof.
  intros Hx [HT HN] Hpi. unfold end_process. wlp_step. apply wlp_get_pcb. intros x' Hx'. assert (x' = x) as -> by congruence.
  pose proof (fams_lookup _ _ _ Hx) as Hf. wlp_step. apply wlp_pid2pcb_remove. intros p' k1 Hp' Hk1 E1.
  assert (is_zombie x = false) as Hz.
  { apply (nb_by_pid _ HN) in Hp' as (y & Hy & Hpid & Hz). assert (p' = p) as -> by by eapply (nb_inj _ HN). rewrite Hf in Hy. by injection Hy as <-. }
  wlp_step. apply wlp_update_pcb. intros x1 k2 Hx1 _ E2. assert (x1 = x) as -> by congruence.
  wlp_step. eapply wlp_mono; [apply wlp_adopt_all|]. intros [] k3 E3. cbn beta in E3. keep k4 E4. keep k5 E5.
  wlp_step. apply wlp_update_pcb. intros x5 k6 Hx5 _ E6.
  assert (tree_of k6 = t_exit (tree_of k) p (family x) code) as T6.
  { rewrite E6. apply fams_lookup in Hx5. rewrite E5, E4, E3, E2, E1 in *. cbn [fams by_pid free_pids init] in *. unfold t_exit. rewrite (alter_Some _ _ p (family x5)); [done|exact Hx5]. }
  clear E1 E2 E3 E4 E5 E6. wlp_step. apply wlp_release_all_held.
  { intros c Hc. rewrite T6. destruct (lk_init _ HT) as (w & Hw & _). left. eexists (init (tree_of k)), _. rewrite exit_lookup by done. rewrite Hw. split; [done|].
    unfold exited. cbn [f_children]. rewrite decide_False by (intros E; by apply Hpi). rewrite decide_True by done. set_solver. }
  keep k7 E7. keep k8 E8. keep k9 E9. keep k10 E10. keep k11 E11. case_match. keep k12 E12. keep k13 E13. apply wlp_keeps; [keeps|]. intros [] k14 E14.
  split; [done|]. by rewrite E14, E13, E12, E11, E10, E9, E8, E7.
Qed.

(** The caller of a call is a thread of a process that has not ended. *)
Definition caller k (p : Z) (x : ProcessControlBlock) : Prop :=
  ∃ t tcb, current (tm_sched (times k)) = Some t ∧ tcbs k !! t = Some tcb ∧ process tcb = p ∧ pcbs k !! p = Some x ∧ is_zombie x = false.

Definition main_thread k : bool :=
  bool_decide (Some (Some 0) = (t ← current (tm_sched (times k)); tcb ← tcbs k !! t; Some (tid <$> res tcb))).

Lemma wlp_current_process p x k (Q : Z → K → Prop) : caller k p x → Q p k → wlp current_process Q k.
Proof.
  intros (t & tcb & Ht & Htcb & <- & Hx & _) HQ b k' E. unfold current_process, current_thread, on_sched, on_times, tm_lift, current_task, gets, mbind, st_bind, outcome_bind in E.
  rewrite Ht in E. unfold get_tcb, get_pcb, unwrap, get_st, mbind, st_bind in E. cbn in E. rewrite Htcb in E. cbn in E. rewrite Hx in E. cbn in E. injection E as <- <-. by destruct k as [? ? ? ? ? [] ? ? ? ? ?].
Qed.

Lemma wlp_take_current k (Q : option Z → K → Prop) :
  (∀ k', tree_of k' = tree_of k → pcbs k' = pcbs k → tcbs k' = tcbs k → Q (current (tm_sched (times k))) k') → wlp (on_sched take_current_task) Q k.
Proof. intros H b k' [= <- <-]. by apply H. Qed.

Lemma wlp_exit p x code k : caller k p x → ptree_inv (tree_of k) →
  wlp (exit_current_and_run_next code) (fun r k' =>
    if main_thread k then if pid x =? 0 then r = Some (negb (code =? 0)) else r = None ∧ tree_of k' = t_exit (tree_of k) p (family x) code
    else r = None ∧ tree_of k' = tree_of k) k.
Proof.
  intros (t & tcb & Ht & Htcb & <- & Hx & Hz) [HT HN]. unfold exit_current_and_run_next, main_thread. rewrite Ht. cbn. rewrite Htcb. cbn.
  wlp_step. apply wlp_take_current. intros k1 E1 P1 T1. rewrite Ht. do 2 wlp_step. cbn. wlp_step. injection H as <-. unfold get_tcb. do 3 wlp_step.
  assert (a = tcb) as -> by congruence. wlp_step. apply wlp_get_pcb. intros x' Hx'. assert (x' = x) as -> by congruence.
  keep k2 E2. wlp_step. apply wlp_unwrap. intros r Hr. rewrite Hr. keep k3 E3. keep k4 E4. keep k5 E5.
  assert (tree_of k5 = tree_of k) as T5 by by rewrite E5, E4, E3, E2, E1. clear E1 E2 E3 E4 E5. pose proof (fams_lookup _ _ _ Hx) as Hf.
  destruct (lk_init _ HT) as (xi & Hxi & Hi0 & _ & Hip).
  assert (pid x = 0 ↔ process tcb = init (tree_of k)) as Hpid by (split; [intros E; by eapply (nb_inj _ HN); [exact Hf|exact Hxi|rewrite Hi0]|intros E; rewrite E, Hxi in Hf; by injection Hf as ->]).
  cbn [fmap option_fmap option_map]. destruct (Z.eqb_spec (tid r) 0) as [->|Htid]; cbn [andb].
  - rewrite bool_decide_true by done. unfold IDLE_PID. destruct (Z.eqb_spec (pid x) 0) as [E0|E0]; [by wlp_step|].
    assert (process tcb ≠ init (tree_of k)) as Hne by by rewrite <-Hpid. rewrite <-T5 in Hf. apply fams_lookup_inv in Hf as (x5 & Hx5 & Ex5).
    wlp_step. eapply wlp_mono; [apply (wlp_end_process _ x5); [done|by rewrite T5|]|].
    { intros E. apply Hne. rewrite E. by rewrite <-T5. }
    intros [] k6 [_ E6]. rewrite T5, Ex5 in E6. wlp_step. apply wlp_release_kept_process; [|by wlp_step].
    destruct (lk_parent _ HT _ _ (fams_lookup _ _ _ Hx) Hne) as (q & y & Hq & Hy & Hin). rewrite E6.
    destruct (decide (q = process tcb)) as [->|Hqp]; [by destruct (not_own_child _ HT _ _ Hy Hin)|]. left. eexists q, _. rewrite exit_lookup by (done || by apply fams_lookup). rewrite Hy. split; [done|].
    unfold exited. cbn. rewrite decide_False by done. destruct (decide _); set_solver.
  - rewrite bool_decide_false by congruence. wlp_step. wlp_step. wlp_step. apply wlp_release_kept_process; [|by wlp_step].
    right. exists (pid x). rewrite T5. apply (nb_by_pid _ HN). exists (family x). by split_and!.
Qed.

(** The children of a process with their control blocks. *)
Definition kids k (x : @ProcessControlBlock File) : list (Z * @ProcessControlBlock File) := omap (fun c => pair c <$> pcbs k !! c) (children x).

Lemma kids_lookup k x i c y : (∀ d, d ∈ children x → is_Some (pcbs k !! d)) → kids k x !! i = Some (c, y) ↔ children x !! i = Some c ∧ pcbs k !! c = Some y.
Proof.
  unfold kids. revert i. induction (children x) as [|d l IH]; intros i H; [cbn; rewrite !lookup_nil; naive_solver|]. cbn. destruct (H d) as [z Hz]; [set_solver|]. rewrite Hz. cbn.
  destruct i as [|i]; cbn; [|apply IH; set_solver]. split; [by intros [= <- <-]|]. by intros [[= <-] ?]; simplify_eq.
Qed.

Lemma read_kids k l acc : (∀ d, d ∈ l → is_Some (pcbs k !! d)) →
  st_fold (fun l c => y ← get_pcb c; mret (vec_push l (c, y))) acc l k = Ok (acc ++ omap (fun c => pair c <$> pcbs k !! c) l, k).
Proof.
  revert acc. induction l as [|d l IH]; intros acc H; [by cbn; rewrite app_nil_r|]. destruct (H d) as [z Hz]; [set_solver|].
  cbn [st_fold omap list_omap]. unfold mbind, st_bind, get_pcb, get_st, unwrap, mbind, st_bind. rewrite Hz. cbn. rewrite IH by set_solver. unfold vec_push. by rewrite <-app_assoc.
Qed.

Section Wait.
Context (k : K) (p : Z) (x : @ProcessControlBlock File) (Hcall : caller k p x) (HT : links (tree_of k)) (HN : numbers (tree_of k)).

Lemma caller_family : fams (tree_of k) !! p = Some (family x).
Proof. destruct Hcall as (t & tcb & _ & _ & _ & Hx & _). by apply fams_lookup. Qed.

Lemma kids_there d : d ∈ children x → is_Some (pcbs k !! d).
Proof. intros Hd. destruct (lk_child _ HT _ _ d caller_family Hd) as (f & Hf & _). apply fams_lookup_inv in Hf as (y & Hy & _). by exists y. Qed.

(** A child is a process whose parent has the number of the caller. *)
Lemma kid_table i st : table (tree_of k) !! i = Some st ∧ ps_parent st = Some (pid x) ↔
  ∃ c y, (c, y) ∈ kids k x ∧ pid y = i ∧ st = state_of (tree_of k) (family y).
Proof.
  rewrite table_lookup by done. split.
  - intros [(c & f & Hf & Hi & ->) Hp]. apply (state_parent _ HN c f p (family x) Hf caller_family) in Hp. destruct (parent_lives _ HT HN _ _ _ Hf Hp) as (f' & Hf' & Hin & _).
    rewrite caller_family in Hf'. injection Hf' as <-. apply fams_lookup_inv in Hf as (y & Hy & <-). exists c, y. split_and!; [|done|done].
    apply list_elem_of_lookup in Hin as [j Hj]. apply list_elem_of_lookup. exists j. apply kids_lookup; [apply kids_there|done].
  - intros (c & y & Hin & Hi & ->). apply list_elem_of_lookup in Hin as [j Hj]. apply kids_lookup in Hj as [Hj Hy]; [|apply kids_there].
    split; [by exists c, (family y); rewrite (fams_lookup _ _ _ Hy)|]. apply (state_parent _ HN c (family y) p (family x)); [by apply fams_lookup|apply caller_family|].
    destruct (lk_child _ HT _ _ c caller_family) as (f & Hf & Hpar); [by eapply list_elem_of_lookup_2|]. rewrite (fams_lookup _ _ _ Hy) in Hf. by injection Hf as <-.
Qed.

Definition reap (ptr : Z) (idx : nat) (c : Z) (y : @ProcessControlBlock File) : ST K (option Z) :=
  update_pcb p (fun x => set_family (parent x) (delete idx (children x)) x);;
  k ← get_st;
  rust_assert (strong_count k c + 1 =? 1);;
  put_user 4 p ptr (exit_code y);;
  release_process c;;
  mret (Some (pid y)).

(** [sys_wait4] up to the choice of the child. *)
Lemma wait4_choice id ptr options o : WaitOption_from_bits options = Some o →
  sys_wait4 id ptr options k =
    if negb (existsb (fun cy => selects id cy.2) (kids k x)) then Ok (Some ECHILD, k)
    else match list_find (fun cy => is_zombie cy.2 && selects id cy.2) (kids k x) with
         | Some (idx, (c, y)) => reap ptr idx c y k
         | None => (if flags_contains o WNOHANG then mret (Some SUCCESS) else k_block_current;; mret None) k
         end.
Proof.
  intros Ho. destruct Hcall as (t & tcb & Ht & Htcb & Hp & Hx & _). unfold sys_wait4. rewrite Ho. cbn [unwrap]. unfold mbind at 1, st_bind. cbn.
  unfold current_process, current_thread, on_sched, on_times, tm_lift, current_task, gets, mbind, st_bind, outcome_bind. rewrite Ht.
  unfold get_tcb, get_pcb, unwrap, get_st, mbind, st_bind. cbn. rewrite Htcb. cbn. rewrite Hp, Hx. cbn. rewrite Hx. cbn.
  replace (mkKernel (machine k) (files k) (kernel_space k) (pid_allocator k) (kstack_allocator k) (mkTimerSys (tm_sched (times k)) (timers (times k))) (pid2pcb k) (pcbs k) (tcbs k)
    (waiting k) (initproc k)) with k by by destruct k as [? ? ? ? ? [] ? ? ? ? ?].
  pose proof (read_kids k (children x) [] kids_there) as E. unfold get_pcb, unwrap, get_st, mbind, st_bind in E. rewrite E. cbn [app]. fold (kids k x).
  destruct (negb _); [done|]. destruct (list_find _ _) as [[idx [c y]]|]; [done|]. by destruct (flags_contains _ _).
Qed.

Section Reaped.
Context (ptr : Z) (idx : nat) (c : Z) (y : @ProcessControlBlock File).
Context (Hkid : kids k x !! idx = Some (c, y)) (Hz : is_zombie y = true).

Lemma kid_facts : children x !! idx = Some c ∧ pcbs k !! c = Some y.
Proof. apply kids_lookup; [apply kids_there|done]. Qed.

(** The assertion of [sys_wait4] holds: nobody else refers to the child. *)
Lemma reaped_unreferenced k1 :
  tree_of k1 = mkPTree (<[p := family (set_family (parent x) (delete idx (children x)) x)]> (fams (tree_of k))) (by_pid (tree_of k)) (free_pids (tree_of k)) (init (tree_of k)) →
  strong_count k1 c = 0.
Proof.
  intros E. destruct kid_facts as [Hi Hy]. pose proof (fams_lookup _ _ _ Hy) as Hf. destruct (reap_child _ HT p (family x) idx c (family y) caller_family Hi Hf) as (Hin & Hcp & Hci & Hpar).
  apply strong_count_zero. rewrite E. cbn [fams by_pid init]. split_and!; [| |done].
  - intros q z [[<- <-]|[Hq Hqz]]%lookup_insert_Some; cbn.
    + intros Hd%(reap_children _ HT HN p (family x) idx c (family y) caller_family Hi Hf Hz). naive_solver.
    + intros Hd. by apply Hq, (child_unique _ HT p (family x) q z c caller_family Hqz).
  - intros i Hb. apply (nb_by_pid _ HN) in Hb as (f & Hff & _ & Hzf). rewrite Hf in Hff. injection Hff as <-. cbn in Hzf. by rewrite Hz in Hzf.
Qed.

Lemma wlp_reap : wlp (reap ptr idx c y) (fun r k' => r = Some (pid y) ∧ ∃ al, ra_dealloc (free_pids (tree_of k)) (pid y) = Ok al ∧
  tree_of k' = t_reap (tree_of k) p (family x) idx c al) k.
Proof.
  destruct kid_facts as [Hi Hy]. pose proof (fams_lookup _ _ _ Hy) as Hf. destruct (reap_child _ HT p (family x) idx c (family y) caller_family Hi Hf) as (_ & Hcp & _).
  unfold reap. wlp_step. apply wlp_update_pcb. intros x1 k1 Hx1 _ E1. destruct Hcall as (? & ? & _ & _ & _ & Hx & _). assert (x1 = x) as -> by congruence.
  wlp_step. wlp_step. wlp_step. wlp_step. keep k2 E2. wlp_step. unfold release_process. wlp_step. wlp_step. cbn [release_process_loop]. wlp_step. wlp_step.
  rewrite (reaped_unreferenced k2) by by rewrite E2. cbn [Z.ltb Z.compare]. wlp_step. apply wlp_get_pcb. intros y2 Hy2.
  assert (family y2 = family y) as Ey. { apply fams_lookup in Hy2. rewrite E2, E1 in Hy2. cbn [fams] in Hy2. rewrite lookup_insert_ne, Hf in Hy2 by done. congruence. }
  assert (children y2 = []) as Hch. { change (f_children (family y2) = []). rewrite Ey. by apply (lk_zombie _ HT c). }
  wlp_step. apply wlp_put_pcbs. intros k3 P3 E3. wlp_step. wlp_step. rename a into al. wlp_step. unfold put_pids at 1. wlp_step. keep k5 E5. rewrite Hch. wlp_step. cbn [st_fold]. wlp_step.
  keep k6 E6. keep k7 E7. keep k8 E8. apply wlp_keeps; [keeps|]. intros [] k9 E9. wlp_step. split; [done|]. exists al.
  change (pid_allocator k2) with (free_pids (tree_of k2)) in H0. rewrite E2, E1 in H0. cbn [free_pids] in H0. injection Ey as Epid _ _ _ _. rewrite Epid in H0. split; [exact H0|].
  rewrite E9, E8, E7, E6, E5. unfold tree_of at 1. cbn. unfold t_reap. rewrite P3, fmap_delete. change (family <$> pcbs k2) with (fams (tree_of k2)).
  injection E3 as _ -> _ ->. change (pid2pcb k2) with (by_pid (tree_of k2)). change (initproc k2) with (init (tree_of k2)). by rewrite E2, E1.
Qed.
End Reaped.
End Wait.

(** ** Executions *)

Section Executions.
Context {EF : ExecFiles S File} (elf_new : list Z → option ElfFile).

(** Loading a program changes its address space and not its place among the others. *)
Lemma keeps_kernel_space m : Keeps (on_kernel_space m).
Proof. unfold on_kernel_space. keeps. Qed.
#[local] Hint Resolve keeps_kernel_space : keeps.

Lemma keeps_map_to_kernel_space fd a : Keeps (map_to_kernel_space fd a).
Proof. unfold map_to_kernel_space. keeps. Qed.
#[local] Hint Resolve keeps_map_to_kernel_space : keeps.

Lemma keeps_unmap_from_kernel_space a : Keeps (unmap_from_kernel_space a).
Proof. unfold unmap_from_kernel_space. keeps. Qed.
#[local] Hint Resolve keeps_unmap_from_kernel_space : keeps.

Lemma keeps_panic {B} : Keeps (panic (A := B)).
Proof. intros k. apply wlp_panic. Qed.
#[local] Hint Resolve keeps_panic : keeps.

Lemma keeps_slice {B} (l : list B) a b : Keeps (slice l a b).
Proof. unfold slice. keeps. Qed.
#[local] Hint Resolve keeps_slice : keeps.

Lemma keeps_load_header elf ld i : Keeps (load_header elf_new elf ld i).
Proof. unfold load_header. keeps. Qed.
#[local] Hint Resolve keeps_load_header : keeps.

Lemma keeps_from_elf data : Keeps (from_elf sym elf_new data).
Proof. unfold from_elf. keeps. Qed.
#[local] Hint Resolve keeps_from_elf : keeps.

Lemma keeps_update_program p b e : Keeps (update_pcb p (set_heap b e)).
Proof. by apply keeps_update. Qed.
#[local] Hint Resolve keeps_update_program : keeps.

Lemma keeps_update_exe p v : Keeps (update_pcb p (set_self_exe v)).
Proof. by apply keeps_update. Qed.
#[local] Hint Resolve keeps_update_exe : keeps.

Lemma keeps_replace_memory p ms : Keeps (replace_memory p ms).
Proof. unfold replace_memory. keeps. Qed.
#[local] Hint Resolve keeps_replace_memory : keeps.

Lemma keeps_exec s p fd argv envp : Keeps (exec sym trap_handler_addr s elf_new p fd argv envp).
Proof. unfold exec. keeps. Qed.
#[local] Hint Resolve keeps_exec : keeps.

Lemma keeps_read_strings n tok a v : Keeps (read_strings n tok a v).
Proof. revert a v. induction n as [|n IH]; intros a v; cbn [read_strings]; [intros k; apply wlp_out_of_fuel|]. keeps. Qed.
#[local] Hint Resolve keeps_read_strings : keeps.

Lemma keeps_execve s n path args envp : Keeps (sys_execve sym trap_handler_addr s elf_new n path args envp).
Proof. unfold sys_execve. keeps. Qed.

Lemma keeps_mmap start len flags fd off : Keeps (sys_mmap start len flags fd off).
Proof. unfold sys_mmap, process_mmap. keeps. Qed.

Lemma keeps_munmap start len : Keeps (sys_munmap start len).
Proof. unfold sys_munmap. keeps. Qed.

Lemma keeps_mprotect a len prot : Keeps (sys_mprotect a len prot).
Proof. unfold sys_mprotect. keeps. Qed.

(** The first process is made when there is none, and is [INITPROC]. *)
Definition booted k : Prop := ∃ k0 sstatus ms heap top entry p k1,
  pcbs k0 = ∅ ∧ pid2pcb k0 = ∅ ∧ pid_allocator k0 = RecycleAllocator_new ∧
  ProcessControlBlock_new trap_handler_addr sstatus ms heap top entry k0 = Ok (p, k1) ∧ put_initproc p k1 = Ok (tt, k).

(** A thread of the current process is asked for. *)
Definition wants_thread (flags : Z) : bool := flags_contains (wrap32 (Z.ldiff flags CSIGNAL)) CLONE_THREAD.

Inductive kernel_step : K → pevent → K → Prop :=
  | ks_fork k p x flags stack ptid tls ctid r k' :
      caller k p x → wants_thread flags = false → ra_current (pid_allocator k) < 2 ^ 64 - 2 →
      sys_clone sym flags stack ptid tls ctid k = Ok (r, k') → kernel_step k (PFork (pid x) r) k'
  | ks_clone k flags stack ptid tls ctid r k' :
      wants_thread flags = true → sys_clone sym flags stack ptid tls ctid k = Ok (r, k') → kernel_step k PInternal k'
  | ks_exit k p x code k' :
      caller k p x → exit_current_and_run_next code k = Ok (None, k') → kernel_step k (if main_thread k then PExit (pid x) code else PInternal) k'
  | ks_wait k p x id ptr options r k' :
      caller k p x → sys_wait4 id ptr options k = Ok (r, k') → kernel_step k (PWait (pid x) id r) k'
  | ks_run k k' : k_run_tasks k = Ok (tt, k') → kernel_step k PInternal k'
  | ks_thread_create k sstatus entry arg r k' : sys_thread_create trap_handler_addr sstatus entry arg k = Ok (r, k') → kernel_step k PInternal k'
  | ks_waittid k t r k' : sys_waittid t k = Ok (r, k') → kernel_step k PInternal k'
  | ks_set_tid_address k a r k' : sys_set_tid_address a k = Ok (r, k') → kernel_step k PInternal k'
  | ks_brk k a r k' : sys_brk a k = Ok (r, k') → kernel_step k PInternal k'
  | ks_execve k sstatus fuel path args envp r k' : sys_execve sym trap_handler_addr sstatus elf_new fuel path args envp k = Ok (r, k') → kernel_step k PInternal k'
  | ks_mmap k start len flags fd off r k' : sys_mmap start len flags fd off k = Ok (r, k') → kernel_step k PInternal k'
  | ks_munmap k start len r k' : sys_munmap start len k = Ok (r, k') → kernel_step k PInternal k'
  | ks_mprotect k addr len prot r k' : sys_mprotect addr len prot k = Ok (r, k') → kernel_step k PInternal k'
  | ks_other k k' : tree_of k' = tree_of k → kernel_step k PInternal k'.

Inductive kernel_run : K → list pevent → K → Prop :=
  | kr_nil k : kernel_run k [] k
  | kr_cons k e k1 es k' : kernel_step k e k1 → kernel_run k1 es k' → kernel_run k (e :: es) k'.

Lemma booted_tree k : booted k → ∃ p al, tree_of k = t_boot p al ∧ ra_wf al {[0]}.
Proof.
  intros (k0 & sstatus & ms & heap & top & entry & p & k1 & Hp & Hb & Ha & E & Ei).
  assert (wlp (ProcessControlBlock_new trap_handler_addr sstatus ms heap top entry)
    (fun p k1 => ∃ f al, ra_alloc RecycleAllocator_new = (f_pid f, al) ∧ tree_of k1 = mkPTree {[p := mkFamily (f_pid f) false None [] 0]} {[f_pid f := p]} al (initproc k0)) k0) as H.
  { unfold ProcessControlBlock_new. wlp_step. apply wlp_pid_alloc. intros i al k2 Hal E2. keep k3 E3. wlp_step. wlp_step. wlp_step. wlp_step. wlp_step. apply wlp_put_pcbs. intros k4 P4 E4.
    keep k5 E5. keep k6 E6. keep k7 E7. keep k8 E8. wlp_step. apply wlp_pid2pcb_insert. intros k9 E9. keep k10 E10. wlp_step.
    exists (mkFamily i false None [] 0), al. split; [by rewrite <-Ha|]. rewrite E10, E9, E8, E7, E6, E5, E4. cbn [fams by_pid free_pids init f_pid].
    assert (tree_of k3 = mkPTree ∅ ∅ al (initproc k0)) as T3 by (rewrite E3, E2; unfold tree_of; cbn; by rewrite Hp, Hb, fmap_empty).
    rewrite fmap_insert. change (family <$> pcbs k3) with (fams (tree_of k3)). rewrite T3. done. }
  destruct (H _ _ E) as (f & al & Hal & ET). injection Hal as Hf <-. exists p, (mkRecycleAllocator 1 []). split.
  - injection Ei as <-. unfold tree_of, t_boot. injection ET as E1 E2 E3 _. cbn. rewrite E1, E2, E3, <-Hf. done.
  - constructor; cbn; [constructor|lia| |set_solver]. intros id. rewrite elem_of_singleton. set_solver by lia.
Qed.

Lemma clone_bits bits fl : CloneFlags_from_bits bits = Some fl → fl = bits.
Proof. unfold CloneFlags_from_bits, flags_from_bits. case_match; by intros [= <-]. Qed.

Lemma clone_fork p x k flags stack ptid tls ctid : caller k p x → wants_thread flags = false →
  wlp (sys_clone sym flags stack ptid tls ctid) (fun r k' => fork sym p k = Ok (r, k')) k.
Proof.
  intros Hc Hf. unfold sys_clone. wlp_step. eapply wlp_current_process; [done|]. wlp_step. wlp_step. wlp_step. apply wlp_unwrap. intros fl Hfl. apply clone_bits in Hfl as ->.
  unfold wants_thread in Hf. rewrite Hf. cbn [negb]. wlp_step. wlp_step. intros r k' E. done.
Qed.

Lemma keeps_clone k flags stack ptid tls ctid r k' : wants_thread flags = true → sys_clone sym flags stack ptid tls ctid k = Ok (r, k') → tree_of k' = tree_of k.
Proof.
  intros Hf E. enough (wlp (sys_clone sym flags stack ptid tls ctid) (fun _ k' => tree_of k' = tree_of k) k) as H by by eapply H.
  unfold sys_clone. keep k1 E1. wlp_step. wlp_step. wlp_step. apply wlp_unwrap. intros fl Hfl. apply clone_bits in Hfl as ->.
  unfold wants_thread in Hf. rewrite Hf. cbn [negb]. apply wlp_keeps; [keeps|]. intros _ k2 E2. by rewrite E2.
Qed.

(** [sys_wait4] as the table has it. *)
Lemma wait_for_selects id (y : @ProcessControlBlock File) : selects id y = true ↔ wait_for id (pid y).
Proof. unfold selects, wait_for. rewrite orb_true_iff, !Z.eqb_eq. done. Qed.

Lemma spec_wait k p x id ptr options r k' : caller k p x → ptree_inv (tree_of k) → sys_wait4 id ptr options k = Ok (r, k') →
  ptree_inv (tree_of k') ∧ wait_spec (pid x) id r (table (tree_of k)) (table (tree_of k')).
Proof.
  intros Hc [HT HN] E. destruct (WaitOption_from_bits options) as [o|] eqn:Ho; [|by unfold sys_wait4 in E; rewrite Ho in E].
  rewrite (wait4_choice k p x Hc HT HN id ptr options o Ho) in E. destruct (existsb _ _) eqn:Hex; cbn [negb] in E.
  - apply existsb_exists in Hex as ([c y] & Hin%list_elem_of_In & Hsel%wait_for_selects). cbn in Hsel. destruct (list_find _ _) as [[idx [c' y']]|] eqn:Hfind.
    + apply list_find_Some in Hfind as (Hl & [Hz Hs]%andb_prop_elim & _). apply Is_true_true in Hz, Hs. cbn in Hz, Hs.
      destruct (wlp_reap k p x Hc HT HN ptr idx c' y' Hl Hz _ _ E) as (-> & al & Hal & ET). destruct (kid_facts k p x Hc HT idx c' y' Hl) as [Hi Hy].
      destruct (spec_reap _ HT HN p (family x) idx c' (family y') al (caller_family k p x Hc) Hi (fams_lookup _ _ _ Hy) Hz Hal) as (Hinv & H0 & Htab & Hdel).
      rewrite ET. split; [done|]. right; right. exists (pid y'), (exit_code y'). split_and!; [done|done|done|by apply wait_for_selects|done].
    + assert (tree_of k' = tree_of k ∧ (r = Some 0 ∨ r = None)) as [-> Hr].
      { destruct (flags_contains o WNOHANG); [injection E as <- <-; by split; [|left]|]. enough (wlp (k_block_current;; mret None) (fun r k' => tree_of k' = tree_of k ∧ (r = Some 0 ∨ r = None)) k) as H by by eapply H.
        keep k1 E1. wlp_step. by split; [|right]. }
      split; [done|]. right; left. split_and!; [done|done| |].
      * destruct (proj2 (kid_table k p x Hc HT HN (pid y) (state_of (tree_of k) (family y)))) as [H1 H2]; [by exists c, y|]. by exists (pid y), (state_of (tree_of k) (family y)).
      * intros i st Hi Hpar Hw. destruct (proj1 (kid_table k p x Hc HT HN i st) (conj Hi Hpar)) as (c1 & y1 & Hin1 & <- & ->). cbn. destruct (is_zombie y1) eqn:Hz; [|done].
        exfalso. eapply list_find_None in Hfind; rewrite Forall_forall in Hfind; apply (Hfind _ Hin1). cbn. rewrite Hz. cbn. apply Is_true_true, wait_for_selects, Hw.
  - injection E as <- <-. split; [done|]. left. split_and!; [done|done|]. intros i st Hi Hpar Hw. destruct (proj1 (kid_table k p x Hc HT HN i st) (conj Hi Hpar)) as (c & y & Hin & <- & _).
    apply not_true_iff_false in Hex. apply Hex, existsb_exists. exists (c, y). split; [by apply list_elem_of_In|]. by apply wait_for_selects.
Qed.

Lemma kernel_step_refines k e k' : kernel_step k e k' → ptree_inv (tree_of k) → ptree_inv (tree_of k') ∧ spec_step (table (tree_of k)) e (table (tree_of k')).
Proof.
  intros Hs HI. destruct Hs as [k p x flags stack ptid tls ctid r k' Hc Hf Hb E|k flags stack ptid tls ctid r k' Hf E|k p x code k' Hc E|k p x id ptr options r k' Hc E
    |k k' E|k sstatus entry arg r k' E|k t r k' E|k a r k' E|k a r k' E
    |k sstatus fuel path args envp r k' E|k start len fl fd off r k' E|k start len r k' E|k addr len prot r k' E|k k' E].
  - apply (clone_fork p x k flags stack ptid tls ctid Hc Hf) in E. apply wlp_fork in E as (y & c & al & Hy & Hcn & Hal & ->).
    rewrite (caller_family k p x Hc) in Hy. injection Hy as <-. destruct Hc as (? & ? & _ & _ & _ & Hx & Hz), HI as [HT HN].
    by apply (spec_fork _ HT HN p (family x) c r al (fams_lookup _ _ _ Hx) Hz Hcn Hal Hb).
  - apply keeps_clone in E; [|done]. by rewrite E.
  - apply (wlp_exit p x code k Hc HI) in E. destruct (main_thread k); [|by destruct E as [_ ->]]. destruct (Z.eqb_spec (pid x) 0) as [H0|H0]; [done|]. destruct E as [_ ->].
    destruct Hc as (? & ? & _ & _ & _ & Hx & Hz), HI as [HT HN]. apply (spec_exit _ HT HN p (family x) code (fams_lookup _ _ _ Hx)); [|done].
    intros Hpi. destruct (lk_init _ HT) as (w & Hw & Hw0 & _). rewrite <-Hpi, (fams_lookup _ _ _ Hx) in Hw. by injection Hw as <-.
  - by eapply spec_wait.
  - apply keeps_run_tasks in E. by rewrite E.
  - apply keeps_thread_create in E. by rewrite E.
  - apply keeps_waittid in E. by rewrite E.
  - apply keeps_set_tid_address in E. by rewrite E.
  - apply keeps_brk in E. by rewrite E.
  - apply keeps_execve in E. by rewrite E.
  - apply keeps_mmap in E. by rewrite E.
  - apply keeps_munmap in E. by rewrite E.
  - apply keeps_mprotect in E. by rewrite E.
  - by rewrite E.
Qed.

Lemma boot_table p al : table (t_boot p al) = {[0 := mkPState None None]}.
Proof. unfold table. cbn. by rewrite map_to_list_singleton. Qed.

Lemma kernel_run_refines k es k' : kernel_run k es k' → ptree_inv (tree_of k) → ptree_inv (tree_of k') ∧ spec_run (table (tree_of k)) es (table (tree_of k')).
Proof.
  intros Hr. induction Hr as [k|k e k1 es k' Hs Hr IH]; intros HI; [by split; [|constructor]|].
  destruct (kernel_step_refines _ _ _ Hs HI) as [HI1 Hs1]. destruct (IH HI1) as [HI' Hr']. split; [done|]. by econstructor.
Qed.

(** C3: processes behave as a table from numbers to parents and exit codes.  In
    every execution from the start of the kernel, in which threads, [execve], [brk],
    the calls on mappings and any steps that leave the links between processes alone
    may come in between, and fewer than [2 ^ 64 - 2] numbers have been given out,
    [fork] adds a process with a new number as a child of the caller, the end of
    the main thread of a process records its exit code and gives its children to
    the first process, and [wait4] returns [ECHILD] only if the caller has no such
    child, waits or returns 0 only if it has one but none that has ended, and
    otherwise removes one that has ended and returns its number.  The control
    blocks form a tree below the first process whose links agree. *)
Theorem process_table_refines k es k' :
  booted k → kernel_run k es k' → ptree_inv (tree_of k') ∧ spec_run {[0 := mkPState None None]} es (table (tree_of k')).
Proof.
  intros (p & al & ET & Hal)%booted_tree Hr. rewrite <-(boot_table p al), <-ET. apply kernel_run_refines; [done|]. rewrite ET. by apply ptree_inv_boot.
Qed.

End Executions.

(** C20: [wait4] takes the first child that it waits for and that has ended.  The
    kernel's assertion that nobody else refers to that child holds; the exit code
    is stored where the caller asked for it, the child is dropped, and its number
    is returned. *)
Theorem wait4_reaps_child k p x id ptr options o idx c y :
  ptree_inv (tree_of k) → caller k p x → WaitOption_from_bits options = Some o →
  kids k x !! idx = Some (c, y) → is_zombie y = true → selects id y = true →
  (∀ j c' y', (j < idx)%nat → kids k x !! j = Some (c', y') → is_zombie y' && selects id y' = false) →
  ∃ k1, pcbs k1 = <[p := set_family (parent x) (delete idx (children x)) x]> (pcbs k) ∧ strong_count k1 c = 0 ∧
    sys_wait4 id ptr options k = (put_user 4 p ptr (exit_code y);; release_process c;; mret (Some (pid y))) k1.
Proof.
  intros [HT HN] Hc Ho Hkid Hz Hs Hfirst. assert (list_find (fun cy => is_zombie cy.2 && selects id cy.2) (kids k x) = Some (idx, (c, y))) as Hfind.
  { apply list_find_Some. split; [done|]. split; [cbn [snd]; by rewrite Hz, Hs|]. intros j [c' y'] Hj Hlt Htrue. apply Is_true_true in Htrue. cbn [snd] in Htrue. rewrite (Hfirst j c' y' Hlt Hj) in Htrue. done. }
  assert (existsb (fun cy => selects id cy.2) (kids k x) = true) as Hex by (apply existsb_exists; exists (c, y); split; [eapply list_elem_of_In, list_elem_of_lookup_2, Hkid|done]).
  destruct Hc as (t & tcb & Ht & Htcb & Hp & Hx & Hzx). assert (caller k p x) as Hc by by exists t, tcb.
  exists (mkKernel (machine k) (files k) (kernel_space k) (pid_allocator k) (kstack_allocator k) (times k) (pid2pcb k)
    (<[p := set_family (parent x) (delete idx (children x)) x]> (pcbs k)) (tcbs k) (waiting k) (initproc k)).
  split_and!; [done| |].
  - eapply (reaped_unreferenced k p x Hc HT HN idx c y Hkid Hz). unfold tree_of. cbn. by rewrite fmap_insert.
  - rewrite (wait4_choice k p x Hc HT HN id ptr options o Ho), Hex, Hfind. cbn [negb]. unfold reap. 
    assert (update_pcb p (fun x => set_family (parent x) (delete idx (children x)) x) k = put_pcbs (<[p := set_family (parent x) (delete idx (children x)) x]> (pcbs k)) k) as Eu.
    { unfold update_pcb, get_pcb, mbind, st_bind, get_st, unwrap. by rewrite Hx. }
    unfold mbind at 1, st_bind. rewrite Eu. cbn [put_pcbs modify]. unfold mbind at 1, st_bind. cbn [get_st]. unfold mbind at 1, st_bind.
    erewrite reaped_unreferenced; [reflexivity|exact Hc|exact HT|exact HN|exact Hkid|exact Hz|]. unfold tree_of. cbn. by rewrite fmap_insert.
Qed.

(** ** Running the model *)

Definition returned {B} (o : outcome (B * K)) : option B := match o with Ok (b, _) => Some b | _ => None end.
Definition after_call {B} (d : K) (o : outcome (B * K)) : K := match o with Ok (_, k) => k | _ => d end.

Lemma returned_Ok {B} d (o : outcome (B * K)) b : returned o = Some b → o = Ok (b, after_call d o).
Proof. destruct o as [[b' k]| |]; [|done..]. by intros [= ->]. Qed.

Definition calling k : option (Z * @ProcessControlBlock File) :=
  t ← current (tm_sched (times k)); tcb ← tcbs k !! t; x ← pcbs k !! process tcb;
  if is_zombie x then None else Some (process tcb, x).

Lemma calling_caller k p x : calling k = Some (p, x) → caller k p x.
Proof.
  unfold calling. destruct (current _) as [t|] eqn:Ht; [|done]. cbn. destruct (tcbs k !! t) as [tcb|] eqn:Htcb; [|done]. cbn.
  destruct (pcbs k !! process tcb) as [z|] eqn:Hx; [|done]. cbn. destruct (is_zombie z) eqn:Hz; [done|]. intros [= <- <-]. by exists t, tcb.
Qed.
End Spec.

(** ** An execution

    The first process forks, waits for the child, and gets its exit code.  Files
    are a count of references.  Before that the stack is cut to one page, so that
    there is little to copy. *)

#[local] Instance counted_files : ProcFiles Z Z := {
  open_root := modify (fun n => n + 1);; mret (Some (mkFileDescriptor false false 2));
  Stdin := 0;
  Stdout := 1;
  file_clone _ := modify (fun n => n + 1);
  file_drop _ := modify (fun n => n - 1);
}.

(** One program, in frame 600, whose only segment is a word at [0x1000]. *)
#[local] Instance counted_programs : ExecFiles Z Z := {
  root_open _ _ _ := mret (RErr ENOENT);
  fd_open_at _ _ _ _ := modify (fun n => n + 1);; mret (ROk (mkFileDescriptor false false 3));
  fd_cwd _ := mret (Some []);
  fd_frames _ := mret (Some [mkFrameTracker 600 false]);
  fd_size _ := mret 8;
  fd_read_all _ := mret (replicate 8 0);
}.

Definition sample_parser (data : list Z) : option ElfFile :=
  Some (mkElfFile data [0x7f; 0x45; 0x4c; 0x46] 0x1000 1 56 64 (fun _ => Some (mkProgramHeader true false 0x1000 8 0 8 true false true))).

Abbreviation KS := (@Kernel StackFrameAllocator Z Z).

Definition kernel_sample : KS :=
  mkKernel (mkMachine (fun _ => 0) (mkStackFrameAllocator 16 512 [])) 0 (mkMemorySet (mkPageTable 0 []) [] ∅ ∅ 0 0)
    RecycleAllocator_new RecycleAllocator_new (mkTimerSys Sched_new []) ∅ ∅ ∅ [] 0.

(** Kernel space has a page table. *)
Definition kernel_start : outcome (unit * KS) := (ks ← on_machine new_bare; put_kstacks ks RecycleAllocator_new) kernel_sample.
Definition k_start : KS := after_call kernel_sample kernel_start.

Definition bare_user : outcome (MemorySet * KS) := on_machine new_bare k_start.
Definition user_space : MemorySet := default (mkMemorySet (mkPageTable 0 []) [] ∅ ∅ 0 0) (returned bare_user).
Definition k_user : KS := after_call k_start bare_user.

Definition boot_call : outcome (Z * KS) := ProcessControlBlock_new 0 0 user_space 0x10000 STACK_TOP 0x1000 k_user.
Definition k_new : KS := after_call k_user boot_call.
Definition k_boot : KS := after_call k_new (put_initproc 1 k_new).

Definition shrink_call : outcome (unit * KS) :=
  (x ← get_pcb 1;
   ms ← on_machine (remove_area_with_start_vpn (memory_set x) ((STACK_TOP - USER_STACK_SIZE) / 4096));
   ms ← on_machine (insert_framed_area ms (STACK_TOP - USER_STACK_SIZE) (STACK_TOP - USER_STACK_SIZE + 4096) (Z.lor MapPermission_R MapPermission_U));
   update_pcb 1 (set_memory ms (task_res_allocator x))) k_boot.
Definition k_small : KS := after_call k_boot shrink_call.

Definition k_first : KS := after_call k_small (k_run_tasks k_small).
Definition k_forked : KS := after_call k_first (sys_clone sample_symbols 17 0 0 0 0 k_first).
Definition k_waiting : KS := after_call k_forked (sys_wait4 (-1) 0 0 k_forked).
Definition k_child : KS := after_call k_waiting (k_run_tasks k_waiting).
Definition k_exited : KS := after_call k_child (exit_current_and_run_next 1280 k_child).
Definition k_woken : KS := after_call k_exited (k_run_tasks k_exited).
Definition k_reaped : KS := after_call k_woken (sys_wait4 (-1) 0 0 k_woken).

Definition sample_trace : list pevent :=
  [PInternal; PInternal; PFork 0 1; PWait 0 (-1) None; PInternal; PExit 1 1280; PInternal; PWait 0 (-1) (Some 1)].

(** The calls return; each equation is evaluated. *)
Ltac evaluate d o b := exact (returned_Ok d o b ltac:(vm_compute; reflexivity)).

Lemma sample_new : boot_call = Ok (1, k_new).
Proof. evaluate k_user boot_call 1. Qed.

Lemma sample_init : put_initproc 1 k_new = Ok (tt, k_boot).
Proof. evaluate k_new (put_initproc 1 k_new) tt. Qed.

Lemma sample_shrink : tree_of k_small = tree_of k_boot.
Proof. vm_compute. reflexivity. Qed.

Lemma sample_first : k_run_tasks k_small = Ok (tt, k_first).
Proof. evaluate k_small (k_run_tasks k_small) tt. Qed.

Lemma sample_fork : sys_clone sample_symbols 17 0 0 0 0 k_first = Ok (1, k_forked).
Proof. evaluate k_first (sys_clone sample_symbols 17 0 0 0 0 k_first) 1. Qed.

Lemma sample_wait : sys_wait4 (-1) 0 0 k_forked = Ok (None, k_waiting).
Proof. evaluate k_forked (sys_wait4 (-1) 0 0 k_forked) (@None Z). Qed.

Lemma sample_child : k_run_tasks k_waiting = Ok (tt, k_child).
Proof. evaluate k_waiting (k_run_tasks k_waiting) tt. Qed.

Lemma sample_exit : exit_current_and_run_next 1280 k_child = Ok (None, k_exited).
Proof. evaluate k_child (exit_current_and_run_next 1280 k_child) (@None bool). Qed.

Lemma sample_wake : k_run_tasks k_exited = Ok (tt, k_woken).
Proof. evaluate k_exited (k_run_tasks k_exited) tt. Qed.

Lemma sample_reap : sys_wait4 (-1) 0 0 k_woken = Ok (Some 1, k_reaped).
Proof. evaluate k_woken (sys_wait4 (-1) 0 0 k_woken) (Some 1). Qed.

Lemma sample_booted : booted 0 k_boot.
Proof.
  exists k_user, 0, user_space, 0x10000, STACK_TOP, 0x1000, 1, k_new. split_and!; [vm_compute; reflexivity..|exact sample_new|exact sample_init].
Qed.

Lemma sample_caller k i : (q ← calling k; Some (pid q.2)) = Some i → ∃ p x, @caller StackFrameAllocator Z Z k p x ∧ pid x = i.
Proof. destruct (calling k) as [[p x]|] eqn:E; [|done]. intros [= <-]. exists p, x. split; [by apply calling_caller|done]. Qed.

Definition until_woken : list pevent := [PInternal; PInternal; PFork 0 1; PWait 0 (-1) None; PInternal; PExit 1 1280; PInternal].

Lemma sample_until_woken : kernel_run sample_symbols 0 sample_parser k_boot until_woken k_woken.
Proof.
  destruct (sample_caller k_first 0) as (p1 & x1 & Hc1 & Hp1); [vm_compute; reflexivity|].
  destruct (sample_caller k_forked 0) as (p2 & x2 & Hc2 & Hp2); [vm_compute; reflexivity|].
  destruct (sample_caller k_child 1) as (p3 & x3 & Hc3 & Hp3); [vm_compute; reflexivity|].
  assert (ra_current (pid_allocator k_first) < 2 ^ 64 - 2) as Hal by (vm_compute; reflexivity).
  assert (main_thread k_child = true) as Hm by (vm_compute; reflexivity).
  pose proof (ks_fork sample_symbols 0 sample_parser k_first p1 x1 17 0 0 0 0 1 k_forked Hc1 eq_refl Hal sample_fork) as S1. rewrite Hp1 in S1.
  pose proof (ks_wait sample_symbols 0 sample_parser k_forked p2 x2 (-1) 0 0 None k_waiting Hc2 sample_wait) as S2. rewrite Hp2 in S2.
  pose proof (ks_exit sample_symbols 0 sample_parser k_child p3 x3 1280 k_exited Hc3 sample_exit) as S3. rewrite Hm, Hp3 in S3.
  exact (kr_cons _ _ _ _ _ _ _ _ (ks_other _ _ _ _ _ sample_shrink) (kr_cons _ _ _ _ _ _ _ _ (ks_run _ _ _ _ _ sample_first) (kr_cons _ _ _ _ _ _ _ _ S1 (kr_cons _ _ _ _ _ _ _ _ S2
    (kr_cons _ _ _ _ _ _ _ _ (ks_run _ _ _ _ _ sample_child) (kr_cons _ _ _ _ _ _ _ _ S3 (kr_cons _ _ _ _ _ _ _ _ (ks_run _ _ _ _ _ sample_wake) (kr_nil _ _ _ _)))))))).
Qed.

Lemma kernel_run_app {A} {FA : FrameAllocator A} {S File} {PF : ProcFiles S File} {EF : ExecFiles S File} sym h elf (k : @Kernel A S File) es k1 es' k2 :
  kernel_run sym h elf k es k1 → kernel_run sym h elf k1 es' k2 → kernel_run sym h elf k (es ++ es') k2.
Proof. intros H1 H2. induction H1 as [|k e k1 es k3 Hs Hr IH]; [done|]. econstructor; [done|]. by apply IH. Qed.

Lemma process_table_refines_witness :
  kernel_run sample_symbols 0 sample_parser k_boot (until_woken ++ [PWait 0 (-1) (Some 1)]) k_reaped ∧
  spec_run {[0 := mkPState None None]} (until_woken ++ [PWait 0 (-1) (Some 1)]) (table (tree_of k_reaped)).
Proof.
  destruct (sample_caller k_woken 0) as (p & x & Hc & Hp); [vm_compute; reflexivity|].
  pose proof (ks_wait sample_symbols 0 sample_parser k_woken p x (-1) 0 0 (Some 1) k_reaped Hc sample_reap) as H. rewrite Hp in H.
  assert (kernel_run sample_symbols 0 sample_parser k_boot (until_woken ++ [PWait 0 (-1) (Some 1)]) k_reaped) as Hr.
  { apply (kernel_run_app _ _ _ _ _ _ _ _ sample_until_woken). exact (kr_cons _ _ _ _ _ _ _ _ H (kr_nil _ _ _ _)). }
  split; [exact Hr|]. exact (proj2 (process_table_refines sample_symbols 0 sample_parser k_boot _ k_reaped sample_booted Hr)).
Defined.

Definition first_kid (k : KS) : option (bool * Z * Z) := px ← calling k; cy ← kids k px.2 !! 0%nat; Some (is_zombie cy.2, exit_code cy.2, pid cy.2).

Lemma sample_kid : ∃ p x c y, caller k_woken p x ∧ kids k_woken x !! 0%nat = Some (c, y) ∧ is_zombie y = true ∧ exit_code y = 1280 ∧ pid y = 1.
Proof.
  assert (first_kid k_woken = Some (true, 1280, 1)) as H by (vm_compute; reflexivity). unfold first_kid in H.
  destruct (calling k_woken) as [[p x]|] eqn:Hc; [|done]. cbn in H. destruct (kids k_woken x !! 0%nat) as [[c y]|] eqn:Hy; [|done]. cbn in H. injection H as Hz He Hp.
  exists p, x, c, y. split_and!; [by apply calling_caller|done..].
Qed.

Lemma wait4_reaps_child_witness :
  ∃ k1 p c, strong_count k1 c = 0 ∧ sys_wait4 (-1) 0 0 k_woken = (put_user 4 p 0 1280;; release_process c;; mret (Some 1)) k1.
Proof.
  destruct sample_kid as (p & x & c & y & Hc & Hk & Hz & He & Hp).
  destruct (kernel_run_refines sample_symbols 0 sample_parser k_boot _ _ sample_until_woken) as [HI _].
  { destruct (booted_tree 0 k_boot sample_booted) as (q & al & -> & Hal). by apply ptree_inv_boot. }
  destruct (wait4_reaps_child k_woken p x (-1) 0 0 0 0%nat c y HI Hc eq_refl Hk Hz eq_refl ltac:(intros; lia)) as (k1 & _ & H0 & E).
  exists k1, p, c. rewrite He, Hp in E. exact (conj H0 E).
Defined.
