(* ===== verification/ExecSpec.v ===== *)
(** * What [exec] leaves behind

    The process after [exec] of [Exec.v]: its program, its user stack and the
    context in which its thread starts. *)

From S2P Require Import Prelude Config Address PhysMem FrameAllocator PageTable UserMem MemorySet Fork.
From S2P Require Import FdTable Sched Futex Timer Ids Signals Utf Process Exec ProcessTree ProcessSpec.

(** ** Words written to a context *)

Definition put_words (b : Z) (m : PMem) (ws : list (Z * Z)) : PMem := foldl (fun m ov => store64 m (b + ov.1) ov.2) m ws.

(** The last word written at an offset. *)
Definition word_at (off : Z) (ws : list (Z * Z)) : option Z := foldl (fun o ov => if ov.1 =? off then Some ov.2 else o) None ws.

Lemma load_put_words b m ws off v : off mod 8 = 0 → Forall (fun ov => ov.1 mod 8 = 0) ws → word_at off ws = Some v → is_usize v →
  load64 (put_words b m ws) (b + off) = v.
Proof.
  intros Ho. unfold word_at, put_words. induction ws as [|[o w] ws IH] using rev_ind; [done|]. rewrite !foldl_app. cbn [foldl fst snd].
  intros [Hws Hw]%Forall_app. apply Forall_cons in Hw as [Hw _]. cbn [fst] in Hw. destruct (Z.eqb_spec o off) as [->|Hne].
  - intros [= <-] Hu. by apply load64_store64_eq.
  - intros Hv Hu. rewrite load64_store64_ne; [by apply IH|]. pose proof (Z.div_mod off 8 ltac:(lia)). pose proof (Z.div_mod o 8 ltac:(lia)). lia.
Qed.

Lemma wlp_any {S A} (m : ST S A) (Q : A → S → Prop) s : (∀ a s', Q a s') → wlp m Q s.
Proof. intros H a s' _. apply H. Qed.

Section Exec.
Context {A : Type} {FA : FrameAllocator A}.
Context {S File : Type} {PF : ProcFiles S File} {EF : ExecFiles S File}.
Context (sym : LinkerSymbols) (trap_handler_addr sstatus : Z) (elf_new : list Z → option ElfFile).
Abbreviation K := (@Kernel A S File).
Implicit Types k : K.

(** ** Steps that only load *)

Definition rest k := (pid_allocator k, kstack_allocator k, times k, pid2pcb k, waiting k, initproc k).

(** [k'] is [k] with these control blocks, and possibly another machine, other
    files and another kernel space. *)
Definition blocks k (P : gmap Z ProcessControlBlock) (T : gmap Z TaskControlBlock) k' : Prop := rest k' = rest k ∧ pcbs k' = P ∧ tcbs k' = T.

Definition Loads {B} (m : ST K B) : Prop := ∀ k, wlp m (fun _ k' => blocks k (pcbs k) (tcbs k) k') k.

Lemma loads_bind {B C} (m : ST K B) (f : B → ST K C) : Loads m → (∀ b, Loads (f b)) → Loads (m ≫= f).
Proof.
  intros Hm Hf k. wlp_step. eapply wlp_mono; [apply Hm|]. intros b k1 (R1 & P1 & T1). eapply wlp_mono; [apply Hf|]. unfold blocks. cbn. rewrite R1, P1, T1. done.
Qed.

Lemma loads_fold {B X} (f : B → X → ST K B) b l : (∀ b x, Loads (f b x)) → Loads (st_fold f b l).
Proof. intros Hf. revert b. induction l as [|x l IH]; intros b; cbn [st_fold]; [intros k; by apply wlp_ret|]. apply loads_bind; [apply Hf|done]. Qed.

Lemma loads_machine {B} (m : ST (Machine A) B) : Loads (on_machine m).
Proof. intros k b k' E. unfold on_machine, mbind, outcome_bind in E. destruct (m (machine k)) as [[b1 s1]| |]; [|done..]. by injection E as <- <-. Qed.

Lemma loads_files {B} (m : ST S B) : Loads (on_files m).
Proof. intros k b k' E. unfold on_files, mbind, outcome_bind in E. destruct (m (files k)) as [[b1 s1]| |]; [|done..]. by injection E as <- <-. Qed.

Lemma loads_kernel_space m : Loads (on_kernel_space m).
Proof.
  intros k. unfold on_kernel_space. wlp_step. wlp_step. wlp_step. eapply wlp_mono; [apply loads_machine|]. intros ks k1 (R1 & P1 & T1).
  unfold put_kstacks. apply wlp_modify. unfold blocks, rest in *. cbn. by injection R1 as -> _ -> -> -> ->.
Qed.

Ltac loads_step :=
  lazymatch goal with
  | |- ∀ _, _ => intros ?
  | |- Loads (mbind _ _) => apply loads_bind
  | |- Loads (st_fold _ _ _) => apply loads_fold
  | |- Loads (on_machine _) => apply loads_machine
  | |- Loads (on_files _) => apply loads_files
  | |- Loads (on_kernel_space _) => apply loads_kernel_space
  | |- Loads (mret _) => intros ?; by apply wlp_ret
  | |- Loads get_st => intros ?; by apply wlp_get
  | |- Loads (unwrap _) => intros ?; by apply wlp_unwrap
  | |- Loads (rust_assert _) => intros ?; by apply wlp_assert
  | |- Loads panic => intros ?; apply wlp_panic
  | |- Loads (match ?x with _ => _ end) => destruct x
  end.
Ltac loads := repeat loads_step.

Lemma loads_map fd a : Loads (map_to_kernel_space fd a).
Proof. unfold map_to_kernel_space. loads. Qed.

Lemma loads_unmap a : Loads (unmap_from_kernel_space a).
Proof. unfold unmap_from_kernel_space. loads. Qed.

Lemma loads_from_elf data : Loads (from_elf sym elf_new data).
Proof.
  unfold from_elf. repeat first [apply loads_map|apply loads_unmap|loads_step]. unfold load_header, slice.
  repeat first [apply loads_map|apply loads_unmap|loads_step].
Qed.

(** ** The rules *)

Lemma wlp_loads {B} (m : ST K B) k0 P T k (Q : B → K → Prop) :
  Loads m → blocks k0 P T k → (∀ b k', m k = Ok (b, k') → blocks k0 P T k' → Q b k') → wlp m Q k.
Proof. intros Hm (R & HP & HT) H b k' E. apply H; [done|]. apply Hm in E as (R' & P' & T'). unfold blocks. by rewrite R', P', T'. Qed.

Lemma wlp_blocks_get p k0 P T k (Q : ProcessControlBlock → K → Prop) : blocks k0 P T k → (∀ x, P !! p = Some x → Q x k) → wlp (get_pcb p) Q k.
Proof. intros (_ & <- & _) H. by apply wlp_get_pcb. Qed.

Lemma wlp_blocks_update p f k0 P T k (Q : unit → K → Prop) : blocks k0 P T k →
  (∀ x k', P !! p = Some x → blocks k0 (<[p := f x]> P) T k' → machine k' = machine k → Q tt k') → wlp (update_pcb p f) Q k.
Proof. intros (R & <- & HT) H. unfold update_pcb, get_pcb, put_pcbs. repeat wlp_step. by eapply H. Qed.

Lemma wlp_replace p ms k0 P T k (Q : unit → K → Prop) : blocks k0 P T k →
  (∀ x k', P !! p = Some x → blocks k0 (<[p := set_memory ms (task_res_allocator x) x]> P) T k' → Q tt k') → wlp (replace_memory p ms) Q k.
Proof.
  intros HB H. unfold replace_memory. wlp_step. eapply wlp_blocks_get; [done|]. intros x Hx. wlp_step. eapply wlp_blocks_update; [done|].
  intros x' k' Hx' HB' _. rewrite Hx in Hx'. injection Hx' as <-. eapply wlp_loads; [apply loads_machine|done|]. intros [] k2 _ HB2. by eapply H.
Qed.

Lemma wlp_blocks_tcb t k0 P T k (Q : TaskControlBlock → K → Prop) : blocks k0 P T k → (∀ x, T !! t = Some x → Q x k) → wlp (get_tcb t) Q k.
Proof. intros (_ & _ & <-) H. unfold get_tcb. repeat wlp_step. by apply H. Qed.

Lemma wlp_blocks_update_tcb t f k0 P T k (Q : unit → K → Prop) : blocks k0 P T k →
  (∀ x k', T !! t = Some x → blocks k0 P (<[t := f x]> T) k' → machine k' = machine k → Q tt k') → wlp (update_tcb t f) Q k.
Proof. intros (R & HP & <-) H. unfold update_tcb, get_tcb, put_tcbs. repeat wlp_step. by eapply H. Qed.

Lemma on_machine_Ok {B} (m : ST (Machine A) B) k b k' : on_machine m k = Ok (b, k') → m (machine k) = Ok (b, machine k') ∧ kernel_space k' = kernel_space k.
Proof. unfold on_machine, mbind, outcome_bind. destruct (m (machine k)) as [[b1 s1]| |]; [|done..]. by intros [= <- <-]. Qed.

(** ** The context of the new program *)

(** Every word of the context: the arguments are in registers 10 to 13. *)
Definition start_context (kernel_satp kernel_sp entry sp argc argv envp aux : Z) : list (Z * Z) :=
  ((fun i => (CX_X i, if i =? 2 then sp else if i =? 10 then argc else if i =? 11 then argv else if i =? 12 then envp else if i =? 13 then aux else 0)) <$> seqZ 0 32) ++
  [(CX_SSTATUS, Z.ldiff sstatus (Z.shiftl 1 8)); (CX_SEPC, entry); (CX_KERNEL_SATP, kernel_satp); (CX_KERNEL_SP, kernel_sp); (CX_TRAP_HANDLER, trap_handler_addr)].

Definition init_words (satp ksp entry sp : Z) : list (Z * Z) :=
  ((fun i => (CX_X i, if i =? 2 then sp else 0)) <$> seqZ 0 32) ++
  [(CX_SSTATUS, Z.ldiff sstatus (Z.shiftl 1 8)); (CX_SEPC, entry); (CX_KERNEL_SATP, satp); (CX_KERNEL_SP, ksp); (CX_TRAP_HANDLER, trap_handler_addr)].

Definition context_of (ppn : PhysPageNum) (m : PMem) (ws : list (Z * Z)) : Prop := Forall (fun ov => is_usize ov.2 → load64 m (get_bytes_array ppn + ov.1) = ov.2) ws.

Lemma start_context_put ppn m satp ksp entry sp argc argv envp aux :
  context_of ppn (put_words (get_bytes_array ppn) m (init_words satp ksp entry sp ++ [(CX_X 10, argc); (CX_X 11, argv); (CX_X 12, envp); (CX_X 13, aux)]))
    (start_context satp ksp entry sp argc argv envp aux).
Proof.
  apply Forall_forall. intros [off v] Hin Hv. cbn [fst snd] in *.
  assert (off mod 8 = 0 ∧ word_at off (init_words satp ksp entry sp ++ [(CX_X 10, argc); (CX_X 11, argv); (CX_X 12, envp); (CX_X 13, aux)]) = Some v) as [Ho Hw].
  { unfold start_context in Hin. rewrite elem_of_app, list_elem_of_fmap in Hin. unfold init_words.
    change (seqZ 0 32) with [0;1;2;3;4;5;6;7;8;9;10;11;12;13;14;15;16;17;18;19;20;21;22;23;24;25;26;27;28;29;30;31] in *. destruct Hin as [(i & [= -> ->] & Hi)|Hin].
    - repeat (apply elem_of_cons in Hi as [->|Hi]; [split; reflexivity|]). by apply not_elem_of_nil in Hi.
    - repeat (apply elem_of_cons in Hin as [[= -> ->]|Hin]; [split; reflexivity|]). by apply not_elem_of_nil in Hin. }
  apply load_put_words; [done| |done..]. unfold init_words. rewrite Forall_app, Forall_app, Forall_fmap. split_and!; [|repeat constructor..].
  apply Forall_forall. intros i _. cbn [compose fst]. unfold CX_X. rewrite Z.mul_comm. by apply Z.mod_mul.
Qed.

(** Words written one after the other. *)
Definition Writes (b : Z) (ws : list (Z * Z)) (m : ST K unit) : Prop :=
  ∀ k, wlp m (fun _ k' => blocks k (pcbs k) (tcbs k) k' ∧ kernel_space k' = kernel_space k ∧ pmem (machine k') = put_words b (pmem (machine k)) ws) k.

Lemma writes_cx ppn off v : Writes (get_bytes_array ppn) [(off, v)] (put_cx ppn off v).
Proof. intros k [] k' E. by injection E as <-. Qed.

Lemma writes_bind b ws1 ws2 m n : Writes b ws1 m → (∀ u, Writes b ws2 (n u)) → Writes b (ws1 ++ ws2) (m ≫= n).
Proof.
  intros Hm Hn k. wlp_step. eapply wlp_mono; [apply Hm|]. intros [] k1 ((R1 & P1 & T1) & S1 & M1). eapply wlp_mono; [apply Hn|].
  intros [] k2 ((R2 & P2 & T2) & S2 & M2). unfold blocks. rewrite R2, P2, T2, S2, M2, M1. split_and!; [done..|]. unfold put_words. by rewrite foldl_app.
Qed.

Lemma writes_fold ppn (f : Z → Z * Z) l : Writes (get_bytes_array ppn) (f <$> l) (st_fold (fun _ i => put_cx ppn (f i).1 (f i).2) tt l).
Proof.
  generalize tt. induction l as [|i l IH]; intros u; cbn [st_fold fmap list_fmap]; [intros k; by apply wlp_ret|]. apply (writes_bind _ [f i]); [|done]. rewrite (surjective_pairing (f i)) at 1. apply writes_cx.
Qed.

Lemma writes_init ppn entry sp ksp satp k :
  MemorySet_token (kernel_space k) = satp →
  wlp (put_init_context trap_handler_addr sstatus ppn entry sp ksp) (fun _ k' => blocks k (pcbs k) (tcbs k) k' ∧ kernel_space k' = kernel_space k ∧
    pmem (machine k') = put_words (get_bytes_array ppn) (pmem (machine k)) (init_words satp ksp entry sp)) k.
Proof.
  intros <-. unfold put_init_context. wlp_step. wlp_step. revert k. enough (∀ satp, Writes (get_bytes_array ppn) (init_words satp ksp entry sp)
    (st_fold (fun _ i => put_cx ppn (CX_X i) (if i =? 2 then sp else 0)) tt (seqZ 0 32);; put_cx ppn CX_SSTATUS (Z.ldiff sstatus (Z.shiftl 1 8));; put_cx ppn CX_SEPC entry;;
     put_cx ppn CX_KERNEL_SATP satp;; put_cx ppn CX_KERNEL_SP ksp;; put_cx ppn CX_TRAP_HANDLER trap_handler_addr)) as H by (intros k; apply H).
  intros satp. unfold init_words. apply writes_bind; [apply (writes_fold ppn (fun i => (CX_X i, if i =? 2 then sp else 0)))|].
  do 4 (intros _; apply (writes_bind _ [_]); [apply writes_cx|]). intros _. apply writes_cx.
Qed.

Lemma wlp_start_context ppn ksp entry sp argc argv envp aux f k :
  wlp (put_init_context trap_handler_addr sstatus ppn entry sp ksp;; put_cx ppn (CX_X 10) argc;; put_cx ppn (CX_X 11) argv;; put_cx ppn (CX_X 12) envp;;
       put_cx ppn (CX_X 13) aux;; on_files (file_drop f))
    (fun _ k' => blocks k (pcbs k) (tcbs k) k' ∧
       context_of ppn (pmem (machine k')) (start_context (MemorySet_token (kernel_space k')) ksp entry sp argc argv envp aux)) k.
Proof.
  wlp_step. eapply wlp_mono; [by apply writes_init|]. intros [] k1 ((R1 & P1 & T1) & S1 & M1). unfold blocks. rewrite <-R1, <-P1, <-T1, <-S1 in *.
  pose proof (start_context_put ppn (pmem (machine k)) (MemorySet_token (kernel_space k1)) ksp entry sp argc argv envp aux) as Hc.
  unfold put_words in M1, Hc. rewrite foldl_app, <-M1 in Hc. clear M1 R1 P1 T1 S1.
  repeat (wlp_step; intros [] ? [= <-]). intros [] k2 E2. unfold on_files, mbind, outcome_bind in E2. destruct (file_drop f _) as [[[] s]| |]; [|done..]. by injection E2 as <-.
Qed.

Lemma build_stack_argc ms top argv envp auxv :
  ∀ s : Machine A, wlp (build_stack ms top argv envp auxv) (fun r _ => r.1.1.1.2 = Z.of_nat (length argv)) s.
Proof.
  intros s. unfold build_stack. wlp_step. apply wlp_any. intros [envs sp1] s1. wlp_step. apply wlp_any. intros [args sp2] s2.
  repeat (apply wlp_bind, wlp_any; intros ? ?). by apply wlp_ret.
Qed.

(** C21: [exec] that returns has replaced the program of the process and nothing
    else.  The one thread of the process runs on; its address space is the image
    that [from_elf] returned for the file (what is in it is not said), with a user stack and a context page added;
    the heap is empty and begins where the image says; and the thread's context
    starts at the entry of the interpreter, if there is one, or of the program,
    with the stack that [build_stack] made and the number and places of the
    arguments in registers 10 to 13.  No other process or thread changes. *)
Theorem exec_starts_program k p fd argv envp k' :
  exec sym trap_handler_addr sstatus elf_new p fd argv envp k = Ok (tt, k') →
  ∃ x t tcb r0 data im r ms ppn sp argv_base envp_base aux_base,
    pcbs k !! p = Some x ∧ tasks x = [Some t] ∧ tcbs k !! t = Some tcb ∧ res tcb = Some r0 ∧
    (∃ k1 k2 k3, map_to_kernel_space fd MMAP_BASE k1 = Ok (data, k2) ∧ from_elf sym elf_new data k2 = Ok (im, k3)) ∧
    (∃ s1 s2 s3 s4 : Machine A, alloc_user_res (mkTaskUserRes (tid r0) (im_stack_top im) (self_stack r0)) (im_memory im) true s1 = Ok (r, ms, s2) ∧
       trap_cx_ppn r ms s2 = Ok (ppn, s3) ∧
       build_stack ms (im_stack_top im) (as_bytes <$> argv) (as_bytes <$> envp) (im_auxv im) s3 = Ok (sp, Z.of_nat (length argv), argv_base, envp_base, aux_base, s4)) ∧
    blocks k (<[p := set_heap (VirtAddr_from_usize (im_heap_base im)) (VirtAddr_from_usize (im_heap_base im)) (set_memory ms (task_res_allocator x) x)]> (pcbs k))
      (<[t := set_user_res r ppn tcb]> (tcbs k)) k' ∧
    context_of ppn (pmem (machine k')) (start_context (MemorySet_token (kernel_space k')) (KernelStack_get_top (kstack tcb))
      (default (im_entry im) (im_interp_entry im)) sp (Z.of_nat (length argv)) argv_base envp_base aux_base).
Proof.
  intros E. pattern k'. match goal with |- ?post k' => enough (wlp (exec sym trap_handler_addr sstatus elf_new p fd argv envp) (fun _ => post) k) as H by exact (H _ _ E) end.
  clear E k'. unfold exec. assert (blocks k (pcbs k) (tcbs k) k) as B0 by done. wlp_step. eapply wlp_blocks_get; [exact B0|]. intros x Hx. wlp_step. wlp_step.
  wlp_step. eapply wlp_loads; [apply loads_machine|exact B0|]. intros bare k1 _ B1. wlp_step. eapply wlp_replace; [exact B1|]. intros x1 k2 Hx1 B2. rewrite Hx in Hx1. injection Hx1 as <-.
  wlp_step. eapply wlp_loads; [apply loads_map|exact B2|]. intros data k3 Hmap B3. wlp_step. eapply wlp_loads; [apply loads_from_elf|exact B3|]. intros im k4 Helf B4.
  wlp_step. eapply wlp_loads; [apply loads_unmap|exact B4|]. intros [] k5 _ B5. wlp_step. eapply wlp_replace; [exact B5|]. intros x2 k6 Hx2 B6.
  rewrite lookup_insert_eq in Hx2. injection Hx2 as <-. rewrite insert_insert_eq in B6.
  wlp_step. eapply wlp_blocks_update; [exact B6|]. intros x3 k7 Hx3 B7 _. rewrite lookup_insert_eq in Hx3. injection Hx3 as <-. rewrite insert_insert_eq in B7.
  wlp_step. eapply wlp_blocks_get; [exact B7|]. intros x4 Hx4. rewrite lookup_insert_eq in Hx4. injection Hx4 as <-.
  wlp_step. unfold get_task. wlp_step. apply wlp_unwrap. intros o Ho. apply wlp_unwrap. intros t ->.
  wlp_step. eapply wlp_blocks_tcb; [exact B7|]. intros tcb Htcb. wlp_step. apply wlp_unwrap. intros r0 Hr0.
  wlp_step. eapply wlp_loads; [apply loads_machine|exact B7|]. intros [r ms] k8 [Ha _]%on_machine_Ok B8.
  wlp_step. eapply wlp_blocks_update; [exact B8|]. intros x5 k9 Hx5 B9 M9. rewrite lookup_insert_eq in Hx5. injection Hx5 as <-. rewrite insert_insert_eq in B9.
  wlp_step. eapply wlp_loads; [apply loads_machine|exact B9|]. intros ppn k10 [Hppn _]%on_machine_Ok B10. rewrite M9 in Hppn.
  wlp_step. eapply wlp_blocks_update_tcb; [exact B10|]. intros tcb' k11 Htcb' B11 M11. rewrite Htcb in Htcb'. injection Htcb' as <-.
  wlp_step. eapply wlp_loads; [apply loads_machine|exact B11|]. intros [[[[sp argc] argv_base] envp_base] aux_base] k12 [Hb _]%on_machine_Ok B12. rewrite M11 in Hb.
  pose proof (build_stack_argc _ _ _ _ _ _ _ _ Hb) as Hargc. cbn in Hargc. rewrite length_fmap in Hargc. subst argc.
  eapply wlp_mono; [apply wlp_start_context|]. intros [] k13 (B13 & Hcx).
  exists x, t, tcb, r0, data, im, r, ms, ppn, sp, argv_base, envp_base, aux_base. split_and!; [done| |done|done|by exists k2, k3, k4|by exists (machine k7), (machine k8), (machine k10), (machine k12)| |done].
  - match goal with H : (thread_count _ =? 1) = true |- _ => apply Z.eqb_eq in H; unfold thread_count in H; rename H into Hlen end. cbn in Ho.
    destruct (tasks x) as [|o [|]]; [done|by injection Ho as ->|cbn in Hlen; lia].
  - destruct B12 as (R & P & T), B13 as (R' & P' & T'). unfold blocks. by rewrite R', P', T'.
Qed.
End Exec.

(** ** An execution

    The first process of the sample kernel runs the sample program with one argument. *)

#[local] Existing Instances counted_files counted_programs.

Definition k_exec : KS := after_call k_first (exec sample_symbols 0 0 sample_parser 1 (mkFileDescriptor false false 3) [chars "a"] [] k_first).

Lemma sample_exec : exec sample_symbols 0 0 sample_parser 1 (mkFileDescriptor false false 3) [chars "a"] [] k_first = Ok (tt, k_exec).
Proof. evaluate k_first (exec sample_symbols 0 0 sample_parser 1 (mkFileDescriptor false false 3) [chars "a"] [] k_first) tt. Qed.

Lemma exec_starts_program_witness :
  ∃ x t ppn entry sp argv_base envp_base aux_base, pcbs k_first !! 1 = Some x ∧ tasks x = [Some t] ∧
    context_of ppn (pmem (machine k_exec)) (start_context 0 0 (MemorySet_token (kernel_space k_exec)) (KernelStack_get_top 0) entry sp 1 argv_base envp_base aux_base).
Proof.
  destruct (exec_starts_program sample_symbols 0 0 sample_parser k_first 1 (mkFileDescriptor false false 3) [chars "a"] [] k_exec sample_exec)
    as (x & t & tcb & r0 & data & im & r & ms & ppn & sp & argv_base & envp_base & aux_base & Hx & Ht & Htcb & _ & _ & _ & _ & H).
  assert (kstack tcb = 0) as Hk. { assert (map_Forall (fun _ c => kstack c = 0) (tcbs k_first)) as Hall by (apply (bool_decide_unpack _); vm_compute; exact I). by apply (Hall t). }
  rewrite Hk in H. exists x, t, ppn, (default (im_entry im) (im_interp_entry im)), sp, argv_base, envp_base, aux_base. exact (conj Hx (conj Ht H)).
Defined.
