(* ===== verification/Layout.v ===== *)
(** * On-disk structures: [kernel/src/fs/fat32/layout.rs]

    The parameters of a volume, directory entries, and the names they hold,
    with the functions of [kernel/src/fs/fat32/vfs.rs] that cut a file name
    into entries and [EasyFileSystem::open] of [kernel/src/fs/fat32/efs.rs].
    A [FATDirEnt] is a union and hence its 32 bytes. *)

From S2P Require Import Prelude Utf BlockCache Fat.

(** ** [BPB] *)

Record BPB : Type := mkBPB {
  bs_jmp_boot : list Z;
  bs_oem_name : list Z;
  bpb_byts_per_sec : Z;
  bpb_sec_per_clus : Z;
  rsvd_sec_cnt : Z;
  num_fats : Z;
  root_ent_cnt : Z;
  tot_sec16 : Z;
  media : Z;
  fat_sz16 : Z;
  sec_per_trk : Z;
  num_heads : Z;
  hidd_sec : Z;
  tot_sec32 : Z;
  fat_sz32 : Z;
  ext_flags : Z;
  fs_ver : Z;
  bpb_root_clus : Z;
  fs_info : Z;
  bk_boot_sec : Z;
  bpb_reserved : list Z;
  drv_num : Z;
  resvered1 : Z;
  boot_sig : Z;
  vol_id : Z;
  vol_lab : list Z;
  fil_sys_type : list Z
}.

Inductive FatType : Type := FAT32 | FAT16 | FAT12.

(** The bytes of a packed structure; [get16] and [get32] are little-endian. *)
Definition bytes_at (buf : list Z) (off n : nat) : list Z := take n (drop off buf).
Definition get8 (buf : list Z) (off : nat) : Z := nth off buf 0.
Definition get16 (buf : list Z) (off : nat) : Z := get8 buf off + 256 * get8 buf (off + 1).
Definition get32 (buf : list Z) (off : nat) : Z := get16 buf off + 65536 * get16 buf (off + 2).
Definition le16 (v : Z) : list Z := [v mod 256; v / 256 mod 256].

Definition BPB_of_bytes (b : list Z) : BPB :=
  mkBPB (bytes_at b 0 3) (bytes_at b 3 8) (get16 b 11) (get8 b 13) (get16 b 14) (get8 b 16) (get16 b 17)
    (get16 b 19) (get8 b 21) (get16 b 22) (get16 b 24) (get16 b 26) (get32 b 28) (get32 b 32) (get32 b 36)
    (get16 b 40) (get16 b 42) (get32 b 44) (get16 b 48) (get16 b 50) (bytes_at b 52 12) (get8 b 64)
    (get8 b 65) (get8 b 66) (get32 b 67) (bytes_at b 71 11) (bytes_at b 82 8).

(** Computed in [u16]; the division panics for sectors of no bytes. *)
Definition root_dir_sec (b : BPB) : outcome Z :=
  if bpb_byts_per_sec b =? 0 then Panic
  else Ok (wrap16 (wrap16 (root_ent_cnt b * 32) + wrap16 (bpb_byts_per_sec b - 1)) / bpb_byts_per_sec b).

Definition data_sector_count (b : BPB) : outcome Z :=
  rds ← root_dir_sec b;
  Ok (wrap32 (tot_sec32 b - wrap32 (wrap32 (rsvd_sec_cnt b + wrap32 (num_fats b * fat_sz32 b)) + rds))).

Definition count_of_cluster (b : BPB) : outcome Z :=
  n ← data_sector_count b;
  if bpb_sec_per_clus b =? 0 then Panic else Ok (n / bpb_sec_per_clus b).

Definition BPB_clus_size (b : BPB) : Z := wrap16 (bpb_byts_per_sec b * bpb_sec_per_clus b).

Definition first_data_sector (b : BPB) : outcome Z :=
  let fat_sz := if negb (fat_sz16 b =? 0) then fat_sz16 b else fat_sz32 b in
  rds ← root_dir_sec b;
  Ok (wrap32 (wrap32 (rsvd_sec_cnt b + wrap32 (num_fats b * fat_sz)) + rds)).

Definition data_sector_beg (b : BPB) : outcome Z := first_data_sector b.

Definition BPB_is_valid (b : BPB) : outcome bool :=
  rds ← root_dir_sec b;
  if negb (rds =? 0) then Ok false
  else if negb (tot_sec16 b =? 0) then Ok false
  else
    n ← count_of_cluster b;
    Ok ((66625 <=? n) && (fat_sz16 b =? 0) && (root_ent_cnt b =? 0)).

Definition fat_type (b : BPB) : outcome FatType :=
  n ← count_of_cluster b;
  Ok (if n <? 4085 then FAT12 else if n <? 65525 then FAT16 else FAT32).

(** [EasyFileSystem::open]; the state of the FAT behind its locks is returned
    with the file system. *)
Definition EasyFileSystem_open : ST BcState (EasyFileSystem * FatSt) :=
  i ← get_block_cache 0;
  s ← get_st;
  bc ← unwrap (cache_pool s !! i);
  let super_block := BPB_of_bytes (buffer bc) in
  clus ← lift (count_of_cluster super_block);
  fds ← lift (first_data_sector super_block);
  let '(fat, st) := Fat_new (rsvd_sec_cnt super_block) (bpb_byts_per_sec super_block) clus s in
  mret (mkEasyFileSystem fat fds (bpb_root_clus super_block) (bpb_sec_per_clus super_block)
          (bpb_byts_per_sec super_block), st).

(** ** Directory entries *)

Definition DIR_ENTRY_UNUSED : Z := 0xe5.
Definition DIR_ENTRY_LAST_AND_UNUSED : Z := 0x0.
Definition LAST_LONG_ENTRY : Z := 0x40.

Inductive DiskInodeType : Type := File | Directory.

#[global] Instance DiskInodeType_eq_dec : EqDecision DiskInodeType.
Proof. solve_decision. Defined.

(** [FATDiskInodeType], a [u8]. *)
Definition AttrClear : Z := 0.
Definition AttrReadOnly : Z := 0x01.
Definition AttrHidden : Z := 0x02.
Definition AttrSystem : Z := 0x04.
Definition AttrVolumeID : Z := 0x08.
Definition AttrDirectory : Z := 0x10.
Definition AttrArchive : Z := 0x20.
Definition AttrLongName : Z := 0x0F.

Record FATShortDirEnt : Type := mkFATShortDirEnt {
  se_name : list Z;
  se_attr : Z;
  nt_res : Z;
  crt_time_teenth : Z;
  crt_time : Z;
  crt_date : Z;
  last_acc_date : Z;
  fst_clus_hi : Z;
  wrt_time : Z;
  wrt_date : Z;
  se_fst_clus_lo : Z;
  file_size : Z
}.

Record FATLongDirEnt : Type := mkFATLongDirEnt {
  le_ord : Z;
  name1 : list Z;
  le_attr : Z;
  ldir_type : Z;
  chk_sum : Z;
  name2 : list Z;
  le_fst_clus_lo : Z;
  name3 : list Z
}.

(** [union FATDirEnt] *)
Definition FATDirEnt : Type := list Z.

Definition short_entry (e : FATDirEnt) : FATShortDirEnt :=
  mkFATShortDirEnt (bytes_at e 0 11) (get8 e 11) (get8 e 12) (get8 e 13) (get16 e 14) (get16 e 16)
    (get16 e 18) (get16 e 20) (get16 e 22) (get16 e 24) (get16 e 26) (get32 e 28).

Definition of_short (s : FATShortDirEnt) : FATDirEnt :=
  se_name s ++ [se_attr s; nt_res s; crt_time_teenth s] ++ le16 (crt_time s) ++ le16 (crt_date s) ++
  le16 (last_acc_date s) ++ le16 (fst_clus_hi s) ++ le16 (wrt_time s) ++ le16 (wrt_date s) ++
  le16 (se_fst_clus_lo s) ++ le32 (file_size s).

Definition get16s (e : list Z) (off n : nat) : list Z := (fun i => get16 e (off + 2 * i)) <$> seq 0 n.

Definition long_entry (e : FATDirEnt) : FATLongDirEnt :=
  mkFATLongDirEnt (get8 e 0) (get16s e 1 5) (get8 e 11) (get8 e 12) (get8 e 13) (get16s e 14 6)
    (get16 e 26) (get16s e 28 2).

Definition of_long (l : FATLongDirEnt) : FATDirEnt :=
  [le_ord l] ++ (name1 l ≫= le16) ++ [le_attr l; ldir_type l; chk_sum l] ++ (name2 l ≫= le16) ++
  le16 (le_fst_clus_lo l) ++ (name3 l ≫= le16).

(** *** Short entries *)

Definition FATShortDirEnt_empty : FATShortDirEnt :=
  mkFATShortDirEnt (replicate 11 0) AttrArchive 0 0 0 0 0 0 0 0 0 0.

Definition set_fst_clus (s : FATShortDirEnt) (fst_clus : Z) : FATShortDirEnt :=
  mkFATShortDirEnt (se_name s) (se_attr s) (nt_res s) (crt_time_teenth s) (crt_time s) (crt_date s)
    (last_acc_date s) (wrap16 (Z.shiftr fst_clus 16)) (wrt_time s) (wrt_date s)
    (wrap16 (Z.land fst_clus 0xFFFF)) (file_size s).

Definition get_first_clus (s : FATShortDirEnt) : Z :=
  Z.lor (se_fst_clus_lo s) (wrap32 (Z.shiftl (fst_clus_hi s) 16)).

Definition from_name (name : list Z) (fst_clus : Z) (file_type : DiskInodeType) : FATShortDirEnt :=
  let e := set_fst_clus FATShortDirEnt_empty fst_clus in
  mkFATShortDirEnt name (if bool_decide (file_type = Directory) then AttrDirectory else AttrArchive)
    (nt_res e) (crt_time_teenth e) (crt_time e) (crt_date e) (last_acc_date e) (fst_clus_hi e)
    (wrt_time e) (wrt_date e) (se_fst_clus_lo e) (file_size e).

Definition se_is_dir (s : FATShortDirEnt) : bool := se_attr s =? AttrDirectory.

Definition se_is_file (s : FATShortDirEnt) : bool :=
  (se_attr s =? AttrArchive) || (se_attr s =? AttrHidden) || (se_attr s =? AttrSystem)
  || (se_attr s =? AttrReadOnly).

(** [core::str::from_utf8(..).unwrap_or("")] *)
Definition as_u8str (bs : list Z) : list Z := default [] (utf8_decode bs).

Definition FATShortDirEnt_name (s : FATShortDirEnt) : list Z :=
  let basic_name_len := default 8%nat (position 32 (bytes_at (se_name s) 0 8)) in
  let ext_name_len := default 3%nat (position 32 (bytes_at (se_name s) 8 3)) in
  if negb (ext_name_len =? 0)%nat then
    as_u8str (bytes_at (se_name s) 0 basic_name_len) ++ as_u8str [46]
      ++ as_u8str (bytes_at (se_name s) 8 ext_name_len)
  else as_u8str (bytes_at (se_name s) 0 basic_name_len).

(** *** Long entries *)

Definition LONG_DIR_ENT_NAME_CAPACITY : nat := 13.

Definition FATLongDirEnt_empty : FATLongDirEnt :=
  mkFATLongDirEnt 0 (replicate 5 0) AttrLongName 0 0 (replicate 6 0) 0 (replicate 2 0).

Definition from_name_slice (is_last_ent : bool) (order : Z) (partial_name : list Z) : FATLongDirEnt :=
  let e := FATLongDirEnt_empty in
  let ord := wrap8 order in
  mkFATLongDirEnt (if is_last_ent then Z.lor ord LAST_LONG_ENTRY else ord)
    (bytes_at partial_name 0 5) (le_attr e) (ldir_type e) (chk_sum e)
    (bytes_at partial_name 5 6) (le_fst_clus_lo e) (bytes_at partial_name 11 2).

Definition FATLongDirEnt_name (l : FATLongDirEnt) : list Z :=
  let name_all := name1 l ++ name2 l ++ name3 l in
  let len := default LONG_DIR_ENT_NAME_CAPACITY (position 0 name_all) in
  from_utf16_lossy (take len name_all).

(** *** Entries of either kind *)

Definition FATDirEnt_empty : FATDirEnt := of_short FATShortDirEnt_empty.
Definition unused_not_last_entry : FATDirEnt := <[0%nat := DIR_ENTRY_UNUSED]> FATDirEnt_empty.
Definition unused_and_last_entry : FATDirEnt :=
  <[11%nat := 0]> (<[0%nat := DIR_ENTRY_LAST_AND_UNUSED]> FATDirEnt_empty).

Definition is_long (e : FATDirEnt) : bool := se_attr (short_entry e) =? AttrLongName.
Definition is_short (e : FATDirEnt) : bool := negb (is_long e).

Definition get_short_ent (e : FATDirEnt) : option FATShortDirEnt :=
  if negb (is_long e) then Some (short_entry e) else None.
Definition get_long_ent (e : FATDirEnt) : option FATLongDirEnt :=
  if is_long e then Some (long_entry e) else None.

Definition is_last_long_dir_ent (e : FATDirEnt) : bool :=
  match get_long_ent e with
  | Some i => negb (Z.land (le_ord i) LAST_LONG_ENTRY =? 0)
  | None => false
  end.

Definition ord (e : FATDirEnt) : Z :=
  match get_long_ent e with
  | Some i => Z.land (le_ord i) (LAST_LONG_ENTRY - 1)
  | None => 0
  end.

Definition get_name (e : FATDirEnt) : list Z :=
  if is_long e then FATLongDirEnt_name (long_entry e) else FATShortDirEnt_name (short_entry e).

Definition get_short_name_array (e : FATDirEnt) : list Z := se_name (short_entry e).

Definition get_fst_clus (e : FATDirEnt) : outcome Z :=
  if negb (is_short e) then Panic else Ok (get_first_clus (short_entry e)).

Definition dir_ent_set_fst_clus (e : FATDirEnt) (fst_clus : Z) : outcome FATDirEnt :=
  if negb (is_short e) then Panic else Ok (of_short (set_fst_clus (short_entry e) fst_clus)).

Definition set_size (e : FATDirEnt) (size : Z) : FATDirEnt :=
  let s := short_entry e in
  of_short (mkFATShortDirEnt (se_name s) (se_attr s) (nt_res s) (crt_time_teenth s) (crt_time s) (crt_date s)
    (last_acc_date s) (fst_clus_hi s) (wrt_time s) (wrt_date s) (se_fst_clus_lo s) size).

Definition set_name (e : FATDirEnt) (name : list Z) : outcome FATDirEnt :=
  if negb (is_short e) then Panic
  else
    let s := short_entry e in
    Ok (of_short (mkFATShortDirEnt name (se_attr s) (nt_res s) (crt_time_teenth s) (crt_time s) (crt_date s)
      (last_acc_date s) (fst_clus_hi s) (wrt_time s) (wrt_date s) (se_fst_clus_lo s) (file_size s))).

Definition last_and_unused (e : FATDirEnt) : bool := le_ord (long_entry e) =? DIR_ENTRY_LAST_AND_UNUSED.
Definition unused_not_last (e : FATDirEnt) : bool := le_ord (long_entry e) =? DIR_ENTRY_UNUSED.
Definition unused (e : FATDirEnt) : bool := last_and_unused e || unused_not_last e.

(** ** Short names *)

Definition name_taken (v : list FATDirEnt) (name : list Z) : bool :=
  existsb (fun i => bool_decide (get_short_name_array i = name)) v.

(** The loop over the digits of [gen_short_name_numtail]: the name it returns
    early, or the name the loop leaves behind. *)
Fixpoint numtail_digits (v : list FATDirEnt) (name_res : list Z) (baselen : nat) (digits : list Z) :
    list Z + list Z :=
  match digits with
  | [] => inr name_res
  | i :: digits =>
      let name_res := <[(baselen + 1)%nat := i + 48]> name_res in
      if negb (name_taken v name_res) then inl name_res
      else numtail_digits v name_res baselen digits
  end.

Definition hex_digit (d : Z) : Z := if d <? 10 then 48 + d else 55 + d.

Fixpoint hex_digits (fuel : nat) (u : Z) (acc : list Z) : list Z :=
  match fuel with
  | O => acc
  | S fuel =>
      let acc := hex_digit (u mod 16) :: acc in
      if u / 16 =? 0 then acc else hex_digits fuel (u / 16) acc
  end.

(** [format!("{:04X}", i)] of an [i32]. *)
Definition format_04X (i : Z) : list Z :=
  let ds := hex_digits 8 (wrap32 i) [] in
  replicate (4 - length ds) 48 ++ ds.

Definition put_slice (l : list Z) (off : nat) (d : list Z) : list Z :=
  take off l ++ d ++ drop (off + length d) l.

(** The final [loop] of [gen_short_name_numtail]. *)
Fixpoint numtail_hex (fuel : nat) (v : list FATDirEnt) (name_res : list Z) (baselen : nat) (i : Z) :
    outcome (list Z) :=
  match fuel with
  | O => OutOfFuel
  | S fuel =>
      let name_res := put_slice name_res baselen (take 4 (format_04X i)) in
      if negb (name_taken v name_res) then Ok name_res
      else numtail_hex fuel v name_res baselen (i - 11)
  end.

Definition jiffies : Z := 19382022.

Definition gen_short_name_numtail (fuel : nat) (v : list FATDirEnt) (name_res : list Z) :
    outcome (list Z) :=
  if negb (name_taken v name_res) then Ok name_res
  else
    let baselen := default 8%nat (position 32 name_res) in
    let '(baselen, name_res) :=
      if (6 <? baselen)%nat then (6%nat, <[7%nat := 32]> name_res) else (baselen, name_res) in
    let name_res := <[baselen := 126]> name_res in
    match numtail_digits v name_res baselen (seqZ 1 9) with
    | inl name_res => Ok name_res
    | inr name_res =>
        let i := Z.land jiffies 0xffff in
        let sz := wrap8 (Z.land (Z.shiftr jiffies 10) 7) in
        let '(baselen, name_res) :=
          if (2 <? baselen)%nat then (2%nat, <[7%nat := 32]> name_res) else (baselen, name_res) in
        let name_res := <[(baselen + 4)%nat := 126]> name_res in
        let name_res := <[(baselen + 5)%nat := 49 + sz]> name_res in
        numtail_hex fuel v name_res baselen i
    end.

(** The [while] of [gen_short_name_prefix] counts the leading dots; a base
    of nothing but dots is kept. *)
Definition strip_dots (base : list Z) : list Z :=
  match trim_start_matches base 46 with
  | [] => base
  | b => b
  end.

Definition gen_short_name_prefix (s : list Z) : outcome (list Z) :=
  let s := to_ascii_uppercase <$> filter (fun c => c ≠ 32) s in
  let '(base, ext) := default (s, []) (rsplit_once s 46) in
  let '(base, ext) :=
    if (str_len base =? 0) && negb (str_len ext =? 0) then (ext, base) else (base, ext) in
  let base := trim_start_matches (strip_dots base) 46 in
  base ←
    (if negb (str_len ext =? 0) || negb (str_len base =? 0) then
       '(b, _) ← split_at base (Z.min 8 (str_len base)); Ok (pad_right 8 b)
     else Ok []);
  ext ←
    (if negb (str_len ext =? 0) || negb (str_len base =? 0) then
       '(e, _) ← split_at ext (Z.min 3 (str_len ext)); Ok (pad_right 3 e)
     else Ok []);
  Ok (base ++ ext).

(** [str::find] returns a byte index. *)
Definition gen_short_name_slice (fuel : nat) (v : list FATDirEnt) (name : list Z) : outcome (list Z) :=
  short_name ← gen_short_name_prefix name;
  if (str_len short_name =? 0) || (default 8%nat (position 32 (as_bytes short_name)) =? 0)%nat then Panic
  else if (length (as_bytes short_name) <? 11)%nat then Panic
  else gen_short_name_numtail fuel v (take 11 (as_bytes short_name)).

(** ** Long names *)

Definition gen_long_name_slice (name : list Z) (long_ent_index : nat) : list Z :=
  let v := encode_utf16 name in
  let v := v ++ replicate ((long_ent_index + 1) * 13 - length v) 0 in
  bytes_at v (long_ent_index * 13) 13.

(** [name.len().div_ceil(13)] *)
Definition long_ent_num (name : list Z) : nat := (length (as_bytes name) + 12) / 13.

(** [gen_name_slice]; [v] are the short entries of the parent directory. *)
Definition gen_name_slice (fuel : nat) (v : list FATDirEnt) (name : list Z) :
    outcome (list Z * list (list Z)) :=
  short_name_slice ← gen_short_name_slice fuel v name;
  Ok (short_name_slice, gen_long_name_slice name <$> seq 0 (long_ent_num name)).

Definition gen_long_ents (long_name_slices : list (list Z)) : list FATLongDirEnt :=
  imap (fun i slice => from_name_slice (i + 1 =? length long_name_slices)%nat (Z.of_nat (i + 1)) slice)
    long_name_slices.

Definition gen_dir_ent (fuel : nat) (v : list FATDirEnt) (name : list Z) (fst_clus : Z)
    (file_type : DiskInodeType) : outcome (FATShortDirEnt * list FATLongDirEnt) :=
  '(short_name_slice, long_name_slices) ← gen_name_slice fuel v name;
  Ok (from_name short_name_slice fst_clus file_type, gen_long_ents long_name_slices).

(** ** Entries and their bytes *)

Definition is_u16 (v : Z) : Prop := 0 ≤ v < 65536.

Lemma le16_get b0 b1 : is_u8 b0 → is_u8 b1 → le16 (b0 + 256 * b1) = [b0; b1].
Proof.
  unfold is_u8, le16. intros H0 H1.
  rewrite (Z.mul_comm 256), Z.mod_add, Z.div_add by lia.
  rewrite (Z.div_small b0), Z.add_0_l, !Z.mod_small by lia. done.
Qed.

Lemma le32_get b0 b1 b2 b3 : is_u8 b0 → is_u8 b1 → is_u8 b2 → is_u8 b3 →
  le32 (b0 + 256 * b1 + 65536 * (b2 + 256 * b3)) = [b0; b1; b2; b3].
Proof.
  unfold is_u8, le32. intros H0 H1 H2 H3. set (v := b0 + _ + _).
  assert (v / 256 = b1 + 256 * (b2 + 256 * b3)) as E1 by (symmetry; apply (Z.div_unique v 256 _ b0); lia).
  assert (v / 65536 = b2 + 256 * b3) as E2 by (symmetry; apply (Z.div_unique v 65536 _ (b0 + 256 * b1)); lia).
  assert (v / 16777216 = b3) as -> by (symmetry; apply (Z.div_unique v 16777216 _ (b0 + 256 * b1 + 65536 * b2)); lia).
  assert (v mod 256 = b0) as -> by (symmetry; apply (Z.mod_unique v 256 (b1 + 256 * (b2 + 256 * b3))); lia).
  rewrite E1, E2.
  assert ((b1 + 256 * (b2 + 256 * b3)) mod 256 = b1) as -> by (symmetry; eapply (Z.mod_unique _ 256 (b2 + 256 * b3)); lia).
  assert ((b2 + 256 * b3) mod 256 = b2) as -> by (symmetry; eapply (Z.mod_unique _ 256 b3); lia).
  by rewrite Z.mod_small by lia.
Qed.

Lemma get_le16 v : is_u16 v → v mod 256 + 256 * (v / 256 mod 256) = v.
Proof.
  unfold is_u16. intros Hv. pose proof (Z.div_mod v 256).
  rewrite (Z.mod_small (v / 256)); [lia|]. split; [apply Z.div_pos; lia|apply Z.div_lt_upper_bound; lia].
Qed.

Record short_wf (s : FATShortDirEnt) : Prop := {
  sw_len : length (se_name s) = 11%nat;
  sw_name : Forall is_u8 (se_name s);
  sw_bytes : is_u8 (se_attr s) ∧ is_u8 (nt_res s) ∧ is_u8 (crt_time_teenth s);
  sw_words : is_u16 (crt_time s) ∧ is_u16 (crt_date s) ∧ is_u16 (last_acc_date s) ∧ is_u16 (fst_clus_hi s) ∧
    is_u16 (wrt_time s) ∧ is_u16 (wrt_date s) ∧ is_u16 (se_fst_clus_lo s);
  sw_size : is_u32 (file_size s)
}.

Record long_wf (l : FATLongDirEnt) : Prop := {
  lw_len : length (name1 l) = 5%nat ∧ length (name2 l) = 6%nat ∧ length (name3 l) = 2%nat;
  lw_name : Forall is_u16 (name1 l ++ name2 l ++ name3 l);
  lw_bytes : is_u8 (le_ord l) ∧ is_u8 (le_attr l) ∧ is_u8 (ldir_type l) ∧ is_u8 (chk_sum l);
  lw_word : is_u16 (le_fst_clus_lo l)
}.

(** The 32 bytes of an entry. *)
Definition ent_wf (e : FATDirEnt) : Prop := length e = 32%nat ∧ Forall is_u8 e.

Ltac explode l := repeat (destruct l as [|? l]; [discriminate|]); destruct l; [|discriminate].

Lemma short_entry_of_short s : short_wf s → short_entry (of_short s) = s.
Proof.
  destruct s as [name ? ? ? w1 w2 w3 w4 w5 w6 w7 sz]. intros [Hl _ _ Hw Hs]. cbn in Hl, Hw, Hs.
  explode name. clear Hl. destruct Hw as (? & ? & ? & ? & ? & ? & ?).
  unfold short_entry, of_short, bytes_at, get32, get16, get8, le16, le32. cbn [se_name se_attr nt_res crt_time_teenth
    crt_time crt_date last_acc_date fst_clus_hi wrt_time wrt_date se_fst_clus_lo file_size app nth take drop Nat.add].
  rewrite !get_le16 by done. f_equal. pose proof (le32_decode sz Hs). unfold is_u32 in Hs. lia.
Qed.

Lemma of_short_short_entry e : ent_wf e → of_short (short_entry e) = e.
Proof.
  intros [Hl He]. explode e. clear Hl. rewrite !Forall_cons in He.
  unfold short_entry, of_short, bytes_at, get32, get16, get8. cbn [se_name se_attr nt_res crt_time_teenth
    crt_time crt_date last_acc_date fst_clus_hi wrt_time wrt_date se_fst_clus_lo file_size app nth take drop Nat.add].
  rewrite !le16_get, le32_get by tauto. done.
Qed.

Lemma long_entry_of_long l : long_wf l → long_entry (of_long l) = l.
Proof.
  destruct l as [o n1 at_ ty ck n2 w n3]. intros [(H1 & H2 & H3) Hn _ Hw]. cbn in H1, H2, H3, Hn, Hw.
  explode n1. explode n2. explode n3. clear H1 H2 H3. cbn [app] in Hn. rewrite !Forall_cons in Hn.
  unfold long_entry, of_long, get16s, get16, get8, le16. cbn [le_ord name1 le_attr ldir_type chk_sum name2 le_fst_clus_lo
    name3 app nth Nat.add Nat.mul seq fmap list_fmap mbind list_bind].
  rewrite !get_le16 by tauto. done.
Qed.

Lemma of_long_long_entry e : ent_wf e → of_long (long_entry e) = e.
Proof.
  intros [Hl He]. explode e. clear Hl. rewrite !Forall_cons in He.
  unfold long_entry, of_long, get16s, get16, get8. cbn [le_ord name1 le_attr ldir_type chk_sum name2 le_fst_clus_lo
    name3 app nth Nat.add Nat.mul seq fmap list_fmap mbind list_bind].
  rewrite !le16_get by tauto. done.
Qed.

Lemma le16_wf v : Forall is_u8 (le16 v).
Proof.
  unfold le16, is_u8. pose proof (Z.mod_pos_bound v 256). pose proof (Z.mod_pos_bound (v / 256) 256).
  rewrite !Forall_cons. split_and!; done || lia.
Qed.

Lemma le32_wf v : Forall is_u8 (le32 v).
Proof. unfold le32, is_u8. rewrite !Forall_cons. split_and!; done || apply Z.mod_pos_bound; lia. Qed.

Lemma of_short_wf s : short_wf s → ent_wf (of_short s).
Proof.
  intros [Hl Hn (? & ? & ?) _ _]. split.
  - unfold of_short. rewrite !length_app, Hl. done.
  - unfold of_short. rewrite !Forall_app. split_and!; try apply le16_wf; [done| |apply le32_wf]. by rewrite !Forall_cons.
Qed.

Lemma le16s_wf l : Forall is_u8 (l ≫= le16) ∧ length (l ≫= le16) = (2 * length l)%nat.
Proof.
  induction l as [|v l [IH IHl]]; [done|]. rewrite bind_cons, length_app, Forall_app, IHl. cbn [length le16].
  split_and!; [apply le16_wf|done|lia].
Qed.

Lemma of_long_wf l : long_wf l → ent_wf (of_long l).
Proof.
  intros [(H1 & H2 & H3) _ (? & ? & ? & ?) _]. split.
  - unfold of_long. rewrite !length_app, !(proj2 (le16s_wf _)), H1, H2, H3. done.
  - unfold of_long. rewrite !Forall_app. split_and!; try apply le16s_wf; try apply le16_wf; by rewrite !Forall_cons.
Qed.

(** Byte 11 is the attribute of both kinds of entries, byte 0 decides whether
    an entry is in use. *)
Lemma attr_of_short s : short_wf s → is_long (of_short s) = (se_attr s =? AttrLongName).
Proof. intros Hs. unfold is_long. by rewrite short_entry_of_short. Qed.

Lemma attr_of_long l : long_wf l → is_long (of_long l) = (le_attr l =? AttrLongName).
Proof.
  destruct l as [o n1 at_ ty ck n2 w n3]. intros [(H1 & _ & _) _ _ _]. cbn in H1. explode n1. done.
Qed.

Lemma ord_of_short s : short_wf s → le_ord (long_entry (of_short s)) = nth 0 (se_name s) 0.
Proof. destruct s as [name]. intros [Hl _ _ _ _]. cbn in Hl. by explode name. Qed.

Lemma get_first_clus_set s c : is_u32 c → get_first_clus (set_fst_clus s c) = c.
Proof.
  intros Hc. unfold is_u32 in Hc. unfold get_first_clus, set_fst_clus. cbn [se_fst_clus_lo fst_clus_hi].
  change 0xFFFF with (Z.ones 16). rewrite Z.land_ones, Z.shiftr_div_pow2, Z.shiftl_mul_pow2 by lia.
  pose proof (Z.div_mod c (2 ^ 16) ltac:(lia)). pose proof (Z.mod_pos_bound c (2 ^ 16) ltac:(lia)).
  assert (0 ≤ c / 2 ^ 16 < 2 ^ 16) as Hd by (split; [apply Z.div_pos; lia|apply Z.div_lt_upper_bound; lia]).
  unfold wrap16, wrap32. rewrite (Z.mod_small (c mod _)), (Z.mod_small (c / 2 ^ 16)), (Z.mod_small (_ * _)) by lia.
  rewrite Z.lor_comm, <-Z.shiftl_mul_pow2 by lia. rewrite <-Z.add_nocarry_lor; [rewrite Z.shiftl_mul_pow2; lia|].
  apply Z.bits_inj_iff'. intros n Hn. rewrite Z.land_spec, Z.bits_0.
  destruct (Z.ltb_spec n 16).
  - by rewrite Z.shiftl_spec_low.
  - rewrite (Z.mod_pow2_bits_high c) by lia. apply andb_false_r.
Qed.

(** ** Long names *)

Lemma lossy_app u1 u2 :
  (∀ u, last u1 = Some u → is_high_surrogate u = false) →
  from_utf16_lossy (u1 ++ u2) = from_utf16_lossy u1 ++ from_utf16_lossy u2.
Proof.
  remember (length u1) as n eqn:Hn. revert u1 Hn. induction (lt_wf n) as [n _ IH]. intros u1 -> Hl.
  destruct u1 as [|u [|u' u1]]; [done|..].
  - specialize (Hl u eq_refl). cbn [app from_utf16_lossy]. rewrite Hl. by destruct (is_low_surrogate u).
  - assert (from_utf16_lossy ((u' :: u1) ++ u2) = from_utf16_lossy (u' :: u1) ++ from_utf16_lossy u2) as H1.
    { apply (IH (length (u' :: u1))); cbn [length]; [lia|done|]. intros x Hx. apply Hl. by rewrite last_cons_cons. }
    cbn [app from_utf16_lossy] in *. destruct (is_high_surrogate u); [|destruct (is_low_surrogate u)].
    + destruct (is_low_surrogate u') eqn:E; [|by rewrite H1].
      cbn [app]. f_equal. apply (IH (length u1)); cbn [length]; [lia|done|]. intros x Hx. apply Hl.
      destruct u1; [done|]. by rewrite !last_cons_cons in *.
    + by rewrite H1.
    + by rewrite H1.
Qed.

(** No entry ends between the two halves of a surrogate pair. *)
Definition surrogates_kept (name : list Z) : bool :=
  let v := encode_utf16 name in
  forallb (fun k => negb (is_high_surrogate (nth (13 * k - 1) v 0))) (seq 1 (length v / 13)).

Definition cuts_ok (v : list Z) : Prop :=
  ∀ k u, v !! (13 * k + 12)%nat = Some u → is_high_surrogate u = false.

Lemma surrogates_kept_cuts name : surrogates_kept name = true → cuts_ok (encode_utf16 name).
Proof.
  unfold surrogates_kept. rewrite forallb_forall. intros H k u Hu.
  pose proof (lookup_lt_Some _ _ _ Hu) as Hlt.
  specialize (H (S k)). rewrite negb_true_iff in H. rewrite <-H; [symmetry|].
  - f_equal. replace (13 * S k - 1)%nat with (13 * k + 12)%nat by lia. by apply nth_lookup_Some.
  - apply in_seq. split; [lia|]. pose proof (Nat.div_le_lower_bound (length (encode_utf16 name)) 13 (S k)). lia.
Qed.

Lemma lossy_chunks n v :
  cuts_ok v → (length v ≤ 13 * n)%nat →
  concat ((fun i => from_utf16_lossy (take 13 (drop (13 * i) v))) <$> seq 0 n) = from_utf16_lossy v.
Proof.
  revert v. induction n as [|n IH]; intros v Hc Hl; [by destruct v; [|simpl in Hl; lia]|].
  change (seq 0 (S n)) with (0%nat :: seq 1 n). rewrite <-fmap_S_seq, fmap_cons, <-list_fmap_compose.
  cbn [concat]. rewrite Nat.mul_0_r, drop_0.
  replace (concat _) with (from_utf16_lossy (drop 13 v)).
  2: { rewrite <-(IH (drop 13 v)).
    - f_equal. apply list_fmap_ext. intros i k _. cbn. rewrite drop_drop. do 3 f_equal. lia.
    - intros k u. rewrite lookup_drop. replace (13 + (13 * k + 12))%nat with (13 * S k + 12)%nat by lia. apply Hc.
    - rewrite length_drop. lia. }
  destruct (decide (length v < 13)%nat) as [Hs|Hs].
  { rewrite drop_ge, take_ge by lia. apply app_nil_r. }
  rewrite <-lossy_app; [by rewrite take_drop|]. intros u Hu. apply (Hc 0%nat).
  rewrite last_lookup, length_take in Hu. replace (Nat.pred (13 `min` length v)) with 12%nat in Hu by lia.
  apply lookup_take_Some in Hu as [Hu _]. done.
Qed.

Lemma take_position_zero (a : list Z) k :
  0 ∉ a → take (default (length a + k)%nat (position 0 (a ++ replicate k 0))) (a ++ replicate k 0) = a.
Proof.
  unfold position. induction a as [|x a IH]; intros Ha.
  - destruct k; [done|]. cbn. by rewrite decide_True.
  - apply not_elem_of_cons in Ha as [Hx Ha]. specialize (IH Ha). cbn [app list_find].
    rewrite decide_False by done. destruct (list_find _ (a ++ replicate k 0)) as [[i y]|]; cbn in *; by rewrite IH.
Qed.

Lemma encode_utf16_nonzero name : Forall (fun c => is_char c = true ∧ c ≠ 0) name → 0 ∉ encode_utf16 name.
Proof.
  intros Hn. unfold encode_utf16. rewrite list_elem_of_bind. intros (c & H0 & Hc).
  rewrite Forall_forall in Hn. destruct (Hn c Hc) as [Hv%is_char_spec Hz]. by apply (utf16_char_nonzero c); [|lia|].
Qed.

Lemma from_name_slice_name b o sl :
  length sl = 13%nat →
  FATLongDirEnt_name (from_name_slice b o sl) = from_utf16_lossy (take (default 13%nat (position 0 sl)) sl).
Proof. intros Hl. explode sl. done. Qed.

Lemma gen_long_name_slice_spec name i :
  Forall (fun c => is_char c = true ∧ c ≠ 0) name →
  length (gen_long_name_slice name i) = 13%nat ∧
  take (default 13%nat (position 0 (gen_long_name_slice name i))) (gen_long_name_slice name i) =
    take 13 (drop (13 * i) (encode_utf16 name)).
Proof.
  intros Hn. pose proof (encode_utf16_nonzero name Hn) as H0. unfold gen_long_name_slice, bytes_at.
  set (v := encode_utf16 name) in *. set (k := ((i + 1) * 13 - length v)%nat).
  rewrite (Nat.mul_comm i 13). set (a := take 13 (drop (13 * i) v)).
  assert (0 ∉ a) as Ha.
  { intros Hin. apply H0. unfold a in Hin. eapply elem_of_submseteq; [exact Hin|].
    etrans; [apply sublist_submseteq, sublist_take|apply sublist_submseteq, sublist_drop]. }
  assert (take 13 (drop (13 * i) (v ++ replicate k 0)) = a ++ replicate (13 - length a) 0) as ->.
  { unfold a. rewrite length_take, length_drop. destruct (decide (13 * i ≤ length v)%nat) as [Hi|Hi].
    - rewrite drop_app_le, take_app by done. f_equal. rewrite take_replicate, length_drop. f_equal. unfold k. lia.
    - rewrite drop_app_ge, drop_replicate, take_replicate by lia.
      rewrite (drop_ge v), take_nil by lia. cbn [app]. f_equal. unfold k. lia. }
  assert (length a ≤ 13)%nat by (unfold a; rewrite length_take; lia). split.
  { rewrite length_app, length_replicate. lia. }
  pose proof (take_position_zero a (13 - length a) Ha) as Hp.
  by replace (length a + (13 - length a))%nat with 13%nat in Hp by lia.
Qed.

Lemma long_ent_num_enough name : (length (encode_utf16 name) ≤ 13 * long_ent_num name)%nat.
Proof.
  pose proof (encode_utf16_length name). unfold long_ent_num.
  pose proof (Nat.div_mod (length (as_bytes name) + 12) 13). pose proof (Nat.mod_upper_bound (length (as_bytes name) + 12) 13). lia.
Qed.

Lemma long_names_concat name :
  Forall (fun c => is_char c = true ∧ c ≠ 0) name → surrogates_kept name = true →
  concat (FATLongDirEnt_name <$> gen_long_ents (gen_long_name_slice name <$> seq 0 (long_ent_num name))) = name.
Proof.
  intros Hn Hk. transitivity (from_utf16_lossy (encode_utf16 name)).
  - rewrite <-(lossy_chunks (long_ent_num name)); [|by apply surrogates_kept_cuts|apply long_ent_num_enough].
    f_equal. unfold gen_long_ents. apply list_eq. intros i.
    rewrite !list_lookup_fmap, list_lookup_imap, list_lookup_fmap.
    destruct (seq 0 (long_ent_num name) !! i) as [j|] eqn:E; [|done]. cbn [fmap option_fmap option_map]. f_equal.
    apply lookup_seq in E as [-> _]. rewrite Nat.add_0_l. destruct (gen_long_name_slice_spec name i Hn) as [Hl Ht].
    by rewrite from_name_slice_name, Ht.
  - pose proof (utf16_roundtrip name []) as Hr. rewrite !app_nil_r in Hr. apply Hr.
    eapply Forall_impl; [exact Hn|]. naive_solver.
Qed.

(** ** Short names are unique *)

Definition hex4 (i : Z) : list Z :=
  [hex_digit (i / 4096); hex_digit (i / 256 mod 16); hex_digit (i / 16 mod 16); hex_digit (i mod 16)].

Lemma format_04X_spec i : 0 ≤ i < 65536 → format_04X i = hex4 i.
Proof.
  intros Hi. unfold format_04X, wrap32. rewrite Z.mod_small by lia.
  assert (i / 16 / 16 = i / 256) as H2 by (by rewrite Z.div_div).
  assert (i / 256 / 16 = i / 4096) as H3 by (by rewrite Z.div_div).
  assert (i / 4096 / 16 = 0) as H4 by (rewrite Z.div_div by lia; apply Z.div_small; lia).
  assert (0 ≤ i / 4096 < 16) as Hr by (split; [apply Z.div_pos; lia|apply Z.div_lt_upper_bound; lia]).
  cbn [hex_digits]. rewrite H2, H3, H4, Z.eqb_refl.
  destruct (Z.eqb_spec (i / 16) 0) as [E1|E1]; [|destruct (Z.eqb_spec (i / 256) 0) as [E2|E2];
    [|destruct (Z.eqb_spec (i / 4096) 0) as [E3|E3]]]; unfold hex4; cbn [length Nat.sub replicate app].
  - rewrite E1 in H2. rewrite <-H2 in H3. rewrite <-H3, <-H2, E1. done.
  - rewrite E2 in H3. by rewrite <-H3, E2.
  - by rewrite E3.
  - by rewrite (Z.mod_small (i / 4096)).
Qed.

Lemma hex4_u8 i : 0 ≤ i < 65536 → Forall is_u8 (hex4 i).
Proof.
  intros Hi. assert (∀ d, 0 ≤ d < 16 → is_u8 (hex_digit d)) as Hd by (unfold is_u8, hex_digit; intros; case_match; lia).
  unfold hex4. rewrite !Forall_cons. split_and!; try done; apply Hd; try (apply Z.mod_pos_bound; lia).
  split; [apply Z.div_pos; lia|apply Z.div_lt_upper_bound; lia].
Qed.

Lemma hex_digit_inj a b : 0 ≤ a < 16 → 0 ≤ b < 16 → hex_digit a = hex_digit b → a = b.
Proof. unfold hex_digit. repeat case_match; lia. Qed.

Lemma hex4_inj i j : 0 ≤ i < 65536 → 0 ≤ j < 65536 → hex4 i = hex4 j → i = j.
Proof.
  intros Hi Hj. unfold hex4. intros [= E1 E2 E3 E4].
  assert (∀ k, 0 ≤ k < 65536 → 0 ≤ k / 4096 < 16 ∧ k = (k / 4096) * 4096 + (k / 256 mod 16) * 256 + (k / 16 mod 16) * 16 + k mod 16) as H.
  { intros k Hk. split; [split; [apply Z.div_pos; lia|apply Z.div_lt_upper_bound; lia]|].
    pose proof (Z.div_mod k 16 ltac:(lia)). pose proof (Z.div_mod (k / 16) 16 ltac:(lia)) as D2.
    pose proof (Z.div_mod (k / 256) 16 ltac:(lia)) as D3. rewrite Z.div_div in D2, D3 by lia.
    change (16 * 16) with 256 in D2. change (256 * 16) with 4096 in D3. lia. }
  destruct (H i Hi) as [? Ei]. destruct (H j Hj) as [? Ej].
  apply hex_digit_inj in E1, E2, E3, E4; try (by apply Z.mod_pos_bound); try done. lia.
Qed.

Lemma name_taken_spec v name : name_taken v name = true ↔ name ∈ get_short_name_array <$> v.
Proof.
  unfold name_taken. rewrite existsb_exists, list_elem_of_fmap. split.
  - intros (e & He & Heq%bool_decide_eq_true). exists e. by rewrite <-list_elem_of_In in He.
  - intros (e & -> & He). exists e. rewrite <-list_elem_of_In. by rewrite bool_decide_eq_true.
Qed.

Lemma put_slice_length l off d : (off + length d ≤ length l)%nat → length (put_slice l off d) = length l.
Proof. intros H. unfold put_slice. rewrite !length_app, length_take, length_drop. lia. Qed.

Lemma put_slice_twice l off d d' :
  length d = length d' → (off + length d ≤ length l)%nat → put_slice (put_slice l off d) off d' = put_slice l off d'.
Proof.
  intros Hd Hl. unfold put_slice. rewrite take_app_length' by (rewrite length_take; lia).
  do 2 f_equal. rewrite <-Hd, drop_app, drop_app, length_take, !drop_drop.
  rewrite (drop_ge (take off l)), (drop_ge d) by (rewrite ?length_take; lia). cbn [app]. f_equal. lia.
Qed.

Lemma put_slice_inj l off d d' :
  length d = length d' → (off ≤ length l)%nat → put_slice l off d = put_slice l off d' → d = d'.
Proof.
  intros Hd Hl H. unfold put_slice in H. apply app_inj_1 in H as [_ H]; [|done]. by apply app_inj_1 in H as [H _].
Qed.

(** Every round of the last loop tries another number. *)
Lemma numtail_hex_cases fuel v name b i :
  (b + 4 ≤ length name)%nat → i < 65536 → 11 * (Z.of_nat fuel - 1) ≤ i →
  (∃ k, (k < fuel)%nat ∧ numtail_hex fuel v name b i = Ok (put_slice name b (hex4 (i - 11 * Z.of_nat k))) ∧
     name_taken v (put_slice name b (hex4 (i - 11 * Z.of_nat k))) = false) ∨
  (∀ k, (k < fuel)%nat → name_taken v (put_slice name b (hex4 (i - 11 * Z.of_nat k))) = true).
Proof.
  revert name i. induction fuel as [|fuel IH]; intros name i Hl Hi Hlo; [right; lia|].
  cbn [numtail_hex]. rewrite format_04X_spec by lia. change (take 4 (hex4 i)) with (hex4 i).
  assert (put_slice name b (hex4 (i - 11 * Z.of_nat 0)) = put_slice name b (hex4 i)) as H0 by (do 2 f_equal; lia).
  destruct (name_taken v (put_slice name b (hex4 i))) eqn:Et; cbn [negb].
  2: { left. exists 0%nat. rewrite H0. split; [lia|done]. }
  destruct fuel as [|fuel'].
  { right. intros k Hk. replace k with 0%nat by lia. by rewrite H0. }
  assert (∀ k, put_slice (put_slice name b (hex4 i)) b (hex4 (i - 11 - 11 * Z.of_nat k)) =
    put_slice name b (hex4 (i - 11 * Z.of_nat (S k)))) as Hk.
  { intros k. rewrite put_slice_twice by (done || (cbn [hex4 length]; lia)). do 2 f_equal. lia. }
  destruct (IH (put_slice name b (hex4 i)) (i - 11)) as [(k & Hlt & Heq & Hn)|Hall].
  { by rewrite put_slice_length. } { lia. } { lia. }
  - left. exists (S k). rewrite Hk in Heq, Hn. split; [lia|done].
  - right. intros [|k] Hlt; [by rewrite H0|]. rewrite <-Hk. apply Hall. lia.
Qed.

Lemma numtail_hex_ok fuel v name b i :
  (b + 4 ≤ length name)%nat → i < 65536 → 11 * Z.of_nat (length v) ≤ i → (length v < fuel)%nat →
  ∃ j, 0 ≤ j < 65536 ∧ numtail_hex fuel v name b i = Ok (put_slice name b (hex4 j)) ∧
    name_taken v (put_slice name b (hex4 j)) = false.
Proof.
  intros Hl Hi Hlo Hf.
  assert (∀ f, (S (length v) ≤ f)%nat → ∀ r, numtail_hex (S (length v)) v name b i = Ok r → numtail_hex f v name b i = Ok r) as Hmono.
  { clear. generalize (S (length v)). intros n f Hle. revert f Hle name i. induction n as [|n IH]; intros f Hle name i r; [done|].
    destruct f as [|f]; [lia|]. cbn [numtail_hex]. case_match; [done|]. apply IH. lia. }
  destruct (numtail_hex_cases (S (length v)) v name b i) as [(k & Hk & Heq & Hn)|Hall]; [done|lia|lia|..].
  - exists (i - 11 * Z.of_nat k). split; [lia|]. split; [|done]. apply Hmono; [lia|done].
  - exfalso. set (tried := (fun k => put_slice name b (hex4 (i - 11 * Z.of_nat k))) <$> seq 0 (S (length v))).
    assert (NoDup tried) as Hnd.
    { apply NoDup_fmap_2_strong; [|apply NoDup_seq]. intros x y Hx%elem_of_seq Hy%elem_of_seq E.
      apply put_slice_inj in E; [|done|lia]. apply hex4_inj in E; lia. }
    assert (tried ⊆ get_short_name_array <$> v) as Hsub.
    { intros n Hn. apply list_elem_of_fmap in Hn as (k & -> & Hk%elem_of_seq). apply name_taken_spec, Hall. lia. }
    apply NoDup_submseteq in Hsub; [|done]. apply submseteq_length in Hsub.
    unfold tried in Hsub. rewrite !length_fmap, length_seq in Hsub. lia.
Qed.

(** The first byte and the extension of a name. *)
Definition same_ends (r name : list Z) : Prop :=
  length r = length name ∧ (∀ j, (j = 0%nat ∨ (8 ≤ j)%nat) → r !! j = name !! j) ∧ Forall is_u8 r.

Lemma same_ends_insert i x r name : (1 ≤ i ≤ 7)%nat → is_u8 x → same_ends r name → same_ends (<[i := x]> r) name.
Proof.
  intros Hi Hx (Hl & Hj & Hu). split; [by rewrite length_insert|]. split; [|by apply Forall_insert].
  intros j Hlt. rewrite list_lookup_insert_ne by lia. by apply Hj.
Qed.

Lemma same_ends_put b d r name :
  (1 ≤ b)%nat → (b + length d ≤ 8)%nat → (8 ≤ length name)%nat → Forall is_u8 d →
  same_ends r name → same_ends (put_slice r b d) name.
Proof.
  intros Hb Hd Hn Hdu (Hl & Hj & Hu). split; [by rewrite put_slice_length by lia|]. split.
  2: { unfold put_slice. rewrite !Forall_app. split_and!; [by apply Forall_take|done|by apply Forall_drop]. }
  intros j Hlt. rewrite <-Hj by done.
  unfold put_slice. destruct Hlt as [-> |Hlt].
  - rewrite lookup_app_l by (rewrite length_take; lia). by rewrite lookup_take_lt by lia.
  - rewrite lookup_app_r by (rewrite length_take; lia). rewrite length_take, Nat.min_l by lia.
    rewrite lookup_app_r by lia. rewrite lookup_drop. f_equal. lia.
Qed.

Lemma numtail_digits_spec v r name b ds :
  (1 ≤ b ≤ 6)%nat → Forall (fun d => is_u8 (d + 48)) ds → same_ends r name →
  match numtail_digits v r b ds with
  | inl r' => same_ends r' name ∧ name_taken v r' = false
  | inr r' => same_ends r' name
  end.
Proof.
  intros Hb Hds. revert r. induction Hds as [|d ds Hd Hds IH]; intros r Hr; cbn [numtail_digits]; [done|].
  assert (same_ends (<[(b + 1)%nat := d + 48]> r) name) as Hr' by (apply same_ends_insert; [lia|done|done]).
  destruct (name_taken v _) eqn:E; cbn [negb]; [by apply IH|done].
Qed.

Lemma gen_short_name_numtail_ok fuel v name :
  length name = 11%nat → Forall is_u8 name → name !! 0%nat ≠ Some 32 → (length v < 4446)%nat → (length v < fuel)%nat →
  ∃ r, gen_short_name_numtail fuel v name = Ok r ∧ same_ends r name ∧ name_taken v r = false.
Proof.
  intros Hl Hu H0 Hv Hf. unfold gen_short_name_numtail. destruct (name_taken v name) eqn:Et; cbn [negb]; [|by exists name].
  set (bl := default 8%nat (position 32 name)).
  assert (1 ≤ bl)%nat as Hbl.
  { unfold bl, position. destruct (list_find _ name) as [[[|i] y]|] eqn:E; cbn; [|lia|lia].
    apply list_find_Some in E as (E & -> & _). done. }
  set (p := if (6 <? bl)%nat then _ else _).
  assert ((1 ≤ p.1 ≤ 6)%nat ∧ same_ends p.2 name) as [Hp1 Hp2].
  { unfold p. destruct (Nat.ltb_spec 6 bl); cbn [fst snd]; (split; [lia|]); [apply same_ends_insert; [lia|done|]|]; by split. }
  destruct p as [b r]. cbn [fst snd] in *.
  pose proof (numtail_digits_spec v (<[b := 126]> r) name b (seqZ 1 9) Hp1
    ltac:(apply Forall_forall; intros d Hd%elem_of_seqZ; unfold is_u8; lia) ltac:(by apply same_ends_insert; [lia|done|])) as Hd.
  destruct (numtail_digits _ _ _ _) as [r'|r']; [by exists r'; destruct Hd|].
  set (q := if (2 <? b)%nat then _ else _).
  assert ((1 ≤ q.1 ≤ 2)%nat ∧ same_ends q.2 name) as [Hq1 Hq2].
  { unfold q. destruct (Nat.ltb_spec 2 b); cbn [fst snd]; (split; [lia|]); [by apply same_ends_insert; [lia|done|]|done]. }
  destruct q as [b' r1]. cbn [fst snd] in *.
  match goal with |- context [numtail_hex fuel v ?n b' ?i] => set (n0 := n); set (i0 := i) end.
  assert (same_ends n0 name) as Hn0 by (apply same_ends_insert; [lia|done|]; apply same_ends_insert; [lia|done|done]).
  assert (i0 = 48902) as Hi0 by reflexivity.
  destruct (numtail_hex_ok fuel v n0 b' i0) as (j & Hj & Heq & Hn); [rewrite (proj1 Hn0); lia|lia|lia|done|].
  eexists. split; [exact Heq|]. split; [|done]. apply same_ends_put; [lia|cbn [hex4 length]; lia|lia| |done].
  apply hex4_u8; lia.
Qed.

(** ** Which names have a short name *)

(** Without spaces: the part before the last dot is not made of dots only,
    or there is no such part and the rest is not empty. *)
Definition short_name_legal (name : list Z) : bool :=
  let s := to_ascii_uppercase <$> filter (fun c => c ≠ 32) name in
  match rsplit_once s 46 with
  | None => negb (length s =? 0)%nat
  | Some ([], ext) => negb (length ext =? 0)%nat
  | Some (base, _) => existsb (fun c => negb (c =? 46)) base
  end.

Definition ascii (s : list Z) : Prop := Forall (fun c => is_ascii c = true) s.

Lemma str_len_ascii s : ascii s → str_len s = Z.of_nat (length s).
Proof. intros Hs. unfold str_len. by rewrite as_bytes_ascii. Qed.

Lemma split_at_ascii s n : ascii s → (n ≤ length s)%nat → split_at s (Z.of_nat n) = Ok (take n s, drop n s).
Proof.
  intros Hs. revert n. induction Hs as [|c s Hc Hs IH]; intros n Hn; cbn [length] in Hn.
  - by replace n with 0%nat by lia.
  - destruct n as [|n]; [done|]. cbn [split_at take drop]. rewrite (proj2 (Z.eqb_neq _ 0)) by lia.
    assert (utf8_char c = [c]) as -> by (unfold is_ascii in Hc; apply andb_true_iff in Hc as [_ Hc]; unfold utf8_char; by rewrite Hc).
    cbn [length]. rewrite (proj2 (Z.ltb_ge _ _)) by lia.
    replace (Z.of_nat (S n) - Z.of_nat 1) with (Z.of_nat n) by lia. by rewrite IH by lia.
Qed.

Lemma rsplit_once_spec s d :
  match rsplit_once s d with
  | Some (a, b) => s = a ++ d :: b ∧ d ∉ b
  | None => d ∉ s
  end.
Proof.
  induction s as [|c s IH]; cbn [rsplit_once]; [set_solver|].
  destruct (rsplit_once s d) as [[a b]|]; [destruct IH as [-> IH]; done|].
  destruct (Z.eqb_spec c d) as [->|Hne]; [done|set_solver].
Qed.

Lemma trim_dots s :
  trim_start_matches (strip_dots s) 46 = trim_start_matches s 46 ∧
  (trim_start_matches s 46 = [] ↔ existsb (fun c => negb (c =? 46)) s = false) ∧
  (∀ P : Z → Prop, Forall P s → Forall P (trim_start_matches s 46)).
Proof.
  assert (∀ s, trim_start_matches (trim_start_matches s 46) 46 = trim_start_matches s 46) as Hidem.
  { clear. induction s as [|c s IH]; [done|]. cbn [trim_start_matches]. destruct (c =? 46) eqn:E; [done|].
    cbn [trim_start_matches]. by rewrite E. }
  split_and!.
  - unfold strip_dots. destruct (trim_start_matches s 46) as [|c t] eqn:E; [done|]. by rewrite <-E, Hidem.
  - induction s as [|c s IH]; [done|]. cbn [trim_start_matches existsb]. by destruct (c =? 46).
  - intros P. induction 1 as [|c s Hc Hs IH]; [done|]. cbn [trim_start_matches]. case_match; [done|by constructor].
Qed.

Lemma trim_no_dots s : 46 ∉ s → trim_start_matches s 46 = s.
Proof.
  destruct s as [|c s]; [done|]. intros [Hc _]%not_elem_of_cons. cbn [trim_start_matches].
  by rewrite (proj2 (Z.eqb_neq c 46)) by congruence.
Qed.

(** The two halves of a short name. *)
Definition short_parts (name : list Z) : list Z * list Z :=
  let s := to_ascii_uppercase <$> filter (fun c => c ≠ 32) name in
  let '(base, ext) := default (s, []) (rsplit_once s 46) in
  let '(base, ext) :=
    if (str_len base =? 0) && negb (str_len ext =? 0) then (ext, base) else (base, ext) in
  (trim_start_matches (strip_dots base) 46, ext).

(** Characters of a short name. *)
Definition short_char (c : Z) : Prop := is_ascii c = true ∧ c ≠ 0 ∧ c ≠ 32.

Lemma to_upper_short c : short_char c → short_char (to_ascii_uppercase c).
Proof.
  unfold short_char, to_ascii_uppercase, is_ascii. rewrite !andb_true_iff, !Z.leb_le, !Z.ltb_lt. case_match eqn:E; [|done].
  apply andb_true_iff in E as [E1%Z.leb_le E2%Z.leb_le]. lia.
Qed.

Lemma short_parts_spec name :
  ascii name → 0 ∉ name →
  Forall short_char (short_parts name).1 ∧ Forall short_char (short_parts name).2 ∧
  ((short_parts name).1 = [] ↔ short_name_legal name = false).
Proof.
  intros Ha H0. unfold short_parts, short_name_legal. set (s := to_ascii_uppercase <$> _).
  assert (Forall short_char s) as Hs.
  { apply Forall_forall. intros c Hc. apply list_elem_of_fmap in Hc as (c' & -> & Hc').
    apply list_elem_of_filter in Hc' as [Hne Hin]. apply to_upper_short. unfold ascii in Ha. rewrite Forall_forall in Ha.
    split; [by apply Ha|]. split; [congruence|done]. }
  clearbody s. assert (∀ l, Forall short_char l → ascii l) as Hasc.
  { intros l Hl. eapply Forall_impl; [exact Hl|]. by intros ? []. }
  pose proof (rsplit_once_spec s 46) as Hsp. destruct (rsplit_once s 46) as [[b e]|]; cbn [from_option id].
  - destruct Hsp as [-> Hd]. apply Forall_app in Hs as [Hb He%Forall_cons_1]. destruct He as [_ He].
    rewrite !str_len_ascii by (by apply Hasc). destruct b as [|c b].
    + destruct e as [|c e].
      * by split_and!.
      * rewrite (proj2 (Z.eqb_neq (Z.of_nat (length (c :: e))) 0)) by (cbn [length]; lia).
        change (Z.of_nat (length []) =? 0) with true. cbn [andb negb].
        destruct (trim_dots (c :: e)) as (T1 & T2 & T3). cbn [fst snd]. rewrite T1, trim_no_dots by done.
        by split_and!.
    + rewrite (proj2 (Z.eqb_neq _ _)) by (cbn [length]; lia). cbn [andb fst snd].
      destruct (trim_dots (c :: b)) as (T1 & T2 & T3). rewrite T1. split_and!; [by apply T3|done|done].
  - rewrite !str_len_ascii by (done || by apply Hasc). cbn [length Z.of_nat negb]. rewrite andb_false_r. cbn [fst snd].
    destruct (trim_dots s) as (T1 & T2 & T3). rewrite T1, trim_no_dots by done. split_and!; [done|done|].
    destruct s; [done|]. by split.
Qed.

Lemma gen_short_name_prefix_spec name :
  ascii name → 0 ∉ name →
  gen_short_name_prefix name =
    Ok (if short_name_legal name
        then pad_right 8 (take 8 (short_parts name).1) ++ pad_right 3 (take 3 (short_parts name).2)
        else match (short_parts name).2 with [] => [] | ext => replicate 8 32 ++ pad_right 3 (take 3 ext) end).
Proof.
  intros Ha H0. destruct (short_parts_spec name Ha H0) as (Hb & He & Hlegal).
  unfold gen_short_name_prefix. revert Hb He Hlegal. unfold short_parts.
  set (s := to_ascii_uppercase <$> _). destruct (default (s, []) (rsplit_once s 46)) as [b0 e0].
  destruct (if (str_len b0 =? 0) && negb (str_len e0 =? 0) then (e0, b0) else (b0, e0)) as [b1 e]. cbn [fst snd].
  generalize (trim_start_matches (strip_dots b1) 46). intros b Hb He Hlegal.
  assert (∀ l, Forall short_char l → ascii l) as Hasc.
  { intros l Hl. eapply Forall_impl; [exact Hl|]. by intros ? []. }
  assert (∀ l n, Forall short_char l → split_at l (Z.min (Z.of_nat n) (str_len l)) = Ok (take n l, drop n l)) as Hsplit.
  { intros l n Hl. rewrite str_len_ascii by (by apply Hasc). destruct (decide (n ≤ length l)%nat).
    - rewrite Z.min_l by lia. by apply split_at_ascii; [apply Hasc|].
    - rewrite Z.min_r by lia. rewrite split_at_ascii by (done || by apply Hasc). by rewrite !drop_ge, !take_ge by lia. }
  pose proof (Hsplit b 8%nat Hb) as H8. pose proof (Hsplit e 3%nat He) as H3.
  change (Z.of_nat 8) with 8 in H8. change (Z.of_nat 3) with 3 in H3. rewrite H8, H3. clear H8 H3. rewrite !(str_len_ascii e), (str_len_ascii b) by (by apply Hasc).
  destruct (short_name_legal name) eqn:El.
  - destruct b as [|c b]; [by pose proof (proj1 Hlegal eq_refl)|].
    rewrite (proj2 (Z.eqb_neq (Z.of_nat (length (c :: b))) 0)) by (cbn [length]; lia). rewrite orb_true_r. cbn [mbind outcome_bind].
    unfold str_len. rewrite (proj2 (Z.eqb_neq (Z.of_nat (length (as_bytes _))) 0)); [by rewrite orb_true_r|].
    pose proof (encode_utf16_length (pad_right 8 (take 8 (c :: b)))). unfold pad_right in *. rewrite length_app in *. cbn [take length] in *. lia.
  - rewrite (proj2 Hlegal eq_refl). destruct e as [|c e]; [done|].
    rewrite (proj2 (Z.eqb_neq (Z.of_nat (length (c :: e))) 0)) by (cbn [length]; lia). done.
Qed.

Lemma short_char_u8 c : short_char c → is_u8 c.
Proof. unfold short_char, is_ascii, is_u8. rewrite andb_true_iff, Z.leb_le, Z.ltb_lt. lia. Qed.

Lemma pad_right_spec n s :
  Forall short_char s → (length s ≤ n)%nat →
  length (pad_right n s) = n ∧ ascii (pad_right n s) ∧ Forall is_u8 (pad_right n s).
Proof.
  intros Hs Hl. unfold pad_right, ascii. rewrite length_app, length_replicate, !Forall_app. split_and!; [lia| | | |].
  - eapply Forall_impl; [exact Hs|]. by intros ? [].
  - by apply Forall_replicate.
  - eapply Forall_impl; [exact Hs|]. apply short_char_u8.
  - by apply Forall_replicate.
Qed.

Lemma gen_short_name_slice_spec fuel v name :
  ascii name → 0 ∉ name → (length v < 4446)%nat → (length v < fuel)%nat →
  if short_name_legal name then
    ∃ r c, gen_short_name_slice fuel v name = Ok r ∧ length r = 11%nat ∧ Forall is_u8 r ∧
      (r ∉ get_short_name_array <$> v) ∧ r !! 0%nat = Some c ∧ short_char c ∧
      drop 8 r = pad_right 3 (take 3 (short_parts name).2)
  else gen_short_name_slice fuel v name = Panic.
Proof.
  intros Ha H0 Hv Hf. destruct (short_parts_spec name Ha H0) as (Hb & He & Hlegal).
  unfold gen_short_name_slice. rewrite gen_short_name_prefix_spec by done.
  destruct (short_parts name) as [base ext]. cbn [fst snd] in *. cbn [mbind outcome_bind].
  destruct (short_name_legal name) eqn:El.
  - destruct base as [|c base]; [by pose proof (proj1 Hlegal eq_refl)|].
    destruct (pad_right_spec 8 (take 8 (c :: base))) as (L8 & A8 & U8); [by apply Forall_take|rewrite length_take; lia|].
    destruct (pad_right_spec 3 (take 3 ext)) as (L3 & A3 & U3); [by apply Forall_take|rewrite length_take; lia|].
    set (b8 := pad_right 8 _) in *. set (e3 := pad_right 3 _) in *.
    assert (ascii (b8 ++ e3)) as Has by (by apply Forall_app). rewrite str_len_ascii, as_bytes_ascii by done.
    assert (length (b8 ++ e3) = 11%nat) as L11 by (rewrite length_app; lia).
    apply Forall_cons in Hb as [Hc Hb]. assert (b8 !! 0%nat = Some c) as Hb0 by done.
    rewrite L11, (take_ge (b8 ++ e3)) by lia. change (Z.of_nat 11 =? 0) with false. change (11 <? 11)%nat with false.
    assert (∃ rest, b8 ++ e3 = c :: rest) as [rest Hrest] by (by eexists).
    assert ((default 8%nat (position 32 (b8 ++ e3)) =? 0)%nat = false) as ->.
    { rewrite Hrest. unfold position. cbn [list_find]. rewrite decide_False by apply Hc.
      by destruct (list_find _ rest) as [[]|]. }
    cbn [orb]. destruct (gen_short_name_numtail_ok fuel v (b8 ++ e3)) as (r & Hr & (Hl & Hj & Hu) & Hn); try done.
    { by apply Forall_app. } { rewrite Hrest. intros [= ->]. by destruct Hc as (_ & _ & []). }
    exists r, c. split_and!; [done|congruence|done| | |done|].
    + intros Hin%name_taken_spec. congruence.
    + rewrite Hj by lia. by rewrite lookup_app_l by lia.
    + apply list_eq. intros i. rewrite lookup_drop, Hj by lia. rewrite lookup_app_r by lia. f_equal. lia.
  - destruct ext as [|c ext]; [done|].
    destruct (pad_right_spec 3 (take 3 (c :: ext))) as (L3 & A3 & _); [by apply Forall_take|rewrite length_take; lia|].
    rewrite (as_bytes_ascii (replicate 8 32 ++ _)); [by rewrite orb_true_r|].
    apply Forall_app. split; [by apply Forall_replicate|done].
Qed.

(** ** The long entries of a name *)

Lemma ord_bits o : 0 < o < 64 →
  Z.land (Z.lor o 64) 63 = o ∧ Z.land o 63 = o ∧ Z.land o 64 = 0 ∧ Z.land (Z.lor o 64) 64 = 64 ∧
  0 < Z.lor o 64 < 128.
Proof.
  intros Ho. assert (forallb (fun o => (Z.land (Z.lor o 64) 63 =? o) && (Z.land o 63 =? o) && (Z.land o 64 =? 0)
    && (Z.land (Z.lor o 64) 64 =? 64) && (0 <? Z.lor o 64) && (Z.lor o 64 <? 128)) (seqZ 1 63) = true) as H by (vm_compute; done).
  rewrite forallb_forall in H. specialize (H o ltac:(apply list_elem_of_In, elem_of_seqZ; lia)).
  rewrite !andb_true_iff, !Z.eqb_eq, !Z.ltb_lt in H. intuition.
Qed.

Lemma utf16_char_u16 c : is_char c = true → Forall is_u16 (utf16_char c).
Proof.
  intros Hc%is_char_spec. unfold utf16_char, is_u16. destruct (Z.ltb_spec c 0x10000); rewrite !Forall_cons.
  - split; [lia|done].
  - pose proof (Z.div_mod (c - 0x10000) 1024). pose proof (Z.mod_pos_bound (c - 0x10000) 1024). split_and!; lia || done.
Qed.

(** A name that long entries can hold. *)
Record long_name_ok (name : list Z) : Prop := {
  ln_chars : Forall (fun c => is_char c = true ∧ c ≠ 0) name;
  ln_kept : surrogates_kept name = true;
  ln_len : 0 < str_len name < 256
}.

Definition name_ents (name : list Z) : list FATLongDirEnt :=
  gen_long_ents (gen_long_name_slice name <$> seq 0 (long_ent_num name)).

Lemma name_ents_length name : length (name_ents name) = long_ent_num name.
Proof. unfold name_ents, gen_long_ents. by rewrite length_imap, length_fmap, length_seq. Qed.

Lemma long_ent_num_range name : 0 < str_len name < 256 → (0 < long_ent_num name ≤ 20)%nat.
Proof.
  unfold str_len, long_ent_num. intros Hl. pose proof (Nat.div_mod (length (as_bytes name) + 12) 13 ltac:(lia)).
  pose proof (Nat.mod_upper_bound (length (as_bytes name) + 12) 13 ltac:(lia)). lia.
Qed.

Lemma name_ents_lookup name i l :
  long_name_ok name → name_ents name !! i = Some l →
  long_wf l ∧ le_attr l = AttrLongName ∧
  le_ord l = (if (S i =? long_ent_num name)%nat then Z.lor (Z.of_nat (S i)) LAST_LONG_ENTRY else Z.of_nat (S i)) ∧
  (i < long_ent_num name)%nat.
Proof.
  intros [Hc Hk Hlen] Hi. pose proof (long_ent_num_range name Hlen) as Hn.
  unfold name_ents, gen_long_ents in Hi. rewrite list_lookup_imap, list_lookup_fmap, length_fmap, length_seq in Hi.
  destruct (seq 0 (long_ent_num name) !! i) as [j|] eqn:E; [|done]. apply lookup_seq in E as [-> Hlt].
  cbn [fmap option_fmap option_map] in Hi. injection Hi as <-. rewrite ?Nat.add_0_l, ?Nat.add_1_r.
  destruct (gen_long_name_slice_spec name i Hc) as [Hl _]. pose proof (ord_bits (Z.of_nat (S i)) ltac:(lia)) as Hb.
  assert (Forall is_u16 (gen_long_name_slice name i)) as Hu.
  { unfold gen_long_name_slice, bytes_at. apply Forall_take, Forall_drop, Forall_app. split; [|by apply Forall_replicate].
    unfold encode_utf16. apply Forall_forall. intros u Hu. apply list_elem_of_bind in Hu as (c & Hu & Hin).
    rewrite Forall_forall in Hc. destruct (Hc c Hin) as [Hv _]. pose proof (utf16_char_u16 c Hv) as H16.
    rewrite Forall_forall in H16. by apply H16. }
  assert (wrap8 (Z.of_nat (S i)) = Z.of_nat (S i)) as Hw by (unfold wrap8; apply Z.mod_small; lia).
  split; [|split; [done|]].
  - split; unfold from_name_slice, bytes_at; cbn [name1 name2 name3 le_ord le_attr ldir_type chk_sum le_fst_clus_lo FATLongDirEnt_empty].
    + rewrite !length_take, !length_drop. lia.
    + revert Hl Hu. generalize (gen_long_name_slice name i). intros sl Hl Hu. explode sl. exact Hu.
    + rewrite Hw. unfold is_u8, LAST_LONG_ENTRY. split_and!; try (case_match; lia); done.
    + unfold is_u16. lia.
  - unfold from_name_slice. cbn [le_ord]. by rewrite Hw.
Qed.

(** Read back from the disk, the entries are in use, numbered from one, the
    last one is marked, and together they hold the name. *)
Lemma name_ents_read name :
  long_name_ok name →
  concat (get_name <$> (of_long <$> name_ents name)) = name ∧
  ∀ i l, name_ents name !! i = Some l → is_long (of_long l) = true ∧ unused (of_long l) = false ∧
    ord (of_long l) = Z.of_nat (S i) ∧
    is_last_long_dir_ent (of_long l) = (S i =? long_ent_num name)%nat.
Proof.
  intros Hok. split.
  - rewrite <-(long_names_concat name) at 2 by apply Hok. f_equal. rewrite <-list_fmap_compose.
    apply list_fmap_ext. intros i l Hi. destruct (name_ents_lookup name i l Hok Hi) as (Hwf & Ha & _).
    change (get_name (of_long l) = FATLongDirEnt_name l). unfold get_name. by rewrite attr_of_long, Ha, Z.eqb_refl, long_entry_of_long by done.
  - intros i l Hi. destruct (name_ents_lookup name i l Hok Hi) as (Hwf & Ha & Ho & Hlt).
    pose proof (long_ent_num_range name (ln_len name Hok)) as Hn. pose proof (ord_bits (Z.of_nat (S i)) ltac:(lia)) as (B1 & B2 & B3 & B4 & B5).
    assert (is_long (of_long l) = true) as Hlong by (by rewrite attr_of_long, Ha).
    unfold unused, last_and_unused, unused_not_last, ord, is_last_long_dir_ent, get_long_ent.
    rewrite Hlong, long_entry_of_long, Ho by done. unfold LAST_LONG_ENTRY, DIR_ENTRY_LAST_AND_UNUSED, DIR_ENTRY_UNUSED in *.
    change (64 - 1) with 63. destruct (Nat.eqb_spec (S i) (long_ent_num name)).
    + rewrite B1, B4. split_and!; try done. apply orb_false_iff. split; apply Z.eqb_neq; lia.
    + rewrite B2, B3. split_and!; try done. apply orb_false_iff. split; apply Z.eqb_neq; lia.
Qed.

Lemma ascii_long_name_ok name : ascii name → 0 ∉ name → 0 < str_len name < 256 → long_name_ok name.
Proof.
  intros Ha H0 Hl. unfold ascii in Ha. split; [| |done].
  - rewrite Forall_forall in Ha |- *. intros c Hc. specialize (Ha c Hc). split; [|congruence].
    apply is_char_spec. unfold is_ascii in Ha. apply andb_true_iff in Ha as [?%Z.leb_le ?%Z.ltb_lt]. lia.
  - unfold surrogates_kept. apply forallb_forall. intros k _. apply negb_true_iff. rewrite nth_lookup.
    assert (encode_utf16 name = name) as ->.
    { clear -Ha. induction Ha as [|c name Hc Ha IH]; [done|]. unfold encode_utf16 in *. rewrite bind_cons, IH. unfold utf16_char.
      unfold is_ascii in Hc. apply andb_true_iff in Hc as [?%Z.leb_le ?%Z.ltb_lt]. by rewrite (proj2 (Z.ltb_lt _ _)) by lia. }
    destruct (name !! _) as [c|] eqn:E; [|done]. cbn. rewrite Forall_forall in Ha. specialize (Ha c (list_elem_of_lookup_2 _ _ _ E)).
    unfold is_ascii in Ha. apply andb_true_iff in Ha as [?%Z.leb_le ?%Z.ltb_lt]. unfold is_high_surrogate. by rewrite (proj2 (Z.leb_gt _ _)) by lia.
Qed.

Lemma from_name_wf sn clus ft : length sn = 11%nat → Forall is_u8 sn → short_wf (from_name sn clus ft).
Proof.
  intros Hl Hu. split; [done|done| | |done].
  - unfold is_u8. cbn. split_and!; try lia; by case_bool_decide.
  - cbn [from_name set_fst_clus crt_time crt_date last_acc_date fst_clus_hi wrt_time wrt_date se_fst_clus_lo FATShortDirEnt_empty]. unfold is_u16, wrap16.
    pose proof (Z.mod_pos_bound (Z.shiftr clus 16) (2 ^ 16) ltac:(lia)). pose proof (Z.mod_pos_bound (Z.land clus 65535) (2 ^ 16) ltac:(lia)).
    split_and!; lia.
Qed.


Lemma get_first_clus_from_name sn clus ft : 0 ≤ clus < 2 ^ 32 → get_first_clus (from_name sn clus ft) = clus.
Proof.
  intros Hc. unfold get_first_clus, from_name, set_fst_clus, wrap32, wrap16. cbn [se_fst_clus_lo fst_clus_hi].
  change 65535 with (Z.ones 16). rewrite Z.land_ones, Z.shiftr_div_pow2, Z.shiftl_mul_pow2 by lia.
  pose proof (Z.mod_pos_bound clus (2 ^ 16) ltac:(lia)). pose proof (Z.div_pos clus (2 ^ 16)). pose proof (Z.div_lt_upper_bound clus (2 ^ 16) (2 ^ 16)).
  rewrite (Z.mod_small (clus `mod` 2 ^ 16)), (Z.mod_small (clus `div` 2 ^ 16)) by lia.
  rewrite (Z.mod_small (clus `div` 2 ^ 16 * 2 ^ 16)) by lia.
  rewrite <-Z.shiftl_mul_pow2, Z.lor_comm by lia. rewrite <-Z.land_ones by lia. apply Z.bits_inj'. intros k Hk.
  rewrite Z.lor_spec, Z.land_spec, Z.shiftl_spec by lia. destruct (decide (k < 16)).
  - rewrite Z.ones_spec_low, andb_true_r by lia. by rewrite (Z.testbit_neg_r _ (k - 16)) by lia.
  - rewrite Z.ones_spec_high, andb_false_r, orb_false_r by lia. rewrite <-Z.shiftr_div_pow2, Z.shiftr_spec by lia. f_equal. lia.
Qed.

(** ** Properties *)

(** C27: the entries generated for a name hold it.  A name of fewer than 256 ASCII
    characters without NUL, in a directory of fewer than 4446 entries, that leaves a short name gets a short name of eleven bytes that no entry of
    the directory has and that starts with a character, long entries that give
    the name back when their bytes are read, and the cluster and the type of the
    file; a name of dots and spaces that leaves no short name panics. *)
Theorem gen_dir_ent_names (fuel : nat) (v : list FATDirEnt) (name : list Z) (clus : Z) (ft : DiskInodeType) :
  ascii name → 0 ∉ name → 0 < str_len name < 256 → 0 ≤ clus < 2 ^ 32 →
  (length v < 4446)%nat → (length v < fuel)%nat →
  if short_name_legal name then
    ∃ short longs, gen_dir_ent fuel v name clus ft = Ok (short, longs) ∧
      length (se_name short) = 11%nat ∧ (se_name short ∉ get_short_name_array <$> v) ∧
      short_entry (of_short short) = short ∧ get_first_clus short = clus ∧ se_is_dir short = bool_decide (ft = Directory) ∧
      concat (get_name <$> (of_long <$> longs)) = name
  else gen_dir_ent fuel v name clus ft = Panic.
Proof.
  intros Ha H0 Hl Hc Hv Hf. pose proof (gen_short_name_slice_spec fuel v name Ha H0 Hv Hf) as Hsp.
  unfold gen_dir_ent, gen_name_slice. destruct (short_name_legal name); [|by rewrite Hsp].
  destruct Hsp as (sn & c & -> & Hl11 & Hu & Hni & _). exists (from_name sn clus ft), (name_ents name).
  split_and!; try done.
  - by apply short_entry_of_short, from_name_wf.
  - by apply get_first_clus_from_name.
  - unfold se_is_dir, from_name. cbn [se_attr]. by case_bool_decide.
  - apply name_ents_read, ascii_long_name_ok; done.
Qed.

Lemma gen_dir_ent_names_witness :
  ∃ short longs, gen_dir_ent 1 [] [97; 46; 116; 120; 116] 5 Directory = Ok (short, longs) ∧
    get_first_clus short = 5 ∧ concat (get_name <$> (of_long <$> longs)) = [97; 46; 116; 120; 116].
Proof.
  destruct (gen_dir_ent_names 1 [] [97; 46; 116; 120; 116] 5 Directory) as (short & longs & H1 & _ & _ & _ & H2 & _ & H3).
  - by repeat constructor.
  - set_solver.
  - by vm_compute.
  - done.
  - cbn. lia.
  - cbn. lia.
  - exists short, longs. exact (conj H1 (conj H2 H3)).
Defined.
