(* ===== verification/Inode.v ===== *)
(** * Files: the content of an inode

    [kernel/src/fs/fat32/vfs.rs] up to its directory operations.  An inode has
    a size, the list of its clusters and a page cache; the file allocation
    table, the block device and the frames are shared with the rest of the
    kernel.  The closures that read and modify a page work on slices of it. *)

From S2P Require Import Prelude Config FrameAllocator PageTable BlockCache Fat PageCache Layout.

Definition CACHE_SZ : Z := PAGE_SIZE.

Record FileContent : Type := mkFileContent {
  fc_size : Z;
  clus_list : list Z;
  fc_hint : Z
}.

Record InodeTime : Type := mkInodeTime { create_time : Z; access_time : Z; modify_time : Z }.

(** The fields of an [Inode] behind its locks; [cache_pool] and
    [allocated_cache] of its page cache manager are [pages] and [page_ids]. *)
Record Inode : Type := mkInode {
  file_content : FileContent;
  pages : list (option PageCache);
  page_ids : list Z;
  file_type : DiskInodeType;
  deleted : bool;
  time : InodeTime
}.

(** What inodes share: the table with the block device, the frame allocator
    and the kernel's page table. *)
Record Shared : Type := mkShared {
  sh_fat : FatSt;
  sh_fa : StackFrameAllocator;
  sh_pte : Z → option Z
}.

Definition InodeSt : Type := Shared * Inode.

Definition the_disk (sh : Shared) : Disk := bc_disk (fat_bc (sh_fat sh)).

Definition pcm_of (s : InodeSt) : PcmState :=
  mkPcmState (pages s.2) (page_ids s.2) (mkPcSys (the_disk s.1) (sh_fa s.1) (sh_pte s.1)).

Definition put_disk (f : FatSt) (d : Disk) : FatSt :=
  mkFatSt (mkBcState (cache_pool (fat_bc f)) d) (vacant_clus f) (hint f).

Definition put_pcm (s : InodeSt) (p : PcmState) : InodeSt :=
  (mkShared (put_disk (sh_fat s.1) (pc_disk (pcm_sys p))) (pc_fa (pcm_sys p)) (kernel_pte (pcm_sys p)),
   mkInode (file_content s.2) (pcm_pool p) (allocated_cache p) (file_type s.2) (deleted s.2) (time s.2)).

(** Operations of the page cache manager and of the table. *)
Definition on_pcm {A} (m : ST PcmState A) : ST InodeSt A := fun s =>
  '(a, p) ← m (pcm_of s);
  Ok (a, put_pcm s p).

Definition on_fat {A} (m : ST FatSt A) : ST InodeSt A := fun s =>
  '(a, f) ← m (sh_fat s.1);
  Ok (a, (mkShared f (sh_fa s.1) (sh_pte s.1), s.2)).

Definition get_content : ST InodeSt FileContent := gets (fun s => file_content s.2).

Definition put_content (c : FileContent) : ST InodeSt unit :=
  modify (fun s => (s.1, mkInode c (pages s.2) (page_ids s.2) (file_type s.2) (deleted s.2) (time s.2))).

Definition put_clus_list (l : list Z) : ST InodeSt unit :=
  c ← get_content; put_content (mkFileContent (fc_size c) l (fc_hint c)).

Definition put_size (n : Z) : ST InodeSt unit :=
  c ← get_content; put_content (mkFileContent n (clus_list c) (fc_hint c)).

Definition put_fc_hint (h : Z) : ST InodeSt unit :=
  c ← get_content; put_content (mkFileContent (fc_size c) (clus_list c) h).

Definition get_file_size : ST InodeSt Z := c ← get_content; mret (fc_size c).

Definition is_dir : ST InodeSt bool := gets (fun s => bool_decide (file_type s.2 = Directory)).
Definition is_file : ST InodeSt bool := gets (fun s => bool_decide (file_type s.2 = File)).

Section Inode.
Context (efs : EasyFileSystem) (tree_oom : ST PcSys Z).

(** [Inode::new], before [set_hint]; [fuel] is for following the chain. *)
Definition inode_open (fuel : nat) (fst_clus : Z) (ft : DiskInodeType) (size : option Z) : ST FatSt Inode :=
  clus_list ←
    (if fst_clus =? 0 then mret [] else get_all_clus_num (efs_fat efs) fuel fst_clus);
  let size := match size with
              | Some n => n
              | None => wrap32 (wrap32 (Z.of_nat (length clus_list)) * clus_size efs)
              end in
  mret (mkInode (mkFileContent size clus_list 0) [] [] ft false (mkInodeTime 0 0 0)).

Definition get_first_clus_lock : ST InodeSt (option Z) :=
  c ← get_content; mret (head (clus_list c)).

Definition get_inode_num_lock : ST InodeSt (option Z) :=
  c ← get_first_clus_lock; mret (first_sector_of_cluster efs <$> c).

(** [size.div_ceil(clus_size)] *)
Definition total_clus (size : Z) : outcome Z :=
  if clus_size efs =? 0 then Panic
  else Ok (size / clus_size efs + (if size mod clus_size efs =? 0 then 0 else 1)).

Definition get_block_id (c : FileContent) (inner_cache_id : Z) : option Z :=
  let idx := inner_cache_id / sec_per_clus efs in
  match clus_list c !! Z.to_nat idx with
  | None => None
  | Some clus =>
      let base := first_sector_of_cluster efs clus in
      let offset := inner_cache_id mod sec_per_clus efs in
      Some (wrap32 (base + offset))
  end.

(** The loop of [get_neighboring_sec]. *)
Fixpoint neighboring_loop (n : nat) (clus_list : list Z) (sec_id : Z) (block_ids : list Z) : list Z :=
  match n with
  | O => block_ids
  | S n =>
      let cluster_id := sec_id / sec_per_clus efs in
      match clus_list !! Z.to_nat cluster_id with
      | None => block_ids
      | Some clus =>
          let offset := sec_id mod sec_per_clus efs in
          let start_block_id := first_sector_of_cluster efs clus in
          neighboring_loop n clus_list (sec_id ⊞ 1) (vec_push block_ids (start_block_id ⊞ offset))
      end
  end.

Definition get_neighboring_sec (clus_list : list Z) (inner_cache_id : Z) : list Z :=
  let sec_per_cache := CACHE_SZ / efs_byts_per_sec efs in
  neighboring_loop (Z.to_nat sec_per_cache) clus_list (inner_cache_id ⊠ sec_per_cache) [].

(** ** Size *)

Definition alloc_clus (alloc_num : Z) : ST InodeSt unit :=
  c ← get_content;
  new_clus_list ← on_fat (alloc (efs_fat efs) alloc_num (last (clus_list c)));
  put_clus_list (clus_list c ++ new_clus_list).

Definition dealloc_clus (dealloc_num : Z) : ST InodeSt unit :=
  c ← get_content;
  let n := Z.to_nat (Z.min dealloc_num (Z.of_nat (length (clus_list c)))) in
  let rest := take (length (clus_list c) - n) (clus_list c) in
  let dealloc_list := reverse (drop (length (clus_list c) - n) (clus_list c)) in
  put_clus_list rest;;
  on_fat (free (efs_fat efs) dealloc_list (last rest)).

(** A page of the file: [get_cache(..).lock()]. *)
Definition get_page (id : Z) : ST InodeSt PageCache :=
  c ← get_content;
  on_pcm (get_cache tree_oom id (get_neighboring_sec (clus_list c) id);; lookup_page id).

(** [dst.copy_from_slice(src)] where [dst] is the part of a page from [off];
    the hardware sets the dirty bit when something is stored. *)
Definition write_page (id : Z) (pc : PageCache) (off : Z) (src : list Z) : ST InodeSt unit :=
  rust_assert (off + Z.of_nat (length src) <=? Z.of_nat (length (page_ptr pc)));;
  match src with
  | [] => mret tt
  | _ => on_pcm (modify (fun s => set_page (touch s (tracker_ppn pc)) id
           (mkPageCache (pc_priority pc) (put_slice (page_ptr pc) (Z.to_nat off) src) (tracker_ppn pc)
              (pc_shared pc) (tracker_shared pc))))
  end.

(** The [loop] of [clear_at_block_cache_lock]; [write_size] is its result. *)
Fixpoint clear_loop (fuel : nat) (start end_ start_cache write_size : Z) : ST InodeSt Z :=
  match fuel with
  | O => out_of_fuel
  | S fuel =>
      let end_current_block := Z.min ((start / CACHE_SZ ⊞ 1) ⊠ CACHE_SZ) end_ in
      let block_write_size := end_current_block ⊟ start in
      pc ← get_page start_cache;
      rust_assert (start mod CACHE_SZ + block_write_size <=? CACHE_SZ);;
      write_page start_cache pc (start mod CACHE_SZ) (replicate (Z.to_nat block_write_size) 0);;
      let write_size := write_size ⊞ block_write_size in
      if end_current_block =? end_ then mret write_size
      else clear_loop fuel end_current_block end_ (start_cache ⊞ 1) write_size
  end.

(** One page per round. *)
Definition pages_of (len : Z) : nat := Z.to_nat (len / CACHE_SZ + 2).

Definition clear_at_block_cache_lock (offset length : Z) : ST InodeSt Z :=
  clear_loop (pages_of length) offset (offset ⊞ length) (offset / CACHE_SZ) 0.

Definition modify_size_lock (diff : Z) (clear : bool) : ST InodeSt unit :=
  old_size ← get_file_size;
  let new_size := wrap32 (old_size + diff) in
  old_clus_num ← lift (total_clus old_size);
  new_clus_num ← lift (total_clus new_size);
  (if 0 <? diff then alloc_clus (new_clus_num ⊟ old_clus_num)
   else dealloc_clus (old_clus_num ⊟ new_clus_num));;
  put_size new_size;;
  if 0 <? diff then
    (if clear then clear_at_block_cache_lock old_size (wrap32 (new_size - old_size));; mret tt else mret tt)
  else on_pcm (notify_new_size new_size).

Definition inode_oom : ST InodeSt Z :=
  c ← get_content;
  on_pcm (PageCacheManager_oom (get_neighboring_sec (clus_list c))).

(** ** Reading and writing *)

Fixpoint read_loop (fuel : nat) (start end_ start_cache read_size : Z) (buf : list Z) : ST InodeSt (Z * list Z) :=
  match fuel with
  | O => out_of_fuel
  | S fuel =>
      let end_current_block := Z.min ((start / CACHE_SZ ⊞ 1) ⊠ CACHE_SZ) end_ in
      let block_read_size := end_current_block ⊟ start in
      pc ← get_page start_cache;
      rust_assert (read_size + block_read_size <=? Z.of_nat (length buf));;
      src ← slice (page_ptr pc) (start mod CACHE_SZ) (start mod CACHE_SZ + block_read_size);
      let buf := put_slice buf (Z.to_nat read_size) src in
      let read_size := read_size ⊞ block_read_size in
      if end_current_block =? end_ then mret (read_size, buf)
      else read_loop fuel end_current_block end_ (start_cache ⊞ 1) read_size buf
  end.

(** [read_at_block_cache_rlock] and [read_at_block_cache_wlock]: the number of
    bytes read and the buffer. *)
Definition read_at_block_cache (offset : Z) (buf : list Z) : ST InodeSt (Z * list Z) :=
  size ← get_file_size;
  let end_ := Z.min (offset ⊞ Z.of_nat (length buf)) size in
  if end_ <=? offset then mret (0, buf)
  else read_loop (pages_of (Z.of_nat (length buf))) offset end_ (offset / CACHE_SZ) 0 buf.

Fixpoint write_loop (fuel : nat) (start end_ start_cache write_size : Z) (buf : list Z) : ST InodeSt Z :=
  match fuel with
  | O => out_of_fuel
  | S fuel =>
      let end_current_block := Z.min ((start / CACHE_SZ ⊞ 1) ⊠ CACHE_SZ) end_ in
      let block_write_size := end_current_block ⊟ start in
      pc ← get_page start_cache;
      src ← slice buf write_size (write_size + block_write_size);
      write_page start_cache pc (start mod CACHE_SZ) src;;
      let write_size := write_size ⊞ block_write_size in
      if end_current_block =? end_ then mret write_size
      else write_loop fuel end_current_block end_ (start_cache ⊞ 1) write_size buf
  end.

Definition write_at_block_cache_lock (offset : Z) (buf : list Z) : ST InodeSt Z :=
  old_size ← get_file_size;
  let diff_len := as_isize (wrap64 (Z.of_nat (length buf) + offset - old_size)) in
  (if 0 <? diff_len then modify_size_lock diff_len false else mret tt);;
  size ← get_file_size;
  let end_ := Z.min (offset ⊞ Z.of_nat (length buf)) size in
  write_loop (pages_of (Z.of_nat (length buf))) offset end_ (offset / CACHE_SZ) 0 buf.

(** ** Pages for [mmap] *)

Definition get_single_cache_lock (inner_cache_id : Z) : ST InodeSt Z :=
  c ← get_content;
  on_pcm (get_cache tree_oom inner_cache_id (get_neighboring_sec (clus_list c) inner_cache_id)).

Definition get_all_cache : ST InodeSt (list Z) :=
  size ← get_file_size;
  let cache_num := (size ⊞ CACHE_SZ ⊟ 1) / CACHE_SZ in
  st_fold (fun cache_list id => p ← get_single_cache_lock id; mret (vec_push cache_list p)) [] (seqZ 0 cache_num).

(** [stat_lock] *)
Definition stat_lock : ST InodeSt (Z * Z * Z * Z * Z) :=
  size ← get_file_size;
  t ← gets (fun s => time s.2);
  ino ← get_inode_num_lock;
  mret (size, access_time t, modify_time t, create_time t, default 0 ino).
End Inode.
