(* ===== verification/InodeSpec.v ===== *)
(** * Files are arrays of bytes

    The content of an inode against an abstract file: a size and a byte for
    each position.  [inode_inv] ties together the cluster list, its chain in the
    table and the page cache; reading, writing and changing the size keep it and
    act on the bytes as they should, whatever is cached. *)

From S2P Require Import Prelude Config FrameAllocator PageTable BlockCache Fat PageCache Layout Inode.

Section Spec.
Context (efs : EasyFileSystem) (tree_oom : ST PcSys Z) (N : Z) (R : gset Z).

Abbreviation spc := (sec_per_clus efs).
Abbreviation area := (data_area_start_block efs).

(** Clusters are made of whole pages and lie behind the table. *)
Record geometry : Prop := {
  ge_efs : efs_wf N efs;
  ge_bps : efs_byts_per_sec efs = 512;
  ge_spc : spc mod 8 = 0;
  ge_area : fat_end (efs_fat efs) N ≤ area;
}.

Hypothesis Hgeo : geometry.

Lemma spc_pos : 8 ≤ spc < 256 ∧ spc = 8 * (spc / 8).
Proof.
  pose proof (ew_spc N efs (ge_efs Hgeo)). pose proof (ge_spc Hgeo). pose proof (Z.div_mod spc 8). lia.
Qed.

Lemma clus_size_eq : clus_size efs = 512 * spc.
Proof.
  unfold clus_size. rewrite (ge_bps Hgeo). pose proof spc_pos. apply wrap32_small. unfold is_u32. lia.
Qed.

(** ** The sectors of a page *)

(** Pages per cluster, and pages of a file with the clusters [cl]. *)
Definition ppc : Z := spc / 8.
Definition npg (cl : list Z) : Z := Z.of_nat (length cl) * ppc.

Lemma ppc_pos : 1 ≤ ppc < 32 ∧ spc = 8 * ppc.
Proof. pose proof spc_pos. unfold ppc. lia. Qed.

Definition clus_ok (cl : list Z) : Prop := NoDup cl ∧ Forall (fun c => 2 ≤ c < N) cl ∧ Z.of_nat (length cl) < 2 ^ 32.

Definition page_base (c id : Z) : Z := area + (c - 2) * spc + 8 * (id mod ppc).

Lemma neighboring_loop_run n cl c sec acc :
  cl !! Z.to_nat (sec / spc) = Some c → 2 ≤ c < N → 0 ≤ sec → sec + Z.of_nat n < 2 ^ 63 → sec mod spc + Z.of_nat n ≤ spc →
  neighboring_loop efs n cl sec acc = acc ++ seqZ (area + (c - 2) * spc + sec mod spc) (Z.of_nat n).
Proof.
  intros Hc Hr. pose proof spc_pos as [Hs _]. revert sec acc Hc. induction n as [|n IH]; intros sec acc Hc H0 Hlt Hm.
  { cbn. by rewrite seqZ_nil, app_nil_r. }
  cbn [neighboring_loop]. rewrite Hc. pose proof (Z.div_mod sec spc ltac:(lia)) as Hdm.
  pose proof (Z.mod_pos_bound sec spc ltac:(lia)) as Hb.
  rewrite wrap64_small by (unfold is_usize; lia).
  pose proof (ew_area N efs (ge_efs Hgeo)) as Ha. pose proof (ew_start N efs (ge_efs Hgeo)).
  assert (0 ≤ (c - 2) * spc) by (apply Z.mul_nonneg_nonneg; lia).
  assert ((c - 1) * spc < N * spc) by (apply Z.mul_lt_mono_pos_r; lia).
  assert ((c - 1) * spc = (c - 2) * spc + spc) by lia.
  rewrite (first_sector_eq N) by (apply Hgeo || done). rewrite wrap64_small by (unfold is_usize; lia).
  rewrite (seqZ_cons (area + _ + _)) by lia. replace (Z.pred (Z.of_nat (S n))) with (Z.of_nat n) by lia.
  destruct (decide (n = 0%nat)) as [-> |Hn].
  { cbn [neighboring_loop]. by rewrite seqZ_nil. }
  assert (sec mod spc + 1 < spc) as Hlt1 by lia.
  assert ((sec + 1) / spc = sec / spc) as Hd by (symmetry; apply (Z.div_unique _ _ _ (sec mod spc + 1)); lia).
  assert ((sec + 1) mod spc = sec mod spc + 1) as Hmm by (symmetry; apply (Z.mod_unique _ _ (sec / spc)); lia).
  rewrite IH; [|by rewrite Hd|lia|lia|rewrite Hmm; lia]. rewrite Hmm. unfold vec_push. rewrite <-app_assoc. cbn [app].
  do 3 f_equal. lia.
Qed.

(** The eight sectors of a page are consecutive. *)
Lemma neighboring_sec_eq cl id :
  clus_ok cl → 0 ≤ id < npg cl →
  ∃ c, cl !! Z.to_nat (id / ppc) = Some c ∧ 2 ≤ c < N ∧
    get_neighboring_sec efs cl id = seqZ (page_base c id) 8.
Proof.
  intros (_ & Hall & Hlen) Hid. pose proof ppc_pos as [Hp Hs]. unfold npg in Hid.
  pose proof (Z.div_mod id ppc ltac:(lia)) as Hdm. pose proof (Z.mod_pos_bound id ppc ltac:(lia)) as Hb.
  assert (0 ≤ id / ppc < Z.of_nat (length cl)) as Hk
    by (split; [apply Z.div_pos; lia|apply Z.div_lt_upper_bound; lia]).
  destruct (lookup_lt_is_Some_2 cl (Z.to_nat (id / ppc))) as [c Hc]; [lia|].
  assert (2 ≤ c < N) as Hcr by (rewrite Forall_forall in Hall; apply Hall; by eapply list_elem_of_lookup_2).
  exists c. split; [done|]. split; [done|]. unfold get_neighboring_sec, CACHE_SZ, PAGE_SIZE. rewrite (ge_bps Hgeo).
  change (4096 / 512) with 8. change (Z.to_nat 8) with 8%nat.
  assert ((id * 8) / spc = id / ppc) as Hd by (rewrite Hs, (Z.mul_comm 8 ppc); apply Z.div_mul_cancel_r; lia).
  assert ((id * 8) mod spc = 8 * (id mod ppc)) as Hm by (rewrite Hs, (Z.mul_comm 8 ppc), Z.mul_mod_distr_r by lia; lia).
  rewrite wrap64_small by (unfold is_usize; nia).
  rewrite (neighboring_loop_run 8 cl c); [|by rewrite Hd|done|lia|nia|rewrite Hm; lia].
  by rewrite Hm.
Qed.

Lemma elem_of_page cl id b :
  clus_ok cl → 0 ≤ id < npg cl → b ∈ get_neighboring_sec efs cl id →
  ∃ c, cl !! Z.to_nat (id / ppc) = Some c ∧ 2 ≤ c < N ∧ page_base c id ≤ b < page_base c id + 8.
Proof.
  intros Hok Hid. destruct (neighboring_sec_eq cl id Hok Hid) as (c & Hc & Hr & ->).
  intros Hb%elem_of_seqZ. eauto.
Qed.

Lemma page_base_range c id :
  2 ≤ c < N → area + (c - 2) * spc ≤ page_base c id ∧ page_base c id + 8 ≤ area + (c - 1) * spc ∧ area ≤ page_base c id.
Proof.
  intros Hc. unfold page_base. pose proof ppc_pos as [Hp Hs]. pose proof (Z.mod_pos_bound id ppc ltac:(lia)). nia.
Qed.

Lemma neighbor_ok_clus cl size :
  clus_ok cl → area + (N - 2) * spc ≤ size → neighbor_ok (get_neighboring_sec efs cl) (npg cl) size.
Proof.
  intros Hok Hsize. pose proof ppc_pos as [Hp Hs]. pose proof (ew_start N efs (ge_efs Hgeo)) as Ha. split.
  - intros id Hid. apply Forall_forall. intros b Hb. destruct (elem_of_page cl id b Hok Hid Hb) as (c & _ & Hr & Hbr).
    pose proof (page_base_range c id Hr). nia.
  - intros id Hid. destruct (neighboring_sec_eq cl id Hok Hid) as (c & _ & _ & ->). apply NoDup_seqZ.
  - intros id Hid. destruct (neighboring_sec_eq cl id Hok Hid) as (c & _ & _ & ->). rewrite length_seqZ. lia.
  - intros id1 id2 b H1 H2 (c1 & L1 & R1 & B1)%(elem_of_page cl id1 b Hok H1) (c2 & L2 & R2 & B2)%(elem_of_page cl id2 b Hok H2).
    pose proof (page_base_range c1 id1 R1). pose proof (page_base_range c2 id2 R2).
    assert (c1 = c2) as -> by nia.
    assert (Z.to_nat (id1 / ppc) = Z.to_nat (id2 / ppc)) as E by (eapply NoDup_lookup; [apply Hok|exact L1|exact L2]).
    pose proof (Z.div_mod id1 ppc ltac:(lia)). pose proof (Z.div_mod id2 ppc ltac:(lia)).
    pose proof (Z.div_pos id1 ppc ltac:(lia) ltac:(lia)). pose proof (Z.div_pos id2 ppc ltac:(lia) ltac:(lia)).
    unfold page_base in *. lia.
Qed.

(** Pages keep their sectors when clusters are added or removed behind them. *)
Lemma neighboring_sec_app cl cs id :
  clus_ok (cl ++ cs) → 0 ≤ id < npg cl → get_neighboring_sec efs (cl ++ cs) id = get_neighboring_sec efs cl id.
Proof.
  intros Hok Hid. assert (clus_ok cl) as Hok1.
  { destruct Hok as (H1 & H2 & H3). apply NoDup_app in H1 as (? & _). apply Forall_app in H2 as [? _].
    rewrite length_app in H3. split_and!; try done. lia. }
  assert (0 ≤ id < npg (cl ++ cs)) as Hid' by (unfold npg in *; rewrite length_app; pose proof ppc_pos; nia).
  destruct (neighboring_sec_eq cl id Hok1 Hid) as (c & Hc & _ & ->).
  destruct (neighboring_sec_eq _ id Hok Hid') as (c' & Hc' & _ & ->).
  rewrite lookup_app_l in Hc' by (by eapply lookup_lt_Some). by replace c' with c by congruence.
Qed.

(** ** The invariant *)

Implicit Types s : InodeSt.

Definition fat_list (f : Z → Z) (cl : list Z) : Prop :=
  match cl with [] => True | c :: cs => fat_chain f c cs end.

Abbreviation cl_of s := (clus_list (file_content (snd s))).
Abbreviation size_of s := (fc_size (file_content (snd s))).
Abbreviation table_of s := (fat_get (efs_fat efs) (sh_fat (fst s))).

Record inode_inv (s : InodeSt) : Prop := {
  iv_fat : fat_wf (efs_fat efs) N (the_disk s.1) (sh_fat s.1);
  iv_disk : area + (N - 2) * spc ≤ d_size (the_disk s.1);
  iv_clus : clus_ok (cl_of s);
  iv_chain : fat_list (table_of s) (cl_of s);
  iv_used : Forall (fun c => ¬ is_free (table_of s) c) (cl_of s);
  iv_size : 0 ≤ size_of s < 2 ^ 32;
  iv_count : size_of s ≤ Z.of_nat (length (cl_of s)) * clus_size efs < size_of s + clus_size efs;
  iv_pages : pcm_inv (get_neighboring_sec efs (cl_of s)) (npg (cl_of s)) R (pcm_of s);
}.

(** The byte at a position, through the cache. *)
Definition fdata (s : InodeSt) (i : Z) : Z :=
  nth (Z.to_nat (i mod 4096)) (pview (get_neighboring_sec efs (cl_of s)) (pcm_of s) (i / 4096)) 0.

(** Frames for all the pages of the file, and one more: [get_cache] wants a free
    frame even when the page is cached. *)
Definition room (s : InodeSt) : nat := budget (pcm_of s).

(** The frames are accounted for, no page has become shared, and what is not
    content is the same. *)
Definition keeps (s s' : InodeSt) : Prop :=
  room s' = room s ∧ (unshared (pcm_of s) → unshared (pcm_of s')) ∧
  fc_hint (file_content s'.2) = fc_hint (file_content s.2) ∧ file_type s'.2 = file_type s.2 ∧
  deleted s'.2 = deleted s.2 ∧ time s'.2 = time s.2.

Definition roomy (s : InodeSt) : Prop := (Z.to_nat (npg (cl_of s)) < room s)%nat.

(** What does not change when pages are used: everything but the pages, the
    frames and the dirty bits. *)
Definition same_meta (s s' : InodeSt) : Prop :=
  sh_fat s'.1 = sh_fat s.1 ∧ file_content s'.2 = file_content s.2 ∧ file_type s'.2 = file_type s.2 ∧
  deleted s'.2 = deleted s.2 ∧ time s'.2 = time s.2.

Lemma same_meta_refl s : same_meta s s.
Proof. done. Qed.

Lemma same_meta_trans s1 s2 s3 : same_meta s1 s2 → same_meta s2 s3 → same_meta s1 s3.
Proof. intros (? & ? & ? & ? & ?) (? & ? & ? & ? & ?). split_and!; congruence. Qed.

Lemma put_disk_same f : put_disk f (bc_disk (fat_bc f)) = f.
Proof. by destruct f as [[] ? ?]. Qed.

Lemma put_pcm_meta s p :
  pc_disk (pcm_sys p) = the_disk s.1 → same_meta s (put_pcm s p).
Proof. intros Hd. unfold same_meta, put_pcm. cbn. rewrite Hd. unfold the_disk. by rewrite put_disk_same. Qed.

Lemma pcm_of_put s p : pcm_of (put_pcm s p) = p.
Proof. by destruct p as [? ? []]. Qed.

Lemma wp_on_pcm {A} (m : ST PcmState A) Q s :
  wp m (fun a p => Q a (put_pcm s p)) (pcm_of s) → wp (on_pcm m) Q s.
Proof. unfold wp, on_pcm, mbind, outcome_bind. by destruct (m (pcm_of s)) as [[a p]| |]. Qed.

Lemma wp_on_fat {A} (m : ST FatSt A) Q s :
  wp m (fun a f => Q a (mkShared f (sh_fa s.1) (sh_pte s.1), s.2)) (sh_fat s.1) → wp (on_fat m) Q s.
Proof. unfold wp, on_fat, mbind, outcome_bind. by destruct (m (sh_fat s.1)) as [[a f]| |]. Qed.

(** The invariant only looks at the pages through the page cache. *)
Lemma inode_inv_pages s s' :
  inode_inv s → same_meta s s' → pcm_inv (get_neighboring_sec efs (cl_of s)) (npg (cl_of s)) R (pcm_of s') → inode_inv s'.
Proof.
  intros [] (Hf & Hc & _) Hp. unfold the_disk in *. split; unfold the_disk; rewrite ?Hf, ?Hc; done.
Qed.

Lemma size_pages s : inode_inv s → size_of s ≤ npg (cl_of s) * 4096.
Proof.
  intros Hi. pose proof (iv_count s Hi) as [Hc _]. rewrite clus_size_eq in Hc. unfold npg. pose proof ppc_pos. lia.
Qed.

Lemma page_of_pos s i : 0 ≤ i < npg (cl_of s) * 4096 → 0 ≤ i / 4096 < npg (cl_of s).
Proof. intros Hi. split; [apply Z.div_pos; lia|apply Z.div_lt_upper_bound; lia]. Qed.

Lemma page_nbytes s id :
  inode_inv s → 0 ≤ id < npg (cl_of s) → nbytes (get_neighboring_sec efs (cl_of s)) id = 4096%nat.
Proof.
  intros Hi Hid. destruct (neighboring_sec_eq (cl_of s) id (iv_clus s Hi) Hid) as (c & _ & _ & E).
  unfold nbytes. rewrite E, length_seqZ. done.
Qed.

(** No page is cached twice. *)
Lemma roomy_frame s : inode_inv s → roomy s → sfa_free (sh_fa s.1) ≠ ∅.
Proof.
  intros Hi Hr He. unfold roomy, room, budget in Hr. cbn [pcm_of pcm_sys pc_fa allocated_cache] in Hr. rewrite He, size_empty in Hr.
  pose proof (iv_pages s Hi) as Hp. assert (page_ids s.2 ⊆+ seqZ 0 (npg (cl_of s))) as Hs%submseteq_length.
  { apply NoDup_submseteq; [apply (pi_nodup _ _ _ _ Hp)|]. intros id [pc Hc]%(pi_alloc _ _ _ _ Hp).
    pose proof (pk_id _ _ _ _ _ _ (pi_page _ _ _ _ Hp id pc Hc)). apply elem_of_seqZ. destruct Hc. lia. }
  rewrite length_seqZ in Hs. cbn [app Nat.add] in Hr. lia.
Qed.

Lemma roomy_same s s' : keeps s s' → file_content s'.2 = file_content s.2 → roomy s → roomy s'.
Proof. unfold roomy. by intros [-> _] ->. Qed.

Lemma keeps_refl s : keeps s s.
Proof. done. Qed.

Lemma inode_keeps_trans s1 s2 s3 : keeps s1 s2 → keeps s2 s3 → keeps s1 s3.
Proof. intros (? & ? & ? & ? & ? & ?) (? & ? & ? & ? & ? & ?). split_and!; congruence || auto. Qed.

(** ** One page *)

Lemma wp_get_page s id :
  inode_inv s → 0 ≤ id < npg (cl_of s) → roomy s →
  wp (get_page efs tree_oom id) (fun pc s' => inode_inv s' ∧ same_meta s s' ∧
    (∀ i, 0 ≤ i → fdata s' i = fdata s i) ∧ keeps s s' ∧
    cached (pcm_of s') id pc ∧ length (page_ptr pc) = 4096%nat ∧
    page_ptr pc = pview (get_neighboring_sec efs (cl_of s')) (pcm_of s') id) s.
Proof.
  intros Hi Hid Hf. unfold get_page, get_content. do 2 wp_step. apply wp_on_pcm. wp_step.
  eapply wp_mono.
  { apply (wp_get_cache _ (npg (cl_of s)) R tree_oom (pcm_of s) id); [apply Hi|done|].
    by apply (roomy_frame s). }
  intros r p (_ & Hp & Hv & Hs & Hu & _ & Hd & pc & Hc). eapply wp_lookup_page; [exact Hc|].
  pose proof (put_pcm_meta s p Hd) as Hm. rewrite !pcm_of_put.
  assert (inode_inv (put_pcm s p)) as Hi' by (apply (inode_inv_pages s); [done|done|by rewrite pcm_of_put]).
  split; [done|]. split; [done|]. split.
  { intros i Hi0. unfold fdata. rewrite pcm_of_put. change (cl_of (put_pcm s p)) with (cl_of s).
    rewrite Hv by (apply Z.div_pos; lia). done. }
  split; [unfold keeps, room; by rewrite pcm_of_put|]. split; [done|].
  pose proof (pk_len _ _ _ _ _ _ (pi_page _ _ _ _ Hp id pc Hc)) as Hl. split; [done|].
  change (cl_of (put_pcm s p)) with (cl_of s). rewrite (pview_cached _ p id pc Hc), page_nbytes by done.
  by rewrite take_ge by lia.
Qed.

(** A part of a page is a range of the file. *)
Lemma page_slice s id a n :
  inode_inv s → 0 ≤ id < npg (cl_of s) → 0 ≤ a → 0 ≤ n → a + n ≤ 4096 →
  take (Z.to_nat n) (drop (Z.to_nat a) (pview (get_neighboring_sec efs (cl_of s)) (pcm_of s) id)) =
    fdata s <$> seqZ (id * 4096 + a) n.
Proof.
  intros Hi Hid Ha Hn Hle. set (v := pview _ _ _).
  assert (length v = 4096%nat) as Hl.
  { unfold v. rewrite (pview_length _ (npg (cl_of s)) R) by (done || apply Hi). by apply page_nbytes. }
  apply list_eq. intros k. rewrite list_lookup_fmap. destruct (decide (Z.of_nat k < n)) as [Hk|Hk].
  - rewrite lookup_take_lt, lookup_drop by lia. rewrite (lookup_seqZ_lt (id * 4096 + a) n) by lia. cbn.
    unfold fdata. replace ((id * 4096 + a + Z.of_nat k) / 4096) with id
      by (apply (Z.div_unique _ 4096 _ (a + Z.of_nat k)); lia).
    replace ((id * 4096 + a + Z.of_nat k) mod 4096) with (a + Z.of_nat k) by (apply (Z.mod_unique _ 4096 id); lia).
    fold v. replace (Z.to_nat (a + Z.of_nat k)) with (Z.to_nat a + k)%nat by lia.
    destruct (lookup_lt_is_Some_2 v (Z.to_nat a + k)) as [x Hx]; [lia|]. rewrite Hx.
    by rewrite (nth_lookup_Some _ _ _ _ Hx).
  - rewrite lookup_take_ge by lia. by rewrite lookup_seqZ_ge by lia.
Qed.

(** ** Writing to a page *)

(** [f] with the bytes of [src] at [off]. *)
Definition fwrite (f : Z → Z) (off : Z) (src : list Z) : Z → Z := fun i =>
  if (off <=? i) && (i <? off + Z.of_nat (length src)) then nth (Z.to_nat (i - off)) src 0 else f i.

Lemma fwrite_app f off x y i :
  fwrite (fwrite f off x) (off + Z.of_nat (length x)) y i = fwrite f off (x ++ y) i.
Proof.
  unfold fwrite. rewrite length_app.
  destruct (Z.leb_spec off i), (Z.ltb_spec i (off + Z.of_nat (length x))),
    (Z.leb_spec (off + Z.of_nat (length x)) i), (Z.ltb_spec i (off + Z.of_nat (length x) + Z.of_nat (length y))),
    (Z.ltb_spec i (off + Z.of_nat (length x + length y))); cbn [andb]; try lia; try done.
  - rewrite app_nth1 by lia. done.
  - rewrite app_nth2 by lia. f_equal. lia.
Qed.

Lemma fwrite_nil f off i : fwrite f off [] i = f i.
Proof. unfold fwrite. cbn [length]. destruct (Z.leb_spec off i), (Z.ltb_spec i (off + Z.of_nat 0)); cbn [andb]; done || lia. Qed.

Lemma fwrite_ext f g off x i : f i = g i → fwrite f off x i = fwrite g off x i.
Proof. unfold fwrite. by intros ->. Qed.

Lemma put_slice_app (buf x y : list Z) a :
  (a + length x + length y ≤ length buf)%nat →
  put_slice (put_slice buf a x) (a + length x) y = put_slice buf a (x ++ y).
Proof.
  intros H. assert (length (take a buf) = a) as Ht by (rewrite length_take; lia). unfold put_slice.
  rewrite (app_assoc (take a buf)), take_app_length' by (rewrite length_app; lia).
  rewrite drop_app_ge by (rewrite length_app; lia). rewrite (length_app (take a buf)), Ht, drop_drop, (length_app x), <-!app_assoc.
  do 4 f_equal. lia.
Qed.

Lemma nth_put_slice (l d : list Z) off k x0 :
  (off + length d ≤ length l)%nat →
  nth k (put_slice l off d) x0 = if decide (off ≤ k < off + length d)%nat then nth (k - off) d x0 else nth k l x0.
Proof.
  intros H. unfold put_slice. destruct (decide (off ≤ k < off + length d)%nat) as [Hk|Hk].
  - rewrite app_nth2 by (rewrite length_take; lia). rewrite length_take, Nat.min_l by lia. by rewrite app_nth1 by lia.
  - destruct (decide (k < off)%nat).
    + rewrite app_nth1 by (rewrite length_take; lia). rewrite !nth_lookup. by rewrite lookup_take_lt by lia.
    + rewrite app_nth2 by (rewrite length_take; lia). rewrite length_take, Nat.min_l by lia. rewrite app_nth2 by lia.
      rewrite !nth_lookup, lookup_drop. do 2 f_equal. lia.
Qed.

Lemma wp_write_page s id pc off src :
  inode_inv s → 0 ≤ id < npg (cl_of s) → cached (pcm_of s) id pc → length (page_ptr pc) = 4096%nat →
  page_ptr pc = pview (get_neighboring_sec efs (cl_of s)) (pcm_of s) id →
  0 ≤ off → off + Z.of_nat (length src) ≤ 4096 →
  wp (write_page id pc off src) (fun _ s' => inode_inv s' ∧ same_meta s s' ∧ keeps s s' ∧
    ∀ i, 0 ≤ i → fdata s' i = fwrite (fdata s) (id * 4096 + off) src i) s.
Proof.
  intros Hi Hid Hc Hl Hp Hoff Hle. unfold write_page. wp_step. apply wp_assert; [apply Z.leb_le; lia|].
  destruct src as [|b src0] eqn:Esrc.
  { wp_step. split; [done|]. split; [done|]. split; [done|]. intros i _. by rewrite fwrite_nil. }
  rewrite <-Esrc in *. clear Esrc. apply wp_on_pcm. wp_step. set (pc' := mkPageCache _ _ _ _ _).
  pose proof (pi_page _ _ _ _ (iv_pages s Hi) id pc Hc) as Hpk.
  pose proof (touch_inv _ _ _ (pcm_of s) (tracker_ppn pc) (iv_pages s Hi)) as Ht.
  destruct (set_page_inv _ _ _ (touch (pcm_of s) (tracker_ppn pc)) id pc pc' Ht) as (Hi2 & Hc2 & Hv2); try done.
  { cbn. rewrite put_slice_length by lia. done. } { apply Hpk. } { by intros [_ ?]%clean_touch. }
  set (p := set_page _ _ _) in *.
  assert (same_meta s (put_pcm s p)) as Hm by (by apply put_pcm_meta).
  split; [apply (inode_inv_pages s); [done|done|by rewrite pcm_of_put]|]. split; [done|]. split.
  { unfold keeps, room. rewrite pcm_of_put. split; [done|]. split; [|done]. intros Hu. by apply (unshared_set_page _ id pc). }
  intros i Hi0. unfold fdata at 1. rewrite pcm_of_put. change (cl_of (put_pcm s p)) with (cl_of s).
  pose proof (Z.div_mod i 4096 ltac:(lia)) as Hdm. pose proof (Z.mod_pos_bound i 4096 ltac:(lia)) as Hb.
  rewrite Hv2 by (apply Z.div_pos; lia). unfold fwrite. destruct (Z.eqb_spec (i / 4096) id) as [He|Hne].
  - rewrite page_nbytes by done. rewrite take_ge by (cbn; rewrite put_slice_length; lia). cbn [page_ptr pc'].
    rewrite nth_put_slice by lia. destruct (decide _) as [Hd|Hd].
    + rewrite (proj2 (Z.leb_le _ _)), (proj2 (Z.ltb_lt _ _)) by lia. cbn [andb]. f_equal. lia.
    + assert (((id * 4096 + off <=? i) && (i <? id * 4096 + off + Z.of_nat (length src))) = false) as ->.
      { apply andb_false_iff. rewrite Z.leb_gt, Z.ltb_ge. lia. }
      unfold fdata. by rewrite Hp, He.
  - assert (((id * 4096 + off <=? i) && (i <? id * 4096 + off + Z.of_nat (length src))) = false) as ->.
    { apply andb_false_iff. rewrite Z.leb_gt, Z.ltb_ge. nia. }
    done.
Qed.

(** ** The loops over pages *)

(** The number of pages of a range. *)
Definition span (start end_ : Z) : nat := Z.to_nat ((end_ - 1) / 4096 - start / 4096 + 1).

(** The block that a round works on. *)
Definition block_end (start end_ : Z) : Z := Z.min ((start / 4096 + 1) * 4096) end_.

Lemma block_arith start end_ :
  0 ≤ start < end_ → end_ < 2 ^ 62 →
  Z.min ((start / CACHE_SZ ⊞ 1) ⊠ CACHE_SZ) end_ = block_end start end_ ∧
  block_end start end_ ⊟ start = block_end start end_ - start ∧
  0 < block_end start end_ - start ∧ block_end start end_ ≤ end_ ∧
  start mod 4096 + (block_end start end_ - start) ≤ 4096 ∧
  start = start / 4096 * 4096 + start mod 4096 ∧
  start / 4096 ⊞ 1 = start / 4096 + 1 ∧
  if decide (block_end start end_ = end_) then span start end_ = 1%nat
  else block_end start end_ / 4096 = start / 4096 + 1 ∧ 0 ≤ block_end start end_ < end_ ∧
       span start end_ = S (span (block_end start end_) end_).
Proof.
  intros Hs He. unfold block_end, CACHE_SZ, PAGE_SIZE.
  pose proof (Z.div_mod start 4096 ltac:(lia)) as Hdm. pose proof (Z.mod_pos_bound start 4096 ltac:(lia)) as Hb.
  pose proof (Z.div_pos start 4096 ltac:(lia) ltac:(lia)).
  pose proof (Z.div_mod (end_ - 1) 4096 ltac:(lia)). pose proof (Z.mod_pos_bound (end_ - 1) 4096 ltac:(lia)).
  rewrite (wrap64_small (start / 4096 + 1)) by (unfold is_usize; lia).
  rewrite (wrap64_small (_ * _)) by (unfold is_usize; lia).
  rewrite (wrap64_small (Z.min _ _ - _)) by (unfold is_usize; lia).
  split_and!; try lia. unfold span. destruct (decide _) as [E|E].
  - rewrite Z.min_r_iff in E. assert ((end_ - 1) / 4096 = start / 4096) by lia. lia.
  - rewrite Z.min_l by lia. rewrite Z.div_mul by lia. split_and!; lia.
Qed.

Lemma wp_inode_read_loop fuel start end_ rs buf s :
  inode_inv s → 0 ≤ start < end_ → end_ ≤ npg (cl_of s) * 4096 → end_ < 2 ^ 62 →
  (span start end_ ≤ fuel)%nat → roomy s →
  0 ≤ rs → rs + (end_ - start) ≤ Z.of_nat (length buf) → rs + (end_ - start) < 2 ^ 62 →
  wp (read_loop efs tree_oom fuel start end_ (start / 4096) rs buf) (fun r s' =>
    r = (rs + (end_ - start), put_slice buf (Z.to_nat rs) (fdata s <$> seqZ start (end_ - start))) ∧
    inode_inv s' ∧ same_meta s s' ∧ (∀ i, 0 ≤ i → fdata s' i = fdata s i) ∧
    keeps s s') s.
Proof.
  revert start rs buf s. induction fuel as [|fuel IH]; intros start rs buf s Hi Hs He Hemax Hfuel Hfr Hrs Hbuf Hrmax.
  { pose proof (block_arith start end_ Hs Hemax) as (_ & _ & _ & _ & _ & _ & _ & H). destruct (decide _); lia. }
  destruct (block_arith start end_ Hs Hemax) as (E1 & E2 & Hn & Hle & Ha & Hst & E3 & Hcase).
  assert (0 ≤ start / 4096 < npg (cl_of s)) as Hid by (apply page_of_pos; lia).
  cbn [read_loop]. rewrite E1, E2, E3. unfold CACHE_SZ, PAGE_SIZE. set (e := block_end start end_) in *.
  wp_step. eapply wp_mono; [by apply wp_get_page|].
  intros pc s1 (Hi1 & Hm1 & Hd1 & Hf1 & Hc1 & Hl1 & Hp1). assert (cl_of s1 = cl_of s) as Hcl by (by destruct Hm1 as (_ & -> & _)).
  wp_step. apply wp_assert; [apply Z.leb_le; lia|]. wp_step. unfold slice. wp_step. apply wp_assert.
  { rewrite Hl1. apply andb_true_iff. rewrite !Z.leb_le. pose proof (Z.mod_pos_bound start 4096). lia. }
  wp_step. replace (start mod 4096 + (e - start) - start mod 4096) with (e - start) by lia.
  rewrite Hp1, (page_slice s1) by (done || (rewrite ?Hcl; lia) || (pose proof (Z.mod_pos_bound start 4096); lia)). rewrite <-Hst.
  assert (fdata s1 <$> seqZ start (e - start) = fdata s <$> seqZ start (e - start)) as ->.
  { apply list_fmap_ext. intros k x Hx. apply list_elem_of_lookup_2, elem_of_seqZ in Hx. apply Hd1. lia. }
  rewrite wrap64_small by (unfold is_usize; lia). destruct (decide (e = end_)) as [Heq|Hne].
  - rewrite Heq, Z.eqb_refl. wp_step. by split_and!.
  - destruct Hcase as (Hnext & Hr & Hspan). rewrite (proj2 (Z.eqb_neq _ _) Hne). rewrite <-Hnext.
    set (x := fdata s <$> seqZ start (e - start)).
    assert (length x = Z.to_nat (e - start)) as Hx by (unfold x; by rewrite length_fmap, length_seqZ).
    assert (Z.to_nat rs + length x ≤ length buf)%nat as Hbx by lia.
    eapply wp_mono; [apply (IH e (rs + (e - start)) _ s1); try done; try lia; [| |]|].
    { rewrite Hcl. lia. } { eapply roomy_same; [exact Hf1|apply Hm1|done]. } { rewrite put_slice_length by done. lia. }
    intros r s2 (-> & Hi2 & Hm2 & Hd2 & Hf2). split_and!; [|done|by eapply same_meta_trans| |by eapply inode_keeps_trans].
    + f_equal; [lia|].
      assert (fdata s1 <$> seqZ e (end_ - e) = fdata s <$> seqZ e (end_ - e)) as ->.
      { apply list_fmap_ext. intros k y Hy. apply list_elem_of_lookup_2, elem_of_seqZ in Hy. apply Hd1. lia. }
      replace (Z.to_nat (rs + (e - start))) with (Z.to_nat rs + length x)%nat by lia.
      rewrite put_slice_app by (rewrite length_fmap, length_seqZ; lia). f_equal. unfold x.
      rewrite <-fmap_app. f_equal. replace (end_ - start) with ((e - start) + (end_ - e)) by lia.
      rewrite seqZ_app by lia. do 2 f_equal. lia.
    + intros i Hi0. by rewrite Hd2, Hd1.
Qed.

(** One round of a loop that writes: a page is fetched, then [src] stored. *)
Lemma wp_write_round {A} s start src (K : PageCache → ST InodeSt A) (k : ST InodeSt A) Q :
  inode_inv s → 0 ≤ start < npg (cl_of s) * 4096 → roomy s →
  start mod 4096 + Z.of_nat (length src) ≤ 4096 →
  (∀ pc s1, K pc s1 = (write_page (start / 4096) pc (start mod 4096) src;; k) s1) →
  (∀ s1, inode_inv s1 → same_meta s s1 → keeps s s1 →
     (∀ i, 0 ≤ i → fdata s1 i = fwrite (fdata s) start src i) → wp k Q s1) →
  wp (get_page efs tree_oom (start / 4096) ≫= K) Q s.
Proof.
  intros Hi Hs Hf Ha HK Hk. assert (0 ≤ start / 4096 < npg (cl_of s)) as Hid by (by apply page_of_pos).
  pose proof (Z.div_mod start 4096 ltac:(lia)). pose proof (Z.mod_pos_bound start 4096 ltac:(lia)).
  wp_step. eapply wp_mono; [by apply wp_get_page|].
  intros pc s1 (Hi1 & Hm1 & Hd1 & Hf1 & Hc1 & Hl1 & Hp1). assert (cl_of s1 = cl_of s) as Hcl by (by destruct Hm1 as (_ & -> & _)).
  unfold wp at 1. rewrite HK. match goal with |- match ?m s1 with _ => _ end => change (wp m Q s1) end.
  wp_step. eapply wp_mono; [apply (wp_write_page s1); try done; [by rewrite Hcl|lia]|].
  intros [] s2 (Hi2 & Hm2 & Hf2 & Hd2). apply Hk; [done|by eapply same_meta_trans|by eapply inode_keeps_trans|].
  intros i Hi0. rewrite Hd2 by done. replace (start / 4096 * 4096 + start mod 4096) with start by lia. by apply fwrite_ext, Hd1.
Qed.

Lemma wp_inode_write_loop fuel start end_ ws buf s :
  inode_inv s → 0 ≤ start < end_ → end_ ≤ npg (cl_of s) * 4096 → end_ < 2 ^ 62 →
  (span start end_ ≤ fuel)%nat → roomy s →
  0 ≤ ws → ws + (end_ - start) ≤ Z.of_nat (length buf) → ws + (end_ - start) < 2 ^ 62 →
  wp (write_loop efs tree_oom fuel start end_ (start / 4096) ws buf) (fun r s' =>
    r = ws + (end_ - start) ∧ inode_inv s' ∧ same_meta s s' ∧
    (∀ i, 0 ≤ i → fdata s' i = fwrite (fdata s) start (take (Z.to_nat (end_ - start)) (drop (Z.to_nat ws) buf)) i) ∧
    keeps s s') s.
Proof.
  revert start ws s. induction fuel as [|fuel IH]; intros start ws s Hi Hs He Hemax Hfuel Hfr Hws Hbuf Hwmax.
  { pose proof (block_arith start end_ Hs Hemax) as (_ & _ & _ & _ & _ & _ & _ & H). destruct (decide _); lia. }
  destruct (block_arith start end_ Hs Hemax) as (E1 & E2 & Hn & Hle & Ha & Hst & E3 & Hcase).
  cbn [write_loop]. rewrite E1, E2, E3. unfold CACHE_SZ, PAGE_SIZE. set (e := block_end start end_) in *.
  set (x := take (Z.to_nat (e - start)) (drop (Z.to_nat ws) buf)).
  assert (length x = Z.to_nat (e - start)) as Hx by (unfold x; rewrite length_take, length_drop; lia).
  eapply (wp_write_round s start x); [done|lia|done|lia| |].
  { intros pc s1. unfold slice, rust_assert. rewrite (proj2 (Z.leb_le ws _)), (proj2 (Z.leb_le (ws + _) _)) by lia.
    replace (ws + (e - start) - ws) with (e - start) by lia. reflexivity. }
  intros s1 Hi1 Hm1 Hf1 Hd1. assert (cl_of s1 = cl_of s) as Hcl by (by destruct Hm1 as (_ & -> & _)).
  rewrite wrap64_small by (unfold is_usize; lia). destruct (decide (e = end_)) as [Heq|Hne].
  - rewrite Heq, Z.eqb_refl. wp_step. unfold x in Hd1. rewrite Heq in Hd1. by split_and!.
  - destruct Hcase as (Hnext & Hr & Hspan). rewrite (proj2 (Z.eqb_neq _ _) Hne). rewrite <-Hnext.
    eapply wp_mono; [apply (IH e (ws + (e - start)) s1); try done; try lia; [rewrite Hcl; lia|eapply roomy_same; [exact Hf1|apply Hm1|done]]|].
    intros r s2 (-> & Hi2 & Hm2 & Hd2 & Hf2). split_and!; [lia|done|by eapply same_meta_trans| |by eapply inode_keeps_trans].
    intros i Hi0. rewrite Hd2 by done. erewrite fwrite_ext by (by apply Hd1).
    replace e with (start + Z.of_nat (length x)) at 1 by lia. rewrite fwrite_app. f_equal. unfold x.
    replace (Z.to_nat (ws + (e - start))) with (Z.to_nat ws + Z.to_nat (e - start))%nat by lia.
    rewrite <-drop_drop, take_take_drop. f_equal. lia.
Qed.

Lemma wp_clear_loop fuel start end_ ws s :
  inode_inv s → 0 ≤ start < end_ → end_ ≤ npg (cl_of s) * 4096 → end_ < 2 ^ 62 →
  (span start end_ ≤ fuel)%nat → roomy s →
  0 ≤ ws → ws + (end_ - start) < 2 ^ 62 →
  wp (clear_loop efs tree_oom fuel start end_ (start / 4096) ws) (fun r s' =>
    r = ws + (end_ - start) ∧ inode_inv s' ∧ same_meta s s' ∧
    (∀ i, 0 ≤ i → fdata s' i = fwrite (fdata s) start (replicate (Z.to_nat (end_ - start)) 0) i) ∧
    keeps s s') s.
Proof.
  revert start ws s. induction fuel as [|fuel IH]; intros start ws s Hi Hs He Hemax Hfuel Hfr Hws Hwmax.
  { pose proof (block_arith start end_ Hs Hemax) as (_ & _ & _ & _ & _ & _ & _ & H). destruct (decide _); lia. }
  destruct (block_arith start end_ Hs Hemax) as (E1 & E2 & Hn & Hle & Ha & Hst & E3 & Hcase).
  cbn [clear_loop]. rewrite E1, E2, E3. unfold CACHE_SZ, PAGE_SIZE. set (e := block_end start end_) in *.
  set (x := replicate (Z.to_nat (e - start)) 0).
  assert (length x = Z.to_nat (e - start)) as Hx by (unfold x; by rewrite length_replicate).
  eapply (wp_write_round s start x); [done|lia|done|lia| |].
  { intros pc s1. unfold rust_assert at 1. rewrite (proj2 (Z.leb_le _ _)) by lia. reflexivity. }
  intros s1 Hi1 Hm1 Hf1 Hd1. assert (cl_of s1 = cl_of s) as Hcl by (by destruct Hm1 as (_ & -> & _)).
  rewrite wrap64_small by (unfold is_usize; lia). destruct (decide (e = end_)) as [Heq|Hne].
  - rewrite Heq, Z.eqb_refl. wp_step. unfold x in Hd1. rewrite Heq in Hd1. by split_and!.
  - destruct Hcase as (Hnext & Hr & Hspan). rewrite (proj2 (Z.eqb_neq _ _) Hne). rewrite <-Hnext.
    eapply wp_mono; [apply (IH e (ws + (e - start)) s1); try done; try lia; [rewrite Hcl; lia|eapply roomy_same; [exact Hf1|apply Hm1|done]]|].
    intros r s2 (-> & Hi2 & Hm2 & Hd2 & Hf2). split_and!; [lia|done|by eapply same_meta_trans| |by eapply inode_keeps_trans].
    intros i Hi0. rewrite Hd2 by done. erewrite fwrite_ext by (by apply Hd1).
    replace e with (start + Z.of_nat (length x)) at 1 by lia. rewrite fwrite_app. f_equal. unfold x.
    rewrite <-replicate_add. f_equal. lia.
Qed.

(** ** Reading and writing inside the file *)

Lemma span_le start end_ len :
  0 ≤ start ≤ end_ → end_ ≤ start + len → (span start end_ ≤ pages_of len)%nat.
Proof.
  intros Hs He. unfold span, pages_of, CACHE_SZ, PAGE_SIZE.
  pose proof (Z.div_mod start 4096 ltac:(lia)). pose proof (Z.mod_pos_bound start 4096 ltac:(lia)).
  pose proof (Z.div_mod (end_ - 1) 4096 ltac:(lia)). pose proof (Z.mod_pos_bound (end_ - 1) 4096 ltac:(lia)).
  pose proof (Z.div_mod len 4096 ltac:(lia)). pose proof (Z.mod_pos_bound len 4096 ltac:(lia)). lia.
Qed.

(** The bytes of the file. *)
Definition content (s : InodeSt) : list Z := fdata s <$> seqZ 0 (size_of s).

Lemma content_length s : 0 ≤ size_of s → Z.of_nat (length (content s)) = size_of s.
Proof. intros H. unfold content. rewrite length_fmap, length_seqZ. lia. Qed.

Lemma content_slice s off n :
  0 ≤ off → 0 ≤ n → off + n ≤ size_of s →
  fdata s <$> seqZ off n = take (Z.to_nat n) (drop (Z.to_nat off) (content s)).
Proof.
  intros Ho Hn Hle. unfold content. rewrite <-fmap_drop, <-fmap_take. f_equal. apply list_eq. intros k.
  destruct (decide (Z.of_nat k < n)).
  - rewrite lookup_take_lt, lookup_drop, !lookup_seqZ_lt by lia. f_equal. lia.
  - rewrite lookup_take_ge by lia. by rewrite lookup_seqZ_ge by lia.
Qed.

Lemma content_ext s s' :
  size_of s' = size_of s → (∀ i, 0 ≤ i < size_of s → fdata s' i = fdata s i) → content s' = content s.
Proof.
  intros Hs Hd. unfold content. rewrite Hs. apply list_fmap_ext. intros k x Hx.
  apply list_elem_of_lookup_2, elem_of_seqZ in Hx. apply Hd. lia.
Qed.

Lemma content_write s s' off src :
  0 ≤ size_of s ≤ size_of s' → 0 ≤ off ≤ size_of s → off + Z.of_nat (length src) ≤ size_of s' →
  (size_of s = size_of s' ∨ off + Z.of_nat (length src) = size_of s') →
  (∀ i, 0 ≤ i < size_of s' → fdata s' i = fwrite (fdata s) off src i) →
  content s' = take (Z.to_nat off) (content s) ++ src ++ drop (Z.to_nat off + length src) (content s).
Proof.
  intros Hs Ho Hle Hor Hd. apply list_eq. intros k. unfold content. rewrite !list_lookup_fmap.
  assert (length (take (Z.to_nat off) (fdata s <$> seqZ 0 (size_of s))) = Z.to_nat off) as Ht
    by (rewrite length_take, length_fmap, length_seqZ; lia).
  destruct (decide (Z.of_nat k < size_of s')) as [Hk|Hk].
  - rewrite lookup_seqZ_lt by lia. cbn [fmap option_fmap option_map]. rewrite Z.add_0_l, Hd by lia. unfold fwrite.
    destruct (Z.leb_spec off (Z.of_nat k)); [|]; cbn [andb].
    + rewrite lookup_app_r, Ht by lia. destruct (Z.ltb_spec (Z.of_nat k) (off + Z.of_nat (length src))).
      * rewrite lookup_app_l by lia.
        destruct (lookup_lt_is_Some_2 src (k - Z.to_nat off)) as [x Hx]; [lia|]. rewrite Hx. f_equal.
        replace (Z.to_nat (Z.of_nat k - off)) with (k - Z.to_nat off)%nat by lia. by apply nth_lookup_Some.
      * rewrite lookup_app_r, lookup_drop, list_lookup_fmap by lia. rewrite lookup_seqZ_lt by lia. cbn. do 2 f_equal. lia.
    + rewrite lookup_app_l by lia. rewrite lookup_take_lt, list_lookup_fmap, lookup_seqZ_lt by lia. done.
  - rewrite lookup_seqZ_ge by lia. symmetry. apply lookup_ge_None. rewrite !length_app, Ht, length_drop, length_fmap, length_seqZ. lia.
Qed.

Lemma wp_read_at off buf s :
  inode_inv s → 0 ≤ off < 2 ^ 61 → Z.of_nat (length buf) < 2 ^ 61 → roomy s →
  let n := Z.max 0 (Z.min (Z.of_nat (length buf)) (size_of s - off)) in
  wp (read_at_block_cache efs tree_oom off buf) (fun r s' =>
    r = (n, take (Z.to_nat n) (drop (Z.to_nat off) (content s)) ++ drop (Z.to_nat n) buf) ∧
    inode_inv s' ∧ same_meta s s' ∧ (∀ i, 0 ≤ i → fdata s' i = fdata s i) ∧ keeps s s') s.
Proof.
  intros Hi Ho Hb Hf n. assert (n = Z.max 0 (Z.min (Z.of_nat (length buf)) (size_of s - off))) as Hn by done. clearbody n.
  pose proof (iv_size s Hi). pose proof (size_pages s Hi).
  unfold read_at_block_cache, get_file_size, get_content. repeat wp_step.
  rewrite wrap64_small by (unfold is_usize; lia). destruct (Z.leb_spec (Z.min (off + Z.of_nat (length buf)) (size_of s)) off) as [Hle|Hlt].
  { wp_step. replace n with 0 by lia. change (Z.to_nat 0) with 0%nat. rewrite take_0, drop_0. by split_and!. }
  remember (Z.min (off + Z.of_nat (length buf)) (size_of s)) as e eqn:He. assert (e ≤ off + Z.of_nat (length buf) ∧ e ≤ size_of s ∧ e - off = n) as (He1 & He2 & He3) by lia.
  pose proof (span_le off e (Z.of_nat (length buf)) ltac:(lia) ltac:(lia)).
  eapply wp_mono; [apply (wp_inode_read_loop _ off e 0 buf s); try done; lia|].
  intros r s' (-> & Hi' & Hm & Hd & Hrm). split_and!; try done. rewrite He3.
  rewrite content_slice by lia. f_equal. unfold put_slice. change (Z.to_nat 0) with 0%nat. rewrite take_0, app_nil_l. f_equal.
  f_equal. rewrite length_take, length_drop. pose proof (content_length s). lia.
Qed.

(** The part of a write that follows the change of the size. *)
Lemma wp_write_inside off buf s :
  inode_inv s → 0 ≤ off → off + Z.of_nat (length buf) ≤ size_of s →
  roomy s → (0 < length buf)%nat →
  wp (write_loop efs tree_oom (pages_of (Z.of_nat (length buf))) off (off + Z.of_nat (length buf)) (off / CACHE_SZ) 0 buf)
    (fun r s' => r = Z.of_nat (length buf) ∧ inode_inv s' ∧ same_meta s s' ∧ keeps s s' ∧
      ∀ i, 0 ≤ i → fdata s' i = fwrite (fdata s) off buf i) s.
Proof.
  intros Hi Ho Hle Hf Hb. pose proof (iv_size s Hi). pose proof (size_pages s Hi).
  set (e := off + Z.of_nat (length buf)) in *. pose proof (span_le off e (Z.of_nat (length buf)) ltac:(lia) ltac:(lia)).
  eapply wp_mono; [apply (wp_inode_write_loop _ off e 0 buf s); try done; lia|].
  intros r s' (-> & Hi' & Hm & Hd & Hrm). split_and!; try done; [lia|].
  replace (Z.to_nat (e - off)) with (length buf) in Hd by lia. change (Z.to_nat 0) with 0%nat in Hd.
  by rewrite drop_0, firstn_all in Hd.
Qed.

(** ** Changing the size *)

Lemma total_clus_eq n :
  0 ≤ n < 2 ^ 32 → ∃ k, total_clus efs n = Ok k ∧ n ≤ k * clus_size efs < n + clus_size efs ∧ 0 ≤ k < 2 ^ 32.
Proof.
  intros Hn. pose proof clus_size_eq as E. pose proof spc_pos as [Hs _]. unfold total_clus.
  rewrite (proj2 (Z.eqb_neq _ _)) by lia. eexists. split; [done|].
  pose proof (Z.div_mod n (clus_size efs) ltac:(lia)). pose proof (Z.mod_pos_bound n (clus_size efs) ltac:(lia)).
  pose proof (Z.div_pos n (clus_size efs) ltac:(lia) ltac:(lia)).
  assert (n / clus_size efs ≤ n) by (apply Z.div_le_upper_bound; nia).
  destruct (Z.eqb_spec (n mod clus_size efs) 0); [nia|]. split; [nia|].
  assert (n / clus_size efs < 2 ^ 31) by (apply Z.div_lt_upper_bound; lia). lia.
Qed.

Lemma clus_count s k :
  inode_inv s → size_of s ≤ k * clus_size efs < size_of s + clus_size efs → k = Z.of_nat (length (cl_of s)).
Proof. intros Hi Hk. pose proof (iv_count s Hi). pose proof clus_size_eq. pose proof spc_pos. nia. Qed.

Lemma fat_wf_rebase D fs : fat_wf (efs_fat efs) N D fs → fat_wf (efs_fat efs) N (bc_disk (fat_bc fs)) fs.
Proof. by intros []. Qed.

(** A state whose table and cluster list change while the cached pages keep
    their sectors. *)
Lemma wp_clus_change s fs cl' :
  inode_inv s → fat_wf (efs_fat efs) N (the_disk s.1) fs → clus_ok cl' →
  (∀ id, 0 ≤ id < npg (cl_of s) → id < npg cl' → get_neighboring_sec efs cl' id = get_neighboring_sec efs (cl_of s) id) →
  (∀ id pc, cached (pcm_of s) id pc → id < npg cl') →
  let p' := mkPcmState (pages s.2) (page_ids s.2) (mkPcSys (bc_disk (fat_bc fs)) (sh_fa s.1) (sh_pte s.1)) in
  pcm_inv (get_neighboring_sec efs cl') (npg cl') R p' ∧
  ∀ id, 0 ≤ id < npg (cl_of s) → id < npg cl' →
    pview (get_neighboring_sec efs cl') p' id = pview (get_neighboring_sec efs (cl_of s)) (pcm_of s) id.
Proof.
  intros Hi Hwf Hok Hnb Hc p'. pose proof (ew_area N efs (ge_efs Hgeo)). pose proof ppc_pos. pose proof (ew_start N efs (ge_efs Hgeo)).
  apply (pcm_inv_move _ (npg (cl_of s)) R (pcm_of s)); [apply Hi| | |done|done|].
  - destruct (fw_bc _ _ _ _ Hwf). by split.
  - apply neighbor_ok_clus; [done|]. rewrite (fw_dsize _ _ _ _ Hwf). apply Hi.
  - intros id b Hid _ (c & _ & Hr & Hb)%(elem_of_page _ _ _ (iv_clus s Hi) Hid).
    apply (fw_data _ _ _ _ Hwf). pose proof (page_base_range c id Hr). pose proof (ge_area Hgeo). unfold usize_MAX. nia.
Qed.

(** The state with another table, cluster list and size. *)
Definition set_clus (s : InodeSt) (fs : FatSt) (cl : list Z) (size : Z) : InodeSt :=
  (mkShared fs (sh_fa s.1) (sh_pte s.1),
   mkInode (mkFileContent size cl (fc_hint (file_content s.2))) (pages s.2) (page_ids s.2) (file_type s.2)
     (deleted s.2) (time s.2)).

(** What the other files rely on: the entries of their clusters and the
    sectors of their data. *)
Definition others_kept (s s' : InodeSt) : Prop :=
  (∀ c, is_clus N c → c ∉ cl_of s → ¬ is_free (table_of s) c → table_of s' c = table_of s c) ∧
  (∀ b, fat_end (efs_fat efs) N ≤ b < usize_MAX → (∀ c, c ∈ cl_of s → b ∉ cluster_blocks efs c) →
     d_data (the_disk s'.1) b = d_data (the_disk s.1) b).

Lemma others_kept_meta s s' : same_meta s s' → others_kept s s'.
Proof. intros (Hf & _). unfold others_kept, the_disk. by rewrite Hf. Qed.

Lemma last_clus s l : inode_inv s → last (cl_of s) = Some l → is_clus N l ∧ ¬ is_free (table_of s) l.
Proof.
  intros Hi Hl%last_Some_elem_of. pose proof (iv_used s Hi) as Hu. destruct (iv_clus s Hi) as (_ & Hr & _).
  rewrite Forall_forall in Hu, Hr. split; [|by apply Hu]. pose proof (Hr l Hl). unfold is_clus. lia.
Qed.

Lemma fat_list_clus s : inode_inv s → Forall (is_clus N) (cl_of s).
Proof. intros Hi. destruct (iv_clus s Hi) as (_ & Hr & _). eapply Forall_impl; [exact Hr|]. intros c Hc. simpl in Hc. unfold is_clus. lia. Qed.

Lemma wp_alloc_clus s n cs :
  inode_inv s → reserved_used (efs_fat efs) N (sh_fat s.1) → alloc_ready (efs_fat efs) N (sh_fat s.1) (Z.to_nat n) cs →
  wp (alloc_clus efs n) (fun _ s' => ∃ fs, s' = set_clus s fs (cl_of s ++ cs) (size_of s) ∧
    allocated (efs_fat efs) N (the_disk s.1) (sh_fat s.1) (last (cl_of s)) cs fs) s.
Proof.
  intros Hi H2 Hr. unfold alloc_clus, get_content. do 2 wp_step. wp_step. apply wp_on_fat.
  eapply wp_mono; [apply (wp_alloc_ready _ N (the_disk s.1) _ _ _ cs); [apply Hi|done|done|]|].
  { intros l Hl. by apply last_clus. }
  intros r fs (-> & Ha). unfold put_clus_list, put_content, get_content. repeat wp_step. exists fs. by split.
Qed.

Lemma grown_chain f cl cs :
  N ≤ BAD_BLOCK → NoDup (cl ++ cs) → Forall (is_clus N) (cl ++ cs) → fat_list f cl →
  fat_list (fat_link f (last cl) cs) (cl ++ cs).
Proof.
  intros HN Hnd Hall Hf. apply Forall_app in Hall as [Hcl Hcs]. destruct cl as [|c cl].
  - destruct cs as [|c cs]; [done|]. cbn [app last fat_list fat_link fat_set_opt].
    apply Forall_cons in Hcs as [_ Hcs]. by apply (fat_link_chain N).
  - cbn [app fat_list]. destruct (last (c :: cl)) as [l|] eqn:E; [|by apply last_None in E]. by apply (fat_link_extend N _ _ _ _ _ HN Hf E).
Qed.

Lemma list_used f cl l :
  fat_list f cl → last cl = Some l → ¬ is_free f l → Forall (fun c => 2 ≤ c < N) cl → Forall (fun c => ¬ is_free f c) cl.
Proof.
  intros Hf Hl Hn Hr. destruct cl as [|c cl]; [done|]. apply (fat_chain_used f c cl l); try done.
  apply Forall_cons in Hr as [_ Hr]. eapply Forall_impl; [exact Hr|]. simpl. intros x Hx. lia.
Qed.

Lemma not_free_EOC f c : f c = EOC → ¬ is_free f c.
Proof. intros H. unfold is_free, fat_next. by rewrite H. Qed.

(** The last cluster of a list that [cs] have been linked to. *)
Lemma grown_last_used f cl cs l :
  NoDup (cl ++ cs) → last (cl ++ cs) = Some l → ¬ is_free (fat_link f (last cl) cs) l.
Proof.
  intros Hnd Hl. apply not_free_EOC. destruct cs as [|c cs].
  - rewrite app_nil_r in Hl. rewrite Hl. cbn [fat_link fat_set_opt]. unfold fat_set. by rewrite Z.eqb_refl.
  - apply NoDup_app in Hnd as (_ & _ & Hnd). apply fat_link_last; [|done].
    rewrite last_app in Hl. destruct (last (c :: cs)) eqn:E; [done|]. by apply last_None in E.
Qed.

Lemma grown_clus_ok s n cs new :
  inode_inv s → reserved_used (efs_fat efs) N (sh_fat s.1) → alloc_ready (efs_fat efs) N (sh_fat s.1) n cs →
  0 ≤ new < 2 ^ 32 → Z.of_nat (length (cl_of s ++ cs)) * clus_size efs < new + clus_size efs → clus_ok (cl_of s ++ cs).
Proof.
  intros Hi H2 Hr Hnew Hlen. destruct (alloc_ready_clus _ _ _ _ _ _ (iv_fat s Hi) H2 Hr) as (_ & Hnd & Hcs).
  destruct (iv_clus s Hi) as (Hnd0 & Hr0 & _). pose proof (iv_used s Hi) as Hu. rewrite Forall_forall in Hu. split; [|split].
  - apply NoDup_app. split; [done|]. split; [|done]. intros c Hc Hc'. by apply (Hu c Hc), Hcs.
  - apply Forall_app. split; [done|]. apply Forall_forall. intros c Hc. by apply Hcs.
  - pose proof clus_size_eq. pose proof spc_pos. nia.
Qed.

(** Adding clusters keeps the invariant and the bytes. *)
Lemma grow_inv s n cs fs new :
  inode_inv s → reserved_used (efs_fat efs) N (sh_fat s.1) → alloc_ready (efs_fat efs) N (sh_fat s.1) n cs →
  allocated (efs_fat efs) N (the_disk s.1) (sh_fat s.1) (last (cl_of s)) cs fs →
  0 ≤ new < 2 ^ 32 → new ≤ Z.of_nat (length (cl_of s ++ cs)) * clus_size efs < new + clus_size efs →
  let s' := set_clus s fs (cl_of s ++ cs) new in
  inode_inv s' ∧ others_kept s s' ∧ ∀ i, 0 ≤ i < npg (cl_of s) * 4096 → fdata s' i = fdata s i.
Proof.
  intros Hi H2 Hr [Hwf Hlink] Hnew Hcount s'. pose proof (grown_clus_ok s n cs new Hi H2 Hr Hnew ltac:(lia)) as Hok.
  destruct (alloc_ready_clus _ _ _ _ _ _ (iv_fat s Hi) H2 Hr) as (_ & _ & Hcs).
  pose proof ppc_pos as [Hp _]. assert (npg (cl_of s) ≤ npg (cl_of s ++ cs)) as Hle by (unfold npg; rewrite length_app; nia).
  destruct (wp_clus_change s fs (cl_of s ++ cs) Hi Hwf Hok) as [Hpi Hpv].
  { intros id Hid _. by apply neighboring_sec_app. }
  { intros id pc Hc. pose proof (pk_id _ _ _ _ _ _ (pi_page _ _ _ _ (iv_pages s Hi) id pc Hc)). lia. }
  assert (Forall (is_clus N) (cl_of s ++ cs)) as Hall.
  { destruct Hok as (_ & Hok & _). eapply Forall_impl; [exact Hok|]. simpl. unfold is_clus. intros c Hc. lia. }
  assert (fat_list (table_of s') (cl_of s ++ cs) ∧ Forall (fun c => ¬ is_free (table_of s') c) (cl_of s ++ cs)) as [Hch Hused].
  { assert (∀ x, is_clus N x → fat_link (table_of s) (last (cl_of s)) cs x = table_of s' x) as Hx by (intros; symmetry; by apply Hlink).
    pose proof (grown_chain (table_of s) _ cs (fw_N _ _ _ _ Hwf) (proj1 Hok) Hall (iv_chain s Hi)) as Hg.
    assert (fat_list (table_of s') (cl_of s ++ cs)) as Hl.
    { destruct (cl_of s ++ cs) as [|c l] eqn:E; [done|]. apply Forall_cons in Hall as [? ?]. by eapply (fat_chain_ext N). }
    split; [done|]. destruct (last (cl_of s ++ cs)) as [l|] eqn:E; [|by apply last_None in E as ->].
    apply (list_used _ _ l); [done|done| |apply Hok].
    pose proof (grown_last_used (table_of s) _ cs l (proj1 Hok) E) as Hn. unfold is_free, fat_next in *. rewrite <-Hx; [done|].
    rewrite Forall_forall in Hall. apply Hall. by apply last_Some_elem_of. }
  split; [|split].
  - split; try done; [by eapply fat_wf_rebase|]. unfold s', set_clus, the_disk. cbn [fst sh_fat].
    rewrite (fw_dsize _ _ _ _ Hwf). apply Hi.
  - split; [|intros b Hb _; by apply (fw_data _ _ _ _ Hwf)]. intros c Hc Hn Hf.
    change (table_of s' c) with (fat_get (efs_fat efs) fs c). rewrite Hlink by done. apply fat_link_other.
    + intros Hl%last_Some_elem_of. done.
    + intros Hc'. by apply Hf, Hcs.
  - intros i Hir. pose proof (page_of_pos s i Hir). unfold fdata. cbn [s' set_clus snd file_content clus_list].
    change (pcm_of s') with (mkPcmState (pages s.2) (page_ids s.2) (mkPcSys (bc_disk (fat_bc fs)) (sh_fa s.1) (sh_pte s.1))).
    rewrite Hpv by lia. done.
Qed.

(** Clusters that a file of [n] bytes has. *)
Definition clus_for (n : Z) : Z := n / clus_size efs + (if n mod clus_size efs =? 0 then 0 else 1).

Lemma total_clus_for n :
  0 ≤ n < 2 ^ 32 → total_clus efs n = Ok (clus_for n) ∧ n ≤ clus_for n * clus_size efs < n + clus_size efs ∧
    0 ≤ clus_for n < 2 ^ 32.
Proof.
  intros Hn. destruct (total_clus_eq n Hn) as (k & Ht & Hk). pose proof clus_size_eq. pose proof spc_pos.
  unfold total_clus in Ht. rewrite (proj2 (Z.eqb_neq _ _)) in Ht by lia. injection Ht as <-.
  split; [|done]. unfold total_clus. by rewrite (proj2 (Z.eqb_neq _ _)) by lia.
Qed.

Lemma clus_for_size s : inode_inv s → clus_for (size_of s) = Z.of_nat (length (cl_of s)).
Proof. intros Hi. apply clus_count; [done|]. apply total_clus_for, Hi. Qed.

Lemma others_kept_trans s s1 s2 : others_kept s s1 → same_meta s1 s2 → others_kept s s2.
Proof. intros [H1 H2] (Hf & _). unfold others_kept, the_disk in *. by rewrite Hf. Qed.

Lemma wp_modify_grow s diff clear cs :
  inode_inv s → reserved_used (efs_fat efs) N (sh_fat s.1) → 0 < diff → size_of s + diff < 2 ^ 32 →
  alloc_ready (efs_fat efs) N (sh_fat s.1) (Z.to_nat (clus_for (size_of s + diff) - Z.of_nat (length (cl_of s)))) cs →
  (clear = true → (Z.to_nat (npg (cl_of s ++ cs)) < room s)%nat) →
  wp (modify_size_lock efs tree_oom diff clear) (fun _ s' =>
    inode_inv s' ∧ others_kept s s' ∧ size_of s' = size_of s + diff ∧ cl_of s' = cl_of s ++ cs ∧
    keeps s s' ∧
    (∀ i, 0 ≤ i < size_of s → fdata s' i = fdata s i) ∧
    (if clear then ∀ i, size_of s ≤ i < size_of s + diff → fdata s' i = 0 else True)) s.
Proof.
  intros Hi H2 Hd Hmax Hr Hf. pose proof (iv_size s Hi) as Hsz. pose proof (size_pages s Hi) as Hsp. pose proof (clus_for_size s Hi) as Hold.
  destruct (total_clus_for (size_of s) Hsz) as (Ht0 & _ & _).
  destruct (total_clus_for (size_of s + diff) ltac:(lia)) as (Ht1 & Hc1 & Hb1).
  destruct (alloc_ready_clus _ _ _ _ _ _ (iv_fat s Hi) H2 Hr) as (Hlen & _ & _).
  assert (Z.of_nat (length (cl_of s)) ≤ clus_for (size_of s + diff)) as Hge.
  { pose proof (iv_count s Hi). pose proof clus_size_eq. pose proof spc_pos. nia. }
  unfold modify_size_lock, get_file_size, get_content. repeat wp_step.
  rewrite !(wrap32_small (size_of s + diff)) by (unfold is_u32; lia). rewrite Ht0, Ht1, Hold.
  rewrite (proj2 (Z.ltb_lt 0 diff) Hd). eapply wp_lift; [done|]. wp_step. eapply wp_lift; [done|]. wp_step.
  rewrite wrap64_small by (unfold is_usize; lia).
  eapply wp_mono; [by apply (wp_alloc_clus s _ cs)|]. intros [] s1 (fs & -> & Ha).
  unfold put_size, put_content, get_content. repeat wp_step.
  change (wp (if clear then clear_at_block_cache_lock efs tree_oom (size_of s) (wrap32 (size_of s + diff - size_of s));; mret tt else mret tt)
    (fun _ s' => inode_inv s' ∧ others_kept s s' ∧ size_of s' = size_of s + diff ∧ cl_of s' = cl_of s ++ cs ∧
    keeps s s' ∧ (∀ i, 0 ≤ i < size_of s → fdata s' i = fdata s i) ∧
    (if clear then ∀ i, size_of s ≤ i < size_of s + diff → fdata s' i = 0 else True))
    (set_clus s fs (cl_of s ++ cs) (size_of s + diff))).
  destruct (grow_inv s _ cs fs (size_of s + diff) Hi H2 Hr Ha ltac:(lia)) as (Hi1 & Ho1 & Hd1).
  { replace (Z.of_nat (length (cl_of s ++ cs))) with (clus_for (size_of s + diff)) by (rewrite length_app, Hlen; lia). done. }
  set (s1 := set_clus _ _ _ _) in *. destruct clear.
  2:{ wp_step. split_and!; try done. intros i Hir. apply Hd1. lia. }
  wp_step. unfold clear_at_block_cache_lock. rewrite wrap32_small, wrap64_small by (unfold is_u32, is_usize; lia).
  replace (size_of s + diff - size_of s) with diff by lia. pose proof (size_pages s1 Hi1) as Hsp1. change (size_of s1) with (size_of s + diff) in Hsp1.
  pose proof (span_le (size_of s) (size_of s + diff) diff ltac:(lia) ltac:(lia)). specialize (Hf eq_refl).
  eapply wp_mono; [apply (wp_clear_loop _ (size_of s) (size_of s + diff) 0 s1); try done; lia|].
  intros r s2 (_ & Hi2 & Hm2 & Hd2 & Hrm2). wp_step. pose proof Hm2 as (_ & Hfc & _).
  split_and!; [done|by eapply others_kept_trans|by rewrite Hfc|by rewrite Hfc|done| |].
  - intros i Hir. rewrite Hd2 by lia. unfold fwrite. rewrite (proj2 (Z.leb_gt _ _)) by lia. cbn [andb]. apply Hd1. lia.
  - intros i Hir. rewrite Hd2 by lia. unfold fwrite. rewrite (proj2 (Z.leb_le _ _)), (proj2 (Z.ltb_lt _ _)) by (rewrite ?length_replicate; lia).
    cbn [andb]. rewrite nth_lookup. by destruct (_ !! _) as [x|] eqn:E; [apply lookup_replicate in E as [-> _]|].
Qed.

Lemma wp_dealloc_clus s n :
  inode_inv s → 0 ≤ n ≤ Z.of_nat (length (cl_of s)) →
  let rest := take (length (cl_of s) - Z.to_nat n) (cl_of s) in
  let gone := drop (length (cl_of s) - Z.to_nat n) (cl_of s) in
  wp (dealloc_clus efs n) (fun _ s' => ∃ fs, s' = set_clus s fs rest (size_of s) ∧
    fat_wf (efs_fat efs) N (the_disk s.1) fs ∧
    ∀ x, is_clus N x → fat_get (efs_fat efs) fs x =
      if decide (last rest = Some x) then EOC else if decide (x ∈ gone) then FAT_ENTRY_FREE else table_of s x) s.
Proof.
  intros Hi Hn rest gone. pose proof (fat_list_clus s Hi) as Hall.
  rewrite <-(take_drop (length (cl_of s) - Z.to_nat n) (cl_of s)) in Hall. apply Forall_app in Hall as [Hrest Hgone].
  unfold dealloc_clus, get_content, put_clus_list, put_content. repeat wp_step. unfold get_content. repeat wp_step.
  rewrite Z.min_l by lia. fold rest gone. apply wp_on_fat.
  eapply wp_mono; [apply (wp_free _ N (the_disk s.1)); [apply Hi|by rewrite Forall_reverse|]|].
  { intros l Hl%last_Some_elem_of. rewrite Forall_forall in Hrest. by apply Hrest. }
  intros [] fs (Hwf & _ & Hg). exists fs. split; [done|]. split; [done|]. intros x Hx. rewrite Hg by done.
  destruct (decide (last rest = Some x)); [done|].
  destruct (decide (x ∈ reverse gone)) as [H|H], (decide (x ∈ gone)) as [H'|H']; rewrite elem_of_reverse in H; done.
Qed.

(** Removing clusters from the end keeps the rest a chain in use. *)
Lemma shrunk_chain s fs rest gone :
  inode_inv s → cl_of s = rest ++ gone →
  (∀ x, is_clus N x → fat_get (efs_fat efs) fs x =
      if decide (last rest = Some x) then EOC else if decide (x ∈ gone) then FAT_ENTRY_FREE else table_of s x) →
  fat_list (fat_get (efs_fat efs) fs) rest ∧ Forall (fun c => ¬ is_free (fat_get (efs_fat efs) fs) c) rest.
Proof.
  intros Hi Hcl Hg. destruct (iv_clus s Hi) as (Hnd & Hr & _). pose proof (iv_chain s Hi) as Hch.
  pose proof (fat_list_clus s Hi) as Hall. rewrite Hcl in Hnd, Hr, Hch, Hall.
  apply NoDup_app in Hnd as (Hnd & Hdis & _). apply Forall_app in Hr as [Hr _]. apply Forall_app in Hall as [Hall _].
  rewrite Forall_forall in Hall. destruct rest as [|c rest]; [done|].
  destruct (last (c :: rest)) as [l|] eqn:E; [|by apply last_None in E].
  pose proof (last_Some_elem_of _ _ E) as Hl.
  assert (fat_get (efs_fat efs) fs l = EOC) as Hend by (rewrite Hg by auto; by rewrite decide_True).
  assert (fat_chain (fat_get (efs_fat efs) fs) c rest) as Hc.
  { apply (fat_chain_cut (table_of s) _ c rest gone l Hch E Hnd Hend). intros x Hx Hne. rewrite Hg by auto.
    rewrite !decide_False by (congruence || by apply Hdis). done. }
  split; [done|]. by apply (list_used _ (c :: rest) l Hc E (not_free_EOC _ _ Hend)).
Qed.

Lemma clus_ok_prefix rest gone : clus_ok (rest ++ gone) → clus_ok rest.
Proof.
  intros (H1 & H2 & H3). apply NoDup_app in H1 as (? & _). apply Forall_app in H2 as [? _].
  rewrite length_app in H3. split_and!; try done. lia.
Qed.

(** No page from [size] on is in use elsewhere. *)
Definition unshared_from (s : InodeSt) (size : Z) : Prop :=
  ∀ id pc, cached (pcm_of s) id pc → size ≤ id * 4096 → pc_shared pc = false ∧ tracker_shared pc = false.

(** The pages that remain after the clusters [gone] have been given back. *)
Lemma wp_shrink_pages s fs rest gone new :
  inode_inv s → cl_of s = rest ++ gone → fat_wf (efs_fat efs) N (the_disk s.1) fs →
  0 ≤ new < 2 ^ 32 → new ≤ npg rest * 4096 → unshared_from s new →
  wp (on_pcm (notify_new_size new)) (fun _ s' => ∃ p, s' = put_pcm (set_clus s fs rest new) p ∧
    pc_disk (pcm_sys p) = bc_disk (fat_bc fs) ∧ pcm_inv (get_neighboring_sec efs rest) (npg rest) R p ∧
    (∀ id, 0 ≤ id → id * 4096 < new → pview (get_neighboring_sec efs rest) p id =
       pview (get_neighboring_sec efs (cl_of s)) (pcm_of s) id) ∧
    budget p = room s ∧ (unshared (pcm_of s) → unshared p)) (set_clus s fs rest new).
Proof.
  intros Hi Hcl Hwf Hnew Hle Hsh. pose proof (iv_clus s Hi) as Hok. pose proof Hok as Hok'. rewrite Hcl in Hok'.
  assert (npg rest ≤ npg (cl_of s)) as Hpg by (rewrite Hcl; unfold npg; rewrite length_app; pose proof ppc_pos; nia).
  destruct (wp_clus_change s fs (cl_of s) Hi Hwf Hok ltac:(done)) as [Hpi Hpv].
  { intros id pc Hc. by apply (pk_id _ _ _ _ _ _ (pi_page _ _ _ _ (iv_pages s Hi) id pc Hc)). }
  apply wp_on_pcm. eapply wp_mono; [apply (wp_notify_new_size _ _ R _ new Hpi); [lia|]|].
  { intros id pc Hc. by apply (Hsh id pc). }
  intros [] p (Hp & Hv & Hc & Hd & _ & Hb). exists p. split; [done|]. split; [done|].
  destruct (pcm_inv_move _ _ R p (get_neighboring_sec efs rest) (npg rest) (pc_disk (pcm_sys p)) Hp) as [Hpi2 Hpv2].
  { apply Hp. }
  { apply neighbor_ok_clus; [by eapply clus_ok_prefix|]. rewrite Hd. cbn [pcm_sys pc_disk]. rewrite (fw_dsize _ _ _ _ Hwf). apply Hi. }
  { intros id pc [_ Hlt]%Hc. lia. }
  { intros id Hid Hlt. rewrite Hcl. symmetry. apply neighboring_sec_app; [done|lia]. }
  { done. }
  assert (mkPcmState (pcm_pool p) (allocated_cache p) (with_disk (pcm_sys p) (pc_disk (pcm_sys p))) = p) as E by (by destruct p as [? ? []]).
  rewrite E in Hpi2, Hpv2. split; [done|]. split; [|split; [apply Hb; intros id pc Hid; by apply Hsh|intros Hu id pc [Hq _]%Hc; by apply (Hu id)]].
  intros id Hid Hlt. rewrite Hpv2, Hv, (proj2 (Z.ltb_lt _ _) Hlt), Hpv by lia. done.
Qed.

(** Giving clusters back keeps the invariant. *)
Lemma shrink_inv s fs rest gone new p :
  inode_inv s → cl_of s = rest ++ gone → fat_wf (efs_fat efs) N (the_disk s.1) fs →
  (∀ x, is_clus N x → fat_get (efs_fat efs) fs x =
      if decide (last rest = Some x) then EOC else if decide (x ∈ gone) then FAT_ENTRY_FREE else table_of s x) →
  0 ≤ new < 2 ^ 32 → new ≤ Z.of_nat (length rest) * clus_size efs < new + clus_size efs →
  pc_disk (pcm_sys p) = bc_disk (fat_bc fs) → pcm_inv (get_neighboring_sec efs rest) (npg rest) R p →
  inode_inv (put_pcm (set_clus s fs rest new) p) ∧ others_kept s (put_pcm (set_clus s fs rest new) p).
Proof.
  intros Hi Hcl Hwf Hg Hnew Hcount Hd Hp. destruct (shrunk_chain s fs rest gone Hi Hcl Hg) as [Hch Hused].
  pose proof (iv_clus s Hi) as Hok. rewrite Hcl in Hok.
  assert (sh_fat (put_pcm (set_clus s fs rest new) p).1 = fs) as Hfs.
  { cbn [put_pcm set_clus fst sh_fat]. rewrite Hd. apply put_disk_same. }
  split.
  - split; unfold the_disk; rewrite ?Hfs; try done.
    + by eapply fat_wf_rebase.
    + rewrite (fw_dsize _ _ _ _ Hwf). apply Hi.
    + by eapply clus_ok_prefix.
    + by rewrite pcm_of_put.
  - unfold others_kept, the_disk. rewrite Hfs. split; [|intros b Hb _; by apply (fw_data _ _ _ _ Hwf)].
    intros c Hc Hn Hf. rewrite Hcl in Hn. rewrite Hg by done. rewrite !decide_False; [done|set_solver|].
    intros Hl%last_Some_elem_of. set_solver.
Qed.

Lemma wp_modify_shrink s diff clear :
  inode_inv s → diff ≤ 0 ≤ size_of s + diff → unshared_from s (size_of s + diff) →
  wp (modify_size_lock efs tree_oom diff clear) (fun _ s' =>
    inode_inv s' ∧ others_kept s s' ∧ size_of s' = size_of s + diff ∧
    (∀ i, 0 ≤ i < size_of s + diff → fdata s' i = fdata s i) ∧
    keeps s s' ∧ cl_of s' = take (Z.to_nat (clus_for (size_of s + diff))) (cl_of s)) s.
Proof.
  intros Hi Hd Hsh. pose proof (iv_size s Hi) as Hsz. pose proof (clus_for_size s Hi) as Hold.
  set (new := size_of s + diff) in *. assert (0 ≤ new ≤ size_of s) as Hnew by lia.
  destruct (total_clus_for (size_of s) Hsz) as (Ht0 & _ & _). destruct (total_clus_for new ltac:(lia)) as (Ht1 & Hc1 & Hb1).
  assert (clus_for new ≤ Z.of_nat (length (cl_of s))) as Hge.
  { pose proof (iv_count s Hi). pose proof clus_size_eq. pose proof spc_pos. nia. }
  assert (Z.of_nat (length (cl_of s)) < 2 ^ 32) as Hlen by apply (iv_clus s Hi).
  unfold modify_size_lock, get_file_size, get_content. repeat wp_step. fold new.
  rewrite !(wrap32_small new) by (unfold is_u32; lia). rewrite Ht0, Ht1, Hold.
  rewrite (proj2 (Z.ltb_ge 0 diff)) by lia. eapply wp_lift; [done|]. wp_step. eapply wp_lift; [done|]. wp_step.
  rewrite wrap64_small by (unfold is_usize; lia). set (n := Z.of_nat (length (cl_of s)) - clus_for new).
  eapply wp_mono; [apply (wp_dealloc_clus s n); [done|lia]|]. intros [] s1 (fs & -> & Hwf & Hg).
  set (k := (length (cl_of s) - Z.to_nat n)%nat) in *. assert (k = Z.to_nat (clus_for new)) as Hk by lia.
  pose proof (eq_sym (take_drop k (cl_of s))) as Hcl. set (rest := take k (cl_of s)) in *. set (gone := drop k (cl_of s)) in *.
  assert (Z.of_nat (length rest) = clus_for new) as Hrl by (unfold rest; rewrite length_take; lia).
  assert (new ≤ npg rest * 4096) as Hpages by (unfold npg; rewrite Hrl; rewrite clus_size_eq in Hc1; pose proof ppc_pos; lia).
  unfold put_size, put_content, get_content. repeat wp_step. match goal with |- wp _ _ ?st => change st with (set_clus s fs rest new) end.
  eapply wp_mono; [apply (wp_shrink_pages s fs rest gone new); try done; lia|].
  intros [] s' (p & -> & Hdp & Hpi & Hpv & Hb & Hu).
  destruct (shrink_inv s fs rest gone new p) as [Hi' Ho']; try done; [lia|by rewrite Hrl|].
  split; [done|]. split; [done|]. split; [done|].
  split; [|split; [unfold keeps, room at 1; by rewrite pcm_of_put|cbn; by rewrite <-Hk]].
  intros i Hir. unfold fdata. rewrite pcm_of_put. change (cl_of (put_pcm (set_clus s fs rest new) p)) with rest.
  pose proof (Z.div_mod i 4096 ltac:(lia)). pose proof (Z.mod_pos_bound i 4096 ltac:(lia)). pose proof (Z.div_pos i 4096).
  rewrite Hpv by lia. done.
Qed.

(** The table does not see the sectors behind it. *)
Lemma fat_put_disk D fs d' :
  fat_wf (efs_fat efs) N D fs → disk_wf d' → d_size d' = d_size (bc_disk (fat_bc fs)) →
  (∀ b, 0 ≤ b < fat_end (efs_fat efs) N → d_data d' b = d_data (bc_disk (fat_bc fs)) b) →
  fat_wf (efs_fat efs) N d' (put_disk fs d') ∧
  ∀ c, is_clus N c → fat_get (efs_fat efs) (put_disk fs d') c = fat_get (efs_fat efs) fs c.
Proof.
  intros Hwf [Hd1 Hd2] Hsz Hdata. split.
  - destruct Hwf as [[] ? ? ? ? ? ? ? ? ?]. split; cbn [put_disk fat_bc bc_disk cache_pool]; rewrite ?Hsz; try done.
    split; cbn [bc_disk cache_pool]; rewrite ?Hsz; try done. intros id Hid. apply Hd2. lia.
  - intros c Hc. pose proof (clus_before_end (efs_fat efs) N c Hc). destruct (clus_sector _ _ _ _ c Hwf Hc) as [Hs _].
    unfold fat_get, bview. cbn [put_disk fat_bc bc_disk cache_pool]. by rewrite Hdata by lia.
Qed.

(** Pages given back under memory pressure. *)
Lemma wp_inode_oom s :
  inode_inv s → wp (inode_oom efs) (fun _ s' => inode_inv s' ∧ others_kept s s' ∧ file_content s'.2 = file_content s.2 ∧
    (∀ i, 0 ≤ i < npg (cl_of s) * 4096 → fdata s' i = fdata s i) ∧ room s' = room s) s.
Proof.
  intros Hi. unfold inode_oom, get_content. do 2 wp_step. apply wp_on_pcm. pose proof ppc_pos as [Hp0 Hspc].
  eapply wp_mono; [apply (wp_pcm_oom _ (npg (cl_of s)) R (pcm_of s)), Hi|]. intros r p (Hp & Hv & Hbud & _ & Hsz & Hfr).
  assert (∀ b id, 0 ≤ id < npg (cl_of s) → b ∈ get_neighboring_sec efs (cl_of s) id →
    area ≤ b ∧ ∃ c, c ∈ cl_of s ∧ b ∈ cluster_blocks efs c) as Hpage.
  { intros b id Hid (c & Hc & Hr & Hb)%(elem_of_page _ _ _ (iv_clus s Hi) Hid). pose proof (page_base_range c id Hr).
    split; [lia|]. exists c. split; [by eapply list_elem_of_lookup_2|]. apply (elem_of_cluster_blocks N); [apply Hgeo|done|lia]. }
  destruct (fat_put_disk _ (sh_fat s.1) (pc_disk (pcm_sys p)) (iv_fat s Hi) (pi_disk _ _ _ _ Hp) Hsz) as [Hwf Hg].
  { intros b Hb. apply Hfr. intros id Hid Hin. destruct (Hpage b id Hid Hin). pose proof (ge_area Hgeo). lia. }
  pose proof (fat_list_clus s Hi) as Hall.
  assert (inode_inv (put_pcm s p)) as Hi'.
  { split; try apply Hi; [exact Hwf| | | |by rewrite pcm_of_put].
    - change (the_disk (put_pcm s p).1) with (pc_disk (pcm_sys p)). rewrite Hsz. apply Hi.
    - cbn [put_pcm snd file_content]. pose proof (iv_chain s Hi) as Hch. destruct (cl_of s) as [|c l]; [done|].
      apply Forall_cons in Hall as [? ?]. apply (fat_chain_ext N (table_of s)); [done|done| |done]. intros x Hx. symmetry. by apply Hg.
    - cbn [put_pcm snd file_content]. pose proof (iv_used s Hi) as Hu. rewrite Forall_forall in Hu, Hall |- *.
      intros c Hc. unfold is_free, fat_next in *. cbn [put_pcm fst sh_fat]. rewrite Hg by auto. by apply Hu. }
  split; [done|]. split; [|split; [done|split; [|unfold room at 1; by rewrite pcm_of_put]]].
  - split; [intros c Hc _ _; by apply Hg|]. intros b Hb Hn. apply Hfr. intros id Hid Hin.
    destruct (Hpage b id Hid Hin) as (_ & c & Hc & Hbc). by apply (Hn c Hc).
  - intros i Hir. unfold fdata. rewrite pcm_of_put. change (cl_of (put_pcm s p)) with (cl_of s). rewrite Hv by (by apply page_of_pos). done.
Qed.

(** ** Writing *)

(** A write that does not reach the end of the file. *)
Lemma wp_write_at_inside off buf s :
  inode_inv s → roomy s → 0 ≤ off → (0 < length buf)%nat → off + Z.of_nat (length buf) ≤ size_of s →
  wp (write_at_block_cache_lock efs tree_oom off buf) (fun r s' =>
    r = Z.of_nat (length buf) ∧ inode_inv s' ∧ same_meta s s' ∧ keeps s s' ∧
    (∀ i, 0 ≤ i → fdata s' i = fwrite (fdata s) off buf i)) s.
Proof.
  intros Hi Hr Ho Hb Hle. pose proof (iv_size s Hi) as Hsz.
  unfold write_at_block_cache_lock, get_file_size, get_content. repeat wp_step.
  rewrite as_isize_wrap64 by lia. rewrite (proj2 (Z.ltb_ge 0 _)) by lia. repeat wp_step.
  rewrite wrap64_small by (unfold is_usize; lia). rewrite Z.min_l by lia. by apply wp_write_inside.
Qed.

Lemma wp_write_at off buf s cs :
  inode_inv s → reserved_used (efs_fat efs) N (sh_fat s.1) → 0 ≤ off → (0 < length buf)%nat → off + Z.of_nat (length buf) < 2 ^ 32 →
  alloc_ready (efs_fat efs) N (sh_fat s.1)
    (Z.to_nat (clus_for (Z.max (size_of s) (off + Z.of_nat (length buf))) - Z.of_nat (length (cl_of s)))) cs →
  (Z.to_nat (npg (cl_of s ++ cs)) < room s)%nat →
  wp (write_at_block_cache_lock efs tree_oom off buf) (fun r s' =>
    r = Z.of_nat (length buf) ∧ inode_inv s' ∧ others_kept s s' ∧
    size_of s' = Z.max (size_of s) (off + Z.of_nat (length buf)) ∧ keeps s s' ∧ cl_of s' = cl_of s ++ cs ∧
    (∀ i, 0 ≤ i < size_of s ∨ off ≤ i < off + Z.of_nat (length buf) → fdata s' i = fwrite (fdata s) off buf i)) s.
Proof.
  intros Hi H2 Ho Hb Hmax Hr Hf. pose proof (iv_size s Hi) as Hsz. set (e := off + Z.of_nat (length buf)) in *.
  assert (∀ s1, inode_inv s1 → others_kept s s1 → size_of s1 = Z.max (size_of s) e → keeps s s1 → cl_of s1 = cl_of s ++ cs →
    (∀ i, 0 ≤ i < size_of s → fdata s1 i = fdata s i) →
    wp (write_loop efs tree_oom (pages_of (Z.of_nat (length buf))) off (Z.min (off ⊞ Z.of_nat (length buf)) (size_of s1)) (off / CACHE_SZ) 0 buf)
      (fun r s' => r = Z.of_nat (length buf) ∧ inode_inv s' ∧ others_kept s s' ∧ size_of s' = Z.max (size_of s) e ∧ keeps s s' ∧ cl_of s' = cl_of s ++ cs ∧
        (∀ i, 0 ≤ i < size_of s ∨ off ≤ i < e → fdata s' i = fwrite (fdata s) off buf i)) s1) as Hk.
  { intros s1 Hi1 Ho1 Hs1 Hf1 Hcl1 Hd1. rewrite wrap64_small by (unfold is_usize; lia). fold e. rewrite Z.min_l by lia.
    eapply wp_mono; [apply (wp_write_inside off buf s1); try done; [fold e; lia|unfold roomy; by rewrite (proj1 Hf1), Hcl1]|].
    intros r s2 (-> & Hi2 & Hm2 & Hrm2 & Hd2). pose proof Hm2 as (_ & Hfc & _). split; [done|]. split; [done|].
    split; [by eapply others_kept_trans|]. split; [by rewrite Hfc|].
    split; [by eapply inode_keeps_trans|]. split; [by rewrite Hfc|]. intros i Hir. rewrite Hd2 by lia. fold e in Hir.
    unfold fwrite. fold e. destruct (Z.leb_spec off i), (Z.ltb_spec i e); cbn [andb]; try done; apply Hd1; lia. }
  unfold write_at_block_cache_lock, get_file_size, get_content. repeat wp_step.
  replace (Z.of_nat (length buf) + off - size_of s) with (e - size_of s) by lia.
  assert (as_isize (wrap64 (e - size_of s)) = e - size_of s) as ->.
  { apply as_isize_wrap64. lia. }
  destruct (Z.ltb_spec 0 (e - size_of s)) as [Hd|Hd].
  - eapply wp_mono; [apply (wp_modify_grow s (e - size_of s) false cs); try done; try lia|].
    { replace (size_of s + (e - size_of s)) with (Z.max (size_of s) e) by lia. done. }
    intros [] s1 (Hi1 & Ho1 & Hs1 & Hcl1 & Hf1 & Hd1 & _). repeat wp_step. apply Hk; try done. lia.
  - repeat wp_step. apply Hk; try done; [lia|]. rewrite Z.max_l, (clus_for_size s Hi), Z.sub_diag in Hr by lia.
    destruct (alloc_ready_clus _ _ _ _ _ _ (iv_fat s Hi) H2 Hr) as (Hl & _). apply nil_length_inv in Hl as ->. by rewrite app_nil_r.
Qed.

(** ** A file is a list of bytes *)

Inductive file_cmd : Type :=
  | ReadAt (off : Z) (n : nat)
  | WriteAt (off : Z) (buf : list Z)
  | Resize (new_size : Z)
  | Evict.

(** The operations of an inode; [Resize] is [modify_size_lock] as truncation
    calls it, and [Evict] is [oom]. *)
Definition exec_inode (c : file_cmd) : ST InodeSt (list Z) :=
  match c with
  | ReadAt off n =>
      '(r, buf) ← read_at_block_cache efs tree_oom off (replicate n 0);
      mret (take (Z.to_nat r) buf)
  | WriteAt off buf => write_at_block_cache_lock efs tree_oom off buf;; mret []
  | Resize new_size =>
      size ← get_file_size;
      modify_size_lock efs tree_oom (new_size - size) true;;
      mret []
  | Evict => inode_oom efs;; mret []
  end.

(** The same on a list of bytes. *)
Definition exec_bytes (c : file_cmd) (F : list Z) : list Z * list Z :=
  match c with
  | ReadAt off n => (take n (drop (Z.to_nat off) F), F)
  | WriteAt off buf => ([], take (Z.to_nat off) F ++ buf ++ drop (Z.to_nat off + length buf) F)
  | Resize new_size => ([], take (Z.to_nat new_size) F ++ replicate (Z.to_nat new_size - length F) 0)
  | Evict => ([], F)
  end.

(** Clusters and frames are at hand for a file of [size] bytes. *)
Definition room_for (s : InodeSt) (size : Z) : Prop :=
  reserved_used (efs_fat efs) N (sh_fat s.1) ∧ (Z.to_nat (clus_for size * ppc) < room s)%nat ∧
  ∃ cs, alloc_ready (efs_fat efs) N (sh_fat s.1) (Z.to_nat (clus_for size - Z.of_nat (length (cl_of s)))) cs.

Definition cmd_ready (s : InodeSt) (c : file_cmd) : Prop :=
  match c with
  | ReadAt off n => 0 ≤ off < 2 ^ 61 ∧ Z.of_nat n < 2 ^ 61 ∧ roomy s
  | WriteAt off buf =>
      0 ≤ off ≤ size_of s ∧ buf ≠ [] ∧ off + Z.of_nat (length buf) < 2 ^ 32 ∧
      if decide (off + Z.of_nat (length buf) ≤ size_of s) then roomy s else room_for s (off + Z.of_nat (length buf))
  | Resize new_size =>
      0 ≤ new_size < 2 ^ 32 ∧
      if decide (size_of s < new_size) then room_for s new_size else unshared_from s new_size
  | Evict => True
  end.

Definition cmd_spec (s : InodeSt) (c : file_cmd) (out : list Z) (s' : InodeSt) : Prop :=
  exec_bytes c (content s) = (out, content s') ∧ inode_inv s' ∧ others_kept s s'.

Lemma exec_read_spec s off n : inode_inv s → cmd_ready s (ReadAt off n) → wp (exec_inode (ReadAt off n)) (cmd_spec s (ReadAt off n)) s.
Proof.
  intros Hi (Ho & Hn & Hf). cbn [exec_inode]. wp_step. pose proof (iv_size s Hi).
  eapply wp_mono; [apply wp_read_at; rewrite ?length_replicate; done|]. rewrite length_replicate.
  intros [r buf] s' ([= -> ->] & Hi' & Hm & Hd & _). wp_step. pose proof Hm as (_ & Hfc & _).
  split; [|split; [done|by apply others_kept_meta]]. cbn [exec_bytes].
  rewrite (content_ext s s') by (rewrite ?Hfc; done || (intros; apply Hd; lia)). f_equal.
  set (m := Z.to_nat (Z.max _ _)). pose proof (content_length s ltac:(lia)).
  rewrite take_app_le by (rewrite length_take, length_drop; lia). rewrite take_take, Nat.min_id.
  destruct (decide (m = n)) as [E|]; [by rewrite E|].
  rewrite !take_ge by (rewrite length_drop; lia). done.
Qed.

Lemma room_for_pages s size cs :
  inode_inv s → reserved_used (efs_fat efs) N (sh_fat s.1) → size_of s ≤ size < 2 ^ 32 →
  alloc_ready (efs_fat efs) N (sh_fat s.1) (Z.to_nat (clus_for size - Z.of_nat (length (cl_of s)))) cs →
  npg (cl_of s ++ cs) = clus_for size * ppc.
Proof.
  intros Hi H2 Hs Hr. destruct (alloc_ready_clus _ _ _ _ _ _ (iv_fat s Hi) H2 Hr) as (Hl & _). unfold npg. f_equal.
  rewrite length_app, Hl. pose proof (iv_size s Hi). destruct (total_clus_for size ltac:(lia)) as (_ & Hb & _).
  pose proof (iv_count s Hi). pose proof clus_size_eq. pose proof spc_pos.
  assert (Z.of_nat (length (cl_of s)) ≤ clus_for size) by (apply Z.lt_succ_r, (Z.mul_lt_mono_pos_r (clus_size efs)); lia). lia.
Qed.

Lemma wp_write_content s off buf :
  inode_inv s → cmd_ready s (WriteAt off buf) →
  wp (write_at_block_cache_lock efs tree_oom off buf) (fun r s' =>
    r = Z.of_nat (length buf) ∧ cmd_spec s (WriteAt off buf) [] s' ∧ keeps s s') s.
Proof.
  intros Hi (Ho & Hb & Hm & Hr). pose proof (iv_size s Hi).
  assert (0 < length buf)%nat by (destruct buf; [done|cbn; lia]). destruct (decide _) as [Hin|Hout].
  { eapply wp_mono; [apply (wp_write_at_inside off buf s); try done; lia|]. intros r s' (-> & Hi' & Hm' & Hk & Hd).
    split; [done|]. split; [|done].
    pose proof Hm' as (_ & Hfc & _). split; [|split; [done|by apply others_kept_meta]]. cbn [exec_bytes]. f_equal.
    symmetry. apply content_write; rewrite ?Hfc; try lia. intros i Hir. apply Hd. lia. }
  destruct Hr as (H2 & Hf & cs & Hr). rewrite <-(Z.max_r (size_of s) (off + Z.of_nat (length buf))) in Hr, Hf by lia.
  eapply wp_mono; [apply (wp_write_at off buf s cs); try done; [lia|]|].
  { rewrite (room_for_pages s (Z.max (size_of s) (off + Z.of_nat (length buf))) cs Hi H2); [done|lia|done]. }
  intros r s' (-> & Hi' & Hk & Hs & Hkp & _ & Hd). split; [done|]. split; [|done].
  split; [|by split]. cbn [exec_bytes]. f_equal. symmetry. apply content_write; try lia. intros i Hir. apply Hd. lia.
Qed.

Lemma exec_write_spec s off buf : inode_inv s → cmd_ready s (WriteAt off buf) → wp (exec_inode (WriteAt off buf)) (cmd_spec s (WriteAt off buf)) s.
Proof.
  intros Hi Hr. cbn [exec_inode]. wp_step. eapply wp_mono; [by apply wp_write_content|]. intros r s' (_ & Hs & _). by wp_step.
Qed.

Lemma wp_resize_content s new :
  inode_inv s → cmd_ready s (Resize new) →
  wp (modify_size_lock efs tree_oom (new - size_of s) true) (fun _ s' => cmd_spec s (Resize new) [] s') s.
Proof.
  intros Hi (Hn & Hr). pose proof (iv_size s Hi).
  pose proof (content_length s ltac:(lia)) as Hl.
  destruct (decide (size_of s < new)) as [Hlt|Hge].
  - destruct Hr as (H2 & Hf & cs & Hr). pose proof (room_for_pages s new cs Hi H2 ltac:(lia) Hr) as Hpg.
    replace new with (size_of s + (new - size_of s)) in Hr by lia.
    eapply wp_mono; [apply (wp_modify_grow s (new - size_of s) true cs); try done; [lia|lia|by rewrite Hpg]|].
    intros [] s' (Hi' & Hk & Hs & _ & _ & Hd & Hz). split; [|by split]. cbn [exec_bytes]. f_equal.
    rewrite take_ge by lia. unfold content at 3. replace (size_of s') with (size_of s + (new - size_of s)) by lia.
    rewrite seqZ_app, fmap_app by lia. f_equal.
    + unfold content. apply list_fmap_ext. intros k x Hx%list_elem_of_lookup_2%elem_of_seqZ. symmetry. apply Hd. lia.
    + replace (Z.to_nat new - length (content s))%nat with (Z.to_nat (new - size_of s)) by lia.
      apply list_eq. intros k. rewrite list_lookup_fmap. destruct (decide (Z.of_nat k < new - size_of s)).
      * rewrite lookup_seqZ_lt, lookup_replicate_2 by lia. cbn. by rewrite Hz by lia.
      * rewrite lookup_seqZ_ge by lia. apply lookup_ge_None. rewrite length_replicate. lia.
  - eapply wp_mono; [apply (wp_modify_shrink s (new - size_of s) true Hi); [lia|]|].
    { by replace (size_of s + (new - size_of s)) with new by lia. }
    intros [] s' (Hi' & Hk & Hs & Hd & _). split; [|by split]. cbn [exec_bytes]. f_equal.
    replace (Z.to_nat new - length (content s))%nat with 0%nat by lia. rewrite app_nil_r.
    pose proof (content_slice s 0 new ltac:(lia) ltac:(lia) ltac:(lia)) as Hc. change (Z.to_nat 0) with 0%nat in Hc. rewrite drop_0 in Hc.
    rewrite <-Hc. unfold content. replace (size_of s') with new by lia.
    apply list_fmap_ext. intros k x Hx%list_elem_of_lookup_2%elem_of_seqZ. symmetry. apply Hd. lia.
Qed.

Lemma exec_resize_spec s new : inode_inv s → cmd_ready s (Resize new) → wp (exec_inode (Resize new)) (cmd_spec s (Resize new)) s.
Proof.
  intros Hi Hr. cbn [exec_inode]. unfold get_file_size, get_content. repeat wp_step.
  eapply wp_mono; [by apply wp_resize_content|]. intros [] s' Hs. by wp_step.
Qed.

Lemma exec_inode_spec s c : inode_inv s → cmd_ready s c → wp (exec_inode c) (cmd_spec s c) s.
Proof.
  intros Hi Hc. destruct c as [off n|off buf|new|]; [by apply exec_read_spec|by apply exec_write_spec|by apply exec_resize_spec|].
  cbn [exec_inode]. wp_step. eapply wp_mono; [by apply wp_inode_oom|]. intros r s' (Hi' & Hk & Hfc & Hd & _). wp_step.
  split; [|by split]. cbn [exec_bytes]. f_equal. symmetry. apply content_ext; [by rewrite Hfc|].
  intros i Hir. apply Hd. pose proof (size_pages s Hi). lia.
Qed.

(** A sequence of commands, and that each finds what it needs. *)
Fixpoint exec_inode_all (cs : list file_cmd) : ST InodeSt (list (list Z)) :=
  match cs with
  | [] => mret []
  | c :: cs => out ← exec_inode c; outs ← exec_inode_all cs; mret (out :: outs)
  end.

Fixpoint exec_bytes_all (cs : list file_cmd) (F : list Z) : list (list Z) * list Z :=
  match cs with
  | [] => ([], F)
  | c :: cs => let (out, F) := exec_bytes c F in let (outs, F) := exec_bytes_all cs F in (out :: outs, F)
  end.

Fixpoint all_ready (s : InodeSt) (cs : list file_cmd) : Prop :=
  match cs with
  | [] => True
  | c :: cs => cmd_ready s c ∧ ∀ out s', exec_inode c s = Ok (out, s') → all_ready s' cs
  end.

Lemma fat_list_ext_in f g cl : (∀ x, x ∈ cl → g x = f x) → fat_list f cl → fat_list g cl.
Proof.
  destruct cl as [|c cl]; [done|]. cbn [fat_list]. revert c. induction cl as [|d cl IH]; intros c Hfg; cbn [fat_chain].
  - unfold fat_next. by rewrite Hfg by set_solver.
  - intros [Hd Hch]. split; [unfold fat_next in *; by rewrite Hfg by set_solver|]. apply IH; [|done]. intros x Hx. apply Hfg. set_solver.
Qed.

(** Another file keeps its bytes and its chain. *)
Lemma others_kept_content s s' (j : Inode) :
  inode_inv s → others_kept s s' → inode_inv (s.1, j) → (∀ c, c ∈ cl_of s → c ∉ clus_list (file_content j)) →
  content (s'.1, j) = content (s.1, j) ∧ fat_list (table_of s') (clus_list (file_content j)).
Proof.
  intros Hi [Htab Hdat] Hj Hdis. pose proof (fat_list_clus _ Hj) as Hall. cbn [snd] in Hall. split.
  - assert (∀ id, 0 ≤ id < npg (clus_list (file_content j)) →
      sectors (the_disk s'.1) (get_neighboring_sec efs (clus_list (file_content j)) id) =
      sectors (the_disk s.1) (get_neighboring_sec efs (clus_list (file_content j)) id)) as Hsec.
    { intros id Hid. apply sectors_ext. intros b (c & Hc & Hr & Hb)%(elem_of_page _ _ _ (iv_clus _ Hj) Hid).
      pose proof (page_base_range c id Hr). pose proof (ge_area Hgeo). pose proof (ew_area N efs (ge_efs Hgeo)). pose proof ppc_pos.
      apply Hdat; [unfold usize_MAX; nia|]. intros d Hd Hin. destruct (iv_clus s Hi) as (_ & Hcl & _). rewrite Forall_forall in Hcl.
      apply (elem_of_cluster_blocks N) in Hin; [|apply Hgeo|by apply Hcl].
      apply (Hdis d Hd). assert (d = c) as -> by nia. by eapply list_elem_of_lookup_2. }
    apply content_ext; [done|]. intros i Hir. unfold fdata, pview. cbn [snd pcm_of pcm_pool].
    assert (0 ≤ i / 4096 < npg (clus_list (file_content j))) as Hid.
    { apply (page_of_pos (s.1, j)). pose proof (size_pages _ Hj). cbn [snd] in *. lia. }
    destruct (pages j !! _) as [[pc|]|]; [done| |]; f_equal; by apply Hsec.
  - apply (fat_list_ext_in (table_of s)); [|apply (iv_chain _ Hj)]. intros c Hc. rewrite Forall_forall in Hall.
    pose proof (iv_used _ Hj) as Hu. rewrite Forall_forall in Hu. apply Htab; [by apply Hall| |by apply (Hu c)].
    intros Hc'. by apply (Hdis c).
Qed.

(** All that is cached is on the disk. *)
Definition flushed (s : InodeSt) : Prop := ∀ id pc, cached (pcm_of s) id pc → clean (pcm_of s) pc.

Lemma flushed_pview s id :
  inode_inv s → flushed s → 0 ≤ id < npg (cl_of s) →
  pview (get_neighboring_sec efs (cl_of s)) (pcm_of s) id = sectors (the_disk s.1) (get_neighboring_sec efs (cl_of s) id).
Proof.
  intros Hi Hfl Hid. unfold pview. destruct (pcm_pool (pcm_of s) !! Z.to_nat id) as [[pc|]|] eqn:E; [|done|done].
  assert (cached (pcm_of s) id pc) as Hc by (split; [lia|done]).
  apply (pk_clean _ _ _ _ _ _ (pi_page _ _ _ _ (iv_pages s Hi) id pc Hc)). by apply (Hfl id).
Qed.

Lemma wp_open_clus s fuel :
  inode_inv s → (length (cl_of s) ≤ fuel)%nat →
  wp (if default 0 (head (cl_of s)) =? 0 then mret [] else get_all_clus_num (efs_fat efs) fuel (default 0 (head (cl_of s))))
    (fun r fs => r = cl_of s ∧ fat_same (efs_fat efs) N (the_disk s.1) (sh_fat s.1) fs) (sh_fat s.1).
Proof.
  intros Hi Hf. pose proof (iv_chain s Hi) as Hch. pose proof (fat_list_clus s Hi) as Hall. destruct (iv_clus s Hi) as (_ & Hr & _).
  destruct (cl_of s) as [|c cl]; cbn [head hd_error default from_option id] in *.
  { rewrite Z.eqb_refl. wp_step. split; [done|]. apply fat_same_refl, Hi. }
  apply Forall_cons in Hr as [Hc Hr]. apply Forall_cons in Hall as [Hc' Hall]. rewrite (proj2 (Z.eqb_neq c 0)) by lia.
  eapply wp_mono; [apply (wp_get_all_loop (efs_fat efs) N (the_disk s.1) _ c cl fuel []); try done|].
  - apply Hi.
  - rewrite Forall_forall in Hr |- *. intros d Hd. pose proof (Hr d Hd). unfold is_clus. lia.
  - done.
Qed.

(** Opening the file anew, with the size recorded in its directory. *)
Lemma wp_reopen s fuel ft :
  inode_inv s → flushed s → (length (cl_of s) ≤ fuel)%nat →
  wp (inode_open efs fuel (default 0 (head (cl_of s))) ft (Some (size_of s))) (fun i fs =>
    let t := (mkShared fs (sh_fa s.1) (sh_pte s.1), i) in
    file_type i = ft ∧ cl_of t = cl_of s ∧ size_of t = size_of s ∧ inode_inv t ∧ content t = content s) (sh_fat s.1).
Proof.
  intros Hi Hfl Hf. unfold inode_open. wp_step. eapply wp_mono; [by apply wp_open_clus|].
  intros r fs (-> & Hwf & _ & _ & Hg). wp_step. set (t := (mkShared fs _ _, _)).
  pose proof (ew_area N efs (ge_efs Hgeo)) as Harea. pose proof ppc_pos as Hp.
  split; [done|]. split; [done|]. split; [done|].
  assert (inode_inv t) as Ht.
  { split; try apply Hi.
    - by eapply fat_wf_rebase.
    - change (the_disk t.1) with (bc_disk (fat_bc fs)). rewrite (fw_dsize _ _ _ _ Hwf). apply Hi.
    - apply (fat_list_ext_in (table_of s)); [|apply Hi]. intros c Hc. apply Hg.
      pose proof (fat_list_clus s Hi) as Hall. rewrite Forall_forall in Hall. by apply Hall.
    - pose proof (iv_used s Hi) as Hu. pose proof (fat_list_clus s Hi) as Hall. rewrite Forall_forall in Hu, Hall |- *.
      intros c Hc. unfold is_free, fat_next in *. change (table_of t c) with (fat_get (efs_fat efs) fs c). rewrite Hg by auto. by apply Hu.
    - apply empty_cache_inv; [destruct (fw_bc _ _ _ _ Hwf); by split| |apply (iv_pages s Hi)].
      apply neighbor_ok_clus; [apply Hi|]. cbn [pc_disk]. change (the_disk t.1) with (bc_disk (fat_bc fs)).
      rewrite (fw_dsize _ _ _ _ Hwf). apply Hi. }
  split; [done|]. apply content_ext; [done|]. intros i Hir. pose proof (size_pages s Hi).
  assert (0 ≤ i / 4096 < npg (cl_of s)) as Hid by (apply page_of_pos; lia).
  unfold fdata. f_equal. rewrite (flushed_pview s) by done. change (cl_of t) with (cl_of s).
  unfold pview. cbn [pcm_of pcm_pool t snd pages]. rewrite lookup_nil. apply sectors_ext. intros b Hb.
  apply (elem_of_page _ _ _ (iv_clus s Hi) Hid) in Hb as (c & _ & Hr & Hb). pose proof (page_base_range c (i / 4096) Hr).
  apply (fw_data _ _ _ _ Hwf). pose proof (ge_area Hgeo). unfold usize_MAX. nia.
Qed.
End Spec.

(** ** Properties *)

(** C10: reading, writing, resizing and evicting pages act on a file as on a
    list of bytes, if each operation finds the free clusters and frames it needs,
    and each write has a nonempty buffer and starts at or before the end of the file
    ([cmd_ready]).  A sequence of such operations returns what the same operations
    return on the list; the file's content is then the resulting list, its clusters
    are the chain that the file allocation table holds for it, and growing
    by a change of the size fills with zeros.  A write behind the end shows old data of the
    disk in the gap: [sparse_write_stale]. *)
Theorem inode_refines_bytes (efs : EasyFileSystem) (tree_oom : ST PcSys Z) (N : Z) (R : gset Z) (s : InodeSt) (cs : list file_cmd) :
  geometry efs N → inode_inv efs N R s → all_ready efs tree_oom N s cs →
  ∃ outs s', exec_inode_all efs tree_oom cs s = Ok (outs, s') ∧
    exec_bytes_all cs (content efs s) = (outs, content efs s') ∧ inode_inv efs N R s'.
Proof.
  intros Hg. revert s. induction cs as [|c cs IH]; intros s Hi Hr; [by exists [], s|]. destruct Hr as [Hc Hr].
  destruct (wp_elim _ _ _ (exec_inode_spec efs tree_oom N R Hg s c Hi Hc)) as (out & s1 & Heq & Hb & Hi1 & _).
  destruct (IH s1 Hi1 (Hr out s1 Heq)) as (outs & s2 & Heq2 & Hb2 & Hi2).
  exists (out :: outs), s2. split; [|split; [|done]].
  - cbn [exec_inode_all]. unfold mbind, st_bind. by rewrite Heq, Heq2.
  - cbn [exec_bytes_all]. by rewrite Hb, Hb2.
Qed.

(** C25: an operation on one file leaves every other file alone: a file with
    other clusters has the same bytes afterwards, and its clusters are still
    chained in the table. *)
Theorem inode_others_kept (efs : EasyFileSystem) (tree_oom : ST PcSys Z) (N : Z) (R : gset Z) (sh : Shared) (i j : Inode) (c : file_cmd) :
  geometry efs N → inode_inv efs N R (sh, i) → inode_inv efs N R (sh, j) →
  (∀ x, x ∈ clus_list (file_content i) → x ∉ clus_list (file_content j)) → cmd_ready efs N (sh, i) c →
  ∃ out sh' i', exec_inode efs tree_oom c (sh, i) = Ok (out, (sh', i')) ∧
    content efs (sh', j) = content efs (sh, j) ∧
    fat_list (fat_get (efs_fat efs) (sh_fat sh')) (clus_list (file_content j)).
Proof.
  intros Hg Hi Hj Hd Hc.
  destruct (wp_elim _ _ _ (exec_inode_spec efs tree_oom N R Hg (sh, i) c Hi Hc)) as (out & [sh' i'] & Heq & _ & _ & Hk).
  exists out, sh', i'. split; [done|]. exact (others_kept_content efs N R Hg (sh, i) (sh', i') j Hi Hk Hj Hd).
Qed.

(** C26: a file whose cached pages have been written back can be opened again:
    following its chain from the first cluster gives its clusters, and the new
    inode has the same bytes. *)
Theorem inode_reopen (efs : EasyFileSystem) (N : Z) (R : gset Z) (s : InodeSt) (fuel : nat) (ft : DiskInodeType) :
  geometry efs N → inode_inv efs N R s → flushed s → (length (clus_list (file_content s.2)) ≤ fuel)%nat →
  ∃ i fs, inode_open efs fuel (default 0 (head (clus_list (file_content s.2)))) ft
            (Some (fc_size (file_content s.2))) (sh_fat s.1) = Ok (i, fs) ∧
    file_type i = ft ∧ clus_list (file_content i) = clus_list (file_content s.2) ∧
    inode_inv efs N R (mkShared fs (sh_fa s.1) (sh_pte s.1), i) ∧
    content efs (mkShared fs (sh_fa s.1) (sh_pte s.1), i) = content efs s.
Proof.
  intros Hg Hi Hfl Hf. destruct (wp_elim _ _ _ (wp_reopen efs N R Hg s fuel ft Hi Hfl Hf)) as (i & fs & Heq & H1 & H2 & _ & H3 & H4).
  by exists i, fs.
Qed.

(** ** Samples *)

(** Eight clusters of eight sectors; the clusters 2 and 4 are files, and 3, 5
    and 6 are free.  Sector [i] is filled with [i mod 256]. *)
Definition file_disk : Disk :=
  mkDisk 64 (fun i => if i =? 1 then (three_free ≫= le32) ++ replicate 480 0 else replicate 512 (i mod 256)).

Definition file_efs : EasyFileSystem := mkEasyFileSystem sample_fat 2 2 8 512.

Definition file_shared : Shared :=
  mkShared (mkFatSt (mkBcState BlockCacheManager_new file_disk) [] 4) (sfa_init sfa_new 10 30) (fun _ => None).

Definition file_inode (cl : list Z) (size : Z) : Inode :=
  mkInode (mkFileContent size cl 0) [] [] File false (mkInodeTime 0 0 0).

Definition no_oom : ST PcSys Z := mret 0.

Lemma file_geometry : geometry file_efs 8.
Proof. by split. Qed.

Lemma file_reserved : reserved_used sample_fat 8 (sh_fat file_shared).
Proof.
  intros c Hc Hf. destruct (decide (2 ≤ c)) as [|Hn]; [done|]. unfold is_clus in Hc.
  assert (c = 0 ∨ c = 1) as [-> | ->] by lia; by vm_compute in Hf.
Qed.

Lemma file_inode_inv c size :
  c = 2 ∨ c = 4 → 0 < size ≤ 4096 → inode_inv file_efs 8 (list_to_set (seqZ 10 20)) (file_shared, file_inode [c] size).
Proof.
  intros Hc Hs.
  assert (disk_wf file_disk) as Hd.
  { split; [done|]. intros id _. cbn [file_disk d_data]. by destruct (id =? 1). }
  assert (clus_ok 8 [c]) as Hok.
  { split; [by repeat constructor; set_solver|]. split; [|done]. apply Forall_singleton. lia. }
  split; try done.
  - split; try done; [by apply bc_new_wf|]. intros b [-> _]%elem_of_replicate. by left.
  - destruct Hc as [-> | ->]; vm_compute; by right; right.
  - apply Forall_singleton. by destruct Hc as [-> | ->]; vm_compute.
  - cbn. lia.
  - cbn. change (clus_size file_efs) with 4096. lia.
  - apply empty_cache_inv; [done| |apply sample_sys_fa].
    by apply (neighbor_ok_clus file_efs 8 file_geometry).
Qed.

(** The file [2] of 4000 bytes grows into a second cluster, the free cluster 5,
    and is read across the boundary. *)
Definition sample_cmds : list file_cmd := [WriteAt 4000 (replicate 200 7); ReadAt 3998 100].

Lemma sample_room : room_for file_efs 8 (file_shared, file_inode [2] 4000) 4200.
Proof.
  split; [apply file_reserved|]. split; [by apply Nat.leb_le; vm_compute|].
  eexists. change (Z.to_nat _) with 1%nat. apply ready_scan; [done|done|]. by apply Nat.leb_le; vm_compute.
Qed.

Lemma inode_refines_bytes_witness :
  ∃ outs s', exec_inode_all file_efs no_oom sample_cmds (file_shared, file_inode [2] 4000) = Ok (outs, s') ∧
    exec_bytes_all sample_cmds (content file_efs (file_shared, file_inode [2] 4000)) = (outs, content file_efs s') ∧
    inode_inv file_efs 8 (list_to_set (seqZ 10 20)) s'.
Proof.
  apply (inode_refines_bytes file_efs no_oom 8 (list_to_set (seqZ 10 20)) (file_shared, file_inode [2] 4000) sample_cmds).
  - apply file_geometry.
  - apply file_inode_inv; [by left|done].
  - split; [split_and!; try done; apply sample_room|]. intros out s' Heq. split; [|done].
    assert (match exec_inode file_efs no_oom (WriteAt 4000 (replicate 200 7)) (file_shared, file_inode [2] 4000) with
            | Ok (_, t) => (Z.to_nat (npg file_efs (clus_list (file_content t.2))) <? room t)%nat = true
            | _ => False end) as Hf by (by vm_compute).
    rewrite Heq in Hf. apply Nat.ltb_lt in Hf. by split_and!.
Defined.

Lemma inode_others_kept_witness :
  ∃ out sh' i', exec_inode file_efs no_oom (WriteAt 4000 (replicate 200 7)) (file_shared, file_inode [2] 4000) = Ok (out, (sh', i')) ∧
    content file_efs (sh', file_inode [4] 10) = content file_efs (file_shared, file_inode [4] 10) ∧
    fat_list (fat_get sample_fat (sh_fat sh')) [4].
Proof.
  apply (inode_others_kept file_efs no_oom 8 (list_to_set (seqZ 10 20)) file_shared (file_inode [2] 4000) (file_inode [4] 10)
           (WriteAt 4000 (replicate 200 7))).
  - apply file_geometry.
  - apply file_inode_inv; [by left|done].
  - apply file_inode_inv; [by right|done].
  - cbn. set_solver.
  - split_and!; try done. apply sample_room.
Defined.

Lemma inode_reopen_witness :
  ∃ i fs, inode_open file_efs 1 2 File (Some 4000) (sh_fat file_shared) = Ok (i, fs) ∧
    file_type i = File ∧ clus_list (file_content i) = [2] ∧
    inode_inv file_efs 8 (list_to_set (seqZ 10 20)) (mkShared fs (sh_fa file_shared) (sh_pte file_shared), i) ∧
    content file_efs (mkShared fs (sh_fa file_shared) (sh_pte file_shared), i) = content file_efs (file_shared, file_inode [2] 4000).
Proof.
  apply (inode_reopen file_efs 8 (list_to_set (seqZ 10 20)) (file_shared, file_inode [2] 4000) 1 File).
  - apply file_geometry.
  - apply file_inode_inv; [by left|done].
  - by intros id pc [_ H].
  - cbn. lia.
Defined.

(** A write behind the end of a file leaves the bytes in between as they are on
    the disk: here a byte is written at 600 to an empty file, and what is
    read before it is the old content of cluster 5. *)
Lemma sparse_write_stale :
  match (write_at_block_cache_lock file_efs no_oom 600 [7];; read_at_block_cache file_efs no_oom 0 (replicate 3 0))
          (file_shared, file_inode [] 0) with
  | Ok (r, _) => r = (3, [26; 26; 26])
  | _ => False
  end.
Proof. by vm_compute. Qed.

(** When no cluster is free, the size of the file grows all the same, and so
    does the number that [write] returns; the page written has no sectors. *)
Lemma full_disk_write_lost :
  let full := mkShared (mkFatSt (mkBcState BlockCacheManager_new (sample_table (replicate 8 EOC))) [] 4)
                (sfa_init sfa_new 10 30) (fun _ => None) in
  match write_at_block_cache_lock file_efs no_oom 0 [7] (full, file_inode [] 0) with
  | Ok (r, s) => r = 1 ∧ file_content s.2 = mkFileContent 1 [] 0 ∧ get_neighboring_sec file_efs [] 0 = []
  | _ => False
  end.
Proof. by vm_compute. Qed.
