(* ===== verification/Dir.v ===== *)
(** * Directories

    [kernel/src/fs/fat32/dir_iter.rs] and the directory operations of
    [kernel/src/fs/fat32/vfs.rs].  A directory is a file of 32-byte entries;
    the state is the inode of the directory with what inodes share.  The loops
    of the iterators have fuel for every entry of the file. *)

From S2P Require Import Prelude Config FrameAllocator PageTable BlockCache Fat PageCache Utf Layout Inode.

Inductive DirIterMode : Type := Long | Short | Used | Unused | Enum.

Definition FORWARD : bool := true.
Definition BACKWARD : bool := false.
Definition STEP_SIZE : Z := 32.

Record DirIter : Type := mkDirIter { di_offset : option Z; di_mode : DirIterMode; direction : bool }.

Definition with_offset (it : DirIter) (o : option Z) : DirIter := mkDirIter o (di_mode it) (direction it).

Definition set_iter_offset (it : DirIter) (offset : Z) : DirIter :=
  if direction it then
    if offset =? 0 then with_offset it None else with_offset it (Some (wrap32 (offset - STEP_SIZE)))
  else with_offset it (Some (wrap32 (offset + STEP_SIZE))).

Definition is_enum (m : DirIterMode) : bool := match m with Enum => true | _ => false end.

Definition check_dir_ent_legality (mode : DirIterMode) (dir_ent : FATDirEnt) : bool :=
  match mode with
  | Unused => unused_not_last dir_ent
  | Used => negb (unused dir_ent)
  | Long => negb (unused dir_ent) && is_long dir_ent
  | Short => negb (unused dir_ent) && is_short dir_ent
  | Enum => true
  end.

Section Dir.
Context (efs : EasyFileSystem) (tree_oom : ST PcSys Z).

(** ** [DirIter] *)

Definition current_clone (it : DirIter) : ST InodeSt (option FATDirEnt) :=
  match di_offset it with
  | None => mret None
  | Some offset =>
      size ← get_file_size;
      if negb (offset <? size) then mret None
      else
        '(n, dir_ent) ← read_at_block_cache efs tree_oom offset FATDirEnt_empty;
        mret (if negb (n =? 0) then Some dir_ent else None)
  end.

Definition write_to_current_ent (it : DirIter) (ent : FATDirEnt) : ST InodeSt unit :=
  offset ← unwrap (di_offset it);
  n ← write_at_block_cache_lock efs tree_oom offset ent;
  if negb (n =? Z.of_nat (length ent)) then panic else mret tt.

Definition step (it : DirIter) : ST InodeSt (option FATDirEnt * DirIter) :=
  if direction it then
    let offset := match di_offset it with Some offset => wrap32 (offset + STEP_SIZE) | None => 0 end in
    size ← get_file_size;
    if size <=? offset then mret (None, it)
    else
      '(_, dir_ent) ← read_at_block_cache efs tree_oom offset FATDirEnt_empty;
      if negb (is_enum (di_mode it)) && last_and_unused dir_ent then mret (None, it)
      else mret (Some dir_ent, with_offset it (Some offset))
  else
    match di_offset it with
    | None => mret (None, it)
    | Some offset =>
        if offset =? 0 then mret (None, with_offset it None)
        else
          let offset := wrap32 (offset - STEP_SIZE) in
          '(_, dir_ent) ← read_at_block_cache efs tree_oom offset FATDirEnt_empty;
          mret (Some dir_ent, with_offset it (Some offset))
    end.

Fixpoint next_loop (fuel : nat) (it : DirIter) : ST InodeSt (option FATDirEnt * DirIter) :=
  match fuel with
  | O => out_of_fuel
  | S fuel =>
      '(o, it) ← step it;
      match o with
      | None => mret (None, it)
      | Some dir_ent =>
          if check_dir_ent_legality (di_mode it) dir_ent then mret (Some dir_ent, it) else next_loop fuel it
      end
  end.

(** A round per entry of the file, and one to find that it has ended. *)
Definition entries_fuel : ST InodeSt nat := size ← get_file_size; mret (Z.to_nat (size / STEP_SIZE + 2)).

Definition iter_next (it : DirIter) : ST InodeSt (option FATDirEnt * DirIter) :=
  fuel ← entries_fuel; next_loop fuel it.

(** [iter.collect()] *)
Fixpoint collect_loop (fuel : nat) (it : DirIter) (v : list FATDirEnt) : ST InodeSt (list FATDirEnt) :=
  match fuel with
  | O => out_of_fuel
  | S fuel =>
      '(o, it) ← iter_next it;
      match o with
      | None => mret v
      | Some dir_ent => collect_loop fuel it (vec_push v dir_ent)
      end
  end.

Definition iter_collect (it : DirIter) : ST InodeSt (list FATDirEnt) :=
  fuel ← entries_fuel; collect_loop fuel it [].

(** ** [DirWalker] *)

(** The [while] of [DirWalker::next], with [name] and [should_be_ord]. *)
Fixpoint walk_loop (fuel : nat) (it : DirIter) (name : list Z) (should_be_ord : Z) :
    ST InodeSt (option (list Z * FATShortDirEnt) * DirIter) :=
  match fuel with
  | O => out_of_fuel
  | S fuel =>
      '(o, it) ← iter_next it;
      match o with
      | None => mret (None, it)
      | Some dir_ent =>
          if is_long dir_ent then
            if is_last_long_dir_ent dir_ent then
              walk_loop fuel it (get_name dir_ent ++ name) (ord dir_ent ⊟ 1)
            else if ord dir_ent =? should_be_ord then
              walk_loop fuel it (get_name dir_ent ++ name) (should_be_ord ⊟ 1)
            else panic
          else
            let name := match name with [] => get_name dir_ent | _ => name end in
            short_ent ← unwrap (get_short_ent dir_ent);
            mret (Some (name, short_ent), it)
      end
  end.

Definition walker_next (it : DirIter) : ST InodeSt (option (list Z * FATShortDirEnt) * DirIter) :=
  fuel ← entries_fuel; walk_loop fuel it [] usize_MAX.

Fixpoint walker_collect_loop (fuel : nat) (it : DirIter) (v : list (list Z * FATShortDirEnt)) :
    ST InodeSt (list (list Z * FATShortDirEnt)) :=
  match fuel with
  | O => out_of_fuel
  | S fuel =>
      '(o, it) ← walker_next it;
      match o with
      | None => mret v
      | Some x => walker_collect_loop fuel it (vec_push v x)
      end
  end.

(** [walker.find(p)]: the first item that satisfies [p]. *)
Fixpoint walker_find_loop (fuel : nat) (p : list Z → bool) (it : DirIter) :
    ST InodeSt (option (list Z * FATShortDirEnt) * DirIter) :=
  match fuel with
  | O => out_of_fuel
  | S fuel =>
      '(o, it) ← walker_next it;
      match o with
      | None => mret (None, it)
      | Some (name, short_ent) =>
          if p name then mret (Some (name, short_ent), it) else walker_find_loop fuel p it
      end
  end.

Definition used_iter : DirIter := mkDirIter None Used FORWARD.

(** ** Searching a directory *)

Definition dot : list Z := [46].
Definition dotdot : list Z := [46; 46].

Definition is_dots (name : list Z) : bool := bool_decide (name = dot) || bool_decide (name = dotdot).

Definition is_empty_dir_lock : ST InodeSt bool :=
  d ← is_dir;
  if negb d then mret false
  else
    fuel ← entries_fuel;
    '(o, _) ← walker_find_loop fuel (fun name => negb (is_dots name)) used_iter;
    mret (match o with Some _ => false | None => true end).

Definition ls_lock : ST InodeSt (option (list (list Z * FATShortDirEnt))) :=
  d ← is_dir;
  if negb d then mret None
  else
    fuel ← entries_fuel;
    v ← walker_collect_loop fuel used_iter [];
    mret (Some v).

Definition find_local_lock (req_name : list Z) : ST InodeSt (option (option (list Z * FATShortDirEnt * Z))) :=
  d ← is_dir;
  if negb d then mret None
  else
    fuel ← entries_fuel;
    '(o, it) ← walker_find_loop fuel
      (fun name => (str_len name =? str_len req_name) && eq_ignore_ascii_case name req_name) used_iter;
    match o with
    | Some (name, short_ent) =>
        offset ← unwrap (di_offset it);
        mret (Some (Some (name, short_ent, offset)))
    | None => mret (Some None)
    end.

(** The [loop] of [get_all_files_lock]. *)
Fixpoint all_files_loop (fuel : nat) (it : DirIter) (vec : list (list Z * FATShortDirEnt * Z)) :
    ST InodeSt (list (list Z * FATShortDirEnt * Z)) :=
  match fuel with
  | O => out_of_fuel
  | S fuel =>
      '(ele, it) ← walker_next it;
      match ele with
      | None => mret vec
      | Some (name, short_ent) =>
          if is_dots name then all_files_loop fuel it vec
          else
            offset ← unwrap (di_offset it);
            all_files_loop fuel it (vec_push vec (name, short_ent, offset))
      end
  end.

Definition get_all_files_lock : ST InodeSt (list (list Z * FATShortDirEnt * Z)) :=
  fuel ← entries_fuel; all_files_loop fuel used_iter [].

(** The [for] of [dirent_info_lock]. *)
Fixpoint dirent_info_loop (length : nat) (size : Z) (it : DirIter) (last_name : list Z)
    (last_short_ent : FATShortDirEnt) (v : list (list Z * Z * Z * Z)) : ST InodeSt (list (list Z * Z * Z * Z)) :=
  match length with
  | O => mret v
  | S length =>
      offset ← unwrap (di_offset it);
      let next_dirent_offset := offset ⊞ STEP_SIZE in
      '(o, it) ← walker_next it;
      match o with
      | None =>
          mret (vec_push v (last_name, size, get_first_clus last_short_ent, se_attr last_short_ent))
      | Some (name, short_ent) =>
          dirent_info_loop length size it name short_ent
            (vec_push v (last_name, next_dirent_offset, get_first_clus last_short_ent, se_attr last_short_ent))
      end
  end.

Definition dirent_info_lock (offset : Z) (length : nat) : ST InodeSt (option (list (list Z * Z * Z * Z))) :=
  d ← is_dir;
  if negb d then mret None
  else
    size ← get_file_size;
    '(o, it) ← walker_next (set_iter_offset used_iter offset);
    match o with
    | None => mret (Some [])
    | Some (last_name, last_short_ent) =>
        v ← dirent_info_loop length size it last_name last_short_ent [];
        mret (Some v)
    end.

(** ** The size of a directory *)

(** The [loop] of [set_hint]. *)
Fixpoint set_hint_loop (fuel : nat) (it : DirIter) : ST InodeSt unit :=
  match fuel with
  | O => out_of_fuel
  | S fuel =>
      '(dir_ent, it) ← iter_next it;
      match dir_ent with
      | None => size ← get_file_size; put_fc_hint size
      | Some dir_ent =>
          if last_and_unused dir_ent then offset ← unwrap (di_offset it); put_fc_hint offset
          else set_hint_loop fuel it
      end
  end.

Definition set_hint : ST InodeSt unit :=
  fuel ← entries_fuel; set_hint_loop fuel (mkDirIter None Enum FORWARD).

Definition expand_dir_size : ST InodeSt unit :=
  modify_size_lock efs tree_oom (clus_size efs) false.

Definition shrink_dir_size : ST InodeSt unit :=
  c ← get_content;
  n ← lift (total_clus efs (fc_hint c));
  let new_size := Z.max (wrap32 (n * clus_size efs)) (clus_size efs) in
  modify_size_lock efs tree_oom (new_size - fc_size c) false.

(** ** Entries *)

(** The [loop] of [alloc_dir_ent]. *)
Fixpoint alloc_dir_ent_loop (fuel : nat) (alloc_num : Z) (it : DirIter) (found_free_dir_ent : Z) : ST InodeSt Z :=
  match fuel with
  | O => out_of_fuel
  | S fuel =>
      '(dir_ent, it) ← iter_next it;
      match dir_ent with
      | None => expand_dir_size;; alloc_dir_ent_loop fuel alloc_num it found_free_dir_ent
      | Some _ =>
          let found_free_dir_ent := found_free_dir_ent ⊞ 1 in
          if alloc_num <=? found_free_dir_ent then
            offset ← unwrap (di_offset it);
            '(o, it) ← iter_next it;
            match o with
            | Some _ =>
                write_to_current_ent it unused_and_last_entry;;
                h ← unwrap (di_offset it);
                put_fc_hint h
            | None => size ← get_file_size; put_fc_hint size
            end;;
            mret offset
          else alloc_dir_ent_loop fuel alloc_num it found_free_dir_ent
      end
  end.

(** Each round finds an entry or adds a cluster of them. *)
Definition alloc_dir_ent (alloc_num : Z) : ST InodeSt Z :=
  c ← get_content;
  alloc_dir_ent_loop (Z.to_nat (2 * alloc_num + 2)) alloc_num
    (set_iter_offset (mkDirIter None Enum FORWARD) (fc_hint c)) 0.

Definition get_dir_ent (offset : Z) : ST InodeSt (option FATDirEnt) :=
  '(n, dir_ent) ← read_at_block_cache efs tree_oom offset FATDirEnt_empty;
  mret (if negb (n =? Z.of_nat (length dir_ent)) then None else Some dir_ent).

Definition set_dir_ent (offset : Z) (dir_ent : FATDirEnt) : ST InodeSt (option unit) :=
  n ← write_at_block_cache_lock efs tree_oom offset dir_ent;
  mret (if negb (n =? Z.of_nat (length dir_ent)) then None else Some tt).

(** The [loop] of [get_all_dir_ent], which never moves the iterator. *)
Fixpoint get_all_long_loop (fuel : nat) (it : DirIter) (long_ents : list FATLongDirEnt) :
    ST InodeSt (option (list FATLongDirEnt)) :=
  match fuel with
  | O => out_of_fuel
  | S fuel =>
      dir_ent ← current_clone it;
      match dir_ent with
      | None => mret None
      | Some dir_ent =>
          match get_long_ent dir_ent with
          | None => mret None
          | Some l =>
              let long_ents := vec_push long_ents l in
              if is_last_long_dir_ent dir_ent then mret (Some long_ents) else get_all_long_loop fuel it long_ents
          end
      end
  end.

Definition get_all_dir_ent (fuel : nat) (offset : Z) : ST InodeSt (option (FATShortDirEnt * list FATLongDirEnt)) :=
  let it := mkDirIter (Some offset) Enum BACKWARD in
  cur ← current_clone it;
  cur ← unwrap cur;
  short_ent ← unwrap (get_short_ent cur);
  '(dir_ent, it) ← iter_next it;
  match dir_ent with
  | None => mret (Some (short_ent, []))
  | Some dir_ent =>
      if negb (is_long dir_ent) then mret (Some (short_ent, []))
      else
        r ← get_all_long_loop fuel it [];
        mret ((fun long_ents => (short_ent, long_ents)) <$> r)
  end.

(** The loop of [delete_dir_ent] that removes the long entries. *)
Fixpoint delete_long_loop (fuel : nat) (it : DirIter) : ST InodeSt (option unit) :=
  match fuel with
  | O => out_of_fuel
  | S fuel =>
      dir_ent ← current_clone it;
      match dir_ent with
      | None => mret None
      | Some dir_ent =>
          if negb (is_long dir_ent) then mret None
          else
            write_to_current_ent it unused_not_last_entry;;
            '(_, it) ← iter_next it;
            if is_last_long_dir_ent dir_ent then mret (Some tt) else delete_long_loop fuel it
      end
  end.

(** The loop of [delete_dir_ent] that moves [hint] back. *)
Fixpoint move_hint_loop (fuel : nat) (it : DirIter) : ST InodeSt unit :=
  match fuel with
  | O => out_of_fuel
  | S fuel =>
      '(dir_ent, it) ← iter_next it;
      match dir_ent with
      | None => put_fc_hint 0
      | Some dir_ent =>
          if unused dir_ent then
            offset ← unwrap (di_offset it);
            put_fc_hint offset;;
            write_to_current_ent it unused_and_last_entry;;
            move_hint_loop fuel it
          else mret tt
      end
  end.

Definition delete_dir_ent (offset : Z) : ST InodeSt (option unit) :=
  let it := mkDirIter (Some offset) Used BACKWARD in
  write_to_current_ent it unused_not_last_entry;;
  '(dir_ent, it) ← iter_next it;
  match dir_ent with
  | None => mret (Some tt)
  | Some dir_ent =>
      if negb (is_long dir_ent) then mret (Some tt)
      else
        fuel ← entries_fuel;
        r ← delete_long_loop fuel it;
        match r with
        | None => mret None
        | Some _ =>
            c ← get_content;
            fuel ← entries_fuel;
            move_hint_loop fuel (mkDirIter (Some (fc_hint c)) Enum BACKWARD);;
            shrink_dir_size;;
            mret (Some tt)
        end
  end.

(** The [for] of [create_dir_ent]. *)
Definition write_long_ent (it : DirIter) (long_ent : FATLongDirEnt) : ST InodeSt DirIter :=
  '(_, it) ← iter_next it;
  write_to_current_ent it (of_long long_ent);;
  mret it.

Definition create_dir_ent (short_ent : FATShortDirEnt) (long_ents : list FATLongDirEnt) : ST InodeSt Z :=
  short_ent_offset ← alloc_dir_ent (1 + Z.of_nat (length long_ents));
  let it := mkDirIter (Some short_ent_offset) Enum BACKWARD in
  write_to_current_ent it (of_short short_ent);;
  st_fold write_long_ent it long_ents;;
  mret short_ent_offset.

(** The [loop] of [modify_parent_dir_entry]. *)
Fixpoint modify_parent_loop (fuel : nat) (it : DirIter) (parent_dir_clus_num : Z) : ST InodeSt (option unit) :=
  match fuel with
  | O => out_of_fuel
  | S fuel =>
      '(dir_ent, it) ← iter_next it;
      match dir_ent with
      | None => mret None
      | Some dir_ent =>
          if bool_decide (get_name dir_ent = dotdot) then
            dir_ent ← lift (dir_ent_set_fst_clus dir_ent parent_dir_clus_num);
            write_to_current_ent it dir_ent;;
            mret (Some tt)
          else modify_parent_loop fuel it parent_dir_clus_num
      end
  end.

Definition modify_parent_dir_entry (parent_dir_clus_num : Z) : ST InodeSt (option unit) :=
  fuel ← entries_fuel; modify_parent_loop fuel used_iter parent_dir_clus_num.

(** ** A file and its directory *)

(** The short entries of the directory, for [gen_short_name_slice]; every
    attempt at a free short name that fails meets another of them. *)
Definition gen_dir_ent_lock (name : list Z) (fst_clus : Z) (file_type : DiskInodeType) :
    ST InodeSt (FATShortDirEnt * list FATLongDirEnt) :=
  v ← iter_collect (mkDirIter None Short FORWARD);
  lift (gen_dir_ent (S (length v)) v name fst_clus file_type).

(** [Inode::new], with [fuel] for following the chain of clusters. *)
Definition Inode_new (fuel : nat) (fst_clus : Z) (file_type : DiskInodeType) (size : option Z) : ST Shared Inode := fun sh =>
  '(inode, f) ← inode_open efs fuel fst_clus file_type size (sh_fat sh);
  let sh := mkShared f (sh_fa sh) (sh_pte sh) in
  if bool_decide (file_type = Directory) then
    '(_, (sh, inode)) ← set_hint (sh, inode);
    Ok (inode, sh)
  else Ok (inode, sh).

Definition from_ent (fuel : nat) (ent : FATShortDirEnt) : ST Shared Inode :=
  Inode_new fuel (get_first_clus ent) (if se_is_dir ent then Directory else File)
    (if se_is_file ent then Some (file_size ent) else None).

Definition root_inode (fuel : nat) : ST Shared Inode := Inode_new fuel (root_clus efs) Directory None.

(** A file, the directory it is in, and the offset of its short entry there:
    the field [parent_dir]. *)
Record PairSt : Type := mkPairSt { ps_shared : Shared; ps_parent : Inode; ps_child : Inode; parent_dir : option Z }.

Definition on_parent {A} (m : ST InodeSt A) : ST PairSt A := fun s =>
  '(a, (sh, p)) ← m (ps_shared s, ps_parent s);
  Ok (a, mkPairSt sh p (ps_child s) (parent_dir s)).

Definition on_child {A} (m : ST InodeSt A) : ST PairSt A := fun s =>
  '(a, (sh, c)) ← m (ps_shared s, ps_child s);
  Ok (a, mkPairSt sh (ps_parent s) c (parent_dir s)).

Definition put_parent_dir (o : option Z) : ST PairSt unit :=
  modify (fun s => mkPairSt (ps_shared s) (ps_parent s) (ps_child s) o).

Definition put_deleted : ST InodeSt unit :=
  modify (fun s => (s.1, mkInode (file_content s.2) (pages s.2) (page_ids s.2) (file_type s.2) true (time s.2))).

Definition delete_self_dir_ent : ST PairSt (option unit) :=
  p ← gets parent_dir;
  match p with
  | Some offset => on_parent (delete_dir_ent offset)
  | None => mret None
  end.

(** The error number of [unlink_lock] is never used. *)
Definition unlink_lock (delete : bool) : ST PairSt unit :=
  p ← gets parent_dir;
  match p with
  | None => mret tt
  | Some _ =>
      r ← delete_self_dir_ent;
      match r with
      | None => panic
      | Some _ =>
          (if delete then on_child put_deleted else mret tt);;
          put_parent_dir None
      end
  end.

(** The part of [link_par_lock] for a directory: its [..] names the new parent. *)
Definition relink_dotdot : ST PairSt (option unit) :=
  d ← on_child is_dir;
  if d : bool then
    clus ← on_parent get_first_clus_lock;
    clus ← unwrap clus;
    on_child (modify_parent_dir_entry clus)
  else mret (Some tt).

Definition link_par_lock (name : list Z) : ST PairSt (option unit) :=
  clus ← on_child get_first_clus_lock;
  ft ← gets (fun s => file_type (ps_child s));
  '(short_ent, long_ents) ← on_parent (gen_dir_ent_lock name (default 0 clus) ft);
  short_ent_offset ← on_parent (create_dir_ent short_ent long_ents);
  r ← relink_dotdot;
  match r with
  | None => mret None
  | Some _ => put_parent_dir (Some short_ent_offset);; mret (Some tt)
  end.

Definition fill_empty_dir (parent_clus : option Z) (fst_clus : Z) : ST InodeSt unit :=
  let it := mkDirIter None Enum FORWARD in
  let short_name := replicate 11 32 in
  '(_, it) ← iter_next it;
  let short_name := <[0%nat := 46]> short_name in
  write_to_current_ent it (of_short (from_name short_name fst_clus Directory));;
  '(_, it) ← iter_next it;
  let short_name := <[1%nat := 46]> short_name in
  clus ← unwrap parent_clus;
  write_to_current_ent it (of_short (from_name short_name clus Directory));;
  '(_, it) ← iter_next it;
  write_to_current_ent it unused_and_last_entry.

Definition on_shared {A} (m : ST Shared A) : ST InodeSt A := fun s =>
  '(a, sh) ← m s.1;
  Ok (a, (sh, s.2)).

(** [m] on the inode of another file, and that inode afterwards. *)
Definition on_inode {A} (i : Inode) (m : ST InodeSt A) : ST InodeSt Inode := fun s =>
  '(_, (sh, i)) ← m (s.1, i);
  Ok (i, (sh, s.2)).

(** The first cluster of a new file: a directory has one from the start. *)
Definition first_clus_of (ft : DiskInodeType) : ST InodeSt (option Z) :=
  if bool_decide (ft = Directory) then
    fst_clus ← on_fat (alloc (efs_fat efs) 1 None);
    mret (head fst_clus)
  else mret (Some 0).

(** [create_lock] on the parent: the inode of the new file and the offset of
    its short entry. *)
Definition create_lock (fuel : nat) (name : list Z) (ft : DiskInodeType) : ST InodeSt (option (Inode * Z)) :=
  f ← is_file;
  if f || (256 <=? str_len name) then mret None
  else
    fst_clus ← first_clus_of ft;
    match fst_clus with
    | None => mret None
    | Some fst_clus =>
        '(short_ent, long_ents) ← gen_dir_ent_lock name fst_clus ft;
        short_ent_offset ← create_dir_ent short_ent long_ents;
        current_file ← on_shared (from_ent fuel short_ent);
        if bool_decide (ft = Directory) then
          parent_clus ← get_first_clus_lock;
          current_file ← on_inode current_file (put_fc_hint (2 * STEP_SIZE);; fill_empty_dir parent_clus fst_clus);
          mret (Some (current_file, short_ent_offset))
        else mret (Some (current_file, short_ent_offset))
    end.

(** [Drop for Inode]: the entry read is written back as it is. *)
Definition Inode_drop : ST PairSt unit :=
  d ← gets (fun s => deleted (ps_child s));
  if d : bool then
    on_child (c ← get_content; dealloc_clus efs (Z.of_nat (length (clus_list c))))
  else
    p ← gets parent_dir;
    match p with
    | None => mret tt
    | Some offset =>
        dir_ent ← on_parent (get_dir_ent offset);
        dir_ent ← unwrap dir_ent;
        unwrap (get_short_ent dir_ent);;
        r ← on_parent (set_dir_ent offset dir_ent);
        unwrap r
    end.
End Dir.
