(* ===== verification/DirSpec.v ===== *)
(** * Directories are sequences of named entries

    The directory operations against lists: first of 32-byte entries, then of
    items, where an item is an entry that is not in use or a file with its
    name.  Listing and searching see the files, creating appends one and
    deleting removes one, whatever the state of the caches. *)

From S2P Require Import Prelude Config FrameAllocator PageTable BlockCache Fat PageCache Utf Layout Inode InodeSpec Dir.

Section Spec.
Context (efs : EasyFileSystem) (tree_oom : ST PcSys Z) (N : Z) (R : gset Z).
Hypothesis Hgeo : geometry efs N.

Implicit Types s : InodeSt.

Abbreviation cl_of s := (clus_list (file_content (snd s))).
Abbreviation size_of s := (fc_size (file_content (snd s))).
Abbreviation hint_of s := (fc_hint (file_content (snd s))).

(** ** The entries of a directory *)

Definition entry_at (s : InodeSt) (k : Z) : FATDirEnt := fdata efs s <$> seqZ (32 * k) 32.

Definition ents (s : InodeSt) : list FATDirEnt := entry_at s <$> seqZ 0 (size_of s / 32).

Record dir_ok (s : InodeSt) : Prop := {
  dk_inv : inode_inv efs N R s;
  dk_roomy : roomy efs s;
  dk_unshared : unshared (pcm_of s);
  dk_type : file_type s.2 = Directory;
  dk_size : size_of s = Z.of_nat (length (cl_of s)) * clus_size efs;
  dk_clus : cl_of s ≠ [];
}.

(** Entries per cluster. *)
Definition epc : Z := clus_size efs / 32.

Lemma epc_pos : 128 ≤ epc < 2 ^ 20 ∧ clus_size efs = 32 * epc.
Proof.
  pose proof (clus_size_eq efs N Hgeo) as E. pose proof (spc_pos efs N Hgeo). unfold epc. rewrite E.
  replace (512 * sec_per_clus efs) with (16 * sec_per_clus efs * 32) by lia. rewrite Z.div_mul by lia. lia.
Qed.

Lemma ents_length s : dir_ok s → size_of s = 32 * Z.of_nat (length (ents s)).
Proof.
  intros Hd. pose proof epc_pos as [He Hc]. pose proof (dk_size s Hd) as Hs. unfold ents.
  rewrite length_fmap, length_seqZ, Hs, Hc. replace (_ * (32 * epc)) with (Z.of_nat (length (cl_of s)) * epc * 32) by lia.
  rewrite Z.div_mul by lia. lia.
Qed.

Lemma ents_small s : dir_ok s → 32 * Z.of_nat (length (ents s)) < 2 ^ 32.
Proof. intros Hd. rewrite <-ents_length by done. apply (iv_size _ _ _ _ (dk_inv s Hd)). Qed.

Lemma ents_lookup s (k : nat) e : dir_ok s → ents s !! k = Some e → e = entry_at s (Z.of_nat k) ∧ (k < length (ents s))%nat.
Proof.
  intros Hd Hk. split; [|by eapply lookup_lt_Some]. unfold ents in Hk. rewrite list_lookup_fmap in Hk.
  destruct (seqZ 0 (size_of s / 32) !! k) as [z|] eqn:E; [|done]. apply lookup_seqZ in E as [-> _]. by injection Hk as <-.
Qed.

Lemma ents_lookup_lt s (k : nat) : (k < length (ents s))%nat → ents s !! k = Some (entry_at s (Z.of_nat k)).
Proof.
  unfold ents. rewrite length_fmap, length_seqZ, list_lookup_fmap. intros Hk. by rewrite lookup_seqZ_lt by lia.
Qed.

(** The directory is the same except for what is cached. *)
Definition same_dir (s s' : InodeSt) : Prop :=
  dir_ok s' ∧ ents s' = ents s ∧ same_meta s s' ∧ keeps s s'.

Lemma same_dir_refl s : dir_ok s → same_dir s s.
Proof. intros Hd. split; [done|]. split; [done|]. split; [apply same_meta_refl|apply keeps_refl]. Qed.

Lemma same_dir_trans s1 s2 s3 : same_dir s1 s2 → same_dir s2 s3 → same_dir s1 s3.
Proof.
  intros (_ & H1 & H2 & H3) (? & H4 & H5 & H6). split; [done|]. split; [congruence|]. split; [by eapply same_meta_trans|by eapply inode_keeps_trans].
Qed.

(** What a step that leaves size and clusters alone keeps. *)
Lemma dir_ok_meta s s' : dir_ok s → inode_inv efs N R s' → same_meta s s' → keeps s s' → dir_ok s'.
Proof.
  intros [] Hi Hm Hk. pose proof Hm as (_ & Hfc & Hft & _). split; try done.
  - by eapply roomy_same.
  - by apply Hk.
  - congruence.
  - by rewrite Hfc.
  - by rewrite Hfc.
Qed.

Lemma wp_read_ent s (k : nat) e :
  dir_ok s → ents s !! k = Some e →
  wp (read_at_block_cache efs tree_oom (32 * Z.of_nat k) FATDirEnt_empty) (fun r s' => r = (32, e) ∧ same_dir s s') s.
Proof.
  intros Hd Hk. destruct (ents_lookup s k e Hd Hk) as [-> Hlt]. pose proof (ents_length s Hd) as Hl. pose proof (ents_small s Hd).
  pose proof (dk_inv s Hd) as Hi. pose proof (iv_size _ _ _ _ Hi).
  eapply wp_mono; [apply (wp_read_at efs tree_oom N R Hgeo); try done; [lia|apply Hd]|].
  change (Z.of_nat (length FATDirEnt_empty)) with 32. rewrite Z.min_l, Z.max_r by lia.
  intros r s' (-> & Hi' & Hm & Hdd & Hk'). split.
  - f_equal. change (drop (Z.to_nat 32) FATDirEnt_empty) with (@nil Z). rewrite app_nil_r.
    rewrite <-(content_slice efs s) by lia. done.
  - split; [by eapply dir_ok_meta|]. split; [|by split]. unfold ents. pose proof Hm as (_ & -> & _).
    apply list_fmap_ext. intros i z Hz%list_elem_of_lookup_2%elem_of_seqZ. unfold entry_at. apply list_fmap_ext.
    intros j y Hy%list_elem_of_lookup_2%elem_of_seqZ. apply Hdd. lia.
Qed.

(** The bytes of an entry after a write. *)
Lemma entry_write s s' (k : nat) e j :
  (∀ i, 0 ≤ i → fdata efs s' i = fwrite (fdata efs s) (32 * Z.of_nat k) e i) → length e = 32%nat → 0 ≤ j →
  entry_at s' j = if decide (j = Z.of_nat k) then e else entry_at s j.
Proof.
  intros Hd He Hj. unfold entry_at. destruct (decide (j = Z.of_nat k)) as [->|Hne].
  - apply list_eq. intros i. rewrite list_lookup_fmap. destruct (decide (i < 32)%nat).
    + rewrite lookup_seqZ_lt by lia. cbn [fmap option_fmap option_map]. rewrite Hd by lia. unfold fwrite.
      rewrite (proj2 (Z.leb_le _ _)), (proj2 (Z.ltb_lt _ _)) by lia. cbn [andb].
      destruct (lookup_lt_is_Some_2 e i) as [x Hx]; [lia|]. rewrite Hx. f_equal.
      replace (Z.to_nat _) with i by lia. by apply nth_lookup_Some.
    + rewrite lookup_seqZ_ge by lia. symmetry. apply lookup_ge_None. lia.
  - apply list_fmap_ext. intros i y Hy%list_elem_of_lookup_2%elem_of_seqZ. rewrite Hd by lia. unfold fwrite.
    destruct (Z.leb_spec (32 * Z.of_nat k) y), (Z.ltb_spec y (32 * Z.of_nat k + Z.of_nat (length e))); cbn [andb]; done || lia.
Qed.

(** The directory with other entries in the same space. *)
Definition dir_upd (s : InodeSt) (E : list FATDirEnt) (s' : InodeSt) : Prop :=
  dir_ok s' ∧ ents s' = E ∧ same_meta s s' ∧ keeps s s'.

Lemma wp_write_ent s (k : nat) e :
  dir_ok s → (k < length (ents s))%nat → length e = 32%nat →
  wp (write_at_block_cache_lock efs tree_oom (32 * Z.of_nat k) e) (fun r s' => r = 32 ∧ dir_upd s (<[k := e]> (ents s)) s') s.
Proof.
  intros Hd Hk He. pose proof (ents_length s Hd) as Hl. pose proof (dk_inv s Hd) as Hi.
  eapply wp_mono; [apply (wp_write_at_inside efs tree_oom N R Hgeo); try done; [apply Hd|lia|lia|lia]|].
  intros r s' (-> & Hi' & Hm & Hkp & Hdd). rewrite He. split; [done|]. split; [by eapply dir_ok_meta|]. split; [|by split].
  pose proof Hm as (_ & Hfc & _). assert (length (ents s') = length (ents s)) as Hl'.
  { unfold ents. by rewrite !length_fmap, Hfc. }
  apply list_eq. intros j. destruct (decide (j < length (ents s))%nat) as [Hj|Hj].
  - rewrite ents_lookup_lt by lia. rewrite (entry_write s s' k e) by (done || lia).
    destruct (decide (Z.of_nat j = Z.of_nat k)) as [Heq|Hne].
    + replace j with k by lia. by rewrite list_lookup_insert_eq by lia.
    + rewrite list_lookup_insert_ne by lia. by rewrite ents_lookup_lt.
  - rewrite !lookup_ge_None_2; [done|rewrite length_insert; lia|lia].
Qed.

(** ** Iterators *)

(** The entries that an iterator visits. *)
Definition visible (E : list FATDirEnt) : list FATDirEnt :=
  match list_find (fun e => last_and_unused e = true) E with Some (k, _) => take k E | None => E end.

Definition range (m : DirIterMode) (E : list FATDirEnt) : list FATDirEnt := if is_enum m then E else visible E.

Lemma visible_prefix E : ∃ k, visible E = take k E.
Proof. unfold visible. destruct (list_find _ E) as [[k e]|]; [by exists k|]. exists (length E). by rewrite firstn_all. Qed.

Lemma visible_lookup E k e : visible E !! k = Some e → E !! k = Some e ∧ last_and_unused e = false.
Proof.
  unfold visible. destruct (list_find _ E) as [[n x]|] eqn:F.
  - intros [Hk Hlt]%lookup_take_Some. split; [done|]. apply list_find_Some in F as (_ & _ & H).
    specialize (H k e Hk Hlt). by destruct (last_and_unused e).
  - intros Hk. split; [done|]. apply list_find_None in F. rewrite Forall_forall in F.
    specialize (F e (list_elem_of_lookup_2 _ _ _ Hk)). by destruct (last_and_unused e).
Qed.

Lemma visible_end E : (length (visible E) < length E)%nat → ∃ e, E !! length (visible E) = Some e ∧ last_and_unused e = true.
Proof.
  unfold visible. destruct (list_find _ E) as [[n x]|] eqn:F; [|lia]. apply list_find_Some in F as (Hn & Hx & _).
  pose proof (lookup_lt_Some _ _ _ Hn). rewrite length_take, Nat.min_l by lia. eauto.
Qed.

Lemma range_le m E : (length (range m E) ≤ length E)%nat.
Proof. unfold range. destruct (is_enum m); [done|]. destruct (visible_prefix E) as [k ->]. rewrite length_take. lia. Qed.

(** A forward iterator that has passed [p] entries, and a backward one in
    front of entry [p]. *)
Definition fwd (m : DirIterMode) (p : nat) : DirIter :=
  mkDirIter (match p with O => None | S p => Some (32 * Z.of_nat p) end) m FORWARD.
Definition bwd (m : DirIterMode) (p : nat) : DirIter := mkDirIter (Some (32 * Z.of_nat p)) m BACKWARD.

Lemma wp_step_fwd s m p :
  dir_ok s → (p ≤ length (range m (ents s)))%nat →
  wp (step efs tree_oom (fwd m p)) (fun r s' => same_dir s s' ∧
    r = match range m (ents s) !! p with Some e => (Some e, fwd m (S p)) | None => (None, fwd m p) end) s.
Proof.
  intros Hd Hp. pose proof (ents_length s Hd) as Hl. pose proof (ents_small s Hd) as Hsm. pose proof (range_le m (ents s)) as Hrl.
  unfold step. cbn [fwd direction di_offset di_mode FORWARD].
  assert (match match p with O => None | S p0 => Some (32 * Z.of_nat p0) end with
          | Some offset => wrap32 (offset + STEP_SIZE) | None => 0 end = 32 * Z.of_nat p) as ->.
  { destruct p as [|p]; [done|]. unfold STEP_SIZE. rewrite wrap32_small; [lia|]. unfold is_u32. lia. }
  unfold get_file_size, get_content. repeat wp_step. rewrite Hl.
  destruct (Z.leb_spec (32 * Z.of_nat (length (ents s))) (32 * Z.of_nat p)) as [Hge|Hlt].
  { wp_step. split; [by apply same_dir_refl|]. by rewrite (lookup_ge_None_2 (range m (ents s))) by lia. }
  destruct (lookup_lt_is_Some_2 (ents s) p) as [e He]; [lia|].
  wp_step. eapply wp_mono; [by apply (wp_read_ent s p e)|]. intros r s' (-> & Hs'). unfold range in *.
  destruct (is_enum m); cbn [negb andb].
  { wp_step. split; [done|]. by rewrite He. }
  destruct (decide (p < length (visible (ents s)))%nat) as [Hv|Hv].
  - destruct (lookup_lt_is_Some_2 _ _ Hv) as [e' He']. destruct (visible_lookup _ _ _ He') as [H1 H2].
    assert (e' = e) as -> by congruence. rewrite H2, He'. wp_step. by split.
  - destruct (visible_end (ents s)) as (e' & H1 & H2); [lia|]. assert (p = length (visible (ents s))) as -> by lia.
    assert (e' = e) as -> by congruence. rewrite H2. wp_step. split; [done|]. by rewrite lookup_ge_None_2.
Qed.

Definition legal (m : DirIterMode) (e : FATDirEnt) : Prop := check_dir_ent_legality m e = true.

#[local] Instance legal_dec m e : Decision (legal m e).
Proof. unfold legal. apply _. Defined.

Definition abs_next (m : DirIterMode) (E : list FATDirEnt) (p : nat) : option FATDirEnt * DirIter :=
  match list_find (legal m) (drop p (range m E)) with
  | Some (k, e) => (Some e, fwd m (S (p + k)))
  | None => (None, fwd m (length (range m E)))
  end.

Lemma wp_next_loop_fwd fuel s m p :
  dir_ok s → (p ≤ length (range m (ents s)) < p + fuel)%nat →
  wp (next_loop efs tree_oom fuel (fwd m p)) (fun r s' => same_dir s s' ∧ r = abs_next m (ents s) p) s.
Proof.
  revert s p. induction fuel as [|fuel IH]; intros s p Hd Hp; [lia|]. cbn [next_loop].
  wp_step. eapply wp_mono; [apply wp_step_fwd; [done|lia]|]. intros [o it] s1 (Hs1 & Hr).
  destruct (range m (ents s) !! p) as [e|] eqn:E; injection Hr as -> ->.
  - unfold abs_next. rewrite (drop_S _ _ _ E). cbn [list_find].
    pose proof (lookup_lt_Some _ _ _ E) as Hlt. cbn [fwd di_mode].
    destruct (check_dir_ent_legality m e) eqn:Ec.
    + rewrite decide_True by done. wp_step. split; [done|]. by rewrite Nat.add_0_r.
    + rewrite decide_False by (unfold legal; by rewrite Ec). pose proof Hs1 as (Hd1 & He1 & _).
      eapply wp_mono; [apply (IH s1 (S p)); [done|rewrite He1; lia]|]. intros r s2 (Hs2 & ->).
      split; [by eapply same_dir_trans|]. unfold abs_next. rewrite He1.
      destruct (list_find _ (drop (S p) _)) as [[k x]|]; cbn; [|done]. do 2 f_equal. lia.
  - wp_step. split; [done|]. apply lookup_ge_None in E. unfold abs_next. rewrite drop_ge by lia. cbn. do 2 f_equal. lia.
Qed.

Lemma wp_entries_fuel s Q :
  dir_ok s → Q (length (ents s) + 2)%nat s → wp entries_fuel Q s.
Proof.
  intros Hd HQ. unfold entries_fuel, get_file_size, get_content. repeat wp_step. rewrite (ents_length s Hd).
  unfold STEP_SIZE. rewrite (Z.mul_comm 32), Z.div_mul by lia. by replace (Z.to_nat _) with (length (ents s) + 2)%nat by lia.
Qed.

Lemma wp_next_fwd s m p :
  dir_ok s → (p ≤ length (range m (ents s)))%nat →
  wp (iter_next efs tree_oom (fwd m p)) (fun r s' => same_dir s s' ∧ r = abs_next m (ents s) p) s.
Proof.
  intros Hd Hp. unfold iter_next. wp_step. apply wp_entries_fuel; [done|]. apply wp_next_loop_fwd; [done|].
  pose proof (range_le m (ents s)). lia.
Qed.

Fixpoint abs_prev (m : DirIterMode) (E : list FATDirEnt) (p : nat) : option FATDirEnt * DirIter :=
  match p with
  | O => (None, mkDirIter None m BACKWARD)
  | S p =>
      match E !! p with
      | Some e => if check_dir_ent_legality m e then (Some e, bwd m p) else abs_prev m E p
      | None => (None, mkDirIter None m BACKWARD)
      end
  end.

Lemma wp_step_bwd s m p e :
  dir_ok s → ents s !! p = Some e →
  wp (step efs tree_oom (bwd m (S p))) (fun r s' => same_dir s s' ∧ r = (Some e, bwd m p)) s.
Proof.
  intros Hd He. pose proof (ents_small s Hd) as Hsm. pose proof (lookup_lt_Some _ _ _ He) as Hlt.
  unfold step. cbn [bwd direction di_offset di_mode BACKWARD]. rewrite (proj2 (Z.eqb_neq _ _)) by lia.
  unfold STEP_SIZE. replace (32 * Z.of_nat (S p) - 32) with (32 * Z.of_nat p) by lia.
  rewrite wrap32_small by (unfold is_u32; lia). wp_step. eapply wp_mono; [by apply wp_read_ent|].
  intros r s' (-> & Hs'). wp_step. by split.
Qed.

Lemma wp_next_loop_bwd fuel s m p :
  dir_ok s → (p ≤ length (ents s))%nat → (p < fuel)%nat →
  wp (next_loop efs tree_oom fuel (bwd m p)) (fun r s' => same_dir s s' ∧ r = abs_prev m (ents s) p) s.
Proof.
  revert s p. induction fuel as [|fuel IH]; intros s p Hd Hp Hf; [lia|]. cbn [next_loop]. destruct p as [|p].
  { wp_step. unfold step at 1. cbn. repeat wp_step. split; [by apply same_dir_refl|done]. }
  destruct (lookup_lt_is_Some_2 (ents s) p) as [e He]; [lia|]. cbn [abs_prev]. rewrite He.
  wp_step. eapply wp_mono; [by apply wp_step_bwd|]. intros r s1 (Hs1 & ->). cbn [bwd di_mode].
  destruct (check_dir_ent_legality m e); [by wp_step|]. pose proof Hs1 as (Hd1 & He1 & _).
  eapply wp_mono; [apply (IH s1 p); [done|rewrite He1; lia|lia]|]. intros r s2 (Hs2 & ->).
  split; [by eapply same_dir_trans|]. by rewrite He1.
Qed.

Lemma wp_next_bwd s m p :
  dir_ok s → (p ≤ length (ents s))%nat →
  wp (iter_next efs tree_oom (bwd m p)) (fun r s' => same_dir s s' ∧ r = abs_prev m (ents s) p) s.
Proof.
  intros Hd Hp. unfold iter_next. wp_step. apply wp_entries_fuel; [done|]. apply wp_next_loop_bwd; [done|done|lia].
Qed.

Lemma wp_current_clone s it p e :
  dir_ok s → di_offset it = Some (32 * Z.of_nat p) → ents s !! p = Some e →
  wp (current_clone efs tree_oom it) (fun r s' => same_dir s s' ∧ r = Some e) s.
Proof.
  intros Hd Ho He. pose proof (lookup_lt_Some _ _ _ He). unfold current_clone. rewrite Ho.
  unfold get_file_size, get_content. repeat wp_step. rewrite (ents_length s Hd), (proj2 (Z.ltb_lt _ _)) by lia. cbn [negb].
  wp_step. eapply wp_mono; [by apply wp_read_ent|]. intros r s' (-> & Hs'). wp_step. by split.
Qed.

Lemma dir_upd_len s E s' : dir_upd s E s' → length (ents s') = length E.
Proof. by intros (_ & -> & _). Qed.

Lemma wp_write_current s it p e :
  dir_ok s → di_offset it = Some (32 * Z.of_nat p) → (p < length (ents s))%nat → length e = 32%nat →
  wp (write_to_current_ent efs tree_oom it e) (fun _ s' => dir_upd s (<[p := e]> (ents s)) s') s.
Proof.
  intros Hd Ho Hp He. unfold write_to_current_ent. rewrite Ho. wp_step. eapply wp_unwrap; [done|]. wp_step.
  eapply wp_mono; [by apply wp_write_ent|]. intros r s' (-> & Hs'). rewrite He. change (negb (32 =? Z.of_nat 32)) with false. cbv iota. by wp_step.
Qed.

(** ** The walker *)

(** [DirWalker::next] on the entries from position [p] on. *)
Fixpoint abs_walk (l : list FATDirEnt) (p : nat) (name : list Z) (should_be_ord : Z) :
    outcome (option (list Z * FATShortDirEnt) * nat) :=
  match l with
  | [] => Ok (None, p)
  | e :: l =>
      if unused e then abs_walk l (S p) name should_be_ord
      else if is_long e then
        if is_last_long_dir_ent e then abs_walk l (S p) (get_name e ++ name) (ord e ⊟ 1)
        else if ord e =? should_be_ord then abs_walk l (S p) (get_name e ++ name) (should_be_ord ⊟ 1)
        else Panic
      else Ok (Some (match name with [] => get_name e | _ => name end, short_entry e), S p)
  end.

(** The entries in use from [p] on. *)
Lemma abs_walk_skip l p k e name o :
  list_find (legal Used) l = Some (k, e) →
  abs_walk l p name o = abs_walk (drop k l) (p + k) name o ∧ l !! k = Some e ∧ unused e = false.
Proof.
  revert p k. induction l as [|x l IH]; intros p k; [done|]. cbn [list_find abs_walk].
  destruct (decide (legal Used x)) as [Hx|Hx].
  - intros [= <- <-]. unfold legal in Hx. cbn in Hx. apply negb_true_iff in Hx. rewrite Nat.add_0_r. split; [|done]. cbn [drop abs_walk]. done.
  - destruct (list_find _ l) as [[k' e']|] eqn:F; [|done]. cbn. intros [= <- <-]. unfold legal in Hx. cbn in Hx.
    destruct (unused x); [|done]. destruct (IH (S p) k' eq_refl) as (H1 & H2 & H3). rewrite H1. split; [|done]. f_equal. lia.
Qed.

Lemma abs_walk_none l p name o :
  list_find (legal Used) l = None → abs_walk l p name o = Ok (None, (p + length l)%nat).
Proof.
  revert p. induction l as [|x l IH]; intros p; cbn [list_find abs_walk length].
  - intros _. by rewrite Nat.add_0_r.
  - destruct (decide (legal Used x)) as [Hx|Hx]; [done|].
    destruct (list_find _ l) as [|] eqn:F; [done|]. intros _. unfold legal in Hx. cbn in Hx. destruct (unused x); [|done].
    rewrite IH by done. do 2 f_equal. lia.
Qed.

Lemma wp_walk_loop fuel s p name o r q :
  dir_ok s → (p ≤ length (visible (ents s)) < p + fuel)%nat →
  abs_walk (drop p (visible (ents s))) p name o = Ok (r, q) →
  wp (walk_loop efs tree_oom fuel (fwd Used p) name o) (fun x s' => same_dir s s' ∧ x = (r, fwd Used q)) s.
Proof.
  revert s p name o. induction fuel as [|fuel IH]; intros s p name o Hd Hp Hw; [lia|]. cbn [walk_loop].
  wp_step. eapply wp_mono; [apply wp_next_fwd; [done|cbn; lia]|]. intros x s1 (Hs1 & ->). unfold abs_next. cbn [range is_enum].
  destruct (list_find _ (drop p (visible (ents s)))) as [[k e]|] eqn:F.
  2:{ rewrite (abs_walk_none _ p name o F) in Hw. injection Hw as <- <-. wp_step. split; [done|]. do 2 f_equal.
      rewrite length_drop. lia. }
  destruct (abs_walk_skip _ p k e name o F) as (Hsk & Hk & Hu). rewrite Hsk, drop_drop in Hw.
  rewrite lookup_drop in Hk. pose proof (lookup_lt_Some _ _ _ Hk) as Hlt. rewrite (drop_S _ _ _ Hk) in Hw. cbn [abs_walk] in Hw. rewrite Hu in Hw.
  pose proof Hs1 as (Hd1 & He1 & _).
  assert (∀ name' o', abs_walk (drop (S (p + k)) (visible (ents s))) (S (p + k)) name' o' = Ok (r, q) →
    wp (walk_loop efs tree_oom fuel (fwd Used (S (p + k))) name' o') (fun x s' => same_dir s s' ∧ x = (r, fwd Used q)) s1) as Hk'.
  { intros name' o' Hw'. eapply wp_mono; [apply (IH s1 (S (p + k)) name' o'); [done|rewrite He1; lia|by rewrite He1]|].
    intros x s2 (Hs2 & ->). split; [by eapply same_dir_trans|done]. }
  destruct (is_long e) eqn:El.
  - destruct (is_last_long_dir_ent e); [by apply Hk'|]. destruct (ord e =? o); [by apply Hk'|done].
  - injection Hw as <- <-. wp_step. eapply wp_unwrap; [unfold get_short_ent; by rewrite El|]. wp_step. by split.
Qed.

Lemma wp_walker_next s p r q :
  dir_ok s → (p ≤ length (visible (ents s)))%nat → abs_walk (drop p (visible (ents s))) p [] usize_MAX = Ok (r, q) →
  wp (walker_next efs tree_oom (fwd Used p)) (fun x s' => same_dir s s' ∧ x = (r, fwd Used q)) s.
Proof.
  intros Hd Hp Hw. unfold walker_next. wp_step. apply wp_entries_fuel; [done|]. eapply wp_walk_loop; [done| |done].
  pose proof (range_le Used (ents s)). cbn in *. lia.
Qed.

(** ** Items *)

(** A file in a directory: its name, its long entries from the first part of
    the name to the last, and its short entry. *)
Record dentry : Type := mkDentry { d_name : list Z; d_long : list FATLongDirEnt; d_short : FATShortDirEnt }.

Inductive item : Type := Hole (e : FATDirEnt) | FileItem (d : dentry).

(** Long entries are stored with the end of the name first. *)
Definition file_ents (d : dentry) : list FATDirEnt := reverse (of_long <$> d_long d) ++ [of_short (d_short d)].

Definition item_ents (it : item) : list FATDirEnt :=
  match it with Hole e => [e] | FileItem d => file_ents d end.

Definition flat (its : list item) : list FATDirEnt := its ≫= item_ents.

Record dentry_ok (d : dentry) : Prop := {
  dn_short : short_wf (d_short d);
  dn_attr : se_attr (d_short d) ≠ AttrLongName;
  dn_used : unused (of_short (d_short d)) = false;
  dn_name : d_name d = match d_long d with
                       | [] => FATShortDirEnt_name (d_short d)
                       | _ => concat (get_name <$> (of_long <$> d_long d))
                       end;
  dn_nonempty : d_long d ≠ [] → d_name d ≠ [];
  dn_count : (length (d_long d) ≤ 20)%nat;
  dn_long i l : d_long d !! i = Some l → long_wf l ∧ is_long (of_long l) = true ∧ unused (of_long l) = false ∧
    ord (of_long l) = Z.of_nat (S i) ∧ is_last_long_dir_ent (of_long l) = (S i =? length (d_long d))%nat;
}.

Definition item_ok (it : item) : Prop :=
  match it with
  | Hole e => length e = 32%nat ∧ unused_not_last e = true
  | FileItem d => dentry_ok d
  end.

Lemma dentry_not_long d : dentry_ok d → is_long (of_short (d_short d)) = false.
Proof. intros Hd. rewrite attr_of_short by apply Hd. apply Z.eqb_neq, Hd. Qed.

Lemma long_at d i l : dentry_ok d → d_long d !! i = Some l → (of_long <$> d_long d) !! i = Some (of_long l).
Proof. intros _ Hl. by rewrite list_lookup_fmap, Hl. Qed.

(** The long entries behind the first one found. *)
Lemma walk_longs d k rest p :
  dentry_ok d → (k < length (d_long d))%nat →
  abs_walk (reverse (take k (of_long <$> d_long d)) ++ rest) p (concat (get_name <$> drop k (of_long <$> d_long d))) (Z.of_nat k) =
  abs_walk rest (p + k) (concat (get_name <$> (of_long <$> d_long d))) 0.
Proof.
  intros Hd. revert p. induction k as [|k IH]; intros p Hk.
  { rewrite take_0, drop_0, Nat.add_0_r. done. }
  destruct (lookup_lt_is_Some_2 (d_long d) k) as [l Hl]; [lia|]. pose proof (long_at d k l Hd Hl) as Hl'.
  destruct (dn_long d Hd k l Hl) as (_ & H1 & H2 & H3 & H4).
  rewrite (take_S_r _ _ _ Hl'), reverse_app. cbn [reverse rev_append app abs_walk]. rewrite H2, H1, H4, H3, Z.eqb_refl.
  rewrite (proj2 (Nat.eqb_neq _ _)) by lia. pose proof (dn_count d Hd). rewrite wrap64_small by (unfold is_usize; lia).
  replace (Z.of_nat (S k) - 1) with (Z.of_nat k) by lia.
  replace (get_name (of_long l) ++ concat (get_name <$> drop (S k) (of_long <$> d_long d)))
    with (concat (get_name <$> drop k (of_long <$> d_long d))) by (by rewrite (drop_S _ _ _ Hl')).
  rewrite IH by lia. f_equal. lia.
Qed.

Lemma walk_file d rest p :
  dentry_ok d → abs_walk (file_ents d ++ rest) p [] usize_MAX = Ok (Some (d_name d, d_short d), (p + length (file_ents d))%nat).
Proof.
  intros Hd. unfold file_ents. rewrite <-app_assoc, length_app, length_reverse, length_fmap. cbn [app length].
  assert (∀ q name o, abs_walk (of_short (d_short d) :: rest) q name o =
    Ok (Some (match name with [] => get_name (of_short (d_short d)) | _ => name end, d_short d), S q)) as Hshort.
  { intros q name o. cbn [abs_walk]. rewrite (dn_used d Hd), (dentry_not_long d Hd).
    by rewrite short_entry_of_short by apply Hd. }
  pose proof (dn_name d Hd) as Hn. destruct (decide (d_long d = [])) as [E|E].
  { rewrite E in *. cbn [fmap list_fmap reverse rev_append app length]. rewrite Hshort. unfold get_name.
    rewrite (dentry_not_long d Hd), short_entry_of_short, <-Hn by apply Hd. do 2 f_equal. lia. }
  assert (d_name d = concat (get_name <$> (of_long <$> d_long d))) as Hn' by (by destruct (d_long d)).
  destruct (length (d_long d)) as [|n] eqn:El; [by apply nil_length_inv in El|].
  destruct (lookup_lt_is_Some_2 (d_long d) n) as [l Hl]; [lia|]. pose proof (long_at d n l Hd Hl) as Hl'.
  destruct (dn_long d Hd n l Hl) as (_ & H1 & H2 & H3 & H4). rewrite El, Nat.eqb_refl in H4.
  pose proof (dn_count d Hd) as Hc. rewrite El in Hc.
  rewrite <-(firstn_all2 (of_long <$> d_long d) (n := S n)) by (rewrite length_fmap; lia).
  rewrite (take_S_r _ _ _ Hl'), reverse_app. cbn [reverse rev_append app abs_walk]. rewrite H2, H1, H4, H3.
  rewrite wrap64_small by (unfold is_usize; lia). replace (Z.of_nat (S n) - 1) with (Z.of_nat n) by lia.
  replace (get_name (of_long l) ++ []) with (concat (get_name <$> drop n (of_long <$> d_long d))).
  2:{ rewrite (drop_S _ _ _ Hl'), drop_ge by (rewrite length_fmap; lia). done. }
  rewrite walk_longs by (done || lia). rewrite Hshort, <-Hn'. pose proof (dn_nonempty d Hd E) as Hne.
  destruct (d_name d); [done|]. do 2 f_equal. lia.
Qed.

(** The files of a list of items, each with the position behind its entries. *)
Fixpoint files_from (its : list item) (p : nat) : list (dentry * nat) :=
  match its with
  | [] => []
  | Hole _ :: its => files_from its (S p)
  | FileItem d :: its => (d, (p + length (file_ents d))%nat) :: files_from its (p + length (file_ents d))
  end.

(** The walker at [p] yields the files [fs]. *)
Fixpoint at_files (V : list FATDirEnt) (p : nat) (fs : list (dentry * nat)) : Prop :=
  match fs with
  | [] => ∃ q, abs_walk (drop p V) p [] usize_MAX = Ok (None, q)
  | (d, q) :: fs =>
      abs_walk (drop p V) p [] usize_MAX = Ok (Some (d_name d, d_short d), q) ∧ (p < q ≤ length V)%nat ∧ at_files V q fs
  end.

Lemma hole_skipped e rest p : unused_not_last e = true → abs_walk (e :: rest) p [] usize_MAX = abs_walk rest (S p) [] usize_MAX.
Proof. intros He. cbn [abs_walk]. unfold unused. by rewrite He, orb_true_r. Qed.

Lemma flat_cons it its : flat (it :: its) = item_ents it ++ flat its.
Proof. done. Qed.

Lemma flat_app its1 its2 : flat (its1 ++ its2) = flat its1 ++ flat its2.
Proof. unfold flat. by rewrite bind_app. Qed.

Lemma at_files_flat V its p pre :
  V = pre ++ flat its → length pre = p → Forall item_ok its → at_files V p (files_from its p).
Proof.
  revert p pre. induction its as [|it its IH]; intros p pre HV Hp Hok; cbn [files_from].
  { exists p. rewrite HV, drop_app_length' by done. done. }
  apply Forall_cons in Hok as [Hit Hok]. rewrite flat_cons in HV. destruct it as [e|d]; cbn [item_ents] in HV.
  - destruct Hit as [Hl He]. assert (at_files V (S p) (files_from its (S p))) as Hat.
    { apply (IH (S p) (pre ++ [e])); [by rewrite HV, <-app_assoc|rewrite length_app; cbn; lia|done]. }
    assert (abs_walk (drop p V) p [] usize_MAX = abs_walk (drop (S p) V) (S p) [] usize_MAX) as Hw.
    { rewrite HV, drop_app_length' by done. cbn [app]. rewrite hole_skipped by done.
      replace (pre ++ e :: flat its) with ((pre ++ [e]) ++ flat its) by (by rewrite <-app_assoc).
      by rewrite drop_app_length' by (rewrite length_app; cbn; lia). }
    destruct (files_from its (S p)) as [|[d q] fs]; cbn [at_files] in *; rewrite Hw; [done|].
    destruct Hat as (? & ? & ?). split_and!; [done|lia|lia|done].
  - assert (V = (pre ++ file_ents d) ++ flat its) as HV' by (by rewrite HV, <-app_assoc).
    cbn [at_files]. split_and!.
    + rewrite HV, drop_app_length' by done. by apply walk_file.
    + unfold file_ents. rewrite length_app. cbn. lia.
    + rewrite HV', !length_app. lia.
    + apply (IH _ (pre ++ file_ents d)); [done|rewrite length_app; lia|done].
Qed.

(** *** Loops over the files *)

Lemma wp_walker_cons s p d q fs Q (K : option (list Z * FATShortDirEnt) * DirIter → ST InodeSt Q) (P : Q → InodeSt → Prop) :
  dir_ok s → (p ≤ length (visible (ents s)))%nat → at_files (visible (ents s)) p ((d, q) :: fs) →
  (∀ s1, same_dir s s1 → at_files (visible (ents s1)) q fs → (q ≤ length (visible (ents s1)))%nat →
     wp (K (Some (d_name d, d_short d), fwd Used q)) P s1) →
  wp (walker_next efs tree_oom (fwd Used p) ≫= K) P s.
Proof.
  intros Hd Hp (Hw & Hq & Hat) HK. wp_step. eapply wp_mono; [by apply (wp_walker_next s p _ _ Hd Hp Hw)|].
  intros x s1 (Hs1 & ->). pose proof Hs1 as (_ & He & _). apply HK; [done|by rewrite He|rewrite He; lia].
Qed.

Lemma wp_walker_nil s p Q (K : option (list Z * FATShortDirEnt) * DirIter → ST InodeSt Q) (P : Q → InodeSt → Prop) :
  dir_ok s → (p ≤ length (visible (ents s)))%nat → at_files (visible (ents s)) p [] →
  (∀ s1 q, same_dir s s1 → wp (K (None, fwd Used q)) P s1) →
  wp (walker_next efs tree_oom (fwd Used p) ≫= K) P s.
Proof.
  intros Hd Hp (q & Hw) HK. wp_step. eapply wp_mono; [by apply (wp_walker_next s p _ _ Hd Hp Hw)|].
  intros x s1 (Hs1 & ->). by apply HK.
Qed.

Definition file_info (d : dentry) : list Z * FATShortDirEnt := (d_name d, d_short d).

Lemma wp_collect_files fuel s p fs v :
  dir_ok s → (p ≤ length (visible (ents s)))%nat → at_files (visible (ents s)) p fs → (length fs < fuel)%nat →
  wp (walker_collect_loop efs tree_oom fuel (fwd Used p) v)
     (fun r s' => same_dir s s' ∧ r = v ++ (file_info ∘ fst <$> fs)) s.
Proof.
  revert s p fs v. induction fuel as [|fuel IH]; intros s p fs v Hd Hp Hat Hf; [lia|]. cbn [walker_collect_loop].
  destruct fs as [|[d q] fs].
  - eapply wp_walker_nil; [done|done|done|]. intros s1 q Hs1. wp_step. by rewrite app_nil_r.
  - eapply wp_walker_cons; [done|done|done|]. intros s1 Hs1 Hat1 Hq. cbn in Hf. pose proof Hs1 as (Hd1 & _).
    eapply wp_mono; [apply (IH s1 q fs); done || lia|]. intros r s2 (Hs2 & ->). split; [by eapply same_dir_trans|].
    unfold vec_push. by rewrite <-app_assoc.
Qed.

Lemma wp_find_files fuel s p fs f :
  dir_ok s → (p ≤ length (visible (ents s)))%nat → at_files (visible (ents s)) p fs → (length fs < fuel)%nat →
  wp (walker_find_loop efs tree_oom fuel f (fwd Used p)) (fun r s' => same_dir s s' ∧
    match list_find (fun x => f (d_name x.1) = true) fs with
    | Some (_, (d, q)) => r = (Some (file_info d), fwd Used q)
    | None => r.1 = None
    end) s.
Proof.
  revert s p fs. induction fuel as [|fuel IH]; intros s p fs Hd Hp Hat Hf; [lia|]. cbn [walker_find_loop].
  destruct fs as [|[d q] fs].
  - eapply wp_walker_nil; [done|done|done|]. intros s1 q Hs1. by wp_step.
  - eapply wp_walker_cons; [done|done|done|]. intros s1 Hs1 Hat1 Hq. cbn in Hf. pose proof Hs1 as (Hd1 & _).
    cbn [list_find fst]. destruct (f (d_name d)) eqn:Ef.
    + rewrite decide_True by done. by wp_step.
    + rewrite decide_False by done. eapply wp_mono; [apply (IH s1 q fs); done || lia|]. intros r s2 (Hs2 & Hr).
      split; [by eapply same_dir_trans|]. by destruct (list_find _ fs) as [[k [d' q']]|].
Qed.

Lemma wp_all_files fuel s p fs vec :
  dir_ok s → (p ≤ length (visible (ents s)))%nat → at_files (visible (ents s)) p fs → (length fs < fuel)%nat →
  wp (all_files_loop efs tree_oom fuel (fwd Used p) vec) (fun r s' => same_dir s s' ∧
    r = vec ++ ((fun x => (file_info x.1, 32 * Z.of_nat (Nat.pred x.2))) <$> filter (fun x => is_dots (d_name x.1) = false) fs)) s.
Proof.
  revert s p fs vec. induction fuel as [|fuel IH]; intros s p fs vec Hd Hp Hat Hf; [lia|]. cbn [all_files_loop].
  destruct fs as [|[d q] fs].
  - eapply wp_walker_nil; [done|done|done|]. intros s1 q Hs1. wp_step. by rewrite app_nil_r.
  - pose proof Hat as (_ & Hpq & _). eapply wp_walker_cons; [done|done|done|]. intros s1 Hs1 Hat1 Hq. cbn in Hf. pose proof Hs1 as (Hd1 & _).
    rewrite filter_cons. cbn [fst]. destruct (is_dots (d_name d)) eqn:Ed.
    + rewrite decide_False by done. eapply wp_mono; [apply (IH s1 q fs); done || lia|]. intros r s2 (Hs2 & ->).
      split; [by eapply same_dir_trans|done].
    + rewrite decide_True by done. destruct q as [|q]; [lia|]. wp_step. eapply wp_unwrap; [done|].
      eapply wp_mono; [apply (IH s1 (S q) fs); done || lia|]. intros r s2 (Hs2 & ->).
      split; [by eapply same_dir_trans|]. unfold vec_push. rewrite <-app_assoc. done.
Qed.

(** ** Directories and what they hold *)

(** The directory [s] holds the items [its]: [hint] is behind their entries,
    where the file ends or an entry says that no other follows. *)
Record dir_rep (s : InodeSt) (its : list item) : Prop := {
  dr_ok : dir_ok s;
  dr_items : Forall item_ok its;
  dr_hint : hint_of s = 32 * Z.of_nat (length (flat its));
  dr_ents : ∃ tail, ents s = flat its ++ tail ∧ ∀ e, head tail = Some e → last_and_unused e = true;
}.

Definition dentries (its : list item) : list dentry := omap (fun it => match it with FileItem d => Some d | Hole _ => None end) its.

Lemma files_dentries its p : fst <$> files_from its p = dentries its.
Proof.
  revert p. induction its as [|[e|d] its IH]; intros p; [done|apply IH|]. cbn [files_from]. rewrite fmap_cons, IH. done.
Qed.

Lemma unused_not_last_neq e : unused_not_last e = true → last_and_unused e = false.
Proof. unfold unused_not_last, last_and_unused. intros ->%Z.eqb_eq. done. Qed.

Lemma flat_not_last its e : Forall item_ok its → e ∈ flat its → last_and_unused e = false.
Proof.
  intros Hok (it & He & Hit)%list_elem_of_bind. rewrite Forall_forall in Hok. specialize (Hok it Hit). destruct it as [h|d]; cbn in *.
  - apply list_elem_of_singleton in He as ->. apply unused_not_last_neq, Hok.
  - unfold file_ents in He. apply elem_of_app in He as [He|He].
    + apply elem_of_reverse, list_elem_of_fmap in He as (l & -> & [i Hl]%list_elem_of_lookup).
      destruct (dn_long d Hok i l Hl) as (_ & _ & [H _]%orb_false_iff & _). done.
    + apply list_elem_of_singleton in He as ->. pose proof (dn_used d Hok) as [H _]%orb_false_iff. done.
Qed.

Lemma dir_rep_visible s its : dir_rep s its → visible (ents s) = flat its.
Proof.
  intros [Hd Hok _ (tail & -> & Ht)]. unfold visible. destruct tail as [|e tail].
  - rewrite app_nil_r. destruct (list_find _ (flat its)) as [[k x]|] eqn:F; [|done]. apply list_find_Some in F as (Hk & Hx & _).
    rewrite (flat_not_last its x) in Hx; [done|done|by eapply list_elem_of_lookup_2].
  - assert (list_find (fun e => last_and_unused e = true) (flat its ++ e :: tail) = Some (length (flat its), e)) as ->.
    { apply list_find_Some. split; [by rewrite list_lookup_middle|]. split; [by apply Ht|]. intros j y Hj Hlt.
      rewrite lookup_app_l in Hj by done. rewrite (flat_not_last its y); [done|done|by eapply list_elem_of_lookup_2]. }
    by rewrite take_app_length.
Qed.

Lemma dir_rep_same s s' its : dir_rep s its → same_dir s s' → dir_rep s' its.
Proof.
  intros [] (Hd' & He & (_ & Hfc & _) & _). split; [done|done|by rewrite Hfc|by rewrite He].
Qed.

Lemma dir_rep_files s its : dir_rep s its → at_files (visible (ents s)) 0 (files_from its 0).
Proof. intros Hr. apply (at_files_flat _ its 0 []); [by apply dir_rep_visible|done|apply Hr]. Qed.

Lemma files_length s its : dir_rep s its → (length (files_from its 0) < length (ents s) + 2)%nat.
Proof.
  intros Hr. assert (∀ p, (length (files_from its p) ≤ length (flat its))%nat) as H.
  { clear. induction its as [|[e|d] its IH]; intros p; cbn [files_from]; [done| |].
    - rewrite flat_cons, length_app. specialize (IH (S p)). cbn. lia.
    - rewrite flat_cons, length_app. specialize (IH (p + length (file_ents d))%nat). cbn [length item_ents].
      unfold file_ents at 2. rewrite length_app. cbn. lia. }
  destruct (dr_ents s its Hr) as (tail & -> & _). rewrite length_app. specialize (H 0%nat). lia.
Qed.

Lemma wp_is_dir s its (Q : bool → InodeSt → Prop) : dir_rep s its → Q true s → wp is_dir Q s.
Proof. intros Hr HQ. unfold is_dir. wp_step. by rewrite (dk_type s (dr_ok s its Hr)), bool_decide_true. Qed.

Lemma wp_ls s its :
  dir_rep s its → wp (ls_lock efs tree_oom) (fun r s' => same_dir s s' ∧ r = Some (file_info <$> dentries its)) s.
Proof.
  intros Hr. pose proof (dr_ok s its Hr) as Hd. unfold ls_lock. wp_step. eapply wp_is_dir; [done|]. cbn [negb]. wp_step. apply wp_entries_fuel; [done|].
  wp_step. change used_iter with (fwd Used 0). eapply wp_mono; [apply (wp_collect_files _ s 0 (files_from its 0)); try done; [lia| |]|].
  - by apply dir_rep_files.
  - by apply files_length.
  - intros r s' (Hs' & ->). wp_step. split; [done|]. cbn [app]. by rewrite list_fmap_compose, files_dentries.
Qed.

(** The test of [find_local_lock]. *)
Definition name_matches (req_name name : list Z) : bool :=
  (str_len name =? str_len req_name) && eq_ignore_ascii_case name req_name.

Lemma files_pos its p d q : (d, q) ∈ files_from its p → (p < q)%nat.
Proof.
  revert p. induction its as [|[e|d'] its IH]; intros p; cbn [files_from].
  - by intros ?%elem_of_nil.
  - intros H%IH. lia.
  - assert (0 < length (file_ents d'))%nat as Hpos by (unfold file_ents; rewrite length_app; cbn; lia).
    intros [[= -> ->]|Hq%IH]%elem_of_cons; lia.
Qed.

Lemma wp_find_local s its req_name :
  dir_rep s its → wp (find_local_lock efs tree_oom req_name) (fun r s' => same_dir s s' ∧
    r = Some (match list_find (fun x => name_matches req_name (d_name x.1) = true) (files_from its 0) with
              | Some (_, (d, q)) => Some (file_info d, 32 * Z.of_nat (Nat.pred q))
              | None => None
              end)) s.
Proof.
  intros Hr. pose proof (dr_ok s its Hr) as Hd. unfold find_local_lock. wp_step. eapply wp_is_dir; [done|]. cbn [negb]. wp_step. apply wp_entries_fuel; [done|].
  wp_step. change used_iter with (fwd Used 0). eapply wp_mono; [apply (wp_find_files _ s 0 (files_from its 0)); try done; [lia| |]|].
  - by apply dir_rep_files.
  - by apply files_length.
  - intros [r it] s' (Hs' & Hres). fold (name_matches req_name) in Hres.
    destruct (list_find _ (files_from its 0)) as [[k [d q]]|] eqn:F.
    + injection Hres as -> ->. apply list_find_Some in F as (Hk & _ & _). apply list_elem_of_lookup_2, files_pos in Hk.
      destruct q as [|q]; [lia|]. unfold file_info at 1. wp_step. eapply wp_unwrap; [done|]. by wp_step.
    + cbn in Hres. subst r. by wp_step.
Qed.

Lemma wp_is_empty_dir s its :
  dir_rep s its → wp (is_empty_dir_lock efs tree_oom) (fun r s' => same_dir s s' ∧
    r = forallb (fun d => is_dots (d_name d)) (dentries its)) s.
Proof.
  intros Hr. pose proof (dr_ok s its Hr) as Hd. unfold is_empty_dir_lock. wp_step. eapply wp_is_dir; [done|]. cbn [negb]. wp_step. apply wp_entries_fuel; [done|].
  wp_step. change used_iter with (fwd Used 0). eapply wp_mono; [apply (wp_find_files _ s 0 (files_from its 0)); try done; [lia| |]|].
  - by apply dir_rep_files.
  - by apply files_length.
  - intros [r it] s' (Hs' & Hres). wp_step. split; [done|]. rewrite <-(files_dentries its 0). revert Hres.
    destruct (list_find _ (files_from its 0)) as [[k [d q]]|] eqn:F.
    + intros [= -> ->]. apply list_find_Some in F as (Hk & Hx%negb_true_iff & _). symmetry. apply not_true_iff_false.
      rewrite <-Is_true_true, forallb_True, Forall_fmap, Forall_forall. intros Hall. specialize (Hall _ (list_elem_of_lookup_2 _ _ _ Hk)). cbn in *. by rewrite Hx in Hall.
    + cbn. intros ->. symmetry. apply Is_true_true, forallb_True, Forall_fmap. apply list_find_None in F. eapply Forall_impl; [exact F|].
      intros [d q] Hn. cbn in *. by destruct (is_dots (d_name d)).
Qed.

(** ** Space for entries *)

(** The table, the clusters and the frames are the same. *)
Definition dir_step (s s' : InodeSt) : Prop :=
  sh_fat s'.1 = sh_fat s.1 ∧ cl_of s' = cl_of s ∧ size_of s' = size_of s ∧ room s' = room s.

Lemma dir_step_refl s : dir_step s s.
Proof. done. Qed.

Lemma dir_step_trans s1 s2 s3 : dir_step s1 s2 → dir_step s2 s3 → dir_step s1 s3.
Proof. intros (? & ? & ? & ?) (? & ? & ? & ?). split_and!; congruence. Qed.

Lemma same_dir_step s s' : same_dir s s' → dir_step s s'.
Proof. intros (_ & _ & (Hf & Hc & _) & Hk & _). unfold dir_step. by rewrite Hc. Qed.

Lemma dir_upd_step s E s' : dir_upd s E s' → dir_step s s'.
Proof. intros (_ & _ & (Hf & Hc & _) & Hk & _). unfold dir_step. by rewrite Hc. Qed.

Lemma kept_before s s0 s1 : dir_step s s0 → others_kept efs N s0 s1 → others_kept efs N s s1.
Proof. intros (Hf & Hc & _). unfold others_kept, the_disk. by rewrite Hf, Hc. Qed.

Lemma kept_step s s' : dir_step s s' → others_kept efs N s s'.
Proof. intros (Hf & _). unfold others_kept, the_disk. by rewrite Hf. Qed.

Lemma kept_after s s1 s2 : others_kept efs N s s1 → dir_step s1 s2 → others_kept efs N s s2.
Proof. intros [H1 H2] (Hf & _). unfold others_kept, the_disk in *. by rewrite Hf. Qed.

Lemma wp_put_hint s h :
  dir_ok s → wp (put_fc_hint h) (fun _ s' => dir_ok s' ∧ ents s' = ents s ∧ hint_of s' = h ∧ dir_step s s') s.
Proof.
  intros [[]]. unfold put_fc_hint, put_content, get_content. repeat wp_step. split; [|by split_and!]. by split.
Qed.

(** A free cluster and frames for its pages. *)
Definition expandable (s : InodeSt) : Prop :=
  reserved_used (efs_fat efs) N (sh_fat s.1) ∧ (∃ cs, alloc_ready (efs_fat efs) N (sh_fat s.1) 1 cs) ∧
  (Z.to_nat (npg efs (cl_of s) + ppc efs) < room s)%nat ∧ size_of s + clus_size efs < 2 ^ 32.

Lemma expandable_step s s' : dir_step s s' → expandable s → expandable s'.
Proof. unfold expandable. by intros (-> & -> & -> & ->). Qed.

Lemma wp_expand s :
  dir_ok s → expandable s →
  wp (expand_dir_size efs tree_oom) (fun _ s' => dir_ok s' ∧ others_kept efs N s s' ∧ hint_of s' = hint_of s ∧
    ∃ X, ents s' = ents s ++ X ∧ Z.of_nat (length X) = epc) s.
Proof.
  intros Hd (H2 & (cs & Hr) & Hroom & Hmax). pose proof (dk_inv s Hd) as Hi. pose proof epc_pos as [He Hc]. pose proof (dk_size s Hd) as Hsz.
  pose proof (iv_size _ _ _ _ Hi) as Hs0. pose proof (alloc_ready_clus _ _ _ _ _ _ (iv_fat _ _ _ _ Hi) H2 Hr) as (Hcs & _).
  assert (clus_for efs (size_of s + clus_size efs) - Z.of_nat (length (cl_of s)) = 1) as Hone.
  { destruct (total_clus_for efs N Hgeo (size_of s + clus_size efs) ltac:(lia)) as (_ & Hb & _). nia. }
  unfold expand_dir_size. eapply wp_mono; [apply (wp_modify_grow efs tree_oom N R Hgeo s (clus_size efs) false cs); try done; [lia|by rewrite Hone]|].
  intros [] s' (Hi' & Hk & Hs' & Hcl & Hkp & Hdd & _).
  assert (dir_ok s') as Hd'.
  { destruct Hkp as (Hrm & Hu & _ & Hft & _). split; try done.
    - unfold roomy. rewrite Hrm, Hcl. unfold npg in *. rewrite length_app, Hcs. replace (Z.of_nat (length (cl_of s) + 1) * ppc efs) with
        (Z.of_nat (length (cl_of s)) * ppc efs + ppc efs) by lia. done.
    - apply Hu, Hd.
    - rewrite Hft. apply Hd.
    - rewrite Hs', Hcl, length_app, Hcs. lia.
    - rewrite Hcl. intros [? _]%app_nil. by apply (dk_clus s Hd). }
  split; [done|]. split; [done|]. split; [by destruct Hkp as (_ & _ & ? & _)|].
  exists (drop (length (ents s)) (ents s')). pose proof (ents_length s Hd) as L. pose proof (ents_length s' Hd') as L'.
  split; [|rewrite length_drop; lia]. rewrite <-(take_drop (length (ents s)) (ents s')) at 1. f_equal.
  apply list_eq. intros k. destruct (decide (k < length (ents s))%nat).
  - rewrite lookup_take_lt, !ents_lookup_lt by lia. f_equal. unfold entry_at. apply list_fmap_ext.
    intros j y Hy%list_elem_of_lookup_2%elem_of_seqZ. apply Hdd. lia.
  - rewrite lookup_take_ge, lookup_ge_None_2 by lia. done.
Qed.

(** ** Allocating entries *)

(** What [alloc_dir_ent] has done with [n] entries behind the first [h]. *)
Definition alloc_post (s : InodeSt) (h n : nat) (r : Z) (s' : InodeSt) : Prop :=
  r = 32 * Z.of_nat (h + n - 1) ∧ dir_ok s' ∧ hint_of s' = 32 * Z.of_nat (h + n) ∧
  take h (ents s') = take h (ents s) ∧ (h + n ≤ length (ents s'))%nat ∧
  ∀ e, ents s' !! (h + n)%nat = Some e → last_and_unused e = true.

(** The end of [alloc_dir_ent], at the last of the entries. *)
Lemma wp_alloc_finish s h n :
  dir_ok s → (0 < n)%nat → (h + n ≤ length (ents s))%nat →
  wp ('(o, it) ← iter_next efs tree_oom (fwd Enum (h + n));
      match o with
      | Some _ => write_to_current_ent efs tree_oom it unused_and_last_entry;; h ← unwrap (di_offset it); put_fc_hint h
      | None => size ← get_file_size; put_fc_hint size
      end;; mret (32 * Z.of_nat (h + n - 1))) (fun r s' => alloc_post s h n r s' ∧ dir_step s s') s.
Proof.
  intros Hd Hn Hle. pose proof (ents_length s Hd) as Hl. wp_step. eapply wp_mono; [by apply (wp_next_fwd s Enum)|].
  intros x s1 (Hs1 & ->). unfold abs_next. cbn [range is_enum]. pose proof Hs1 as (Hd1 & He1 & _).
  destruct (ents s !! (h + n)%nat) as [e|] eqn:E.
  - rewrite (drop_S _ _ _ E). cbn [list_find]. rewrite decide_True by done. rewrite Nat.add_0_r.
    pose proof (lookup_lt_Some _ _ _ E). wp_step. wp_step.
    eapply wp_mono; [apply (wp_write_current s1 _ (h + n)); [done|done|by rewrite He1|done]|].
    intros [] s2 Hs2. wp_step. eapply wp_unwrap; [done|]. pose proof Hs2 as (Hd2 & He2 & _).
    eapply wp_mono; [by apply wp_put_hint|]. intros [] s3 (Hd3 & He3 & Hh3 & Hst3). wp_step.
    rewrite He1 in He2. unfold alloc_post. rewrite He3, He2, length_insert.
    split_and!; [done|done|done|by rewrite take_insert_ge by lia|lia| |].
    + intros x. rewrite list_lookup_insert_eq by lia. by intros [= <-].
    + eapply dir_step_trans; [by apply same_dir_step|]. by eapply dir_step_trans; [eapply dir_upd_step|].
  - apply lookup_ge_None in E. rewrite drop_ge by lia. cbn [list_find]. unfold get_file_size, get_content. repeat wp_step.
    pose proof (ents_length s1 Hd1) as Hl1. eapply wp_mono; [by apply wp_put_hint|]. intros [] s3 (Hd3 & He3 & Hh3 & Hst3). wp_step.
    unfold alloc_post. rewrite Hh3, He3, He1. rewrite He1 in Hl1. split_and!; [done|done|lia|done|lia| |].
    + intros x Hx%lookup_lt_Some. lia.
    + by eapply dir_step_trans; [apply same_dir_step|].
Qed.

Lemma alloc_post_same s s1 h n r s' : same_dir s s1 → alloc_post s1 h n r s' → alloc_post s h n r s'.
Proof. intros (_ & He & _) (? & ? & ? & Ht & ?). unfold alloc_post. by rewrite Ht, He. Qed.

(** One round that finds an entry. *)
Lemma wp_alloc_round fuel s h n f e (Q : Z → InodeSt → Prop) :
  dir_ok s → (f < n ≤ 100)%nat → ents s !! (h + f)%nat = Some e →
  (S f = n → ∀ s1 r s', same_dir s s1 → alloc_post s1 h n r s' → dir_step s1 s' → Q r s') →
  (∀ s1, (S f < n)%nat → same_dir s s1 →
     wp (alloc_dir_ent_loop efs tree_oom fuel (Z.of_nat n) (fwd Enum (h + S f)) (Z.of_nat (S f))) Q s1) →
  wp (alloc_dir_ent_loop efs tree_oom (S fuel) (Z.of_nat n) (fwd Enum (h + f)) (Z.of_nat f)) Q s.
Proof.
  intros Hd Hf E HQ Hnext. cbn [alloc_dir_ent_loop]. pose proof (lookup_lt_Some _ _ _ E) as Hlt.
  wp_step. eapply wp_mono; [apply (wp_next_fwd s Enum); [done|cbn; lia]|]. intros x s1 (Hs1 & ->). unfold abs_next. cbn [range is_enum].
  rewrite (drop_S _ _ _ E). cbn [list_find]. rewrite decide_True by done. rewrite Nat.add_0_r. pose proof Hs1 as (Hd1 & He1 & _).
  rewrite wrap64_small by (unfold is_usize; lia). replace (Z.of_nat f + 1) with (Z.of_nat (S f)) by lia.
  replace (S (h + f)) with (h + S f)%nat by lia. destruct (Z.leb_spec (Z.of_nat n) (Z.of_nat (S f))) as [Hdone|Hmore].
  - assert (S f = n) as <- by lia. wp_step. eapply wp_unwrap.
    { cbn [fwd di_offset]. replace (h + S f)%nat with (S (h + f)) by lia. done. }
    replace (h + f)%nat with (h + S f - 1)%nat by lia.
    eapply wp_mono; [apply wp_alloc_finish; [done|lia|rewrite He1; lia]|]. intros r s' [H1 H2]. by apply (HQ eq_refl s1).
  - apply Hnext; [lia|done].
Qed.

Lemma wp_alloc_enough fuel s h n f :
  dir_ok s → (f < n ≤ 100)%nat → (h + n ≤ length (ents s))%nat → (n - f ≤ fuel)%nat →
  wp (alloc_dir_ent_loop efs tree_oom fuel (Z.of_nat n) (fwd Enum (h + f)) (Z.of_nat f))
     (fun r s' => alloc_post s h n r s' ∧ dir_step s s') s.
Proof.
  revert s f. induction fuel as [|fuel IH]; intros s f Hd Hf Hle Hfu; [lia|].
  destruct (lookup_lt_is_Some_2 (ents s) (h + f)) as [e E]; [lia|]. eapply wp_alloc_round; [done|done|done| |].
  - intros _ s1 r s' Hs1 Hp Hst. split; [by eapply alloc_post_same|]. eapply dir_step_trans; [by apply same_dir_step|done].
  - intros s1 Hlt Hs1. pose proof Hs1 as (Hd1 & He1 & _). eapply wp_mono; [apply (IH s1 (S f)); [done|lia|by rewrite He1|lia]|].
    intros r s' [Hp Hst]. split; [by eapply alloc_post_same|]. eapply dir_step_trans; [by apply same_dir_step|done].
Qed.

Lemma wp_alloc_loop fuel s h n f :
  dir_ok s → (f < n ≤ 100)%nat → (h + f ≤ length (ents s))%nat → expandable s → (n - f < fuel)%nat →
  wp (alloc_dir_ent_loop efs tree_oom fuel (Z.of_nat n) (fwd Enum (h + f)) (Z.of_nat f))
     (fun r s' => alloc_post s h n r s' ∧ others_kept efs N s s') s.
Proof.
  revert s f. induction fuel as [|fuel IH]; intros s f Hd Hf Hle Hx Hfu; [lia|]. pose proof epc_pos as [Hepc _].
  destruct (ents s !! (h + f)%nat) as [e|] eqn:E.
  - eapply wp_alloc_round; [done|done|done| |].
    + intros _ s1 r s' Hs1 Hp Hst. split; [by eapply alloc_post_same|].
      apply kept_step. eapply dir_step_trans; [by apply same_dir_step|done].
    + intros s1 Hlt Hs1. pose proof Hs1 as (Hd1 & He1 & _). pose proof (lookup_lt_Some _ _ _ E).
      eapply wp_mono; [apply (IH s1 (S f)); [done|lia|rewrite He1; lia|eapply expandable_step; [by apply same_dir_step|done]|lia]|].
      intros r s' [Hp Hk]. split; [by eapply alloc_post_same|]. eapply kept_before; [by apply same_dir_step|done].
  - apply lookup_ge_None in E. cbn [alloc_dir_ent_loop]. wp_step. eapply wp_mono; [apply (wp_next_fwd s Enum); [done|cbn; lia]|].
    intros x s1 (Hs1 & ->). unfold abs_next. cbn [range is_enum]. rewrite drop_ge by lia. cbn [list_find].
    pose proof Hs1 as (Hd1 & He1 & _). pose proof (same_dir_step s s1 Hs1) as Hst1.
    wp_step. eapply wp_mono; [apply (wp_expand s1); [done|by eapply expandable_step]|].
    intros [] s2 (Hd2 & Hk2 & _ & X & He2 & HX). rewrite He1 in He2. assert (length (ents s) = h + f)%nat as -> by lia.
    eapply wp_mono; [apply (wp_alloc_enough fuel s2 h n f); [done|lia|rewrite He2, length_app; lia|lia]|].
    intros r s' [(? & ? & ? & Ht & ?) Hst]. split.
    + unfold alloc_post. by rewrite Ht, He2, take_app_le by lia.
    + eapply kept_after; [|done]. by eapply kept_before.
Qed.

Lemma wp_alloc_dir_ent s h n :
  dir_ok s → hint_of s = 32 * Z.of_nat h → (h ≤ length (ents s))%nat → (0 < n ≤ 100)%nat → expandable s →
  wp (alloc_dir_ent efs tree_oom (Z.of_nat n)) (fun r s' => alloc_post s h n r s' ∧ others_kept efs N s s') s.
Proof.
  intros Hd Hh Hle Hn Hx. pose proof (ents_small s Hd). unfold alloc_dir_ent, get_content. repeat wp_step. rewrite Hh.
  assert (set_iter_offset (mkDirIter None Enum FORWARD) (32 * Z.of_nat h) = fwd Enum (h + 0)) as ->.
  { unfold set_iter_offset, with_offset, STEP_SIZE. rewrite Nat.add_0_r. cbn [direction di_mode FORWARD]. destruct h as [|h]; [done|].
    rewrite (proj2 (Z.eqb_neq _ _)) by lia. unfold fwd. do 2 f_equal. rewrite wrap32_small; [lia|unfold is_u32; lia]. }
  apply (wp_alloc_loop _ s h n 0); done || lia.
Qed.

(** ** Creating entries *)

Lemma insert_take_app {A} (E M : list A) p e : (p < length E)%nat → <[p := e]> (take (S p) E ++ M) = take p E ++ e :: M.
Proof.
  intros Hp. destruct (lookup_lt_is_Some_2 E p Hp) as [x Hx]. rewrite (take_S_r _ _ _ Hx), <-app_assoc. cbn [app].
  rewrite insert_app_r_alt by (rewrite length_take; lia). rewrite length_take, Nat.min_l, Nat.sub_diag by lia. done.
Qed.

(** What a change of entries leaves alone besides the table and the clusters. *)
Definition edited (s : InodeSt) (E : list FATDirEnt) (s' : InodeSt) : Prop :=
  dir_ok s' ∧ ents s' = E ∧ dir_step s s' ∧ hint_of s' = hint_of s.

Lemma edited_trans s1 E2 s2 E3 s3 : edited s1 E2 s2 → edited s2 E3 s3 → edited s1 E3 s3.
Proof. intros (_ & _ & H1 & H2) (? & ? & H3 & H4). split_and!; [done|done|by eapply dir_step_trans|congruence]. Qed.

Lemma same_dir_edited s s' : same_dir s s' → edited s (ents s) s'.
Proof.
  intros Hs. pose proof Hs as (? & ? & (_ & Hc & _) & _). split_and!; [done|done|by apply same_dir_step|by rewrite Hc].
Qed.

Lemma dir_upd_edited s E s' : dir_upd s E s' → edited s E s'.
Proof.
  intros Hs. pose proof Hs as (? & ? & (_ & Hc & _) & _). split_and!; [done|done|by eapply dir_upd_step|by rewrite Hc].
Qed.

Lemma of_long_length l : long_wf l → length (of_long l) = 32%nat.
Proof. intros H. apply (of_long_wf l H). Qed.

Lemma wp_write_longs ls s p E M :
  dir_ok s → ents s = take p E ++ M → (length ls ≤ p ≤ length E)%nat → Forall long_wf ls →
  wp (st_fold (write_long_ent efs tree_oom) (bwd Enum p) ls)
     (fun _ s' => edited s (take (p - length ls) E ++ reverse (of_long <$> ls) ++ M) s') s.
Proof.
  revert s p M. induction ls as [|l ls IH]; intros s p M Hd HE Hp Hls; cbn [st_fold].
  { wp_step. cbn [length fmap list_fmap reverse rev_append app]. rewrite Nat.sub_0_r. by split_and!. }
  apply Forall_cons in Hls as [Hl Hls]. cbn [length] in Hp. destruct p as [|p]; [lia|].
  assert (length (ents s) = (S p + length M)%nat) as Hlen by (rewrite HE, length_app, length_take; lia).
  destruct (lookup_lt_is_Some_2 (ents s) p) as [e Hep]; [lia|].
  wp_step. unfold write_long_ent at 1. wp_step. eapply wp_mono; [apply (wp_next_bwd s Enum (S p)); [done|lia]|].
  intros x s1 (Hs1 & ->). cbn [abs_prev]. rewrite Hep. cbn [check_dir_ent_legality]. pose proof Hs1 as (Hd1 & He1 & _).
  wp_step. eapply wp_mono; [apply (wp_write_current s1 _ p); [done|done|rewrite He1; lia|by apply of_long_length]|].
  intros [] s2 Hs2. wp_step. rewrite He1, HE, (@insert_take_app FATDirEnt) in Hs2 by lia. pose proof Hs2 as (Hd2 & He2 & _).
  eapply wp_mono; [apply (IH s2 p (of_long l :: M) Hd2 He2); [lia|done]|]. intros it s3 Hs3.
  eapply edited_trans; [by apply same_dir_edited|]. eapply edited_trans; [by apply dir_upd_edited|].
  rewrite fmap_cons, reverse_cons, <-app_assoc. cbn [length app]. by replace (S p - S (length ls))%nat with (p - length ls)%nat by lia.
Qed.

Lemma flat_snoc its d : flat (its ++ [FileItem d]) = flat its ++ file_ents d.
Proof. rewrite flat_app. unfold flat at 2. cbn. by rewrite app_nil_r. Qed.

Lemma file_ents_length d : length (file_ents d) = S (length (d_long d)).
Proof. unfold file_ents. rewrite length_app, length_reverse, length_fmap. cbn. lia. Qed.

Lemma wp_create_dir_ent s its d :
  dir_rep s its → dentry_ok d → expandable s →
  wp (create_dir_ent efs tree_oom (d_short d) (d_long d)) (fun r s' =>
    dir_rep s' (its ++ [FileItem d]) ∧ others_kept efs N s s' ∧
    r = 32 * Z.of_nat (length (flat (its ++ [FileItem d])) - 1)) s.
Proof.
  intros Hr Hok Hx. pose proof (dr_ok s its Hr) as Hd. destruct (dr_ents s its Hr) as (tail & HE & Htail).
  set (h := length (flat its)). set (n := S (length (d_long d))). pose proof (dn_count d Hok) as Hc.
  unfold create_dir_ent. wp_step. replace (1 + Z.of_nat (length (d_long d))) with (Z.of_nat n) by lia.
  eapply wp_mono; [apply (wp_alloc_dir_ent s h n Hd); [apply Hr|rewrite HE, length_app; lia|lia|done]|].
  intros r s1 ((-> & Hd1 & Hh1 & Ht1 & Hlen1 & Hlast1) & Hk1). rewrite HE, take_app_length' in Ht1 by done.
  change (mkDirIter _ Enum BACKWARD) with (bwd Enum (h + n - 1)).
  wp_step. eapply wp_mono; [apply (wp_write_current s1 _ (h + n - 1)); [done|done|lia|apply of_short_wf, Hok]|].
  intros [] s2 Hs2. set (M := of_short (d_short d) :: drop (h + n) (ents s1)).
  assert (ents s2 = take (h + n - 1) (ents s1) ++ M) as He2.
  { destruct Hs2 as (_ & -> & _). rewrite <-(take_drop (h + n) (ents s1)) at 1.
    replace (take (h + n) (ents s1)) with (take (S (h + n - 1)) (ents s1)) by (f_equal; lia). by rewrite (@insert_take_app FATDirEnt) by lia. }
  wp_step. eapply wp_mono; [apply (wp_write_longs (d_long d) s2 (h + n - 1) (ents s1) M); [apply Hs2|done|lia|]|].
  { apply Forall_forall. intros l [i Hl]%list_elem_of_lookup. by destruct (dn_long d Hok i l Hl). }
  intros it s3 Hs3. wp_step. pose proof (edited_trans _ _ _ _ _ (dir_upd_edited _ _ _ Hs2) Hs3) as (Hd3 & He3 & Hst3 & Hh3).
  rewrite flat_snoc. split; [|split; [by eapply kept_after|rewrite length_app, file_ents_length; do 2 f_equal; lia]]. split; [done| | |].
  - apply Forall_app. split; [apply Hr|by apply Forall_singleton].
  - rewrite Hh3, Hh1, flat_snoc, length_app, file_ents_length. done.
  - exists (drop (h + n) (ents s1)). rewrite flat_snoc, He3. split.
    + replace (h + n - 1 - length (d_long d))%nat with h by lia. rewrite Ht1. unfold M, file_ents. by rewrite <-!app_assoc.
    + intros e He. apply Hlast1. by rewrite head_lookup, lookup_drop, Nat.add_0_r in He.
Qed.

(** ** Giving space back *)

Lemma wp_shrink s h :
  dir_ok s → hint_of s = 32 * Z.of_nat h → (h ≤ length (ents s))%nat →
  wp (shrink_dir_size efs tree_oom) (fun _ s' => dir_ok s' ∧ others_kept efs N s s' ∧ hint_of s' = hint_of s ∧
    ∃ m, (h ≤ m)%nat ∧ ents s' = take m (ents s)) s.
Proof.
  intros Hd Hh Hle. pose proof (dk_inv s Hd) as Hi. pose proof epc_pos as [He Hc]. pose proof (dk_size s Hd) as Hsz.
  pose proof (ents_length s Hd) as L. pose proof (iv_size _ _ _ _ Hi) as Hs0.
  destruct (total_clus_for efs N Hgeo (hint_of s) ltac:(lia)) as (Ht & Hb & Hpos).
  assert (0 < length (cl_of s))%nat as Hne by (pose proof (dk_clus s Hd); destruct (cl_of s); [done|cbn; lia]).
  set (n := clus_for efs (hint_of s)) in *. assert (n ≤ Z.of_nat (length (cl_of s))) as Hn by nia.
  set (k := Z.max n 1). assert (Z.max (wrap32 (n * clus_size efs)) (clus_size efs) = k * clus_size efs) as Hk.
  { rewrite wrap32_small by (unfold is_u32; nia). unfold k. nia. }
  unfold shrink_dir_size, get_content. repeat wp_step. eapply wp_lift; [exact Ht|]. rewrite Hk.
  assert (1 ≤ k ≤ Z.of_nat (length (cl_of s))) as Hkr by (unfold k; lia).
  eapply wp_mono; [apply (wp_modify_shrink efs tree_oom N R Hgeo s (k * clus_size efs - size_of s) false Hi); [nia|]|].
  { intros id pc Hcd _. by apply (dk_unshared s Hd id). }
  replace (size_of s + (k * clus_size efs - size_of s)) with (k * clus_size efs) by lia.
  intros [] s' (Hi' & Hkp' & Hs' & Hdd & Hkeep & Hcl).
  assert (clus_for efs (k * clus_size efs) = k) as Hck.
  { destruct (total_clus_for efs N Hgeo (k * clus_size efs) ltac:(nia)) as (_ & Hkb & _). nia. }
  rewrite Hck in Hcl. assert (length (cl_of s') = Z.to_nat k) as Hl' by (rewrite Hcl, length_take; lia).
  assert (dir_ok s') as Hd'.
  { destruct Hkeep as (Hrm & Hu & _ & Hft & _). split; try done.
    - pose proof (dk_roomy s Hd) as Hr. unfold roomy, npg in *. rewrite Hrm, Hl'. pose proof (ppc_pos efs N Hgeo) as [Hp _]. nia.
    - apply Hu, Hd.
    - rewrite Hft. apply Hd.
    - rewrite Hs', Hl'. lia.
    - intros E0. rewrite E0 in Hl'. cbn in Hl'. lia. }
  split; [done|]. split; [done|]. split; [by destruct Hkeep as (_ & _ & ? & _)|]. pose proof (ents_length s' Hd') as L'.
  exists (length (ents s')). split.
  - assert (Z.of_nat h ≤ Z.of_nat (length (ents s'))); [|lia]. assert (hint_of s ≤ size_of s'); [|lia]. rewrite Hs'. unfold k. nia.
  - apply list_eq. intros j. destruct (decide (j < length (ents s'))%nat) as [Hj|Hj].
    + rewrite lookup_take_lt, !ents_lookup_lt by nia. f_equal. unfold entry_at. apply list_fmap_ext.
      intros i y Hy%list_elem_of_lookup_2%elem_of_seqZ. apply Hdd. lia.
    + rewrite lookup_take_ge, lookup_ge_None_2 by lia. done.
Qed.

(** [hint] moves back over entries that are not in use. *)
Lemma wp_move_hint fuel s p F T :
  dir_ok s → ents s = F ++ T → length F = p → (p < fuel)%nat → hint_of s = 32 * Z.of_nat p →
  wp (move_hint_loop efs tree_oom fuel (bwd Enum p)) (fun _ s' => dir_ok s' ∧ dir_step s s' ∧ ∃ F0 U,
    F = F0 ++ U ∧ Forall (fun e => unused e = true) U ∧ (∀ e, last F0 = Some e → unused e = false) ∧
    ents s' = F0 ++ replicate (length U) unused_and_last_entry ++ T ∧ hint_of s' = 32 * Z.of_nat (length F0)) s.
Proof.
  revert s p F T. induction fuel as [|fuel IH]; intros s p F T Hd HE Hp Hf Hh; [lia|]. cbn [move_hint_loop].
  assert (length (ents s) = (p + length T)%nat) as Hlen by (rewrite HE, length_app; lia).
  wp_step. eapply wp_mono; [apply (wp_next_bwd s Enum p); [done|lia]|]. intros x s1 (Hs1 & ->). pose proof Hs1 as (Hd1 & He1 & _).
  destruct p as [|p]; cbn [abs_prev].
  { apply nil_length_inv in Hp as ->. eapply wp_mono; [by apply wp_put_hint|]. intros [] s2 (Hd2 & He2 & Hh2 & Hst2).
    split; [done|]. split; [eapply dir_step_trans; [by apply same_dir_step|done]|]. exists [], []. rewrite He2, He1. by split_and!. }
  destruct F as [|e F _] using rev_ind; [done|]. rewrite length_app in Hp. cbn [length] in Hp.
  assert (length F = p) as HpF by lia. rewrite <-app_assoc in HE. cbn [app] in HE.
  assert (ents s !! p = Some e) as Hep by (rewrite HE; by apply list_lookup_middle). rewrite Hep. cbn [check_dir_ent_legality].
  destruct (unused e) eqn:Eu.
  - wp_step. eapply wp_unwrap; [done|]. wp_step. eapply wp_mono; [by apply wp_put_hint|]. intros [] s2 (Hd2 & He2 & Hh2 & Hst2).
    wp_step. eapply wp_mono; [apply (wp_write_current s2 _ p); [done|done|rewrite He2, He1; lia|done]|]. intros [] s3 Hs3.
    pose proof (dir_upd_edited _ _ _ Hs3) as (Hd3 & He3 & Hst3 & Hh3).
    rewrite He2, He1, HE, (@insert_app_r_alt FATDirEnt), HpF, Nat.sub_diag in He3 by lia. cbn in He3.
    eapply wp_mono; [apply (IH s3 p F (unused_and_last_entry :: T)); [done|done|done|lia|congruence]|].
    intros [] s' (Hd' & Hst' & F0 & U & HF & HU & Hl & HE' & Hh'). split; [done|]. split.
    { eapply dir_step_trans; [by apply same_dir_step|]. eapply dir_step_trans; [done|]. by eapply dir_step_trans. }
    exists F0, (U ++ [e]). split_and!; [by rewrite app_assoc, HF|by apply Forall_app; split; [|apply Forall_singleton]|done| |done].
    rewrite HE', length_app, replicate_add, <-!app_assoc. done.
  - wp_step. split; [done|]. split; [by apply same_dir_step|]. exists (F ++ [e]), []. rewrite app_nil_r. split_and!; try done.
    + intros x. rewrite last_snoc. by intros [= <-].
    + rewrite He1, HE. cbn. by rewrite <-app_assoc.
    + rewrite length_app. cbn [length]. destruct Hs1 as (_ & _ & (_ & -> & _) & _). rewrite Hh. lia.
Qed.

(** ** Deleting entries *)

Lemma prev_used_short its X m o it :
  Forall item_ok its → m = length (flat its) → abs_prev Used (flat its ++ X) m = (o, it) → ∀ e, o = Some e → is_long e = false.
Proof.
  revert X m. induction its as [|x its IH] using rev_ind; intros X m Hok -> Hp e ->; [done|].
  apply Forall_app in Hok as [Hok Hx]. rewrite Forall_singleton in Hx. rewrite flat_app in Hp. destruct x as [h|d]; cbn [flat mbind list_bind item_ents app] in Hp.
  - change (flat [Hole h]) with [h] in Hp. rewrite length_app, Nat.add_1_r in Hp. cbn [abs_prev] in Hp.
    rewrite <-app_assoc in Hp. cbn [app] in Hp. rewrite list_lookup_middle in Hp by done. destruct Hx as [_ Hx]. cbn [check_dir_ent_legality] in Hp.
    unfold unused in Hp. rewrite Hx, orb_true_r in Hp. by apply (IH (h :: X) _ Hok eq_refl Hp).
  - change (flat [FileItem d]) with (file_ents d ++ []) in Hp. rewrite app_nil_r in Hp. unfold file_ents in Hp.
    rewrite (app_assoc (flat its)), (length_app (flat its ++ _)), Nat.add_1_r in Hp. cbn [abs_prev] in Hp. rewrite <-app_assoc in Hp. cbn [app] in Hp.
    rewrite list_lookup_middle in Hp by done. cbn [check_dir_ent_legality] in Hp. rewrite (dn_used d Hx) in Hp. cbn [negb] in Hp. injection Hp as <- <-. by apply dentry_not_long.
Qed.

Definition hole : FATDirEnt := unused_not_last_entry.

Lemma replicate_snoc {A} n (x : A) M : replicate n x ++ x :: M = replicate (S n) x ++ M.
Proof. induction n as [|n IH]; [done|]. cbn [replicate app]. by rewrite IH. Qed.

Lemma wp_delete_longs ls fuel s A M :
  dir_ok s → ls ≠ [] → ents s = A ++ reverse (of_long <$> ls) ++ M →
  (∀ i l, ls !! i = Some l → is_long (of_long l) = true ∧ unused (of_long l) = false ∧
     is_last_long_dir_ent (of_long l) = (S i =? length ls)%nat) → (length ls ≤ fuel)%nat →
  wp (delete_long_loop efs tree_oom fuel (bwd Used (length A + length ls - 1)))
     (fun r s' => r = Some tt ∧ edited s (A ++ replicate (length ls) hole ++ M) s') s.
Proof.
  revert fuel s M. induction ls as [|l ls IH]; intros fuel s M Hd Hne HE Hls Hf; [done|]. destruct fuel as [|fuel]; [cbn in Hf; lia|].
  cbn [length delete_long_loop]. replace (length A + S (length ls) - 1)%nat with (length A + length ls)%nat by lia. set (c := (length A + length ls)%nat).
  destruct (Hls 0%nat l eq_refl) as (Hlong & Hu & Hlast).
  rewrite fmap_cons, reverse_cons, <-app_assoc in HE. cbn [app] in HE.
  assert (length (A ++ reverse (of_long <$> ls)) = c) as Hc by (rewrite length_app, length_reverse, length_fmap; done).
  assert (ents s = (A ++ reverse (of_long <$> ls)) ++ of_long l :: M) as HE' by (by rewrite <-app_assoc).
  wp_step. eapply wp_mono; [apply (wp_current_clone s (bwd Used c) c (of_long l) Hd eq_refl); rewrite HE'; by apply list_lookup_middle|].
  intros x s1 (Hs1 & ->). rewrite Hlong. cbn [negb]. pose proof Hs1 as (Hd1 & He1 & _).
  wp_step. eapply wp_mono; [apply (wp_write_current s1 _ c); [done|done|rewrite He1, HE', length_app; cbn; lia|done]|].
  intros [] s2 Hs2. pose proof Hs2 as (Hd2 & He2 & _).
  rewrite He1, HE', (@insert_app_r_alt FATDirEnt), Hc, Nat.sub_diag in He2 by lia. cbn [insert list_insert] in He2. fold hole in He2.
  wp_step. eapply wp_mono; [apply (wp_next_bwd s2 Used c Hd2); rewrite He2, length_app; lia|]. intros [o it] s3 (Hs3 & Hr).
  pose proof Hs3 as (Hd3 & He3 & _). rewrite He2 in He3.
  assert (edited s (A ++ reverse (of_long <$> ls) ++ hole :: M) s3) as Hed.
  { eapply edited_trans; [by apply same_dir_edited|]. eapply edited_trans; [by apply dir_upd_edited|].
    pose proof (same_dir_edited _ _ Hs3) as Hx. by rewrite He2, <-app_assoc in Hx. }
  destruct ls as [|l2 ls].
  { rewrite Hlast. cbn [length Nat.eqb]. wp_step. split; [done|]. exact Hed. }
  destruct (Hls 1%nat l2 eq_refl) as (Hlong2 & Hu2 & _). rewrite Hlast. cbn [length Nat.eqb].
  assert (it = bwd Used (length A + length (l2 :: ls) - 1)) as ->.
  { unfold c in Hr. cbn [length] in Hr |- *. rewrite Nat.add_succ_r in Hr. cbn [abs_prev] in Hr. rewrite He2, fmap_cons, reverse_cons, <-!app_assoc in Hr.
    rewrite (app_assoc A) in Hr. cbn [app] in Hr. rewrite list_lookup_middle in Hr by (rewrite length_app, length_reverse, length_fmap; lia).
    cbn [check_dir_ent_legality] in Hr. rewrite Hu2 in Hr. injection Hr as _ ->. f_equal. lia. }
  eapply wp_mono; [apply (IH fuel s3 (hole :: M) Hd3); [done|by rewrite <-app_assoc in He3| |cbn in *; lia]|].
  { intros i q Hq. destruct (Hls (S i) q Hq) as (? & ? & ?). by split_and!. }
  intros r s' (-> & Hs'). split; [done|]. eapply edited_trans; [exact Hed|].
  rewrite replicate_snoc in Hs'. exact Hs'.
Qed.

Lemma hole_ok : item_ok (Hole hole).
Proof. done. Qed.

Lemma dentries_app its1 its2 : dentries (its1 ++ its2) = dentries its1 ++ dentries its2.
Proof. apply omap_app. Qed.

Lemma dentries_holes n : dentries (replicate n (Hole hole)) = [].
Proof. by induction n. Qed.

Lemma flat_holes n : flat (replicate n (Hole hole)) = replicate n hole.
Proof. induction n as [|n IH]; [done|]. cbn [replicate]. by rewrite flat_cons, IH. Qed.

(** Items without the entries at the end that are not in use. *)
Lemma strip_holes its F0 U :
  Forall item_ok its → flat its = F0 ++ U → Forall (fun e => unused e = true) U → (∀ e, last F0 = Some e → unused e = false) →
  ∃ its0 its1, its = its0 ++ its1 ∧ flat its0 = F0 ∧ dentries its1 = [].
Proof.
  revert U. induction its as [|x its IH] using rev_ind; intros U Hok HF HU Hl.
  { symmetry in HF. apply app_nil in HF as [-> ->]. by exists [], []. }
  apply Forall_app in Hok as [Hok Hx]. rewrite Forall_singleton in Hx. rewrite flat_app in HF. destruct x as [h|d].
  - change (flat [Hole h]) with [h] in HF. destruct Hx as [_ Hx]. assert (unused h = true) as Hh by (unfold unused; by rewrite Hx, orb_true_r).
    destruct U as [|u U _] using rev_ind.
    { rewrite app_nil_r in HF. specialize (Hl h). rewrite <-HF, last_snoc, Hh in Hl. by specialize (Hl eq_refl). }
    rewrite app_assoc in HF. apply app_inj_tail in HF as [HF ->]. apply Forall_app in HU as [HU _].
    destruct (IH U Hok HF HU Hl) as (its0 & its1 & -> & H1 & H2). exists its0, (its1 ++ [Hole u]).
    by rewrite dentries_app, H2, <-app_assoc.
  - destruct U as [|u U _] using rev_ind.
    { rewrite app_nil_r in HF. exists (its ++ [FileItem d]), []. rewrite app_nil_r, flat_app. done. }
    exfalso. change (flat [FileItem d]) with (file_ents d ++ []) in HF. rewrite app_nil_r in HF. unfold file_ents in HF. rewrite !app_assoc in HF.
    apply app_inj_tail in HF as [_ <-]. apply Forall_app in HU as [_ HU]. rewrite Forall_singleton in HU. by rewrite (dn_used d Hx) in HU.
Qed.

(** The position of the short entry of a file. *)
Definition short_pos (its1 : list item) (d : dentry) : nat := (length (flat its1) + length (d_long d))%nat.

(** The end of [delete_dir_ent]: [hint] and the size follow what is left. *)
Lemma wp_trim_dir s its tail :
  dir_ok s → Forall item_ok its → hint_of s = 32 * Z.of_nat (length (flat its)) →
  ents s = flat its ++ tail → (∀ e, head tail = Some e → last_and_unused e = true) →
  wp (c ← get_content; fuel ← entries_fuel;
      move_hint_loop efs tree_oom fuel (mkDirIter (Some (fc_hint c)) Enum BACKWARD);;
      shrink_dir_size efs tree_oom;; mret (Some tt))
     (fun r s' => r = Some tt ∧ others_kept efs N s s' ∧ ∃ its', dir_rep s' its' ∧ dentries its' = dentries its) s.
Proof.
  intros Hd Hok Hh HE Ht. unfold get_content. do 2 wp_step. wp_step. apply wp_entries_fuel; [done|]. wp_step.
  change (file_content _) with (file_content s.2). rewrite Hh. change (mkDirIter _ Enum BACKWARD) with (bwd Enum (length (flat its))).
  eapply wp_mono; [apply (wp_move_hint _ s _ (flat its) tail); try done; rewrite HE, length_app; lia|].
  intros [] s1 (Hd1 & Hst1 & F0 & U & HF & HU & Hl & HE1 & Hh1). wp_step.
  eapply wp_mono; [apply (wp_shrink s1 (length F0)); [done|done|rewrite HE1, length_app; lia]|].
  intros [] s2 (Hd2 & Hk2 & Hh2 & m & Hm & HE2). wp_step. split; [done|]. split; [by eapply kept_before|].
  destruct (strip_holes its F0 U Hok HF HU Hl) as (its0 & its1 & -> & Hf0 & Hde). exists its0. apply Forall_app in Hok as [Hok0 _].
  split; [|by rewrite dentries_app, Hde, app_nil_r]. split; [done|done|by rewrite Hh2, Hh1, Hf0|].
  exists (take (m - length F0) (replicate (length U) unused_and_last_entry ++ tail)).
  rewrite HE2, HE1, Hf0, take_app_ge by lia. split; [done|]. intros e. destruct (m - length F0)%nat; [done|].
  destruct U; [|by intros [= <-]]. cbn [length replicate app]. intros He. apply Ht. by destruct tail.
Qed.

(** The short entry is overwritten and the entry in use before it is sought. *)
Lemma wp_delete_start s its1 d M (K : option FATDirEnt * DirIter → ST InodeSt (option unit)) P :
  dir_ok s → ents s = (flat its1 ++ reverse (of_long <$> d_long d)) ++ of_short (d_short d) :: M →
  (∀ s2 o it, edited s ((flat its1 ++ reverse (of_long <$> d_long d)) ++ hole :: M) s2 →
     abs_prev Used ((flat its1 ++ reverse (of_long <$> d_long d)) ++ hole :: M) (short_pos its1 d) = (o, it) → wp (K (o, it)) P s2) →
  wp (write_to_current_ent efs tree_oom (bwd Used (short_pos its1 d)) unused_not_last_entry;;
      iter_next efs tree_oom (bwd Used (short_pos its1 d)) ≫= K) P s.
Proof.
  intros Hd HE HK. set (L := reverse (of_long <$> d_long d)) in *.
  assert (length (flat its1 ++ L) = short_pos its1 d) as Hp by (unfold short_pos, L; by rewrite length_app, length_reverse, length_fmap).
  wp_step. eapply wp_mono; [apply (wp_write_current s _ (short_pos its1 d)); [done|done|rewrite HE, length_app, Hp; cbn; lia|done]|].
  intros [] s1 Hs1. pose proof (dir_upd_edited _ _ _ Hs1) as Hed1. pose proof Hed1 as (Hd1 & He1 & _).
  rewrite HE, (@insert_app_r_alt FATDirEnt), Hp, Nat.sub_diag in He1, Hed1 by lia. cbn [insert list_insert] in He1, Hed1. fold hole in He1, Hed1.
  wp_step. eapply wp_mono; [apply (wp_next_bwd s1 Used (short_pos its1 d) Hd1); rewrite He1, length_app, Hp; lia|].
  intros [o it] s2 (Hs2 & Hprev). pose proof (same_dir_edited _ _ Hs2) as Hed2. rewrite He1 in Hed2, Hprev.
  apply HK; [by eapply edited_trans|done].
Qed.

(** In front of the short entry of a file with a long name is its first long
    entry. *)
Lemma prev_first_long its1 d l ls X :
  dentry_ok d → d_long d = l :: ls →
  abs_prev Used ((flat its1 ++ reverse (of_long <$> d_long d)) ++ X) (short_pos its1 d) =
    (Some (of_long l), bwd Used (short_pos its1 d - 1)) ∧ is_long (of_long l) = true.
Proof.
  intros Hd El. destruct (dn_long d Hd 0 l ltac:(by rewrite El)) as (_ & Hlong & Hu & _). split; [|done]. unfold short_pos.
  replace (length (flat its1) + length (d_long d))%nat with (S (length (flat its1) + length ls)) by (rewrite El; cbn; lia).
  cbn [abs_prev]. rewrite El, fmap_cons, reverse_cons, app_assoc, <-(app_assoc _ [of_long l]). cbn [app].
  rewrite list_lookup_middle by (rewrite length_app, length_reverse, length_fmap; done). cbn [check_dir_ent_legality].
  rewrite Hu. cbn [negb]. do 2 f_equal. lia.
Qed.

(** The items with a file made unused. *)
Definition blanked (its1 : list item) (d : dentry) (its2 : list item) : list item :=
  its1 ++ replicate (S (length (d_long d))) (Hole hole) ++ its2.

Lemma blanked_spec s its1 d its2 :
  dir_rep s (its1 ++ FileItem d :: its2) →
  Forall item_ok (blanked its1 d its2) ∧ dentries (blanked its1 d its2) = dentries (its1 ++ its2) ∧
  hint_of s = 32 * Z.of_nat (length (flat (blanked its1 d its2))) ∧
  flat (blanked its1 d its2) = flat its1 ++ replicate (S (length (d_long d))) hole ++ flat its2.
Proof.
  intros Hr. pose proof (dr_items _ _ Hr) as Hok. apply Forall_app in Hok as [Hok1 [_ Hok2]%Forall_cons]. unfold blanked. split_and!.
  - apply Forall_app. split; [done|]. apply Forall_app. split; [|done]. by apply Forall_replicate.
  - by rewrite !dentries_app, dentries_holes.
  - rewrite (dr_hint _ _ Hr), !flat_app, flat_cons, flat_holes, !length_app, length_replicate. cbn [item_ents]. by rewrite file_ents_length.
  - by rewrite !flat_app, flat_holes.
Qed.

Lemma wp_delete_dir_ent s its1 d its2 :
  dir_rep s (its1 ++ FileItem d :: its2) →
  wp (delete_dir_ent efs tree_oom (32 * Z.of_nat (short_pos its1 d))) (fun r s' =>
    r = Some tt ∧ others_kept efs N s s' ∧ ∃ its', dir_rep s' its' ∧ dentries its' = dentries (its1 ++ its2)) s.
Proof.
  intros Hr. pose proof (dr_ok _ _ Hr) as Hd. destruct (dr_ents _ _ Hr) as (tail & HE & Ht).
  pose proof (dr_items _ _ Hr) as Hok. apply Forall_app in Hok as [Hok1 [Hdk _]%Forall_cons]. cbn in Hdk.
  destruct (blanked_spec s its1 d its2 Hr) as (Hbi & Hbd & Hbh & Hbf).
  rewrite flat_app, flat_cons in HE. cbn [item_ents] in HE. unfold file_ents in HE. rewrite <-!app_assoc in HE. cbn [app] in HE. rewrite app_assoc in HE.
  unfold delete_dir_ent. change (mkDirIter _ Used BACKWARD) with (bwd Used (short_pos its1 d)).
  eapply (wp_delete_start s its1 d); [done|done|]. intros s2 o it (Hd2 & He2 & Hst2 & Hh2) Hprev.
  destruct (d_long d) as [|l ls] eqn:El.
  - cbn [fmap list_fmap reverse rev_append] in He2, Hprev. rewrite app_nil_r in He2, Hprev. unfold short_pos in Hprev. rewrite El in Hprev. cbn [length] in Hprev. rewrite Nat.add_0_r in Hprev.
    assert (match o with Some e => is_long e = false | None => True end) as Ho.
    { destruct o as [e|]; [|done]. by apply (prev_used_short its1 _ _ _ _ Hok1 eq_refl Hprev). }
    assert (wp (mret (Some tt)) (fun r s' => r = Some tt ∧ others_kept efs N s s' ∧ ∃ its', dir_rep s' its' ∧ dentries its' = dentries (its1 ++ its2)) s2) as Hret.
    { wp_step. split; [done|]. split; [by apply kept_step|]. exists (blanked its1 d its2). split; [|done]. split; [done|done|congruence|].
      exists tail. rewrite He2, Hbf, <-!app_assoc. done. }
    destruct o as [e|]; [by rewrite Ho|done].
  - rewrite <-El in *. destruct (prev_first_long its1 d l ls (hole :: flat its2 ++ tail) Hdk El) as [Hpl Hlong]. rewrite Hprev in Hpl. injection Hpl as -> ->.
    rewrite Hlong. cbn [negb]. wp_step. apply wp_entries_fuel; [done|]. wp_step.
    eapply wp_mono; [apply (wp_delete_longs (d_long d) _ s2 (flat its1) (hole :: flat its2 ++ tail)); [done|by rewrite El|by rewrite <-app_assoc in He2| |]|].
    { intros i q Hq. by destruct (dn_long d Hdk i q Hq) as (_ & ? & ? & _ & ?). }
    { rewrite He2, !length_app, length_reverse, length_fmap. lia. }
    intros r s3 (-> & Hs3). rewrite replicate_snoc in Hs3. destruct Hs3 as (Hd3 & He3 & Hst3 & Hh3).
    eapply wp_mono; [apply (wp_trim_dir s3 (blanked its1 d its2) tail); [done|done|congruence| |done]|].
    { by rewrite He3, Hbf, <-!app_assoc. }
    intros r s' (-> & Hk' & its'' & Hr' & Hde). split; [done|]. split; [|exists its''; by rewrite Hde].
    eapply kept_before; [|done]. by eapply dir_step_trans.
Qed.

(** ** New files *)

Lemma filter_find (P : FATDirEnt → Prop) `{!∀ e, Decision (P e)} l :
  match list_find P l with
  | Some (k, e) => filter P l = e :: filter P (drop (S k) l) ∧ l !! k = Some e
  | None => filter P l = []
  end.
Proof.
  induction l as [|x l IH]; [done|]. cbn [list_find]. rewrite filter_cons. destruct (decide (P x)); [done|].
  destruct (list_find P l) as [[k e]|]; cbn; [done|done].
Qed.

Lemma wp_collect_iter fuel s m p v :
  dir_ok s → (p ≤ length (range m (ents s)))%nat → (length (filter (legal m) (drop p (range m (ents s)))) < fuel)%nat →
  wp (collect_loop efs tree_oom fuel (fwd m p) v) (fun r s' => same_dir s s' ∧ r = v ++ filter (legal m) (drop p (range m (ents s)))) s.
Proof.
  revert s p v. induction fuel as [|fuel IH]; intros s p v Hd Hp Hf; [lia|]. cbn [collect_loop].
  wp_step. eapply wp_mono; [by apply wp_next_fwd|]. intros x s1 (Hs1 & ->). unfold abs_next. pose proof Hs1 as (Hd1 & He1 & _).
  pose proof (filter_find (legal m) (drop p (range m (ents s)))) as Hfind.
  destruct (list_find _ (drop p (range m (ents s)))) as [[k e]|].
  - destruct Hfind as [Hfil Hk]. rewrite drop_drop in Hfil. rewrite lookup_drop in Hk. pose proof (lookup_lt_Some _ _ _ Hk).
    rewrite Hfil in Hf |- *. replace (p + S k)%nat with (S (p + k)) in * by lia. cbn [length] in Hf.
    eapply wp_mono; [apply (IH s1 (S (p + k))); [done|rewrite He1; lia|rewrite He1; lia]|]. intros r s2 (Hs2 & ->).
    split; [by eapply same_dir_trans|]. unfold vec_push. by rewrite He1, <-app_assoc.
  - rewrite Hfind, app_nil_r. by wp_step.
Qed.

Lemma filter_short_file d : dentry_ok d → filter (legal Short) (file_ents d) = [of_short (d_short d)].
Proof.
  intros Hd. unfold file_ents. rewrite filter_app.
  assert (filter (legal Short) (reverse (of_long <$> d_long d)) = []) as ->.
  { assert (∀ l, (∀ e, e ∈ l → ¬ legal Short e) → filter (legal Short) l = []) as Hnone.
    { induction l as [|x l IH]; intros Hl; [done|]. rewrite filter_cons, decide_False by (apply Hl; set_solver).
      apply IH. intros e He. apply Hl. set_solver. }
    apply Hnone. intros e (l & -> & [i Hi]%list_elem_of_lookup)%elem_of_reverse%list_elem_of_fmap.
    destruct (dn_long d Hd i l Hi) as (_ & Hl & _). unfold legal. cbn [check_dir_ent_legality]. unfold is_short. rewrite Hl. by rewrite andb_false_r. }
  cbn [app]. rewrite filter_cons, decide_True; [done|]. unfold legal. cbn [check_dir_ent_legality]. unfold is_short. by rewrite (dn_used d Hd), (dentry_not_long d Hd).
Qed.

Lemma filter_short_flat its : Forall item_ok its → filter (legal Short) (flat its) = (of_short ∘ d_short) <$> dentries its.
Proof.
  induction 1 as [|x its Hx Hits IH]; [done|]. rewrite flat_cons, filter_app, IH. destruct x as [h|d].
  - destruct Hx as [_ Hx]. cbn [item_ents]. rewrite filter_cons, decide_False; [done|]. unfold legal. cbn [check_dir_ent_legality]. unfold unused. by rewrite Hx, orb_true_r.
  - cbn [item_ents]. by rewrite filter_short_file.
Qed.

Lemma wp_short_ents s its :
  dir_rep s its → wp (iter_collect efs tree_oom (mkDirIter None Short FORWARD)) (fun r s' => same_dir s s' ∧ r = (of_short ∘ d_short) <$> dentries its) s.
Proof.
  intros Hr. pose proof (dr_ok _ _ Hr) as Hd. pose proof (filter_short_flat its (dr_items _ _ Hr)) as Hf. unfold iter_collect. wp_step. apply wp_entries_fuel; [done|].
  change (mkDirIter None Short FORWARD) with (fwd Short 0).
  assert (drop 0 (range Short (ents s)) = flat its) as Hv by (rewrite drop_0; by apply dir_rep_visible).
  eapply wp_mono; [apply (wp_collect_iter _ s Short 0 [] Hd); [lia|]|].
  - rewrite Hv. destruct (dr_ents _ _ Hr) as (tail & -> & _). rewrite length_app. pose proof (length_filter (legal Short) (flat its)). lia.
  - intros r s' (Hs' & ->). rewrite Hv, Hf. done.
Qed.

(** A name that a file can have here. *)
Record name_ok (name : list Z) : Prop := {
  nm_ascii : ascii name;
  nm_zero : 0 ∉ name;
  nm_len : 0 < str_len name < 256;
  nm_legal : short_name_legal name = true;
}.

Lemma name_ok_long name : name_ok name → long_name_ok name.
Proof. intros [Ha H0 Hl _]. by apply ascii_long_name_ok. Qed.

(** The entry of a new file with the short name [sn]. *)
Definition new_dentry (name sn : list Z) (clus : Z) (ft : DiskInodeType) : dentry :=
  mkDentry name (name_ents name) (from_name sn clus ft).

Lemma short_used (e : FATShortDirEnt) c : short_wf e → se_name e !! 0%nat = Some c → short_char c → unused (of_short e) = false.
Proof.
  intros Hwf Hc (Ha & H0 & _). unfold unused, last_and_unused, unused_not_last. rewrite ord_of_short by done.
  rewrite (nth_lookup_Some _ _ _ _ Hc). unfold is_ascii in Ha. apply andb_true_iff in Ha as [?%Z.leb_le ?%Z.ltb_lt].
  apply orb_false_iff. unfold DIR_ENTRY_LAST_AND_UNUSED, DIR_ENTRY_UNUSED. split; apply Z.eqb_neq; lia.
Qed.

Lemma new_dentry_ok name sn clus ft c :
  name_ok name → length sn = 11%nat → Forall is_u8 sn → sn !! 0%nat = Some c → short_char c → dentry_ok (new_dentry name sn clus ft).
Proof.
  intros Hn Hl Hu Hc Hs. pose proof (name_ok_long name Hn) as Hln. pose proof (long_ent_num_range name (nm_len name Hn)) as Hr.
  pose proof (name_ents_length name) as Hnl. destruct (name_ents_read name Hln) as [Hcat Hread].
  split; cbn [new_dentry d_short d_long d_name].
  - by apply from_name_wf.
  - unfold from_name. cbn. by case_bool_decide.
  - apply (short_used _ c); [by apply from_name_wf|done|done].
  - destruct (name_ents name); [cbn [length] in Hnl; lia|done].
  - intros _ ->. pose proof (nm_len _ Hn). cbn in *. lia.
  - lia.
  - intros i l Hi. destruct (Hread i l Hi) as (? & ? & ? & ?). rewrite Hnl. split_and!; try done. by apply (name_ents_lookup name i l Hln Hi).
Qed.

Lemma wp_gen_dir_ent s its name clus ft :
  dir_rep s its → name_ok name → (length (dentries its) < 4446)%nat →
  wp (gen_dir_ent_lock efs tree_oom name clus ft) (fun r s' => same_dir s s' ∧ ∃ sn,
    r = (d_short (new_dentry name sn clus ft), d_long (new_dentry name sn clus ft)) ∧ dentry_ok (new_dentry name sn clus ft) ∧
    sn ∉ (se_name ∘ d_short <$> dentries its)) s.
Proof.
  intros Hr Hn Hc. unfold gen_dir_ent_lock. wp_step. eapply wp_mono; [by apply wp_short_ents|]. intros v s1 (Hs1 & ->).
  set (v := _ <$> dentries its). assert (length v = length (dentries its)) as Hv by apply length_fmap.
  pose proof (gen_short_name_slice_spec (S (length v)) v name (nm_ascii _ Hn) (nm_zero _ Hn) ltac:(lia) ltac:(lia)) as Hsp.
  rewrite (nm_legal _ Hn) in Hsp. destruct Hsp as (sn & c & Hsn & Hl & Hu & Hni & Hc0 & Hsc & _).
  eapply wp_lift.
  { unfold gen_dir_ent, gen_name_slice. rewrite Hsn. reflexivity. }
  split; [done|]. exists sn. split; [done|]. split; [by eapply new_dentry_ok|]. intros Hin. apply Hni.
  apply list_elem_of_fmap in Hin as (d & -> & Hd). apply list_elem_of_fmap. exists (of_short (d_short d)). split.
  - unfold get_short_name_array. rewrite short_entry_of_short; [done|].
    assert (item_ok (FileItem d)) as Hok; [|apply Hok]. pose proof (dr_items _ _ Hr) as Hits. rewrite Forall_forall in Hits. apply Hits.
    unfold dentries in Hd. apply list_elem_of_omap in Hd as ([h|d'] & Hin & Heq); [done|]. by injection Heq as <-.
  - apply list_elem_of_fmap. by exists d.
Qed.

(** The inode of an empty file. *)
Definition empty_inode : Inode := mkInode (mkFileContent 0 [] 0) [] [] File false (mkInodeTime 0 0 0).

Lemma from_ent_file fuel sn sh : from_ent efs tree_oom fuel (from_name sn 0 File) sh = Ok (empty_inode, mkShared (sh_fat sh) (sh_fa sh) (sh_pte sh)).
Proof. done. Qed.

Lemma wp_create_file fuel s its name :
  dir_rep s its → name_ok name → (length (dentries its) < 4446)%nat → expandable s →
  wp (create_lock efs tree_oom fuel name File) (fun r s' => ∃ sn,
    let d := new_dentry name sn 0 File in
    dentry_ok d ∧ (sn ∉ (se_name ∘ d_short <$> dentries its)) ∧ dir_rep s' (its ++ [FileItem d]) ∧ others_kept efs N s s' ∧
    r = Some (empty_inode, 32 * Z.of_nat (short_pos its d))) s.
Proof.
  intros Hr Hn Hc Hx. pose proof (nm_len _ Hn). unfold create_lock, is_file. repeat wp_step.
  rewrite (dk_type s (dr_ok s its Hr)), bool_decide_false by done. rewrite (proj2 (Z.leb_gt 256 _)) by lia. cbn [orb].
  unfold first_clus_of. rewrite bool_decide_false by done. repeat wp_step.
  eapply wp_mono; [by apply (wp_gen_dir_ent s its name 0 File)|]. intros r s1 (Hs1 & sn & -> & Hok & Hni). wp_step.
  eapply wp_mono; [apply (wp_create_dir_ent s1 its (new_dentry name sn 0 File)); [by eapply dir_rep_same|done|]|].
  { eapply expandable_step; [by apply same_dir_step|done]. }
  intros r s2 (Hr2 & Hk2 & ->). wp_step. eapply wp_intro.
  { unfold on_shared. cbn [new_dentry d_short]. rewrite from_ent_file. reflexivity. }
  wp_step. exists sn. split; [done|]. split; [done|].
  assert ((mkShared (sh_fat s2.1) (sh_fa s2.1) (sh_pte s2.1), s2.2) = s2) as -> by (by destruct s2 as [[] ?]).
  split; [done|]. split; [eapply kept_before; [by apply same_dir_step|done]|].
  do 5 f_equal. rewrite flat_snoc, length_app, file_ents_length. unfold short_pos. lia.
Qed.

(** ** Finding what was created *)

Lemma files_from_app its1 its2 p : files_from (its1 ++ its2) p = files_from its1 p ++ files_from its2 (p + length (flat its1)).
Proof.
  revert p. induction its1 as [|[h|d] its1 IH]; intros p; cbn [files_from app].
  - cbn. by rewrite Nat.add_0_r.
  - rewrite IH, flat_cons, length_app. cbn. do 2 f_equal. lia.
  - rewrite IH, flat_cons, length_app. cbn [item_ents]. do 3 f_equal. lia.
Qed.

Lemma name_matches_refl name : name_matches name name = true.
Proof.
  unfold name_matches. rewrite Z.eqb_refl. unfold eq_ignore_ascii_case. cbn [andb]. by apply bool_decide_true.
Qed.
End Spec.

(** ** Properties *)

(** C12: a directory that holds the items [its] is read correctly: listing
    gives the names and short entries of its files in order, a search gives
    the first file whose name matches up to the case of ASCII letters, with the
    offset of its short entry, and the directory counts as empty exactly if it
    holds nothing but [.] and [..]. *)
Theorem directory_lookup (efs : EasyFileSystem) (tree_oom : ST PcSys Z) (N : Z) (R : gset Z) (s : InodeSt) (its : list item) (req_name : list Z) :
  geometry efs N → dir_rep efs N R s its →
  (∃ s1, ls_lock efs tree_oom s = Ok (Some (file_info <$> dentries its), s1) ∧ dir_rep efs N R s1 its) ∧
  (∃ s2, find_local_lock efs tree_oom req_name s =
     Ok (Some (match list_find (fun x => name_matches req_name (d_name x.1) = true) (files_from its 0) with
               | Some (_, (d, q)) => Some (file_info d, 32 * Z.of_nat (Nat.pred q))
               | None => None
               end), s2) ∧ dir_rep efs N R s2 its) ∧
  (∃ s3, is_empty_dir_lock efs tree_oom s = Ok (forallb (fun d => is_dots (d_name d)) (dentries its), s3) ∧ dir_rep efs N R s3 its).
Proof.
  intros Hg Hr. split_and!.
  - destruct (wp_elim _ _ _ (wp_ls efs tree_oom N R Hg s its Hr)) as (r & s1 & Heq & Hs & ->). exists s1. split; [done|]. by eapply dir_rep_same.
  - destruct (wp_elim _ _ _ (wp_find_local efs tree_oom N R Hg s its req_name Hr)) as (r & s1 & Heq & Hs & ->). exists s1. split; [done|]. by eapply dir_rep_same.
  - destruct (wp_elim _ _ _ (wp_is_empty_dir efs tree_oom N R Hg s its Hr)) as (r & s1 & Heq & Hs & ->). exists s1. split; [done|]. by eapply dir_rep_same.
Qed.

(** C11: a file created under an ASCII name in a directory where no name matches it,
    and that can grow, is there: the
    directory holds one more file, under that name and with a short name that no
    other file has, a search finds it at the offset that was returned, and
    deleting that entry leaves the directory with the files it had. *)
Theorem create_find_delete (efs : EasyFileSystem) (tree_oom : ST PcSys Z) (N : Z) (R : gset Z) (fuel : nat) (s : InodeSt)
    (its : list item) (name : list Z) :
  geometry efs N → dir_rep efs N R s its → name_ok name → (length (dentries its) < 4446)%nat → expandable efs N s →
  (∀ d, d ∈ dentries its → name_matches name (d_name d) = false) →
  ∃ off sn s1 s2 s3 its',
    create_lock efs tree_oom fuel name File s = Ok (Some (empty_inode, off), s1) ∧
    dir_rep efs N R s1 (its ++ [FileItem (new_dentry name sn 0 File)]) ∧ (sn ∉ (se_name ∘ d_short <$> dentries its)) ∧
    find_local_lock efs tree_oom name s1 = Ok (Some (Some (name, from_name sn 0 File, off)), s2) ∧
    delete_dir_ent efs tree_oom off s2 = Ok (Some tt, s3) ∧ dir_rep efs N R s3 its' ∧ dentries its' = dentries its.
Proof.
  intros Hg Hr Hn Hc Hx Hno.
  destruct (wp_elim _ _ _ (wp_create_file efs tree_oom N R Hg fuel s its name Hr Hn Hc Hx)) as (r & s1 & Heq1 & sn & Hok & Hni & Hr1 & _ & ->).
  set (d := new_dentry name sn 0 File) in *.
  destruct (wp_elim _ _ _ (wp_find_local efs tree_oom N R Hg s1 _ name Hr1)) as (r & s2 & Heq2 & Hs2 & ->).
  pose proof (dir_rep_same efs N R s1 s2 _ Hr1 Hs2) as Hr2.
  destruct (wp_elim _ _ _ (wp_delete_dir_ent efs tree_oom N R Hg s2 its d [] Hr2)) as (r & s3 & Heq3 & -> & _ & its' & Hr3 & Hde).
  exists (32 * Z.of_nat (short_pos its d)), sn, s1, s2, s3, its'. rewrite app_nil_r in Hde. split_and!; try done.
  rewrite Heq2. rewrite files_from_app. cbn [files_from].
  assert (list_find (fun x => name_matches name (d_name x.1) = true) (files_from its 0) = None) as Hnone.
  { apply list_find_None, Forall_forall. intros [d' q] Hd'. cbn. rewrite Hno; [done|]. rewrite <-(files_dentries its 0).
    apply list_elem_of_fmap. by exists (d', q). }
  rewrite list_find_app_r by done. cbn [list_find fst]. rewrite decide_True by apply name_matches_refl. cbn [fmap option_fmap option_map prod_map].
  rewrite file_ents_length. unfold short_pos, file_info. do 6 f_equal. lia.
Qed.

(** Deleting the entry of a file removes that file and no other from the
    directory, and leaves the bytes and clusters of all other files alone. *)
Theorem delete_dir_ent_correct (efs : EasyFileSystem) (tree_oom : ST PcSys Z) (N : Z) (R : gset Z) (s : InodeSt)
    (its1 its2 : list item) (d : dentry) :
  geometry efs N → dir_rep efs N R s (its1 ++ FileItem d :: its2) →
  ∃ s' its', delete_dir_ent efs tree_oom (32 * Z.of_nat (short_pos its1 d)) s = Ok (Some tt, s') ∧
    dir_rep efs N R s' its' ∧ dentries its' = dentries (its1 ++ its2) ∧ others_kept efs N s s'.
Proof.
  intros Hg Hr. destruct (wp_elim _ _ _ (wp_delete_dir_ent efs tree_oom N R Hg s its1 d its2 Hr)) as (r & s' & Heq & -> & Hk & its' & Hr' & Hde).
  by exists s', its'.
Qed.

(** ** Samples *)

(** A directory in cluster 2 of a disk of zeros, with the items [its] in its
    first sector. *)
Definition dir_disk (its : list item) : Disk :=
  mkDisk 64 (fun i =>
    if i =? 1 then (three_free ≫= le32) ++ replicate 480 0
    else if i =? 2 then take 512 (concat (flat its) ++ replicate 512 0) else replicate 512 0).

Definition dir_shared (its : list item) : Shared :=
  mkShared (mkFatSt (mkBcState BlockCacheManager_new (dir_disk its)) [] 4) (sfa_init sfa_new 10 30) (fun _ => None).

Definition dir_inode (its : list item) : Inode :=
  mkInode (mkFileContent 4096 [2] (32 * Z.of_nat (length (flat its)))) [] [] Directory false (mkInodeTime 0 0 0).

Abbreviation dir_sample its := (dir_shared its, dir_inode its).

(** [a.txt] *)
Definition sample_name : list Z := [97; 46; 116; 120; 116].

Lemma sample_name_ok : name_ok sample_name.
Proof. split; [by repeat constructor|set_solver|by vm_compute|by vm_compute]. Qed.

Definition sample_file : dentry :=
  new_dentry sample_name [65; 32; 32; 32; 32; 32; 126; 49; 84; 88; 84] 0 File.

Lemma sample_file_ok : dentry_ok sample_file.
Proof.
  apply (new_dentry_ok _ _ _ _ 65); [apply sample_name_ok|done| |done|by split_and!].
  repeat (apply Forall_cons; split; [unfold is_u8; lia|]). constructor.
Qed.

Lemma dir_sample_ok its : dir_ok file_efs 8 (list_to_set (seqZ 10 20)) (dir_sample its).
Proof.
  assert (clus_ok 8 [2]) as Hok by (split; [by repeat constructor; set_solver|]; split; [by apply Forall_singleton|done]).
  assert (disk_wf (dir_disk its)) as Hd.
  { split; [done|]. intros id _. cbn [dir_disk d_data]. destruct (id =? 1); [done|]. destruct (id =? 2); [|done].
    rewrite length_take, length_app, length_replicate. lia. }
  split; try done; [|by apply Nat.ltb_lt; vm_compute|by intros id pc [_ H]]. split; try done.
  - split; try done; [by apply bc_new_wf|]. intros b [-> _]%elem_of_replicate. by left.
  - vm_compute. by right; right.
  - apply Forall_singleton. by vm_compute.
  - apply empty_cache_inv; [done| |apply sample_sys_fa].
    by apply (neighbor_ok_clus file_efs 8 file_geometry).
Qed.

Lemma dir_sample_empty : dir_rep file_efs 8 (list_to_set (seqZ 10 20)) (dir_sample []) [].
Proof.
  split; [apply dir_sample_ok|done|done|]. exists (replicate 128 (replicate 32 0)).
  split; [by vm_compute|]. by intros e [= <-].
Qed.

Lemma dir_sample_one : dir_rep file_efs 8 (list_to_set (seqZ 10 20)) (dir_sample [FileItem sample_file]) [FileItem sample_file].
Proof.
  split; [apply dir_sample_ok| |done|]; [apply Forall_singleton, sample_file_ok|].
  exists (replicate 126 (replicate 32 0)). split; [by vm_compute|]. by intros e [= <-].
Qed.

Lemma dir_sample_expandable : expandable file_efs 8 (dir_sample []).
Proof.
  split.
  { intros c Hc Hf. destruct (decide (2 ≤ c)) as [|Hn]; [done|]. unfold is_clus in Hc.
    assert (c = 0 ∨ c = 1) as [-> | ->] by lia; by vm_compute in Hf. }
  split; [|split; [by apply Nat.ltb_lt; vm_compute|done]].
  eexists. apply ready_scan; [done|done|]. by apply Nat.leb_le; vm_compute.
Qed.

Lemma directory_lookup_witness :
  (∃ s1, ls_lock file_efs no_oom (dir_sample []) = Ok (Some [], s1)) ∧
  (∃ s2, find_local_lock file_efs no_oom sample_name (dir_sample []) = Ok (Some None, s2)) ∧
  ∃ s3, is_empty_dir_lock file_efs no_oom (dir_sample []) = Ok (true, s3).
Proof.
  destruct (directory_lookup file_efs no_oom 8 _ _ [] sample_name file_geometry dir_sample_empty) as ((s1 & H1 & _) & (s2 & H2 & _) & s3 & H3 & _).
  split; [exists s1; exact H1|]. split; [exists s2; exact H2|exists s3; exact H3].
Defined.

Lemma create_find_delete_witness :
  ∃ off sn s1 s2 s3,
    create_lock file_efs no_oom 0 sample_name File (dir_sample []) = Ok (Some (empty_inode, off), s1) ∧
    find_local_lock file_efs no_oom sample_name s1 = Ok (Some (Some (sample_name, from_name sn 0 File, off)), s2) ∧
    delete_dir_ent file_efs no_oom off s2 = Ok (Some tt, s3).
Proof.
  destruct (create_find_delete file_efs no_oom 8 _ 0 _ [] sample_name file_geometry dir_sample_empty sample_name_ok) as (off & sn & s1 & s2 & s3 & its' & H1 & _ & _ & H2 & H3 & _).
  - cbn. lia.
  - apply dir_sample_expandable.
  - intros d Hd. by apply elem_of_nil in Hd.
  - exists off, sn, s1, s2, s3. exact (conj H1 (conj H2 H3)).
Defined.

Lemma delete_dir_ent_correct_witness :
  ∃ s', delete_dir_ent file_efs no_oom 32 (dir_sample [FileItem sample_file]) = Ok (Some tt, s') ∧
    dir_rep file_efs 8 (list_to_set (seqZ 10 20)) (dir_sample [FileItem sample_file]) [FileItem sample_file] ∧
    others_kept file_efs 8 (dir_sample [FileItem sample_file]) s'.
Proof.
  destruct (delete_dir_ent_correct file_efs no_oom 8 _ _ [] [] sample_file file_geometry dir_sample_one) as (s' & its' & H1 & _ & _ & H2).
  exists s'. exact (conj H1 (conj dir_sample_one H2)).
Defined.
