(* ===== verification/OSInode.v ===== *)
(** * Open files

    [kernel/src/fs/fat32/inode.rs]: the files that descriptors refer to, with
    the records of [kernel/src/fs/layout.rs] that they fill.  An [OSInode] is
    an inode, shared by all who opened the file, with an offset and access
    modes.  The node of the directory tree is seen through the count of special
    uses that opening and closing change; [None] says that the node is gone. *)

From S2P Require Import Prelude Config PhysMem FrameAllocator PageTable UserMem BlockCache Fat PageCache FdTable Timer Utf Layout Inode Dir.

(** [Result<A, isize>]: a value or an error number. *)
Inductive Result (A : Type) : Type :=
  | Okay (a : A)
  | Err (errno : Z).
Arguments Okay {A} a.
Arguments Err {A} errno.

(** ** [fs/layout.rs] *)

Definition SEEK_SET : Z := 0.
Definition SEEK_CUR : Z := 1.
Definition SEEK_END : Z := 2.

Definition S_IFREG : Z := 0x8000.
Definition S_IFDIR : Z := 0x4000.
Definition S_IFCHR : Z := 0x2000.
Definition S_IRWXU : Z := 0x1C0.
Definition S_IRWXG : Z := 0x38.
Definition S_IRWXO : Z := 0x7.

Definition le64 (v : Z) : list Z := le32 (v mod 2 ^ 32) ++ le32 (v / 2 ^ 32).

Record Stat : Type := mkStat {
  st_dev : Z;
  st_ino : Z;
  st_mode : Z;
  st_nlink : Z;
  st_uid : Z;
  st_gid : Z;
  st_rdev : Z;
  st_size : Z;
  st_blksize : Z;
  st_blocks : Z;
  st_atime : TimeSpec;
  st_mtime : TimeSpec;
  st_ctime : TimeSpec;
}.

Definition BLK_SIZE : Z := 512.

(** [st_size as u64 + BLK_SIZE as u64 - 1] is at most the size of [u64]. *)
Definition Stat_new (dev ino mode nlink rdev size atime_sec mtime_sec ctime_sec : Z) : Stat :=
  mkStat dev ino mode nlink 0 0 rdev size BLK_SIZE ((wrap64 size ⊞ BLK_SIZE ⊟ 1) / BLK_SIZE)
    (mkTimeSpec (wrap64 atime_sec) 0) (mkTimeSpec (wrap64 mtime_sec) 0) (mkTimeSpec (wrap64 ctime_sec) 0).

Definition Stat_as_bytes (s : Stat) : list Z :=
  le64 (st_dev s) ++ le64 (st_ino s) ++ le32 (st_mode s) ++ le32 (st_nlink s) ++
  le32 (st_uid s) ++ le32 (st_gid s) ++ le64 (st_rdev s) ++ le64 0 ++
  le64 (wrap64 (st_size s)) ++ le32 (st_blksize s) ++ le32 0 ++ le64 (st_blocks s) ++
  (le64 (ts_sec (st_atime s)) ++ le64 (ts_nsec (st_atime s))) ++
  (le64 (ts_sec (st_mtime s)) ++ le64 (ts_nsec (st_mtime s))) ++
  (le64 (ts_sec (st_ctime s)) ++ le64 (ts_nsec (st_ctime s))) ++ le64 0.

Definition NAME_LIMIT : Z := 128.

(** The size of a [Dirent], which is aligned to eight bytes. *)
Definition Dirent_size : Z := 152.

Record Dirent : Type := mkDirent { d_ino : Z; d_off : Z; d_reclen : Z; d_type : Z; d_name : list Z }.

(** [d_name[0..d_name.len()].copy_from_slice(d_name.as_bytes())] *)
Definition Dirent_new (ino off type_ : Z) (name : list Z) : outcome Dirent :=
  let bytes := as_bytes name in
  if NAME_LIMIT <? Z.of_nat (length bytes) then Panic
  else Ok (mkDirent ino off Dirent_size type_ (put_slice (replicate (Z.to_nat NAME_LIMIT) 0) 0 bytes)).

(** [makedev!], an expression of type [u64]. *)
Definition makedev (x y : Z) : Z :=
  Z.lor (Z.lor (wrap64 (Z.shiftl (Z.land x 0xfffff000) 32)) (wrap64 (Z.shiftl (Z.land x 0xfff) 8)))
    (Z.lor (wrap64 (Z.shiftl (Z.land y 0xffffff00) 12)) (Z.land y 0xff)).

(** ** [OSInode] *)

Record OSInode : Type := mkOSInode {
  os_readable : bool;
  os_writable : bool;
  special_use : bool;
  append : bool;
  os_offset : Z;
}.

(** An open file: its inode, its own fields, and [spe_usage] of its node. *)
Record FileSt : Type := mkFileSt { f_inode : InodeSt; f_os : OSInode; node_usage : option Z }.

Definition on_inner {A} (m : ST InodeSt A) : ST FileSt A := fun s =>
  '(a, i) ← m (f_inode s);
  Ok (a, mkFileSt i (f_os s) (node_usage s)).

Definition get_os_offset : ST FileSt Z := gets (fun s => os_offset (f_os s)).

Definition put_os_offset (o : Z) : ST FileSt unit :=
  modify (fun s =>
    let f := f_os s in
    mkFileSt (f_inode s) (mkOSInode (os_readable f) (os_writable f) (special_use f) (append f) o) (node_usage s)).

Definition OSInode_new : OSInode := mkOSInode true true true false 0.

(** The file of an entry found in, or added to, a directory. *)
Definition subfile : OSInode := mkOSInode true true false false 0.

Definition OSInode_open (flags : Z) (special : bool) : OSInode :=
  mkOSInode (flags_contains flags O_RDONLY || flags_contains flags O_RDWR)
    (flags_contains flags O_WRONLY || flags_contains flags O_RDWR) special (flags_contains flags O_APPEND) 0.

(** [add_special_use] and [sub_special_use], if the node is there. *)
Definition change_usage (d : Z) : ST FileSt unit :=
  modify (fun s => mkFileSt (f_inode s) (f_os s) ((fun n => wrap64 (n + d)) <$> node_usage s)).

Definition deep_clone : ST FileSt OSInode :=
  f ← gets f_os;
  (if special_use f then change_usage 1 else mret tt);;
  gets f_os.

Definition OSInode_drop : ST FileSt unit :=
  f ← gets f_os;
  if special_use f then change_usage (-1) else mret tt.

Section Files.
Context (efs : EasyFileSystem) (tree_oom : ST PcSys Z).

(** The number of bytes read, [*offset] and the buffer. *)
Definition OSInode_read (offset : option Z) (buffer : list Z) : ST FileSt (Z * option Z * list Z) :=
  match offset with
  | Some offset =>
      '(len, buffer) ← on_inner (read_at_block_cache efs tree_oom offset buffer);
      mret (len, Some (offset ⊞ len), buffer)
  | None =>
      offset ← get_os_offset;
      '(len, buffer) ← on_inner (read_at_block_cache efs tree_oom offset buffer);
      put_os_offset (offset ⊞ len);;
      mret (len, None, buffer)
  end.

Fixpoint read_all_loop (fuel : nat) (buffer : list Z) (v : list Z) (offset : Z) : ST FileSt (list Z) :=
  match fuel with
  | O => out_of_fuel
  | S fuel =>
      '(len, buffer) ← on_inner (read_at_block_cache efs tree_oom offset buffer);
      if len =? 0 then mret v
      else read_all_loop fuel buffer (v ++ take (Z.to_nat len) buffer) (offset ⊞ len)
  end.

(** Each round but the last one reads a byte or more. *)
Definition read_all : ST FileSt (list Z) :=
  size ← on_inner get_file_size;
  read_all_loop (Z.to_nat size + 1) (replicate 512 0) [] 0.

(** The number of bytes written and [*offset]. *)
Definition OSInode_write (offset : option Z) (buffer : list Z) : ST FileSt (Z * option Z) :=
  match offset with
  | Some offset =>
      len ← on_inner (write_at_block_cache_lock efs tree_oom offset buffer);
      mret (len, Some (offset ⊞ len))
  | None =>
      f ← gets f_os;
      (if append f then size ← on_inner get_file_size; put_os_offset size else mret tt);;
      offset ← get_os_offset;
      len ← on_inner (write_at_block_cache_lock efs tree_oom offset buffer);
      put_os_offset (offset ⊞ len);;
      mret (len, None)
  end.

(** *** User buffers: slices of physical memory *)

Definition on_file {A} (m : ST FileSt A) : ST (PMem * FileSt) A := fun s =>
  '(a, f) ← m s.2;
  Ok (a, (s.1, f)).

Fixpoint read_slices (bs : list PSlice) (offset total_read_size : Z) : ST (PMem * FileSt) (Z * Z) :=
  match bs with
  | [] => mret (offset, total_read_size)
  | (a, l) :: bs =>
      m ← gets fst;
      '(read_size, buf) ← on_file (on_inner (read_at_block_cache efs tree_oom offset (read_bytes m a l)));
      modify (fun s => (write_bytes s.1 a buf, s.2));;
      if read_size =? 0 then mret (offset, total_read_size)
      else read_slices bs (offset ⊞ read_size) (total_read_size ⊞ read_size)
  end.

Definition OSInode_read_user (offset : option Z) (buf : UserBuffer) : ST (PMem * FileSt) Z :=
  match offset with
  | Some offset =>
      '(_, total_read_size) ← read_slices (buffers buf) offset 0;
      mret total_read_size
  | None =>
      offset ← on_file get_os_offset;
      '(offset, total_read_size) ← read_slices (buffers buf) offset 0;
      on_file (put_os_offset offset);;
      mret total_read_size
  end.

Fixpoint write_slices (bs : list PSlice) (offset total_write_size : Z) : ST (PMem * FileSt) (Z * Z) :=
  match bs with
  | [] => mret (offset, total_write_size)
  | (a, l) :: bs =>
      m ← gets fst;
      write_size ← on_file (on_inner (write_at_block_cache_lock efs tree_oom offset (read_bytes m a l)));
      rust_assert (write_size =? l);;
      write_slices bs (offset ⊞ write_size) (total_write_size ⊞ write_size)
  end.

Definition OSInode_write_user (offset : option Z) (buf : UserBuffer) : ST (PMem * FileSt) Z :=
  match offset with
  | Some offset =>
      '(_, total_write_size) ← write_slices (buffers buf) offset 0;
      mret total_write_size
  | None =>
      f ← on_file (gets f_os);
      (if append f then size ← on_file (on_inner get_file_size); on_file (put_os_offset size) else mret tt);;
      offset ← on_file get_os_offset;
      '(offset, total_write_size) ← write_slices (buffers buf) offset 0;
      on_file (put_os_offset offset);;
      mret total_write_size
  end.

(** *** The other operations *)

Definition OSInode_get_size : ST FileSt Z := on_inner get_file_size.

Definition OSInode_get_stat : ST FileSt Stat :=
  '(size, atime, mtime, ctime, ino) ← on_inner (stat_lock efs);
  d ← on_inner is_dir;
  let st_mod := Z.lor (Z.lor (Z.lor (if d : bool then S_IFDIR else S_IFREG) S_IRWXU) S_IRWXG) S_IRWXO in
  mret (Stat_new (makedev 8 0) ino st_mod 1 0 size atime mtime ctime).

(** The names of the files of a directory with their inodes and the offsets of
    their entries; each becomes a [subfile]. *)
Definition open_subfile (fuel : nat) : ST FileSt (list (list Z * (Inode * Z))) :=
  files ← on_inner (get_all_files_lock efs tree_oom);
  st_fold (fun v '(name, short_ent, offset) =>
    inode ← on_inner (on_shared (from_ent efs tree_oom fuel short_ent));
    mret (vec_push v (name, (inode, offset)))) [] files.

(** The inode of the new file and the offset of its entry. *)
Definition OSInode_create (fuel : nat) (name : list Z) (ft : DiskInodeType) : ST FileSt (Inode * Z) :=
  new_file ← on_inner (create_lock efs tree_oom fuel name ft);
  unwrap new_file.

(** [self] is the parent. *)
Definition link_child (name : list Z) : ST PairSt unit :=
  r ← link_par_lock efs tree_oom name;
  unwrap r.

(** [self] is the child. *)
Definition OSInode_unlink (delete : bool) : ST PairSt (Result unit) :=
  d ← on_child is_dir;
  e ← (if d : bool then on_child (is_empty_dir_lock efs tree_oom) else mret true);
  if d && negb e then mret (Err ENOTEMPTY)
  else
    unlink_lock efs tree_oom delete;;
    mret (Okay tt).

Definition DT_UNKNOWN : Z := 0.
Definition DT_DIR : Z := 4.
Definition DT_REG : Z := 8.

Definition dirent_type (type_ : Z) : Z :=
  if (type_ =? AttrDirectory) || (type_ =? AttrVolumeID) then DT_DIR
  else if type_ =? AttrArchive then DT_REG else DT_UNKNOWN.

Definition OSInode_get_dirent (count : Z) : ST FileSt (list Dirent) :=
  d ← on_inner is_dir;
  rust_assert d;;
  offset ← get_os_offset;
  vec ← on_inner (dirent_info_lock efs tree_oom (wrap32 offset) (Z.to_nat (count / Dirent_size)));
  vec ← unwrap vec;
  (match last vec with
   | Some (_, next_offset, _, _) => put_os_offset next_offset
   | None => mret tt
   end);;
  st_fold (fun v '(name, offset, first_clus, type_) =>
    dirent ← lift (Dirent_new first_clus offset (dirent_type type_) name);
    mret (vec_push v dirent)) [] vec.

Definition lseek (offset whence : Z) : ST FileSt (Result Z) :=
  cur ← get_os_offset;
  size ← on_inner get_file_size;
  let new_offset :=
    if whence =? SEEK_SET then Some offset
    else if whence =? SEEK_CUR then Some (as_isize (wrap64 (as_isize cur + offset)))
    else if whence =? SEEK_END then Some (as_isize (wrap64 (size + offset)))
    else None in
  match new_offset with
  | None => mret (Err EINVAL)
  | Some new_offset =>
      if new_offset <? 0 then mret (Err EINVAL)
      else
        put_os_offset new_offset;;
        mret (Okay new_offset)
  end.

(** [File::get_offset] *)
Definition get_offset : ST FileSt Z :=
  r ← lseek 0 SEEK_CUR;
  match r with Okay o => mret o | Err _ => panic end.

Definition OSInode_modify_size (diff : Z) : ST FileSt unit :=
  on_inner (modify_size_lock efs tree_oom diff true).

Definition truncate_size (new_size : Z) : ST FileSt unit :=
  old_size ← on_inner get_file_size;
  on_inner (modify_size_lock efs tree_oom (as_isize (wrap64 (as_isize new_size - old_size))) true).

Definition set_timestamp (ctime atime mtime : option Z) : ST FileSt unit :=
  on_inner (modify (fun s =>
    let t := time s.2 in
    let t := mkInodeTime (default (create_time t) ctime) (default (access_time t) atime) (default (modify_time t) mtime) in
    (s.1, mkInode (file_content s.2) (pages s.2) (page_ids s.2) (file_type s.2) (deleted s.2) t))).

(** The page of a file for [mmap]; [None] if the offset is not that of a page. *)
Definition get_single_cache (offset : Z) : ST FileSt (option Z) :=
  if negb (Z.land offset 0xfff =? 0) then mret None
  else
    p ← on_inner (get_single_cache_lock efs tree_oom (Z.shiftr offset 12));
    mret (Some p).

Definition get_all_caches : ST FileSt (list Z) := on_inner (get_all_cache efs tree_oom).

Definition OSInode_oom : ST FileSt Z := on_inner (inode_oom efs).
End Files.
