(* ===== verification/OSInodeSpec.v ===== *)
(** * Open files behave as byte sequences with an offset

    What [OSInode.v] does, in terms of the bytes of the file and the offset:
    reading and writing at the offset or elsewhere, appending, seeking,
    truncating, and transfers from and to user memory. *)

From S2P Require Import Prelude Config PhysMem FrameAllocator PageTable UserMem BlockCache Fat PageCache FdTable Timer Utf Layout Inode InodeSpec Dir OSInode.

(** ** The abstract file *)

Record OpenFile : Type := mkOpenFile { of_bytes : list Z; of_pos : Z }.

Inductive os_cmd : Type :=
  | CRead (n : nat)
  | CPread (off : Z) (n : nat)
  | CWrite (buf : list Z)
  | CPwrite (off : Z) (buf : list Z)
  | CSeek (off whence : Z)
  | CTruncate (n : Z)
  | CReadAll.

Definition seek_target (f : OpenFile) (off whence : Z) : option Z :=
  if whence =? SEEK_SET then Some off
  else if whence =? SEEK_CUR then Some (of_pos f + off)
  else if whence =? SEEK_END then Some (Z.of_nat (length (of_bytes f)) + off)
  else None.

(** A command on the abstract file, whose offset [append] moves to the end
    before a write. *)
Definition exec_file (append : bool) (c : os_cmd) (f : OpenFile) : Result (Z * list Z) * OpenFile :=
  let F := of_bytes f in
  match c with
  | CRead n =>
      let out := take n (drop (Z.to_nat (of_pos f)) F) in
      (Okay (Z.of_nat (length out), out), mkOpenFile F (of_pos f + Z.of_nat (length out)))
  | CPread off n =>
      let out := take n (drop (Z.to_nat off) F) in
      (Okay (Z.of_nat (length out), out), f)
  | CWrite buf =>
      let pos := if append then Z.of_nat (length F) else of_pos f in
      (Okay (Z.of_nat (length buf), []),
       mkOpenFile (take (Z.to_nat pos) F ++ buf ++ drop (Z.to_nat pos + length buf) F) (pos + Z.of_nat (length buf)))
  | CPwrite off buf =>
      (Okay (Z.of_nat (length buf), []),
       mkOpenFile (take (Z.to_nat off) F ++ buf ++ drop (Z.to_nat off + length buf) F) (of_pos f))
  | CSeek off whence =>
      match seek_target f off whence with
      | Some pos => if pos <? 0 then (Err EINVAL, f) else (Okay (pos, []), mkOpenFile F pos)
      | None => (Err EINVAL, f)
      end
  | CTruncate n => (Okay (0, []), mkOpenFile (take (Z.to_nat n) F ++ replicate (Z.to_nat n - length F) 0) (of_pos f))
  | CReadAll => (Okay (Z.of_nat (length F), F), f)
  end.

Lemma wp_on_inner {A} (m : ST InodeSt A) Q s :
  wp m (fun a i => Q a (mkFileSt i (f_os s) (node_usage s))) (f_inode s) → wp (on_inner m) Q s.
Proof. unfold wp, on_inner. by destruct (m (f_inode s)) as [[]| |]. Qed.

Lemma wp_on_file {A} (m : ST FileSt A) Q s :
  wp m (fun a f => Q a (s.1, f)) s.2 → wp (on_file m) Q s.
Proof. unfold wp, on_file. by destruct (m s.2) as [[]| |]. Qed.

Section Spec.
Context (efs : EasyFileSystem) (tree_oom : ST PcSys Z) (N : Z) (R : gset Z).
Hypothesis Hgeo : geometry efs N.
Implicit Types s : FileSt.

Abbreviation inode_inv := (inode_inv efs N R).
Abbreviation content := (content efs).
Abbreviation size_of i := (fc_size (file_content (snd i))).

(** The command on an open file; a read starts with a buffer of zeros. *)
Definition exec_os (c : os_cmd) : ST FileSt (Result (Z * list Z)) :=
  match c with
  | CRead n => '(len, _, buf) ← OSInode_read efs tree_oom None (replicate n 0); mret (Okay (len, take (Z.to_nat len) buf))
  | CPread off n => '(len, _, buf) ← OSInode_read efs tree_oom (Some off) (replicate n 0); mret (Okay (len, take (Z.to_nat len) buf))
  | CWrite buf => '(len, _) ← OSInode_write efs tree_oom None buf; mret (Okay (len, []))
  | CPwrite off buf => '(len, _) ← OSInode_write efs tree_oom (Some off) buf; mret (Okay (len, []))
  | CSeek off whence => r ← lseek off whence; mret (match r with Okay o => Okay (o, []) | Err e => Err e end)
  | CTruncate n => truncate_size efs tree_oom n;; mret (Okay (0, []))
  | CReadAll => v ← read_all efs tree_oom; mret (Okay (Z.of_nat (length v), v))
  end.

Definition open_file (s : FileSt) : OpenFile := mkOpenFile (content (f_inode s)) (os_offset (f_os s)).

(** What a command needs: offsets that do not overflow, and the clusters and
    frames that the operation on the inode needs. *)
Definition os_ready (s : FileSt) (c : os_cmd) : Prop :=
  let pos := os_offset (f_os s) in
  match c with
  | CRead n => cmd_ready efs N (f_inode s) (ReadAt pos n)
  | CPread off n => cmd_ready efs N (f_inode s) (ReadAt off n)
  | CWrite buf => cmd_ready efs N (f_inode s) (WriteAt (if append (f_os s) then size_of (f_inode s) else pos) buf)
  | CPwrite off buf => cmd_ready efs N (f_inode s) (WriteAt off buf)
  | CSeek off whence => 0 ≤ pos < 2 ^ 62 ∧ - 2 ^ 62 ≤ off < 2 ^ 62
  | CTruncate n => cmd_ready efs N (f_inode s) (Resize n)
  | CReadAll => roomy efs (f_inode s)
  end.

Definition os_post (s : FileSt) (c : os_cmd) (out : Result (Z * list Z)) (s' : FileSt) : Prop :=
  exec_file (append (f_os s)) c (open_file s) = (out, open_file s') ∧ inode_inv (f_inode s') ∧
  append (f_os s') = append (f_os s) ∧ others_kept efs N (f_inode s) (f_inode s').

Lemma content_size (i : InodeSt) : inode_inv i → Z.of_nat (length (content i)) = size_of i.
Proof. intros Hi. pose proof (iv_size _ _ _ _ Hi). rewrite content_length; lia. Qed.

Lemma others_kept_refl (i : InodeSt) : others_kept efs N i i.
Proof. by apply others_kept_meta. Qed.

(** A read at [off], in terms of the bytes of the file. *)
Lemma wp_read_content (i : InodeSt) off buf :
  inode_inv i → 0 ≤ off < 2 ^ 61 → Z.of_nat (length buf) < 2 ^ 61 → roomy efs i →
  let out := take (length buf) (drop (Z.to_nat off) (content i)) in
  wp (read_at_block_cache efs tree_oom off buf) (fun r i' =>
    r = (Z.of_nat (length out), out ++ drop (length out) buf) ∧ inode_inv i' ∧ content i' = content i ∧
    same_meta i i' ∧ keeps i i') i.
Proof.
  intros Hi Ho Hb Hr out. pose proof (content_size i Hi) as Hs.
  eapply wp_mono; [by apply (wp_read_at efs tree_oom N R Hgeo)|].
  intros r i' (-> & Hi' & Hm & Hd & Hk). pose proof Hm as (_ & Hfc & _).
  assert (length out = Z.to_nat (Z.max 0 (Z.min (Z.of_nat (length buf)) (size_of i - off)))) as Hl.
  { unfold out. rewrite length_take, length_drop. lia. }
  split_and!; try done.
  - rewrite <-Hl. f_equal; [lia|]. f_equal. unfold out. rewrite length_take. symmetry. rewrite <-(take_ge (drop (Z.to_nat off) (content i)) (length (drop (Z.to_nat off) (content i)))) at 1 by done.
    by rewrite take_take.
  - apply content_ext; [by rewrite Hfc|]. intros j Hj. apply Hd. lia.
Qed.

Lemma exec_os_read s n : inode_inv (f_inode s) → os_ready s (CRead n) → wp (exec_os (CRead n)) (os_post s (CRead n)) s.
Proof.
  intros Hi (Ho & Hn & Hr). cbn [exec_os OSInode_read]. unfold get_os_offset, put_os_offset. repeat wp_step. apply wp_on_inner.
  eapply wp_mono; [apply wp_read_content; rewrite ?length_replicate; done|]. rewrite length_replicate.
  intros [len buf] i' ([= -> ->] & Hi' & Hc & Hm & _). repeat wp_step. rewrite Nat2Z.id, take_app_length.
  pose proof (content_size _ Hi) as Hs. pose proof (iv_size _ _ _ _ Hi). set (out := take n _).
  assert (length out ≤ length (content (f_inode s)))%nat by (unfold out; rewrite length_take, length_drop; lia).
  split_and!; try done; [|by apply others_kept_meta].
  unfold open_file. cbn -[content]. rewrite Hc. f_equal. f_equal. rewrite wrap64_small; [done|unfold is_usize; lia].
Qed.

Lemma exec_os_pread s off n : inode_inv (f_inode s) → os_ready s (CPread off n) → wp (exec_os (CPread off n)) (os_post s (CPread off n)) s.
Proof.
  intros Hi (Ho & Hn & Hr). cbn [exec_os OSInode_read]. repeat wp_step. apply wp_on_inner.
  eapply wp_mono; [apply wp_read_content; rewrite ?length_replicate; done|]. rewrite length_replicate.
  intros [len buf] i' ([= -> ->] & Hi' & Hc & Hm & _). repeat wp_step. rewrite Nat2Z.id, take_app_length.
  split_and!; try done; [|by apply others_kept_meta]. unfold open_file. cbn -[content]. by rewrite Hc.
Qed.

Lemma exec_os_write s buf : inode_inv (f_inode s) → os_ready s (CWrite buf) → wp (exec_os (CWrite buf)) (os_post s (CWrite buf)) s.
Proof.
  intros Hi Hr. cbn [exec_os OSInode_write os_ready] in *. pose proof (content_size _ Hi) as Hs. pose proof (iv_size _ _ _ _ Hi).
  unfold get_os_offset, put_os_offset, get_file_size, get_content. wp_step. wp_step. wp_step. wp_step. destruct (append (f_os s)) eqn:Ha.
  - wp_step. apply wp_on_inner. repeat wp_step. apply wp_on_inner. cbn [f_inode f_os os_offset].
    eapply wp_mono; [by apply (wp_write_content efs tree_oom N R Hgeo)|]. intros r i' (-> & ([= Hb] & Hi' & Hk) & _). repeat wp_step.
    destruct Hr as (Ho & _ & Hm & _). split_and!; try done. unfold open_file. cbn -[content]. rewrite Ha, Hs, <-Hb. do 2 f_equal.
    rewrite wrap64_small; [done|unfold is_usize; lia].
  - repeat wp_step. apply wp_on_inner.
    eapply wp_mono; [by apply (wp_write_content efs tree_oom N R Hgeo)|]. intros r i' (-> & ([= Hb] & Hi' & Hk) & _). repeat wp_step.
    destruct Hr as (Ho & _ & Hm & _). split_and!; try done. unfold open_file. cbn -[content]. rewrite Ha, <-Hb. do 2 f_equal.
    rewrite wrap64_small; [done|unfold is_usize; lia].
Qed.

Lemma exec_os_pwrite s off buf : inode_inv (f_inode s) → os_ready s (CPwrite off buf) → wp (exec_os (CPwrite off buf)) (os_post s (CPwrite off buf)) s.
Proof.
  intros Hi Hr. cbn [exec_os OSInode_write os_ready] in *. repeat wp_step. apply wp_on_inner.
  eapply wp_mono; [by apply (wp_write_content efs tree_oom N R Hgeo)|]. intros r i' (-> & ([= Hb] & Hi' & Hk) & _). repeat wp_step.
  split_and!; try done. unfold open_file. cbn -[content]. by rewrite <-Hb.
Qed.

Lemma exec_os_seek s off whence : inode_inv (f_inode s) → os_ready s (CSeek off whence) → wp (exec_os (CSeek off whence)) (os_post s (CSeek off whence)) s.
Proof.
  intros Hi (Hp & Ho). pose proof (content_size _ Hi) as Hs. pose proof (iv_size _ _ _ _ Hi).
  cbn [exec_os]. unfold lseek, get_os_offset, put_os_offset, get_file_size, get_content. repeat wp_step. apply wp_on_inner. repeat wp_step.
  assert (as_isize (os_offset (f_os s)) = os_offset (f_os s)) as -> by (unfold as_isize; rewrite (proj2 (Z.ltb_lt _ _)) by lia; done).
  rewrite !as_isize_wrap64 by lia.
  set (t := if whence =? SEEK_SET then Some off else _).
  assert (seek_target (open_file s) off whence = t) as Ht by (unfold seek_target, t; cbn -[content]; by rewrite Hs).
  assert ((mkFileSt (f_inode s) (f_os s) (node_usage s)) = s) as -> by (by destruct s).
  destruct t as [pos|].
  - destruct (pos <? 0) eqn:Hneg; repeat wp_step; (split; [|split_and!; try done; apply others_kept_refl]); cbn [exec_file]; by rewrite Ht, Hneg.
  - repeat wp_step. split; [|split_and!; try done; apply others_kept_refl]. cbn [exec_file]. by rewrite Ht.
Qed.

Lemma exec_os_truncate s n : inode_inv (f_inode s) → os_ready s (CTruncate n) → wp (exec_os (CTruncate n)) (os_post s (CTruncate n)) s.
Proof.
  intros Hi Hr. pose proof (iv_size _ _ _ _ Hi). pose proof (proj1 Hr) as Hn.
  cbn [exec_os]. unfold truncate_size, get_file_size, get_content. repeat wp_step. apply wp_on_inner. repeat wp_step.
  assert (as_isize n = n) as -> by (unfold as_isize; rewrite (proj2 (Z.ltb_lt _ _)) by lia; done). rewrite as_isize_wrap64 by lia.
  apply wp_on_inner. cbn [f_inode]. eapply wp_mono; [by apply (wp_resize_content efs tree_oom N R Hgeo)|].
  intros [] i' ([= Hb] & Hi' & Hk). wp_step. split_and!; try done. unfold open_file. cbn -[content]. by rewrite <-Hb.
Qed.

(** The loop of [read_all], with [off] bytes read. *)
Lemma wp_read_all_loop fuel buf off s :
  inode_inv (f_inode s) → roomy efs (f_inode s) → length buf = 512%nat → (off ≤ length (content (f_inode s)))%nat →
  (length (content (f_inode s)) - off < fuel)%nat →
  wp (read_all_loop efs tree_oom fuel buf (take off (content (f_inode s))) (Z.of_nat off)) (fun v s' =>
    v = content (f_inode s) ∧ inode_inv (f_inode s') ∧ content (f_inode s') = content (f_inode s) ∧
    same_meta (f_inode s) (f_inode s') ∧ f_os s' = f_os s) s.
Proof.
  revert buf off s. induction fuel as [|fuel IH]; intros buf off s Hi Hr Hb Ho Hf; [lia|].
  pose proof (content_size _ Hi) as Hs. pose proof (iv_size _ _ _ _ Hi). cbn [read_all_loop]. wp_step. apply wp_on_inner.
  eapply wp_mono; [apply wp_read_content; try done; rewrite ?Hb; lia|]. rewrite Hb, Nat2Z.id.
  intros [len buf'] i' ([= -> ->] & Hi' & Hc & Hm & Hk). set (F := content (f_inode s)) in *. set (out := take 512 (drop off F)).
  assert (length out = Nat.min 512 (length F - off)) as Hlo by (unfold out; by rewrite length_take, length_drop).
  destruct (Z.eqb_spec (Z.of_nat (length out)) 0) as [Hz|Hz].
  - wp_step. split_and!; try done. rewrite take_ge by lia. done.
  - rewrite Nat2Z.id, take_app_length. rewrite wrap64_small by (unfold is_usize; lia).
    assert (take off F ++ out = take (off + length out) F) as ->.
    { rewrite <-(take_take_drop F off). f_equal. rewrite <-(take_ge out (length out)) at 1 by done. unfold out at 2. rewrite take_take. f_equal. lia. }
    replace (Z.of_nat off + Z.of_nat (length out)) with (Z.of_nat (off + length out)) by lia. rewrite <-Hc.
    eapply wp_mono; [apply (IH _ (off + length out)%nat (mkFileSt i' (f_os s) (node_usage s))); cbn [f_inode]; try done|].
    + eapply roomy_same; [exact Hk|apply Hm|done].
    + rewrite length_app, length_drop. lia.
    + rewrite Hc. lia.
    + rewrite Hc. lia.
    + intros v s' (-> & Hi2 & Hc2 & Hm2 & Ho2). cbn [f_inode f_os] in *. split_and!; try congruence. by eapply same_meta_trans.
Qed.

Lemma exec_os_read_all s : inode_inv (f_inode s) → os_ready s CReadAll → wp (exec_os CReadAll) (os_post s CReadAll) s.
Proof.
  intros Hi Hr. cbn [exec_os]. unfold read_all, get_file_size, get_content. repeat wp_step. apply wp_on_inner. repeat wp_step.
  pose proof (content_size _ Hi) as Hs. assert ((mkFileSt (f_inode s) (f_os s) (node_usage s)) = s) as -> by (by destruct s).
  eapply wp_mono; [apply (wp_read_all_loop _ _ 0 s); try done; [apply Nat.le_0_l|lia]|].
  intros v s' (-> & Hi' & Hc & Hm & Ho). wp_step. split_and!; try done; [|by rewrite Ho|by apply others_kept_meta].
  unfold open_file. cbn -[content]. by rewrite Hc, Ho.
Qed.

Lemma exec_os_spec s c : inode_inv (f_inode s) → os_ready s c → wp (exec_os c) (os_post s c) s.
Proof.
  destruct c; [apply exec_os_read|apply exec_os_pread|apply exec_os_write|apply exec_os_pwrite|apply exec_os_seek|
    apply exec_os_truncate|apply exec_os_read_all].
Qed.

(** A sequence of commands, and that each finds what it needs. *)
Fixpoint exec_os_all (cs : list os_cmd) : ST FileSt (list (Result (Z * list Z))) :=
  match cs with
  | [] => mret []
  | c :: cs => out ← exec_os c; outs ← exec_os_all cs; mret (out :: outs)
  end.

Fixpoint exec_file_all (append : bool) (cs : list os_cmd) (f : OpenFile) : list (Result (Z * list Z)) * OpenFile :=
  match cs with
  | [] => ([], f)
  | c :: cs =>
      let '(out, f) := exec_file append c f in
      let '(outs, f) := exec_file_all append cs f in
      (out :: outs, f)
  end.

Fixpoint os_all_ready (s : FileSt) (cs : list os_cmd) : Prop :=
  match cs with
  | [] => True
  | c :: cs => os_ready s c ∧ ∀ out s', exec_os c s = Ok (out, s') → os_all_ready s' cs
  end.

(** ** User memory *)

(** A slice that is read to hold [out] at its start. *)
Lemma written_slice m a l out :
  Z.of_nat (length out) ≤ l →
  written m (write_bytes m a (out ++ drop (length out) (read_bytes m a l))) (seqZ a l) out.
Proof.
  intros Hl. set (data := out ++ _).
  assert (Z.of_nat (length data) = l) as Hd by (unfold data; rewrite length_app, length_drop, read_bytes_length; lia).
  split.
  - intros i b [-> Hb]%lookup_seqZ Hlt. rewrite write_bytes_in by lia.
    replace (Z.to_nat (a + Z.of_nat i - a)) with i by lia. rewrite list_lookup_total_alt. unfold data. rewrite lookup_app_l by done.
    destruct (lookup_lt_is_Some_2 out i Hlt) as [x Hx]. by rewrite Hx.
  - intros b Hb. destruct (decide (a ≤ b < a + l)) as [Hin|]; [|apply write_bytes_out; lia].
    rewrite write_bytes_in by lia. rewrite list_lookup_total_alt. unfold data.
    assert (length out ≤ Z.to_nat (b - a))%nat as Hge.
    { destruct (decide (length out ≤ Z.to_nat (b - a))%nat); [done|]. exfalso. apply Hb, elem_of_take.
      exists (Z.to_nat (b - a)). split; [|lia]. apply lookup_seqZ. lia. }
    rewrite lookup_app_r, lookup_drop, read_bytes_lookup by lia. cbn. f_equal. lia.
Qed.

Lemma written_app_nil m m1 m2 addrs1 addrs2 d :
  (length d ≤ length addrs1)%nat → written m m1 addrs1 d → written m1 m2 addrs2 [] → written m m2 (addrs1 ++ addrs2) d.
Proof.
  intros Hl [Hin Hout] [_ Hsame]. assert (∀ b, m2 b = m1 b) as Hm by (intros b; apply Hsame, not_elem_of_nil). split.
  - intros i b Hi Hlt. rewrite Hm. apply Hin; [|done]. by rewrite lookup_app_l in Hi by lia.
  - intros b Hb. rewrite Hm. apply Hout. by rewrite take_app_le in Hb.
Qed.

Lemma take_add_drop {A} (D : list A) l L : take (l + L) D = take l D ++ take L (drop (length (take l D)) D).
Proof.
  rewrite <-take_take_drop. f_equal. rewrite length_take. destruct (decide (l ≤ length D)%nat); [by rewrite Nat.min_l|].
  rewrite Nat.min_r by lia. by rewrite !drop_ge by lia.
Qed.

Lemma wp_read_slices bs off tot m s :
  inode_inv (f_inode s) → roomy efs (f_inode s) → 0 ≤ off < 2 ^ 60 → 0 ≤ tot →
  Forall (fun b : PSlice => 0 < b.2 < 2 ^ 60) bs → NoDup (slice_addrs bs) → tot + Z.of_nat (length (slice_addrs bs)) < 2 ^ 60 →
  let out := take (length (slice_addrs bs)) (drop (Z.to_nat off) (content (f_inode s))) in
  wp (read_slices efs tree_oom bs off tot) (fun r '(m', s') =>
    r = (off + Z.of_nat (length out), tot + Z.of_nat (length out)) ∧ written m m' (slice_addrs bs) out ∧
    inode_inv (f_inode s') ∧ content (f_inode s') = content (f_inode s) ∧ f_os s' = f_os s) (m, s).
Proof.
  revert off tot m s. induction bs as [|[a l] bs IH]; intros off tot m s Hi Hr Ho Ht Hbs Hnd Hlen; cbn zeta.
  { cbn [read_slices]. wp_step. change (slice_addrs []) with (@nil Z). cbn [length take]. rewrite !Z.add_0_r. split_and!; done || apply written_nil. }
  apply Forall_cons in Hbs as [Hl Hbs]. cbn [snd] in Hl. rewrite slice_addrs_cons in *. cbn [fst snd] in *.
  pose proof (content_size _ Hi) as Hs. pose proof (iv_size _ _ _ _ Hi) as Hsz. pose proof (read_bytes_length m a l) as Hrl.
  rewrite length_app, length_seqZ in Hlen. pose proof Hnd as (_ & _ & Hnd2)%NoDup_app.
  cbn [read_slices]. repeat wp_step. apply wp_on_file, wp_on_inner. cbn [snd fst].
  eapply wp_mono; [apply wp_read_content; try done; rewrite ?Hrl; lia|]. rewrite Hrl.
  intros [n buf] i' ([= -> ->] & Hi' & Hc & Hm & Hk). repeat wp_step. cbn [fst snd].
  set (D := drop (Z.to_nat off) (content (f_inode s))) in *. set (out1 := take (Z.to_nat l) D).
  assert (length out1 = Nat.min (Z.to_nat l) (length (content (f_inode s)) - Z.to_nat off)) as Ho1 by (unfold out1, D; by rewrite length_take, length_drop).
  pose proof (written_slice m a l out1 ltac:(lia)) as Hw. rewrite length_app, length_seqZ, take_add_drop. fold out1.
  destruct (Z.eqb_spec (Z.of_nat (length out1)) 0) as [Hz|Hz].
  { wp_step. assert (drop (length out1) D = []) as -> by (apply drop_ge; unfold D; rewrite length_drop; lia).
    assert (out1 = []) as E by (apply nil_length_inv; lia). rewrite E in *. rewrite take_nil. cbn [length app]. rewrite !Z.add_0_r. split_and!; try done.
    eapply (written_app_nil _ _ _ (seqZ a l)); [cbn; lia|exact Hw|apply written_nil]. }
  rewrite !wrap64_small by (unfold is_usize; lia).
  assert (drop (length out1) D = drop (Z.to_nat (off + Z.of_nat (length out1))) (content i')) as HD.
  { unfold D. rewrite drop_drop, Hc. f_equal. lia. }
  eapply wp_mono; [apply (IH _ _ _ (mkFileSt i' (f_os s) (node_usage s))); cbn [f_inode]; try done; try lia|].
  { eapply roomy_same; [exact Hk|apply Hm|done]. }
  cbn [f_inode f_os]. rewrite <-HD. intros r [m' s'] (-> & Hw2 & Hi2 & Hc2 & Ho2). rewrite length_app. split_and!; try done; [f_equal; lia| |congruence].
  destruct (decide (length out1 = Z.to_nat l)) as [E|E].
  - eapply written_app; [by rewrite length_seqZ|done|exact Hw|exact Hw2].
  - assert (drop (length out1) D = []) as E2 by (apply drop_ge; unfold D; rewrite length_drop; lia).
    rewrite E2, take_nil in Hw2 |- *. rewrite app_nil_r. eapply written_app_nil; [rewrite length_seqZ; lia|exact Hw|exact Hw2].
Qed.

(** Overwriting from [off] on. *)
Definition patch (F : list Z) (off : nat) (data : list Z) : list Z := take off F ++ data ++ drop (off + length data) F.

Lemma patch_patch F off d1 d2 : (off ≤ length F)%nat → patch (patch F off d1) (off + length d1) d2 = patch F off (d1 ++ d2).
Proof.
  intros Ho. unfold patch. rewrite (app_assoc (take off F)).
  assert (length (take off F ++ d1) = off + length d1)%nat as Hl by (rewrite length_app, length_take; lia).
  rewrite take_app_le, take_ge by lia. rewrite drop_app_ge, drop_drop, Hl by lia. rewrite <-!app_assoc, length_app. do 4 f_equal. lia.
Qed.

Fixpoint writes_ready (bs : list PSlice) (m : PMem) (off : Z) (i : InodeSt) : Prop :=
  match bs with
  | [] => True
  | (a, l) :: bs =>
      cmd_ready efs N i (WriteAt off (read_bytes m a l)) ∧
      ∀ r i', write_at_block_cache_lock efs tree_oom off (read_bytes m a l) i = Ok (r, i') → writes_ready bs m (off + l) i'
  end.

Lemma wp_write_slices bs off tot m s :
  inode_inv (f_inode s) → 0 ≤ off ≤ size_of (f_inode s) → 0 ≤ tot →
  Forall (fun b : PSlice => 0 < b.2) bs → tot + Z.of_nat (length (slice_addrs bs)) < 2 ^ 60 →
  writes_ready bs m off (f_inode s) →
  wp (write_slices efs tree_oom bs off tot) (fun r '(m', s') =>
    r = (off + Z.of_nat (length (slice_addrs bs)), tot + Z.of_nat (length (slice_addrs bs))) ∧ m' = m ∧
    inode_inv (f_inode s') ∧ content (f_inode s') = patch (content (f_inode s)) (Z.to_nat off) (slice_bytes m bs) ∧
    f_os s' = f_os s) (m, s).
Proof.
  revert off tot s. induction bs as [|[a l] bs IH]; intros off tot s Hi Ho Ht Hbs Hlen Hr; pose proof (content_size _ Hi) as Hs.
  { cbn [write_slices]. wp_step. change (slice_addrs []) with (@nil Z). cbn [length]. rewrite !Z.add_0_r. split_and!; try done.
    unfold patch, slice_bytes. cbn -[content]. by rewrite Nat.add_0_r, take_drop. }
  apply Forall_cons in Hbs as [Hl Hbs]. cbn [snd] in Hl. unfold slice_bytes. rewrite slice_addrs_cons in *. cbn [fst snd] in *.
  rewrite length_app, length_seqZ in Hlen. rewrite fmap_app. pose proof (read_bytes_length m a l) as Hrl. destruct Hr as [Hc Hr].
  pose proof Hc as (_ & _ & Hmax & _). rewrite Hrl in Hmax.
  cbn [write_slices]. repeat wp_step. apply wp_on_file, wp_on_inner. cbn [snd fst].
  destruct (wp_elim _ _ _ (wp_write_content efs tree_oom N R Hgeo _ _ _ Hi Hc)) as (r & i' & Heq & -> & ([= Hb] & Hi' & _) & _).
  eapply wp_intro; [exact Heq|]. specialize (Hr _ _ Heq). rewrite Hrl. wp_step. wp_step; [by apply Z.eqb_eq; lia|].
  assert (content i' = patch (content (f_inode s)) (Z.to_nat off) (read_bytes m a l)) as Hp by done.
  pose proof (content_size _ Hi') as Hs'.
  assert (length (content i') = Nat.max (length (content (f_inode s))) (Z.to_nat off + Z.to_nat l)) as Hlp.
  { rewrite Hp. unfold patch. rewrite !length_app, length_take, length_drop, Hrl. lia. }
  rewrite !wrap64_small by (unfold is_usize; lia). rewrite Z2Nat.id by lia.
  eapply wp_mono; [apply (IH _ _ (mkFileSt i' (f_os s) (node_usage s))); cbn [f_inode]; try done; lia|].
  cbn [f_inode f_os]. intros r [m' s'] (-> & -> & Hi2 & Hc2 & Ho2). rewrite length_app, length_seqZ. split_and!; try done; [f_equal; lia|].
  rewrite Hc2, Hp. replace (Z.to_nat (off + l)) with (Z.to_nat off + length (read_bytes m a l))%nat by lia.
  rewrite patch_patch by lia. done.
Qed.

Lemma wp_read_user m s ub :
  inode_inv (f_inode s) → roomy efs (f_inode s) → 0 ≤ os_offset (f_os s) < 2 ^ 60 →
  Forall (fun b : PSlice => 0 < b.2 < 2 ^ 60) (buffers ub) → NoDup (slice_addrs (buffers ub)) →
  Z.of_nat (length (slice_addrs (buffers ub))) < 2 ^ 60 →
  let out := take (length (slice_addrs (buffers ub))) (drop (Z.to_nat (os_offset (f_os s))) (content (f_inode s))) in
  wp (OSInode_read_user efs tree_oom None ub) (fun r '(m', s') =>
    r = Z.of_nat (length out) ∧ written m m' (slice_addrs (buffers ub)) out ∧ content (f_inode s') = content (f_inode s) ∧
    inode_inv (f_inode s') ∧ os_offset (f_os s') = os_offset (f_os s) + Z.of_nat (length out)) (m, s).
Proof.
  intros Hi Hr Ho Hb Hn Hl out. cbn [OSInode_read_user]. wp_step. apply wp_on_file. unfold get_os_offset. repeat wp_step.
  eapply wp_mono; [apply (wp_read_slices (buffers ub) (os_offset (f_os s)) 0 m s); done || lia|].
  intros r [m' s'] (-> & Hw & Hi' & Hc & Hf). wp_step. apply wp_on_file. unfold put_os_offset. repeat wp_step. by split_and!.
Qed.

Lemma wp_write_user m s ub :
  let start := if append (f_os s) then size_of (f_inode s) else os_offset (f_os s) in
  inode_inv (f_inode s) → 0 ≤ start ≤ size_of (f_inode s) →
  Forall (fun b : PSlice => 0 < b.2) (buffers ub) → Z.of_nat (length (slice_addrs (buffers ub))) < 2 ^ 60 →
  writes_ready (buffers ub) m start (f_inode s) →
  wp (OSInode_write_user efs tree_oom None ub) (fun r '(m', s') =>
    r = Z.of_nat (length (slice_addrs (buffers ub))) ∧ m' = m ∧
    content (f_inode s') = patch (content (f_inode s)) (Z.to_nat start) (slice_bytes m (buffers ub)) ∧
    inode_inv (f_inode s') ∧ os_offset (f_os s') = start + Z.of_nat (length (slice_addrs (buffers ub)))) (m, s).
Proof.
  intros start Hi Hs Hb Hl Hr. cbn [OSInode_write_user]. wp_step. apply wp_on_file. repeat wp_step.
  assert (∀ os, wp (offset ← on_file get_os_offset;
    '(offset, total_write_size) ← write_slices efs tree_oom (buffers ub) offset 0; on_file (put_os_offset offset);; mret total_write_size)
    (fun r '(m', s') => r = Z.of_nat (length (slice_addrs (buffers ub))) ∧ m' = m ∧
      content (f_inode s') = patch (content (f_inode s)) (Z.to_nat start) (slice_bytes m (buffers ub)) ∧
      inode_inv (f_inode s') ∧ os_offset (f_os s') = start + Z.of_nat (length (slice_addrs (buffers ub))))
    (m, mkFileSt (f_inode s) (mkOSInode (os_readable os) (os_writable os) (special_use os) (append os) start) (node_usage s))) as Hgo.
  { intros os. wp_step. apply wp_on_file. unfold get_os_offset. repeat wp_step. cbn [fst snd f_os os_offset].
    eapply wp_mono; [apply (wp_write_slices (buffers ub) start 0 m); done || lia|].
    intros r [m' s'] (-> & -> & Hi' & Hc & Hf). wp_step. apply wp_on_file. unfold put_os_offset. repeat wp_step. by split_and!. }
  cbn [snd]. unfold start in *. destruct (append (f_os s)) eqn:Ha.
  - wp_step. apply wp_on_file, wp_on_inner. unfold get_file_size, get_content. repeat wp_step. apply wp_on_file. unfold put_os_offset. repeat wp_step. apply Hgo.
  - wp_step. specialize (Hgo (f_os s)). by destruct s as [i [] u].
Qed.
End Spec.

(** ** Properties *)

(** C22: an open file behaves as a sequence of bytes with an offset, if each
    operation finds the clusters and frames it needs and each write is not empty and
    starts at or before the end of the file ([os_ready]; for a write after a seek
    behind the end see [sparse_write_stale]).  Every sequence of such reads, writes,
    positioned reads and writes, seeks, truncations and reads of the whole file
    returns what it returns on the sequence of bytes: reads stop
    at the end, writes overwrite and extend, a file opened for appending is
    written at its end, and seeks in front of the start fail. *)
Theorem open_file_refines (efs : EasyFileSystem) (tree_oom : ST PcSys Z) (N : Z) (R : gset Z) (s : FileSt) (cs : list os_cmd) :
  geometry efs N → inode_inv efs N R (f_inode s) → os_all_ready efs tree_oom N s cs →
  ∃ outs s', exec_os_all efs tree_oom cs s = Ok (outs, s') ∧
    exec_file_all (append (f_os s)) cs (open_file efs s) = (outs, open_file efs s') ∧ inode_inv efs N R (f_inode s').
Proof.
  intros Hg. revert s. induction cs as [|c cs IH]; intros s Hi Hr; [by exists [], s|]. destruct Hr as [Hc Hr].
  destruct (wp_elim _ _ _ (exec_os_spec efs tree_oom N R Hg s c Hi Hc)) as (out & s1 & Heq & Hb & Hi1 & Ha & _).
  destruct (IH s1 Hi1 (Hr out s1 Heq)) as (outs & s2 & Heq2 & Hb2 & Hi2). rewrite Ha in Hb2.
  exists (out :: outs), s2. split; [|split; [|done]].
  - cbn [exec_os_all]. unfold mbind, st_bind. by rewrite Heq, Heq2.
  - cbn [exec_file_all]. by rewrite Hb, Hb2.
Qed.

(** C23: reading a file into user memory puts the bytes from the offset on into
    the user's slices, in order, as many as fit or remain, touches no other byte
    of memory, moves the offset by that number and returns it; the file keeps its
    content. *)
Theorem read_user_correct (efs : EasyFileSystem) (tree_oom : ST PcSys Z) (N : Z) (R : gset Z) (m : PMem) (s : FileSt) (ub : UserBuffer) :
  geometry efs N → inode_inv efs N R (f_inode s) → roomy efs (f_inode s) → 0 ≤ os_offset (f_os s) < 2 ^ 60 →
  Forall (fun b : PSlice => 0 < b.2 < 2 ^ 60) (buffers ub) → NoDup (slice_addrs (buffers ub)) →
  Z.of_nat (length (slice_addrs (buffers ub))) < 2 ^ 60 →
  let out := take (length (slice_addrs (buffers ub))) (drop (Z.to_nat (os_offset (f_os s))) (content efs (f_inode s))) in
  ∃ m' s', OSInode_read_user efs tree_oom None ub (m, s) = Ok (Z.of_nat (length out), (m', s')) ∧
    written m m' (slice_addrs (buffers ub)) out ∧ content efs (f_inode s') = content efs (f_inode s) ∧
    inode_inv efs N R (f_inode s') ∧ os_offset (f_os s') = os_offset (f_os s) + Z.of_nat (length out).
Proof.
  intros Hg Hi Hr Ho Hb Hn Hl out.
  destruct (wp_elim _ _ _ (wp_read_user efs tree_oom N R Hg m s ub Hi Hr Ho Hb Hn Hl)) as (r & [m' s'] & Heq & -> & H). by exists m', s'.
Qed.

(** C24: writing user memory to a file, where the offset is not behind the end of
    the file, no slice is empty and there are clusters and frames for it, puts the
    bytes of the user's slices, in
    order, at the offset, or at the end of a file opened for appending, and
    leaves the other bytes of the file; all of them are written, the offset is
    behind them, and memory is unchanged. *)
Theorem write_user_correct (efs : EasyFileSystem) (tree_oom : ST PcSys Z) (N : Z) (R : gset Z) (m : PMem) (s : FileSt) (ub : UserBuffer) :
  let start := if append (f_os s) then fc_size (file_content (snd (f_inode s))) else os_offset (f_os s) in
  geometry efs N → inode_inv efs N R (f_inode s) → 0 ≤ start ≤ fc_size (file_content (snd (f_inode s))) →
  Forall (fun b : PSlice => 0 < b.2) (buffers ub) → Z.of_nat (length (slice_addrs (buffers ub))) < 2 ^ 60 →
  writes_ready efs tree_oom N (buffers ub) m start (f_inode s) →
  ∃ s', OSInode_write_user efs tree_oom None ub (m, s) = Ok (Z.of_nat (length (slice_addrs (buffers ub))), (m, s')) ∧
    content efs (f_inode s') = patch (content efs (f_inode s)) (Z.to_nat start) (slice_bytes m (buffers ub)) ∧
    inode_inv efs N R (f_inode s') ∧ os_offset (f_os s') = start + Z.of_nat (length (slice_addrs (buffers ub))).
Proof.
  intros start Hg Hi Hs Hb Hl Hr.
  destruct (wp_elim _ _ _ (wp_write_user efs tree_oom N R Hg m s ub Hi Hs Hb Hl Hr)) as (r & [m' s'] & Heq & -> & -> & H). by exists s'.
Qed.

(** ** Samples *)

(** A file of 4000 bytes, opened for appending. *)
Definition sample_open (flags : Z) : FileSt :=
  mkFileSt (file_shared, file_inode [2] 4000) (OSInode_open flags false) (Some 0).

Definition sample_os_cmds : list os_cmd := [CWrite (replicate 200 7); CSeek (-202) SEEK_CUR; CRead 100].

Abbreviation append_flags := (Z.lor O_RDWR O_APPEND).

(** A check on the state after [m]. *)
Definition after {S A} (m : outcome (A * S)) (p : S → bool) : bool :=
  match m with Ok (_, t) => p t | _ => false end.

Lemma after_spec {S A} (m : outcome (A * S)) p a s : after m p = true → m = Ok (a, s) → p s = true.
Proof. by intros H ->. Qed.

Definition roomy_b (i : InodeSt) : bool := (Z.to_nat (npg file_efs (clus_list (file_content i.2))) <? room i)%nat.

Lemma open_file_refines_witness :
  ∃ outs s', exec_os_all file_efs no_oom sample_os_cmds (sample_open append_flags) = Ok (outs, s') ∧
    exec_file_all true sample_os_cmds (open_file file_efs (sample_open append_flags)) = (outs, open_file file_efs s').
Proof.
  destruct (open_file_refines file_efs no_oom 8 (list_to_set (seqZ 10 20)) (sample_open append_flags) sample_os_cmds) as (outs & s' & H1 & H2 & _).
  - apply file_geometry.
  - apply file_inode_inv; [by left|done].
  - split; [split_and!; try done; apply sample_room|]. intros out1 s1 Heq1. split.
    + assert (after (exec_os file_efs no_oom (CWrite (replicate 200 7)) (sample_open append_flags)) (fun t => os_offset (f_os t) =? 4200) = true) as Hf by (by vm_compute).
      apply (after_spec _ _ _ _ Hf), Z.eqb_eq in Heq1. unfold os_ready. rewrite Heq1. lia.
    + intros out2 s2 Heq2. split; [|done].
      assert (after ((exec_os file_efs no_oom (CWrite (replicate 200 7));; exec_os file_efs no_oom (CSeek (-202) SEEK_CUR)) (sample_open append_flags))
        (fun t => (os_offset (f_os t) =? 3998) && roomy_b (f_inode t)) = true) as Hf by (by vm_compute).
      apply (after_spec _ _ out2 s2) in Hf; [|unfold mbind, st_bind; by rewrite Heq1].
      apply andb_true_iff in Hf as [Ho%Z.eqb_eq Hr%Nat.ltb_lt]. unfold os_ready, cmd_ready. rewrite Ho. by split_and!.
  - exists outs, s'. exact (conj H1 H2).
Defined.

(** Two slices of user memory. *)
Definition sample_buffer : UserBuffer := UserBuffer_new [(0x1000, 3); (0x8000, 2)].

Lemma read_user_correct_witness :
  ∃ m' s', OSInode_read_user file_efs no_oom None sample_buffer (fun _ => 0, sample_open O_RDONLY) = Ok (5, (m', s')) ∧
    written (fun _ => 0) m' [0x1000; 0x1001; 0x1002; 0x8000; 0x8001] [2; 2; 2; 2; 2].
Proof.
  destruct (read_user_correct file_efs no_oom 8 (list_to_set (seqZ 10 20)) (fun _ => 0) (sample_open O_RDONLY) sample_buffer) as (m' & s' & H1 & H2 & _).
  - apply file_geometry.
  - apply file_inode_inv; [by left|done].
  - by apply Nat.ltb_lt; vm_compute.
  - done.
  - by repeat constructor.
  - apply (bool_decide_eq_true_1 (NoDup (slice_addrs (buffers sample_buffer)))). by vm_compute.
  - done.
  - assert (take (length (slice_addrs (buffers sample_buffer))) (drop (Z.to_nat (os_offset (f_os (sample_open O_RDONLY))))
      (content file_efs (f_inode (sample_open O_RDONLY)))) = [2; 2; 2; 2; 2]) as E by (by vm_compute).
    rewrite E in H1, H2. exists m', s'. exact (conj H1 H2).
Defined.

Lemma write_user_correct_witness :
  ∃ s', OSInode_write_user file_efs no_oom None sample_buffer (fun a => a mod 256, sample_open O_RDWR) = Ok (5, (fun a => a mod 256, s')) ∧
    content file_efs (f_inode s') = patch (content file_efs (f_inode (sample_open O_RDWR))) 0 [0; 1; 2; 0; 1].
Proof.
  destruct (write_user_correct file_efs no_oom 8 (list_to_set (seqZ 10 20)) (fun a => a mod 256) (sample_open O_RDWR) sample_buffer) as (s' & H1 & H2 & _).
  - apply file_geometry.
  - apply file_inode_inv; [by left|done].
  - done.
  - by repeat constructor.
  - done.
  - split; [split_and!; try done; by apply Nat.ltb_lt; vm_compute|]. intros r i' Heq. split; [|done].
    assert (after (write_at_block_cache_lock file_efs no_oom 0 [0; 1; 2] (f_inode (sample_open O_RDWR)))
      (fun t => (fc_size (file_content t.2) =? 4000) && roomy_b t) = true) as Hf by (by vm_compute).
    apply (after_spec _ _ _ _ Hf), andb_true_iff in Heq as [Hs%Z.eqb_eq Hr%Nat.ltb_lt].
    unfold cmd_ready. rewrite Hs. by split_and!.
  - exists s'. exact (conj H1 H2).
Defined.

(** ** Deviations *)

(** [O_RDONLY] is zero and every set of flags contains it, so a file opened for
    writing only can be read. *)
Lemma open_always_readable flags special : os_readable (OSInode_open flags special) = true.
Proof. unfold OSInode_open, flags_contains, O_RDONLY. cbn [os_readable]. by rewrite Z.land_0_r. Qed.

(** A name of more than 128 bytes, which a file can have, does not fit into
    a [Dirent]. *)
Lemma dirent_long_name_panics ino off ty name : NAME_LIMIT < Z.of_nat (length (as_bytes name)) → Dirent_new ino off ty name = Panic.
Proof. intros H. unfold Dirent_new. by rewrite (proj2 (Z.ltb_lt _ _)). Qed.
