(* ===== verification/Tree.v ===== *)
(** * The directory tree

    [kernel/src/fs/directory_tree.rs] and [kernel/src/fs/filesystem.rs]: paths,
    the tree of cached directory nodes, and opening, creating, removing and
    renaming files.  The trait [File] of [kernel/src/fs/file_trait.rs] is a class
    over the state of the file systems; the tree only knows files through it.

    A node is shared through [Arc] pointers and known to files, children and
    caches through [Weak] ones.  Here nodes are numbered, an [Arc] is the number
    of a node of the map and a [Weak] is a number that may have no node any more.
    The only owners of a node between two calls are the map of its father's
    children and [ROOT], so a node that is taken out of that map goes away, with
    what is below it, when the local variables of the call do not hold it any
    more ([release]). *)

From S2P Require Import Prelude Config FdTable Utf Layout OSInode.

(** ** The trait [File], as far as the tree uses it *)

Class FileTrait (S F : Type) : Type := {
  file_get_type : F → ST S DiskInodeType;
  file_open : F → Z → bool → ST S F;
  file_open_subfile : F → ST S (Result (list (list Z * F)));
  file_create : F → list Z → DiskInodeType → ST S (Result F);
  file_link_child : F → list Z → F → ST S (Result unit);
  file_unlink : F → bool → ST S (Result unit);
  file_truncate_size : F → Z → ST S (Result unit);
  file_oom : F → ST S Z;
  file_drop : F → ST S unit;
}.

(** ** [FileSystem] *)

Inductive FS : Type := FS_Null | FS_Fat32.

Record FileSystem : Type := mkFileSystem { fs_id : Z; fs_type : FS }.

(** ** Paths *)

Definition SLASH : Z := 47.
Definition DOT : list Z := [46].
Definition DOTDOT : list Z := [46; 46].

(** [path.split('/')] *)
Fixpoint split_path (path : list Z) : list (list Z) :=
  match path with
  | [] => [[]]
  | c :: path =>
      if c =? SLASH then [] :: split_path path
      else
        match split_path path with
        | [] => [[c]]
        | s :: rest => (c :: s) :: rest
        end
  end.

Definition starts_with_slash (path : list Z) : bool :=
  match path with c :: _ => c =? SLASH | [] => false end.

Definition parse_step (v : list (list Z)) (s : list Z) : list (list Z) :=
  if bool_decide (s = []) || bool_decide (s = DOT) then v
  else if bool_decide (s = DOTDOT) then
    match last v with
    | Some l => if bool_decide (l = DOTDOT) then vec_push v s else removelast v
    | None => vec_push v s
    end
  else vec_push v s.

Definition parse_dir_path (path : list Z) : list (list Z) := foldl parse_step [] (split_path path).

(** [pathv.join("/")] *)
Fixpoint join_path (v : list (list Z)) : list Z :=
  match v with
  | [] => []
  | [s] => s
  | s :: v => s ++ [SLASH] ++ join_path v
  end.

(** The order of [String], that of its characters. *)
Fixpoint name_leb (s t : list Z) : bool :=
  match s, t with
  | [], _ => true
  | _ :: _, [] => false
  | c :: s, d :: t => (c <? d) || ((c =? d) && name_leb s t)
  end.

Definition key_before {V} (p q : list Z * V) : Prop := name_leb p.1 q.1 = true.
#[global] Instance key_before_dec {V} : RelDecision (@key_before V) := fun p q => decide (name_leb p.1 q.1 = true).

(** Early returns of errors. *)
Definition result_bind {S A B} (m : ST S (Result A)) (f : A → ST S (Result B)) : ST S (Result B) :=
  r ← m;
  match r with Okay a => f a | Err e => mret (Err e) end.

Notation "x ←? m ; k" := (result_bind m (fun x => k)) (at level 20, m at level 100, k at level 200, only parsing).

(** ** Nodes *)

Section DirTree.
Context {S F : Type} `{!FileTrait S F}.

Record Node : Type := mkNode {
  spe_usage : Z;
  node_name : list Z;
  filesystem : FileSystem;
  node_file : F;
  father : option nat;
  children : option (gmap (list Z) nat);
}.

(** The nodes, the number of the next one, [ROOT], [DIRECTORY_VEC],
    [PATH_CACHE], [FS_ID_COUNTER] and the state of the file systems. *)
Record Tree : Type := mkTree {
  nodes : gmap nat Node;
  next_node : nat;
  root : nat;
  directory_vec : list nat * Z;
  path_cache : list Z * option nat;
  fs_id_counter : Z;
  fs_state : S;
}.

Definition on_fs {A} (m : ST S A) : ST Tree A := fun t =>
  '(a, s) ← m (fs_state t);
  Ok (a, mkTree (nodes t) (next_node t) (root t) (directory_vec t) (path_cache t) (fs_id_counter t) s).

Definition put_nodes (m : gmap nat Node) : ST Tree unit :=
  modify (fun t => mkTree m (next_node t) (root t) (directory_vec t) (path_cache t) (fs_id_counter t) (fs_state t)).

Definition put_directory_vec (v : list nat * Z) : ST Tree unit :=
  modify (fun t => mkTree (nodes t) (next_node t) (root t) v (path_cache t) (fs_id_counter t) (fs_state t)).

Definition put_path_cache (c : list Z * option nat) : ST Tree unit :=
  modify (fun t => mkTree (nodes t) (next_node t) (root t) (directory_vec t) c (fs_id_counter t) (fs_state t)).

(** [Weak::upgrade] *)
Definition upgrade (w : option nat) : ST Tree (option nat) :=
  gets (fun t => match w with Some n => if nodes t !! n is Some _ then Some n else None | None => None end).

(** The node behind an [Arc]. *)
Definition get_node (n : nat) : ST Tree Node :=
  t ← get_st;
  unwrap (nodes t !! n).

Definition put_node (n : nat) (x : Node) : ST Tree unit :=
  t ← get_st;
  put_nodes (<[n := x]> (nodes t)).

Definition set_children (n : nat) (c : option (gmap (list Z) nat)) : ST Tree unit :=
  x ← get_node n;
  put_node n (mkNode (spe_usage x) (node_name x) (filesystem x) (node_file x) (father x) c).

Definition set_usage (n : nat) (u : Z) : ST Tree unit :=
  x ← get_node n;
  put_node n (mkNode u (node_name x) (filesystem x) (node_file x) (father x) (children x)).

Definition set_father (n : nat) (f : option nat) : ST Tree unit :=
  x ← get_node n;
  put_node n (mkNode (spe_usage x) (node_name x) (filesystem x) (node_file x) f (children x)).

Definition add_special_use (n : nat) : ST Tree unit :=
  x ← get_node n;
  set_usage n (spe_usage x ⊞ 1).

Definition sub_special_use (n : nat) : ST Tree unit :=
  x ← get_node n;
  set_usage n (spe_usage x ⊟ 1).

Definition file_is_dir (f : F) : ST Tree bool :=
  ft ← on_fs (file_get_type f);
  mret (bool_decide (ft = Directory)).

Definition file_is_file (f : F) : ST Tree bool :=
  ft ← on_fs (file_get_type f);
  mret (bool_decide (ft = File)).

(** ** [DIRECTORY_VEC] and the life of nodes *)

Definition insert_directory_vec (n : nat) : ST Tree unit :=
  '(v, k) ← gets directory_vec;
  put_directory_vec (vec_push v n, k).

Definition update_directory_vec : ST Tree unit :=
  t ← get_st;
  put_directory_vec (filter (fun n => is_Some (nodes t !! n)) (directory_vec t).1, 0).

Definition delete_directory_vec : ST Tree unit :=
  '(v, k) ← gets directory_vec;
  put_directory_vec (v, k ⊞ 1);;
  if Z.of_nat (length v) / 2 <=? k ⊞ 1 then update_directory_vec else mret tt.

Definition node_new (name : list Z) (fs : FileSystem) (file : F) (father : option nat) : ST Tree nat :=
  n ← gets next_node;
  modify (fun t => mkTree (<[n := mkNode 0 name fs file father None]> (nodes t)) (n + 1) (root t) (directory_vec t)
    (path_cache t) (fs_id_counter t) (fs_state t));;
  insert_directory_vec n;;
  mret n.

(** The values of a [BTreeMap], in the order of the keys. *)
Definition btree_values (m : gmap (list Z) nat) : list nat := snd <$> merge_sort key_before (map_to_list m).

(** Whether the node is in the map of some node's children. *)
Definition owned (t : Tree) (n : nat) : bool :=
  existsb (fun '(_, x) => bool_decide (n ∈ (map_to_list (default ∅ (children x))).*2)) (map_to_list (nodes t)).

(** An [Arc] of node [n] is dropped while the local variables hold those of
    [held].  If it was the last one, [Drop] runs and then the fields are
    dropped. *)
Fixpoint release_loop (fuel : nat) (held : list nat) (n : nat) : ST Tree unit :=
  match fuel with
  | O => out_of_fuel
  | Datatypes.S fuel =>
      t ← get_st;
      if bool_decide (n ∈ held) || owned t n || (n =? root t)%nat then mret tt
      else
        x ← get_node n;
        put_nodes (delete n (nodes t));;
        delete_directory_vec;;
        on_fs (file_drop (node_file x));;
        st_fold (fun _ c => release_loop fuel held c) tt (btree_values (default ∅ (children x)))
  end.

(** A chain of owners has at most as many nodes as there are. *)
Definition release (held : list nat) (n : nat) : ST Tree unit :=
  t ← get_st;
  release_loop (Datatypes.S (size (nodes t))) held n.

Definition release_opt (held : list nat) (o : option nat) : ST Tree unit :=
  match o with Some n => release held n | None => mret tt end.

(** [children.insert(key, value)]; a value that was there goes away. *)
Definition insert_child (n : nat) (key : list Z) (value : nat) : ST Tree unit :=
  x ← get_node n;
  c ← unwrap (children x);
  set_children n (Some (<[key := value]> c));;
  release_opt [] (c !! key).

(** [FileSystem::new] *)
Definition FileSystem_new (ty : FS) : ST Tree FileSystem :=
  modify (fun t => mkTree (nodes t) (next_node t) (root t) (directory_vec t) (path_cache t) (fs_id_counter t ⊞ 1) (fs_state t));;
  id ← gets fs_id_counter;
  mret (mkFileSystem id ty).

(** ** Looking up names *)

(** The names of an [open_subfile] become the nodes of a new map. *)
Definition cache_entry (n : nat) (fs : FileSystem) (map : gmap (list Z) nat) (e : list Z * F) : ST Tree (gmap (list Z) nat) :=
  let '(name, file) := e in
  value ← node_new name fs file (Some n);
  release_opt [] (map !! name);;
  mret (<[name := value]> map).

Definition cache_all_subfile (n : nat) : ST Tree (Result unit) :=
  x ← get_node n;
  match children x with
  | Some _ => mret (Okay tt)
  | None =>
      d ← file_is_dir (node_file x);
      if negb d then mret (Err ENOTDIR)
      else
        vec ←? on_fs (file_open_subfile (node_file x));
        map ← st_fold (cache_entry n (filesystem x)) ∅ vec;
        set_children n (Some map);;
        mret (Okay tt)
  end.

Definition try_to_open_subfile (n : nat) (name : list Z) : ST Tree (Result nat) :=
  _ ←? cache_all_subfile n;
  x ← get_node n;
  c ← unwrap (children x);
  mret (match c !! name with Some child => Okay child | None => Err ENOENT end).

Fixpoint cd_comp (current : nat) (components : list (list Z)) : ST Tree (Result nat) :=
  match components with
  | [] => mret (Okay current)
  | component :: components =>
      if bool_decide (component = DOTDOT) then
        x ← get_node current;
        par ← upgrade (father x);
        cd_comp (default current par) components
      else
        child ←? try_to_open_subfile current component;
        cd_comp child components
  end.

Definition start_node (self : nat) (path : list Z) : ST Tree nat :=
  r ← gets root;
  mret (if starts_with_slash path then r else self).

Definition cd_path (self : nat) (path : list Z) : ST Tree (Result nat) :=
  n ← start_node self path;
  cd_comp n (parse_dir_path path).

(** [get_cwd]: the names from the root, found from the node up. *)
Fixpoint get_cwd_loop (fuel : nat) (n : nat) (pathv : list (list Z)) : ST Tree (list (list Z)) :=
  match fuel with
  | O => out_of_fuel
  | Datatypes.S fuel =>
      x ← get_node n;
      par ← upgrade (father x);
      match par with
      | Some p => get_cwd_loop fuel p (vec_push pathv (node_name x))
      | None => mret (vec_push pathv (node_name x))
      end
  end.

Definition get_cwd (n : nat) : ST Tree (list Z) :=
  t ← get_st;
  pathv ← get_cwd_loop (size (nodes t)) n [];
  let pathv := reverse pathv in
  mret (if (length pathv =? 1)%nat then [SLASH] else join_path pathv).

(** ** Opening and creating *)

Definition node_create (n : nat) (name : list Z) (ft : DiskInodeType) : ST Tree (Result F) :=
  x ← get_node n;
  on_fs (file_create (node_file x) name ft).

(** The file [name] created below [n], and its node. *)
Definition create_child (n : nat) (name : list Z) (ft : DiskInodeType) : ST Tree (Result nat) :=
  new_file ←? node_create n name ft;
  x ← get_node n;
  value ← node_new name (filesystem x) new_file (Some n);
  insert_child n name value;;
  mret (Okay value).

(** The part of [open] that finds the node when the path is not cached. *)
Definition open_lookup (start : nat) (path : list Z) (flags : Z) : ST Tree (Result nat) :=
  let components := parse_dir_path path in
  inode ←? cd_comp start (removelast components);
  match last components with
  | None => mret (Okay inode)
  | Some last_comp =>
      r ← try_to_open_subfile inode last_comp;
      match r with
      | Okay child => mret (if flags_contains flags (Z.lor O_CREAT O_EXCL) then Err EEXIST else Okay child)
      | Err errno =>
          if negb (errno =? ENOENT) then mret (Err errno)
          else if negb (flags_contains flags O_CREAT) then mret (Err ENOENT)
          else create_child inode last_comp File
      end
  end.

Definition wants_write (flags : Z) : bool := flags_contains flags O_WRONLY || flags_contains flags O_RDWR.

(** The tests of [open] on the node that was found. *)
Definition open_checks (n : nat) (flags : Z) : ST Tree (Result unit) :=
  x ← get_node n;
  _ ←? (if flags_contains flags O_TRUNC then on_fs (file_truncate_size (node_file x) 0) else mret (Okay tt));
  f ← file_is_file (node_file x);
  d ← file_is_dir (node_file x);
  mret (if f && (0 <? spe_usage x) && wants_write flags then Err ETXTBSY
        else if d && wants_write flags then Err EISDIR
        else if negb d && flags_contains flags O_DIRECTORY then Err ENOTDIR
        else Okay tt).

Definition redirect (path : list Z) : list Z :=
  let path := if bool_decide (path ∈ [chars "/touch"; chars "/rm"; chars "/ls"]) then chars "/busybox" else path in
  let path :=
    if bool_decide (path ∈ [chars "/lib/ld-musl-riscv64.so.1"; chars "/lib/ld-musl-riscv64-sf.so.1";
                            chars "/lib/ld-linux-riscv64-lp64d.so.1"])
    then chars "/libc.so" else path in
  if bool_decide (path = chars "/usr/lib/tls_get_new-dtv_dso.so") then chars "./libtls_get_new-dtv_dso.so" else path.

(** The file that is opened, and the node it belongs to. *)
Definition open (self : nat) (path : list Z) (flags : Z) (special_use : bool) : ST Tree (Result (F * nat)) :=
  let path := redirect path in
  start ← start_node self path;
  cache ← gets path_cache;
  cached ← upgrade cache.2;
  inode ←? (if starts_with_slash path && bool_decide (path = cache.1)
            then match cached with Some n => mret (Okay n) | None => open_lookup start path flags end
            else open_lookup start path flags);
  _ ←? open_checks inode flags;
  (if special_use then add_special_use inode else mret tt);;
  (if starts_with_slash path && negb (bool_decide (path = cache.1)) then put_path_cache (path, Some inode) else mret tt);;
  x ← get_node inode;
  f ← on_fs (file_open (node_file x) flags special_use);
  mret (Okay (f, inode)).

Definition mkdir (self : nat) (path : list Z) : ST Tree (Result unit) :=
  start ← start_node self path;
  let components := parse_dir_path path in
  inode ←? cd_comp start (removelast components);
  match last components with
  | None => mret (Err EEXIST)
  | Some last_comp =>
      r ← try_to_open_subfile inode last_comp;
      match r with
      | Okay _ => mret (Err EEXIST)
      | Err errno =>
          if negb (errno =? ENOENT) then mret (Err errno)
          else
            _ ←? create_child inode last_comp Directory;
            mret (Okay tt)
      end
  end.

(** ** Removing *)

(** [children.remove(&key)] *)
Definition remove_child (n : nat) (key : list Z) : ST Tree (option nat) :=
  x ← get_node n;
  c ← unwrap (children x);
  set_children n (Some (delete key c));;
  mret (c !! key).

Definition tree_delete (self : nat) (path : list Z) (delete_directory : bool) : ST Tree (Result unit) :=
  if bool_decide (last (split_path path) = Some DOT) then mret (Err EINVAL)
  else
    start ← start_node self path;
    let components := parse_dir_path path in
    last_comp ← unwrap (last components);
    inode ←? cd_comp start components;
    x ← get_node inode;
    if 0 <? spe_usage x then mret (Err EBUSY)
    else
      d ← file_is_dir (node_file x);
      if negb delete_directory && d then mret (Err EISDIR)
      else if delete_directory && negb d then mret (Err ENOTDIR)
      else
        par ← upgrade (father x);
        match par with
        | None => mret (Err EACCES)
        | Some par_inode =>
            _ ←? on_fs (file_unlink (node_file x) true);
            value ← remove_child par_inode last_comp;
            release_opt [inode] value;;
            release [] inode;;
            mret (Okay tt)
        end.

(** ** Renaming *)

(** [new_comps.starts_with(&old_comps)] *)
Definition comps_prefix (old new : list (list Z)) : bool := bool_decide (take (length old) new = old).

(** The guard of the new parent's children lives until the end of the [match] on
    the lookup.  Taking the new name out locks them again: the call does not return. *)
Definition rename_over (old_inode new_par_inode : nat) (new_key : list Z) : ST Tree (Result unit) :=
  old ← get_node old_inode;
  r ← try_to_open_subfile new_par_inode new_key;
  match r with
  | Err errno => mret (if errno =? ENOENT then Okay tt else Err errno)
  | Okay new_inode =>
      new ← get_node new_inode;
      nd ← file_is_dir (node_file new);
      od ← file_is_dir (node_file old);
      if nd && negb od then mret (Err EISDIR)
      else if od && negb nd then mret (Err ENOTDIR)
      else if 0 <? spe_usage new then mret (Err EBUSY)
      else
        par ← get_node new_par_inode;
        _ ←? on_fs (file_unlink (node_file par) true);
        out_of_fuel
  end.

(** The file moves on the disk. *)
Definition rename_files (old_inode new_par_inode : nat) (old_last_comp : list Z) : ST Tree (Result unit) :=
  old ← get_node old_inode;
  par ← get_node new_par_inode;
  _ ←? on_fs (file_unlink (node_file old) false);
  match fs_type (filesystem old) with
  | FS_Fat32 => on_fs (file_link_child (node_file par) old_last_comp (node_file old))
  | FS_Null => mret (Err EACCES)
  end.

(** The second lock of the same node would wait for the first one: such a call
    does not return. *)
Definition rename (old_path new_path : list Z) : ST Tree (Result unit) :=
  rust_assert (starts_with_slash old_path);;
  rust_assert (starts_with_slash new_path);;
  let old_comps := parse_dir_path old_path in
  let new_comps := parse_dir_path new_path in
  if bool_decide (old_comps = new_comps) then mret (Okay tt)
  else if comps_prefix old_comps new_comps then mret (Err EINVAL)
  else
    old_last_comp ← unwrap (last old_comps);
    new_last_comp ← unwrap (last new_comps);
    r ← gets root;
    old_par_inode ←? cd_comp r (removelast old_comps);
    new_par_inode ←? cd_comp r (removelast new_comps);
    (if negb (bool_decide (removelast old_comps = removelast new_comps)) && (old_par_inode =? new_par_inode)%nat
     then out_of_fuel else mret tt);;
    old_inode ←? try_to_open_subfile old_par_inode old_last_comp;
    old ← get_node old_inode;
    new_par ← get_node new_par_inode;
    if 0 <? spe_usage old then mret (Err EBUSY)
    else if negb (fs_id (filesystem old) =? fs_id (filesystem new_par)) then mret (Err EXDEV)
    else
      _ ←? rename_over old_inode new_par_inode new_last_comp;
      value ← remove_child old_par_inode old_last_comp;
      value ← unwrap value;
      r ← rename_files old_inode new_par_inode old_last_comp;
      res ← (match r with
             | Err errno => release [old_inode; new_par_inode; old_par_inode] value;; mret (Err errno)
             | Okay _ =>
                 set_father value (Some new_par_inode);;
                 insert_child new_par_inode new_last_comp value;;
                 mret (Okay tt)
             end);
      release [new_par_inode; old_par_inode] old_inode;;
      release [old_par_inode] new_par_inode;;
      release [] old_par_inode;;
      mret res.

(** ** Memory pressure *)

Definition MAX_FAIL_TIME : nat := 3.

Definition oom_round : ST Tree Z :=
  v ← gets directory_vec;
  st_fold (fun dropped n =>
    x ← get_node n;
    d ← on_fs (file_oom (node_file x));
    mret (dropped ⊞ d)) 0 v.1.

(** At most [MAX_FAIL_TIME] rounds. *)
Fixpoint oom_loop (rounds : nat) : ST Tree Z :=
  match rounds with
  | O => mret 0
  | Datatypes.S rounds =>
      dropped ← oom_round;
      if 0 <? dropped then mret dropped else oom_loop rounds
  end.

Definition oom : ST Tree Z :=
  update_directory_vec;;
  oom_loop MAX_FAIL_TIME.

(** ** The initial tree *)

(** The lazily created [ROOT]. *)
Definition root_tree (root_file : F) (s : S) : outcome Tree :=
  let t := mkTree ∅ 0 0 ([], 0) ([], None) 0 s in
  '(_, t) ← (fs ← FileSystem_new FS_Fat32; n ← node_new [] fs root_file None; add_special_use n) t;
  Ok t.

Section Init.
Context (null zero hwclock : F).

Definition init_device_directory : ST Tree unit :=
  r ← gets root;
  mkdir r (chars "/dev");;
  dev_inode ← cd_path r (chars "/dev");
  match dev_inode with
  | Err _ => panic
  | Okay dev_inode =>
      mkdir dev_inode (chars "shm");;
      mkdir dev_inode (chars "misc");;
      fs ← FileSystem_new FS_Null;
      null_dev ← node_new (chars "null") fs null (Some dev_inode);
      fs ← FileSystem_new FS_Null;
      zero_dev ← node_new (chars "zero") fs zero (Some dev_inode);
      insert_child dev_inode (chars "null") null_dev;;
      insert_child dev_inode (chars "zero") zero_dev;;
      misc_inode ← cd_path dev_inode (chars "./misc");
      match misc_inode with
      | Err _ => panic
      | Okay misc_inode =>
          fs ← FileSystem_new FS_Null;
          hwclock_dev ← node_new (chars "rtc") fs hwclock (Some misc_inode);
          cache_all_subfile misc_inode;;
          insert_child misc_inode (chars "rtc") hwclock_dev
      end
  end.

Definition init_tmp_directory : ST Tree unit :=
  r ← gets root;
  mkdir r (chars "/tmp");;
  mret tt.

Definition init_proc_directory : ST Tree unit :=
  r ← gets root;
  mkdir r (chars "/proc");;
  open r (chars "/proc/meminfo") O_CREAT false;;
  open r (chars "/proc/mounts") O_CREAT false;;
  mret tt.

Definition init_fs : ST Tree unit :=
  init_device_directory;;
  init_tmp_directory;;
  init_proc_directory.
End Init.

(** ** File descriptors

    The calls of [FileDescriptor] that take a path, on the file of the
    descriptor and the node that the file points to. *)

Record Handle : Type := mkHandle { h_cloexec : bool; h_file : F; h_node : option nat }.

Definition fd_get_cwd (fd : Handle) : ST Tree (option (list Z)) :=
  n ← upgrade (h_node fd);
  match n with
  | Some n => c ← get_cwd n; mret (Some c)
  | None => mret None
  end.

(** The node that a path of the descriptor starts from. *)
Definition fd_base (fd : Handle) (path : list Z) : ST Tree (Result nat) :=
  f ← file_is_file (h_file fd);
  if f && negb (starts_with_slash path) then mret (Err ENOTDIR)
  else
    n ← upgrade (h_node fd);
    mret (match n with Some n => Okay n | None => Err ENOENT end).

Definition fd_open (fd : Handle) (path : list Z) (flags : Z) (special_use : bool) : ST Tree (Result Handle) :=
  if bool_decide (path = []) then mret (Okay fd)
  else
    inode ←? fd_base fd path;
    file ←? open inode path flags special_use;
    mret (Okay (mkHandle (flags_contains flags O_CLOEXEC) file.1 (Some file.2))).

Definition fd_cd (fd : Handle) (path : list Z) : ST Tree (Result Handle) :=
  fd_open fd path (Z.lor O_DIRECTORY O_RDONLY) true.

Definition fd_mkdir (fd : Handle) (path : list Z) : ST Tree (Result unit) :=
  inode ←? fd_base fd path;
  mkdir inode path.

Definition fd_delete (fd : Handle) (path : list Z) (delete_directory : bool) : ST Tree (Result unit) :=
  inode ←? fd_base fd path;
  tree_delete inode path delete_directory.

Definition fd_rename (old_fd : Handle) (old_path : list Z) (new_fd : Handle) (new_path : list Z) : ST Tree (Result unit) :=
  oldf ← file_is_file (h_file old_fd);
  newf ← file_is_file (h_file new_fd);
  if oldf && negb (starts_with_slash old_path) then mret (Err ENOTDIR)
  else if newf && negb (starts_with_slash new_path) then mret (Err ENOTDIR)
  else
    old_inode ← upgrade (h_node old_fd);
    new_inode ← upgrade (h_node new_fd);
    match old_inode, new_inode with
    | Some old_inode, Some new_inode =>
        old_cwd ← get_cwd old_inode;
        new_cwd ← get_cwd new_inode;
        rename (join_path [old_cwd; old_path]) (join_path [new_cwd; new_path])
    | _, _ => mret (Err ENOENT)
    end.
End DirTree.
