(* ===== verification/RamFs.v ===== *)
(** * A file system in memory

    An instance of the trait [File] of [Tree.v], for examples of the calls of the
    directory tree: numbered files with a type, a size and, for directories, the
    names in them.  As in the FAT file system a directory with names in it cannot
    be unlinked. *)

From S2P Require Import Prelude Config FdTable Utf Layout OSInode Tree.

Record RamFile : Type := mkRamFile { rf_type : DiskInodeType; rf_size : Z; rf_names : list (list Z * nat) }.

Record Ram : Type := mkRam { rf_files : gmap nat RamFile; rf_next : nat }.

Definition ram_file (f : nat) : ST Ram RamFile :=
  s ← get_st;
  unwrap (rf_files s !! f).

Definition ram_put (f : nat) (x : RamFile) : ST Ram unit := modify (fun s => mkRam (<[f := x]> (rf_files s)) (rf_next s)).

(** The names of a directory that are not [f]. *)
Definition ram_without (f : nat) (x : RamFile) : RamFile :=
  mkRamFile (rf_type x) (rf_size x) (filter (fun e => e.2 ≠ f) (rf_names x)).

Definition ram_link (d : nat) (name : list Z) (f : nat) : ST Ram (Result unit) :=
  x ← ram_file d;
  ram_put d (mkRamFile (rf_type x) (rf_size x) (rf_names x ++ [(name, f)]));;
  mret (Okay tt).

Definition ram_create (d : nat) (name : list Z) (ft : DiskInodeType) : ST Ram (Result nat) :=
  f ← gets rf_next;
  modify (fun s => mkRam (<[f := mkRamFile ft 0 []]> (rf_files s)) (f + 1));;
  _ ←? ram_link d name f;
  mret (Okay f).

Definition ram_unlink (f : nat) (delete : bool) : ST Ram (Result unit) :=
  x ← ram_file f;
  if bool_decide (rf_type x = Directory) && negb (bool_decide (rf_names x = [])) then mret (Err ENOTEMPTY)
  else
    modify (fun s => mkRam (ram_without f <$> rf_files s) (rf_next s));;
    mret (Okay tt).

Definition ram_truncate (f : nat) (size : Z) : ST Ram (Result unit) :=
  x ← ram_file f;
  ram_put f (mkRamFile (rf_type x) size (rf_names x));;
  mret (Okay tt).

#[global] Instance ram_trait : FileTrait Ram nat := {
  file_get_type f := x ← ram_file f; mret (rf_type x);
  file_open f _ _ := mret f;
  file_open_subfile f := x ← ram_file f; mret (Okay (rf_names x));
  file_create := ram_create;
  file_link_child := ram_link;
  file_unlink := ram_unlink;
  file_truncate_size := ram_truncate;
  file_oom _ := mret 0;
  file_drop _ := mret tt;
}.

(** "/a" and "/d/f" are files of five bytes, "/e" is an empty directory. *)
Definition ram_sample : Ram :=
  mkRam (list_to_map [(0%nat, mkRamFile Directory 0 [(chars "a", 1%nat); (chars "d", 2%nat); (chars "e", 4%nat)]);
    (1%nat, mkRamFile File 5 []); (2%nat, mkRamFile Directory 0 [(chars "f", 3%nat)]); (3%nat, mkRamFile File 5 []);
    (4%nat, mkRamFile Directory 0 [])]) 5.

(** The tree and the result after a call. *)
Definition after {A} (m : ST (@Tree Ram nat) A) (t : @Tree Ram nat) : @Tree Ram nat :=
  match m t with Ok (_, t') => t' | _ => t end.

Definition returns {A} (m : ST (@Tree Ram nat) A) (t : @Tree Ram nat) : option A :=
  match m t with Ok (a, _) => Some a | _ => None end.
