(* ===== verification/TreeSpec.v ===== *)
(** * The directory tree stays a tree, and paths lead where they should

    The invariant of the nodes of [Tree.v] under every call, what the components
    of a path lead to, and what creating and removing do.  What the files do is
    not restricted: the invariant holds in every state that a call leaves, and
    the other theorems name the results of the files they need. *)

From stdpp Require Import relations.
From S2P Require Import Prelude Config FdTable Utf Layout OSInode Tree.

(** ** Stepping through a call *)

Lemma wlp_result_bind {S A B} (m : ST S (Result A)) (f : A → ST S (Result B)) Q s :
  wlp m (fun r s' => match r with Okay a => wlp (f a) Q s' | Err e => Q (Err e) s' end) s → wlp (result_bind m f) Q s.
Proof. intros H. unfold result_bind. apply wlp_bind. eapply wlp_mono; [exact H|]. intros [a|e] s1 H1; [done|by apply wlp_ret]. Qed.

Ltac tree_step :=
  lazymatch goal with
  | |- wlp (result_bind _ _) _ _ => apply wlp_result_bind
  | _ => wlp_step
  end.

Section Spec.
Context {S F : Type} `{!FileTrait S F}.
Implicit Types t : @Tree S F.
Implicit Types x : @Node F.

(** ** The shape of the tree *)

Definition child t (n : nat) (k : list Z) (m : nat) : Prop :=
  ∃ x c, nodes t !! n = Some x ∧ children x = Some c ∧ c !! k = Some m.

Definition edge t (n m : nat) : Prop := ∃ k, child t n k m.

(** [D] are the nodes that no node owns: taken out, or not yet put in. *)
Record wf (D : gset nat) t : Prop := {
  wf_root : is_Some (nodes t !! root t);
  wf_top x : nodes t !! root t = Some x → father x = None;
  wf_root_in : root t ∉ D;
  wf_child n k m : child t n k m → m ≠ root t ∧ (m ∉ D) ∧ ∃ y, nodes t !! m = Some y ∧ father y = Some n;
  wf_unique n k1 k2 m : child t n k1 m → child t n k2 m → k1 = k2;
  wf_loose d : d ∈ D → is_Some (nodes t !! d);
  wf_reach n : is_Some (nodes t !! n) → ∃ o, (o = root t ∨ o ∈ D) ∧ rtc (edge t) o n;
  wf_ids n : is_Some (nodes t !! n) → (n < next_node t)%nat;
  wf_vec n : is_Some (nodes t !! n) → n ∈ (directory_vec t).1;
}.

(** Only the nodes and [DIRECTORY_VEC] matter. *)
Lemma wf_ext D t t' :
  wf D t → nodes t' = nodes t → root t' = root t → next_node t' = next_node t →
  (∀ n, is_Some (nodes t !! n) → n ∈ (directory_vec t').1) → wf D t'.
Proof.
  intros [H1 H0 H2 H3 H4 H5 H6 H7 H8] En Er Ex Hv.
  assert (∀ n k m, child t' n k m ↔ child t n k m) as Hc by (intros; unfold child; by rewrite En).
  assert (∀ o n, rtc (edge t) o n → rtc (edge t') o n) as He.
  { intros o n. apply rtc_subrel. intros a b [k Hk]. exists k. by apply Hc. }
  split; rewrite ?En, ?Er, ?Ex; try done.
  - intros n k m Hm%Hc. by apply (H3 n k m).
  - intros n k1 k2 m Hk1%Hc Hk2%Hc. by eapply H4.
  - intros n Hn. destruct (H6 n Hn) as (o & Ho & Hr). exists o. split; [done|by apply He].
Qed.

Lemma wlp_on_fs {A} (m : ST S A) (Q : A → Tree → Prop) t :
  (∀ a s, Q a (mkTree (nodes t) (next_node t) (root t) (directory_vec t) (path_cache t) (fs_id_counter t) s)) → wlp (on_fs m) Q t.
Proof. intros H a t' E. unfold on_fs in E. destruct (m (fs_state t)) as [[b s]| |]; [|done..]. injection E as <- <-. apply H. Qed.

(** The nodes in a map of children. *)
Definition kids (c : option (gmap (list Z) nat)) : gset nat := list_to_set ((map_to_list (default ∅ c)).*2).

Lemma elem_of_kids c m : m ∈ kids c ↔ ∃ c' k, c = Some c' ∧ c' !! k = Some m.
Proof.
  unfold kids. rewrite elem_of_list_to_set, list_elem_of_fmap. split.
  - intros ([k m'] & -> & Hk%elem_of_map_to_list). destruct c as [c|]; cbn in Hk; [by exists c, k|by rewrite lookup_empty in Hk].
  - intros (c' & k & -> & Hk). exists (k, m). split; [done|]. by apply elem_of_map_to_list.
Qed.

Lemma edge_kids t n x m : nodes t !! n = Some x → edge t n m ↔ m ∈ kids (children x).
Proof.
  intros Hn. rewrite elem_of_kids. split.
  - intros (k & x' & c & Hn' & Hc & Hk). rewrite Hn in Hn'. injection Hn' as <-. by exists c, k.
  - intros (c & k & Hc & Hk). exists k, x, c. done.
Qed.

Lemma owned_spec t n : owned t n = true ↔ ∃ p, edge t p n.
Proof.
  unfold owned. rewrite existsb_exists. split.
  - intros ([p x] & Hp & Hb%bool_decide_eq_true). apply list_elem_of_In, elem_of_map_to_list in Hp. exists p. eapply edge_kids; [done|].
    by apply elem_of_list_to_set.
  - intros (p & k & x & c & Hp & Hc & Hk). exists (p, x). split; [by apply list_elem_of_In, elem_of_map_to_list|].
    apply bool_decide_eq_true. rewrite Hc. cbn. apply list_elem_of_fmap. exists (k, n). split; [done|by apply elem_of_map_to_list].
Qed.

(** A node without an owner is loose, or the root. *)
Lemma loose_node D t n x : wf D t → nodes t !! n = Some x → owned t n = false → n ≠ root t → n ∈ D.
Proof.
  intros Hw Hn Ho Hr. destruct (wf_reach D t Hw n (mk_is_Some _ _ Hn)) as (o & Hor & Hrt).
  apply rtc_inv_r in Hrt as [->|(p & _ & He)]; [by destruct Hor|].
  assert (owned t n = true) by (apply owned_spec; eauto). congruence.
Qed.

(** Nodes below the root are not loose, and their owners are below the root. *)
Lemma reach_not_loose D t n : wf D t → rtc (edge t) (root t) n → n ∉ D.
Proof.
  intros Hw Hr. apply rtc_inv_r in Hr as [<-|(p & _ & k & Hk)]; [apply (wf_root_in D t Hw)|]. by apply (wf_child D t Hw p k n).
Qed.

Lemma rtc_closed {A} (R : relation A) (P : A → Prop) a b : (∀ y z, P y → R y z → P z) → P a → rtc R a b → P b.
Proof. intros Hs Ha Hr. revert Ha. induction Hr; eauto. Qed.

(** The children of [n] change from those of [x] to [c]: nodes of [D] that are
    put in must have [n] as father, and nodes taken out become loose. *)
Lemma wf_set_children D t t' n x c :
  wf D t → nodes t !! n = Some x →
  nodes t' = <[n := mkNode (spe_usage x) (node_name x) (filesystem x) (node_file x) (father x) c]> (nodes t) →
  root t' = root t → next_node t' = next_node t → directory_vec t' = directory_vec t →
  (∀ c' k1 k2 m, c = Some c' → c' !! k1 = Some m → c' !! k2 = Some m → k1 = k2) →
  (∀ m, m ∈ kids c → m ∉ kids (children x) → m ∈ D ∧ ∃ y, nodes t !! m = Some y ∧ father y = Some n) →
  (∃ o, (o = root t ∨ o ∈ D) ∧ (o ∉ kids c) ∧ rtc (edge t) o n) →
  wf ((D ∖ kids c) ∪ (kids (children x) ∖ kids c)) t'.
Proof.
  intros Hw Hn En Er Ex Ev Hinj Hnew (o & Ho & Hoc & Hon). set (D' := _ ∪ _).
  set (x' := mkNode _ _ _ _ _ _) in En. destruct Hw as [H1 H0 H2 H3 H4 H5 H6 H7 H8].
  assert (∀ m, is_Some (nodes t' !! m) ↔ is_Some (nodes t !! m)) as Hdom.
  { intros m. rewrite En. destruct (decide (m = n)) as [->|]; [rewrite lookup_insert_eq, Hn; naive_solver|by rewrite lookup_insert_ne]. }
  assert (∀ m y, nodes t !! m = Some y → ∃ y', nodes t' !! m = Some y' ∧ father y' = father y) as Hfa.
  { intros m y Hm. rewrite En. destruct (decide (m = n)) as [->|].
    - rewrite lookup_insert_eq. exists x'. split; [done|]. rewrite Hn in Hm. by injection Hm as <-.
    - rewrite lookup_insert_ne by done. by exists y. }
  assert (∀ a k m, child t' a k m ↔ (a ≠ n ∧ child t a k m) ∨ (a = n ∧ ∃ c', c = Some c' ∧ c' !! k = Some m)) as Hch.
  { intros a k m. unfold child. rewrite En. destruct (decide (a = n)) as [->|Hne].
    - rewrite lookup_insert_eq. split; [intros (? & c' & [= <-] & Hc & Hk); right; eauto|intros [[? _]|(_ & c' & Hc & Hk)]; [done|]; by exists x', c'].
    - rewrite lookup_insert_ne by done. naive_solver. }
  assert (∀ m, m ∈ kids (children x) → m ≠ root t ∧ (m ∉ D) ∧ ∃ y, nodes t !! m = Some y ∧ father y = Some n) as Hold.
  { intros m Hm. apply (edge_kids t n x m Hn) in Hm as [k Hk]. by apply (H3 n k m). }
  assert (∀ m, m ∈ kids c → m ≠ root t ∧ ∃ y, nodes t !! m = Some y ∧ father y = Some n) as Hkid.
  { intros m Hm. destruct (decide (m ∈ kids (children x))) as [Hin|Hin]; [destruct (Hold m Hin) as (? & _ & ?); done|].
    destruct (Hnew m Hm Hin) as [Hd Hf]. split; [by intros ->|done]. }
  assert (∀ z, (∃ o', (o' = root t ∨ o' ∈ D') ∧ rtc (edge t') o' z) → ∀ w, edge t z w → ∃ o', (o' = root t ∨ o' ∈ D') ∧ rtc (edge t') o' w) as Hstep.
  { intros z (o' & Ho' & Hz) w Hzw. destruct (decide (z = n)) as [->|Hne].
    - apply (edge_kids t n x w Hn) in Hzw. destruct (decide (w ∈ kids c)) as [Hin|Hin]; [|exists w; split; [right; set_solver|done]].
      exists o'. split; [done|]. eapply rtc_r; [exact Hz|]. apply elem_of_kids in Hin as (c' & k & Hc & Hk). exists k. apply Hch. right. eauto.
    - exists o'. split; [done|]. eapply rtc_r; [exact Hz|]. destruct Hzw as [k Hk]. exists k. apply Hch. by left. }
  pose (P := fun z => ∃ o', (o' = root t ∨ o' ∈ D') ∧ rtc (edge t') o' z).
  assert (P n) as Hpn.
  { apply (rtc_closed (edge t) P o n); [intros y z1 Hy Hyz; by apply (Hstep y)| |done]. exists o. split; [|done]. destruct Ho as [Ho|Ho]; [by left|right; unfold D'; set_solver]. }
  split; rewrite ?Er, ?Ex, ?Ev.
  - by apply Hdom.
  - intros z Hz. destruct H1 as [y Hy]. destruct (Hfa _ y Hy) as (y' & Hy' & Hf). rewrite Hz in Hy'. injection Hy' as <-. rewrite Hf. by apply H0.
  - intros [Hr|Hr]%elem_of_union; [set_solver|]. apply elem_of_difference in Hr as [Hr _]. by destruct (Hold _ Hr).
  - intros a k m Hk. apply Hch in Hk as [[Ha Hk]|[-> (c' & Hc & Hk)]].
    + destruct (H3 a k m Hk) as (Hm1 & Hm2 & y & Hy & Hf). destruct (Hfa m y Hy) as (y' & Hy' & Hf'). split; [done|]. split; [|exists y'; by rewrite Hf'].
      intros [Hm|Hm]%elem_of_union; [set_solver|]. apply elem_of_difference in Hm as [Hm _]. destruct (Hold m Hm) as (_ & _ & y2 & Hy2 & Hf2). congruence.
    + assert (m ∈ kids c) as Hin by (apply elem_of_kids; eauto). destruct (Hkid m Hin) as (Hm & y & Hy & Hf). destruct (Hfa m y Hy) as (y' & Hy' & Hf').
      split; [done|]. split; [unfold D'; set_solver|exists y'; by rewrite Hf'].
  - intros a k1 k2 m Hk1 Hk2. apply Hch in Hk1 as [[Ha Hk1]|[-> (c1 & Hc1 & Hk1)]], Hk2 as [[Ha' Hk2]|[E (c2 & Hc2 & Hk2)]]; try done; [by eapply H4|].
    rewrite Hc1 in Hc2. injection Hc2 as <-. by eapply Hinj.
  - intros d [Hd|Hd]%elem_of_union; apply Hdom; [apply H5; set_solver|]. apply elem_of_difference in Hd as [Hd _]. destruct (Hold d Hd) as (_ & _ & y & Hy & _). by exists y.
  - intros z Hz%Hdom. destruct (H6 z Hz) as (a & Ha & Haz). apply (rtc_closed (edge t) P a z); [intros y z1 Hy Hyz; by apply (Hstep y)| |done].
    destruct (decide (a ∈ kids c)) as [Hin|Hin].
    + destruct Hpn as (o' & Ho' & Hn'). exists o'. split; [done|]. eapply rtc_r; [exact Hn'|]. apply elem_of_kids in Hin as (c' & k & Hc & Hk). exists k. apply Hch. right. eauto.
    + exists a. split; [|done]. destruct Ha as [Ha|Ha]; [by left|right; unfold D'; set_solver].
  - intros m Hm%Hdom. by apply H7.
  - intros m Hm%Hdom. by apply H8.
Qed.

(** A loose node goes away, its children become loose. *)
Lemma wf_destroy D t t' n x :
  wf D t → n ∈ D → nodes t !! n = Some x →
  nodes t' = delete n (nodes t) → root t' = root t → next_node t' = next_node t →
  (∀ m, is_Some (nodes t' !! m) → m ∈ (directory_vec t').1) →
  wf ((D ∖ {[n]}) ∪ kids (children x)) t'.
Proof.
  intros [H1 H0 H2 H3 H4 H5 H6 H7 H8] Hd Hn En Er Ex Hv.
  assert (∀ a k m, child t' a k m ↔ a ≠ n ∧ child t a k m) as Hch.
  { intros a k m. unfold child. rewrite En. destruct (decide (a = n)) as [->|Hne].
    - rewrite lookup_delete_eq. naive_solver.
    - rewrite lookup_delete_ne by done. naive_solver. }
  assert (∀ m, m ≠ n → nodes t' !! m = nodes t !! m) as Hlk by (intros m Hm; by rewrite En, lookup_delete_ne).
  assert (∀ m, m ∈ kids (children x) → ∃ k, child t n k m) as Hkid by (intros m Hm; by apply (edge_kids t n x m Hn) in Hm).
  assert (root t ≠ n) as Hrn by (by intros <-).
  split; rewrite ?Er, ?Ex, ?(Hlk (root t) Hrn); try done.
  - intros [Hr|Hr]%elem_of_union; [set_solver|]. destruct (Hkid _ Hr) as [k Hk]. by destruct (H3 n k _ Hk).
  - intros a k m [Ha Hk]%Hch. destruct (H3 a k m Hk) as (Hm1 & Hm2 & y & Hy & Hf). assert (m ≠ n) by (by intros ->).
    split; [done|]. split; [|exists y; by rewrite Hlk]. intros [Hm|Hm]%elem_of_union; [set_solver|].
    destruct (Hkid m Hm) as [k' Hk']. destruct (H3 n k' m Hk') as (_ & _ & y' & Hy' & Hf'). congruence.
  - intros a k1 k2 m [_ Hk1]%Hch [_ Hk2]%Hch. by eapply H4.
  - intros d [Hd1|Hd1]%elem_of_union.
    + apply elem_of_difference in Hd1 as [Hd1 Hd2]. rewrite Hlk by set_solver. by apply H5.
    + destruct (Hkid d Hd1) as [k Hk]. destruct (H3 n k d Hk) as (_ & Hm & y & Hy & _). rewrite Hlk by (by intros ->). by exists y.
  - intros z Hz. assert (z ≠ n) as Hzn by (intros ->; rewrite En, lookup_delete_eq in Hz; by destruct Hz).
    rewrite Hlk in Hz by done. destruct (H6 z Hz) as (o & Ho & Hr).
    enough (z = n ∨ ∃ o', (o' = root t ∨ o' ∈ D ∖ {[n]} ∪ kids (children x)) ∧ rtc (edge t') o' z) as [?|?] by done.
    apply (rtc_closed (edge t) (fun z => z = n ∨ ∃ o', (o' = root t ∨ o' ∈ D ∖ {[n]} ∪ kids (children x)) ∧ rtc (edge t') o' z) o z); [| |done].
    + intros y w [->|(o' & Ho' & Hy)] Hyw; right.
      * apply (edge_kids t n x w Hn) in Hyw. exists w. split; [right; set_solver|done].
      * destruct (decide (y = n)) as [->|Hne]; [apply (edge_kids t n x w Hn) in Hyw; exists w; split; [right; set_solver|done]|].
        exists o'. split; [done|]. eapply rtc_r; [exact Hy|]. destruct Hyw as [k Hk]. exists k. by apply Hch.
    + destruct (decide (o = n)) as [->|Hne]; [by left|right]. exists o. split; [|done]. destruct Ho as [->|Ho]; [by left|right; set_solver].
  - intros m Hm. destruct (decide (m = n)) as [->|]; [rewrite En, lookup_delete_eq in Hm; by destruct Hm|]. apply H7. by rewrite <-Hlk.
Qed.

Lemma wf_same_nodes D t t' : wf D t → nodes t' = nodes t → root t' = root t → next_node t' = next_node t → directory_vec t' = directory_vec t → wf D t'.
Proof. intros Hw En Er Ex Ev. eapply wf_ext; try done. intros n Hn. rewrite Ev. by apply (wf_vec D t Hw). Qed.

(** What a call leaves as it is. *)
Definition frame t t' : Prop := nodes t' = nodes t ∧ root t' = root t ∧ next_node t' = next_node t.

(** [DIRECTORY_VEC] keeps the nodes that are there. *)
Lemma wlp_delete_directory_vec t :
  (∀ m, is_Some (nodes t !! m) → m ∈ (directory_vec t).1) →
  wlp delete_directory_vec (fun _ t' => frame t t' ∧ ∀ m, is_Some (nodes t !! m) → m ∈ (directory_vec t').1) t.
Proof.
  intros Hv. unfold delete_directory_vec. repeat tree_step. destruct (directory_vec t) as [v k] eqn:E. unfold put_directory_vec, update_directory_vec. repeat tree_step.
  destruct (_ <=? _); unfold put_directory_vec; repeat tree_step; cbn [directory_vec nodes fst].
  - split; [done|]. intros m Hm. apply list_elem_of_filter. split; [done|]. by apply Hv.
  - split; [done|]. intros m Hm. by apply Hv.
Qed.

(** ** Releasing nodes *)

(** Nodes may go away, but none below the root. *)
Definition kept t t' : Prop :=
  root t' = root t ∧ next_node t' = next_node t ∧ nodes t' ⊆ nodes t ∧
  ∀ z, rtc (edge t) (root t) z → nodes t' !! z = nodes t !! z.

Lemma kept_reach t t' z : kept t t' → rtc (edge t) (root t) z → rtc (edge t') (root t') z.
Proof.
  intros (Hr & _ & _ & Hk) Hz. rewrite Hr. revert z Hz. apply rtc_ind_r; [done|]. intros y z Hy Hyz IH.
  eapply rtc_r; [exact IH|]. destruct Hyz as (k & x & c & Hn & Hc). exists k, x, c. by rewrite Hk.
Qed.

Lemma kept_refl t : kept t t.
Proof. by split_and!. Qed.

Lemma kept_trans t1 t2 t3 : kept t1 t2 → kept t2 t3 → kept t1 t3.
Proof.
  intros H1 H2. pose proof (kept_reach t1 t2) as Hr. destruct H1 as (? & ? & ? & Hk1), H2 as (? & ? & ? & Hk2).
  split_and!; [congruence|congruence|by etrans|]. intros z Hz. rewrite Hk2, Hk1; try done. by apply Hr; [by split_and!|].
Qed.

Lemma frame_kept t t1 t2 : kept t t1 → frame t1 t2 → kept t t2.
Proof. intros (? & ? & ? & Hk) (En & ? & ?). split_and!; [congruence|congruence|by rewrite En|]. intros z Hz. rewrite En. by apply Hk. Qed.

(** The nodes that are not below [n] stay. *)
Definition kept_beside (n : nat) t t' : Prop := ∀ z, ¬ rtc (edge t) n z → nodes t' !! z = nodes t !! z.

Lemma edge_subseteq t t' a b : nodes t' ⊆ nodes t → edge t' a b → edge t a b.
Proof. intros Hs (k & x & c & Hn & Hc). exists k, x, c. split; [|done]. by eapply lookup_weaken. Qed.

Lemma rtc_subseteq t t' a b : nodes t' ⊆ nodes t → rtc (edge t') a b → rtc (edge t) a b.
Proof. intros Hs. apply rtc_subrel. intros y z. by apply edge_subseteq. Qed.

(** The loose nodes after a release are those before, without [n], and held ones. *)
Definition released (D : gset nat) (held : list nat) (n : nat) t (_ : unit) t' : Prop :=
  ∃ D', wf D' t' ∧ (∀ d, d ∈ D' → (d ∈ D ∧ d ≠ n) ∨ d ∈ held) ∧ kept t t' ∧ kept_beside n t t'.

Lemma elem_of_btree_values (c : gmap (list Z) nat) m : m ∈ btree_values c ↔ m ∈ kids (Some c).
Proof.
  unfold btree_values, kids. rewrite elem_of_list_to_set. cbn [default]. by rewrite merge_sort_Permutation.
Qed.

Lemma wlp_release_loop fuel held n D t : wf D t → wlp (release_loop fuel held n) (released D held n t) t.
Proof.
  revert n D t. induction fuel as [|fuel IH]; intros n D t Hw; cbn [release_loop]; [tree_step|]. repeat tree_step.
  destruct (bool_decide (n ∈ held) || owned t n || (n =? root t)%nat) eqn:Hb.
  { tree_step. exists D. split; [done|]. split; [|split; [apply kept_refl|done]]. intros d Hd. destruct (decide (d = n)) as [->|]; [|by left].
    apply orb_true_iff in Hb as [[Hh%bool_decide_eq_true|Ho]%orb_true_iff|Hr%Nat.eqb_eq]; [by right| |].
    - apply owned_spec in Ho as (p & k & Hk). by destruct (wf_child D t Hw p k n Hk) as (_ & ? & _).
    - subst n. by destruct (wf_root_in D t Hw). }
  apply orb_false_iff in Hb as [[_ Ho]%orb_false_iff Hr%Nat.eqb_neq]. unfold get_node, put_nodes. repeat tree_step. cbn [nodes].
  rename a into x, H into Hx. pose proof (loose_node D t n x Hw Hx Ho Hr) as Hd.
  set (t1 := mkTree (delete n (nodes t)) _ _ _ _ _ _).
  eapply wlp_mono; [apply (wlp_delete_directory_vec t1)|].
  { intros m Hm. apply (wf_vec D t Hw). cbn in Hm. destruct (decide (m = n)) as [->|]; [rewrite lookup_delete_eq in Hm; by destruct Hm|by rewrite lookup_delete_ne in Hm]. }
  intros _ t2 [(En & Er & Ex) Hv]. tree_step. apply wlp_on_fs. intros _ s3. set (t3 := mkTree _ _ _ _ _ _ s3).
  assert (wf ((D ∖ {[n]}) ∪ kids (children x)) t3) as Hw3.
  { apply (wf_destroy D t t3 n x Hw Hd Hx); [exact En|exact Er|exact Ex|]. cbn [nodes directory_vec t3]. rewrite En. exact Hv. }
  assert (kept t t3) as Hk3.
  { split_and!; [done|done|cbn [nodes t3]; rewrite En; apply delete_subseteq|]. intros z Hz. cbn [nodes t3]. rewrite En. cbn [nodes t1].
    apply lookup_delete_ne. intros <-. by destruct (reach_not_loose D t n Hw Hz). }
  assert (∀ z, ¬ rtc (edge t) n z → nodes t3 !! z = nodes t !! z) as Hb3.
  { intros z Hz. cbn [nodes t3]. rewrite En. cbn [nodes t1]. apply lookup_delete_ne. by intros <-. }
  set (c := default ∅ (children x)). assert (∀ m, m ∈ kids (children x) ↔ m ∈ btree_values c) as Hkids.
  { intros m. rewrite elem_of_btree_values. unfold kids, c. by destruct (children x). }
  eapply wlp_mono; [apply (wlp_st_fold _ (fun l _ t' => ∃ D', wf D' t' ∧ (∀ d, d ∈ D' → (d ∈ D ∧ d ≠ n) ∨ d ∈ held ∨ d ∈ l) ∧ kept t t' ∧
    kept_beside n t t' ∧ ∀ m, m ∈ l → edge t n m))|].
  - exists ((D ∖ {[n]}) ∪ kids (children x)). split; [done|]. split; [|split; [done|split; [done|]]].
    + intros d [Hd1|Hd1]%elem_of_union; [left; set_solver|right; right; by apply Hkids].
    + intros m Hm. by apply (edge_kids t n x m Hx), Hkids.
  - intros m l _ t' (D' & Hw' & HD' & Hk' & Hb' & Hl). eapply wlp_mono; [by apply IH|]. intros _ t4 (D4 & Hw4 & HD4 & Hk4 & Hb4). exists D4.
    split; [done|]. split; [|split; [by eapply kept_trans|split]].
    + intros d Hd4. destruct (HD4 d Hd4) as [[Hd5 Hne]|]; [|by right; left]. destruct (HD' d Hd5) as [|[|Hin]]; [by left|by right; left|]. right. right. set_solver.
    + intros z Hz. rewrite Hb4, Hb' by (done || (intros Hm; apply Hz; eapply rtc_l; [apply Hl, list_elem_of_here|]; eapply rtc_subseteq; [apply Hk'|done])). done.
    + intros m' Hm'. apply Hl. by apply list_elem_of_further.
  - intros [] t' (D' & Hw' & HD' & Hk' & Hb' & _). exists D'. split; [done|]. split; [|done]. intros d Hd1. destruct (HD' d Hd1) as [|[|Hin]]; [by left|by right|set_solver].
Qed.

Lemma wlp_release held n D t : wf D t → wlp (release held n) (released D held n t) t.
Proof. intros Hw. unfold release. repeat tree_step. by apply wlp_release_loop. Qed.

Lemma wlp_release_opt held o D t :
  wf D t → wlp (release_opt held o) (fun _ t' => ∃ D', wf D' t' ∧ (∀ d, d ∈ D' → (d ∈ D ∧ o ≠ Some d) ∨ d ∈ held) ∧ kept t t' ∧
    ∀ z, (∀ n, o = Some n → ¬ rtc (edge t) n z) → nodes t' !! z = nodes t !! z) t.
Proof.
  intros Hw. destruct o as [n|]; cbn [release_opt].
  - eapply wlp_mono; [by apply wlp_release|]. intros _ t' (D' & Hw' & HD & Hk & Hb). exists D'. split; [done|]. split; [|split; [done|by intros z Hz; apply Hb, Hz]].
    intros d Hd. destruct (HD d Hd) as [[? ?]|]; [left; split; [done|congruence]|by right].
  - tree_step. exists D. split; [done|]. split; [|split; [apply kept_refl|done]]. intros d Hd. by left.
Qed.

(** ** New nodes *)

Lemma wlp_node_new D name fs file fa t :
  wf D t → wlp (node_new name fs file fa) (fun n t' =>
    nodes t !! n = None ∧ nodes t' = <[n := mkNode 0 name fs file fa None]> (nodes t) ∧ root t' = root t ∧ wf ({[n]} ∪ D) t') t.
Proof.
  intros Hw. unfold node_new, insert_directory_vec, put_directory_vec. repeat tree_step. cbn [directory_vec].
  destruct (directory_vec t) as [v k] eqn:Ev. repeat tree_step. cbn [nodes root]. set (n := next_node t).
  assert (nodes t !! n = None) as Hn.
  { destruct (nodes t !! n) eqn:E; [|done]. assert (n < next_node t)%nat; [|unfold n in *; lia]. by apply (wf_ids D t Hw); eexists. }
  split_and!; try done. set (t' := mkTree _ _ _ _ _ _ _). destruct Hw as [H1 H0 H2 H3 H4 H5 H6 H7 H8].
  assert (∀ m, m ≠ n → nodes t' !! m = nodes t !! m) as Hlk by (intros; cbn; by rewrite lookup_insert_ne).
  assert (∀ a k m, child t' a k m ↔ child t a k m) as Hch.
  { intros a k' m. unfold child. destruct (decide (a = n)) as [->|Hne]; [|by rewrite Hlk].
    cbn [nodes t']. rewrite lookup_insert_eq, Hn. naive_solver. }
  assert (∀ m, is_Some (nodes t !! m) → m ≠ n) as Hne by (intros m [y Hy] ->; congruence).
  split; cbn [root next_node t'].
  - rewrite Hlk by auto. done.
  - rewrite Hlk by auto. done.
  - intros [Hr%elem_of_singleton|Hr]%elem_of_union; [|done]. by apply (Hne _ H1).
  - intros a k' m Hk%Hch. destruct (H3 a k' m Hk) as (Hm1 & Hm2 & y & Hy & Hf). assert (m ≠ n) by (apply Hne; by eexists).
    split; [done|]. split; [set_solver|]. exists y. by rewrite Hlk.
  - intros a k1 k2 m Hk1%Hch Hk2%Hch. by eapply H4.
  - intros d [->%elem_of_singleton|Hd]%elem_of_union; [cbn [nodes t']; rewrite lookup_insert_eq; by eexists|]. specialize (H5 d Hd). by rewrite Hlk by auto.
  - intros m Hm. destruct (decide (m = n)) as [->|Hmn]; [exists n; split; [right; set_solver|done]|]. rewrite Hlk in Hm by done.
    destruct (H6 m Hm) as (o & Ho & Hr). exists o. split; [destruct Ho; [by left|right; set_solver]|].
    eapply rtc_subrel; [|exact Hr]. intros a b [k' Hk]. exists k'. by apply Hch.
  - intros m Hm. destruct (decide (m = n)) as [->|Hmn]; [unfold n; lia|]. rewrite Hlk in Hm by done. specialize (H7 m Hm). unfold n in *. lia.
  - intros m Hm. cbn [directory_vec fst]. unfold vec_push. apply elem_of_app. destruct (decide (m = n)) as [->|Hmn]; [right; set_solver|].
    left. rewrite Hlk in Hm by done. specialize (H8 m Hm). by rewrite Ev in H8.
Qed.

Lemma elem_of_kids_insert (c : gmap (list Z) nat) k v m : m ∈ kids (Some (<[k := v]> c)) ↔ m = v ∨ ∃ k', k' ≠ k ∧ c !! k' = Some m.
Proof.
  rewrite elem_of_kids. split.
  - intros (c' & k' & [= <-] & Hk). destruct (decide (k' = k)) as [->|]; [rewrite lookup_insert_eq in Hk; left; congruence|].
    rewrite lookup_insert_ne in Hk by done. right. eauto.
  - intros [->|(k' & Hne & Hk)]; [exists (<[k := v]> c), k|exists (<[k := v]> c), k']; (split; [done|]); [by rewrite lookup_insert_eq|by rewrite lookup_insert_ne].
Qed.

Definition injective (c : gmap (list Z) nat) : Prop := ∀ k1 k2 m, c !! k1 = Some m → c !! k2 = Some m → k1 = k2.

(** While the children of [n] are read, the nodes made so far are loose. *)
Record caching (D : gset nat) (n : nat) t0 (map : gmap (list Z) nat) t : Prop := {
  ca_wf : wf (D ∪ kids (Some map)) t;
  ca_loose d : d ∈ D → is_Some (nodes t0 !! d);
  ca_inj : injective map;
  ca_new k m : map !! k = Some m → ∃ y, nodes t !! m = Some y ∧ father y = Some n ∧ children y = None ∧ node_name y = k;
  ca_fresh k m : map !! k = Some m → nodes t0 !! m = None;
  ca_old z y : nodes t0 !! z = Some y → nodes t !! z = Some y;
  ca_only z y : nodes t !! z = Some y → nodes t0 !! z = Some y ∨ children y = None;
  ca_root : root t = root t0;
}.

(** Releasing one of them. *)
Lemma wlp_release_fresh D old y t :
  wf D t → nodes t !! old = Some y → children y = None → old ∈ D →
  wlp (release [] old) (fun _ t' => wf (D ∖ {[old]}) t' ∧ root t' = root t ∧ nodes t' ⊆ nodes t ∧ ∀ z, z ≠ old → nodes t' !! z = nodes t !! z) t.
Proof.
  intros Hw Hy Hc Hd. eapply wlp_mono; [by apply wlp_release|]. intros _ t' (D' & Hw' & HD & (Hr & _ & Hs & _) & Hb).
  assert (∀ z, z ≠ old → nodes t' !! z = nodes t !! z) as Hb'.
  { intros z Hz. apply Hb. intros Hrt. apply Hz. apply rtc_inv in Hrt as [|(w & He & _)]; [done|].
    apply (edge_kids t old y w Hy) in He. apply elem_of_kids in He as (c & k & ? & _). congruence. }
  split_and!; [|done|done|done]. assert (D' = D ∖ {[old]}) as <-; [|done]. apply set_eq. intros m. split.
  - intros [[? ?]|Hn]%HD; [set_solver|by apply elem_of_nil in Hn].
  - intros [Hm Hne]%elem_of_difference. rewrite elem_of_singleton in Hne. destruct (wf_loose D t Hw m Hm) as [z Hz].
    apply (loose_node D' t' m z Hw'); [by rewrite Hb'| |rewrite Hr; by intros ->; destruct (wf_root_in D t Hw)].
    destruct (owned t' m) eqn:Ho; [|done]. apply owned_spec in Ho as (p & He). apply (edge_subseteq t t' _ _ Hs) in He as [k Hk].
    by destruct (wf_child D t Hw p k m Hk) as (_ & ? & _).
Qed.

(** The node [v] is entered under [name], after the node that had the name. *)
Lemma caching_insert D n fs file t0 map t t1 t2 name v :
  caching D n t0 map t → nodes t !! v = None → nodes t1 = <[v := mkNode 0 name fs file (Some n) None]> (nodes t) → root t1 = root t →
  wf (D ∪ kids (Some (<[name := v]> map))) t2 → root t2 = root t1 → nodes t2 ⊆ nodes t1 →
  (∀ z, (∀ k, k = name → map !! k ≠ Some z) → nodes t2 !! z = nodes t1 !! z) → caching D n t0 (<[name := v]> map) t2.
Proof.
  intros [Hw Hloose Hinj Hnew Hfresh Hold Honly Hroot] Hv En Er Hw2 Hr2 Hs2 Hn2.
  assert (∀ m, m ∈ kids (Some map) → m ≠ v) as Hne.
  { intros m Hm ->. destruct (wf_loose _ t Hw v) as [y Hy]; [set_solver|congruence]. }
  split; [done|done| | | | | |congruence].
  - intros k1 k2 m Hk1 Hk2. destruct (decide (k1 = name)) as [->|H1], (decide (k2 = name)) as [->|H2]; try done.
    + rewrite lookup_insert_eq in Hk1. rewrite lookup_insert_ne in Hk2 by done. injection Hk1 as <-. destruct (Hne v); [apply elem_of_kids; eauto|done].
    + rewrite lookup_insert_eq in Hk2. rewrite lookup_insert_ne in Hk1 by done. injection Hk2 as <-. destruct (Hne v); [apply elem_of_kids; eauto|done].
    + rewrite lookup_insert_ne in Hk1, Hk2 by done. by eapply Hinj.
  - intros k m Hk. destruct (decide (k = name)) as [->|H1].
    + rewrite lookup_insert_eq in Hk. injection Hk as <-. rewrite Hn2, En, lookup_insert_eq; [by eexists|].
      intros k -> Hk. destruct (Hne v); [apply elem_of_kids; eauto|done].
    + rewrite lookup_insert_ne in Hk by done. destruct (Hnew k m Hk) as (y & Hy & Hrest). exists y. split; [|done].
      rewrite Hn2, En, lookup_insert_ne; [done|apply not_eq_sym, Hne, elem_of_kids; eauto|]. intros k' -> Hk'. apply H1. by eapply Hinj.
  - intros k m Hk. destruct (decide (k = name)) as [->|H1].
    + rewrite lookup_insert_eq in Hk. injection Hk as <-. destruct (nodes t0 !! v) as [y|] eqn:E; [|done]. specialize (Hold v y E). congruence.
    + rewrite lookup_insert_ne in Hk by done. by eapply Hfresh.
  - intros z y Hz. pose proof (Hold z y Hz). rewrite Hn2, En, lookup_insert_ne; [done|congruence|]. intros k -> Hk.
    specialize (Hfresh name z Hk). congruence.
  - intros z y Hz. apply (lookup_weaken _ _ _ _ Hz) in Hs2. rewrite En in Hs2. destruct (decide (z = v)) as [->|].
    + rewrite lookup_insert_eq in Hs2. injection Hs2 as <-. by right.
    + rewrite lookup_insert_ne in Hs2 by done. by apply Honly.
Qed.

Lemma wlp_cache_entry D n fs t0 map e t :
  caching D n t0 map t → wlp (cache_entry n fs map e) (fun map' t' => caching D n t0 map' t') t.
Proof.
  intros Hca. pose proof Hca as [Hw Hloose Hinj Hnew Hfresh Hold _ Hroot]. destruct e as [name file]. unfold cache_entry. tree_step.
  eapply wlp_mono; [by apply (wlp_node_new (D ∪ kids (Some map)))|]. intros v t1 (Hv & En & Er & Hw1).
  assert (∀ m, m ∈ kids (Some map) → m ≠ v) as Hne.
  { intros m Hm ->. destruct (wf_loose _ t Hw v) as [y Hy]; [set_solver|congruence]. }
  tree_step. destruct (map !! name) as [old|] eqn:Hm; cbn [release_opt].
  - destruct (Hnew name old Hm) as (y & Hy & _ & Hc & _). assert (old ∈ kids (Some map)) as Hin by (apply elem_of_kids; eauto).
    eapply wlp_mono; [apply (wlp_release_fresh _ old y t1 Hw1); [|done|set_solver]|].
    { rewrite En, lookup_insert_ne; [done|]. by apply not_eq_sym, Hne. }
    intros _ t2 (Hw2 & Hr2 & Hs2 & Hn2). tree_step. eapply caching_insert; [done..| |done|done|].
    + assert (D ∪ kids (Some (<[name := v]> map)) = ({[v]} ∪ (D ∪ kids (Some map))) ∖ {[old]}) as ->; [|done].
      assert (old ∉ D) as Hod by (intros [z Hz]%Hloose; rewrite (Hfresh name old Hm) in Hz; done).
      assert (kids (Some (<[name := v]> map)) = ({[v]} ∪ kids (Some map)) ∖ {[old]}); [|set_solver].
      apply set_eq. intros m. rewrite elem_of_kids_insert, elem_of_difference, elem_of_union, !elem_of_singleton. split.
      * intros [->|(k & Hk & Hkm)]; [split; [by left|]; apply not_eq_sym; by apply Hne|].
        split; [right; apply elem_of_kids; eauto|]. intros ->. apply Hk. by eapply Hinj.
      * intros [[->|Hk] Hmo]; [by left|]. apply elem_of_kids in Hk as (c' & k & [= <-] & Hk). right. exists k. split; [|done]. intros ->. congruence.
    + intros z Hz. apply Hn2. intros ->. by apply (Hz name).
  - tree_step. tree_step. eapply caching_insert; [done..| |done|done|done].
    assert (D ∪ kids (Some (<[name := v]> map)) = {[v]} ∪ (D ∪ kids (Some map))) as ->; [|done].
    assert (kids (Some (<[name := v]> map)) = {[v]} ∪ kids (Some map)); [|set_solver].
    apply set_eq. intros m. rewrite elem_of_kids_insert, elem_of_union, elem_of_singleton, elem_of_kids. split.
    + intros [->|(k & _ & Hk)]; [by left|right; eauto].
    + intros [->|(c' & k & [= <-] & Hk)]; [by left|]. right. exists k. split; [|done]. intros ->. congruence.
Qed.

(** ** Looking up names *)

(** Children that were not known may have been read. *)
Definition grown x x' : Prop :=
  spe_usage x' = spe_usage x ∧ node_name x' = node_name x ∧ filesystem x' = filesystem x ∧ node_file x' = node_file x ∧
  father x' = father x ∧ (children x' = children x ∨ children x = None).

Definition ext t t' : Prop :=
  root t' = root t ∧ ∀ m x, nodes t !! m = Some x → ∃ x', nodes t' !! m = Some x' ∧ grown x x'.

Lemma ext_refl t : ext t t.
Proof. split; [done|]. intros m x Hm. exists x. split; [done|]. by split_and!; [..|left]. Qed.

Lemma ext_trans t1 t2 t3 : ext t1 t2 → ext t2 t3 → ext t1 t3.
Proof.
  intros [Hr1 H1] [Hr2 H2]. split; [congruence|]. intros m x Hm. destruct (H1 m x Hm) as (x2 & Hm2 & ? & ? & ? & ? & ? & Hc).
  destruct (H2 m x2 Hm2) as (x3 & Hm3 & ? & ? & ? & ? & ? & Hc'). exists x3. split; [done|]. split_and!; try congruence.
  destruct Hc as [Hc|Hc]; [|by right]. destruct Hc' as [Hc'|Hc']; [left|right]; congruence.
Qed.

Lemma ext_child t t' n k m : ext t t' → child t n k m → child t' n k m.
Proof.
  intros [_ He] (x & c & Hn & Hc & Hk). destruct (He n x Hn) as (x' & Hn' & _ & _ & _ & _ & _ & [Hc'|Hc']); [|congruence].
  exists x', c. split_and!; try done. congruence.
Qed.

(** Nodes are called as their father calls them. *)
Definition named t : Prop := ∀ n k m y, child t n k m → nodes t !! m = Some y → node_name y = k.

Definition looked t (_ : Result unit) t' : Prop := wf ∅ t' ∧ ext t t' ∧ (named t → named t').

Lemma all_reach t n : wf ∅ t → is_Some (nodes t !! n) → rtc (edge t) (root t) n.
Proof. intros Hw Hn. destruct (wf_reach ∅ t Hw n Hn) as (o & [->|Ho] & Hr); [done|set_solver]. Qed.

(** The nodes that [open_subfile] gave become the children of [n]. *)
Lemma wlp_install D n t0 x map t :
  wf D t0 → rtc (edge t0) (root t0) n → nodes t0 !! n = Some x → children x = None → caching D n t0 map t →
  wlp (set_children n (Some map)) (fun _ t' => wf D t' ∧ ext t0 t' ∧ (named t0 → named t')) t.
Proof.
  intros Hw0 Hrn Hx Hc [Hw Hloose Hinj Hnew Hfresh Hold Honly Hroot]. unfold set_children, get_node, put_node, put_nodes. repeat tree_step.
  rewrite (Hold n x Hx) in H. injection H as <-. set (x' := mkNode _ _ _ _ _ _). set (t' := mkTree _ _ _ _ _ _ _).
  assert (∀ z, rtc (edge t0) (root t0) z → rtc (edge t) (root t) z) as Hreach.
  { intros z Hz. rewrite Hroot. eapply rtc_subrel; [|exact Hz]. intros a b (k & y & c & Ha & Hrest). exists k, y, c. split; [by apply Hold|done]. }
  assert (ext t0 t') as Hext.
  { split; [done|]. intros m y Hm. cbn [nodes t']. destruct (decide (m = n)) as [->|].
    - rewrite lookup_insert_eq. exists x'. split; [done|]. rewrite Hx in Hm. injection Hm as <-. by split_and!; [..|right].
    - rewrite lookup_insert_ne by done. exists y. split; [by apply Hold|]. by split_and!; [..|left]. }
  split_and!; [|done|].
  - assert (D = ((D ∪ kids (Some map)) ∖ kids (Some map)) ∪ (kids (children x) ∖ kids (Some map))) as ED.
    { assert (∀ d, d ∈ D → d ∉ kids (Some map)).
      { intros d [z Hz]%Hloose (c' & k & [= <-] & Hk)%elem_of_kids. rewrite (Hfresh k d Hk) in Hz. done. }
      rewrite Hc. unfold kids at 3. cbn. rewrite map_to_list_empty. set_solver. }
    rewrite ED. apply (wf_set_children (D ∪ kids (Some map)) t t' n x (Some map) Hw (Hold n x Hx)); try done.
    + intros c' k1 k2 m [= <-]. apply Hinj.
    + intros m Hm _. split; [set_solver|]. apply elem_of_kids in Hm as (c' & k & [= <-] & Hk). destruct (Hnew k m Hk) as (y & ? & ? & _). by exists y.
    + exists (root t). split; [by left|]. split; [pose proof (wf_root_in _ t Hw); set_solver|]. by apply Hreach.
  - intros Hnm a k m y (z & c & Ha & Hcz & Hk) Hy. cbn [nodes t'] in Ha, Hy.
    assert (∀ y', nodes t !! m = Some y' → node_name y' = node_name y) as Hsame.
    { intros y' Hy'. destruct (decide (m = n)) as [->|]; [rewrite lookup_insert_eq in Hy; injection Hy as <-; rewrite (Hold n x Hx) in Hy'; by injection Hy' as <-|].
      rewrite lookup_insert_ne in Hy by done. congruence. }
    destruct (decide (a = n)) as [->|].
    + rewrite lookup_insert_eq in Ha. injection Ha as <-. injection Hcz as <-. destruct (Hnew k m Hk) as (y' & Hy' & _ & _ & Hn'). by rewrite <-(Hsame y').
    + rewrite lookup_insert_ne in Ha by done. destruct (Honly a z Ha) as [Ha0|]; [|congruence].
      assert (child t0 a k m) as Hch by (by exists z, c). destruct (wf_child D t0 Hw0 a k m Hch) as (_ & _ & y0 & Hy0 & _).
      rewrite <-(Hsame y0) by (by apply Hold). by eapply Hnm.
Qed.

Lemma kids_empty : kids (Some ∅) = ∅.
Proof. unfold kids. cbn. by rewrite map_to_list_empty. Qed.

Lemma wlp_cache_subfile D n t :
  wf D t → rtc (edge t) (root t) n → wlp (cache_all_subfile n) (fun _ t' => wf D t' ∧ ext t t' ∧ (named t → named t')) t.
Proof.
  intros Hw Hrn. assert (wf D t ∧ ext t t ∧ (named t → named t)) as Hrefl by (split_and!; [done|apply ext_refl|done]).
  unfold cache_all_subfile, get_node. repeat tree_step. rename a into x, H into Hx. destruct (children x) as [c|] eqn:Hc; [by tree_step|].
  unfold file_is_dir. repeat tree_step. apply wlp_on_fs. intros ft s1. repeat tree_step. set (t1 := mkTree _ _ _ _ _ _ s1).
  assert (∀ t2, nodes t2 = nodes t → root t2 = root t → next_node t2 = next_node t → directory_vec t2 = directory_vec t →
    wf D t2 ∧ ext t t2 ∧ (named t → named t2)) as Hsame.
  { intros t2 En Er Ex Ev. split_and!; [by eapply wf_same_nodes|split; [done|]; rewrite En; apply ext_refl|].
    intros Hnm a k m y. unfold child. rewrite En. apply Hnm. }
  destruct (negb _); [tree_step; by apply Hsame|]. repeat tree_step. apply wlp_on_fs. intros [vec|e] s2; [|by apply Hsame].
  set (t2 := mkTree _ _ _ _ _ _ s2). destruct (Hsame t2) as (Hw2 & _ & Hnm2); [done..|]. tree_step.
  eapply wlp_mono; [apply (wlp_st_fold _ (fun _ map t' => caching D n t2 map t'))|].
  - split; try done; [by rewrite kids_empty, union_empty_r_L|apply (wf_loose D t Hw)|by left].
  - intros e l map t3 Hca. by apply wlp_cache_entry.
  - intros map t3 Hca. tree_step. eapply wlp_mono; [by apply (wlp_install D n t2 x map t3)|]. intros _ t4 (Hw4 & [Hr4 He4] & Hn4). tree_step.
    split_and!; [done|done|auto].
Qed.

Lemma wlp_cache_all_subfile n t :
  wf ∅ t → wlp (cache_all_subfile n) (fun _ t' => wf ∅ t' ∧ ext t t' ∧ (named t → named t')) t.
Proof.
  intros Hw. destruct (nodes t !! n) as [x|] eqn:Hx.
  - apply wlp_cache_subfile; [done|]. apply all_reach; [done|by eexists].
  - unfold cache_all_subfile, get_node. repeat tree_step. congruence.
Qed.

(** A component of a path, from node [n]. *)
Definition step_to t (n : nat) (k : list Z) : option nat :=
  x ← nodes t !! n;
  if bool_decide (k = DOTDOT) then
    Some (match father x with Some f => if nodes t !! f is Some _ then f else n | None => n end)
  else c ← children x; c !! k.

Fixpoint resolve t (n : nat) (ks : list (list Z)) : option nat :=
  match ks with
  | [] => Some n
  | k :: ks => m ← step_to t n k; resolve t m ks
  end.

Lemma step_child t n k m : k ≠ DOTDOT → step_to t n k = Some m ↔ child t n k m.
Proof.
  intros Hk. unfold step_to, child. rewrite bool_decide_false by done. split.
  - intros (x & Hx & (c & Hc & Hm)%bind_Some)%bind_Some. by exists x, c.
  - intros (x & c & Hx & Hc & Hm). rewrite Hx. cbn. by rewrite Hc.
Qed.

(** The father of a node is there, unless it is the root. *)
Lemma wf_father D t n x : wf D t → nodes t !! n = Some x → n ∉ D → n ≠ root t → ∃ p k, father x = Some p ∧ child t p k n.
Proof.
  intros Hw Hx Hd Hr. destruct (wf_reach D t Hw n (mk_is_Some _ _ Hx)) as (o & Ho & Hrt).
  apply rtc_inv_r in Hrt as [->|(p & _ & k & Hk)]; [by destruct Ho|]. destruct (wf_child D t Hw p k n Hk) as (_ & _ & y & Hy & Hf).
  exists p, k. split; [congruence|done].
Qed.

Lemma step_to_ext t t' n k m : wf ∅ t → wf ∅ t' → ext t t' → step_to t n k = Some m → step_to t' n k = Some m.
Proof.
  intros Hw Hw' He Hs. destruct (decide (k = DOTDOT)) as [->|Hk]; [|apply step_child; [done|]; eapply ext_child; [done|]; by apply step_child].
  unfold step_to in *. rewrite bool_decide_true in * by done. apply bind_Some in Hs as (x & Hx & [= <-]).
  destruct He as [Hr He]. destruct (He n x Hx) as (x' & Hx' & _ & _ & _ & _ & Hf & _). rewrite Hx'. cbn. rewrite Hf.
  destruct (decide (n = root t)) as [->|Hne].
  - rewrite (wf_top ∅ t Hw x Hx). done.
  - destruct (wf_father ∅ t n x Hw Hx ltac:(set_solver) Hne) as (p & k & Hp & y & c & Hy & _). rewrite Hp, Hy.
    destruct (He p y Hy) as (y' & -> & _). done.
Qed.

Lemma resolve_ext t t' n ks m : wf ∅ t → wf ∅ t' → ext t t' → resolve t n ks = Some m → resolve t' n ks = Some m.
Proof.
  intros Hw Hw' He. revert n. induction ks as [|k ks IH]; intros n; cbn [resolve]; [done|].
  intros (p & Hp & Hr)%bind_Some. rewrite (step_to_ext t t' n k p Hw Hw' He Hp). cbn. by apply IH.
Qed.

Definition found (n : nat) (ks : list (list Z)) t (r : Result nat) t' : Prop :=
  wf ∅ t' ∧ ext t t' ∧ (named t → named t') ∧ ∀ m, r = Okay m → resolve t' n ks = Some m.

Lemma wlp_try_to_open n k t :
  wf ∅ t → wlp (try_to_open_subfile n k) (fun r t' => wf ∅ t' ∧ ext t t' ∧ (named t → named t') ∧ ∀ m, r = Okay m → child t' n k m) t.
Proof.
  intros Hw. unfold try_to_open_subfile. tree_step. eapply wlp_mono; [by apply wlp_cache_all_subfile|].
  intros [[]|e] t1 (Hw1 & He1 & Hn1); [|by split_and!]. unfold get_node. repeat tree_step. split_and!; try done.
  intros m Hm. destruct (a0 !! k) as [m'|] eqn:E; [|done]. injection Hm as <-. by exists a, a0.
Qed.

Lemma wlp_cd_comp n ks t : wf ∅ t → wlp (cd_comp n ks) (found n ks t) t.
Proof.
  revert n t. induction ks as [|k ks IH]; intros n t Hw; cbn [cd_comp].
  { tree_step. split_and!; [done|apply ext_refl|done|]. by intros m [= <-]. }
  case_bool_decide as Hk.
  - unfold get_node, upgrade. repeat tree_step. rename a into x, H into Hx. eapply wlp_mono; [by apply IH|].
    intros r t' (Hw' & He & Hn & Hr). split_and!; try done. intros m Hm. cbn [resolve].
    rewrite (step_to_ext t t' n k (match father x with Some f => if nodes t !! f is Some _ then f else n | None => n end) Hw Hw' He).
    + cbn. rewrite <-(Hr m Hm). by destruct (father x) as [f|]; [destruct (nodes t !! f)|].
    + unfold step_to. rewrite Hx, bool_decide_true by done. done.
  - tree_step. eapply wlp_mono; [by apply wlp_try_to_open|]. intros [c|e] t1 (Hw1 & He1 & Hn1 & Hr1); [|by split_and!].
    eapply wlp_mono; [by apply IH|]. intros r t' (Hw' & He & Hn & Hr). split_and!; [done|by eapply ext_trans|auto|].
    intros m Hm. cbn [resolve]. specialize (Hr1 c eq_refl). apply step_child in Hr1; [|done].
    rewrite (step_to_ext t1 t' n k c Hw1 Hw' He Hr1). cbn. by apply Hr.
Qed.

(** ** Changing the children of a node *)

Lemma kids_not_root D t n x m : wf D t → nodes t !! n = Some x → m ∈ kids (children x) → m ≠ root t ∧ m ∉ D.
Proof. intros Hw Hx Hm. apply (edge_kids t n x m Hx) in Hm as [k Hk]. by destruct (wf_child D t Hw n k m Hk) as (? & ? & _). Qed.

Lemma named_subseteq t t' : nodes t' ⊆ nodes t → named t → named t'.
Proof.
  intros Hs Hn a k m y (x & c & Ha & Hc & Hk) Hy. eapply (Hn a k m y); [exists x, c; split_and!; try done|]; by eapply lookup_weaken.
Qed.

(** The children of [n] become [c]. *)
Definition with_children t (n : nat) x (c : gmap (list Z) nat) t' : Prop :=
  nodes t' = <[n := mkNode (spe_usage x) (node_name x) (filesystem x) (node_file x) (father x) (Some c)]> (nodes t) ∧
  root t' = root t ∧ next_node t' = next_node t ∧ directory_vec t' = directory_vec t.

Lemma wlp_set_children n c t : wlp (set_children n (Some c)) (fun _ t' => ∃ x, nodes t !! n = Some x ∧ with_children t n x c t') t.
Proof. unfold set_children, get_node, put_node, put_nodes. repeat tree_step. by exists a. Qed.

Lemma with_children_child t n x c t' a k m :
  nodes t !! n = Some x → with_children t n x c t' → child t' a k m ↔ (a ≠ n ∧ child t a k m) ∨ (a = n ∧ c !! k = Some m).
Proof.
  intros Hx (En & _). unfold child. rewrite En. destruct (decide (a = n)) as [->|Hne].
  - rewrite lookup_insert_eq. split; [intros (? & c' & [= <-] & [= <-] & Hk); by right|]. intros [[? _]|[_ Hk]]; [done|]. by eexists _, c.
  - rewrite lookup_insert_ne by done. naive_solver.
Qed.

Lemma with_children_node t n x c t' m y :
  nodes t !! n = Some x → with_children t n x c t' → nodes t' !! m = Some y → ∃ y', nodes t !! m = Some y' ∧ node_name y' = node_name y.
Proof.
  intros Hx (En & _) Hm. rewrite En in Hm. destruct (decide (m = n)) as [->|]; [rewrite lookup_insert_eq in Hm; injection Hm as <-; by exists x|].
  rewrite lookup_insert_ne in Hm by done. by exists y.
Qed.

(** [v] becomes the child [key] of [n]; a node that was there is loose. *)
Lemma wf_attach D t n x c key v y t' :
  wf D t → nodes t !! n = Some x → children x = Some c → v ∈ D → nodes t !! v = Some y → father y = Some n →
  rtc (edge t) (root t) n → with_children t n x (<[key := v]> c) t' →
  wf ((D ∖ {[v]}) ∪ (if c !! key is Some old then {[old]} else ∅)) t'.
Proof.
  intros Hw Hx Hc Hv Hy Hf Hr (En & Er & Ex & Ev).
  assert (∀ k m, c !! k = Some m → child t n k m) as Hch by (intros k m Hk; by exists x, c).
  assert (∀ k m, c !! k = Some m → m ≠ root t ∧ (m ∉ D)) as Hkid by (intros k m Hk%Hch; by destruct (wf_child D t Hw n k m Hk) as (? & ? & _)).
  assert (∀ m, m ∈ kids (children x) ↔ ∃ k, c !! k = Some m) as Hk0 by (intros m; rewrite Hc, elem_of_kids; naive_solver).
  assert (((D ∖ {[v]}) ∪ (if c !! key is Some old then {[old]} else ∅)) =
    (D ∖ kids (Some (<[key := v]> c))) ∪ (kids (children x) ∖ kids (Some (<[key := v]> c)))) as ->.
  { apply set_eq. intros m. rewrite !elem_of_union, !elem_of_difference, elem_of_singleton, elem_of_kids_insert, Hk0. split.
    - intros [[Hm Hne]|Hm].
      + left. split; [done|]. intros [|(k & _ & Hk)]; [done|]. by destruct (Hkid k m Hk).
      + destruct (c !! key) as [old|] eqn:E; [|set_solver]. apply elem_of_singleton in Hm as ->. right. split; [by exists key|].
        intros [->|(k & Hne & Hk)]; [by destruct (Hkid key v E)|]. apply Hne. by eapply (wf_unique D t Hw n); apply Hch.
    - intros [[Hm Hne]|[[k Hk] Hne]]; [left; split; [done|]; intros ->; apply Hne; by left|].
      right. destruct (decide (k = key)) as [->|Hkk]; [by rewrite Hk, elem_of_singleton|]. destruct Hne. right. by exists k. }
  apply (wf_set_children D t t' n x (Some (<[key := v]> c)) Hw Hx); try done.
  - intros c' k1 k2 m [= <-] Hk1 Hk2. destruct (decide (k1 = key)) as [->|H1], (decide (k2 = key)) as [->|H2]; try done.
    + rewrite lookup_insert_eq in Hk1. rewrite lookup_insert_ne in Hk2 by done. injection Hk1 as <-. by destruct (Hkid k2 v Hk2).
    + rewrite lookup_insert_eq in Hk2. rewrite lookup_insert_ne in Hk1 by done. injection Hk2 as <-. by destruct (Hkid k1 v Hk1).
    + rewrite lookup_insert_ne in Hk1, Hk2 by done. by eapply (wf_unique D t Hw n); apply Hch.
  - intros m [->|(k & _ & Hk)]%elem_of_kids_insert Hno; [split; [done|by exists y]|]. destruct Hno. apply Hk0. by exists k.
  - exists (root t). split; [by left|]. split; [|done]. intros [E|(k & _ & Hk)]%elem_of_kids_insert; [destruct (wf_root_in D t Hw); by rewrite E|by destruct (Hkid k _ Hk)].
Qed.

(** The child [key] of [n] is taken out. *)
Lemma wf_detach D t n x c key t' :
  wf D t → nodes t !! n = Some x → children x = Some c → with_children t n x (delete key c) t' →
  wf (D ∪ (if c !! key is Some old then {[old]} else ∅)) t'.
Proof.
  intros Hw Hx Hc (En & Er & Ex & Ev).
  assert (∀ k m, c !! k = Some m → child t n k m) as Hch by (intros k m Hk; by exists x, c).
  assert (∀ k m, c !! k = Some m → m ≠ root t ∧ (m ∉ D)) as Hkid by (intros k m Hk%Hch; by destruct (wf_child D t Hw n k m Hk) as (? & ? & _)).
  assert (∀ m, m ∈ kids (children x) ↔ ∃ k, c !! k = Some m) as Hk0 by (intros m; rewrite Hc, elem_of_kids; naive_solver).
  assert (∀ m, m ∈ kids (Some (delete key c)) ↔ ∃ k, k ≠ key ∧ c !! k = Some m) as Hk1.
  { intros m. rewrite elem_of_kids. split.
    - intros (c' & k & [= <-] & [Hne Hk]%lookup_delete_Some). exists k. done.
    - intros (k & Hne & Hk). exists (delete key c), k. split; [done|]. apply lookup_delete_Some. done. }
  assert ((D ∪ (if c !! key is Some old then {[old]} else ∅)) = (D ∖ kids (Some (delete key c))) ∪ (kids (children x) ∖ kids (Some (delete key c)))) as ->.
  { apply set_eq. intros m. rewrite !elem_of_union, !elem_of_difference, Hk0, Hk1. split.
    - intros [Hm|Hm]; [left; split; [done|]; intros (k & _ & Hk); by destruct (Hkid k m Hk)|].
      destruct (c !! key) as [old|] eqn:E; [|set_solver]. apply elem_of_singleton in Hm as ->. right. split; [by exists key|].
      intros (k & Hne & Hk). apply Hne. by eapply (wf_unique D t Hw n); apply Hch.
    - intros [[Hm _]|[[k Hk] Hne]]; [by left|]. right. destruct (decide (k = key)) as [->|Hkk]; [by rewrite Hk, elem_of_singleton|]. destruct Hne. by exists k. }
  apply (wf_set_children D t t' n x (Some (delete key c)) Hw Hx); try done.
  - intros c' k1 k2 m [= <-] [_ H1]%lookup_delete_Some [_ H2]%lookup_delete_Some. by eapply (wf_unique D t Hw n); apply Hch.
  - intros m (k & _ & Hk)%Hk1 Hno. destruct Hno. apply Hk0. by exists k.
  - destruct (wf_reach D t Hw n (mk_is_Some _ _ Hx)) as (o & Ho & Hr). exists o. split; [done|]. split; [|done].
    intros (k & _ & Hk)%Hk1. destruct (Hkid k o Hk). by destruct Ho.
Qed.

Lemma wlp_insert_child D n key v y t :
  wf D t → v ∈ D → nodes t !! v = Some y → father y = Some n → rtc (edge t) (root t) n →
  wlp (insert_child n key v) (fun _ t' => (∃ D', wf D' t' ∧ D' ⊆ D ∖ {[v]}) ∧ (named t → node_name y = key → named t')) t.
Proof.
  intros Hw Hv Hy Hf Hr. unfold insert_child, get_node. repeat tree_step. rename a into x, H into Hx, a0 into c, H0 into Hc.
  eapply wlp_mono; [apply wlp_set_children|]. intros _ t1 (x' & Hx' & Hwc). rewrite Hx in Hx'. injection Hx' as <-.
  pose proof (wf_attach D t n x c key v y t1 Hw Hx Hc Hv Hy Hf Hr Hwc) as Hw1.
  eapply wlp_mono; [by apply wlp_release_opt|]. intros _ t2 (D2 & Hw2 & HD2 & (_ & _ & Hs & _) & _). split.
  - exists D2. split; [done|]. intros d Hd. destruct (HD2 d Hd) as [[Hd' Hne]|Hn]; [|by apply elem_of_nil in Hn].
    apply elem_of_union in Hd' as [|Hd']; [done|]. destruct (c !! key); set_solver.
  - intros Hn Hk. eapply named_subseteq; [exact Hs|]. intros a k m z Ha Hm.
    destruct (with_children_node t n x _ t1 m z Hx Hwc Hm) as (z' & Hz' & <-).
    apply (with_children_child t n x _ t1 a k m Hx Hwc) in Ha as [[_ Ha]|[-> Hkm]]; [by eapply Hn|].
    destruct (decide (k = key)) as [->|]; [rewrite lookup_insert_eq in Hkm; congruence|]. rewrite lookup_insert_ne in Hkm by done.
    eapply (Hn n k m); [by exists x, c|done].
Qed.

Definition opt_set (o : option nat) : gset nat := if o is Some n then {[n]} else ∅.

Lemma wlp_remove_child D n key t :
  wf D t → wlp (remove_child n key) (fun o t' => wf (D ∪ opt_set o) t' ∧ (named t → named t') ∧
    ∃ x c, nodes t !! n = Some x ∧ children x = Some c ∧ o = c !! key ∧ with_children t n x (delete key c) t') t.
Proof.
  intros Hw. unfold remove_child, get_node. repeat tree_step. rename a into x, H into Hx, a0 into c, H0 into Hc.
  eapply wlp_mono; [apply wlp_set_children|]. intros _ t1 (x' & Hx' & Hwc). rewrite Hx in Hx'. injection Hx' as <-. tree_step. split_and!.
  - by apply (wf_detach D t n x c key t1).
  - intros Hn a k m z Ha Hm. destruct (with_children_node t n x _ t1 m z Hx Hwc Hm) as (z' & Hz' & <-).
    apply (with_children_child t n x _ t1 a k m Hx Hwc) in Ha as [[_ Ha]|[-> [_ Hkm]%lookup_delete_Some]]; [by eapply Hn|].
    eapply (Hn n k m); [by exists x, c|done].
  - by exists x, c.
Qed.

(** What is kept by all calls. *)
Definition inv_kept t t' : Prop := wf ∅ t' ∧ (named t → named t').

Lemma found_inv n ks t r t' : found n ks t r t' → inv_kept t t'.
Proof. intros (? & _ & ? & _). done. Qed.

Lemma inv_kept_trans t1 t2 t3 : inv_kept t1 t2 → inv_kept t2 t3 → inv_kept t1 t3.
Proof. intros [_ H1] [H2 H3]. split; auto. Qed.

Lemma inv_kept_same t t' : wf ∅ t → nodes t' = nodes t → root t' = root t → next_node t' = next_node t → directory_vec t' = directory_vec t → inv_kept t t'.
Proof. intros Hw En Er Ex Ev. split; [by eapply wf_same_nodes|]. intros Hn. eapply named_subseteq; [|done]. by rewrite En. Qed.

Lemma wlp_create_child n name ft t : wf ∅ t → wlp (create_child n name ft) (fun _ t' => inv_kept t t') t.
Proof.
  intros Hw. unfold create_child, node_create, get_node. repeat tree_step. rename a into x, H into Hx. apply wlp_on_fs.
  intros [f|e] s1; [|by apply inv_kept_same]. set (t1 := mkTree _ _ _ _ _ _ s1). destruct (inv_kept_same t t1) as [Hw1 Hn1]; [done..|].
  repeat tree_step. clear H. rename a into x2. eapply wlp_mono; [by apply (wlp_node_new ∅)|]. intros v t2 (Hv & En & Er & Hw2). tree_step.
  eapply wlp_mono; [eapply (wlp_insert_child _ n name v _ t2 Hw2); [set_solver|by rewrite En, lookup_insert_eq|done|]|].
  { destruct (wf_reach _ t1 Hw1 n (mk_is_Some _ _ Hx)) as (o & Ho & Hr). destruct Ho as [->|Ho]; [|set_solver]. rewrite Er.
    eapply rtc_subrel; [|exact Hr]. intros a b (k & y & c & Ha & Hrest). exists k, y, c. split; [|done]. rewrite En, lookup_insert_ne; [done|congruence]. }
  intros _ t3 [(D' & Hw3 & HD) Hn3]. tree_step. split.
  - assert (D' = ∅) as -> by set_solver. done.
  - intros Hn. apply Hn3; [|done]. intros a k m y Ha Hy.
    assert (child t1 a k m) as Ha1.
    { destruct Ha as (z & c & Ha & Hc & Hk). rewrite En in Ha. destruct (decide (a = v)) as [->|]; [rewrite lookup_insert_eq in Ha; by injection Ha as <-|].
      rewrite lookup_insert_ne in Ha by done. by exists z, c. }
    destruct (wf_child _ t1 Hw1 a k m Ha1) as (_ & _ & y' & Hy' & _). rewrite En, lookup_insert_ne in Hy by congruence. by eapply (Hn1 Hn).
Qed.

Lemma wlp_open_lookup start path flags t : wf ∅ t → wlp (open_lookup start path flags) (fun _ t' => inv_kept t t') t.
Proof.
  intros Hw. unfold open_lookup. tree_step. eapply wlp_mono; [by apply wlp_cd_comp|]. intros [n|e] t1 Hf; [|by eapply found_inv].
  pose proof (found_inv _ _ _ _ _ Hf) as Hi. destruct Hf as (Hw1 & _). destruct (last _) as [k|]; [|by tree_step].
  tree_step. eapply wlp_mono; [by apply wlp_try_to_open|]. intros [m|e] t2 (Hw2 & _ & Hn2 & _);
    (assert (inv_kept t t2) as Hi2 by (eapply inv_kept_trans; [exact Hi|by split])); [by tree_step|].
  destruct (negb (e =? ENOENT)); [by tree_step|]. destruct (negb _); [by tree_step|].
  eapply wlp_mono; [by apply wlp_create_child|]. intros ? t3 Hi3. by eapply inv_kept_trans.
Qed.

Lemma wlp_open_checks n flags t : wf ∅ t → wlp (open_checks n flags) (fun _ t' => inv_kept t t') t.
Proof.
  intros Hw. unfold open_checks, get_node, file_is_file, file_is_dir. repeat tree_step.
  destruct (flags_contains flags O_TRUNC).
  - apply wlp_on_fs. intros [[]|e] s1; [|by apply inv_kept_same].
    repeat tree_step. apply wlp_on_fs. intros b1 s2. repeat tree_step. apply wlp_on_fs. intros b2 s3. repeat tree_step. by apply inv_kept_same.
  - repeat tree_step. apply wlp_on_fs. intros b1 s2. repeat tree_step. apply wlp_on_fs. intros b2 s3. repeat tree_step. by apply inv_kept_same.
Qed.

(** A node changes in what the tree does not depend on. *)
Lemma wf_put_node D t t' n x x' :
  wf D t → nodes t !! n = Some x → nodes t' = <[n := x']> (nodes t) →
  children x' = children x → node_name x' = node_name x → father x' = father x ∨ n ∈ D →
  root t' = root t → next_node t' = next_node t → directory_vec t' = directory_vec t → wf D t' ∧ (named t → named t').
Proof.
  intros [H1 H0 H2 H3 H4 H5 H6 H7 H8] Hx En Hcx Hnx Hfx Er Ex Ev.
  assert (∀ m y, nodes t' !! m = Some y → ∃ y', nodes t !! m = Some y' ∧ (father y' = father y ∨ m ∈ D) ∧ children y' = children y ∧ node_name y' = node_name y) as Hback.
  { intros m y Hm. rewrite En in Hm. destruct (decide (m = n)) as [->|]; [rewrite lookup_insert_eq in Hm; injection Hm as <-; exists x; split_and!; try done; destruct Hfx; [by left|by right]|].
    rewrite lookup_insert_ne in Hm by done. exists y. split_and!; try done. by left. }
  assert (∀ m y, nodes t !! m = Some y → ∃ y', nodes t' !! m = Some y' ∧ (father y' = father y ∨ m ∈ D) ∧ children y' = children y) as Hfwd.
  { intros m y Hm. rewrite En. destruct (decide (m = n)) as [->|]; [rewrite lookup_insert_eq; eexists; split; [done|]; rewrite Hx in Hm; by injection Hm as <-|].
    rewrite lookup_insert_ne by done. exists y. split_and!; try done. by left. }
  assert (∀ m, is_Some (nodes t' !! m) ↔ is_Some (nodes t !! m)) as Hdom.
  { intros m. split; [intros [y Hy]; destruct (Hback m y Hy) as (y' & ? & _); by exists y'|intros [y Hy]; destruct (Hfwd m y Hy) as (y' & ? & _); by exists y']. }
  assert (∀ a k m, child t' a k m ↔ child t a k m) as Hch.
  { intros a k m. split; intros (y & c & Ha & Hc & Hk); [destruct (Hback a y Ha) as (y' & Ha' & _ & Hc' & _)|destruct (Hfwd a y Ha) as (y' & Ha' & _ & Hc')];
      exists y', c; split_and!; try done; congruence. }
  split; [split; rewrite ?Er, ?Ex, ?Ev|].
  - by apply Hdom.
  - intros y Hy. destruct (Hback _ y Hy) as (y' & Hy' & [<-|?] & _); [by apply H0|done].
  - done.
  - intros a k m Hk%Hch. destruct (H3 a k m Hk) as (? & ? & y & Hy & Hf). split_and!; try done. destruct (Hfwd m y Hy) as (y' & ? & [Hf'|?] & _); [|done]. exists y'. split; [done|congruence].
  - intros a k1 k2 m ?%Hch ?%Hch. by eapply H4.
  - intros d Hd. by apply Hdom, H5.
  - intros m Hm%Hdom. destruct (H6 m Hm) as (o & Ho & Hr). exists o. split; [done|]. eapply rtc_subrel; [|exact Hr]. intros a b [k Hk]. exists k. by apply Hch.
  - intros m Hm%Hdom. by apply H7.
  - intros m Hm%Hdom. by apply H8.
  - intros Hn a k m y Ha%Hch Hy. destruct (Hback m y Hy) as (y' & Hy' & _ & _ & <-). by eapply Hn.
Qed.

Lemma wlp_change_use n (f : Z → Z) t :
  wf ∅ t → wlp (x ← get_node n; set_usage n (f (spe_usage x))) (fun _ t' => inv_kept t t') t.
Proof.
  intros Hw. unfold set_usage, get_node, put_node, put_nodes. repeat tree_step. eapply (wf_put_node ∅ t); try done. by left.
Qed.

Lemma wlp_start_node self path (Q : nat → Tree → Prop) t : (∀ n, Q n t) → wlp (start_node self path) Q t.
Proof. intros HQ. unfold start_node. repeat tree_step. apply HQ. Qed.

Lemma wlp_open self path flags special t : wf ∅ t → wlp (open self path flags special) (fun _ t' => inv_kept t t') t.
Proof.
  intros Hw. unfold open, upgrade. tree_step. apply wlp_start_node. intros start. do 5 tree_step.
  set (path' := redirect path). set (cached := match (path_cache t).2 with Some n => if nodes t !! n is Some _ then Some n else None | None => None end).
  assert (wlp (if starts_with_slash path' && bool_decide (path' = (path_cache t).1)
    then match cached with Some n => mret (Okay n) | None => open_lookup start path' flags end
    else open_lookup start path' flags) (fun _ t' => inv_kept t t') t) as Hlook.
  { destruct (_ && _); [|by apply wlp_open_lookup]. destruct cached; [|by apply wlp_open_lookup]. tree_step. by apply inv_kept_same. }
  eapply wlp_mono; [exact Hlook|]. clear Hlook. intros [n|e] t1 Hi1; [|done]. tree_step. pose proof Hi1 as [Hw1 _].
  eapply wlp_mono; [by apply wlp_open_checks|]. intros [[]|e] t2 Hi2; (assert (inv_kept t t2) as Hi by (by eapply inv_kept_trans)); [|done].
  pose proof Hi as [Hw2 _]. tree_step.
  assert (wlp (if special then add_special_use n else mret tt) (fun _ t' => inv_kept t t') t2) as Huse.
  { destruct special; [|by tree_step]. eapply wlp_mono; [by apply (wlp_change_use n (fun u => u ⊞ 1))|]. intros ? t' Hi'. by eapply inv_kept_trans. }
  eapply wlp_mono; [exact Huse|]. intros ? t3 Hi3. tree_step.
  assert (wlp (if starts_with_slash path' && negb (bool_decide (path' = (path_cache t).1)) then put_path_cache (path', Some n) else mret tt)
    (fun _ t' => inv_kept t t') t3) as Hcache.
  { unfold put_path_cache. destruct (_ && _); tree_step; [|done]. eapply inv_kept_trans; [exact Hi3|]. apply inv_kept_same; try done. apply Hi3. }
  eapply wlp_mono; [exact Hcache|]. intros ? t4 Hi4. unfold get_node. repeat tree_step. apply wlp_on_fs. intros f s. tree_step.
  eapply inv_kept_trans; [exact Hi4|]. apply inv_kept_same; try done. apply Hi4.
Qed.

Lemma wlp_mkdir self path t : wf ∅ t → wlp (mkdir self path) (fun _ t' => inv_kept t t') t.
Proof.
  intros Hw. unfold mkdir. tree_step. apply wlp_start_node. intros start. tree_step.
  eapply wlp_mono; [by apply wlp_cd_comp|]. intros [n|e] t1 Hf; [|by eapply found_inv].
  pose proof (found_inv _ _ _ _ _ Hf) as Hi. destruct Hf as (Hw1 & _). destruct (last _) as [k|]; [|by tree_step].
  tree_step. eapply wlp_mono; [by apply wlp_try_to_open|]. intros [m|e] t2 (Hw2 & _ & Hn2 & _);
    (assert (inv_kept t t2) as Hi2 by (eapply inv_kept_trans; [exact Hi|by split])); [by tree_step|].
  destruct (negb (e =? ENOENT)); [by tree_step|]. tree_step.
  eapply wlp_mono; [by apply wlp_create_child|]. intros [m|e'] t3 Hi3; [tree_step|]; by eapply inv_kept_trans.
Qed.

(** [on_fs] and a test of the type of a file change no node. *)
Definition same_tree t t' : Prop :=
  nodes t' = nodes t ∧ root t' = root t ∧ next_node t' = next_node t ∧ directory_vec t' = directory_vec t.

Lemma same_wf D t t' : same_tree t t' → wf D t → wf D t'.
Proof. intros (? & ? & ? & ?) Hw. by eapply wf_same_nodes. Qed.

Lemma same_named t t' : same_tree t t' → named t → named t'.
Proof. intros (En & _). apply named_subseteq. by rewrite En. Qed.

Lemma wlp_is_dir f t : wlp (file_is_dir f) (fun _ t' => same_tree t t') t.
Proof. unfold file_is_dir. tree_step. apply wlp_on_fs. intros. by tree_step. Qed.

Lemma wlp_on_fs_same {A} (m : ST S A) t : wlp (on_fs m) (fun _ t' => same_tree t t') t.
Proof. by apply wlp_on_fs. Qed.

Lemma same_trans t1 t2 t3 : same_tree t1 t2 → same_tree t2 t3 → same_tree t1 t3.
Proof. unfold same_tree. intuition congruence. Qed.

Lemma wlp_tree_delete self path dd t : wf ∅ t → wlp (tree_delete self path dd) (fun _ t' => inv_kept t t') t.
Proof.
  intros Hw. unfold tree_delete. destruct (bool_decide _); [tree_step; by apply inv_kept_same|]. tree_step. apply wlp_start_node. intros start.
  do 2 tree_step. rename a into last_comp. tree_step. eapply wlp_mono; [by apply wlp_cd_comp|]. intros [n|e] t1 Hf; [|by eapply found_inv].
  pose proof (found_inv _ _ _ _ _ Hf) as Hi. destruct Hf as (Hw1 & _). unfold get_node. repeat tree_step. rename a into x, H0 into Hx.
  destruct (0 <? spe_usage x); [by tree_step|]. tree_step. eapply wlp_mono; [apply wlp_is_dir|]. intros d t2 Hs2.
  assert (∀ t', same_tree t1 t' → inv_kept t t') as Hsame.
  { intros t' Hs. eapply inv_kept_trans; [exact Hi|]. split; [by eapply same_wf|by apply same_named]. }
  destruct (negb dd && d); [tree_step; by apply Hsame|]. destruct (dd && negb d); [tree_step; by apply Hsame|].
  unfold upgrade. do 2 tree_step. destruct (match father x with Some f => if nodes t2 !! f is Some _ then Some f else None | None => None end) as [p|]; [|tree_step; by apply Hsame]. tree_step.
  eapply wlp_mono; [apply wlp_on_fs_same|]. intros [[]|e] t3 Hs3; (assert (same_tree t1 t3) as Hs by (eapply same_trans; [exact Hs2|exact Hs3])); [|by apply Hsame].
  destruct (Hsame t3 Hs) as [Hw3 Hn3]. tree_step. eapply wlp_mono; [by apply (wlp_remove_child ∅)|]. intros o t4 (Hw4 & Hn4 & _). tree_step.
  eapply wlp_mono; [by apply wlp_release_opt|]. intros ? t5 (D5 & Hw5 & HD5 & (_ & _ & Hk5 & _) & _). tree_step.
  eapply wlp_mono; [by apply wlp_release|]. intros ? t6 (D6 & Hw6 & HD6 & (_ & _ & Hk6 & _) & _). tree_step. split.
  - assert (D6 = ∅) as ->; [|done]. apply set_eq. intros d'. split; [|set_solver]. intros Hd. destruct (HD6 d' Hd) as [[Hd5 Hne]|?%elem_of_nil]; [|done].
    destruct (HD5 d' Hd5) as [[Hd4 Ho]|Hin]; [|set_solver]. destruct o; unfold opt_set in Hd4; set_solver.
  - intros Hn. eapply named_subseteq; [exact Hk6|]. eapply named_subseteq; [exact Hk5|]. auto.
Qed.

Lemma wlp_oom t : wf ∅ t → wlp oom (fun _ t' => inv_kept t t') t.
Proof.
  intros Hw. unfold oom, update_directory_vec, put_directory_vec. repeat tree_step. set (t1 := mkTree _ _ _ _ _ _ _).
  assert (inv_kept t t1) as Hi.
  { split; [|by apply named_subseteq]. eapply wf_ext; try done. intros n Hn. cbn. apply list_elem_of_filter. split; [done|]. by apply (wf_vec ∅ t Hw). }
  assert (∀ k t2, inv_kept t t2 → wlp (oom_loop k) (fun _ t' => inv_kept t t') t2) as Hloop; [|by apply Hloop].
  induction k as [|k IH]; intros t2 Hi2; cbn [oom_loop]; [by tree_step|]. tree_step.
  assert (wlp oom_round (fun _ t' => inv_kept t t') t2) as Hround.
  { unfold oom_round. repeat tree_step. eapply wlp_mono; [apply (wlp_st_fold _ (fun _ _ t' => inv_kept t t')); [done|]|done].
    intros n l z t3 Hi3. unfold get_node. repeat tree_step. eapply wlp_mono; [apply wlp_on_fs_same|]. intros ? t4 Hs. tree_step.
    eapply inv_kept_trans; [exact Hi3|]. split; [eapply same_wf; [exact Hs|apply Hi3]|by apply same_named]. }
  eapply wlp_mono; [exact Hround|]. intros d t3 Hi3. destruct (0 <? d); [by tree_step|by apply IH].
Qed.

(** ** Renaming *)

Definition no_dots (ks : list (list Z)) : Prop := DOTDOT ∉ ks.

Lemma resolve_app t n ks1 ks2 : resolve t n (ks1 ++ ks2) = m ← resolve t n ks1; resolve t m ks2.
Proof.
  revert n. induction ks1 as [|k ks1 IH]; intros n; cbn [app resolve]; [done|].
  destruct (step_to t n k) as [m|]; cbn; [apply IH|done].
Qed.

Lemma no_dots_app ks1 ks2 : no_dots (ks1 ++ ks2) ↔ no_dots ks1 ∧ no_dots ks2.
Proof. unfold no_dots. rewrite elem_of_app. tauto. Qed.

Lemma no_dots_cons k ks : no_dots (k :: ks) ↔ k ≠ DOTDOT ∧ no_dots ks.
Proof. unfold no_dots. rewrite not_elem_of_cons. naive_solver. Qed.

Lemma resolve_snoc t n ks k m : no_dots (ks ++ [k]) → resolve t n (ks ++ [k]) = Some m ↔ ∃ p, resolve t n ks = Some p ∧ child t p k m.
Proof.
  intros [_ [Hk _]%no_dots_cons]%no_dots_app. rewrite resolve_app, bind_Some. cbn [resolve]. split.
  - intros (p & Hp & (q & Hq & [= <-])%bind_Some). exists p. split; [done|]. by apply step_child.
  - intros (p & Hp & Hc%step_child); [|done]. exists p. split; [done|]. by rewrite Hc.
Qed.

(** A node has one path from the root. *)
Lemma resolve_unique D t ks1 ks2 m :
  wf D t → no_dots ks1 → no_dots ks2 → resolve t (root t) ks1 = Some m → resolve t (root t) ks2 = Some m → ks1 = ks2.
Proof.
  intros Hw. revert ks2 m. induction ks1 as [|k1 ks1 IH] using rev_ind; intros ks2 m Hd1 Hd2 H1 H2.
  - injection H1 as <-. destruct ks2 as [|k2 ks2 _] using rev_ind; [done|]. apply resolve_snoc in H2 as (p & _ & Hc); [|done].
    by destruct (wf_child D t Hw p k2 _ Hc).
  - apply resolve_snoc in H1 as (p1 & Hp1 & Hc1); [|done]. destruct (wf_child D t Hw p1 k1 m Hc1) as (Hm & _ & y & Hy & Hf).
    destruct ks2 as [|k2 ks2 _] using rev_ind; [injection H2 as E; congruence|]. apply resolve_snoc in H2 as (p2 & Hp2 & Hc2); [|done].
    destruct (wf_child D t Hw p2 k2 m Hc2) as (_ & _ & y' & Hy' & Hf'). assert (p1 = p2) as <- by congruence.
    rewrite (wf_unique D t Hw p1 k1 k2 m Hc1 Hc2). f_equal. apply (IH ks2 p1); [by apply no_dots_app in Hd1 as []|by apply no_dots_app in Hd2 as []|done|done].
Qed.

Lemma resolve_reach t n ks m : no_dots ks → resolve t n ks = Some m → rtc (edge t) n m.
Proof.
  intros Hd. revert m. induction ks as [|k ks IH] using rev_ind; intros m Hr; [by injection Hr as <-|].
  apply resolve_snoc in Hr as (p & Hp & Hc); [|done]. eapply rtc_r; [apply IH; [by apply no_dots_app in Hd as []|done]|by exists k].
Qed.

(** A path stays if the steps on it stay. *)
Lemma resolve_transfer t t' n ks m :
  no_dots ks → resolve t n ks = Some m →
  (∀ ks1 k ks2 a b, ks = ks1 ++ k :: ks2 → resolve t n ks1 = Some a → child t a k b → child t' a k b) → resolve t' n ks = Some m.
Proof.
  revert m. induction ks as [|k ks IH] using rev_ind; intros m Hd Hr Hs; [done|].
  pose proof Hr as (p & Hp & Hc)%resolve_snoc; [|done]. apply resolve_snoc; [done|]. exists p. split.
  - apply IH; [by apply no_dots_app in Hd as []|done|]. intros ks1 k' ks2 a b -> Ha. apply (Hs ks1 k' (ks2 ++ [k])); [by rewrite <-app_assoc|done].
  - by apply (Hs ks k []).
Qed.

(** The new name is free, or [rename] fails. *)
Lemma wlp_rename_over oi np nk t :
  wf ∅ t → wlp (rename_over oi np nk) (fun r t' => wf ∅ t' ∧ (r = Okay tt → ext t t')) t.
Proof.
  intros Hw. unfold rename_over, get_node. repeat tree_step. eapply wlp_mono; [by apply wlp_try_to_open|].
  intros r t4 (Hw4 & He4 & _ & _). destruct r as [ni|e]; [|by tree_step].
  repeat tree_step. eapply wlp_mono; [apply wlp_is_dir|]. intros nd t5 Hs5. tree_step. eapply wlp_mono; [apply wlp_is_dir|]. intros od t6 Hs6.
  assert (same_tree t4 t6) as Hs by (eapply same_trans; [exact Hs5|exact Hs6]). pose proof (same_wf ∅ t4 t6 Hs Hw4) as Hw6.
  repeat (case_match; [by tree_step|]). repeat tree_step. eapply wlp_mono; [apply wlp_on_fs_same|]. intros r t7 Hs7.
  destruct r as [[]|e]; [by intros ? ? ?|]. split; [by eapply same_wf|done].
Qed.

Lemma removelast_snoc {A} (l : list A) a : last l = Some a → l = removelast l ++ [a].
Proof. intros (l' & ->)%last_Some. by rewrite removelast_last. Qed.

(** The local variables of [rename] go out of scope. *)
Lemma wlp_release_held oi np op D t :
  wf D t → (∀ d, d ∈ D → d ∈ [oi; np; op]) →
  wlp (release [np; op] oi;; release [op] np;; release [] op) (fun _ t' => wf ∅ t') t.
Proof.
  intros Hw HD. tree_step. eapply wlp_mono; [by apply wlp_release|]. intros ? t1 (D1 & Hw1 & HD1 & _). tree_step.
  eapply wlp_mono; [by apply wlp_release|]. intros ? t2 (D2 & Hw2 & HD2 & _).
  eapply wlp_mono; [by apply wlp_release|]. intros ? t3 (D3 & Hw3 & HD3 & _).
  assert (D3 = ∅) as ->; [|done]. apply set_eq. intros d. split; [|set_solver]. intros Hd.
  destruct (HD3 d Hd) as [[Hd2 ?]|?%elem_of_nil]; [|done]. destruct (HD2 d Hd2) as [[Hd1 ?]|?]; [|set_solver].
  destruct (HD1 d Hd1) as [[Hd0 ?]|?]; [|set_solver]. specialize (HD d Hd0). set_solver.
Qed.

Lemma wlp_set_father D v f t :
  wf D t → v ∈ D → wlp (set_father v f) (fun _ t' => wf D t' ∧ root t' = root t ∧ (∀ a k b, child t' a k b ↔ child t a k b) ∧
    ∃ y, nodes t' !! v = Some y ∧ father y = f) t.
Proof.
  intros Hw Hv. unfold set_father, get_node, put_node, put_nodes. repeat tree_step. rename a into x, H into Hx. cbn [nodes root]. split_and!.
  - eapply (wf_put_node D t); try done. by right.
  - done.
  - intros n1 k b. unfold child. cbn [nodes]. destruct (decide (n1 = v)) as [->|]; [rewrite lookup_insert_eq, Hx|by rewrite lookup_insert_ne].
    split; intros (y & c & [= <-] & Hc & Hk); by eexists _, c.
  - rewrite lookup_insert_eq. by eexists.
Qed.

Lemma wlp_rename_files oi np ok t : wlp (rename_files oi np ok) (fun _ t' => same_tree t t') t.
Proof.
  unfold rename_files, get_node. repeat tree_step. eapply wlp_mono; [apply wlp_on_fs_same|]. intros [[]|e] t1 Hs1; [|done].
  case_match; [by tree_step|]. eapply wlp_mono; [apply wlp_on_fs_same|]. intros ? t2 Hs2. eapply same_trans; [exact Hs1|exact Hs2].
Qed.

(** The last part of [rename]: [value] is loose and [np] below the root. *)
Lemma wlp_rename_finish oi np op value nk ok D t :
  wf (D ∪ {[value]}) t → (∀ d, d ∈ D → d ∈ [oi; np; op]) → rtc (edge t) (root t) np →
  wlp (r ← rename_files oi np ok;
       res ← (match r with
              | Err errno => release [oi; np; op] value;; mret (Err errno)
              | Okay _ => set_father value (Some np);; insert_child np nk value;; mret (Okay tt)
              end);
       release [np; op] oi;; release [op] np;; release [] op;; mret res) (fun _ t' => wf ∅ t') t.
Proof.
  intros Hw HD Hr.
  assert (∀ (res : Result unit) D1 t1, wf D1 t1 → (∀ d, d ∈ D1 → d ∈ [oi; np; op]) →
    wlp (release [np; op] oi;; release [op] np;; release [] op;; mret res) (fun _ t' => wf ∅ t') t1) as Hfin.
  { intros res D1 t1 Hw1 HD1. intros a t' E. eapply (wlp_release_held oi np op D1 t1 Hw1 HD1 tt t').
    unfold mbind, st_bind in *. destruct (release [np; op] oi t1) as [[? t2]| |]; [|done..].
    destruct (release [op] np t2) as [[? t3]| |]; [|done..]. destruct (release [] op t3) as [[[] t4]| |]; [|done..]. by injection E as <- <-. }
  tree_step. eapply wlp_mono; [apply wlp_rename_files|]. intros r t1 Hs1. pose proof (same_wf _ t t1 Hs1 Hw) as Hw1. destruct Hs1 as (En & Er & _).
  assert (rtc (edge t1) (root t1) np) as Hr1.
  { rewrite Er. eapply rtc_subrel; [|exact Hr]. intros n1 n2 (k & Hk). exists k. unfold child. by rewrite En. }
  tree_step. destruct r as [[]|e].
  - repeat tree_step. eapply wlp_mono; [apply (wlp_set_father _ value (Some np) t1 Hw1); set_solver|]. intros ? t2 (Hw2 & Er2 & Hc2 & y & Hy & Hf).
    tree_step. eapply wlp_mono; [eapply (wlp_insert_child _ np nk value y t2 Hw2); [set_solver|done|done|]|].
    { rewrite Er2. eapply rtc_subrel; [|exact Hr1]. intros n1 n2 (k & Hk). exists k. by apply Hc2. }
    intros ? t3 [(D3 & Hw3 & HD3) _]. tree_step. eapply Hfin; [done|]. intros d Hd. apply HD. set_solver.
  - tree_step. eapply wlp_mono; [by apply wlp_release|]. intros ? t2 (D2 & Hw2 & HD2 & _). tree_step. eapply Hfin; [done|].
    intros d Hd. destruct (HD2 d Hd) as [[Hd' Hne]|]; [|done]. apply HD. set_solver.
Qed.

(** After the old name is taken out, the new parent is still below the root. *)
Lemma rename_parent_kept t t' oc ok op nc np x c :
  wf ∅ t → no_dots oc → no_dots nc → resolve t (root t) oc = Some op → resolve t (root t) nc = Some np →
  nodes t !! op = Some x → with_children t op x (delete ok c) t' → children x = Some c →
  ¬ (oc ++ [ok]) `prefix_of` nc → rtc (edge t') (root t') np.
Proof.
  intros Hw Hdo Hdn Hop Hnp Hx Hwc Hc Hnpre. pose proof Hwc as (_ & Er & _). rewrite Er.
  eapply (resolve_reach t' _ nc); [done|]. eapply resolve_transfer; [done|exact Hnp|]. intros ks1 k ks2 a b E Ha Hab.
  assert (no_dots ks1) as Hd1 by (rewrite E in Hdn; by apply no_dots_app in Hdn as []).
  apply (with_children_child t op x _ t' a k b Hx Hwc). destruct (decide (a = op)) as [->|Hne]; [right|by left].
  split; [done|]. apply lookup_delete_Some. destruct Hab as (x1 & c1 & Hx1 & Hc1 & Hk). simplify_eq. split; [|done]. intros <-. apply Hnpre.
  rewrite (resolve_unique ∅ t ks1 oc op Hw Hd1 Hdo Ha Hop). exists ks2. by rewrite <-app_assoc.
Qed.

Lemma wlp_rename old_path new_path t :
  wf ∅ t → no_dots (parse_dir_path old_path) → no_dots (parse_dir_path new_path) → wlp (rename old_path new_path) (fun _ t' => wf ∅ t') t.
Proof.
  intros Hw Hdo Hdn. unfold rename. tree_step. tree_step. tree_step. tree_step.
  set (oc0 := parse_dir_path old_path) in *. set (nc0 := parse_dir_path new_path) in *. case_bool_decide as Heq; [by tree_step|].
  destruct (comps_prefix oc0 nc0) eqn:Hpre; [by tree_step|]. tree_step. tree_step. rename a into ok, H1 into Hok. tree_step. tree_step. rename a into nk, H1 into Hnk.
  pose proof (removelast_snoc _ _ Hok) as Eo. pose proof (removelast_snoc _ _ Hnk) as Enw.
  set (oc := removelast oc0) in *. set (nc := removelast nc0) in *. rewrite Eo in Hdo. rewrite Enw in Hdn.
  apply no_dots_app in Hdo as [Hdo _]. apply no_dots_app in Hdn as [Hdn _]. tree_step. tree_step. tree_step.
  eapply wlp_mono; [by apply wlp_cd_comp|]. intros [op|e] t1 (Hw1 & He1 & _ & Hr1); [|done]. specialize (Hr1 op eq_refl). tree_step.
  eapply wlp_mono; [by apply wlp_cd_comp|]. intros [np|e] t2 (Hw2 & He2 & _ & Hr2); [|done]. specialize (Hr2 np eq_refl). tree_step.
  rewrite <-(proj1 He1) in Hr1. rewrite <-(proj1 He1), <-(proj1 He2) in Hr2. apply (resolve_ext t1 t2 _ _ _ Hw1 Hw2 He2) in Hr1. rewrite <-(proj1 He2) in Hr1.
  case_match; [by intros ? ? ?|]. repeat tree_step.
  eapply wlp_mono; [by apply wlp_try_to_open|]. intros [oi|e] t3 (Hw3 & He3 & _ & _); [|done].
  apply (resolve_ext t2 t3 _ _ _ Hw2 Hw3 He3) in Hr1, Hr2. rewrite <-(proj1 He3) in Hr1, Hr2.
  unfold get_node at 1 2. repeat tree_step. case_match; [by tree_step|]. case_match; [by tree_step|]. tree_step.
  eapply wlp_mono; [by apply (wlp_rename_over oi np nk)|]. intros [[]|e] t5 [Hw5 He5]; [|done]. specialize (He5 eq_refl).
  apply (resolve_ext t3 t5 _ _ _ Hw3 Hw5 He5) in Hr1, Hr2. rewrite <-(proj1 He5) in Hr1, Hr2. tree_step.
  eapply wlp_mono; [by apply (wlp_remove_child ∅)|]. intros o t6 (Hw6 & _ & x & c & Hx & Hc & -> & Hwc). tree_step. tree_step. rewrite H6 in Hw6.
  eapply (wlp_rename_finish _ _ _ _ _ _ ∅); [exact Hw6|done|].
  eapply (rename_parent_kept t5 t6 oc ok op nc np x c); try done. intros [l E]. revert Hpre. unfold comps_prefix.
  rewrite Eo, Enw, E, <-app_assoc, take_app_length. by rewrite bool_decide_true.
Qed.
End Spec.
