(* ===== verification/TreeView.v ===== *)
(** * The directory tree as a map from paths to nodes

    What the calls of [Tree.v] do to the paths of the tree: making, removing and
    renaming, the normal form of a path, and the path that [get_cwd] finds for a
    node.  The tree only ever holds the part of the disk that was looked at, so
    the statements compare the tree after the call with the tree in which the
    call has read what it needs ([ext]). *)

From stdpp Require Import relations.
From S2P Require Import Prelude Config FdTable Utf Layout OSInode Tree RamFs TreeSpec.

Section View.
Context {S F : Type} `{!FileTrait S F}.
Implicit Types t : @Tree S F.
Implicit Types x : @Node F.

(** ** Adding a node *)

(** A failed reading leaves the nodes as they were. *)
Lemma wlp_cache_err n t :
  wlp (cache_all_subfile n) (fun r t' => ∀ e, r = Err e → nodes t' = nodes t ∧ ∀ x, nodes t !! n = Some x → children x = None) t.
Proof.
  unfold cache_all_subfile, get_node. repeat tree_step. rename a into x, H into Hx. destruct (children x) as [c|] eqn:Hc; [by tree_step|].
  assert (∀ y, nodes t !! n = Some y → children y = None) as Hy by (intros y Hy; congruence).
  unfold file_is_dir. repeat tree_step. apply wlp_on_fs. intros ft s1. repeat tree_step. destruct (negb _); [by tree_step|]. repeat tree_step.
  apply wlp_on_fs. intros [vec|e] s2; [|done]. tree_step. intros map t3 _. tree_step. intros ? t4 _. by tree_step.
Qed.

Lemma wlp_try_to_open_err n k t :
  wlp (try_to_open_subfile n k) (fun r t' => ∀ e x c, r = Err e → nodes t' !! n = Some x → children x = Some c → c !! k = None) t.
Proof.
  unfold try_to_open_subfile. tree_step. eapply wlp_mono; [apply wlp_cache_err|]. intros [[]|e] t1 H1.
  - unfold get_node. repeat tree_step. intros e x c. destruct (a0 !! k) eqn:E; [done|]. intros _ Hx Hc. congruence.
  - destruct (H1 e eq_refl) as [En Hn]. intros e' x c _ Hx Hc. rewrite En in Hx. by rewrite (Hn x Hx) in Hc.
Qed.

(** The tree [t'] is [t] with the new node [v] as child [k] of [n]; in [tm] it is
    not put in yet. *)
Definition added t (n : nat) (k : list Z) (v : nat) t' : Prop :=
  nodes t !! v = None ∧ ∃ tm x c fs f, nodes t !! n = Some x ∧ children x = Some c ∧ c !! k = None ∧ wf ({[v]} ∪ ∅) tm ∧ root tm = root t ∧
    nodes tm = <[v := mkNode 0 k fs f (Some n) None]> (nodes t) ∧ with_children tm n x (<[k := v]> c) t'.

Lemma wlp_create_new n k ft t :
  wf ∅ t → (∀ x c, nodes t !! n = Some x → children x = Some c → c !! k = None) →
  wlp (create_child n k ft) (fun r t' => match r with Okay v => added t n k v t' | Err _ => same_tree t t' end) t.
Proof.
  intros Hw Hk. unfold create_child, node_create, get_node. repeat tree_step. rename a into x, H into Hx. apply wlp_on_fs.
  intros [f|e] s1; [|done]. set (t0 := mkTree _ _ _ _ _ _ s1). assert (wf ∅ t0) as Hw0 by (by eapply wf_same_nodes). repeat tree_step. rename a into x'.
  eapply wlp_mono; [by apply (wlp_node_new ∅)|]. intros v t1 (Hv & En & Er & Hw1). assert (n ≠ v) as Hnv by (cbn in *; congruence).
  unfold insert_child, get_node. repeat tree_step. rewrite En, lookup_insert_ne in H0 by done. cbn in H, H0. simplify_eq. rename a0 into c, H1 into Hc.
  specialize (Hk _ c Hx Hc). eapply wlp_mono; [apply wlp_set_children|]. intros [] t2 (y & Hy & Hwc).
  rewrite En, lookup_insert_ne in Hy by done. cbn in Hy. simplify_eq. rewrite Hk. cbn [release_opt]. repeat tree_step. split; [done|].
  by eexists t1, _, c, _, _.
Qed.

(** The node a path starts from. *)
Definition base t (self : nat) (path : list Z) : nat := if starts_with_slash path then root t else self.

(** The last component [k] of the path was made as the node [v]; [t1] is the tree
    with the directories read on the way. *)
Definition made self path t t1 (v : nat) t' : Prop :=
  wf ∅ t1 ∧ ext t t1 ∧ wf ∅ t' ∧ ∃ pc k n, parse_dir_path path = pc ++ [k] ∧ resolve t1 (base t self path) pc = Some n ∧ added t1 n k v t'.

Lemma same_ext t t1 t2 : ext t t1 → same_tree t1 t2 → ext t t2.
Proof. intros [Hr He] (En & Er & _). split; [congruence|]. by rewrite En. Qed.

Lemma wlp_mkdir_made self path t :
  wf ∅ t → wlp (mkdir self path) (fun r t' => match r with Okay _ => ∃ t1 v, made self path t t1 v t' | Err _ => wf ∅ t' ∧ ext t t' end) t.
Proof.
  intros Hw. unfold mkdir, start_node. repeat tree_step. fold (base t self path). eapply wlp_mono; [by apply wlp_cd_comp|].
  intros [n|e] t1 (Hw1 & He1 & _ & Hr1); [|done]. destruct (last (parse_dir_path path)) as [k|] eqn:Hl; [|by tree_step]. specialize (Hr1 n eq_refl). tree_step.
  eapply wlp_mono; [apply wlp_and; [by apply wlp_try_to_open|apply wlp_try_to_open_err]|]. intros r t2 [(Hw2 & He2 & _ & _) Hno].
  assert (ext t t2) as He by (eapply ext_trans; [exact He1|exact He2]).
  destruct r as [m|e]; [by tree_step|]. destruct (negb (e =? ENOENT)); [by tree_step|]. tree_step.
  eapply wlp_mono; [apply wlp_and; [by apply (wlp_create_new n k Directory t2 Hw2); intros; eapply Hno|by apply wlp_create_child]|].
  intros [v|e'] t3 [Hadd [Hw3 _]]; [|split; [done|by eapply same_ext]]. tree_step. exists t2, v. split_and!; try done.
  exists (removelast (parse_dir_path path)), k, n. split_and!; [by apply removelast_snoc|by apply (resolve_ext t1 t2)|done].
Qed.

(** ** The initial tree *)

Definition live_kept t t' : Prop := root t' = root t ∧ ∀ n, is_Some (nodes t !! n) → is_Some (nodes t' !! n).

Lemma live_trans t1 t2 t3 : live_kept t1 t2 → live_kept t2 t3 → live_kept t1 t3.
Proof. intros [? H1] [? H2]. split; [congruence|auto]. Qed.

Lemma ext_live t t' : ext t t' → live_kept t t'.
Proof. intros [Hr He]. split; [done|]. intros n [x Hx]. destruct (He n x Hx) as (x' & ? & _). by eexists. Qed.

Lemma added_live t n k v t' : added t n k v t' → live_kept t t'.
Proof.
  intros (_ & tm & x & c & fs & f & _ & _ & _ & _ & Er & En & En' & Er' & _). split; [congruence|]. intros m Hm. rewrite En', En, !lookup_insert_is_Some.
  destruct (decide (n = m)), (decide (v = m)); tauto.
Qed.

Lemma wlp_mkdir_live self path t : wf ∅ t → wlp (mkdir self path) (fun _ t' => wf ∅ t' ∧ live_kept t t') t.
Proof.
  intros Hw. eapply wlp_mono; [by apply wlp_mkdir_made|]. intros [[]|e] t'; [|intros [? ?]; split; [done|by apply ext_live]].
  intros (t1 & v & Hw1 & He1 & Hw' & pc & k & n & _ & _ & Ha). split; [done|]. eapply live_trans; [by apply ext_live|by eapply added_live].
Qed.

Lemma wlp_new_live D name fs file fa t :
  wf D t → wlp (node_new name fs file fa) (fun n t' => wf ({[n]} ∪ D) t' ∧ nodes t' !! n = Some (mkNode 0 name fs file fa None) ∧
    (∀ d, d ∈ D → d ≠ n) ∧ live_kept t t' ∧ (∀ m, rtc (edge t) (root t) m → rtc (edge t') (root t') m) ∧
    ∀ m y, nodes t !! m = Some y → nodes t' !! m = Some y) t.
Proof.
  intros Hw. eapply wlp_mono; [by apply (wlp_node_new D)|]. intros n t' (Hn & En & Er & Hw'). split; [done|]. rewrite En, Er.
  assert (∀ m y, nodes t !! m = Some y → nodes t' !! m = Some y) as Hm. { intros m y Hy. rewrite En, lookup_insert_ne; [done|congruence]. }
  split_and!; [by rewrite lookup_insert_eq| |split; [done|]; intros m [y Hy]; exists y; by apply Hm| |by rewrite <-En].
  - intros d Hd ->. destruct (wf_loose D t Hw n Hd). congruence.
  - intros m. apply rtc_subrel. intros a b (k & y & c & Ha & Hrest). exists k, y, c. split; [by apply Hm|done].
Qed.

(** A loose node that is not the one put in stays loose. *)
Lemma wlp_insert_child_beside D n key v y d z t :
  wf D t → v ∈ D → nodes t !! v = Some y → father y = Some n → rtc (edge t) (root t) n → d ∈ D → d ≠ v → d ≠ n → nodes t !! d = Some z →
  wlp (insert_child n key v) (fun _ t' => nodes t' !! d = Some z ∧ ∃ D', wf D' t' ∧ D' ⊆ D ∖ {[v]} ∧ d ∈ D') t.
Proof.
  intros Hw Hv Hy Hf Hr Hd Hdv Hdn Hz.
  assert (wlp (insert_child n key v) (fun _ t' => nodes t' !! d = Some z ∧ owned t' d = false ∧ d ≠ root t') t) as Hins.
  2: { eapply wlp_mono; [apply wlp_and; [by apply (wlp_insert_child D n key v y t)|exact Hins]|].
    intros ? t' [[(D' & Hw' & HD') _] (Hd' & Ho & Hnr)]. split; [exact Hd'|]. exists D'. split_and!; [done|done|]. by eapply loose_node. }
  unfold insert_child, get_node. repeat tree_step. rename a into x, H into Hx, a0 into c, H0 into Hc.
  eapply wlp_mono; [apply wlp_set_children|]. intros [] t1 (x' & Hx' & Hwc). rewrite Hx in Hx'. injection Hx' as <-.
  pose proof (wf_attach D t n x c key v y t1 Hw Hx Hc Hv Hy Hf Hr Hwc) as Hw1. pose proof Hwc as (En1 & Er1 & _).
  assert (∀ a, ¬ edge t1 a d) as Hne.
  { intros w (k & [[_ Hk]|[-> Hk]]%(with_children_child t n x _ t1 w k d Hx Hwc)); [by destruct (wf_child D t Hw w k d Hk) as (_ & ? & _)|].
    apply lookup_insert_Some in Hk as [[_ ->]|[_ Hk]]; [done|]. destruct (wf_child D t Hw n k d) as (_ & ? & _); [by exists x, c|done]. }
  assert (nodes t1 !! d = Some z) as Hz1 by (by rewrite En1, lookup_insert_ne).
  eapply wlp_mono; [by apply wlp_release_opt|]. intros ? t2 (_ & _ & _ & (Er & _ & Hs & _) & Hb).
  split_and!.
  - rewrite Hb; [done|]. intros old Eo [Ho|(w & _ & Ha)]%rtc_inv_r; [|by apply (Hne w)].
    subst old. destruct (wf_child D t Hw n key d) as (_ & ? & _); [by exists x, c|done].
  - destruct (owned t2 d) eqn:Ho; [|done]. apply owned_spec in Ho as (w & Ha). apply (edge_subseteq t1 t2 _ _ Hs) in Ha. by apply Hne in Ha.
  - rewrite Er, Er1. intros ->. by destruct (wf_root_in D t Hw).
Qed.

Lemma resolve_live t n ks m : wf ∅ t → is_Some (nodes t !! n) → resolve t n ks = Some m → is_Some (nodes t !! m).
Proof.
  intros Hw. revert n. induction ks as [|k ks IH]; intros n Hn; cbn [resolve]; [by intros [= <-]|]. intros (p & Hp & Hr)%bind_Some.
  eapply IH; [|exact Hr]. destruct (decide (k = DOTDOT)) as [->|Hk].
  - unfold step_to in Hp. apply bind_Some in Hp as (x & Hx & Hp). rewrite bool_decide_true in Hp by done. injection Hp as <-.
    destruct (father x) as [f|]; [|done]. by destruct (nodes t !! f) eqn:E; [rewrite E; eexists|].
  - apply step_child in Hp; [|done]. destruct (wf_child ∅ t Hw n k p Hp) as (_ & _ & y & Hy & _). by eexists.
Qed.

Lemma wlp_cd_live n path t :
  wf ∅ t → is_Some (nodes t !! n) → wlp (cd_path n path) (fun r t' => wf ∅ t' ∧ ext t t' ∧ ∀ m, r = Okay m → is_Some (nodes t' !! m)) t.
Proof.
  intros Hw Hn. unfold cd_path, start_node. repeat tree_step. fold (base t n path). eapply wlp_mono; [by apply wlp_cd_comp|].
  intros r t' (Hw' & He & _ & Hr). split_and!; [done|done|]. intros m Hm. eapply resolve_live; [done| |by apply Hr]. apply (ext_live t t' He).
  unfold base. destruct (starts_with_slash path); [apply (wf_root ∅ t Hw)|done].
Qed.

Lemma wlp_FileSystem_new ty D (Q : FileSystem → Tree → Prop) t :
  wf D t → (∀ fs t', wf D t' → nodes t' = nodes t → root t' = root t → Q fs t') → wlp (FileSystem_new ty) Q t.
Proof. intros Hw HQ. unfold FileSystem_new. repeat tree_step. apply HQ; [|done..]. by eapply wf_same_nodes. Qed.

Lemma ext_reach t t' m : ext t t' → rtc (edge t) (root t) m → rtc (edge t') (root t') m.
Proof. intros He. rewrite (proj1 He). apply rtc_subrel. intros a b (k & Hk). exists k. by eapply ext_child. Qed.

(** A node for a device, loose until it is put in. *)
Lemma wlp_new_device {A} ty name file dev D (k : nat → ST Tree A) (Q : A → Tree → Prop) t :
  wf D t → rtc (edge t) (root t) dev → (∀ d y, d ∈ D → nodes t !! d = Some y → d ≠ dev) →
  (∀ v t', wf ({[v]} ∪ D) t' → rtc (edge t') (root t') dev → v ∉ D → v ≠ dev →
    (∃ y, nodes t' !! v = Some y ∧ father y = Some dev ∧ children y = None) → (∀ m y, nodes t !! m = Some y → nodes t' !! m = Some y) → wlp (k v) Q t') →
  wlp (fs ← FileSystem_new ty; v ← node_new name fs file (Some dev); k v) Q t.
Proof.
  intros Hw Hr HD Hk. tree_step. eapply wlp_FileSystem_new; [done|]. intros fs t1 Hw1 En1 Er1. tree_step.
  eapply wlp_mono; [by apply (wlp_new_live D)|]. intros v t2 (Hw2 & Hv & Hne & _ & Hreach & Hold).
  assert (rtc (edge t2) (root t2) dev) as Hr2.
  { apply Hreach. rewrite Er1. eapply rtc_subrel; [|exact Hr]. intros a b (k' & Hk'). exists k'. unfold child. by rewrite En1. }
  apply Hk; [done|done| | | |].
  - intros Hd. by apply (Hne v Hd).
  - intros ->. apply (reach_not_loose _ t2 dev Hw2 Hr2). set_solver.
  - by eexists.
  - intros m y Hm. apply Hold. by rewrite En1.
Qed.

Lemma reach_or_loose D t n : wf D t → is_Some (nodes t !! n) → n ∉ D → (∀ d, d ∈ D → ∃ y, nodes t !! d = Some y ∧ children y = None) → rtc (edge t) (root t) n.
Proof.
  intros Hw Hn HnD HD. destruct (wf_reach D t Hw n Hn) as (o & [->|Ho] & Hr); [done|]. destruct (HD o Ho) as (y & Hy & Hc).
  apply rtc_inv in Hr as [<-|(m & Hm & _)]; [done|]. apply (edge_kids t o y m Hy) in Hm. apply elem_of_kids in Hm as (c & k & ? & _). congruence.
Qed.

Lemma wlp_init_rtc (hwclock : F) misc t :
  wf ∅ t → is_Some (nodes t !! misc) →
  wlp (fs ← FileSystem_new FS_Null; hwclock_dev ← node_new (chars "rtc") fs hwclock (Some misc);
       cache_all_subfile misc;; insert_child misc (chars "rtc") hwclock_dev) (fun _ t' => wf ∅ t') t.
Proof.
  intros Hw Hm. eapply (wlp_new_device _ _ _ _ ∅); [done|by apply all_reach|set_solver|]. intros v t1 Hw1 Hr1 _ _ (y & Hy & Hf & _) _. tree_step.
  eapply wlp_mono; [by apply (wlp_cache_subfile ({[v]} ∪ ∅) misc t1)|]. intros ? t2 (Hw2 & He2 & _). destruct (proj2 He2 v y Hy) as (y' & Hy' & _ & _ & _ & _ & Hf' & _).
  eapply wlp_mono; [eapply (wlp_insert_child _ misc _ v y' t2 Hw2); [set_solver|done|congruence|by eapply ext_reach]|].
  intros ? t3 [(D' & Hw3 & HD') _]. assert (D' = ∅) as -> by set_solver. done.
Qed.

Lemma wlp_init_device (null zero hwclock : F) t : wf ∅ t → wlp (init_device_directory null zero hwclock) (fun _ t' => wf ∅ t') t.
Proof.
  intros Hw. unfold init_device_directory. repeat tree_step. eapply wlp_mono; [by apply wlp_mkdir_live|]. intros ? t1 [Hw1 Hl1]. tree_step.
  eapply wlp_mono; [apply wlp_cd_live; [done|]; apply Hl1, (wf_root ∅ t Hw)|]. intros [dev|e] t2 (Hw2 & _ & Hd2); [|by tree_step]. specialize (Hd2 dev eq_refl).
  tree_step. eapply wlp_mono; [by apply wlp_mkdir_live|]. intros ? t3 [Hw3 Hl3]. tree_step.
  eapply wlp_mono; [by apply wlp_mkdir_live|]. intros ? t4 [Hw4 Hl4]. assert (is_Some (nodes t4 !! dev)) as Hd4 by (by apply Hl4, Hl3).
  eapply (wlp_new_device _ _ _ _ ∅); [done|by apply all_reach|set_solver|]. intros nd t5 Hw5 Hr5 _ Hn5 (y & Hy & Hf & Hc) _.
  eapply (wlp_new_device _ _ _ _ ({[nd]} ∪ ∅)); [done|done|intros d ? Hd; set_solver|]. intros zd t6 Hw6 Hr6 Hzd Hz6 (z & Hz & Hfz & Hcz) Hold6. tree_step.
  eapply wlp_mono; [apply (wlp_insert_child_beside _ dev _ nd y zd z t6 Hw6); [set_solver|by apply Hold6|done|done|set_solver|set_solver|done|done]|].
  intros ? t7 (Hz7 & D7 & Hw7 & HD7 & Hin7). assert (D7 = {[zd]}) as -> by set_solver. tree_step.
  destruct (nodes t7 !! dev) as [x|] eqn:Hx; [|by unfold insert_child, get_node; repeat tree_step; congruence].
  eapply wlp_mono; [eapply (wlp_insert_child _ dev _ zd z t7 Hw7); [set_solver|done|done|]|].
  { eapply reach_or_loose; [done|by eexists|set_solver|]. intros d ->%elem_of_singleton. by exists z. }
  intros ? t8 [(D8 & Hw8 & HD8) _]. assert (D8 = ∅) as -> by set_solver. tree_step.
  intros r t9 E. destruct (nodes t8 !! dev) as [x8|] eqn:Hx8.
  - destruct (wlp_cd_live dev (chars "./misc") t8 Hw8 (mk_is_Some _ _ Hx8) r t9 E) as (Hw9 & _ & Hm9). destruct r as [misc|e]; [|by tree_step].
    apply wlp_init_rtc; [done|by apply Hm9].
  - assert (wlp (cd_path dev (chars "./misc")) (fun _ _ => False) t8) as Hno; [|by destruct (Hno r t9 E)].
    unfold cd_path, start_node. change (parse_dir_path (chars "./misc")) with [chars "misc"]. change (starts_with_slash (chars "./misc")) with false. cbn [cd_comp]. rewrite bool_decide_false by done.
    unfold try_to_open_subfile, cache_all_subfile, get_node. repeat tree_step. congruence.
Qed.

Lemma wlp_init_fs (null zero hwclock : F) t : wf ∅ t → wlp (init_fs null zero hwclock) (fun _ t' => wf ∅ t') t.
Proof.
  intros Hw. unfold init_fs, init_tmp_directory, init_proc_directory. tree_step. eapply wlp_mono; [by apply wlp_init_device|].
  intros ? t1 Hw1. repeat tree_step. eapply wlp_mono; [by apply wlp_mkdir|]. intros ? t2 [Hw2 _]. repeat tree_step.
  eapply wlp_mono; [by apply wlp_mkdir|]. intros ? t3 [Hw3 _]. tree_step.
  eapply wlp_mono; [by apply wlp_open|]. intros ? t4 [Hw4 _]. tree_step. eapply wlp_mono; [by apply wlp_open|]. intros ? t5 [Hw5 _]. by tree_step.
Qed.

(** [ROOT] alone, in use. *)
Definition first_tree (f : F) (s : S) : Tree :=
  mkTree {[0%nat := mkNode 1 [] (mkFileSystem 1 FS_Fat32) f None None]} 1 0 ([0%nat], 0) ([], None) 1 s.

Lemma root_tree_first (f : F) (s : S) : root_tree f s = Ok (first_tree f s).
Proof. reflexivity. Qed.

Lemma first_tree_wf (f : F) (s : S) : wf ∅ (first_tree f s).
Proof.
  set (t := first_tree f s). assert (∀ n y, nodes t !! n = Some y → n = 0%nat ∧ y = mkNode 1 [] (mkFileSystem 1 FS_Fat32) f None None) as Hone.
  { intros n y. cbn [nodes t first_tree]. by intros [<- <-]%lookup_singleton_Some. }
  assert (∀ n k m, ¬ child t n k m) as Hno by (intros n k m (y & c & [_ ->]%Hone & Hc & _); done).
  split.
  - by eexists.
  - by intros y [_ ->]%Hone.
  - set_solver.
  - by intros n k m ?%Hno.
  - by intros n k1 k2 m ?%Hno.
  - set_solver.
  - intros n [y [-> _]%Hone]. exists 0%nat. split; [by left|done].
  - intros n [y [-> _]%Hone]. cbn. lia.
  - intros n [y [-> _]%Hone]. cbn. apply list_elem_of_here.
Qed.


(** ** The states of the tree *)

(** Renames are told apart from the other calls. *)
Inductive tree_event : Type :=
  | TCall
  | TRename (old_path new_path : list Z).

(** A call of the kernel, or what happens to the files and to the use of a node
    between two calls. *)
Inductive tree_step : Tree → tree_event → Tree → Prop :=
  | step_init null zero hwclock r t t' : init_fs null zero hwclock t = Ok (r, t') → tree_step t TCall t'
  | step_open fd path flags special r t t' : fd_open fd path flags special t = Ok (r, t') → tree_step t TCall t'
  | step_cd fd path r t t' : fd_cd fd path t = Ok (r, t') → tree_step t TCall t'
  | step_mkdir fd path r t t' : fd_mkdir fd path t = Ok (r, t') → tree_step t TCall t'
  | step_delete fd path directory r t t' : fd_delete fd path directory t = Ok (r, t') → tree_step t TCall t'
  | step_rename old_path new_path r t t' : rename old_path new_path t = Ok (r, t') → tree_step t (TRename old_path new_path) t'
  | step_oom r t t' : oom t = Ok (r, t') → tree_step t TCall t'
  | step_unused n r t t' : sub_special_use n t = Ok (r, t') → tree_step t TCall t'
  | step_files s t : tree_step t TCall (mkTree (nodes t) (next_node t) (root t) (directory_vec t) (path_cache t) (fs_id_counter t) s).

Inductive tree_run : Tree → list tree_event → Tree → Prop :=
  | run_nil t : tree_run t [] t
  | run_step t e t1 es t' : tree_step t e t1 → tree_run t1 es t' → tree_run t (e :: es) t'.

Definition reachable (root_file : F) (s : S) (es : list tree_event) t : Prop := ∃ t0, root_tree root_file s = Ok t0 ∧ tree_run t0 es t.

(** A rename of paths whose normal forms do not begin with "..". *)
Definition dotless (e : tree_event) : Prop :=
  match e with
  | TCall => True
  | TRename old_path new_path => no_dots (parse_dir_path old_path) ∧ no_dots (parse_dir_path new_path)
  end.

(** The names on the way from [n] down to [m]. *)
Fixpoint walk t (n : nat) (ks : list (list Z)) (m : nat) : Prop :=
  match ks with
  | [] => n = m
  | k :: ks => ∃ p, child t n k p ∧ walk t p ks m
  end.

Lemma walk_snoc t n ks k m : walk t n (ks ++ [k]) m ↔ ∃ p, walk t n ks p ∧ child t p k m.
Proof.
  revert n. induction ks as [|k' ks IH]; intros n; cbn [app walk].
  - split; [intros (p & Hp & ->); by exists n|]. intros (p & -> & Hp). by exists m.
  - split; [intros (q & Hq & (p & Hp & Hc)%IH); exists p; split; [by exists q|done]|].
    intros (p & (q & Hq & Hp) & Hc). exists q. split; [done|]. apply IH. by exists p.
Qed.

Lemma walk_exists t n m : rtc (edge t) n m → ∃ ks, walk t n ks m.
Proof. revert m. apply rtc_ind_r; [by exists []|]. intros y z _ [k Hk] [ks Hks]. exists (ks ++ [k]). apply walk_snoc. by exists y. Qed.

Lemma walk_unique_top D t o ks1 ks2 m : wf D t → o = root t ∨ o ∈ D → walk t o ks1 m → walk t o ks2 m → ks1 = ks2.
Proof.
  intros Hw Ho. assert (∀ p k, ¬ child t p k o) as Htop. { intros p k Hk. destruct (wf_child D t Hw p k o Hk) as (? & ? & _). by destruct Ho. }
  revert ks2 m. induction ks1 as [|k1 ks1 IH] using rev_ind; intros ks2 m H1 H2.
  - cbn in H1. subst m. destruct ks2 as [|k2 ks2 _] using rev_ind; [done|]. apply walk_snoc in H2 as (p & _ & Hc). by destruct (Htop p k2).
  - apply walk_snoc in H1 as (p1 & Hp1 & Hc1). destruct (wf_child D t Hw p1 k1 m Hc1) as (Hm & _ & y & Hy & Hf).
    destruct ks2 as [|k2 ks2 _] using rev_ind; [by cbn in H2; subst m; destruct (Htop p1 k1)|]. apply walk_snoc in H2 as (p2 & Hp2 & Hc2).
    destruct (wf_child D t Hw p2 k2 m Hc2) as (_ & _ & y' & Hy' & Hf'). assert (p1 = p2) as <- by congruence.
    rewrite (wf_unique D t Hw p1 k1 k2 m Hc1 Hc2). f_equal. by apply (IH ks2 p1).
Qed.

Lemma walk_unique D t ks1 ks2 m : wf D t → walk t (root t) ks1 m → walk t (root t) ks2 m → ks1 = ks2.
Proof. intros Hw. apply (walk_unique_top D t (root t)); [done|by left]. Qed.

Lemma wlp_fd_base fd path t : wlp (fd_base fd path) (fun _ t' => same_tree t t') t.
Proof.
  unfold fd_base, upgrade, file_is_file. repeat tree_step. eapply wlp_mono; [apply wlp_on_fs_same|]. intros ft t1 Hs. repeat tree_step.
  destruct (_ && _); repeat tree_step; done.
Qed.

Lemma wlp_fd_open fd path flags special t : wf ∅ t → wlp (fd_open fd path flags special) (fun _ t' => wf ∅ t') t.
Proof.
  intros Hw. unfold fd_open. destruct (bool_decide _); [by tree_step|]. tree_step. eapply wlp_mono; [apply wlp_fd_base|].
  intros [n|e] t1 Hs; pose proof (same_wf ∅ t t1 Hs Hw) as Hw1; [|done]. tree_step. eapply wlp_mono; [by apply wlp_open|].
  intros [p|e] t2 [Hw2 _]; [by tree_step|done].
Qed.

Lemma tree_step_wf t e t' : wf ∅ t → tree_step t e t' → dotless e → wf ∅ t'.
Proof.
  intros Hw Hs He. destruct Hs as [null zero hwclock r t t' E|fd path flags special r t t' E|fd path r t t' E|fd path r t t' E|fd path directory r t t' E
    |old_path new_path r t t' E|r t t' E|n r t t' E|s t].
  - by apply (wlp_init_fs null zero hwclock t Hw r t').
  - by apply (wlp_fd_open fd path flags special t Hw r t').
  - by apply (wlp_fd_open fd path (Z.lor O_DIRECTORY O_RDONLY) true t Hw r t').
  - revert r t' E. change (wlp (fd_mkdir fd path) (fun _ t' => wf ∅ t') t). unfold fd_mkdir. tree_step. eapply wlp_mono; [apply wlp_fd_base|].
    intros [n|e] t1 Hs; pose proof (same_wf ∅ t t1 Hs Hw) as Hw1; [|done]. eapply wlp_mono; [by apply wlp_mkdir|]. by intros ? t2 [? _].
  - revert r t' E. change (wlp (fd_delete fd path directory) (fun _ t' => wf ∅ t') t). unfold fd_delete. tree_step. eapply wlp_mono; [apply wlp_fd_base|].
    intros [n|e] t1 Hs; pose proof (same_wf ∅ t t1 Hs Hw) as Hw1; [|done]. eapply wlp_mono; [by apply wlp_tree_delete|]. by intros ? t2 [? _].
  - destruct He as [Ho Hn]. by apply (wlp_rename old_path new_path t Hw Ho Hn r t').
  - by destruct (wlp_oom t Hw r t' E).
  - by destruct (wlp_change_use n (fun u => u ⊟ 1) t Hw r t' E).
  - by eapply wf_same_nodes.
Qed.

Lemma reachable_wf f s es t : reachable f s es t → Forall dotless es → wf ∅ t.
Proof.
  intros (t0 & E & Hr) He. rewrite root_tree_first in E. injection E as <-. pose proof (first_tree_wf f s) as Hw. revert He Hw.
  induction Hr as [|t1 e t2 es t3 Hs _ IH]; [done|]. intros [He Hes]%Forall_cons Hw. apply IH; [done|]. by eapply tree_step_wf.
Qed.

(** C13: in every state of the directory tree that calls of the kernel reach from
    the lazily made [ROOT], where the renames are of paths whose normal forms do
    not begin with "..", the nodes form a tree: each node has exactly one way down
    from the root (so there is no cycle, no second owner and no lost node), it is
    the child of the node that its [father] pointer names, only the root has no
    father, and [DIRECTORY_VEC] lists it.  What the files do is arbitrary.  Other
    renames can break the tree: [rename_below_itself]. *)
Theorem directory_tree_invariant f s es t n x :
  reachable f s es t → Forall dotless es → nodes t !! n = Some x →
  (∃ ks, walk t (root t) ks n ∧ ∀ ks', walk t (root t) ks' n → ks' = ks) ∧ (n = root t ↔ father x = None) ∧ (∀ p, father x = Some p → ∃ k, child t p k n) ∧ n ∈ (directory_vec t).1.
Proof.
  intros Hre He Hx. pose proof (reachable_wf f s es t Hre He) as Hw. destruct (walk_exists t (root t) n) as [ks Hks]; [apply all_reach; [done|by eexists]|].
  assert (n ≠ root t → ∃ p k, father x = Some p ∧ child t p k n) as Hf by (apply (wf_father ∅ t n x Hw Hx); set_solver). split_and!.
  - exists ks. split; [done|]. intros ks' Hks'. by eapply walk_unique.
  - split; [intros ->; by apply (wf_top ∅ t Hw)|]. intros Hno. destruct (decide (n = root t)) as [|Hne]; [done|]. destruct (Hf Hne) as (p & k & ? & _). congruence.
  - intros p Hp. destruct (decide (n = root t)) as [->|Hne]; [rewrite (wf_top ∅ t Hw x Hx) in Hp; done|]. destruct (Hf Hne) as (p' & k & Hp' & Hc). exists k. congruence.
  - apply (wf_vec ∅ t Hw). by eexists.
Qed.

(** ** Paths as the view of the tree *)

(** What is left of the path [ks] below [pre]. *)
Fixpoint strip (pre ks : list (list Z)) : option (list (list Z)) :=
  match pre, ks with
  | [], _ => Some ks
  | k :: pre, k' :: ks => if bool_decide (k = k') then strip pre ks else None
  | _ :: _, [] => None
  end.

Lemma strip_Some pre ks r : strip pre ks = Some r ↔ ks = pre ++ r.
Proof.
  revert ks. induction pre as [|k pre IH]; intros ks; cbn [strip app]; [split; [by intros [= ->]|by intros ->]|].
  destruct ks as [|k' ks]; [done|]. case_bool_decide as Hk; [rewrite IH|]; naive_solver.
Qed.

Lemma strip_app pre r : strip pre (pre ++ r) = Some r.
Proof. by apply strip_Some. Qed.

Lemma strip_None pre ks : strip pre ks = None ↔ ¬ pre `prefix_of` ks.
Proof.
  split.
  - intros H [r ->]. by rewrite strip_app in H.
  - intros H. destruct (strip pre ks) as [r|] eqn:E; [|done]. apply strip_Some in E. destruct H. by exists r.
Qed.

(** The path [ks] leads from the root to a node. *)
Definition view t (ks : list (list Z)) : option nat := resolve t (root t) ks.

Lemma view_snoc t ks k m : no_dots (ks ++ [k]) → view t (ks ++ [k]) = Some m ↔ ∃ p, view t ks = Some p ∧ child t p k m.
Proof. apply resolve_snoc. Qed.

(** Two trees that agree below [n]. *)
Lemma resolve_same t t' n ks :
  no_dots ks → (∀ z k m, rtc (edge t) n z → child t' z k m ↔ child t z k m) → resolve t' n ks = resolve t n ks.
Proof.
  intros Hd Hs. apply option_eq. revert Hd. induction ks as [|k ks IH] using rev_ind; intros Hd m; [done|].
  pose proof (proj1 (proj1 (no_dots_app _ _) Hd)) as Hd'. rewrite !resolve_snoc by done. split; intros (p & Hp & Hc); exists p.
  - apply IH in Hp; [|done]. split; [done|]. by apply Hs; [eapply resolve_reach|].
  - split; [by apply IH|]. by apply Hs; [eapply resolve_reach|].
Qed.

Lemma child_subseteq t t' n k m : nodes t' ⊆ nodes t → child t' n k m → child t n k m.
Proof. intros Hs (x & c & Hx & Hrest). exists x, c. split; [by eapply lookup_weaken|done]. Qed.

Lemma view_kept t t' ks : kept t t' → no_dots ks → view t' ks = view t ks.
Proof.
  intros (Hr & _ & Hs & Hk) Hd. unfold view. rewrite Hr. apply resolve_same; [done|]. intros z k m Hz. split; [by apply child_subseteq|].
  intros (x & c & Hx & Hrest). exists x, c. by rewrite Hk.
Qed.

Lemma view_unique D t ks1 ks2 m : wf D t → no_dots ks1 → no_dots ks2 → view t ks1 = Some m → view t ks2 = Some m → ks1 = ks2.
Proof. apply resolve_unique. Qed.

(** The child [k] of [p] is taken out. *)
Lemma view_detach D t p x c k t' pc ks :
  wf D t → nodes t !! p = Some x → with_children t p x (delete k c) t' → children x = Some c → no_dots (pc ++ [k]) → no_dots ks →
  view t pc = Some p → view t' ks = match strip (pc ++ [k]) ks with Some _ => None | None => view t ks end.
Proof.
  intros Hw Hx Hwc Hc Hdp Hdk Hp. pose proof Hwc as (_ & Er & _). pose proof (proj1 (proj1 (no_dots_app _ _) Hdp)) as Hdc.
  assert (∀ a j b, child t' a j b ↔ child t a j b ∧ ¬ (a = p ∧ j = k)) as Hch.
  { intros a j b. rewrite (with_children_child t p x _ t' a j b Hx Hwc). split.
    - intros [[Hne Hab]|[-> Hj]]; [split; [done|]; by intros [-> _]|]. apply lookup_delete_Some in Hj as [Hne Hj]. split; [by exists x, c|]. by intros [_ ->].
    - intros [Hab Hne]. destruct (decide (a = p)) as [->|]; [|by left]. right. split; [done|]. destruct Hab as (x' & c' & Hx' & Hc' & Hj). simplify_eq.
      apply lookup_delete_Some. split; [|done]. intros ->. by apply Hne. }
  assert (∀ m, view t' ks = Some m ↔ view t ks = Some m ∧ ¬ (pc ++ [k]) `prefix_of` ks) as Hv.
  { revert Hdk. induction ks as [|j ks IH] using rev_ind; intros Hdk m.
    - unfold view. cbn. rewrite Er. split; [intros ->; split; [done|]|by intros [? _]]. intros [r E%(f_equal length)]. rewrite !length_app in E. cbn in E. lia.
    - pose proof (proj1 (proj1 (no_dots_app _ _) Hdk)) as Hdk'. rewrite !view_snoc by done. split.
      + intros (q & [Hq Hpre]%IH & [Hc1 Hne]%Hch); [|done]. split; [by exists q|]. intros [r E]. destruct r as [|j' r _] using rev_ind.
        * rewrite app_nil_r in E. apply app_inj_tail in E as [-> ->]. apply Hne. split; [|done]. unfold view in *. congruence.
        * rewrite app_assoc in E. apply app_inj_tail in E as [-> _]. apply Hpre. by exists r.
      + intros [(q & Hq & Hc1) Hpre]. exists q. split; [apply IH; [done|]|].
        * split; [done|]. intros [r ->]. apply Hpre. exists (r ++ [j]). by rewrite <-!app_assoc.
        * apply Hch. split; [done|]. intros [-> ->]. apply Hpre. exists []. by rewrite (view_unique D t ks pc p Hw Hdk' Hdc Hq Hp), app_nil_r. }
  apply option_eq. intros m. rewrite Hv. destruct (strip (pc ++ [k]) ks) as [r|] eqn:E.
  - apply strip_Some in E. split; [|done]. intros [_ Hno]. destruct Hno. by exists r.
  - apply strip_None in E. naive_solver.
Qed.

(** A node is below one of the nodes without owner only. *)
Lemma tops_disjoint D t o1 o2 z :
  wf D t → (o1 = root t ∨ o1 ∈ D) → (o2 = root t ∨ o2 ∈ D) → rtc (edge t) o1 z → rtc (edge t) o2 z → o1 = o2.
Proof.
  intros Hw H1 H2. assert (∀ o a, (o = root t ∨ o ∈ D) → ¬ edge t a o) as Htop.
  { intros o a Ho [k Hk]. destruct (wf_child D t Hw a k o Hk) as (? & ? & _). by destruct Ho. }
  revert z. apply (rtc_ind_r (fun z => rtc (edge t) o2 z → o1 = o2)).
  - intros [->|(a & _ & Ha)]%rtc_inv_r; [done|]. by destruct (Htop o1 a H1).
  - intros y z _ Hyz IH [->|(a & Ha & Haz)]%rtc_inv_r; [by destruct (Htop z y H2)|]. apply IH. destruct Hyz as [k1 Hk1], Haz as [k2 Hk2].
    destruct (wf_child D t Hw y k1 z Hk1) as (_ & _ & w & Hw1 & Hf1), (wf_child D t Hw a k2 z Hk2) as (_ & _ & w' & Hw2 & Hf2). by assert (y = a) as -> by congruence.
Qed.

Lemma prefix_snoc (pre l : list (list Z)) k : pre `prefix_of` l ++ [k] ↔ pre = l ++ [k] ∨ pre `prefix_of` l.
Proof.
  split.
  - intros [r E]. destruct r as [|j r _] using rev_ind; [left; by rewrite app_nil_r in E|]. right. rewrite app_assoc in E. apply app_inj_tail in E as [-> _]. by exists r.
  - intros [->|[r ->]]; [done|]. exists (r ++ [k]). by rewrite <-app_assoc.
Qed.

Lemma not_prefix_longer (l : list (list Z)) k : ¬ (l ++ [k]) `prefix_of` l.
Proof. intros [r E%(f_equal length)]. rewrite !length_app in E. cbn in E. lia. Qed.

Lemma attach_child t p x c k v t' a j b :
  nodes t !! p = Some x → with_children t p x (<[k := v]> c) t' → children x = Some c →
  child t' a j b ↔ (child t a j b ∧ ¬ (a = p ∧ j = k)) ∨ (a = p ∧ j = k ∧ b = v).
Proof.
  intros Hx Hwc Hc. rewrite (with_children_child t p x _ t' a j b Hx Hwc), lookup_insert_Some.
  assert (child t p j b ↔ c !! j = Some b) as Hp by (unfold child; naive_solver). destruct (decide (a = p)) as [->|Hne]; [rewrite Hp|]; naive_solver.
Qed.

(** The loose node [v] is put in as the child [k] of [p]. *)
Lemma view_attach D t p x c k v t' pc ks :
  wf D t → v ∈ D → nodes t !! p = Some x → with_children t p x (<[k := v]> c) t' → children x = Some c → no_dots (pc ++ [k]) → no_dots ks →
  view t pc = Some p → view t' ks = match strip (pc ++ [k]) ks with Some r => resolve t v r | None => view t ks end.
Proof.
  intros Hw Hv Hx Hwc Hc Hdp Hdk Hp. pose proof Hwc as (_ & Er & _). pose proof (proj1 (proj1 (no_dots_app _ _) Hdp)) as Hdc.
  pose proof (fun a j b => attach_child t p x c k v t' a j b Hx Hwc Hc) as Hch.
  assert (∀ r q, no_dots r → resolve t v r = Some q → q ≠ p) as Hqp.
  { intros r q Hr Hq ->. apply resolve_reach in Hq; [|done]. apply resolve_reach in Hp; [|done].
    assert (v = root t) as -> by (eapply (tops_disjoint D t v (root t) p); auto). by destruct (wf_root_in D t Hw). }
  assert (∀ m, view t' ks = Some m ↔ (∃ r, ks = (pc ++ [k]) ++ r ∧ resolve t v r = Some m) ∨ (view t ks = Some m ∧ ¬ (pc ++ [k]) `prefix_of` ks)) as Hvw.
  { revert Hdk. induction ks as [|j ks IH] using rev_ind; intros Hdk m.
    - unfold view. cbn. rewrite Er. split; [intros ->; right; split; [done|]|intros [(r & E & _)|[? _]]; [|done]].
      + intros [r E%(f_equal length)]. rewrite !length_app in E. cbn in E. lia.
      + apply (f_equal length) in E. rewrite !length_app in E. cbn in E. lia.
    - pose proof (proj1 (proj1 (no_dots_app _ _) Hdk)) as Hdk'. rewrite !view_snoc by done. split.
      + intros (q & [(r & -> & Hr)|[Hq Hpre]]%IH & Hc1); [| |done].
        * assert (no_dots (r ++ [j])) as Hdr by (rewrite <-app_assoc in Hdk; by apply no_dots_app in Hdk as []). left. exists (r ++ [j]). split; [by rewrite <-!app_assoc|].
          apply resolve_snoc; [done|]. exists q. split; [done|]. apply Hch in Hc1 as [[? _]|[-> _]]; [done|]. by destruct (Hqp r p (proj1 (proj1 (no_dots_app _ _) Hdr)) Hr).
        * apply Hch in Hc1 as [[Hc1 Hne]|(-> & -> & ->)].
          { right. split; [by exists q|]. intros [E|?]%prefix_snoc; [|done]. apply app_inj_tail in E as [<- <-]. apply Hne. split; [|done]. unfold view in *. congruence. }
          left. exists []. rewrite app_nil_r. split; [|done]. f_equal. by eapply view_unique.
      + intros [(r & E & Hr)|[(q & Hq & Hc1) Hpre]].
        * destruct r as [|j' r _] using rev_ind.
          { rewrite app_nil_r in E. apply app_inj_tail in E as [-> ->]. injection Hr as <-. exists p. split; [|apply Hch; by right].
            apply IH; [done|]. right. split; [done|]. apply not_prefix_longer. }
          rewrite app_assoc in E. apply app_inj_tail in E as [-> ->]. assert (no_dots (r ++ [j'])) as Hdr by (rewrite <-app_assoc in Hdk; by apply no_dots_app in Hdk as []).
          apply resolve_snoc in Hr as (q & Hq & Hc1); [|done]. exists q. split; [apply IH; [done|]; left; by exists r|]. apply Hch. left. split; [done|].
          intros [-> _]. by destruct (Hqp r p (proj1 (proj1 (no_dots_app _ _) Hdr)) Hq).
        * exists q. rewrite prefix_snoc in Hpre. split; [apply IH; [done|]; right; split; [done|tauto]|]. apply Hch. left. split; [done|].
          intros [-> ->]. apply Hpre. left. f_equal. by eapply view_unique. }
  apply option_eq. intros m. rewrite Hvw. destruct (strip (pc ++ [k]) ks) as [r|] eqn:E.
  - apply strip_Some in E as ->. split; [intros [(r' & E & Hr)|[_ Hno]]|intros Hr; left; by exists r].
    + apply app_inv_head in E as ->. done.
    + destruct Hno. by exists r.
  - apply strip_None in E. split; [intros [(r' & -> & _)|[? _]]; [|done]|intros ?; by right]. destruct E. by exists r'.
Qed.

(** ** Paths that are read already *)

Lemma try_to_open_loaded t n k x c :
  nodes t !! n = Some x → children x = Some c →
  try_to_open_subfile n k t = Ok (match c !! k with Some m => Okay m | None => Err ENOENT end, t).
Proof.
  intros Hx Hc. unfold try_to_open_subfile, result_bind, cache_all_subfile, get_node, mbind, st_bind, get_st, unwrap. rewrite Hx. cbn. rewrite Hc. cbn.
  rewrite Hx. cbn. rewrite Hc. done.
Qed.

Lemma cd_comp_loaded t n ks m : resolve t n ks = Some m → cd_comp n ks t = Ok (Okay m, t).
Proof.
  revert n. induction ks as [|k ks IH]; intros n; cbn [resolve cd_comp]; [by intros [= <-]|]. intros (p & Hp & Hr)%bind_Some.
  unfold step_to in Hp. apply bind_Some in Hp as (x & Hx & Hp). case_bool_decide as Hk.
  - injection Hp as Hp. unfold get_node, upgrade, mbind, st_bind, get_st, unwrap, gets. rewrite Hx. cbn.
    assert (default n (match father x with Some f => if nodes t !! f is Some _ then Some f else None | None => None end) = p) as ->; [|by apply IH].
    subst p. destruct (father x) as [f|]; [|done]. by destruct (nodes t !! f).
  - apply bind_Some in Hp as (c & Hc & Hm). unfold result_bind, mbind, st_bind. rewrite (try_to_open_loaded t n k x c Hx Hc), Hm. by apply IH.
Qed.

Lemma cd_comp_resolve_app t n ks1 ks2 m : resolve t n ks1 = Some m → cd_comp n (ks1 ++ ks2) t = cd_comp m ks2 t.
Proof.
  revert n. induction ks1 as [|k ks1 IH]; intros n; cbn [resolve cd_comp app]; [by intros [= <-]|]. intros (p & Hp & Hr)%bind_Some.
  pose proof (cd_comp_loaded t n [k] p) as H1. cbn [resolve cd_comp] in H1. rewrite Hp in H1. specialize (H1 eq_refl).
  rewrite <-(IH p Hr). destruct (bool_decide (k = DOTDOT)); unfold result_bind, mbind, st_bind in *.
  - destruct (get_node n t) as [[x t1]| |]; [|done..]. destruct (upgrade (father x) t1) as [[o t2]| |]; [|done..]. unfold mret, st_ret in H1. by simplify_eq.
  - destruct (try_to_open_subfile n k t) as [[[c|e] t1]| |]; unfold mret, st_ret in H1; by simplify_eq.
Qed.

Lemma cd_path_base t self path : cd_path self path t = cd_comp (base t self path) (parse_dir_path path) t.
Proof. done. Qed.

Lemma cd_path_loaded t self path m : resolve t (base t self path) (parse_dir_path path) = Some m → cd_path self path t = Ok (Okay m, t).
Proof. intros H. rewrite cd_path_base. by apply cd_comp_loaded. Qed.

(** A name that is not among the children that were read. *)
Lemma cd_path_missing t self path pc k n x c :
  parse_dir_path path = pc ++ [k] → k ≠ DOTDOT → resolve t (base t self path) pc = Some n → nodes t !! n = Some x → children x = Some c → c !! k = None →
  cd_path self path t = Ok (Err ENOENT, t).
Proof.
  intros Hp Hk Hn Hx Hc Hno. rewrite cd_path_base, Hp, (cd_comp_resolve_app t _ pc [k] n Hn). cbn [cd_comp].
  rewrite bool_decide_false by done. unfold result_bind, mbind, st_bind. by rewrite (try_to_open_loaded t n k x c Hx Hc), Hno.
Qed.

(** ** Making a directory *)

Lemma view_added t n k v t' pc ks :
  wf ∅ t → added t n k v t' → no_dots (pc ++ [k]) → no_dots ks → view t pc = Some n →
  view t' ks = if decide (ks = pc ++ [k]) then Some v else view t ks.
Proof.
  intros Hw (Hv & tm & x & c & fs & f & Hx & Hc & Hno & Hwm & Er & En & Hwc) Hdp Hdk Hn.
  assert (∀ z k m, child tm z k m ↔ child t z k m) as Hch.
  { intros z j m. unfold child. rewrite En. destruct (decide (z = v)) as [->|]; [rewrite lookup_insert_eq, Hv; naive_solver|by rewrite lookup_insert_ne]. }
  assert (∀ ks, no_dots ks → view tm ks = view t ks) as Hview by (intros l Hl; unfold view; rewrite Er; apply resolve_same; [done|]; intros; apply Hch).
  assert (nodes tm !! n = Some x) as Hxm by (rewrite En, lookup_insert_ne; [done|congruence]).
  pose proof (proj1 (proj1 (no_dots_app _ _) Hdp)) as Hdc.
  rewrite (view_attach _ tm n x c k v t' pc ks Hwm) by (done || set_solver || by rewrite Hview).
  destruct (strip (pc ++ [k]) ks) as [r|] eqn:E.
  - apply strip_Some in E as ->. destruct r as [|j r]; [rewrite app_nil_r; by rewrite decide_True|].
    rewrite decide_False by (intros E%(f_equal length); rewrite !length_app in E; cbn in E; lia).
    assert (view t (pc ++ [k]) = None) as Hnone.
    { destruct (view t (pc ++ [k])) as [m|] eqn:E; [|done]. apply view_snoc in E as (p & Hp & (y & c' & Hy & Hc' & Hm)); [|done]. unfold view in *. simplify_eq. }
    unfold view. rewrite resolve_app. unfold view in Hnone. rewrite Hnone. cbn.
    assert (j ≠ DOTDOT) by (apply no_dots_app in Hdk as [_ [? _]%no_dots_cons]; done).
    unfold step_to. rewrite En, lookup_insert_eq. cbn. by rewrite bool_decide_false.
  - apply strip_None in E. rewrite decide_False by (intros ->; by apply E). by rewrite Hview.
Qed.

Lemma view_app t sc n ks : view t sc = Some n → view t (sc ++ ks) = resolve t n ks.
Proof. intros H. unfold view in *. rewrite resolve_app, H. done. Qed.

Lemma base_root t t' self path : root t' = root t → base t' self path = base t self path.
Proof. intros E. unfold base. by rewrite E. Qed.

Lemma view_ext t t' ks m : wf ∅ t → wf ∅ t' → ext t t' → view t ks = Some m → view t' ks = Some m.
Proof. intros Hw Hw' He. unfold view. rewrite (proj1 He). by apply resolve_ext. Qed.

Lemma mkdir_again t self path pc k n m : parse_dir_path path = pc ++ [k] → k ≠ DOTDOT → resolve t (base t self path) pc = Some n → child t n k m →
  mkdir self path t = Ok (Err EEXIST, t).
Proof.
  intros Hp Hk Hn (x & c & Hx & Hc & Hm).
  assert (mkdir self path t = (inode ←? cd_comp (base t self path) (removelast (parse_dir_path path));
    match last (parse_dir_path path) with
    | None => mret (Err EEXIST)
    | Some last_comp => r ← try_to_open_subfile inode last_comp;
        match r with
        | Okay _ => mret (Err EEXIST)
        | Err errno => if negb (errno =? ENOENT) then mret (Err errno) else _ ←? create_child inode last_comp Directory; mret (Okay tt)
        end
    end) t) as -> by done.
  rewrite Hp, removelast_last, last_snoc. unfold result_bind, mbind, st_bind. rewrite (cd_comp_loaded t _ pc n Hn), (try_to_open_loaded t n k x c Hx Hc), Hm. done.
Qed.

(** C16: when [mkdir] succeeds, for a path whose normal form does not begin with
    ".." and a start node that has a path from the root, the path was free in the tree with the
    directories read on the way ([t1]), and the new tree has exactly one path
    more, the path of the new directory; a lookup of the path then finds it without
    reading anything, and making it again gives [EEXIST]. *)
Theorem mkdir_makes_path t t' self path sc :
  wf ∅ t → no_dots sc → view t sc = Some (base t self path) → no_dots (parse_dir_path path) → mkdir self path t = Ok (Okay tt, t') →
  ∃ t1 v, wf ∅ t1 ∧ ext t t1 ∧ wf ∅ t' ∧ view t1 (sc ++ parse_dir_path path) = None ∧
    (∀ ks, no_dots ks → view t' ks = if decide (ks = sc ++ parse_dir_path path) then Some v else view t1 ks) ∧
    cd_path self path t' = Ok (Okay v, t') ∧ mkdir self path t' = Ok (Err EEXIST, t').
Proof.
  intros Hw Hds Hsc Hdp E. destruct (wlp_mkdir_made self path t Hw _ _ E) as (t1 & v & Hw1 & He & Hw' & pc & k & n & Hp & Hn & Ha). exists t1, v.
  pose proof (view_ext t t1 sc _ Hw Hw1 He Hsc) as Hsc1. rewrite Hp in *.
  assert (view t1 (sc ++ pc) = Some n) as Hpn by (by rewrite (view_app t1 sc _ pc Hsc1)).
  assert (no_dots ((sc ++ pc) ++ [k])) as Hd by (rewrite <-app_assoc; by apply no_dots_app). rewrite !app_assoc.
  pose proof (fun ks => view_added t1 n k v t' (sc ++ pc) ks Hw1 Ha Hd) as Hview. pose proof (proj1 (no_dots_app _ _) Hd) as [Hdc [Hk _]%no_dots_cons].
  assert (root t' = root t) as Er by (by rewrite (proj1 (added_live _ _ _ _ _ Ha)), (proj1 He)).
  assert (∀ l, l ≠ [] → sc ≠ sc ++ l) as Hne. { intros l Hl El%(f_equal length). rewrite length_app in El. destruct l; [done|]. cbn in El. lia. }
  assert (view t' sc = Some (base t self path)) as Hsc'. { rewrite Hview, decide_False; [done| |done|done]. rewrite <-app_assoc. apply Hne. by destruct pc. }
  assert (view t' (sc ++ pc) = Some n) as Hpn'. { rewrite Hview, decide_False; [done| |done|done]. intros El%(f_equal length). rewrite !length_app in El. cbn in El. lia. }
  assert (view t' ((sc ++ pc) ++ [k]) = Some v) as Hv by (by rewrite Hview, decide_True).
  split_and!; try done.
  - destruct (view t1 ((sc ++ pc) ++ [k])) as [m|] eqn:Em; [|done]. apply view_snoc in Em as (q & Hq & (y & c' & Hy & Hc' & Hm)); [|done].
    destruct Ha as (_ & _ & x & c & _ & _ & Hx & Hc & Hno & _). simplify_eq.
  - intros ks Hks. by apply Hview.
  - apply cd_path_loaded. rewrite (base_root t t'), Hp by done. by rewrite <-(view_app t' sc _ _ Hsc'), app_assoc.
  - eapply (mkdir_again t' self path pc k n v); [done|done| |].
    + rewrite (base_root t t') by done. by rewrite <-(view_app t' sc _ _ Hsc').
    + apply view_snoc in Hv as (q & Hq & Hc); [|done]. by simplify_eq.
Qed.

(** ** Removing *)

Lemma same_view t t' ks : same_tree t t' → no_dots ks → view t' ks = view t ks.
Proof. intros (En & Er & _) Hd. unfold view. rewrite Er. apply resolve_same; [done|]. intros z k m _. unfold child. by rewrite En. Qed.

(** The child [k] of [p] is taken out, and nodes without owner go away. *)
Definition taken (pc : list (list Z)) (k : list Z) (p : nat) t t' : Prop :=
  root t' = root t ∧ (∃ x c, nodes t' !! p = Some x ∧ children x = Some c ∧ c !! k = None) ∧
  ∀ ks, no_dots ks → view t' ks = match strip (pc ++ [k]) ks with Some _ => None | None => view t ks end.

Lemma taken_intro D t p x c k t2 t3 pc :
  wf D t → nodes t !! p = Some x → children x = Some c → with_children t p x (delete k c) t2 → kept t2 t3 → no_dots (pc ++ [k]) → view t pc = Some p →
  taken pc k p t t3.
Proof.
  intros Hw Hx Hc Hwc Hk Hd Hp. pose proof Hwc as (En & Er & _).
  assert (∀ ks, no_dots ks → view t2 ks = match strip (pc ++ [k]) ks with Some _ => None | None => view t ks end) as Hview by (intros; by eapply view_detach).
  assert (view t2 pc = Some p) as Hp2.
  { rewrite Hview by (by apply no_dots_app in Hd as []). destruct (strip (pc ++ [k]) pc) as [r|] eqn:E; [|done]. apply strip_Some in E.
    apply (f_equal length) in E. rewrite !length_app in E. cbn in E. lia. }
  split_and!; [destruct Hk as (-> & _); done| |].
  - destruct Hk as (_ & _ & _ & Hk). rewrite Hk by (eapply resolve_reach; [|exact Hp2]; by apply no_dots_app in Hd as []).
    rewrite En, lookup_insert_eq. eexists _, (delete k c). split_and!; [done|done|apply lookup_delete_eq].
  - intros ks Hks. rewrite (view_kept t2 t3) by done. by apply Hview.
Qed.

Lemma wlp_delete_taken self path dd sc t :
  wf ∅ t → no_dots sc → view t sc = Some (base t self path) → no_dots (parse_dir_path path) →
  wlp (tree_delete self path dd) (fun r t' => r = Okay tt → wf ∅ t' ∧
    ∃ t1 pc k p m, wf ∅ t1 ∧ ext t t1 ∧ parse_dir_path path = pc ++ [k] ∧ view t1 (sc ++ pc) = Some p ∧ child t1 p k m ∧ taken (sc ++ pc) k p t1 t') t.
Proof.
  intros Hw Hds Hsc Hdp. cut (wlp (tree_delete self path dd) (fun r t' => r = Okay tt → ∃ t1 pc k p m, wf ∅ t1 ∧ ext t t1 ∧
    parse_dir_path path = pc ++ [k] ∧ view t1 (sc ++ pc) = Some p ∧ child t1 p k m ∧ taken (sc ++ pc) k p t1 t') t).
  { intros Hcut. eapply wlp_mono; [apply wlp_and; [by apply wlp_tree_delete|exact Hcut]|]. intros r t' [[Hw' _] H] Hr. by split; [|apply H]. }
  unfold tree_delete, start_node. destruct (bool_decide _); [by tree_step|]. repeat tree_step. fold (base t self path). rename a into k, H into Hl.
  pose proof (removelast_snoc _ _ Hl) as Hp. set (pc := removelast (parse_dir_path path)) in *. rewrite Hp in Hdp |- *.
  assert (no_dots ((sc ++ pc) ++ [k])) as Hd by (rewrite <-app_assoc; by apply no_dots_app).
  eapply wlp_mono; [by apply wlp_cd_comp|]. intros [m|e] t1 (Hw1 & He1 & _ & Hr1); [|done]. specialize (Hr1 m eq_refl).
  pose proof (view_ext t t1 sc _ Hw Hw1 He1 Hsc) as Hsc1. rewrite <-(view_app t1 sc _ _ Hsc1), app_assoc in Hr1. apply view_snoc in Hr1 as (p & Hpp & Hc); [|done].
  destruct (wf_child ∅ t1 Hw1 p k m Hc) as (_ & _ & y & Hy & Hf). unfold get_node. repeat tree_step. rename a into x, H into Hx. rewrite Hx in Hy. injection Hy as <-.
  destruct (0 <? spe_usage x); [by tree_step|]. tree_step. eapply wlp_mono; [apply wlp_is_dir|]. intros d t2 Hs2.
  destruct (negb dd && d); [by tree_step|]. destruct (dd && negb d); [by tree_step|]. unfold upgrade. do 2 tree_step. rewrite Hf.
  destruct Hc as (z & c & Hz & Hc & Hk). rewrite (proj1 Hs2), Hz. tree_step.
  eapply wlp_mono; [apply wlp_on_fs_same|]. intros [[]|e] t3 Hs3; [|done]. assert (same_tree t1 t3) as Hs by (eapply same_trans; [exact Hs2|exact Hs3]).
  pose proof (same_wf ∅ t1 t3 Hs Hw1) as Hw3. tree_step. eapply wlp_mono; [by apply (wlp_remove_child ∅)|].
  intros o t4 (Hw4 & _ & z' & c' & Hz' & Hc' & -> & Hwc). tree_step.
  eapply wlp_mono; [by apply wlp_release_opt|]. intros ? t5 (D5 & Hw5 & _ & Hk5 & _). tree_step.
  eapply wlp_mono; [by apply wlp_release|]. intros ? t6 (D6 & _ & _ & Hk6 & _). tree_step. intros _. exists t1, pc, k, p, m.
  assert (taken (sc ++ pc) k p t3 t6) as (Er & Hno & Hview).
  { eapply (taken_intro ∅ t3 p z' c'); try done; [by eapply kept_trans|]. rewrite (same_view t1 t3); [done|done|by apply no_dots_app in Hd as []]. }
  split_and!; try done; [by exists z, c|]. split; [by rewrite Er, (proj1 (proj2 Hs))|]. split; [done|]. intros ks Hks. rewrite Hview by done. by rewrite (same_view t1 t3).
Qed.

(** C15: when [delete] succeeds, for a path whose normal form does not begin with
    ".." and a start node that has a path from the root, exactly the path and what was below it are gone
    from the tree (as it was with the directories read on the way), and a lookup
    of the path then gives [ENOENT] without reading anything. *)
Theorem delete_removes_path t t' self path dd sc :
  wf ∅ t → no_dots sc → view t sc = Some (base t self path) → no_dots (parse_dir_path path) → tree_delete self path dd t = Ok (Okay tt, t') →
  ∃ t1 m, wf ∅ t1 ∧ ext t t1 ∧ wf ∅ t' ∧ view t1 (sc ++ parse_dir_path path) = Some m ∧
    (∀ ks, no_dots ks → view t' ks = match strip (sc ++ parse_dir_path path) ks with Some _ => None | None => view t1 ks end) ∧
    cd_path self path t' = Ok (Err ENOENT, t').
Proof.
  intros Hw Hds Hsc Hdp E. destruct (wlp_delete_taken self path dd sc t Hw Hds Hsc Hdp _ _ E eq_refl) as (Hw' & t1 & pc & k & p & m & Hw1 & He & Hp & Hpp & Hc & Er & (x & c & Hx & Hcx & Hno) & Hview).
  exists t1, m. rewrite Hp in *. rewrite !app_assoc. assert (no_dots ((sc ++ pc) ++ [k])) as Hd by (rewrite <-app_assoc; by apply no_dots_app).
  pose proof (proj1 (no_dots_app _ _) Hd) as [Hdc [Hk _]%no_dots_cons].
  assert (∀ l, (length l < length ((sc ++ pc) ++ [k]))%nat → strip ((sc ++ pc) ++ [k]) l = None) as Hshort.
  { intros l Hl. destruct (strip _ l) as [r|] eqn:Es; [|done]. apply strip_Some, (f_equal length) in Es. rewrite length_app in Es. lia. }
  split_and!; try done; [apply view_snoc; [done|]; by exists p|]. eapply (cd_path_missing t' self path pc k p x c); try done.
  assert (base t' self path = base t self path) as -> by (apply base_root; by rewrite Er, (proj1 He)).
  assert (∀ l, no_dots l → (length l < length ((sc ++ pc) ++ [k]))%nat → view t' l = view t1 l) as Hv' by (intros l Hl Hlen; by rewrite Hview, Hshort).
  assert (view t' sc = Some (base t self path)) as Hsc'. { rewrite Hv'; [by apply (view_ext t t1)|done|]. rewrite !length_app. cbn. lia. }
  rewrite <-(view_app t' sc _ pc Hsc'), Hv'; [done|done|]. rewrite !length_app. cbn. lia.
Qed.

(** ** Renaming *)

Lemma detach_child t p x c k t' a j b :
  nodes t !! p = Some x → with_children t p x (delete k c) t' → children x = Some c → child t' a j b ↔ child t a j b ∧ ¬ (a = p ∧ j = k).
Proof.
  intros Hx Hwc Hc. rewrite (with_children_child t p x _ t' a j b Hx Hwc), lookup_delete_Some.
  assert (child t p j b ↔ c !! j = Some b) as Hp by (unfold child; naive_solver). destruct (decide (a = p)) as [->|Hne]; [rewrite Hp|]; naive_solver.
Qed.

Lemma resolve_walk t n ks m : no_dots ks → resolve t n ks = Some m → walk t n ks m.
Proof.
  intros Hd. revert m. induction ks as [|k ks IH] using rev_ind; intros m; [by intros [= <-]|]. intros (p & Hp & Hc)%resolve_snoc; [|done].
  apply walk_snoc. exists p. split; [|done]. apply IH; [|done]. by apply no_dots_app in Hd as [].
Qed.

Lemma walk_path_app t n ks1 ks2 p m : walk t n ks1 p → walk t p ks2 m → walk t n (ks1 ++ ks2) m.
Proof. revert n. induction ks1 as [|k ks1 IH]; intros n; cbn [walk app]; [by intros ->|]. intros (q & Hq & Hp) Hm. exists q. split; [done|]. by apply IH. Qed.

Lemma wlp_rename_over_free oi np nk t :
  wlp (rename_over oi np nk) (fun r t' => r = Okay tt → ∀ m, ¬ child t' np nk m) t.
Proof.
  unfold rename_over, get_node. repeat tree_step. eapply wlp_mono; [apply wlp_try_to_open_err|]. intros [ni|e] t4 Herr.
  - repeat tree_step. eapply wlp_mono; [apply wlp_is_dir|]. intros nd t5 _. tree_step. eapply wlp_mono; [apply wlp_is_dir|]. intros od t6 _. do 3 (case_match; [by tree_step|]). repeat tree_step.
    eapply wlp_mono; [apply wlp_on_fs_same|]. intros [[]|e] t7 _; [by intros ? ? ?|done].
  - tree_step. intros _ m (x & c & Hx & Hc & Hm). by rewrite (Herr e x c eq_refl Hx Hc) in Hm.
Qed.

Lemma no_cycle D t p k n : wf D t → child t p k n → ¬ rtc (edge t) n p.
Proof.
  intros Hw Hc [ks Hks]%walk_exists. destruct Hc as (x & c & Hx & Hrest) eqn:E. clear E.
  destruct (wf_reach D t Hw p (mk_is_Some _ _ Hx)) as (o & Ho & [l Hl]%walk_exists).
  assert (walk t o ((l ++ [k]) ++ ks) p) as Hlong by (eapply walk_path_app; [apply walk_snoc; exists p; split; [exact Hl|by exists x, c]|exact Hks]).
  pose proof (walk_unique_top D t o _ _ p Hw Ho Hl Hlong) as E%(f_equal length). rewrite !length_app in E. cbn in E. lia.
Qed.

Lemma walk_resolve t n ks m : no_dots ks → walk t n ks m → resolve t n ks = Some m.
Proof.
  intros Hd. revert m. induction ks as [|k ks IH] using rev_ind; intros m; [by intros ->|]. intros (p & Hp & Hc)%walk_snoc. apply resolve_snoc; [done|].
  exists p. split; [|done]. apply IH; [|done]. by apply no_dots_app in Hd as [].
Qed.

(** The old name is taken out, and the new one is free. *)
Record moved (oi : nat) nc nk (np : nat) old t4 t6 : Prop := {
  mv_view ks : no_dots ks → view t6 ks = match strip old ks with Some _ => None | None => view t4 ks end;
  mv_below r : no_dots r → resolve t6 oi r = resolve t4 oi r;
  mv_parent : view t6 nc = Some np;
  mv_free m : ¬ child t6 np nk m;
}.

Lemma detach_moved oi nc nk np oc ok op x c t4 t6 :
  wf ∅ t4 → no_dots (oc ++ [ok]) → no_dots nc → view t4 oc = Some op → child t4 op ok oi → view t4 nc = Some np → (∀ m, ¬ child t4 np nk m) →
  ¬ (oc ++ [ok]) `prefix_of` nc → nodes t4 !! op = Some x → children x = Some c → with_children t4 op x (delete ok c) t6 →
  c !! ok = Some oi ∧ moved oi nc nk np (oc ++ [ok]) t4 t6.
Proof.
  intros Hw4 Hdo Hdn Hop Hoi Hnp Hfree Hpre Hx Hc Hwc. pose proof (proj1 (proj1 (no_dots_app _ _) Hdo)) as Hdoc.
  pose proof (fun a j b => detach_child t4 op x c ok t6 a j b Hx Hwc Hc) as Hch6.
  assert (∀ ks, no_dots ks → view t6 ks = match strip (oc ++ [ok]) ks with Some _ => None | None => view t4 ks end) as Hv6 by (intros; by eapply view_detach).
  split; [destruct Hoi as (x' & c' & Hx' & Hc' & Hk); by simplify_eq|]. split; [done| | |].
  - intros r Hr. apply resolve_same; [done|]. intros z k m Hz. rewrite Hch6. split; [by intros [? _]|]. intros Hk. split; [done|]. intros [-> _]. by apply (no_cycle ∅ t4 op ok oi).
  - rewrite Hv6 by done. destruct (strip (oc ++ [ok]) nc) as [r|] eqn:E; [|done]. destruct Hpre. exists r. by apply strip_Some.
  - intros m [Hm _]%Hch6. by apply Hfree in Hm.
Qed.

(** The paths after a renaming of [old] to [new]. *)
Definition renamed old new t4 t' : Prop :=
  ∀ ks, no_dots ks → view t' ks =
    match strip new ks with
    | Some r => view t4 (old ++ r)
    | None => match strip old ks with Some _ => None | None => view t4 ks end
    end.

Lemma wlp_releases_kept oi np op D t :
  wf D t → wlp (release [np; op] oi;; release [op] np;; release [] op) (fun _ t' => kept t t') t.
Proof.
  intros Hw. tree_step. eapply wlp_mono; [by apply wlp_release|]. intros ? t1 (D1 & Hw1 & _ & Hk1 & _). tree_step.
  eapply wlp_mono; [by apply wlp_release|]. intros ? t2 (D2 & Hw2 & _ & Hk2 & _). eapply wlp_mono; [by apply wlp_release|]. intros ? t3 (D3 & _ & _ & Hk3 & _).
  eapply kept_trans; [exact Hk1|]. by eapply kept_trans.
Qed.

Lemma wlp_rename_insert oi np nc nk old D t4 t :
  wf D t → oi ∈ D → moved oi nc nk np old t4 t → no_dots old → no_dots (nc ++ [nk]) → view t4 old = Some oi →
  wlp (set_father oi (Some np);; insert_child np nk oi) (fun _ t' => (∃ D', wf D' t') ∧ renamed old (nc ++ [nk]) t4 t') t.
Proof.
  intros Hw HD [Hv Hb Hp Hfree] Hdo Hd Hold. pose proof (proj1 (proj1 (no_dots_app _ _) Hd)) as Hdc. tree_step.
  eapply wlp_mono; [by apply (wlp_set_father D)|]. intros [] t1 (Hw1 & Er1 & Hc1 & y & Hy & Hf).
  assert (∀ n ks, no_dots ks → resolve t1 n ks = resolve t n ks) as Hres by (intros; apply resolve_same; [done|]; intros; apply Hc1).
  assert (∀ ks, no_dots ks → view t1 ks = view t ks) as Hv1 by (intros ks Hks; unfold view; rewrite Er1; by apply Hres).
  assert (view t1 nc = Some np) as Hp1 by (by rewrite Hv1). assert (rtc (edge t1) (root t1) np) as Hr1 by (by eapply resolve_reach; [|exact Hp1]).
  unfold insert_child, get_node. repeat tree_step. rename a into x, a0 into c, H into Hx, H0 into Hc. assert (c !! nk = None) as Hno.
  { destruct (c !! nk) as [m|] eqn:E; [|done]. destruct (Hfree m). apply Hc1. by exists x, c. }
  eapply wlp_mono; [apply wlp_set_children|]. intros [] t2 (x' & Hx' & Hwc). rewrite Hx in Hx'. injection Hx' as <-. rewrite Hno. cbn [release_opt]. tree_step. split.
  - eexists. by apply (wf_attach D t1 np x c nk oi y t2).
  - intros ks Hks. rewrite (view_attach D t1 np x c nk oi t2 nc ks) by done. destruct (strip (nc ++ [nk]) ks) as [r|] eqn:E.
    + apply strip_Some in E as ->. apply no_dots_app in Hks as [_ Hdr]. rewrite Hres, Hb by done. by rewrite (view_app t4 old oi).
    + by rewrite Hv1, Hv.
Qed.

Lemma wlp_rename_finish_view oi np op ok nc nk old D t4 t :
  wf D t → oi ∈ D → moved oi nc nk np old t4 t → no_dots old → no_dots (nc ++ [nk]) → view t4 old = Some oi →
  wlp (r ← rename_files oi np ok;
       res ← (match r with
              | Err errno => release [oi; np; op] oi;; mret (Err errno)
              | Okay _ => set_father oi (Some np);; insert_child np nk oi;; mret (Okay tt)
              end);
       release [np; op] oi;; release [op] np;; release [] op;; mret res)
    (fun res t' => res = Okay tt → renamed old (nc ++ [nk]) t4 t') t.
Proof.
  intros Hw HD Hm Hdo Hd Hold. tree_step. eapply wlp_mono; [apply wlp_rename_files|]. intros r t1 Hs1. pose proof (same_wf _ t t1 Hs1 Hw) as Hw1.
  assert (moved oi nc nk np old t4 t1) as Hm1.
  { destruct Hm as [Hv Hb Hp Hf]. pose proof Hs1 as (En & Er & _). assert (∀ z j m, child t1 z j m ↔ child t z j m) as Hch by (intros; unfold child; by rewrite En).
    split; [intros ks Hks; rewrite (same_view t t1) by done; by apply Hv|intros l Hl; rewrite <-Hb by done; apply resolve_same; [done|]; intros; apply Hch| |].
    - rewrite (same_view t t1); [done|done|by apply no_dots_app in Hd as []].
    - intros m Hm%Hch. by apply Hf in Hm. }
  tree_step. destruct r as [[]|e]; [|tree_step; intros ? ? _; cbn beta; tree_step; do 3 (tree_step; intros ? ? _; cbn beta); by tree_step].
  intros res t2 E. revert res t2 E.
  assert (wlp (set_father oi (Some np);; insert_child np nk oi;; mret (Okay tt))
    (fun _ t' => (∃ D', wf D' t') ∧ renamed old (nc ++ [nk]) t4 t') t1) as Hins.
  { intros a t2 E. eapply (wlp_rename_insert oi np nc nk old D t4 t1 Hw1 HD Hm1 Hdo Hd Hold tt t2). unfold mbind, st_bind in *.
    destruct (set_father oi (Some np) t1) as [[? t3]| |]; [|done..]. destruct (insert_child np nk oi t3) as [[[] t5]| |]; [|done..]. by injection E as _ <-. }
  eapply wlp_mono; [exact Hins|]. intros res t2 [[D2 Hw2] Hren] b t3 E _.
  assert (kept t2 t3) as Hk.
  { eapply (wlp_releases_kept oi np op D2 t2 Hw2 tt t3). unfold mbind, st_bind in *. destruct (release [np; op] oi t2) as [[? t5]| |]; [|done..].
    destruct (release [op] np t5) as [[? t6]| |]; [|done..]. destruct (release [] op t6) as [[[] t7]| |]; [|done..]. by injection E as _ <-. }
  intros ks Hks. rewrite (view_kept t2 t3) by done. by apply Hren.
Qed.

Lemma wlp_rename_view old_path new_path t :
  wf ∅ t → no_dots (parse_dir_path old_path) → no_dots (parse_dir_path new_path) → parse_dir_path old_path ≠ parse_dir_path new_path →
  wlp (rename old_path new_path) (fun r t' => r = Okay tt → ∃ t1 m, wf ∅ t1 ∧ ext t t1 ∧ view t1 (parse_dir_path old_path) = Some m ∧
    view t1 (parse_dir_path new_path) = None ∧ renamed (parse_dir_path old_path) (parse_dir_path new_path) t1 t') t.
Proof.
  intros Hw Hdo Hdn Hne. unfold rename. tree_step. tree_step. tree_step. tree_step. rewrite bool_decide_false by done.
  destruct (comps_prefix _ _) eqn:Hpre; [by tree_step|]. tree_step. tree_step. rename a into ok, H1 into Hok. tree_step. tree_step. rename a into nk, H1 into Hnk.
  pose proof (removelast_snoc _ _ Hok) as Eo. pose proof (removelast_snoc _ _ Hnk) as Enw.
  set (oc := removelast (parse_dir_path old_path)) in *. set (nc := removelast (parse_dir_path new_path)) in *. rewrite Eo, Enw in *.
  assert (¬ (oc ++ [ok]) `prefix_of` nc) as Hnp'. { intros [l E]. revert Hpre. unfold comps_prefix. rewrite E, <-app_assoc, take_app_length. by rewrite bool_decide_true. }
  pose proof (proj1 (proj1 (no_dots_app _ _) Hdo)) as Hdoc. pose proof (proj1 (proj1 (no_dots_app _ _) Hdn)) as Hdnc. tree_step. tree_step. tree_step.
  eapply wlp_mono; [by apply wlp_cd_comp|]. intros [op|e] t1 (Hw1 & He1 & _ & Hr1); [|done]. specialize (Hr1 op eq_refl). rewrite <-(proj1 He1) in Hr1. tree_step.
  eapply wlp_mono; [by apply wlp_cd_comp|]. intros [np|e] t2 (Hw2 & He2 & _ & Hr2); [|done]. specialize (Hr2 np eq_refl). rewrite <-(proj1 He1), <-(proj1 He2) in Hr2. tree_step.
  case_match; [by intros ? ? ?|]. repeat tree_step.
  eapply wlp_mono; [by apply wlp_try_to_open|]. intros [oi|e] t3 (Hw3 & He3 & _ & Hoi); [|done]. specialize (Hoi oi eq_refl).
  assert (ext t1 t3) as He13 by (eapply ext_trans; [exact He2|exact He3]). pose proof (view_ext t1 t3 oc op Hw1 Hw3 He13 Hr1) as Hop. pose proof (view_ext t2 t3 nc np Hw2 Hw3 He3 Hr2) as Hnp.
  assert (view t3 (oc ++ [ok]) = Some oi) as Hold by (apply view_snoc; [done|]; by exists op).
  unfold get_node at 1 2. repeat tree_step. case_match; [by tree_step|]. case_match; [by tree_step|]. tree_step.
  eapply wlp_mono; [apply wlp_and; [by apply (wlp_rename_over oi np nk)|apply wlp_rename_over_free]|].
  intros [[]|e] t4 [[Hw4 He4] Hfree]; [|done]. specialize (He4 eq_refl). specialize (Hfree eq_refl). tree_step.
  eapply wlp_mono; [by apply (wlp_remove_child ∅)|]. intros o t6 (Hw6 & _ & x & c & Hx & Hc & -> & Hwc). tree_step. tree_step. rewrite H6 in Hw6.
  pose proof (view_ext t3 t4 _ _ Hw3 Hw4 He4 Hold) as Hold4. pose proof (view_ext t3 t4 _ _ Hw3 Hw4 He4 Hnp) as Hnp4.
  destruct (detach_moved oi nc nk np oc ok op x c t4 t6) as [Hco Hmv]; try done; [by apply (view_ext t3 t4)|by eapply ext_child|].
  assert (a1 = oi) as -> by congruence. eapply wlp_mono; [eapply (wlp_rename_finish_view oi np op ok nc nk (oc ++ [ok]) _ t4); [exact Hw6|unfold opt_set; set_solver|done..]|].
  intros r t' Hr ->. exists t4, oi. split_and!; [done| |done| |by apply Hr].
  - eapply ext_trans; [exact He1|]. eapply ext_trans; [exact He13|exact He4].
  - destruct (view t4 (nc ++ [nk])) as [m|] eqn:E; [|done]. apply view_snoc in E as (p & Hp & Hm); [|done]. rewrite Hnp4 in Hp. injection Hp as <-. by destruct (Hfree m).
Qed.

(** C14: [rename] in the tree of nodes, for paths whose normal forms have no ".."
    and differ.  When it succeeds, nothing was at the new path (a name that is
    taken gives an error or a call that does not return), what was at the old path
    and below it is at the new path, the old path is gone, and every other path
    leads where it led (in the tree with the directories read on the way).  The new
    path then is found without reading anything.  The name on the disk and in the
    node stays the old one: [rename_keeps_names]. *)
Theorem rename_moves_path t t' old_path new_path :
  wf ∅ t → no_dots (parse_dir_path old_path) → no_dots (parse_dir_path new_path) → parse_dir_path old_path ≠ parse_dir_path new_path →
  rename old_path new_path t = Ok (Okay tt, t') →
  ∃ t1 m, wf ∅ t1 ∧ ext t t1 ∧ wf ∅ t' ∧ view t1 (parse_dir_path old_path) = Some m ∧
    view t1 (parse_dir_path new_path) = None ∧ renamed (parse_dir_path old_path) (parse_dir_path new_path) t1 t' ∧ cd_path (root t') new_path t' = Ok (Okay m, t').
Proof.
  intros Hw Hdo Hdn Hne E. destruct (wlp_rename_view old_path new_path t Hw Hdo Hdn Hne _ _ E eq_refl) as (t1 & m & Hw1 & He & Hm & Hfree & Hren).
  pose proof (wlp_rename old_path new_path t Hw Hdo Hdn _ _ E) as Hw'. exists t1, m. split_and!; try done. apply cd_path_loaded.
  assert (base t' (root t') new_path = root t') as -> by (unfold base; by destruct (starts_with_slash _)).
  fold (view t' (parse_dir_path new_path)). rewrite Hren by done. assert (strip (parse_dir_path new_path) (parse_dir_path new_path) = Some []) as -> by (apply strip_Some; by rewrite app_nil_r). by rewrite app_nil_r.
Qed.
End View.

(** ** Examples *)

(** The tree of [ram_sample] with nothing read, and after some calls. *)
Definition t_sample : @Tree Ram nat := first_tree 0%nat ram_sample.
Definition t_made : @Tree Ram nat := after (mkdir 0 (chars "/d/x")) t_sample.
Definition t_deleted : @Tree Ram nat := after (tree_delete 0 (chars "/d/f") false) t_sample.
Definition t_renamed : @Tree Ram nat := after (rename (chars "/a") (chars "/d/g")) t_sample.

(** A path without "..", by evaluation. *)
Ltac no_dots_tac := apply (bool_decide_unpack _); vm_compute; exact I.

Lemma mkdir_makes_path_witness :
  ∃ t1 v, wf ∅ t1 ∧ ext t_sample t1 ∧ wf ∅ t_made ∧ view t1 ([] ++ parse_dir_path (chars "/d/x")) = None ∧
    (∀ ks, no_dots ks → view t_made ks = if decide (ks = [] ++ parse_dir_path (chars "/d/x")) then Some v else view t1 ks) ∧
    cd_path 0 (chars "/d/x") t_made = Ok (Okay v, t_made) ∧ mkdir 0 (chars "/d/x") t_made = Ok (Err EEXIST, t_made).
Proof.
  apply (mkdir_makes_path t_sample t_made 0 (chars "/d/x") []).
  - apply first_tree_wf.
  - no_dots_tac.
  - reflexivity.
  - no_dots_tac.
  - vm_compute. reflexivity.
Defined.

Lemma delete_removes_path_witness :
  ∃ t1 m, wf ∅ t1 ∧ ext t_sample t1 ∧ wf ∅ t_deleted ∧ view t1 ([] ++ parse_dir_path (chars "/d/f")) = Some m ∧
    (∀ ks, no_dots ks → view t_deleted ks = match strip ([] ++ parse_dir_path (chars "/d/f")) ks with Some _ => None | None => view t1 ks end) ∧
    cd_path 0 (chars "/d/f") t_deleted = Ok (Err ENOENT, t_deleted).
Proof.
  apply (delete_removes_path t_sample t_deleted 0 (chars "/d/f") false []).
  - apply first_tree_wf.
  - no_dots_tac.
  - reflexivity.
  - no_dots_tac.
  - vm_compute. reflexivity.
Defined.

Lemma rename_moves_path_witness :
  ∃ t1 m, wf ∅ t1 ∧ ext t_sample t1 ∧ wf ∅ t_renamed ∧ view t1 (parse_dir_path (chars "/a")) = Some m ∧ view t1 (parse_dir_path (chars "/d/g")) = None ∧
    renamed (parse_dir_path (chars "/a")) (parse_dir_path (chars "/d/g")) t1 t_renamed ∧ cd_path (root t_renamed) (chars "/d/g") t_renamed = Ok (Okay m, t_renamed).
Proof.
  apply (rename_moves_path t_sample t_renamed (chars "/a") (chars "/d/g")).
  - apply first_tree_wf.
  - no_dots_tac.
  - no_dots_tac.
  - apply (bool_decide_unpack _). vm_compute. exact I.
  - vm_compute. reflexivity.
Defined.

Definition es_renamed : list tree_event := [TRename (chars "/a") (chars "/d/g")].

Lemma t_renamed_reachable : reachable 0%nat ram_sample es_renamed t_renamed.
Proof.
  exists t_sample. split; [reflexivity|]. eapply run_step; [|apply run_nil]. apply (step_rename (chars "/a") (chars "/d/g") (Okay tt)).
  vm_compute. reflexivity.
Qed.

(** The node of "/d" in the renamed tree. *)
Definition d_node : @Node nat := default (mkNode 0 [] (mkFileSystem 0 FS_Null) 0%nat None None) (nodes t_renamed !! 2%nat).

Lemma directory_tree_invariant_witness :
  (∃ ks, walk t_renamed (root t_renamed) ks 2 ∧ ∀ ks', walk t_renamed (root t_renamed) ks' 2 → ks' = ks) ∧ (2%nat = root t_renamed ↔ father d_node = None) ∧
  (∀ p, father d_node = Some p → ∃ k, child t_renamed p k 2) ∧ (2%nat ∈ (directory_vec t_renamed).1).
Proof.
  apply (directory_tree_invariant 0%nat ram_sample es_renamed t_renamed 2%nat d_node).
  - apply t_renamed_reachable.
  - apply Forall_singleton. split; no_dots_tac.
  - vm_compute. reflexivity.
Defined.
