(* ===== verification/TreePaths.v ===== *)
(** * Paths as strings, and the error results of the tree

    The normal form that [parse_dir_path] gives, that [get_cwd] finds a path that
    leads back to the node, the errors of the calls, and runs of the tree on a file
    system in memory, which show where the calls do not do what they are meant
    to. *)

From stdpp Require Import relations.
From S2P Require Import Prelude Config FdTable Utf Layout OSInode Tree RamFs TreeSpec TreeView.

Section Paths.
Context {S F : Type} `{!FileTrait S F}.
Implicit Types t : @Tree S F.
Implicit Types x : @Node F.

(** ** Paths as strings *)

(** A component of a path that is a name. *)
Definition good_name (k : list Z) : Prop := k ≠ [] ∧ k ≠ DOT ∧ k ≠ DOTDOT ∧ SLASH ∉ k.

#[global] Instance good_name_dec k : Decision (good_name k) := ltac:(unfold good_name; apply _).

Lemma split_path_not_nil path : split_path path ≠ [].
Proof. destruct path as [|c path]; cbn [split_path]; [done|]. destruct (c =? SLASH); [done|]. by destruct (split_path path). Qed.

Lemma split_path_name k : SLASH ∉ k → split_path k = [k].
Proof.
  induction k as [|c k IH]; intros Hk; cbn [split_path]; [done|]. apply not_elem_of_cons in Hk as [Hc Hk].
  destruct (Z.eqb_spec c SLASH); [congruence|]. by rewrite IH.
Qed.

Lemma split_path_app k path : SLASH ∉ k → split_path (k ++ SLASH :: path) = k :: split_path path.
Proof.
  induction k as [|c k IH]; intros Hk; cbn [split_path app]; [by rewrite Z.eqb_refl|]. apply not_elem_of_cons in Hk as [Hc Hk].
  destruct (Z.eqb_spec c SLASH); [congruence|]. by rewrite IH.
Qed.

(** Splitting undoes joining. *)
Lemma split_join v : v ≠ [] → Forall (fun k => SLASH ∉ k) v → split_path (join_path v) = v.
Proof.
  induction v as [|k v IH]; intros Hne Hv; [done|]. inversion Hv as [|? ? Hk Hv']; subst. destruct v as [|k' v]; [by apply split_path_name|].
  change (join_path (k :: k' :: v)) with (k ++ SLASH :: join_path (k' :: v)). rewrite split_path_app by done. f_equal. by apply IH.
Qed.

Lemma split_path_no_slash path : Forall (fun k => SLASH ∉ k) (split_path path).
Proof.
  induction path as [|c path IH]; cbn [split_path]; [constructor; [set_solver|done]|]. destruct (Z.eqb_spec c SLASH); [constructor; [set_solver|done]|].
  destruct (split_path path) as [|s rest]; [by constructor; [set_solver|]|]. inversion IH; subst. constructor; [set_solver|done].
Qed.

(** ".." only at the front, the rest names. *)
Definition normal (v : list (list Z)) : Prop := ∃ n rest, v = replicate n DOTDOT ++ rest ∧ Forall good_name rest.

Lemma normal_push v s : normal v → SLASH ∉ s → normal (parse_step v s).
Proof.
  intros (n & rest & -> & Hr) Hs. unfold parse_step. destruct (bool_decide (s = []) || bool_decide (s = DOT)) eqn:Hb; [by exists n, rest|].
  apply orb_false_iff in Hb as [H1%bool_decide_eq_false H2%bool_decide_eq_false]. case_bool_decide as H3.
  - subst s. destruct rest as [|k rest _] using rev_ind.
    + rewrite app_nil_r. exists (Datatypes.S n), []. rewrite app_nil_r. split; [|done]. destruct n as [|n]; [done|]. rewrite replicate_S_end, last_snoc, bool_decide_true by done.
      unfold vec_push. by rewrite <-replicate_S_end, <-replicate_S_end.
    + rewrite app_assoc, last_snoc, removelast_last. apply Forall_app in Hr as [Hr Hk]. inversion Hk as [|? ? Hg _]; subst. rewrite bool_decide_false by apply Hg. by exists n, rest.
  - exists n, (rest ++ [s]). unfold vec_push. rewrite app_assoc. split; [done|]. apply Forall_app. split; [done|]. by repeat constructor.
Qed.

Lemma parse_normal path : normal (parse_dir_path path).
Proof.
  unfold parse_dir_path. assert (∀ l v, normal v → Forall (fun k => SLASH ∉ k) l → normal (foldl parse_step v l)) as Hind.
  { induction l as [|s l IH]; intros v Hv Hl; [done|]. inversion Hl; subst. apply IH; [by apply normal_push|done]. }
  apply Hind; [by exists 0%nat, []|apply split_path_no_slash].
Qed.

Lemma foldl_good l v : Forall good_name l → foldl parse_step v l = v ++ l.
Proof.
  revert v. induction l as [|k l IH]; intros v Hl; cbn [foldl]; [by rewrite app_nil_r|]. inversion Hl as [|? ? (H1 & H2 & H3 & _) Hl']; subst. rewrite IH by done.
  unfold parse_step. rewrite !bool_decide_false by done. cbn. unfold vec_push. by rewrite <-app_assoc.
Qed.

Lemma parse_join ks : Forall good_name ks → parse_dir_path (join_path ([] :: ks)) = ks.
Proof.
  intros Hk. unfold parse_dir_path. rewrite split_join; [|done|constructor; [set_solver|]; eapply Forall_impl; [exact Hk|]; by intros k (_ & _ & _ & ?)].
  cbn [foldl]. unfold parse_step at 2. by rewrite foldl_good.
Qed.

(** The components one after the other, as they are written. *)
Fixpoint literal t (n : nat) (comps : list (list Z)) : option nat :=
  match comps with
  | [] => Some n
  | s :: comps => m ← (if bool_decide (s = []) || bool_decide (s = DOT) then Some n else step_to t n s); literal t m comps
  end.

Lemma step_up t n k m : wf ∅ t → k ≠ DOTDOT → step_to t n k = Some m → step_to t m DOTDOT = Some n.
Proof.
  intros Hw Hk Hs. apply step_child in Hs; [|done]. destruct (wf_child ∅ t Hw n k m Hs) as (_ & _ & y & Hy & Hf). unfold step_to. rewrite Hy. cbn.
  destruct Hs as (x & c & Hx & _). by rewrite Hf, Hx.
Qed.

Lemma parse_literal t n v comps p m :
  wf ∅ t → resolve t n v = Some p → literal t p comps = Some m → resolve t n (foldl parse_step v comps) = Some m.
Proof.
  intros Hw. revert v p. induction comps as [|s comps IH]; intros v p Hv; cbn [literal foldl]; [by intros [= <-]|]. intros (q & Hq & Hl)%bind_Some.
  assert (∀ k, step_to t p k = Some q → resolve t n (v ++ [k]) = Some q) as Hpush.
  { intros k Hk. rewrite resolve_app, Hv. cbn. by rewrite Hk. }
  eapply IH; [|exact Hl]. unfold parse_step, vec_push. destruct (bool_decide (s = []) || bool_decide (s = DOT)); [by simplify_eq|].
  case_bool_decide as Hs; [|by apply Hpush]. subst s. destruct (last v) as [l|] eqn:El; [|by apply Hpush]. case_bool_decide as Hd; [by apply Hpush|].
  rewrite (removelast_snoc v l El), resolve_app in Hv. apply bind_Some in Hv as (a & Ha & (b & Hb & [= ->])%bind_Some).
  rewrite (step_up t a l p Hw Hd Hb) in Hq. by injection Hq as <-.
Qed.

Lemma parse_again v : normal v → parse_dir_path (join_path v) = v.
Proof.
  intros (n & rest & -> & Hr). unfold parse_dir_path. destruct (decide (replicate n DOTDOT ++ rest = [])) as [->|Hne]; [done|].
  rewrite split_join; [|done|apply Forall_app; split; [apply Forall_replicate; unfold SLASH, DOTDOT; set_solver|eapply Forall_impl; [exact Hr|]; by intros k (_ & _ & _ & ?)]].
  rewrite foldl_app. assert (foldl parse_step [] (replicate n DOTDOT) = replicate n DOTDOT) as ->; [|by rewrite foldl_good].
  clear Hne. induction n as [|n IH]; [done|]. rewrite replicate_S_end, foldl_snoc, IH. clear IH. destruct n as [|n]; [done|].
  assert (last (replicate (Datatypes.S n) DOTDOT) = Some DOTDOT) as Hl by (by rewrite replicate_S_end, last_snoc).
  unfold parse_step. rewrite Hl. done.
Qed.

(** C19: the components of a path are in normal form (".." only at the front, then
    names that are neither empty nor "." nor contain a slash); parsing the
    normal form again changes nothing; and if the components as they are written
    lead to a node one after the other, the normal form leads to the same node,
    without reading anything. *)
Theorem parse_dir_path_correct t self path :
  normal (parse_dir_path path) ∧ parse_dir_path (join_path (parse_dir_path path)) = parse_dir_path path ∧
  (wf ∅ t → ∀ m, literal t (base t self path) (split_path path) = Some m → cd_path self path t = Ok (Okay m, t)).
Proof.
  split; [apply parse_normal|]. split; [apply parse_again, parse_normal|]. intros Hw m Hm. apply cd_path_loaded. by eapply parse_literal.
Qed.

(** ** [get_cwd] *)

(** The nodes on the way to a node are all different. *)
Lemma walk_trace D t ks n : wf D t → walk t (root t) ks n →
  ∃ l, length l = Datatypes.S (length ks) ∧ NoDup l ∧ ∀ z, z ∈ l → is_Some (nodes t !! z) ∧ ∃ ks', walk t (root t) ks' z ∧ (length ks' ≤ length ks)%nat.
Proof.
  intros Hw. revert n. induction ks as [|k ks IH] using rev_ind; intros n Hn.
  - cbn in Hn. exists [root t]. split_and!; [done|apply NoDup_singleton|]. intros z ->%list_elem_of_singleton. split; [apply (wf_root D t Hw)|]. by exists [].
  - pose proof Hn as (p & Hp & Hc)%walk_snoc. destruct (IH p Hp) as (l & Hlen & Hnd & Hl). exists (n :: l). rewrite length_app. cbn. split_and!; [lia| |].
    + apply NoDup_cons. split; [|done]. intros (_ & ks' & Hks' & Hle)%Hl. pose proof (walk_unique D t _ _ n Hw Hks' Hn) as ->. rewrite length_app in Hle. cbn in Hle. lia.
    + intros z [->|Hz]%elem_of_cons.
      * destruct (wf_child D t Hw p k n Hc) as (_ & _ & y & Hy & _). split; [by eexists|]. exists (ks ++ [k]). split; [done|]. rewrite length_app. cbn. lia.
      * destruct (Hl z Hz) as [? (ks' & ? & ?)]. split; [done|]. exists ks'. split; [done|]. lia.
Qed.

Lemma walk_depth D t ks n : wf D t → walk t (root t) ks n → (length ks < size (nodes t))%nat.
Proof.
  intros Hw Hk. destruct (walk_trace D t ks n Hw Hk) as (l & Hlen & Hnd & Hl). assert (list_to_set l ⊆ dom (nodes t)) as Hs.
  { intros z Hz. apply elem_of_list_to_set in Hz. by apply elem_of_dom, Hl. }
  apply subseteq_size in Hs. rewrite size_list_to_set in Hs by done. rewrite size_dom in Hs. lia.
Qed.

Lemma get_cwd_loop_walk t ks n fuel pv x :
  wf ∅ t → named t → walk t (root t) ks n → (length ks < fuel)%nat → nodes t !! root t = Some x →
  get_cwd_loop fuel n pv t = Ok (pv ++ reverse ks ++ [node_name x], t).
Proof.
  intros Hw Hnm. revert n fuel pv. induction ks as [|k ks IH] using rev_ind; intros n fuel pv Hk Hf Hx; (destruct fuel as [|fuel]; [lia|]); cbn [get_cwd_loop].
  - cbn in Hk. subst n. unfold get_node, upgrade, mbind, st_bind, get_st, unwrap, gets. rewrite Hx. cbn. by rewrite (wf_top ∅ t Hw x Hx).
  - apply walk_snoc in Hk as (p & Hp & Hc). destruct (wf_child ∅ t Hw p k n Hc) as (_ & _ & y & Hy & Hfa). pose proof (Hnm p k n y Hc Hy) as Hn.
    unfold get_node, upgrade, mbind, st_bind, get_st, unwrap, gets. rewrite Hy. cbn. rewrite Hfa. destruct Hc as (z & c & Hz & _). rewrite Hz.
    rewrite length_app in Hf. cbn in Hf. rewrite (IH p fuel) by (done || lia). unfold vec_push. rewrite Hn, reverse_app, reverse_singleton, <-!app_assoc. done.
Qed.

(** C18: [get_cwd] of a node of the tree returns, the path it finds is absolute and
    [cd_path] of the path from anywhere leads back to the node, without reading
    anything.  The names must be names that a path can hold, the root must have the
    empty name, and each other node the name that its father knows it by ([named]).  The calls other than
    [rename] keep the latter (the lemmas on [inv_kept]); a rename to another name
    breaks it: [rename_keeps_names]. *)
Theorem get_cwd_roundtrip t n x ks self :
  wf ∅ t → named t → nodes t !! root t = Some x → node_name x = [] → walk t (root t) ks n → Forall good_name ks →
  ∃ path, get_cwd n t = Ok (path, t) ∧ starts_with_slash path = true ∧ cd_path self path t = Ok (Okay n, t).
Proof.
  intros Hw Hnm Hx Hn Hk Hg. exists (if (length ks =? 0)%nat then [SLASH] else join_path ([] :: ks)).
  assert (no_dots ks) as Hd by (intros H; eapply Forall_forall in Hg; [|exact H]; by destruct Hg as (_ & _ & ? & _)).
  split.
  - unfold get_cwd, mbind, st_bind, get_st. rewrite (get_cwd_loop_walk t ks n _ [] x Hw Hnm Hk (walk_depth ∅ t ks n Hw Hk) Hx). cbn [app].
    rewrite reverse_app, reverse_involutive, reverse_singleton, Hn. cbn [length app]. destruct ks; done.
  - destruct ks as [|k ks]; cbn [length Nat.eqb].
    + split; [done|]. apply cd_path_loaded. cbn in Hk. by subst n.
    + assert (starts_with_slash (join_path ([] :: k :: ks)) = true) as Hs by done. split; [done|]. apply cd_path_loaded. rewrite parse_join by done.
      unfold base. rewrite Hs. by apply walk_resolve.
Qed.

(** ** Errors *)

Lemma file_is_dir_pure t f ft : file_get_type f (fs_state t) = Ok (ft, fs_state t) → file_is_dir f t = Ok (bool_decide (ft = Directory), t).
Proof. intros E. unfold file_is_dir, on_fs, mbind, st_bind, outcome_bind. rewrite E. by destruct t. Qed.

Lemma run_bind {A B} (m : ST (@Tree S F) A) (f : A → ST Tree B) t a t' : m t = Ok (a, t') → (m ≫= f) t = f a t'.
Proof. intros E. unfold mbind, st_bind. by rewrite E. Qed.

Lemma run_okay {A B} (m : ST (@Tree S F) (Result A)) (f : A → ST Tree (Result B)) t a t' : m t = Ok (Okay a, t') → result_bind m f t = f a t'.
Proof. intros E. unfold result_bind. by rewrite (run_bind _ _ _ _ _ E). Qed.

Lemma run_err {A B} (m : ST (@Tree S F) (Result A)) (f : A → ST Tree (Result B)) t e t' : m t = Ok (Err e, t') → result_bind m f t = Ok (Err e, t').
Proof. intros E. unfold result_bind. by rewrite (run_bind _ _ _ _ _ E). Qed.

Lemma run_start t self path : start_node self path t = Ok (base t self path, t).
Proof. done. Qed.

(** The directory of the last component [k] is read: [c] are its names. *)
Definition parent_read t (self : nat) (path : list Z) (k : list Z) (c : gmap (list Z) nat) : Prop :=
  ∃ pc n x, parse_dir_path path = pc ++ [k] ∧ k ≠ DOTDOT ∧ resolve t (base t self path) pc = Some n ∧ nodes t !! n = Some x ∧ children x = Some c.

Lemma cd_parent_read t self path k c :
  parent_read t self path k c →
  cd_comp (base t self path) (parse_dir_path path) t = Ok (match c !! k with Some m => Okay m | None => Err ENOENT end, t).
Proof.
  intros (pc & n & x & Hp & Hk & Hn & Hx & Hc). rewrite Hp, (cd_comp_resolve_app t _ pc [k] n Hn). cbn [cd_comp]. rewrite bool_decide_false by done.
  pose proof (try_to_open_loaded t n k x c Hx Hc) as E. destruct (c !! k) as [m|]; [by rewrite (run_okay _ _ _ _ _ E)|by rewrite (run_err _ _ _ _ _ E)].
Qed.

Lemma open_lookup_read t self path k c flags :
  parent_read t self path k c →
  (c !! k = None → flags_contains flags O_CREAT = false → open_lookup (base t self path) path flags t = Ok (Err ENOENT, t)) ∧
  (is_Some (c !! k) → flags_contains flags (Z.lor O_CREAT O_EXCL) = true → open_lookup (base t self path) path flags t = Ok (Err EEXIST, t)).
Proof.
  intros (pc & n & x & Hp & Hk & Hn & Hx & Hc). unfold open_lookup. rewrite Hp, removelast_last, last_snoc.
  rewrite (run_okay _ _ _ _ _ (cd_comp_loaded t _ pc n Hn)), (run_bind _ _ _ _ _ (try_to_open_loaded t n k x c Hx Hc)). split.
  - intros -> Hf. cbn. by rewrite Hf.
  - intros [m ->] Hf. by rewrite Hf.
Qed.

(** An error of the lookup is the result of [open], unless the path is cached. *)
Lemma open_lookup_err t self path flags special e :
  redirect path = path → (path_cache t).1 ≠ path → open_lookup (base t self path) path flags t = Ok (Err e, t) → open self path flags special t = Ok (Err e, t).
Proof.
  intros Hr Hc E. unfold open. rewrite Hr, (run_bind _ _ _ _ _ (run_start t self path)). rewrite (run_bind _ _ t _ t eq_refl), (run_bind _ _ t _ t eq_refl).
  rewrite (bool_decide_false (path = _)) by congruence. rewrite andb_false_r. by apply run_err.
Qed.

Lemma delete_read t self path k c dd m y :
  parent_read t self path k c → c !! k = Some m → nodes t !! m = Some y → last (split_path path) ≠ Some DOT →
  (0 < spe_usage y → tree_delete self path dd t = Ok (Err EBUSY, t)) ∧
  (∀ ft, spe_usage y ≤ 0 → file_get_type (node_file y) (fs_state t) = Ok (ft, fs_state t) →
    (ft = Directory → tree_delete self path false t = Ok (Err EISDIR, t)) ∧ (ft ≠ Directory → tree_delete self path true t = Ok (Err ENOTDIR, t))).
Proof.
  intros Hp Hm Hy Hdot. pose proof (cd_parent_read t self path k c Hp) as E. rewrite Hm in E. destruct Hp as (pc & n & x & Hp & _).
  assert (get_node m t = Ok (y, t)) as Eg by (unfold get_node, mbind, st_bind, get_st, unwrap; by rewrite Hy).
  assert (∀ d, ∃ f : ST Tree (Result unit), tree_delete self path d t = (if 0 <? spe_usage y then mret (Err EBUSY) else f : ST Tree (Result unit)) t ∧
    ∀ ft, file_get_type (node_file y) (fs_state t) = Ok (ft, fs_state t) →
      (ft = Directory → d = false → f t = Ok (Err EISDIR, t)) ∧ (ft ≠ Directory → d = true → f t = Ok (Err ENOTDIR, t))) as Hrun.
  { intros d. unfold tree_delete. rewrite bool_decide_false by done. rewrite (run_bind _ _ _ _ _ (run_start t self path)).
    rewrite (run_bind (unwrap _) _ t k t) by (rewrite Hp, last_snoc; done). rewrite (run_okay _ _ _ _ _ E), (run_bind _ _ _ _ _ Eg).
    eexists. split; [reflexivity|]. intros ft Hft. rewrite (run_bind _ _ _ _ _ (file_is_dir_pure t _ ft Hft)). split; intros Hd ->.
    - by rewrite bool_decide_true.
    - by rewrite bool_decide_false. }
  split.
  - intros Hu. destruct (Hrun dd) as (f & -> & _). by rewrite (proj2 (Z.ltb_lt _ _) Hu).
  - intros ft Hu Hft. assert ((0 <? spe_usage y) = false) as Hz by (by apply Z.ltb_ge). split; intros Hd.
    + destruct (Hrun false) as (f & -> & Hf). rewrite Hz. by apply (Hf ft).
    + destruct (Hrun true) as (f & -> & Hf). rewrite Hz. by apply (Hf ft).
Qed.

Lemma not_directory t n x ks k :
  nodes t !! n = Some x → children x = None → file_get_type (node_file x) (fs_state t) = Ok (File, fs_state t) → k ≠ DOTDOT →
  cd_comp n (k :: ks) t = Ok (Err ENOTDIR, t).
Proof.
  intros Hx Hc Hf Hk. cbn [cd_comp]. rewrite bool_decide_false by done. apply run_err. unfold try_to_open_subfile. apply run_err. unfold cache_all_subfile.
  assert (get_node n t = Ok (x, t)) as Eg by (unfold get_node, mbind, st_bind, get_st, unwrap; by rewrite Hx).
  rewrite (run_bind _ _ _ _ _ Eg), Hc. by rewrite (run_bind _ _ _ _ _ (file_is_dir_pure t _ File Hf)).
Qed.

(** C17: some errors of the calls with a path whose parent directory is read and
    whose last component is not ".."; each leaves the tree and the files as they
    were.  A missing name: [ENOENT] from the lookup, from [delete] and from [open]
    without [O_CREAT].  A name that is there: [EEXIST] from [mkdir] and from [open]
    with [O_CREAT | O_EXCL]; [EBUSY] from [delete] while the node is in use, and
    when it is not, [EISDIR] for a directory that is unlinked and [ENOTDIR] for
    something else that is removed as a directory; [ENOTDIR] from a lookup through a
    regular file.  [EINVAL] from a rename of an absolute path below itself.  For
    [open] the path is not redirected and not in [PATH_CACHE], for [delete] it does
    not end in ".".  Other errors can come after a change ([rename_loses_directory],
    [open_truncates_busy]). *)
Theorem tree_call_errors t self path k c :
  parent_read t self path k c →
  (c !! k = None →
     cd_path self path t = Ok (Err ENOENT, t) ∧
     (∀ dd, last (split_path path) ≠ Some DOT → tree_delete self path dd t = Ok (Err ENOENT, t)) ∧
     (∀ flags special, redirect path = path → (path_cache t).1 ≠ path → flags_contains flags O_CREAT = false → open self path flags special t = Ok (Err ENOENT, t))) ∧
  (∀ m y, c !! k = Some m → nodes t !! m = Some y →
     mkdir self path t = Ok (Err EEXIST, t) ∧
     (∀ flags special, redirect path = path → (path_cache t).1 ≠ path → flags_contains flags (Z.lor O_CREAT O_EXCL) = true → open self path flags special t = Ok (Err EEXIST, t)) ∧
     (last (split_path path) ≠ Some DOT →
       (∀ dd, 0 < spe_usage y → tree_delete self path dd t = Ok (Err EBUSY, t)) ∧
       (∀ ft, spe_usage y ≤ 0 → file_get_type (node_file y) (fs_state t) = Ok (ft, fs_state t) →
         (ft = Directory → tree_delete self path false t = Ok (Err EISDIR, t)) ∧ (ft ≠ Directory → tree_delete self path true t = Ok (Err ENOTDIR, t)))) ∧
     (∀ name ks, children y = None → file_get_type (node_file y) (fs_state t) = Ok (File, fs_state t) → name ≠ DOTDOT →
       cd_comp (base t self path) (parse_dir_path path ++ name :: ks) t = Ok (Err ENOTDIR, t))) ∧
  (∀ new_path name ks, starts_with_slash path = true → starts_with_slash new_path = true → parse_dir_path new_path = parse_dir_path path ++ name :: ks →
     rename path new_path t = Ok (Err EINVAL, t)).
Proof.
  intros Hpr. split_and!.
  - intros Hno. pose proof (cd_parent_read t self path k c Hpr) as E. rewrite Hno in E. split_and!.
    + by rewrite cd_path_base.
    + intros dd Hdot. destruct Hpr as (pc & n & x & Hp & _). unfold tree_delete. rewrite bool_decide_false by done. rewrite (run_bind _ _ _ _ _ (run_start t self path)).
      rewrite (run_bind (unwrap _) _ t k t) by (rewrite Hp, last_snoc; done). by apply run_err.
    + intros flags special Hr Hca Hf. apply open_lookup_err; [done|done|]. by apply (open_lookup_read t self path k c flags Hpr).
  - intros m y Hm Hy. split_and!.
    + destruct Hpr as (pc & n & x & Hp & Hk & Hn & Hx & Hc). eapply (mkdir_again t self path pc k n m); try done. by exists x, c.
    + intros flags special Hr Hca Hf. apply open_lookup_err; [done|done|]. apply (open_lookup_read t self path k c flags Hpr); [by eexists|done].
    + intros Hdot. split; [intros dd; by apply (delete_read t self path k c dd m y)|by apply (delete_read t self path k c false m y)].
    + intros name ks Hc Hf Hn. destruct Hpr as (pc & n & x & Hp & Hk & Hpc & Hx & Hcx). rewrite Hp.
      rewrite (cd_comp_resolve_app t _ (pc ++ [k]) (name :: ks) m); [by eapply not_directory|].
      rewrite resolve_app, Hpc. cbn. assert (step_to t n k = Some m) as -> by (apply step_child; [done|]; by exists x, c). done.
  - intros new_path name ks Ho Hn Hp. unfold rename, rust_assert. rewrite Ho, Hn. rewrite !(run_bind _ _ t tt t) by done.
    rewrite bool_decide_false by (intros E%(f_equal length); rewrite Hp, length_app in E; cbn in E; lia).
    unfold comps_prefix. rewrite Hp, take_app_length, bool_decide_true by done. done.
Qed.
End Paths.

(** ** Examples *)

(** "/d" read. *)
Definition t_read : @Tree Ram nat := after (cd_path 0 (chars "/d/f")) t_sample.

Lemma t_read_found : found 0 [chars "d"; chars "f"] t_sample (Okay 4%nat) t_read.
Proof. apply (wlp_cd_comp 0 [chars "d"; chars "f"] t_sample); [apply first_tree_wf|]. vm_compute. reflexivity. Qed.

Lemma t_sample_named : named t_sample.
Proof. intros n k m y (x & c & Hx & Hc & _). cbn [nodes t_sample first_tree] in Hx. apply lookup_singleton_Some in Hx as [_ <-]. done. Qed.

Lemma parse_dir_path_correct_witness :
  normal (parse_dir_path (chars "/e/../d/./f")) ∧ cd_path 0 (chars "/e/../d/./f") t_read = Ok (Okay 4%nat, t_read).
Proof.
  destruct (parse_dir_path_correct t_read 0 (chars "/e/../d/./f")) as (Hn & _ & Hc). split; [exact Hn|].
  apply Hc; [apply t_read_found|]. vm_compute. reflexivity.
Defined.

Lemma get_cwd_roundtrip_witness :
  ∃ path, get_cwd 4 t_read = Ok (path, t_read) ∧ starts_with_slash path = true ∧ cd_path 2 path t_read = Ok (Okay 4%nat, t_read).
Proof.
  apply (get_cwd_roundtrip t_read 4 (default (mkNode 0 [] (mkFileSystem 0 FS_Null) 0%nat None None) (nodes t_read !! 0%nat)) [chars "d"; chars "f"] 2).
  - apply t_read_found.
  - apply t_read_found, t_sample_named.
  - vm_compute. reflexivity.
  - vm_compute. reflexivity.
  - apply resolve_walk; [no_dots_tac|]. vm_compute. reflexivity.
  - apply (bool_decide_unpack _). vm_compute. exact I.
Defined.

(** The names in "/d". *)
Definition d_names : gmap (list Z) nat := default ∅ (nodes t_read !! 2%nat ≫= children).

(** The nodes of "/d" and "/d/f". *)
Definition node_of (n : nat) : @Node nat := default (mkNode 0 [] (mkFileSystem 0 FS_Null) 0%nat None None) (nodes t_read !! n).

Lemma d_parent_read path k : parse_dir_path path = [chars "d"; k] → k ≠ DOTDOT → starts_with_slash path = true → parent_read t_read 0 path k d_names.
Proof.
  intros Hp Hk Hs. exists [chars "d"], 2%nat, (node_of 2). split; [exact Hp|]. split; [exact Hk|]. unfold base. rewrite Hs. split_and!; vm_compute; reflexivity.
Qed.

Lemma tree_call_errors_witness :
  cd_path 0 (chars "/d/x") t_read = Ok (Err ENOENT, t_read) ∧ mkdir 0 (chars "/d/f") t_read = Ok (Err EEXIST, t_read).
Proof.
  destruct (tree_call_errors t_read 0 (chars "/d/x") (chars "x") d_names) as [Hx _]; [apply d_parent_read; [reflexivity|discriminate|reflexivity]|].
  destruct (tree_call_errors t_read 0 (chars "/d/f") (chars "f") d_names) as (_ & Hf & _); [apply d_parent_read; [reflexivity|discriminate|reflexivity]|].
  split.
  - apply Hx. vm_compute. reflexivity.
  - apply (Hf 4%nat (node_of 4)); vm_compute; reflexivity.
Defined.

(** ** Runs that end differently than meant

    Each run starts from [t_sample] or from a tree after a few calls. *)

Definition O_TRUNC_RDWR : Z := Z.lor O_TRUNC O_RDWR.

Definition size_of (f : nat) (t : @Tree Ram nat) : option Z := rf_size <$> rf_files (fs_state t) !! f.

Definition names_of (d : nat) (t : @Tree Ram nat) : option (list (list Z)) := (fun x => (rf_names x).*1) <$> rf_files (fs_state t) !! d.

(** A file that cannot be opened for writing because it runs is truncated all the
    same: the truncation comes before the check. *)
Lemma open_truncates_busy :
  let t := after (open 0 (chars "/a") O_RDONLY true) t_sample in
  returns (open 0 (chars "/a") O_TRUNC_RDWR false) t = Some (Err ETXTBSY) ∧ size_of 1 t = Some 5 ∧
  size_of 1 (after (open 0 (chars "/a") O_TRUNC_RDWR false) t) = Some 0.
Proof. vm_compute. done. Qed.

(** [O_EXCL] has no effect on a path that was opened just before. *)
Lemma open_excl_cached :
  returns (open 0 (chars "/a") (Z.lor O_CREAT O_EXCL) false) t_sample = Some (Err EEXIST) ∧
  returns (open 0 (chars "/a") (Z.lor O_CREAT O_EXCL) false) (after (open 0 (chars "/a") O_RDONLY false) t_sample) = Some (Okay (1%nat, 1%nat)).
Proof. vm_compute. done. Qed.

(** The old path of a renamed file still opens it, while it is cached. *)
Lemma rename_keeps_cached_path :
  let t := after (rename (chars "/a") (chars "/b")) (after (open 0 (chars "/a") O_RDONLY false) t_sample) in
  returns (cd_path 0 (chars "/a")) t = Some (Err ENOENT) ∧ returns (open 0 (chars "/a") O_RDONLY false) t = Some (Okay (1%nat, 1%nat)).
Proof. vm_compute. done. Qed.

(** ".." as the last component is looked up as a name of the directory. *)
Lemma open_dotdot_fails :
  returns (cd_path 2 (chars "..")) t_read = Some (Okay 0%nat) ∧ returns (open 2 (chars "..") O_RDONLY false) t_read = Some (Err ENOENT) ∧
  names_of 2 (after (open 2 (chars "..") O_CREAT false) t_read) = Some [chars "f"; chars ".."].
Proof. vm_compute. done. Qed.

(** Removing "/" and renaming to "/" panic. *)
Lemma root_calls_panic : tree_delete 0 (chars "/") true t_sample = Panic ∧ rename (chars "/a") (chars "/") t_sample = Panic.
Proof. vm_compute. done. Qed.

(** After a renaming the directory on the disk has the old name, and [get_cwd]
    tells the old name too. *)
Lemma rename_keeps_names :
  let t := after (rename (chars "/e") (chars "/b")) t_sample in
  returns (cd_path 0 (chars "/b")) t = Some (Okay 3%nat) ∧ names_of 0 t = Some [chars "a"; chars "d"; chars "e"] ∧ returns (get_cwd 3) t = Some (chars "/e").
Proof. vm_compute. done. Qed.

(** A directory with files in it is not renamed, but its node is taken out of the
    tree before that is found. *)
Lemma rename_loses_directory :
  let t := after (rename (chars "/d") (chars "/b")) t_sample in
  returns (rename (chars "/d") (chars "/b")) t_sample = Some (Err ENOTEMPTY) ∧ returns (cd_path 0 (chars "/d")) t = Some (Err ENOENT).
Proof. vm_compute. done. Qed.

(** A file does not replace another one: the directory of the new name is asked to
    unlink itself, which fails while the name is in it. *)
Lemma rename_over_fails :
  let t := after (open 0 (chars "/d/g") O_CREAT false) t_sample in
  returns (rename (chars "/a") (chars "/d/g")) t = Some (Err ENOTEMPTY).
Proof. vm_compute. done. Qed.

(** With ".." in front of the old path a directory can be moved below itself: it
    is lost, its own child. *)
Lemma rename_below_itself :
  let t := after (rename (chars "/../e") (chars "/e/x")) t_sample in
  returns (rename (chars "/../e") (chars "/e/x")) t_sample = Some (Okay tt) ∧ returns (cd_path 0 (chars "/e")) t = Some (Err ENOENT) ∧
  ((fun x => (father x, kids (children x))) <$> nodes t !! 3%nat) = Some (Some 3%nat, {[3%nat]}).
Proof. vm_compute. done. Qed.

(** With "/.." in one of the paths the same directory is locked twice. *)
Lemma rename_locks_twice : rename (chars "/../a") (chars "/b") t_sample = OutOfFuel.
Proof. vm_compute. done. Qed.

(** The absolute path of a renaming is taken as relative to the directory of the
    descriptor. *)
Lemma fd_rename_absolute :
  let t := after (cd_path 0 (chars "/d")) t_sample in
  let fd := mkHandle false 2%nat (Some 2%nat) in
  returns (fd_rename fd (chars "/a") fd (chars "/b")) t = Some (Err ENOENT) ∧
  returns (fd_rename fd (chars "/f") fd (chars "/b")) t = Some (Okay tt).
Proof. vm_compute. done. Qed.
